(* ===== verification/_CoqProject ===== *)
-Q . S2P
Prelude.v
TimeVal.v
PjString.v
Base64.v
Words.v
Blocks.v
Crc32.v
Sha1.v
Md5.v
Hmac.v
StunMsg.v
StunCodec.v
StunAttr.v
StunRoundtrip.v
StunCheck.v
StunBounds.v
StunAuth.v
StunTsx.v
StunReject.v
Dns.v
DnsProps.v
CircBuf.v
DelayBuf.v
Pool.v
PoolSpec.v
PoolCaching.v
G711Tables.v
G711.v
Rtp.v
Jbuf.v
JbufRing.v
JbufWindow.v
JbufSpec.v
JbufProps.v
Scanner.v
Sdp.v
SdpCmp.v
SdpNeg.v
SdpNegState.v
SdpAnswer.v
SdpOffer.v
SdpParse.v
SdpPrint.v
Hash.v
Timer.v
TimerHeap.v
TimerSpec.v
TsxModel.v
TsxTimer.v
TsxCore.v
TsxAutomaton.v
TsxSafety.v
TsxFrame.v
TsxBehaviour.v
TsxKey.v
TsxLayer.v
TsxRefs.v
SipAuth.v
SipAuthProps.v
