(* ===== verification/Prelude.v ===== *)
(** * A verification library for PJSIP 2.4

    PJSIP is a SIP user-agent stack in C: [pjlib] (strings, times, memory
    pools, hash tables, timers, sockets), [pjlib-util] (digests, text scanner,
    DNS), [pjnath] (STUN, TURN, ICE), [pjmedia] (SDP, RTP, jitter and delay
    buffers, codecs, devices), [pjsip] (messages, transports, transactions,
    dialogs) and the applications on top of them.  The library models the
    stateful core of the five libraries: the SIP transaction layer with the
    tables and timers it stands on; the path of media from its description
    (SDP and its negotiation) to packets, jitter buffer and samples; the STUN
    messages, their authentication and transactions with the digests under
    them; SIP digest authentication; and DNS packets.

    ** Parts and files

    Shared:
    - [Prelude]: C integers at their width ([u8] .. [u64], [s32]), byte order,
      status codes, and the tactics and hints of the library.  This file.
    - [TimeVal]: [pj_time_val] and its macros ([pj/types.h], [types.c]).
    - [PjString]: counted strings as lists of byte values; comparison,
      trimming, number parsing and printing ([string.c], [string_i.h],
      [ctype.h]).

    [pjlib]:
    - [Pool], [PoolSpec], [PoolCaching]: memory pools ([pool.c], [pool_i.h],
      [pool_buf.c]) and the caching factory ([pool_caching.c],
      [pool_policy_malloc.c]).
    - [Hash]: the chained hash table of [hash.c], with a refinement to finite
      maps.
    - [Timer]: the timer heap of [timer.c] with its id table and free-id stack,
      on a store of shared entries; [TimerHeap] proves that the reheap loops
      restore order and keep slots and ids in step, [TimerSpec] that the heap
      implements the map of running timers and that a poll runs the earliest
      due ones.

    [pjlib-util]:
    - [Base64] ([base64.c]).
    - [Words], [Blocks]: 32-bit words, buffers and blocks of the digests.
    - [Crc32], [Sha1], [Md5] ([crc32.c], [sha1.c], [md5.c]) against the
      published algorithms; [Hmac] ([hmac_sha1.c], [hmac_md5.c]) over the class
      [Digest], of which SHA-1 and MD5 are instances.
    - [Scanner]: the text scanner under the SDP parser ([scanner.c]).
    - [Dns]: queries, packets and copies of [dns.c]; [DnsProps]: its theorems.

    [pjnath]:
    - [StunMsg], [StunCodec]: messages, attributes, descriptors, the decoder,
      the encoder and the check of [stun_msg.c]; [StunAttr] and [StunRoundtrip]
      prove the round trip, [StunCheck] what FINGERPRINT protects,
      [StunBounds] what holds of the decoder on any packet.
    - [StunAuth]: credentials and the verification of requests and responses of
      [stun_auth.c].
    - [StunTsx]: the client transactions of [stun_transaction.c].
    - [StunReject]: a rejected request, from the server's answer to the
      client's transaction.

    [pjmedia]:
    - [Sdp], [SdpCmp]: session descriptions ([sdp.h], [sdp.c]) and their
      comparison ([sdp_cmp.c]); [SdpParse], [SdpPrint]: the parser and the
      printer of [sdp.c].
    - [SdpNeg]: the negotiator of [sdp_neg.c]; [SdpNegState]: its operations as
      steps and the offer/answer automaton; [SdpAnswer], [SdpOffer]: what
      answers are made of and how they are applied.
    - [Rtp]: the whole of [rtp.c]: framing, decoding, status, sequence control.
    - [Jbuf]: the jitter buffer of [jbuf.c]; [JbufRing] and [JbufWindow]: its
      ring as a window of sequence numbers; [JbufSpec], [JbufProps]: the buffer
      against the operations on windows, and its theorems.
    - [CircBuf]: the circular sample buffer of [circbuf.h]; [DelayBuf]: the
      delay buffer of [delaybuf.c], written against the class [SampleQueue],
      which [CircBuf] implements, and the class [Wsola].
    - [G711Tables], [G711]: A-law and u-law, computed and by table
      ([alaw_ulaw.c], [alaw_ulaw_table.c]).

    [pjsip]:
    - [TsxModel]: one transaction.  The record [pjsip_transaction] is the C
      struct less pool, locks and log names; the operations run in the state
      monad [M] over [world], which also holds the transmit buffers whose
      module data points at the transaction, the id of the layer's module and
      a trace of effects (messages sent, callbacks of the user, references
      taken and dropped, timers armed and cancelled, failed assertions).  One
      definition per C function, and for the long handlers one more per branch.
    - [TsxTimer]: the timer heap answers the calls of a transaction as
      [TsxModel] says.
    - [TsxCore]: the projection of the transaction the state machine depends
      on, and a small program logic over [M] for it.
    - [TsxAutomaton]: the automaton of RFC 3261 section 17 ([rfc3261_step]) and
      the proof that each handler makes at most one move of it.
    - [TsxSafety]: the entry points as operations ([tsx_op], [run_op],
      [run_ops]), what is asked of their surroundings ([surroundings_ok],
      [late_completion], [orderly]), refinement of the automaton and the safety
      of runs.
    - [TsxFrame]: the class [Observer] of projections every operation respects,
      used for what never changes and, in [TsxRefs] (after [TsxLayer], whose
      creation functions it starts from), for the count of transport
      references.
    - [TsxBehaviour]: what the handlers do, branch by branch: retransmission,
      ACK, termination and destruction.
    - [TsxKey]: transaction keys and methods ([create_tsx_key_2543] and
      [create_tsx_key_3261], [pjsip_method_init_np] of [sip_msg.c]).
    - [TsxLayer]: the table of transactions, their creation, the dispatch of
      received messages, stop and unload.  The layer uses its table through the
      class [KeyTable]; the hash table is its instance.
    - [SipAuth]: digest authentication, client session and server
      ([sip_auth_client.c], [sip_auth_server.c], on [Md5]); [SipAuthProps]: its
      theorems.

    ** What the theorems show

    - Each entry point of a SIP transaction, whatever the transport layer
      answers and calls back during it, makes at most one move of the RFC 3261
      automaton of its role and method and keeps the handler pointer in step
      with the state; over runs in which no send completes while another one is
      deferred it never goes backwards and never calls a null handler
      ([TsxSafety], with the conditions listed below under Environment); from
      its creation on, and over every run without condition, its transport
      references are balanced ([TsxRefs]) and its identity never changes
      ([TsxFrame]); a client request is retransmitted with the doubling
      schedule; a failed INVITE is acknowledged once and the ACK kept
      ([TsxBehaviour]).
    - Creation registers a transaction under its key or leaves the layer as it
      was; INVITE, its retransmissions and its ACK meet in one transaction and a
      CANCEL does not; destruction and stop empty the table ([TsxLayer],
      [TsxKey]).
    - The answer of a client session to a challenge of the server is accepted;
      the server accepts exactly the digests of RFC 2617 for a credential it
      finds; a request that is challenged over and over is sent again at most
      three times ([SipAuthProps]).
    - The hash table is a finite map with a complete iteration ([Hash]); the
      timer heap is the map of running timers, never leaves its arrays and
      polls in the order of expiry ([TimerSpec]); allocations of a pool never
      overlap ([PoolSpec]), and the caching factory accounts for what it keeps
      ([PoolCaching]); printing and parsing numbers round-trips ([PjString]).
    - CRC-32, SHA-1, MD5 and HMAC compute the published functions, for any
      division of the data and either byte order ([Crc32], [Sha1], [Md5],
      [Hmac]); base64 round-trips ([Base64]).
    - Encoding and decoding a STUN message round-trips (a padded string comes
      back with its padding) with the MESSAGE-INTEGRITY and FINGERPRINT of the
      standard; the fingerprint detects every change of up to four consecutive
      bytes behind the cookie and outside the attribute's header; decoding any
      packet ends, stays within four bytes of it (short ERROR-CODE attributes
      apart) and gives a well-typed message; a request is accepted only with the
      right user, code, realm and nonce, one that is signed is accepted (unless
      the credential has a nonce and no realm), and one that is not gets an
      error response, with the realm and nonce there are unless it is a 400,
      with which the client's transaction completes ([StunRoundtrip] to
      [StunReject]). A STUN transaction ends after at most seven transmissions
      and is reported once ([StunTsx]).
    - DNS queries round-trip; parsing ends on any packet, names fill exactly the
      buffers allocated for them, and reads stay within a bound behind the
      packet; a copy equals its original up to the case of names ([DnsProps]).
    - Parsing a printed session description gives it back; parsing ends and
      gives well-formed descriptions ([SdpParse], [SdpPrint]); the negotiator
      follows the offer/answer automaton; an answer has the media lines, formats
      and directions RFC 3264 asks for, and, with symmetric payload types, is
      applied to the offer
      ([SdpNegState], [SdpAnswer], [SdpOffer]).
    - RTP sequence control follows unbounded sequence numbers across wraps;
      framing and decoding round-trip ([Rtp]). The jitter buffer is a window of
      sequence numbers, delivers in order, reorders late frames and always
      answers, for frames of at most 200 ms ([JbufProps]). The circular buffer
      is a bounded queue as long as its 32-bit sums do not wrap; on it the delay
      buffer is the FIFO of the newest samples, and with time-scale modification
      every get gives a frame whatever that answers ([CircBuf], [DelayBuf]). The
      G.711 tables agree with the computed conversions, whose error is bounded
      ([G711]).
    - Some theorems state a defect.  Among them: a key buffer that is too small,
      a hash computed two ways, method prefixes accepted, a terminated
      transaction left without a timer, a deferred message not sent
      ([TsxKey], [TsxLayer], [TsxBehaviour]); an SSRC flag overwritten and a
      sequence number 0 that fails probation ([Rtp]); reads behind a packet for
      short attributes, and a fingerprint position that is not checked
      ([StunBounds]); a NONCE that is not asked for ([StunAuth]); a provisional
      response after which a transaction never ends ([StunTsx]); queries that
      overrun their buffer and records read behind the packet ([DnsProps]); sums
      that wrap and a division by zero ([CircBuf], [DelayBuf]); a matched format
      dropped from the answer ([SdpOffer]); refused
      credentials that are read ([SipAuthProps]).

    ** Environment

    Code that is not modelled appears as an argument whose values the theorems
    quantify over, or as a class whose laws say what is relied on.
    - The transport layer of SIP: what it does during one send is a value of
      [send_env]: whether the buffer is still pending, the status of each send
      function and the list of completion callbacks made before it returns, each
      with the environment of the send it may trigger in turn. [surroundings_ok]
      asks that a completion callback reports a non-zero count and that the user
      retransmits live transactions only; [orderly] runs are moreover without a
      [late_completion], in which a transport completes a send while another one
      is deferred; [late_completion_moves_backwards] proves that this is
      necessary. The results of [pjsip_endpt_create_ack],
      [pjsip_get_response_addr] and [pjsip_get_request_dest], unique strings,
      random numbers and allocation failures are arguments in the same way.
    - The timer heap: [TsxModel] and [StunTsx] know of a timer whether it is
      scheduled: scheduling a running timer fails, cancelling always resets its
      id, expiry removes it first; [TsxTimer] proves this of the heap.
    - Memory: what [malloc] and [block_alloc] answer ([Pool], [PoolCaching]),
      and what uninitialised contexts hold ([stun_env], the digests).
    - Callbacks: the format matchers of the SDP negotiator, with the laws
      [cb_keeps_rtpmap] and [cb_accepts]; the credentials of [StunAuth]; the
      lookup of credentials and the AKA callback of [SipAuth].  There a URI is
      what its print gives, and unique strings are never empty.
    - The time-scale modification of [wsola.c]: the class [Wsola], which asks
      that it keeps the length of the samples it works on, erases no more than
      there are and generates whole frames.

    ** Bounds and fuel

    [tsx_send_msg] recurs on the finite tree [send_env].  [utoa_digits] has 20
    rounds, the digits of 2^64 - 1.  [grow_size] has 28 doublings, enough for a
    32-bit size from 8.  [hash_visit], a client loop over the iterator, has the
    number of entries as fuel.  [normalize_down] has one round per second.
    [reheap_up] has one round per slot above, [reheap_down] one per slot of the
    heap, and the poll loop one more than the entries a poll may process; the
    theorems of [TimerSpec] show the loops end within them.  The
    retransmission theorem asks for at most 30 retransmissions and an interval
    below 2^32 milliseconds, the range in which the C shift and product do not
    overflow; the transaction timeout ends a transaction long before.
    The loops of the jitter buffer have two rounds to make room, one per frame
    to skip discarded ones, one per slot to peek and one more than the
    discarded frames to remove; the theorem that it always answers shows they
    suffice, for sequence numbers below 2^29.  The digests have one round per
    byte of data and 64 for the padding; base64 one per character; the search
    of STUN reasons six, the logarithm of its table.  The loops of the parsers
    have one round per byte or character left and one more (SDP lines and
    formats, STUN attributes), [pack_loop] of the circular buffer one per sample
    of its second region, the DNS name loops one more than the size of the
    packet, with the eleven levels of recursion the code allows; the theorems
    show that none of them runs out.  Pool addresses are below 2^62 and digested
    data below 2^29 bytes, so that the 64-bit arithmetic of the code is exact.

    ** Not modelled

    Locks and threads: each entry point is one atomic step, as the group lock
    makes it.  Callbacks of the users of a component are recorded, not run: what
    the user does in answer is a later operation.  Logging and module start-up.
    Of [pjlib] the operating-system layer (sockets, threads, event queues,
    files), exceptions and the small containers the modelled code does not use
    (red-black tree, FIFO allocator); of [pjlib-util] the DNS resolver, XML, JSON,
    the HTTP client and the command line; of [pjnath] the STUN sessions, TURN and
    ICE above the messages and transactions; of [pjmedia] RTCP, the conference
    bridge, signal processing, codecs other than G.711 and devices; of [pjsip]
    the message parser and URIs, the endpoint, transports, dialogs and
    invitations; the user-agent libraries, applications and vendored code.
    They are input and output, bindings to other libraries, arithmetic on
    samples without a contract to state, or protocols that need the layers below
    them first: RTCP statistics on [Rtp], STUN sessions and ICE on [StunTsx] and
    dialogs on [TsxLayer] are the next steps. *)

From Stdlib Require Import ZArith Lia Bool.
From stdpp Require Import base list numbers option.
From coqutil Require Export Datatypes.RecordSetters.
Export TriangleBracketNotations.

#[global] Arguments constant {E} newValue _ /.
Local Open Scope Z_scope.

(** ** Machine integers

    A w-bit unsigned C integer is a [Z]; conversions to the type reduce
    modulo 2^w, conversions to a signed type re-centre the residue. *)

Definition u8 (z : Z) : Z := z mod 256.
Definition u16 (z : Z) : Z := z mod 65536.
Definition u32 (z : Z) : Z := z mod 4294967296.
Definition u64 (z : Z) : Z := z mod 18446744073709551616.
Definition s16 (z : Z) : Z := (z + 32768) mod 65536 - 32768.
Definition s32 (z : Z) : Z := (z + 2147483648) mod 4294967296 - 2147483648.

Definition is_u8 (z : Z) : Prop := 0 <= z < 256.
Definition is_u16 (z : Z) : Prop := 0 <= z < 65536.
Definition is_u32 (z : Z) : Prop := 0 <= z < 4294967296.
Definition is_s16 (z : Z) : Prop := -32768 <= z < 32768.

Create HintDb pj discriminated.

Ltac unfold_ints := unfold u8, u16, u32, u64, s32, is_u8, is_u16, is_u32 in *.

(** [int_lia] decides linear goals about wrapped integers. *)
Ltac int_lia := unfold_ints; Z.to_euclidean_division_equations; lia.

Lemma u8_range z : is_u8 (u8 z).
Proof. int_lia. Qed.
Lemma u16_range z : is_u16 (u16 z).
Proof. int_lia. Qed.
Lemma u32_range z : is_u32 (u32 z).
Proof. int_lia. Qed.
Lemma u8_small z : is_u8 z -> u8 z = z.
Proof. apply Z.mod_small. Qed.
Lemma u16_small z : is_u16 z -> u16 z = z.
Proof. apply Z.mod_small. Qed.
Lemma u32_small z : is_u32 z -> u32 z = z.
Proof. apply Z.mod_small. Qed.
#[export] Hint Resolve u8_range u16_range u32_range : pj.

(** ** Boolean tests

    [bool_cases] turns the boolean tests of the program, in the goal and in
    the hypotheses, into the propositions they decide. *)
Ltac bool_hyps :=
  repeat match goal with
  | H : (_ && _)%bool = true |- _ => apply andb_prop in H as [? ?]
  | H : (_ || _)%bool = false |- _ => apply orb_false_elim in H as [? ?]
  | H : negb _ = true |- _ => apply negb_true_iff in H
  | H : negb _ = false |- _ => apply negb_false_iff in H
  | H : (_ =? _) = true |- _ => apply Z.eqb_eq in H
  | H : (_ =? _) = false |- _ => apply Z.eqb_neq in H
  | H : (_ <? _) = true |- _ => apply Z.ltb_lt in H
  | H : (_ <? _) = false |- _ => apply Z.ltb_ge in H
  | H : (_ <=? _) = true |- _ => apply Z.leb_le in H
  | H : (_ <=? _) = false |- _ => apply Z.leb_gt in H
  end.

(** Case analysis on the first conditional of the goal. *)
Ltac case_if :=
  match goal with
  | |- context [if ?b then _ else _] =>
      match b with
      | context [if _ then _ else _] => fail 1
      | _ => let E := fresh "E" in destruct b eqn:E
      end
  end.

(** ** Record updates

    [upd] evaluates the projections of updated records, [g (r <| f := v |>)],
    without unfolding the records themselves. *)
Ltac upd1 :=
  match goal with
  | |- context [?g (apply_update (mk_update ?f ?h) ?r)] =>
      first [ change (g (apply_update (mk_update f h) r)) with (g r)
            | change (g (apply_update (mk_update f h) r)) with (h (g r)) ]
  end.
Ltac upd_in H :=
  match type of H with
  | context [?g (apply_update (mk_update ?f ?h) ?r)] =>
      first [ change (g (apply_update (mk_update f h) r)) with (g r) in H
            | change (g (apply_update (mk_update f h) r)) with (h (g r)) in H ]
  end.
Ltac upd := repeat (upd1; unfold constant).
Tactic Notation "upd" "in" hyp(H) := repeat (upd_in H; unfold constant in H).

(** ** Finite ranges

    A property of the values of a small range is checked by evaluation. *)

Lemma range_check (n : Z) (P : Z -> bool) :
  forallb P (seqZ 0 n) = true -> forall z, 0 <= z < n -> P z = true.
Proof.
  intros H z Hz. rewrite forallb_forall in H. apply H.
  apply list_elem_of_In, elem_of_seqZ. lia.
Qed.

Lemma range_check2 (n m : Z) (P : Z -> Z -> bool) :
  forallb (fun z => forallb (P z) (seqZ 0 m)) (seqZ 0 n) = true ->
  forall z w, 0 <= z < n -> 0 <= w < m -> P z w = true.
Proof.
  intros H z w Hz Hw. pose proof (range_check _ _ H z Hz) as H1.
  exact (range_check _ _ H1 w Hw).
Qed.

(** ** Network byte order on a little-endian host

    [htons] and [htonl] of the C library, which [pj_htons], [pj_ntohs],
    [pj_htonl] and [pj_ntohl] (pjlib/src/pj/sock_bsd.c) call: the bytes are
    reversed. *)

Definition pj_htons (x : Z) : Z := (x mod 256) * 256 + x / 256.
Definition pj_ntohs (x : Z) : Z := pj_htons x.
Definition pj_htonl (x : Z) : Z :=
  (x mod 256) * 16777216 + (x / 256 mod 256) * 65536
  + (x / 65536 mod 256) * 256 + x / 16777216.
Definition pj_ntohl (x : Z) : Z := pj_htonl x.

Lemma pj_htons_range x : is_u16 x -> is_u16 (pj_htons x).
Proof. unfold pj_htons; int_lia. Qed.
Lemma pj_ntohs_htons x : is_u16 x -> pj_ntohs (pj_htons x) = x.
Proof. unfold pj_ntohs, pj_htons; int_lia. Qed.
Lemma pj_htonl_range x : is_u32 x -> is_u32 (pj_htonl x).
Proof. unfold pj_htonl; int_lia. Qed.

Lemma pj_htonl_bytes a b c d :
  is_u8 a -> is_u8 b -> is_u8 c -> is_u8 d ->
  pj_htonl (a + b * 256 + c * 65536 + d * 16777216)
  = d + c * 256 + b * 65536 + a * 16777216.
Proof.
  unfold is_u8; intros Ha Hb Hc Hd; unfold pj_htonl.
  set (x := a + b * 256 + c * 65536 + d * 16777216).
  assert (E1 : x mod 256 = a) by (symmetry; apply Z.mod_unique with (b + c * 256 + d * 65536); lia).
  assert (E2 : x / 256 = b + c * 256 + d * 65536) by (symmetry; apply Z.div_unique with a; lia).
  assert (E3 : x / 65536 = c + d * 256) by (symmetry; apply Z.div_unique with (a + b * 256); lia).
  assert (E4 : x / 16777216 = d) by (symmetry; apply Z.div_unique with (a + b * 256 + c * 65536); lia).
  rewrite E1, E2, E3, E4.
  assert (E5 : (b + c * 256 + d * 65536) mod 256 = b) by (symmetry; apply Z.mod_unique with (c + d * 256); lia).
  assert (E6 : (c + d * 256) mod 256 = c) by (symmetry; apply Z.mod_unique with d; lia).
  rewrite E5, E6; lia.
Qed.

(** Every 32-bit word is the sum of its four bytes. *)
Lemma u32_bytes x : is_u32 x ->
  exists a b c d, is_u8 a /\ is_u8 b /\ is_u8 c /\ is_u8 d /\
    x = a + b * 256 + c * 65536 + d * 16777216.
Proof.
  intros Hx.
  exists (x mod 256), (x / 256 mod 256), (x / 65536 mod 256), (x / 16777216).
  repeat split; int_lia.
Qed.

Lemma pj_ntohl_htonl x : is_u32 x -> pj_ntohl (pj_htonl x) = x.
Proof.
  intros (a & b & c & d & Ha & Hb & Hc & Hd & ->)%u32_bytes.
  unfold pj_ntohl; rewrite pj_htonl_bytes by done.
  rewrite pj_htonl_bytes by done; lia.
Qed.
#[export] Hint Resolve pj_htons_range pj_htonl_range : pj.

(** ** Status codes (pj/errno.h, pjsip/sip_errno.h) *)

Definition pj_status_t := Z.
Definition PJ_SUCCESS : pj_status_t := 0.
Definition PJ_EUNKNOWN : pj_status_t := 70001.
Definition PJ_EPENDING : pj_status_t := 70002.
Definition PJ_EINVAL : pj_status_t := 70004.
Definition PJ_ENOTFOUND : pj_status_t := 70006.
Definition PJ_ENOMEM : pj_status_t := 70007.
Definition PJ_EBUG : pj_status_t := 70008.
Definition PJ_ETOOMANY : pj_status_t := 70010.
Definition PJ_EINVALIDOP : pj_status_t := 70013.
Definition PJ_EEXISTS : pj_status_t := 70015.
Definition PJ_ETOOBIG : pj_status_t := 70017.
Definition PJ_ERESOLVE : pj_status_t := 70018.
Definition PJ_ETOOSMALL : pj_status_t := 70019.
Definition PJ_EIGNORED : pj_status_t := 70020.
