(* ===== verification/TimeVal.v ===== *)
(** * Time values

    Model of [pj_time_val], the comparison and arithmetic macros of
    pjlib/include/pj/types.h and [pj_time_val_normalize] of
    pjlib/src/pj/types.c.  The fields are [long]; the values that occur stay
    far from its limits and are unbounded here. *)

From Stdlib Require Import ZArith Lia Bool.
From stdpp Require Import base decidable numbers.
From S2P Require Import Prelude.
Local Open Scope Z_scope.

Record time_val := mk_tv { sec : Z; msec : Z }.
#[global] Instance time_val_eq_dec : EqDecision time_val.
Proof. solve_decision. Defined.

Definition PJ_TIME_VAL_MSEC (t : time_val) : Z := sec t * 1000 + msec t.
Definition PJ_TIME_VAL_EQ (t1 t2 : time_val) : bool :=
  (sec t1 =? sec t2) && (msec t1 =? msec t2).
Definition PJ_TIME_VAL_GT (t1 t2 : time_val) : bool :=
  (sec t2 <? sec t1) || ((sec t1 =? sec t2) && (msec t2 <? msec t1)).
Definition PJ_TIME_VAL_GTE (t1 t2 : time_val) : bool :=
  PJ_TIME_VAL_GT t1 t2 || PJ_TIME_VAL_EQ t1 t2.
Definition PJ_TIME_VAL_LT (t1 t2 : time_val) : bool := negb (PJ_TIME_VAL_GTE t1 t2).
Definition PJ_TIME_VAL_LTE (t1 t2 : time_val) : bool := negb (PJ_TIME_VAL_GT t1 t2).

(** The do-while loop for [msec <= -1000]; every round adds 1000, so
    [-msec / 1000 + 1] rounds are enough. *)
Fixpoint normalize_down (fuel : nat) (s ms : Z) : Z * Z :=
  match fuel with
  | O => (s, ms)
  | S fuel =>
      let s := s - 1 in
      let ms := ms + 1000 in
      if ms <=? -1000 then normalize_down fuel s ms else (s, ms)
  end.

Definition pj_time_val_normalize (t : time_val) : time_val :=
  let '(s, ms) :=
    if 1000 <=? msec t then (sec t + msec t / 1000, msec t mod 1000)
    else if msec t <=? -1000
    then normalize_down (Z.to_nat (- msec t / 1000 + 1)) (sec t) (msec t)
    else (sec t, msec t) in
  if (1 <=? s) && (ms <? 0) then mk_tv (s - 1) (ms + 1000)
  else if (s <? 0) && (0 <? ms) then mk_tv (s + 1) (ms - 1000)
  else mk_tv s ms.

Definition PJ_TIME_VAL_ADD (t1 t2 : time_val) : time_val :=
  pj_time_val_normalize (mk_tv (sec t1 + sec t2) (msec t1 + msec t2)).
Definition PJ_TIME_VAL_SUB (t1 t2 : time_val) : time_val :=
  pj_time_val_normalize (mk_tv (sec t1 - sec t2) (msec t1 - msec t2)).

(** * Properties *)

(** Normal form: the milliseconds are below one second in absolute value and
    do not have the sign opposite to non-zero seconds. *)
Definition tv_normal (t : time_val) : Prop :=
  -1000 < msec t < 1000 /\ (1 <= sec t -> 0 <= msec t) /\ (sec t < 0 -> msec t <= 0).

Lemma normalize_down_spec fuel : forall s ms,
  ms <= -1000 -> (- ms / 1000 < Z.of_nat fuel) ->
  let '(s', ms') := normalize_down fuel s ms in
  s' * 1000 + ms' = s * 1000 + ms /\ -1000 < ms' <= 0.
Proof.
  induction fuel as [|fuel IH]; intros s ms Hm Hf;
    [assert (1 <= - ms / 1000) by (apply Z.div_le_lower_bound; lia); lia|].
  cbn [normalize_down]; destruct (ms + 1000 <=? -1000) eqn:E; bool_hyps; [|lia].
  specialize (IH (s - 1) (ms + 1000)).
  destruct (normalize_down fuel (s - 1) (ms + 1000)).
  destruct IH; [lia| |lia].
  replace (- (ms + 1000)) with (- ms + (-1) * 1000) by lia.
  rewrite Z.div_add by lia; lia.
Qed.

(** Normalisation keeps the total number of milliseconds and ends, for
    every input, in normal form. *)
Theorem time_val_normalize_spec t :
  PJ_TIME_VAL_MSEC (pj_time_val_normalize t) = PJ_TIME_VAL_MSEC t /\
  tv_normal (pj_time_val_normalize t).
Proof.
  assert (H : forall s ms, s * 1000 + ms = PJ_TIME_VAL_MSEC t -> -1000 < ms < 1000 ->
    let t' := if (1 <=? s) && (ms <? 0) then mk_tv (s - 1) (ms + 1000)
              else if (s <? 0) && (0 <? ms) then mk_tv (s + 1) (ms - 1000) else mk_tv s ms in
    PJ_TIME_VAL_MSEC t' = PJ_TIME_VAL_MSEC t /\ tv_normal t').
  { intros s ms Hs Hm; unfold tv_normal, PJ_TIME_VAL_MSEC in *.
    destruct (1 <=? s) eqn:E1, (ms <? 0) eqn:E2, (s <? 0) eqn:E3, (0 <? ms) eqn:E4;
      bool_hyps; cbn; lia. }
  unfold pj_time_val_normalize.
  destruct (1000 <=? msec t) eqn:E1; bool_hyps.
  { pose proof (Z.div_mod (msec t) 1000 ltac:(lia)).
    pose proof (Z.mod_pos_bound (msec t) 1000 ltac:(lia)).
    apply H; [unfold PJ_TIME_VAL_MSEC; lia|lia]. }
  destruct (msec t <=? -1000) eqn:E2; bool_hyps; [|apply H; unfold PJ_TIME_VAL_MSEC; lia].
  pose proof (normalize_down_spec (Z.to_nat (- msec t / 1000 + 1)) (sec t) (msec t) E2) as Hd.
  destruct (normalize_down _ _ _) as [s ms].
  assert (0 <= - msec t / 1000) by (apply Z.div_pos; lia).
  destruct Hd as [? ?]; [lia|]; apply H; unfold PJ_TIME_VAL_MSEC; lia.
Qed.

(** On normal values of one sign the lexicographic comparisons agree with the
    order of the totals. *)
Lemma tv_lt_msec t1 t2 :
  tv_normal t1 -> tv_normal t2 -> 0 <= sec t1 -> 0 <= sec t2 -> 0 <= msec t1 -> 0 <= msec t2 ->
  PJ_TIME_VAL_LT t1 t2 = (PJ_TIME_VAL_MSEC t1 <? PJ_TIME_VAL_MSEC t2).
Proof.
  unfold tv_normal, PJ_TIME_VAL_LT, PJ_TIME_VAL_GTE, PJ_TIME_VAL_GT, PJ_TIME_VAL_EQ,
    PJ_TIME_VAL_MSEC; intros.
  destruct (sec t2 <? sec t1) eqn:E1, (sec t1 =? sec t2) eqn:E2, (msec t2 <? msec t1) eqn:E3,
    (msec t1 =? msec t2) eqn:E4; bool_hyps; cbn; lia.
Qed.

(** The comparison is a strict weak order. *)
Lemma tv_lt_irrefl t : PJ_TIME_VAL_LT t t = false.
Proof.
  unfold PJ_TIME_VAL_LT, PJ_TIME_VAL_GTE, PJ_TIME_VAL_EQ; rewrite !Z.eqb_refl.
  by rewrite orb_true_r.
Qed.
Lemma tv_lt_spec t1 t2 :
  PJ_TIME_VAL_LT t1 t2 = true <->
  sec t1 < sec t2 \/ (sec t1 = sec t2 /\ msec t1 < msec t2).
Proof.
  unfold PJ_TIME_VAL_LT, PJ_TIME_VAL_GTE, PJ_TIME_VAL_GT, PJ_TIME_VAL_EQ.
  destruct (sec t2 <? sec t1) eqn:E1, (sec t1 =? sec t2) eqn:E2, (msec t2 <? msec t1) eqn:E3,
    (msec t1 =? msec t2) eqn:E4; bool_hyps; cbn; split; try done; try lia; intros; exfalso; lia.
Qed.
Lemma tv_lte_spec t1 t2 :
  PJ_TIME_VAL_LTE t1 t2 = true <->
  sec t1 < sec t2 \/ (sec t1 = sec t2 /\ msec t1 <= msec t2).
Proof.
  unfold PJ_TIME_VAL_LTE, PJ_TIME_VAL_GT.
  destruct (sec t2 <? sec t1) eqn:E1, (sec t1 =? sec t2) eqn:E2, (msec t2 <? msec t1) eqn:E3;
    bool_hyps; cbn; split; try done; try lia; intros; exfalso; lia.
Qed.
