(* ===== verification/PjString.v ===== *)
(** * Counted strings: comparison, trimming and number conversion

    Model of pjlib/src/pj/string.c and of the comparison functions of
    pjlib/include/pj/string_i.h.  A [pj_str_t] is the list of its [slen]
    bytes; [unsigned long] has 64 bits. *)

From Stdlib Require Import ZArith Lia Bool.
From Stdlib Require String Ascii.
From stdpp Require Import base list numbers option.
From S2P Require Import Prelude.
Local Open Scope Z_scope.

Abbreviation pj_str := (list Z).

(** The bytes of a string constant of the program. *)
Definition cstr (s : String.string) : pj_str :=
  map (fun a => Z.of_N (Ascii.N_of_ascii a)) (String.list_ascii_of_string s).
Arguments cstr s%_string_scope.

(** ** Character classes (C locale) *)

Definition pj_isdigit (c : Z) : bool := (48 <=? c) && (c <=? 57).
Definition pj_isxdigit (c : Z) : bool :=
  pj_isdigit c || ((65 <=? c) && (c <=? 70)) || ((97 <=? c) && (c <=? 102)).
Definition pj_isspace (c : Z) : bool := (c =? 32) || ((9 <=? c) && (c <=? 13)).
Definition pj_tolower (c : Z) : Z := if (65 <=? c) && (c <=? 90) then c + 32 else c.
Definition pj_hex_digit_to_val (c : Z) : Z :=
  if c <=? 57 then Z.land (c - 48) 15
  else if c <=? 70 then Z.land (c - 65 + 10) 15
  else Z.land (c - 97 + 10) 15.

(** ** Comparison *)

(** [memcmp] on two blocks of the same length; only the sign is used. *)
Fixpoint memcmp (s1 s2 : list Z) : Z :=
  match s1, s2 with
  | c1 :: s1, c2 :: s2 => if c1 =? c2 then memcmp s1 s2 else if c1 <? c2 then -1 else 1
  | _, _ => 0
  end.

(** [strncasecmp]: stops at a difference and at a common terminator. *)
Fixpoint strnicmp (s1 s2 : list Z) : Z :=
  match s1, s2 with
  | c1 :: s1, c2 :: s2 =>
      let l1 := pj_tolower c1 in let l2 := pj_tolower c2 in
      if l1 =? l2 then (if l1 =? 0 then 0 else strnicmp s1 s2)
      else if l1 <? l2 then -1 else 1
  | _, _ => 0
  end.

Definition str_cmp_with (cmp : list Z -> list Z -> Z) (s1 s2 : pj_str) : Z :=
  let n1 := length s1 in let n2 := length s2 in
  if (n1 =? 0)%nat then (if (n2 =? 0)%nat then 0 else -1)
  else if (n2 =? 0)%nat then 1
  else
    let min := if (n1 <? n2)%nat then n1 else n2 in
    let res := cmp (take min s1) (take min s2) in
    if res =? 0 then (if (n1 <? n2)%nat then -1 else if (n1 =? n2)%nat then 0 else 1)
    else res.

Definition pj_strcmp (s1 s2 : pj_str) : Z := str_cmp_with memcmp s1 s2.
Definition pj_stricmp (s1 s2 : pj_str) : Z := str_cmp_with strnicmp s1 s2.

Definition pj_strncmp (s1 s2 : pj_str) (len : nat) : Z :=
  let s1 := if (len <? length s1)%nat then take len s1 else s1 in
  let s2 := if (len <? length s2)%nat then take len s2 else s2 in
  pj_strcmp s1 s2.

Definition pj_strnicmp (s1 s2 : pj_str) (len : nat) : Z :=
  let s1 := if (len <? length s1)%nat then take len s1 else s1 in
  let s2 := if (len <? length s2)%nat then take len s2 else s2 in
  pj_stricmp s1 s2.

(** ** Trimming *)

Fixpoint pj_strltrim (s : pj_str) : pj_str :=
  match s with
  | c :: s' => if pj_isspace c then pj_strltrim s' else s
  | [] => []
  end.

(** The pointer moves down from the last byte while it is on a space; [n] is
    the length kept so far. *)
Fixpoint rtrim_len (s : pj_str) (n : nat) : nat :=
  match n with
  | S n' => match s !! n' with
            | Some c => if pj_isspace c then rtrim_len s n' else n
            | None => n
            end
  | O => O
  end.

Definition pj_strrtrim (s : pj_str) : pj_str := take (rtrim_len s (length s)) s.
Definition pj_strtrim (s : pj_str) : pj_str := pj_strrtrim (pj_strltrim s).

(** ** Numbers *)

Fixpoint strtoul_loop (s : pj_str) (value : Z) : Z :=
  match s with
  | c :: s => if negb (pj_isdigit c) then value
              else strtoul_loop s (u64 (value * 10 + (c - 48)))
  | [] => value
  end.
Definition pj_strtoul (s : pj_str) : Z := strtoul_loop s 0.

(** [long] is the signed 64-bit type. *)
Definition s64 (z : Z) : Z := (z + 9223372036854775808) mod 18446744073709551616 - 9223372036854775808.

Definition pj_strtol (s : pj_str) : Z :=
  match s with
  | c :: s' => if (c =? 43) || (c =? 45)
               then s64 (if c =? 45 then - s64 (pj_strtoul s') else pj_strtoul s')
               else s64 (pj_strtoul s)
  | [] => s64 (pj_strtoul s)
  end.

Fixpoint strtoul2_dec (s : pj_str) (base value : Z) : Z * pj_str :=
  match s with
  | ch :: s' =>
      let c := u32 (ch - 48) in
      if base <=? c then (value, s) else strtoul2_dec s' base (u64 (value * base + c))
  | [] => (value, [])
  end.

Fixpoint strtoul2_hex (s : pj_str) (value : Z) : Z * pj_str :=
  match s with
  | ch :: s' =>
      if negb (pj_isxdigit ch) then (value, s)
      else strtoul2_hex s' (u64 (value * 16 + pj_hex_digit_to_val ch))
  | [] => (value, [])
  end.

(** The value and the rest of the string ([endptr]). *)
Definition pj_strtoul2 (s : pj_str) (base : Z) : Z * pj_str :=
  if base <=? 10 then strtoul2_dec s base 0
  else if base =? 16 then strtoul2_hex s 0
  else (4294967295, s).

(** The digit loop of [pj_utoa_pad] writes the least significant digit first;
    an [unsigned long] has at most 20 digits, so 20 rounds are enough. *)
Fixpoint utoa_digits (fuel : nat) (val : Z) : list Z :=
  match fuel with
  | O => []
  | S fuel =>
      let digval := val mod 10 in
      let val := val / 10 in
      (digval + 48) :: (if 0 <? val then utoa_digits fuel val else [])
  end.

(** The closing loop of [pj_utoa_pad] exchanges the bytes at [i] and [p] and
    moves both inwards while [i < p]. *)
Definition swap_at (buf : list Z) (i p : nat) : list Z :=
  match buf !! i, buf !! p with
  | Some a, Some b => <[i := b]> (<[p := a]> buf)
  | _, _ => buf
  end.

Fixpoint swap_loop (fuel : nat) (buf : list Z) (i p : nat) : list Z :=
  match fuel with
  | O => buf
  | S fuel =>
      let buf := swap_at buf i p in
      if (S i <? p - 1)%nat then swap_loop fuel buf (S i) (p - 1) else buf
  end.

(** The bytes written before the terminator; the function returns their
    number. *)
Definition pj_utoa_pad (val : Z) (min_dig : nat) (pad : Z) : pj_str :=
  let ds := utoa_digits 20 val in
  let ds := ds ++ replicate (min_dig - length ds) (u8 pad) in
  swap_loop (length ds) ds 0 (length ds - 1).

Definition pj_utoa (val : Z) : pj_str := pj_utoa_pad val 0 0.

(** * Properties *)

(** ** Comparison with 0 *)

Lemma memcmp_0 k1 : forall k2, length k1 = length k2 -> (memcmp k1 k2 = 0 <-> k1 = k2).
Proof.
  induction k1 as [|c1 k1 IH]; intros [|c2 k2] Hl; try done; cbn in Hl |- *.
  destruct (c1 =? c2) eqn:E; bool_hyps.
  - subst; rewrite IH by lia; split; [by intros ->|by intros [=]].
  - split; [case_if; lia|by intros [=]].
Qed.

Lemma str_cmp_with_0 cmp s1 s2 :
  cmp [] [] = 0 ->
  str_cmp_with cmp s1 s2 = 0 <-> length s1 = length s2 /\ cmp s1 s2 = 0.
Proof.
  intros H0. unfold str_cmp_with.
  destruct (Nat.eqb_spec (length s1) 0) as [E1|E1];
    destruct (Nat.eqb_spec (length s2) 0) as [E2|E2]; try (split; [lia|]; intros [E _]; lia).
  - apply nil_length_inv in E1, E2. subst. done.
  - destruct (Nat.ltb_spec (length s1) (length s2)) as [Hlt|Hge].
    + case_if; bool_hyps; split; intros; destruct_and?; lia.
    + destruct (Nat.eqb_spec (length s1) (length s2)) as [E|E].
      * rewrite E, !take_ge by lia. case_if; bool_hyps; split; intros; destruct_and?; try done; lia.
      * case_if; bool_hyps; split; intros; destruct_and?; lia.
Qed.

Lemma pj_strcmp_0 s1 s2 : pj_strcmp s1 s2 = 0 <-> s1 = s2.
Proof.
  unfold pj_strcmp. rewrite str_cmp_with_0 by done. split.
  - intros [Hl Hc]. by apply memcmp_0.
  - intros ->. split; [done|]. by apply memcmp_0.
Qed.

(** The part a comparison without regard to case looks at: up to a NUL. *)
Fixpoint icase (s : pj_str) : pj_str :=
  match s with
  | c :: s => if pj_tolower c =? 0 then [] else pj_tolower c :: icase s
  | [] => []
  end.

Lemma pj_stricmp_0 s1 s2 :
  pj_stricmp s1 s2 = 0 <-> length s1 = length s2 /\ icase s1 = icase s2.
Proof.
  unfold pj_stricmp. rewrite str_cmp_with_0 by done.
  split; intros [Hl Hc]; (split; [done|]); revert s2 Hl Hc;
    induction s1 as [|c1 s1 IH]; intros [|c2 s2] Hl Hc; try done; cbn in *;
    destruct (Z.eqb_spec (pj_tolower c1) (pj_tolower c2)) as [E|E].
  - rewrite E in *. destruct (Z.eqb_spec (pj_tolower c2) 0); [done|]. f_equal. apply IH; [lia|done].
  - exfalso. destruct (pj_tolower c1 <? pj_tolower c2); lia.
  - rewrite E in *. destruct (Z.eqb_spec (pj_tolower c2) 0); [done|].
    injection Hc as Hc. apply IH; [lia|done].
  - exfalso. destruct (Z.eqb_spec (pj_tolower c1) 0); destruct (Z.eqb_spec (pj_tolower c2) 0);
      congruence.
Qed.

(** ** The in-place reversal *)

Lemma length_swap_at buf i p : length (swap_at buf i p) = length buf.
Proof. unfold swap_at; repeat case_match; by rewrite ?length_insert. Qed.

Lemma lookup_swap_at buf i p j :
  (i < length buf)%nat -> (p < length buf)%nat ->
  swap_at buf i p !! j = if decide (j = i) then buf !! p
                         else if decide (j = p) then buf !! i else buf !! j.
Proof.
  intros Hi Hp; unfold swap_at.
  destruct (lookup_lt_is_Some_2 buf i Hi) as [a Ea].
  destruct (lookup_lt_is_Some_2 buf p Hp) as [b Eb].
  rewrite Ea, Eb; repeat case_decide; subst.
  - by rewrite list_lookup_insert_eq by (rewrite length_insert; lia).
  - by rewrite list_lookup_insert_ne, list_lookup_insert_eq by lia.
  - by rewrite !list_lookup_insert_ne by lia.
Qed.

Lemma lookup_swap_loop fuel : forall buf i p j,
  (i <= p)%nat -> (p < length buf)%nat -> (p - i < fuel)%nat ->
  swap_loop fuel buf i p !! j
  = if decide (i <= j <= p)%nat then buf !! (i + p - j)%nat else buf !! j.
Proof.
  induction fuel as [|fuel IH]; intros buf i p j Hip Hp Hf; [lia|]; cbn [swap_loop].
  destruct (Nat.ltb_spec (S i) (p - 1)) as [Hlt|Hge].
  - rewrite IH by (rewrite ?length_swap_at; lia).
    rewrite !lookup_swap_at by lia; repeat case_decide; try lia; f_equal; lia.
  - rewrite lookup_swap_at by lia; repeat case_decide; try lia; f_equal; lia.
Qed.

Lemma swap_loop_reverse buf :
  buf <> [] -> swap_loop (length buf) buf 0 (length buf - 1) = reverse buf.
Proof.
  intros Hn; assert (0 < length buf)%nat by (destruct buf; [done|cbn; lia]).
  apply list_eq; intros j; rewrite lookup_swap_loop by lia.
  destruct (decide (j < length buf)%nat).
  - rewrite decide_True, reverse_lookup by lia; f_equal; lia.
  - rewrite decide_False, (lookup_ge_None_2 buf), (lookup_ge_None_2 (reverse buf));
      rewrite ?length_reverse; done || lia.
Qed.

(** ** Conversion to decimal and back *)

Lemma utoa_digits_ne fuel val : (0 < fuel)%nat -> utoa_digits fuel val <> [].
Proof. destruct fuel; [lia|done]. Qed.

(** The digits, least significant first, are worth the value. *)
Fixpoint digits_value (ds : list Z) : Z :=
  match ds with [] => 0 | d :: ds => (d - 48) + 10 * digits_value ds end.

Lemma utoa_digits_spec fuel : forall val,
  0 <= val < 10 ^ Z.of_nat fuel ->
  digits_value (utoa_digits fuel val) = val /\
  Forall (fun d => 48 <= d <= 57) (utoa_digits fuel val).
Proof.
  induction fuel as [|fuel IH]; intros val Hv; cbn [utoa_digits].
  - cbn in *; split; [lia|constructor].
  - rewrite Nat2Z.inj_succ, Z.pow_succ_r in Hv by lia.
    pose proof (Z.mod_pos_bound val 10 ltac:(lia)).
    pose proof (Z.div_mod val 10 ltac:(lia)) as Hd.
    destruct (0 <? val / 10) eqn:E; bool_hyps; cbn [digits_value].
    + destruct (IH (val / 10)) as [-> Hf]; [split; [lia|apply Z.div_lt_upper_bound; lia]|].
      split; [lia|constructor; [lia|done]].
    + assert (0 <= val / 10) by (apply Z.div_pos; lia).
      split; [lia|repeat constructor; lia].
Qed.

Lemma length_utoa_digits fuel : forall val n,
  0 <= val < 10 ^ Z.of_nat n -> (1 <= n)%nat -> (length (utoa_digits fuel val) <= n)%nat.
Proof.
  induction fuel as [|fuel IH]; intros val n Hv Hn; cbn [utoa_digits length]; [lia|].
  destruct (0 <? val / 10) eqn:E; bool_hyps; [|cbn; lia].
  destruct n as [|[|n]]; [lia| |].
  - rewrite Z.div_small in E by (cbn in Hv; lia); lia.
  - apply le_n_S, (IH _ (S n)); [|lia].
    rewrite (Nat2Z.inj_succ (S n)), Z.pow_succ_r in Hv by lia.
    split; [lia|apply Z.div_lt_upper_bound; lia].
Qed.

Lemma pj_utoa_reverse val : pj_utoa val = reverse (utoa_digits 20 val).
Proof.
  unfold pj_utoa, pj_utoa_pad; rewrite Nat.sub_0_l, app_nil_r.
  apply swap_loop_reverse, utoa_digits_ne; lia.
Qed.

(** The written length of a number below 10^n is at most n. *)
Lemma length_pj_utoa val n :
  0 <= val < 10 ^ Z.of_nat n -> (1 <= n)%nat -> (length (pj_utoa val) <= n)%nat.
Proof. intros; rewrite pj_utoa_reverse, length_reverse; by apply length_utoa_digits. Qed.

Lemma pj_utoa_nonempty val : pj_utoa val <> [].
Proof.
  rewrite pj_utoa_reverse; intros H; apply (f_equal reverse) in H.
  rewrite reverse_involutive in H; by apply utoa_digits_ne in H; [|lia].
Qed.

Lemma utoa_digits_fit val : 0 <= val < 2 ^ 64 -> 0 <= val < 10 ^ Z.of_nat 20.
Proof. intros H; split; [lia|]; eapply Z.lt_trans; [apply H|]; reflexivity. Qed.

Lemma pj_utoa_digits val : 0 <= val < 2 ^ 64 ->
  Forall (fun d => 48 <= d <= 57) (pj_utoa val).
Proof.
  intros H; rewrite pj_utoa_reverse; apply Forall_reverse.
  by apply utoa_digits_spec, utoa_digits_fit.
Qed.

Lemma strtoul_loop_app ds1 ds2 v :
  Forall (fun d => 48 <= d <= 57) ds1 ->
  strtoul_loop (ds1 ++ ds2) v = strtoul_loop ds2 (strtoul_loop ds1 v).
Proof.
  revert v; induction ds1 as [|d ds1 IH]; intros v Hf; [done|].
  inversion Hf; subst; cbn [app strtoul_loop].
  unfold pj_isdigit; replace (_ && _) with true by (symmetry; apply andb_true_intro; lia).
  by apply IH.
Qed.

Lemma strtoul_reverse ds :
  Forall (fun d => 48 <= d <= 57) ds -> 0 <= digits_value ds < 2 ^ 64 ->
  strtoul_loop (reverse ds) 0 = digits_value ds.
Proof.
  induction ds as [|d ds IH]; intros Hf Hv; [done|].
  inversion Hf; subst; cbn [digits_value] in *.
  assert (0 <= digits_value ds).
  { clear -H2; induction H2; cbn [digits_value]; lia. }
  rewrite reverse_cons, strtoul_loop_app by (by apply Forall_reverse).
  rewrite IH by (done || lia); cbn [strtoul_loop].
  unfold pj_isdigit; replace (_ && _) with true by (symmetry; apply andb_true_intro; lia).
  cbn [negb]; unfold u64; rewrite Z.mod_small by lia; lia.
Qed.

Lemma strtoul_of_utoa val : 0 <= val < 2 ^ 64 -> pj_strtoul (pj_utoa val) = val.
Proof.
  intros H; pose proof (utoa_digits_spec 20 val (utoa_digits_fit val H)) as [Hd Hf].
  unfold pj_strtoul; rewrite pj_utoa_reverse, strtoul_reverse; rewrite ?Hd; done.
Qed.

(** Printing any [unsigned long] in decimal with [pj_utoa] (digit loop,
    then the in-place exchange loop) and reading it with [pj_strtoul] gives
    the number back. *)
Theorem strtoul_utoa val : 0 <= val < 2 ^ 64 -> pj_strtoul (pj_utoa val) = val.
Proof.
  apply strtoul_of_utoa.
Qed.

Lemma strtoul_utoa_witness : pj_strtoul (pj_utoa 18446744073709551615) = 18446744073709551615.
Proof. apply strtoul_utoa; lia. Defined.
