(* ===== verification/Base64.v ===== *)
(** * Base64

    Model of [pjlib-util/src/pjlib-util/base64.c].  Buffers are lists of byte
    values; the output of a call is the part of the buffer it has written.
    The theorems show that decoding undoes encoding, that both stay within the
    buffers they accept, and what the decoder makes of foreign characters. *)

From Stdlib Require Import ZArith Lia Bool String.
From stdpp Require Import base list numbers.
From S2P Require Import Prelude.
From S2P Require Import PjString.
Local Open Scope Z_scope.

Definition INV : Z := -1.
Definition PADDING : Z := 61.

Definition base64_char : list Z :=
  cstr "ABCDEFGHIJKLMNOPQRSTUVWXYZabcdefghijklmnopqrstuvwxyz0123456789+/".

(** [base64_char[i]], with an index of six bits. *)
Definition char64 (i : Z) : Z := default 0 (base64_char !! Z.to_nat i).

Definition base256_char (c : Z) : Z :=
  if (c >=? 65) && (c <=? 90) then c - 65
  else if (c >=? 97) && (c <=? 122) then c - 97 + 26
  else if (c >=? 48) && (c <=? 57) then c - 48 + 52
  else if c =? 43 then 62
  else if c =? 47 then 63
  else INV.

Definition base256to64 (c1 c2 c3 padding : Z) : list Z :=
  [char64 (Z.shiftr c1 2);
   char64 (Z.lor (Z.shiftl (Z.land c1 0x3) 4) (Z.shiftr (Z.land c2 0xF0) 4))] ++
  match padding with
  | 0 => [char64 (Z.lor (Z.shiftl (Z.land c2 0xF) 2) (Z.shiftr (Z.land c3 0xC0) 6));
          char64 (Z.land c3 0x3F)]
  | 1 => [char64 (Z.lor (Z.shiftl (Z.land c2 0xF) 2) (Z.shiftr (Z.land c3 0xC0) 6));
          PADDING]
  | _ => [PADDING; PADDING]
  end.

(** ** Encoding *)

Definition PJ_BASE256_TO_BASE64_LEN (len : Z) : Z := s32 (Z.quot (s32 (len * 4)) 3 + 3).
Definition PJ_BASE64_TO_BASE256_LEN (len : Z) : Z := Z.quot (s32 (len * 3)) 4.

(** The loop takes three bytes a round; one or two bytes end it. *)
Fixpoint encode_loop (input : list Z) : list Z :=
  match input with
  | [] => []
  | [c1] => base256to64 c1 0 0 2
  | [c1; c2] => base256to64 c1 c2 0 1
  | c1 :: c2 :: c3 :: input => base256to64 c1 c2 c3 0 ++ encode_loop input
  end.

(** Status and output; [*out_len] becomes the length of the output. *)
Definition pj_base64_encode (input : list Z) (out_len : Z) : pj_status_t * list Z :=
  let in_len := Z.of_nat (length input) in
  if out_len >=? PJ_BASE256_TO_BASE64_LEN in_len
  then (PJ_SUCCESS, encode_loop input)
  else (PJ_ETOOSMALL, []).

(** ** Decoding *)

(** [while (buf[len-1] == '=' && len) --len], as the length that remains. *)
Fixpoint strip_len (buf : list Z) (len : nat) : nat :=
  match len with
  | O => O
  | S len' => if default 0 (buf !! len') =? PADDING then strip_len buf len' else len
  end.

(** The [do] loop: read characters until a valid one or the end. *)
Fixpoint next_char (buf : list Z) : Z * list Z :=
  match buf with
  | [] => (INV, [])
  | b :: buf =>
      let c := base256_char b in
      if (c =? INV) && negb (bool_decide (buf = [])) then next_char buf else (c, buf)
  end.

(** The [for] loop over [k]: the values read, at most [n], and the rest. *)
Fixpoint fill (n : nat) (buf : list Z) : list Z * list Z :=
  match n, buf with
  | S n, _ :: _ =>
      let '(c, buf) := next_char buf in
      let '(cs, buf) := fill n buf in (c :: cs, buf)
  | _, _ => ([], buf)
  end.

Definition out1 (c0 c1 : Z) : Z :=
  u8 (Z.lor (Z.shiftl c0 2) (Z.shiftr (Z.land c1 0x30) 4)).
Definition out2 (c1 c2 : Z) : Z :=
  u8 (Z.lor (Z.shiftl (Z.land c1 0x0F) 4) (Z.shiftr (Z.land c2 0x3C) 2)).
Definition out3 (c2 c3 : Z) : Z :=
  u8 (Z.lor (Z.shiftl (Z.land c2 0x03) 6) (Z.land c3 0x3F)).

(** One round of the main loop: the bytes written, and whether it goes on. *)
Definition group_out (cs : list Z) : list Z * bool :=
  match cs with
  | [c0; c1; c2; c3] => ([out1 c0 c1; out2 c1 c2; out3 c2 c3], true)
  | [c0; c1; c2] => ([out1 c0 c1; out2 c1 c2], false)
  | [c0; c1] => ([out1 c0 c1], false)
  | _ => ([], false)
  end.

Fixpoint decode_loop (fuel : nat) (buf : list Z) : list Z :=
  match fuel, buf with
  | S fuel, _ :: _ =>
      let '(cs, buf) := fill 4 buf in
      let '(out, more) := group_out cs in
      if more then out ++ decode_loop fuel buf else out
  | _, _ => []
  end.

(** What a decoding did: a status, the bytes written and whether the check
    [pj_assert(j < *out_len)] after the loop held. *)
Record decode_result := DecodeResult {
  dr_status : pj_status_t;
  dr_out : list Z;
  dr_assert : bool;
}.

Definition pj_base64_decode (input : list Z) (out_len : Z) : decode_result :=
  let len := strip_len input (length input) in
  let buf := take len input in
  if out_len >=? PJ_BASE64_TO_BASE256_LEN (Z.of_nat len) then
    let out := decode_loop len buf in
    DecodeResult PJ_SUCCESS out (Z.of_nat (length out) <? out_len)
  else DecodeResult PJ_ETOOSMALL [] true.

(** ** Bits as arithmetic *)

Lemma lor_low a b n : 0 <= n -> 0 <= b < 2 ^ n -> Z.lor (a * 2 ^ n) b = a * 2 ^ n + b.
Proof.
  intros Hn Hb. destruct (Z.eq_dec b 0) as [->|]; [rewrite Z.lor_0_r; lia|].
  rewrite <- Z.add_lor_land.
  enough (Z.land (a * 2 ^ n) b = 0) as H by (rewrite H; lia).
  apply Z.bits_inj'. intros k Hk. rewrite Z.land_spec, Z.bits_0.
  rewrite <- Z.shiftl_mul_pow2 by done. destruct (Z.ltb_spec k n).
  - rewrite Z.shiftl_spec_low by done. done.
  - rewrite (Z.bits_above_log2 b k), andb_false_r; [done|lia|].
    apply Z.log2_lt_pow2; [lia|]. apply Z.lt_le_trans with (2 ^ n); [lia|].
    apply Z.pow_le_mono_r; lia.
Qed.

(** A field of [w] bits above the lowest [k]. *)
Lemma land_field a k w :
  0 <= k -> 0 <= w -> Z.shiftr (Z.land a (Z.shiftl (Z.ones w) k)) k = a / 2 ^ k mod 2 ^ w.
Proof.
  intros Hk Hw. rewrite Z.shiftr_land, Z.shiftr_shiftl_l by lia.
  rewrite Z.sub_diag, Z.shiftl_0_r, Z.land_ones, Z.shiftr_div_pow2 by lia. done.
Qed.

Lemma index_bits c1 c2 c3 :
  is_u8 c1 -> is_u8 c2 -> is_u8 c3 ->
  Z.shiftr c1 2 = c1 / 4 /\
  Z.lor (Z.shiftl (Z.land c1 0x3) 4) (Z.shiftr (Z.land c2 0xF0) 4) = c1 mod 4 * 16 + c2 / 16 /\
  Z.lor (Z.shiftl (Z.land c2 0xF) 2) (Z.shiftr (Z.land c3 0xC0) 6) = c2 mod 16 * 4 + c3 / 64 /\
  Z.land c3 0x3F = c3 mod 64.
Proof.
  intros H1 H2 H3.
  change 0x3F with (Z.ones 6). change 0x3 with (Z.ones 2). change 0xF with (Z.ones 4).
  change 0xF0 with (Z.shiftl (Z.ones 4) 4). change 0xC0 with (Z.shiftl (Z.ones 2) 6).
  rewrite !land_field, !Z.land_ones, !Z.shiftl_mul_pow2, Z.shiftr_div_pow2 by lia.
  rewrite !lor_low by int_lia. cbn. split_and!; int_lia.
Qed.

Lemma out_bits c0 c1 c2 c3 :
  0 <= c0 < 64 -> 0 <= c1 < 64 -> 0 <= c2 < 64 -> 0 <= c3 < 64 ->
  out1 c0 c1 = c0 * 4 + c1 / 16 /\
  out2 c1 c2 = c1 mod 16 * 16 + c2 / 4 /\
  out3 c2 c3 = c2 mod 4 * 64 + c3.
Proof.
  intros H0 H1 H2 H3. unfold out1, out2, out3.
  change 0x30 with (Z.shiftl (Z.ones 2) 4). change 0x0F with (Z.ones 4).
  change 0x3C with (Z.shiftl (Z.ones 4) 2). change 0x03 with (Z.ones 2).
  change 0x3F with (Z.ones 6).
  rewrite !land_field, !Z.land_ones, !Z.shiftl_mul_pow2 by lia.
  rewrite !lor_low by int_lia. cbn. split_and!; int_lia.
Qed.

Lemma base256_char64 i : 0 <= i < 64 -> base256_char (char64 i) = i.
Proof.
  intros Hi. apply Z.eqb_eq.
  exact (range_check 64 (fun i => base256_char (char64 i) =? i)
    ltac:(vm_compute; reflexivity) i Hi).
Qed.

(** ** The encoder as a list of six-bit values *)

Lemma list_ind3 {A} (P : list A -> Prop) :
  P [] -> (forall a, P [a]) -> (forall a b, P [a; b]) ->
  (forall a b c l, P l -> P (a :: b :: c :: l)) -> forall l, P l.
Proof.
  intros H0 H1 H2 H3. fix IH 1. intros [|a [|b [|c l]]]; [exact H0|exact (H1 a)|exact (H2 a b)|exact (H3 a b c l (IH l))].
Qed.

Fixpoint sextets (input : list Z) : list Z :=
  match input with
  | [] => []
  | [c1] => [c1 / 4; c1 mod 4 * 16]
  | [c1; c2] => [c1 / 4; c1 mod 4 * 16 + c2 / 16; c2 mod 16 * 4]
  | c1 :: c2 :: c3 :: input =>
      [c1 / 4; c1 mod 4 * 16 + c2 / 16; c2 mod 16 * 4 + c3 / 64; c3 mod 64] ++ sextets input
  end.

Fixpoint padding (input : list Z) : nat :=
  match input with
  | [_] => 2
  | [_; _] => 1
  | _ :: _ :: _ :: input => padding input
  | [] => 0
  end.

Lemma is_u8_0 : is_u8 0.
Proof. unfold is_u8. lia. Qed.

Lemma encode_sextets input :
  Forall is_u8 input ->
  encode_loop input = map char64 (sextets input) ++ replicate (padding input) PADDING.
Proof.
  induction input as [|c1|c1 c2|c1 c2 c3 l IH] using list_ind3; intros H; [done|..].
  - inversion_clear H as [|? ? H1 _].
    destruct (index_bits c1 0 0 H1 is_u8_0 is_u8_0) as (E1 & E2 & _).
    cbn [encode_loop base256to64 app sextets padding map replicate]. rewrite E1, E2.
    rewrite Z.div_0_l, Z.add_0_r by done. done.
  - inversion_clear H as [|? ? H1 H']. inversion_clear H' as [|? ? H2 _].
    destruct (index_bits c1 c2 0 H1 H2 is_u8_0) as (E1 & E2 & E3 & _).
    cbn [encode_loop base256to64 app sextets padding map replicate]. rewrite E1, E2, E3.
    rewrite Z.div_0_l, Z.add_0_r by done. done.
  - inversion_clear H as [|? ? H1 H']. inversion_clear H' as [|? ? H2 H''].
    inversion_clear H'' as [|? ? H3 H4].
    destruct (index_bits c1 c2 c3 H1 H2 H3) as (E1 & E2 & E3 & E4).
    cbn [encode_loop base256to64 app sextets padding map]. rewrite E1, E2, E3, E4, IH by done.
    done.
Qed.

Definition is_sextet (v : Z) : Prop := 0 <= v < 64.

Lemma sextets_range input : Forall is_u8 input -> Forall is_sextet (sextets input).
Proof.
  unfold is_sextet.
  induction input as [|c1|c1 c2|c1 c2 c3 l IH] using list_ind3; intros H;
    repeat match goal with H : Forall _ (_ :: _) |- _ => inversion_clear H end;
    cbn [sextets app]; repeat constructor; try int_lia. by apply IH.
Qed.

(** The characters of the alphabet. *)
Definition valid (b : Z) : Prop := base256_char b <> INV.
#[export] Instance valid_dec b : Decision (valid b).
Proof. unfold valid. apply _. Defined.

Lemma char64_valid vs : Forall is_sextet vs -> Forall valid (map char64 vs).
Proof.
  intros H. apply Forall_map. apply (list.Forall_impl is_sextet); [done|].
  intros v Hv. unfold valid. rewrite base256_char64 by done.
  unfold is_sextet, INV in *. lia.
Qed.

Lemma padding_not_valid : ~ valid PADDING.
Proof. unfold valid. vm_compute. congruence. Qed.

(** ** The stripping loop *)

Lemma strip_len_app l p :
  list.last l <> Some PADDING ->
  strip_len (l ++ replicate p PADDING) (length l + p) = length l.
Proof.
  intros Hl. induction p as [|p IH].
  - rewrite app_nil_r, Nat.add_0_r. destruct (length l) eqn:E; [done|].
    cbn [strip_len]. rewrite last_lookup, E in Hl. cbn in Hl.
    destruct (l !! n) as [b|] eqn:Eb; cbn; [|by apply lookup_ge_None in Eb; lia].
    destruct (Z.eqb_spec b PADDING); [congruence|done].
  - rewrite Nat.add_succ_r. cbn [strip_len].
    rewrite lookup_app_r, lookup_replicate_2 by lia. cbn [default]. rewrite Z.eqb_refl.
    assert (E : forall n, (n <= length l + p)%nat ->
      strip_len (l ++ replicate (S p) PADDING) n = strip_len (l ++ replicate p PADDING) n).
    { induction n as [|n IHn]; intros Hn; [done|]. cbn [strip_len]. rewrite IHn by lia.
      rewrite replicate_S_end, app_assoc, (lookup_app_l (_ ++ _)); [done|].
      rewrite length_app, length_replicate. lia. }
    rewrite E by lia. exact IH.
Qed.

(** ** The decoder *)

Lemma next_char_valid b buf : valid b -> next_char (b :: buf) = (base256_char b, buf).
Proof.
  unfold valid. intros H. cbn [next_char]. destruct (Z.eqb_spec (base256_char b) INV); done.
Qed.

(** Reading goes on to the first valid character, when there is one. *)
Lemma next_char_filter buf b bs :
  filter valid buf = b :: bs ->
  exists rest, next_char buf = (base256_char b, rest) /\ filter valid rest = bs /\
    suffix rest buf.
Proof.
  induction buf as [|a buf IH]; [done|]. rewrite list.filter_cons. case_decide as Ha.
  - intros [= -> <-]. exists buf. rewrite next_char_valid by done.
    split_and!; [done|done|by apply suffix_cons_r].
  - intros Hf. destruct (IH Hf) as (rest & Hn & Hr & Hs). exists rest.
    unfold valid in Ha. apply dec_stable in Ha. cbn [next_char].
    rewrite Ha, Z.eqb_refl, bool_decide_eq_false_2 by (intros ->; done).
    split_and!; [done|done|by apply suffix_cons_r].
Qed.

(** A text that ends in a valid character. *)
Definition ends_valid (buf : list Z) : Prop := forall b, list.last buf = Some b -> valid b.

Lemma ends_valid_suffix rest buf : ends_valid buf -> suffix rest buf -> ends_valid rest.
Proof.
  intros He [pre ->] b Hb. apply He. rewrite last_app, Hb. done.
Qed.

Lemma ends_valid_filter a buf : ends_valid (a :: buf) -> filter valid (a :: buf) <> [].
Proof.
  intros He Hf. destruct (last_is_Some (a :: buf)) as [_ Hl].
  destruct Hl as [b Hb]; [done|].
  apply (filter_nil_not_elem_of _ _ b Hf (He b Hb)).
  apply last_Some_elem_of. done.
Qed.

Lemma fill_filter n : forall buf,
  ends_valid buf ->
  (fill n buf).1 = map base256_char (take n (filter valid buf)) /\
  filter valid (fill n buf).2 = drop n (filter valid buf) /\ suffix (fill n buf).2 buf.
Proof.
  induction n as [|n IH]; intros buf He; [cbn; by rewrite drop_0|].
  destruct buf as [|a buf]; [done|].
  destruct (filter valid (a :: buf)) as [|b bs] eqn:Ef.
  { by apply ends_valid_filter in He. }
  destruct (next_char_filter _ _ _ Ef) as (rest & Hn & Hr & Hs).
  destruct (IH rest (ends_valid_suffix _ _ He Hs)) as (H1 & H2 & H3).
  cbn [fill]. rewrite Hn. destruct (fill n rest) as [cs buf']; cbn in *.
  rewrite H1, H2, Hr. split_and!; [done|done|]. etrans; done.
Qed.

(** Every character is read once. *)
Lemma next_char_length a buf : (length (next_char (a :: buf)).2 <= length buf)%nat.
Proof.
  revert a. induction buf as [|b buf IH]; intros a.
  - cbn [next_char]. rewrite bool_decide_eq_true_2, andb_false_r by done. done.
  - change (next_char (a :: b :: buf)) with
      (if (base256_char a =? INV) && negb (bool_decide (b :: buf = []))
       then next_char (b :: buf) else (base256_char a, b :: buf)).
    destruct (_ && _); [|done]. etrans; [apply IH|]. cbn. lia.
Qed.

Lemma fill_length n : forall buf,
  (length (fill n buf).1 + length (fill n buf).2 <= length buf)%nat /\
  (length (fill n buf).1 <= n)%nat.
Proof.
  induction n as [|n IH]; intros buf; [cbn; lia|]. destruct buf as [|a buf]; [cbn; lia|].
  cbn [fill]. pose proof (next_char_length a buf) as Hc.
  destruct (next_char (a :: buf)) as [c rest]. specialize (IH rest).
  destruct (fill n rest) as [cs rest']. cbn in *. lia.
Qed.

(** Four values are three bytes; the values left at the end give one byte less
    than their number. *)
Fixpoint bytes_of (vs : list Z) : list Z :=
  match vs with
  | c0 :: c1 :: c2 :: c3 :: vs => [out1 c0 c1; out2 c1 c2; out3 c2 c3] ++ bytes_of vs
  | [c0; c1; c2] => [out1 c0 c1; out2 c1 c2]
  | [c0; c1] => [out1 c0 c1]
  | _ => []
  end.

Lemma bytes_of_round vs :
  bytes_of vs =
    let '(out, more) := group_out (take 4 vs) in
    if more then out ++ bytes_of (drop 4 vs) else out.
Proof. destruct vs as [|c0 [|c1 [|c2 [|c3 vs]]]]; cbn; by rewrite ?drop_0. Qed.

Lemma decode_loop_spec fuel : forall buf,
  (length buf <= fuel)%nat -> ends_valid buf ->
  decode_loop fuel buf = bytes_of (map base256_char (filter valid buf)).
Proof.
  induction fuel as [|fuel IH]; intros buf Hl He.
  { destruct buf; [done|cbn in Hl; lia]. }
  destruct buf as [|a buf]; [done|].
  destruct (fill_filter 4 (a :: buf) He) as (H1 & H2 & H3).
  rewrite bytes_of_round, <- fmap_take, <- fmap_drop, <- H2.
  change (map base256_char (take 4 (filter valid (a :: buf)))) with
    (base256_char <$> take 4 (filter valid (a :: buf))) in H1.
  cbn [decode_loop]. rewrite <- H1.
  destruct (fill 4 (a :: buf)) as [cs rest] eqn:Ef; cbn [fst snd] in *.
  destruct (group_out cs) as [out []] eqn:Eg; [|done].
  f_equal. apply IH; [|by eapply ends_valid_suffix].
  pose proof (fill_length 4 (a :: buf)) as Hn. rewrite Ef in Hn.
  destruct cs; [done|]. cbn in *. lia.
Qed.

Lemma group_out_length cs :
  (4 * length (group_out cs).1 <= 3 * length cs)%nat \/ (4 < length cs)%nat.
Proof. destruct cs as [|? [|? [|? [|? [|? ?]]]]]; cbn; lia. Qed.

Lemma decode_loop_length fuel : forall buf,
  (4 * length (decode_loop fuel buf) <= 3 * length buf)%nat.
Proof.
  induction fuel as [|fuel IH]; intros buf; [cbn; lia|]. destruct buf as [|a buf]; [cbn; lia|].
  cbn [decode_loop]. pose proof (fill_length 4 (a :: buf)) as [H1 H2].
  destruct (fill 4 (a :: buf)) as [cs rest]. cbn [fst snd] in *.
  pose proof (group_out_length cs) as H3. destruct (group_out cs) as [out []]; cbn [fst] in *.
  - rewrite length_app. specialize (IH rest). lia.
  - lia.
Qed.

Lemma bytes_of_sextets input : Forall is_u8 input -> bytes_of (sextets input) = input.
Proof.
  induction input as [|c1|c1 c2|c1 c2 c3 l IH] using list_ind3; intros H; [done|..];
    repeat match goal with H : Forall _ (_ :: _) |- _ => inversion_clear H end;
    cbn [sextets app bytes_of].
  - destruct (out_bits (c1 / 4) (c1 mod 4 * 16) 0 0) as (-> & _); try int_lia.
    f_equal; int_lia.
  - destruct (out_bits (c1 / 4) (c1 mod 4 * 16 + c2 / 16) (c2 mod 16 * 4) 0) as (-> & -> & _);
      try int_lia.
    f_equal; [int_lia|]. f_equal; int_lia.
  - destruct (out_bits (c1 / 4) (c1 mod 4 * 16 + c2 / 16) (c2 mod 16 * 4 + c3 / 64) (c3 mod 64))
      as (-> & -> & ->); try int_lia.
    rewrite IH by done. f_equal; [int_lia|]. f_equal; [int_lia|]. f_equal. int_lia.
Qed.

(** ** Claims *)

Lemma length_sextets input :
  (length (sextets input) + padding input = 4 * ((length input + 2) / 3))%nat.
Proof.
  induction input as [|c1|c1 c2|c1 c2 c3 l IH] using list_ind3; [done..|].
  cbn [sextets padding length app].
  replace (S (S (S (length l))) + 2)%nat with (length l + 2 + 1 * 3)%nat by lia.
  rewrite Nat.div_add by done. lia.
Qed.

Lemma encode_length input :
  Forall is_u8 input -> length (encode_loop input) = (4 * ((length input + 2) / 3))%nat.
Proof.
  intros H. rewrite encode_sextets, length_app, length_map, length_replicate by done.
  apply length_sextets.
Qed.

Lemma filter_valid l : Forall valid l -> filter valid l = l.
Proof.
  induction 1 as [|b l Hb _ IH]; [done|]. by rewrite list.filter_cons, decide_True, IH.
Qed.

Lemma filter_padding p : filter valid (replicate p PADDING) = [].
Proof.
  induction p as [|p IH]; [done|]. cbn [replicate].
  by rewrite list.filter_cons, decide_False, IH by apply padding_not_valid.
Qed.

Lemma sextets_of_chars vs : Forall is_sextet vs -> map base256_char (map char64 vs) = vs.
Proof. induction 1 as [|v vs Hv _ IH]; cbn; [done|]. by rewrite base256_char64, IH. Qed.

Lemma strip_len_le buf len : (strip_len buf len <= len)%nat.
Proof. induction len as [|len IH]; cbn; [lia|]. case_if; lia. Qed.

(** Decoding a text whose last character, trailing padding aside, is in the
    alphabet. *)
Lemma decode_text text p out_len :
  Z.of_nat (length text) < 2 ^ 29 -> ends_valid text -> Z.of_nat (length text) <= out_len ->
  dr_status (pj_base64_decode (text ++ replicate p PADDING) out_len) = PJ_SUCCESS /\
  dr_out (pj_base64_decode (text ++ replicate p PADDING) out_len) =
    bytes_of (map base256_char (filter valid text)).
Proof.
  intros Hl He Ho. unfold pj_base64_decode.
  assert (list.last text <> Some PADDING) as Hp.
  { intros Hp. by apply padding_not_valid, He. }
  rewrite length_app, length_replicate, strip_len_app, take_app_length by done.
  assert (PJ_BASE64_TO_BASE256_LEN (Z.of_nat (length text)) <= Z.of_nat (length text)) as Hb.
  { unfold PJ_BASE64_TO_BASE256_LEN. replace (s32 _) with (Z.of_nat (length text) * 3) by int_lia.
    rewrite Z.quot_div_nonneg by lia. int_lia. }
  rewrite Z.geb_leb, (proj2 (Z.leb_le _ _)) by lia. cbn [dr_status dr_out].
  split; [done|]. by apply decode_loop_spec.
Qed.

(** Decoding the base64 text of any bytes gives the bytes back; the text has
    four characters for every three bytes begun, fits in the buffer the encoder
    asks for, and may be interspersed with characters outside the alphabet as
    long as its last character, the padding aside, is not one of them. *)
Theorem base64_roundtrip input text p out_len dec_len :
  Forall is_u8 input -> Z.of_nat (length input) < 2 ^ 28 ->
  PJ_BASE256_TO_BASE64_LEN (Z.of_nat (length input)) <= out_len ->
  filter valid text = filter valid (encode_loop input) -> ends_valid text ->
  Z.of_nat (length text) < 2 ^ 29 -> Z.of_nat (length text) <= dec_len ->
  pj_base64_encode input out_len = (PJ_SUCCESS, encode_loop input) /\
  length (encode_loop input) = (4 * ((length input + 2) / 3))%nat /\
  Z.of_nat (length (encode_loop input)) <= out_len /\
  dr_status (pj_base64_decode (text ++ replicate p PADDING) dec_len) = PJ_SUCCESS /\
  dr_out (pj_base64_decode (text ++ replicate p PADDING) dec_len) = input.
Proof.
  intros Hi Hl Ho Hf He Ht Hd. rewrite encode_length by done.
  destruct (decode_text text p dec_len Ht He Hd) as [-> ->].
  assert (Z.of_nat (4 * ((length input + 2) / 3)) <= out_len) as Hb.
  { etrans; [|exact Ho]. unfold PJ_BASE256_TO_BASE64_LEN.
    replace (s32 (Z.of_nat (length input) * 4)) with (Z.of_nat (length input) * 4) by int_lia.
    rewrite Z.quot_div_nonneg by lia. rewrite Nat2Z.inj_mul, Nat2Z.inj_div. int_lia. }
  split_and!; [|done|done|done|].
  - unfold pj_base64_encode. by rewrite Z.geb_leb, (proj2 (Z.leb_le _ _)) by lia.
  - rewrite Hf, encode_sextets, list.filter_app by done.
    rewrite filter_valid by (by apply char64_valid, sextets_range).
    rewrite filter_padding, app_nil_r, sextets_of_chars by (by apply sextets_range).
    by apply bytes_of_sextets.
Qed.

(** "QUI=" with a line break inside and two more padding characters. *)
Lemma base64_roundtrip_witness :
  dr_out (pj_base64_decode ([81; 13; 10; 85; 73] ++ replicate 3 PADDING) 5) = cstr "AB".
Proof.
  refine (proj2 (proj2 (proj2 (proj2
    (base64_roundtrip (cstr "AB") [81; 13; 10; 85; 73] 3 5 5 _ _ _ _ _ _ _))))).
  - change (cstr "AB") with [65; 66]. repeat constructor; lia.
  - vm_compute. reflexivity.
  - vm_compute. discriminate.
  - vm_compute. reflexivity.
  - intros b [= <-]. vm_compute. discriminate.
  - vm_compute. reflexivity.
  - vm_compute. discriminate.
Defined.

(** Whatever the text, a decoding that is accepted writes no more bytes than
    the caller's buffer holds, and one that is refused writes nothing. *)
Theorem base64_decode_bounded input out_len :
  Z.of_nat (length input) < 2 ^ 29 ->
  let r := pj_base64_decode input out_len in
  (dr_status r = PJ_SUCCESS /\ Z.of_nat (length (dr_out r)) <= out_len) \/
  (dr_status r = PJ_ETOOSMALL /\ dr_out r = []).
Proof.
  intros Hl. unfold pj_base64_decode. cbv zeta.
  set (len := strip_len input (length input)).
  pose proof (strip_len_le input (length input)) as Hs. fold len in Hs.
  destruct (Z.geb_spec out_len (PJ_BASE64_TO_BASE256_LEN (Z.of_nat len))) as [Hb|Hb];
    cbn [dr_status dr_out]; [left|by right].
  split; [done|]. etrans; [|exact Hb].
  pose proof (decode_loop_length len (take len input)) as Hd.
  rewrite length_take in Hd. unfold PJ_BASE64_TO_BASE256_LEN.
  replace (s32 _) with (Z.of_nat len * 3) by int_lia.
  rewrite Z.quot_div_nonneg by lia. int_lia.
Qed.

Lemma base64_decode_bounded_witness :
  let r := pj_base64_decode (cstr "QUJDREVG!") 6 in
  (dr_status r = PJ_SUCCESS /\ Z.of_nat (length (dr_out r)) <= 6) \/
  (dr_status r = PJ_ETOOSMALL /\ dr_out r = []).
Proof. apply (base64_decode_bounded (cstr "QUJDREVG!") 6). vm_compute. reflexivity. Defined.

(** A text decoded into a buffer of exactly the length the decoder asks for
    fails the assertion after the loop. *)
Theorem exact_buffer_asserts :
  pj_base64_decode (cstr "QUJD") (PJ_BASE64_TO_BASE256_LEN 4) =
  DecodeResult PJ_SUCCESS (cstr "ABC") false.
Proof. vm_compute. reflexivity. Qed.

(** A line break after the padding is not skipped: the padding stays in the
    text and the value -1 of the last character read becomes a byte. *)
Theorem trailing_newline_adds_byte :
  dr_out (pj_base64_decode (cstr "QUI=" ++ [10]) 100) = cstr "AB" ++ [63].
Proof. vm_compute. reflexivity. Qed.
