(* ===== verification/Words.v ===== *)
(** * Words and bytes

    The 32-bit words of the digests and of the STUN codec: their bytes in
    either order, rotation, and how the bit operations act on them.  Words and
    bytes are values of [Z], as everywhere in the library. *)

From Stdlib Require Import ZArith Lia Bool.
From stdpp Require Import base list numbers.
From S2P Require Import Prelude.
Local Open Scope Z_scope.

(** The word a little-endian and a big-endian machine load from four bytes. *)
Definition le32 (a b c d : Z) : Z := a + b * 256 + c * 65536 + d * 16777216.
Definition be32 (a b c d : Z) : Z := le32 d c b a.

(** The byte [i] of a word, counted from the least significant one. *)
Definition byte_of (w i : Z) : Z := Z.land (Z.shiftr w (8 * i)) 255.

Inductive endianness := LittleEndian | BigEndian.

(** A word of memory as the machine loads and stores it. *)
Definition load32 (e : endianness) (a b c d : Z) : Z :=
  match e with LittleEndian => le32 a b c d | BigEndian => be32 a b c d end.
Definition store32 (e : endianness) (w : Z) : list Z :=
  match e with
  | LittleEndian => [byte_of w 0; byte_of w 1; byte_of w 2; byte_of w 3]
  | BigEndian => [byte_of w 3; byte_of w 2; byte_of w 1; byte_of w 0]
  end.

(** An array of bytes seen as an array of words, and back. *)
Fixpoint to_words (e : endianness) (bytes : list Z) : list Z :=
  match bytes with
  | a :: b :: c :: d :: bytes => load32 e a b c d :: to_words e bytes
  | _ => []
  end.
Definition from_words (e : endianness) (ws : list Z) : list Z := concat (map (store32 e) ws).

(** Rotation to the left and complement of a 32-bit word. *)
Definition rol (value bits : Z) : Z :=
  Z.lor (u32 (Z.shiftl value bits)) (Z.shiftr value (32 - bits)).
Definition not32 (w : Z) : Z := Z.lxor w 0xffffffff.

Definition bytes_ok (l : list Z) : Prop := Forall is_u8 l.

(** ** Bit operations on numbers split at a bit *)

Lemma testbit_split n a b i : 0 <= n -> 0 <= a < 2 ^ n -> 0 <= i ->
  Z.testbit (a + b * 2 ^ n) i = if i <? n then Z.testbit a i else Z.testbit b (i - n).
Proof.
  intros Hn Ha Hi. destruct (i <? n) eqn:E; bool_hyps.
  - rewrite <- (Z.mod_pow2_bits_low (a + b * 2 ^ n) n i) by lia.
    rewrite Z.mod_add by lia. rewrite Z.mod_small by lia. done.
  - replace i with ((i - n) + n) at 1 by lia.
    rewrite <- Z.div_pow2_bits by lia. rewrite Z.div_add by lia.
    rewrite Z.div_small by lia. done.
Qed.

Lemma lxor_nonneg a b : 0 <= a -> 0 <= b -> 0 <= Z.lxor a b.
Proof. intros; apply Z.lxor_nonneg; lia. Qed.

Lemma pow2_bound n a : 0 <= n -> 0 <= a ->
  (forall i, n <= i -> Z.testbit a i = false) -> a < 2 ^ n.
Proof.
  intros Hn Ha H. destruct (Z.lt_ge_cases a (2 ^ n)) as [|Hge]; [done|].
  assert (n <= Z.log2 a) by (apply Z.log2_le_pow2; lia).
  assert (Hp : 0 < a) by (pose proof (Z.pow_pos_nonneg 2 n); lia).
  pose proof (Z.bit_log2 a Hp) as Hb. rewrite H in Hb by lia. done.
Qed.

Lemma bits_above n a i : 0 <= a < 2 ^ n -> n <= i -> Z.testbit a i = false.
Proof.
  intros Ha Hi. destruct (Z.eq_dec a 0) as [->|]; [apply Z.bits_0|].
  apply Z.bits_above_log2; [lia|].
  assert (Z.log2 a < n); [|lia]. apply Z.log2_lt_pow2; lia.
Qed.

Lemma lxor_bound n a b : 0 <= n -> 0 <= a < 2 ^ n -> 0 <= b < 2 ^ n ->
  0 <= Z.lxor a b < 2 ^ n.
Proof.
  intros Hn Ha Hb. split; [apply lxor_nonneg; lia|].
  apply pow2_bound; [done|apply lxor_nonneg; lia|]. intros i Hi.
  rewrite Z.lxor_spec, !(bits_above n) by lia. done.
Qed.

Lemma land_bound n a b : 0 <= n -> 0 <= a -> 0 <= b < 2 ^ n ->
  0 <= Z.land a b < 2 ^ n.
Proof.
  intros Hn Ha Hb. assert (0 <= Z.land a b) by (apply Z.land_nonneg; lia).
  split; [done|]. apply pow2_bound; [done..|]. intros i Hi.
  rewrite Z.land_spec, (bits_above n b) by lia. apply andb_false_r.
Qed.

Lemma lor_bound n a b : 0 <= n -> 0 <= a < 2 ^ n -> 0 <= b < 2 ^ n ->
  0 <= Z.lor a b < 2 ^ n.
Proof.
  intros Hn Ha Hb. assert (0 <= Z.lor a b) by (apply Z.lor_nonneg; lia).
  split; [done|]. apply pow2_bound; [done..|]. intros i Hi.
  rewrite Z.lor_spec, !(bits_above n) by lia. done.
Qed.

(** A bitwise operation works on the two halves separately. *)
Ltac split_bits n spec bound :=
  apply Z.bits_inj'; intros i Hi;
  rewrite spec, !(testbit_split n) by (try apply bound; lia);
  destruct (i <? n); by rewrite spec.

Lemma lxor_split n a b c d : 0 <= n -> 0 <= a < 2 ^ n -> 0 <= c < 2 ^ n ->
  Z.lxor (a + b * 2 ^ n) (c + d * 2 ^ n) = Z.lxor a c + Z.lxor b d * 2 ^ n.
Proof. intros; split_bits n Z.lxor_spec (lxor_bound n). Qed.

Lemma lor_split n a b c d : 0 <= n -> 0 <= a < 2 ^ n -> 0 <= c < 2 ^ n ->
  Z.lor (a + b * 2 ^ n) (c + d * 2 ^ n) = Z.lor a c + Z.lor b d * 2 ^ n.
Proof. intros; split_bits n Z.lor_spec (lor_bound n). Qed.

Lemma land_split n a b c d : 0 <= n -> 0 <= a < 2 ^ n -> 0 <= c < 2 ^ n ->
  Z.land (a + b * 2 ^ n) (c + d * 2 ^ n) = Z.land a c + Z.land b d * 2 ^ n.
Proof. intros; split_bits n Z.land_spec (land_bound n). Qed.

Lemma lor_disjoint n a b : 0 <= n -> 0 <= a < 2 ^ n ->
  Z.lor a (b * 2 ^ n) = a + b * 2 ^ n.
Proof.
  intros. pose proof (lor_split n a 0 0 b) as E.
  rewrite Z.lor_0_r, Z.lor_0_l, Z.add_0_l, Z.mul_0_l, Z.add_0_r in E. apply E; lia.
Qed.

(** ** Words *)

Lemma u8_lxor a b : is_u8 a -> is_u8 b -> is_u8 (Z.lxor a b).
Proof. exact (lxor_bound 8 a b ltac:(lia)). Qed.
Lemma u16_lxor a b : is_u16 a -> is_u16 b -> is_u16 (Z.lxor a b).
Proof. exact (lxor_bound 16 a b ltac:(lia)). Qed.
Lemma u32_lxor a b : is_u32 a -> is_u32 b -> is_u32 (Z.lxor a b).
Proof. exact (lxor_bound 32 a b ltac:(lia)). Qed.
Lemma u32_lor a b : is_u32 a -> is_u32 b -> is_u32 (Z.lor a b).
Proof. exact (lor_bound 32 a b ltac:(lia)). Qed.
Lemma u32_land a b : is_u32 a -> is_u32 b -> is_u32 (Z.land a b).
Proof. intros Ha Hb. exact (land_bound 32 a b ltac:(lia) (proj1 Ha) Hb). Qed.
Lemma u32_shiftr a n : 0 <= n -> is_u32 a -> is_u32 (Z.shiftr a n).
Proof.
  intros Hn [Ha Hb]. rewrite Z.shiftr_div_pow2 by done.
  pose proof (Z.pow_pos_nonneg 2 n).
  split; [apply Z.div_pos; lia|]. apply Z.div_lt_upper_bound; nia.
Qed.
Lemma le32_range a b c d : is_u8 a -> is_u8 b -> is_u8 c -> is_u8 d -> is_u32 (le32 a b c d).
Proof. unfold le32; int_lia. Qed.
Lemma be32_range a b c d : is_u8 a -> is_u8 b -> is_u8 c -> is_u8 d -> is_u32 (be32 a b c d).
Proof. intros; by apply le32_range. Qed.
#[export] Hint Resolve u8_lxor u16_lxor u32_lxor u32_lor u32_land u32_shiftr
  le32_range be32_range : pj.

Lemma le32_lxor a b c d a' b' c' d' :
  is_u8 a -> is_u8 b -> is_u8 c -> is_u8 a' -> is_u8 b' -> is_u8 c' ->
  Z.lxor (le32 a b c d) (le32 a' b' c' d')
  = le32 (Z.lxor a a') (Z.lxor b b') (Z.lxor c c') (Z.lxor d d').
Proof.
  unfold is_u8, le32; intros.
  replace (a + b * 256 + c * 65536 + d * 16777216)
    with (a + (b + (c + d * 2 ^ 8) * 2 ^ 8) * 2 ^ 8) by lia.
  replace (a' + b' * 256 + c' * 65536 + d' * 16777216)
    with (a' + (b' + (c' + d' * 2 ^ 8) * 2 ^ 8) * 2 ^ 8) by lia.
  rewrite !lxor_split by lia. lia.
Qed.

(** Reversing the bytes of a word. *)
Lemma bswap_le32 a b c d : is_u8 a -> is_u8 b -> is_u8 c -> is_u8 d ->
  pj_htonl (le32 a b c d) = be32 a b c d.
Proof. intros. unfold le32. rewrite pj_htonl_bytes by done. unfold be32, le32. lia. Qed.

Lemma bswap_lxor x y : is_u32 x -> is_u32 y ->
  pj_htonl (Z.lxor x y) = Z.lxor (pj_htonl x) (pj_htonl y).
Proof.
  intros (a & b & c & d & Ha & Hb & Hc & Hd & ->)%u32_bytes.
  intros (a' & b' & c' & d' & Ha' & Hb' & Hc' & Hd' & ->)%u32_bytes.
  change (a + b * 256 + c * 65536 + d * 16777216) with (le32 a b c d).
  change (a' + b' * 256 + c' * 65536 + d' * 16777216) with (le32 a' b' c' d').
  rewrite le32_lxor, !bswap_le32 by auto with pj. unfold be32.
  by rewrite le32_lxor.
Qed.

(** The bytes of a word. *)
Lemma byte_of_le32 a b c d : is_u8 a -> is_u8 b -> is_u8 c -> is_u8 d ->
  byte_of (le32 a b c d) 0 = a /\ byte_of (le32 a b c d) 1 = b
  /\ byte_of (le32 a b c d) 2 = c /\ byte_of (le32 a b c d) 3 = d.
Proof.
  unfold is_u8; intros. unfold byte_of.
  change 255 with (Z.ones 8). rewrite !Z.land_ones, !Z.shiftr_div_pow2 by lia.
  unfold le32. change (8 * 0) with 0. change (8 * 1) with 8. change (8 * 2) with 16.
  change (8 * 3) with 24.
  change (2 ^ 0) with 1. change (2 ^ 8) with 256. change (2 ^ 16) with 65536.
  change (2 ^ 24) with 16777216. rewrite Z.div_1_r.
  repeat split; symmetry.
  - apply Z.mod_unique with (b + c * 256 + d * 65536); lia.
  - replace ((a + b * 256 + c * 65536 + d * 16777216) / 256) with (b + c * 256 + d * 65536)
      by (apply Z.div_unique with a; lia).
    apply Z.mod_unique with (c + d * 256); lia.
  - replace ((a + b * 256 + c * 65536 + d * 16777216) / 65536) with (c + d * 256)
      by (apply Z.div_unique with (a + b * 256); lia).
    apply Z.mod_unique with d; lia.
  - replace ((a + b * 256 + c * 65536 + d * 16777216) / 16777216) with d
      by (apply Z.div_unique with (a + b * 256 + c * 65536); lia).
    apply Z.mod_unique with 0; lia.
Qed.

Lemma byte_of_range w i : 0 <= w -> is_u8 (byte_of w i).
Proof.
  intros Hw. apply (land_bound 8); [lia| |lia]. by apply Z.shiftr_nonneg.
Qed.

Lemma le32_byte_of w : is_u32 w ->
  le32 (byte_of w 0) (byte_of w 1) (byte_of w 2) (byte_of w 3) = w.
Proof.
  intros (a & b & c & d & Ha & Hb & Hc & Hd & ->)%u32_bytes.
  destruct (byte_of_le32 a b c d) as (E0 & E1 & E2 & E3); [done..|].
  change (a + b * 256 + c * 65536 + d * 16777216) with (le32 a b c d).
  by rewrite E0, E1, E2, E3.
Qed.

(** Masking a byte in place. *)
Lemma land_byte x k : 0 <= k ->
  Z.land x (Z.shiftl 255 k) = Z.shiftl (Z.land (Z.shiftr x k) 255) k.
Proof.
  intros Hk. apply Z.bits_inj'. intros i Hi.
  rewrite Z.land_spec, !Z.shiftl_spec by done.
  destruct (Z.lt_ge_cases i k).
  - rewrite !(Z.testbit_neg_r _ (i - k)) by lia. apply andb_false_r.
  - rewrite Z.land_spec, Z.shiftr_spec by lia. by replace (i - k + k) with i by lia.
Qed.

Lemma lor_bytes a b c d : is_u8 a -> is_u8 b -> is_u8 c ->
  Z.lor (Z.lor a (b * 2 ^ 8)) (Z.lor (c * 2 ^ 16) (d * 2 ^ 24)) = le32 a b c d.
Proof.
  unfold is_u8, le32; intros.
  assert (E : Z.lor (c * 2 ^ 16) (d * 2 ^ 24) = (c + d * 2 ^ 8) * 2 ^ 16).
  { rewrite <- (lor_disjoint 8 c d) by lia. rewrite <- !Z.shiftl_mul_pow2 by lia.
    rewrite Z.shiftl_lor, Z.shiftl_shiftl by lia. done. }
  rewrite E, (lor_disjoint 8 a b), lor_disjoint by lia. lia.
Qed.

Lemma le32_land a b c d a' b' c' d' :
  is_u8 a -> is_u8 b -> is_u8 c -> is_u8 a' -> is_u8 b' -> is_u8 c' ->
  Z.land (le32 a b c d) (le32 a' b' c' d')
  = le32 (Z.land a a') (Z.land b b') (Z.land c c') (Z.land d d').
Proof.
  unfold is_u8, le32; intros.
  replace (a + b * 256 + c * 65536 + d * 16777216)
    with (a + (b + (c + d * 2 ^ 8) * 2 ^ 8) * 2 ^ 8) by lia.
  replace (a' + b' * 256 + c' * 65536 + d' * 16777216)
    with (a' + (b' + (c' + d' * 2 ^ 8) * 2 ^ 8) * 2 ^ 8) by lia.
  rewrite !land_split by lia. lia.
Qed.

Lemma le32_lor a b c d a' b' c' d' :
  is_u8 a -> is_u8 b -> is_u8 c -> is_u8 a' -> is_u8 b' -> is_u8 c' ->
  Z.lor (le32 a b c d) (le32 a' b' c' d')
  = le32 (Z.lor a a') (Z.lor b b') (Z.lor c c') (Z.lor d d').
Proof.
  unfold is_u8, le32; intros.
  replace (a + b * 256 + c * 65536 + d * 16777216)
    with (a + (b + (c + d * 2 ^ 8) * 2 ^ 8) * 2 ^ 8) by lia.
  replace (a' + b' * 256 + c' * 65536 + d' * 16777216)
    with (a' + (b' + (c' + d' * 2 ^ 8) * 2 ^ 8) * 2 ^ 8) by lia.
  rewrite !lor_split by lia. lia.
Qed.

Lemma rol_range v n : 0 <= n <= 32 -> is_u32 v -> is_u32 (rol v n).
Proof. intros Hn Hv. unfold rol. apply u32_lor; [apply u32_range|]. apply u32_shiftr; [lia|done]. Qed.

Lemma rol8_le32 a b c d : is_u8 a -> is_u8 b -> is_u8 c -> is_u8 d ->
  rol (le32 a b c d) 8 = le32 d a b c.
Proof.
  intros Ha Hb Hc Hd. assert (H0 : is_u8 0) by (unfold is_u8; lia). unfold rol.
  replace (u32 (Z.shiftl (le32 a b c d) 8)) with (le32 0 a b c).
  - replace (Z.shiftr (le32 a b c d) (32 - 8)) with (le32 d 0 0 0).
    + rewrite le32_lor by done. by rewrite !Z.lor_0_r.
    + rewrite Z.shiftr_div_pow2 by lia. unfold le32, is_u8 in *.
      apply Z.div_unique with (a + b * 256 + c * 65536); lia.
  - rewrite Z.shiftl_mul_pow2 by lia. unfold u32, le32, is_u8 in *.
    apply Z.mod_unique with d; lia.
Qed.

Lemma rol24_le32 a b c d : is_u8 a -> is_u8 b -> is_u8 c -> is_u8 d ->
  rol (le32 a b c d) 24 = le32 b c d a.
Proof.
  intros Ha Hb Hc Hd. assert (H0 : is_u8 0) by (unfold is_u8; lia). unfold rol.
  replace (u32 (Z.shiftl (le32 a b c d) 24)) with (le32 0 0 0 a).
  - replace (Z.shiftr (le32 a b c d) (32 - 24)) with (le32 b c d 0).
    + rewrite le32_lor by done. by rewrite !Z.lor_0_l, Z.lor_0_r.
    + rewrite Z.shiftr_div_pow2 by lia. unfold le32, is_u8 in *.
      apply Z.div_unique with a; lia.
  - rewrite Z.shiftl_mul_pow2 by lia. unfold u32, le32, is_u8 in *.
    apply Z.mod_unique with (b + c * 256 + d * 65536); lia.
Qed.

(** ** Words in memory *)

Lemma store32_bytes e w : is_u32 w -> bytes_ok (store32 e w).
Proof.
  intros [H _]. unfold bytes_ok. destruct e; cbn [store32];
    rewrite !list.Forall_cons, list.Forall_nil; auto 10 using byte_of_range.
Qed.

Lemma from_words_length e ws : length (from_words e ws) = (4 * length ws)%nat.
Proof.
  induction ws as [|w ws IH]; [done|].
  change (from_words e (w :: ws)) with (store32 e w ++ from_words e ws).
  rewrite length_app, IH. destruct e; simpl; lia.
Qed.

Lemma from_words_bytes e ws : Forall is_u32 ws -> bytes_ok (from_words e ws).
Proof.
  induction 1 as [|w ws Hw _ IH]; [constructor|].
  change (from_words e (w :: ws)) with (store32 e w ++ from_words e ws).
  apply Forall_app; split; [by apply store32_bytes|done].
Qed.

Lemma words_ind (P : list Z -> Prop) :
  (forall l, (length l < 4)%nat -> P l) ->
  (forall a b c d l, P l -> P (a :: b :: c :: d :: l)) -> forall l, P l.
Proof.
  intros Hs Hw. fix F 1. intros [|a [|b [|c [|d l]]]]; [apply Hs; simpl; lia..|].
  apply Hw, F.
Qed.

Lemma bytes4 a b c d l : bytes_ok (a :: b :: c :: d :: l) ->
  is_u8 a /\ is_u8 b /\ is_u8 c /\ is_u8 d /\ bytes_ok l.
Proof. unfold bytes_ok. rewrite !list.Forall_cons. tauto. Qed.

Lemma to_words_ok e l : bytes_ok l -> Forall is_u32 (to_words e l).
Proof.
  induction l as [l Hl|a b c d l IH] using words_ind; intros H.
  - destruct l as [|? [|? [|? [|? ?]]]]; simpl in *; try constructor; lia.
  - apply bytes4 in H as (Ha & Hb & Hc & Hd & H). cbn [to_words]. constructor; [|by apply IH].
    destruct e; cbn [load32]; auto with pj.
Qed.

Lemma to_words_length e l n : length l = (4 * n)%nat -> length (to_words e l) = n.
Proof.
  revert n; induction l as [l Hl|a b c d l IH] using words_ind; intros n H.
  - destruct n; [|lia]. by apply nil_length_inv in H as ->.
  - cbn [length] in H. cbn [to_words length]. destruct n as [|n]; [lia|]. rewrite (IH n); lia.
Qed.

(** A big-endian word is the byte-swapped little-endian word. *)
Lemma to_words_swap l : bytes_ok l ->
  to_words BigEndian l = map pj_htonl (to_words LittleEndian l).
Proof.
  induction l as [l Hl|a b c d l IH] using words_ind; intros H.
  - destruct l as [|? [|? [|? [|? ?]]]]; simpl in *; try done; lia.
  - apply bytes4 in H as (Ha & Hb & Hc & Hd & H). cbn [to_words map load32].
    rewrite bswap_le32 by done. f_equal. by apply IH.
Qed.

(** ** Words as arrays and as bits *)

Definition word_at (l : list Z) (i : nat) : Z := nth i l 0.

(** Two 32-bit words are equal when their 32 bits are. *)
Lemma u32_bits_eq x y : is_u32 x -> is_u32 y ->
  (forall i, 0 <= i < 32 -> Z.testbit x i = Z.testbit y i) -> x = y.
Proof.
  intros Hx Hy H. apply Z.bits_inj'. intros i Hi.
  destruct (Z.lt_ge_cases i 32); [by apply H|].
  by rewrite !(bits_above 32) by (unfold is_u32 in *; lia).
Qed.

Lemma not32_bit x i : 0 <= i < 32 -> Z.testbit (not32 x) i = negb (Z.testbit x i).
Proof.
  intros Hi. unfold not32. rewrite Z.lxor_spec. change 0xffffffff with (Z.ones 32).
  rewrite Z.ones_spec_low by lia. apply xorb_true_r.
Qed.

Lemma not32_range x : is_u32 x -> is_u32 (not32 x).
Proof. intros. apply u32_lxor; [done|]. unfold is_u32; lia. Qed.

Lemma byte_of_div w i : 0 <= i -> byte_of w i = w / 2 ^ (8 * i) mod 256.
Proof.
  intros. unfold byte_of. change 255 with (Z.ones 8).
  rewrite Z.land_ones, Z.shiftr_div_pow2 by lia. reflexivity.
Qed.

(** The bytes of a number of 64 bits, from its two words. *)
Lemma byte_of_low n k : 0 <= n -> 0 <= k <= 3 -> byte_of (u32 n) k = byte_of n k.
Proof.
  intros Hn Hk. rewrite !byte_of_div by lia.
  assert (k = 0 \/ k = 1 \/ k = 2 \/ k = 3) as [-> | [-> | [-> | ->]]] by lia;
    cbn [Z.mul Pos.mul Z.pow Z.pow_pos Pos.iter]; int_lia.
Qed.

Lemma byte_of_high n k : 0 <= n -> 0 <= k <= 3 ->
  byte_of (u32 (n / 4294967296)) k = byte_of n (4 + k).
Proof.
  intros Hn Hk. rewrite !byte_of_div by lia.
  assert (k = 0 \/ k = 1 \/ k = 2 \/ k = 3) as [-> | [-> | [-> | ->]]] by lia;
    cbn [Z.mul Z.add Pos.add Pos.mul Z.pow Z.pow_pos Pos.iter Pos.succ]; int_lia.
Qed.
