(* ===== verification/Blocks.v ===== *)
(** * Hashing by blocks

    What the digests share: copies into a byte buffer, the 64-byte blocks of a
    message, and the padding of a message to whole blocks.  [run f st m] is
    the state after the whole blocks of [m], [rest_of m] the bytes behind
    them; a digest context that has taken in [m] holds these two and the
    length. *)

From Stdlib Require Import ZArith Lia Bool.
From stdpp Require Import base list numbers.
From S2P Require Import Prelude.
From S2P Require Import Words.
Local Open Scope Z_scope.

(** [memcpy(buf + pos, bytes, n)]. *)
Definition splice (buf : list Z) (pos : nat) (bytes : list Z) : list Z :=
  take pos buf ++ bytes ++ drop (pos + length bytes) buf.

Lemma splice_length buf pos bytes : (pos + length bytes <= length buf)%nat ->
  length (splice buf pos bytes) = length buf.
Proof. intros. unfold splice. rewrite !length_app, length_take, length_drop. lia. Qed.

Lemma splice_take buf pos bytes : (pos <= length buf)%nat ->
  take (pos + length bytes) (splice buf pos bytes) = take pos buf ++ bytes.
Proof.
  intros. unfold splice. rewrite app_assoc, take_app_length'; [done|].
  rewrite length_app, length_take. lia.
Qed.

Lemma splice_bytes buf pos bytes : bytes_ok buf -> bytes_ok bytes -> bytes_ok (splice buf pos bytes).
Proof.
  intros Hb Hy. unfold splice. apply Forall_app; split; [by apply list.Forall_take|].
  apply Forall_app; split; [done|by apply list.Forall_drop].
Qed.

(** The first [n] blocks of 64 bytes. *)
Fixpoint blocks (n : nat) (m : list Z) : list (list Z) :=
  match n with O => [] | S n => take 64 m :: blocks n (drop 64 m) end.

Definition nblocks (m : list Z) : nat := (length m / 64)%nat.

Section Run.
Context {A : Type} (f : A -> list Z -> A).

Definition run (st : A) (m : list Z) : A := fold_left f (blocks (nblocks m) m) st.
Definition rest_of (m : list Z) : list Z := drop (64 * nblocks m) m.

Lemma nblocks_block b m : length b = 64%nat -> nblocks (b ++ m) = S (nblocks m).
Proof.
  intros Hb. unfold nblocks. rewrite length_app, Hb.
  replace (64 + length m)%nat with (1 * 64 + length m)%nat by lia.
  rewrite Nat.div_add_l by lia. done.
Qed.

Lemma nblocks_small m : (length m < 64)%nat -> nblocks m = O.
Proof. apply Nat.div_small. Qed.

Lemma run_small st m : (length m < 64)%nat -> run st m = st /\ rest_of m = m.
Proof. intros H. unfold run, rest_of. by rewrite nblocks_small by done. Qed.

Lemma run_block st b m : length b = 64%nat ->
  run st (b ++ m) = run (f st b) m /\ rest_of (b ++ m) = rest_of m.
Proof.
  intros Hb. unfold run, rest_of. rewrite nblocks_block by done. cbn [blocks fold_left].
  rewrite take_app_length', drop_app_length' by done. split; [done|].
  replace (64 * S (nblocks m))%nat with (64 + 64 * nblocks m)%nat by lia.
  by rewrite <- drop_drop, drop_app_length'.
Qed.

(** Whole blocks in front of a message are hashed first. *)
Lemma run_app st a b : (length a mod 64 = 0)%nat ->
  run st (a ++ b) = run (run st a) b /\ rest_of (a ++ b) = rest_of b.
Proof.
  intros Ha. remember (length a / 64)%nat as n eqn:En.
  revert st a Ha En; induction n as [|n IH]; intros st a Ha En.
  { assert (length a = 0%nat) as Hz by (pose proof (Nat.div_mod_eq (length a) 64); lia).
    apply nil_length_inv in Hz as ->. done. }
  assert (Hl : (64 <= length a)%nat).
  { destruct (Nat.lt_ge_cases (length a) 64); [|done]. rewrite Nat.div_small in En by done. lia. }
  rewrite <- (take_drop 64 a). set (h := take 64 a). set (t := drop 64 a).
  assert (Hh : length h = 64%nat) by (unfold h; rewrite length_take; lia).
  assert (Ht : length a = (length t + 1 * 64)%nat) by (unfold t; rewrite length_drop; lia).
  rewrite Ht, Nat.div_add in En by lia. rewrite Ht, Nat.Div0.mod_add in Ha.
  rewrite <- app_assoc.
  destruct (run_block st h (t ++ b) Hh) as [-> ->]. destruct (run_block st h t Hh) as [-> _].
  apply IH; [done|lia].
Qed.

Lemma rest_of_length m : length (rest_of m) = (length m mod 64)%nat.
Proof.
  unfold rest_of, nblocks. rewrite length_drop.
  pose proof (Nat.div_mod_eq (length m) 64). lia.
Qed.

(** A message is its whole blocks and the rest. *)
Lemma run_split st m : exists w, m = w ++ rest_of m /\ (length w mod 64 = 0)%nat
  /\ run st w = run st m.
Proof.
  exists (take (64 * nblocks m) m).
  assert (E : length (take (64 * nblocks m) m) = (nblocks m * 64)%nat).
  { rewrite length_take. unfold nblocks. pose proof (Nat.div_mod_eq (length m) 64). lia. }
  assert (Hm : m = take (64 * nblocks m) m ++ rest_of m) by (unfold rest_of; by rewrite take_drop).
  split; [done|]. rewrite E. split; [by rewrite Nat.Div0.mod_mul|].
  rewrite Hm at 3. destruct (run_app st (take (64 * nblocks m) m) (rest_of m)) as [-> _].
  { rewrite E. by rewrite Nat.Div0.mod_mul. }
  symmetry. apply run_small. rewrite rest_of_length. by apply Nat.mod_upper_bound.
Qed.

(** Adding bytes to a message: the rest is continued. *)
Lemma run_continue st m d :
  run st (m ++ d) = run (run st m) (rest_of m ++ d) /\ rest_of (m ++ d) = rest_of (rest_of m ++ d).
Proof.
  destruct (run_split st m) as (w & Hm & Hw & Er).
  assert (E : m ++ d = w ++ (rest_of m ++ d)) by (by rewrite app_assoc, <- Hm). rewrite E.
  destruct (run_app st w (rest_of m ++ d) Hw) as [-> ->]. by rewrite Er.
Qed.
End Run.

(** ** Padding

    One byte 128, zeros up to 56 bytes of a block, and eight bytes of length. *)
Definition pad_zeros (len : Z) : nat := Z.to_nat ((55 - len) mod 64).

Definition pad (size : Z -> list Z) (m : list Z) : list Z :=
  let len := Z.of_nat (length m) in
  m ++ [128] ++ replicate (pad_zeros len) 0 ++ size (8 * len).

Lemma pad_length size m : (forall n, length (size n) = 8%nat) ->
  (length (pad size m) mod 64 = 0)%nat.
Proof.
  intros Hs. unfold pad. rewrite !length_app, length_replicate, Hs. cbn [length].
  unfold pad_zeros. apply Nat2Z.inj.
  rewrite Nat2Z.inj_mod, !Nat2Z.inj_add, Z2Nat.id by (apply Z.mod_pos_bound; lia).
  Z.to_euclidean_division_equations. lia.
Qed.

(** ** Positions in the buffer *)

(** The place of the next byte, from the low word of the bit count. *)
Lemma fill_position n : Z.to_nat (Z.land (Z.shiftr (u32 (8 * Z.of_nat n)) 3) 63) = (n mod 64)%nat.
Proof.
  change 63 with (Z.ones 6). rewrite Z.land_ones, Z.shiftr_div_pow2 by lia.
  apply Nat2Z.inj. rewrite Nat2Z.inj_mod, Z2Nat.id by (apply Z.mod_pos_bound; lia).
  change (2 ^ 6) with 64. change (2 ^ 3) with 8. change (Z.of_nat 64) with 64. int_lia.
Qed.

(** A full buffer is the rest of the message and the first bytes of the data. *)
Lemma splice_full buf j d : (length buf = 64)%nat -> (j + length d = 64)%nat ->
  splice buf j d = take j buf ++ d.
Proof.
  intros Hb Hj. unfold splice. rewrite drop_ge by lia. by rewrite app_nil_r.
Qed.

(** The pieces a client may feed. *)
Definition piece_ok (limit : Z) (p : list Z) : Prop := bytes_ok p /\ Z.of_nat (length p) < limit.
