(* ===== verification/Crc32.v ===== *)
(** * CRC-32

    Model of [pjlib-util/src/pjlib-util/crc32.c] in its three configurations:
    with the table of a little-endian machine, with the table of a big-endian
    machine, which keeps the state byte-swapped, and without a table
    ([PJ_CRC32_HAS_TABLES] zero).  The reference is the shift register of
    ISO 3309 and ITU-T V.42, a bit at a time, least significant bit of each
    byte first.  The theorems show that every configuration computes it, for
    data fed in pieces of any size at addresses of any alignment, and that two
    messages that differ within four bytes have different values. *)

From Stdlib Require Import ZArith Lia Bool.
From stdpp Require Import base list numbers.
From S2P Require Import Prelude.
From S2P Require Import Words.
Local Open Scope Z_scope.

Definition CRC32_NEGL : Z := 0xffffffff.

(** ** The tables *)

Definition crc_tab_le : list Z := concat [
  [0x00000000; 0x77073096; 0xee0e612c; 0x990951ba; 0x076dc419];
  [0x706af48f; 0xe963a535; 0x9e6495a3; 0x0edb8832; 0x79dcb8a4];
  [0xe0d5e91e; 0x97d2d988; 0x09b64c2b; 0x7eb17cbd; 0xe7b82d07];
  [0x90bf1d91; 0x1db71064; 0x6ab020f2; 0xf3b97148; 0x84be41de];
  [0x1adad47d; 0x6ddde4eb; 0xf4d4b551; 0x83d385c7; 0x136c9856];
  [0x646ba8c0; 0xfd62f97a; 0x8a65c9ec; 0x14015c4f; 0x63066cd9];
  [0xfa0f3d63; 0x8d080df5; 0x3b6e20c8; 0x4c69105e; 0xd56041e4];
  [0xa2677172; 0x3c03e4d1; 0x4b04d447; 0xd20d85fd; 0xa50ab56b];
  [0x35b5a8fa; 0x42b2986c; 0xdbbbc9d6; 0xacbcf940; 0x32d86ce3];
  [0x45df5c75; 0xdcd60dcf; 0xabd13d59; 0x26d930ac; 0x51de003a];
  [0xc8d75180; 0xbfd06116; 0x21b4f4b5; 0x56b3c423; 0xcfba9599];
  [0xb8bda50f; 0x2802b89e; 0x5f058808; 0xc60cd9b2; 0xb10be924];
  [0x2f6f7c87; 0x58684c11; 0xc1611dab; 0xb6662d3d; 0x76dc4190];
  [0x01db7106; 0x98d220bc; 0xefd5102a; 0x71b18589; 0x06b6b51f];
  [0x9fbfe4a5; 0xe8b8d433; 0x7807c9a2; 0x0f00f934; 0x9609a88e];
  [0xe10e9818; 0x7f6a0dbb; 0x086d3d2d; 0x91646c97; 0xe6635c01];
  [0x6b6b51f4; 0x1c6c6162; 0x856530d8; 0xf262004e; 0x6c0695ed];
  [0x1b01a57b; 0x8208f4c1; 0xf50fc457; 0x65b0d9c6; 0x12b7e950];
  [0x8bbeb8ea; 0xfcb9887c; 0x62dd1ddf; 0x15da2d49; 0x8cd37cf3];
  [0xfbd44c65; 0x4db26158; 0x3ab551ce; 0xa3bc0074; 0xd4bb30e2];
  [0x4adfa541; 0x3dd895d7; 0xa4d1c46d; 0xd3d6f4fb; 0x4369e96a];
  [0x346ed9fc; 0xad678846; 0xda60b8d0; 0x44042d73; 0x33031de5];
  [0xaa0a4c5f; 0xdd0d7cc9; 0x5005713c; 0x270241aa; 0xbe0b1010];
  [0xc90c2086; 0x5768b525; 0x206f85b3; 0xb966d409; 0xce61e49f];
  [0x5edef90e; 0x29d9c998; 0xb0d09822; 0xc7d7a8b4; 0x59b33d17];
  [0x2eb40d81; 0xb7bd5c3b; 0xc0ba6cad; 0xedb88320; 0x9abfb3b6];
  [0x03b6e20c; 0x74b1d29a; 0xead54739; 0x9dd277af; 0x04db2615];
  [0x73dc1683; 0xe3630b12; 0x94643b84; 0x0d6d6a3e; 0x7a6a5aa8];
  [0xe40ecf0b; 0x9309ff9d; 0x0a00ae27; 0x7d079eb1; 0xf00f9344];
  [0x8708a3d2; 0x1e01f268; 0x6906c2fe; 0xf762575d; 0x806567cb];
  [0x196c3671; 0x6e6b06e7; 0xfed41b76; 0x89d32be0; 0x10da7a5a];
  [0x67dd4acc; 0xf9b9df6f; 0x8ebeeff9; 0x17b7be43; 0x60b08ed5];
  [0xd6d6a3e8; 0xa1d1937e; 0x38d8c2c4; 0x4fdff252; 0xd1bb67f1];
  [0xa6bc5767; 0x3fb506dd; 0x48b2364b; 0xd80d2bda; 0xaf0a1b4c];
  [0x36034af6; 0x41047a60; 0xdf60efc3; 0xa867df55; 0x316e8eef];
  [0x4669be79; 0xcb61b38c; 0xbc66831a; 0x256fd2a0; 0x5268e236];
  [0xcc0c7795; 0xbb0b4703; 0x220216b9; 0x5505262f; 0xc5ba3bbe];
  [0xb2bd0b28; 0x2bb45a92; 0x5cb36a04; 0xc2d7ffa7; 0xb5d0cf31];
  [0x2cd99e8b; 0x5bdeae1d; 0x9b64c2b0; 0xec63f226; 0x756aa39c];
  [0x026d930a; 0x9c0906a9; 0xeb0e363f; 0x72076785; 0x05005713];
  [0x95bf4a82; 0xe2b87a14; 0x7bb12bae; 0x0cb61b38; 0x92d28e9b];
  [0xe5d5be0d; 0x7cdcefb7; 0x0bdbdf21; 0x86d3d2d4; 0xf1d4e242];
  [0x68ddb3f8; 0x1fda836e; 0x81be16cd; 0xf6b9265b; 0x6fb077e1];
  [0x18b74777; 0x88085ae6; 0xff0f6a70; 0x66063bca; 0x11010b5c];
  [0x8f659eff; 0xf862ae69; 0x616bffd3; 0x166ccf45; 0xa00ae278];
  [0xd70dd2ee; 0x4e048354; 0x3903b3c2; 0xa7672661; 0xd06016f7];
  [0x4969474d; 0x3e6e77db; 0xaed16a4a; 0xd9d65adc; 0x40df0b66];
  [0x37d83bf0; 0xa9bcae53; 0xdebb9ec5; 0x47b2cf7f; 0x30b5ffe9];
  [0xbdbdf21c; 0xcabac28a; 0x53b39330; 0x24b4a3a6; 0xbad03605];
  [0xcdd70693; 0x54de5729; 0x23d967bf; 0xb3667a2e; 0xc4614ab8];
  [0x5d681b02; 0x2a6f2b94; 0xb40bbe37; 0xc30c8ea1; 0x5a05df1b];
  [0x2d02ef8d]].

Definition crc_tab_be : list Z := concat [
  [0x00000000; 0x96300777; 0x2c610eee; 0xba510999; 0x19c46d07];
  [0x8ff46a70; 0x35a563e9; 0xa395649e; 0x3288db0e; 0xa4b8dc79];
  [0x1ee9d5e0; 0x88d9d297; 0x2b4cb609; 0xbd7cb17e; 0x072db8e7];
  [0x911dbf90; 0x6410b71d; 0xf220b06a; 0x4871b9f3; 0xde41be84];
  [0x7dd4da1a; 0xebe4dd6d; 0x51b5d4f4; 0xc785d383; 0x56986c13];
  [0xc0a86b64; 0x7af962fd; 0xecc9658a; 0x4f5c0114; 0xd96c0663];
  [0x633d0ffa; 0xf50d088d; 0xc8206e3b; 0x5e10694c; 0xe44160d5];
  [0x727167a2; 0xd1e4033c; 0x47d4044b; 0xfd850dd2; 0x6bb50aa5];
  [0xfaa8b535; 0x6c98b242; 0xd6c9bbdb; 0x40f9bcac; 0xe36cd832];
  [0x755cdf45; 0xcf0dd6dc; 0x593dd1ab; 0xac30d926; 0x3a00de51];
  [0x8051d7c8; 0x1661d0bf; 0xb5f4b421; 0x23c4b356; 0x9995bacf];
  [0x0fa5bdb8; 0x9eb80228; 0x0888055f; 0xb2d90cc6; 0x24e90bb1];
  [0x877c6f2f; 0x114c6858; 0xab1d61c1; 0x3d2d66b6; 0x9041dc76];
  [0x0671db01; 0xbc20d298; 0x2a10d5ef; 0x8985b171; 0x1fb5b606];
  [0xa5e4bf9f; 0x33d4b8e8; 0xa2c90778; 0x34f9000f; 0x8ea80996];
  [0x18980ee1; 0xbb0d6a7f; 0x2d3d6d08; 0x976c6491; 0x015c63e6];
  [0xf4516b6b; 0x62616c1c; 0xd8306585; 0x4e0062f2; 0xed95066c];
  [0x7ba5011b; 0xc1f40882; 0x57c40ff5; 0xc6d9b065; 0x50e9b712];
  [0xeab8be8b; 0x7c88b9fc; 0xdf1ddd62; 0x492dda15; 0xf37cd38c];
  [0x654cd4fb; 0x5861b24d; 0xce51b53a; 0x7400bca3; 0xe230bbd4];
  [0x41a5df4a; 0xd795d83d; 0x6dc4d1a4; 0xfbf4d6d3; 0x6ae96943];
  [0xfcd96e34; 0x468867ad; 0xd0b860da; 0x732d0444; 0xe51d0333];
  [0x5f4c0aaa; 0xc97c0ddd; 0x3c710550; 0xaa410227; 0x10100bbe];
  [0x86200cc9; 0x25b56857; 0xb3856f20; 0x09d466b9; 0x9fe461ce];
  [0x0ef9de5e; 0x98c9d929; 0x2298d0b0; 0xb4a8d7c7; 0x173db359];
  [0x810db42e; 0x3b5cbdb7; 0xad6cbac0; 0x2083b8ed; 0xb6b3bf9a];
  [0x0ce2b603; 0x9ad2b174; 0x3947d5ea; 0xaf77d29d; 0x1526db04];
  [0x8316dc73; 0x120b63e3; 0x843b6494; 0x3e6a6d0d; 0xa85a6a7a];
  [0x0bcf0ee4; 0x9dff0993; 0x27ae000a; 0xb19e077d; 0x44930ff0];
  [0xd2a30887; 0x68f2011e; 0xfec20669; 0x5d5762f7; 0xcb676580];
  [0x71366c19; 0xe7066b6e; 0x761bd4fe; 0xe02bd389; 0x5a7ada10];
  [0xcc4add67; 0x6fdfb9f9; 0xf9efbe8e; 0x43beb717; 0xd58eb060];
  [0xe8a3d6d6; 0x7e93d1a1; 0xc4c2d838; 0x52f2df4f; 0xf167bbd1];
  [0x6757bca6; 0xdd06b53f; 0x4b36b248; 0xda2b0dd8; 0x4c1b0aaf];
  [0xf64a0336; 0x607a0441; 0xc3ef60df; 0x55df67a8; 0xef8e6e31];
  [0x79be6946; 0x8cb361cb; 0x1a8366bc; 0xa0d26f25; 0x36e26852];
  [0x95770ccc; 0x03470bbb; 0xb9160222; 0x2f260555; 0xbe3bbac5];
  [0x280bbdb2; 0x925ab42b; 0x046ab35c; 0xa7ffd7c2; 0x31cfd0b5];
  [0x8b9ed92c; 0x1daede5b; 0xb0c2649b; 0x26f263ec; 0x9ca36a75];
  [0x0a936d02; 0xa906099c; 0x3f360eeb; 0x85670772; 0x13570005];
  [0x824abf95; 0x147ab8e2; 0xae2bb17b; 0x381bb60c; 0x9b8ed292];
  [0x0dbed5e5; 0xb7efdc7c; 0x21dfdb0b; 0xd4d2d386; 0x42e2d4f1];
  [0xf8b3dd68; 0x6e83da1f; 0xcd16be81; 0x5b26b9f6; 0xe177b06f];
  [0x7747b718; 0xe65a0888; 0x706a0fff; 0xca3b0666; 0x5c0b0111];
  [0xff9e658f; 0x69ae62f8; 0xd3ff6b61; 0x45cf6c16; 0x78e20aa0];
  [0xeed20dd7; 0x5483044e; 0xc2b30339; 0x612667a7; 0xf71660d0];
  [0x4d476949; 0xdb776e3e; 0x4a6ad1ae; 0xdc5ad6d9; 0x660bdf40];
  [0xf03bd837; 0x53aebca9; 0xc59ebbde; 0x7fcfb247; 0xe9ffb530];
  [0x1cf2bdbd; 0x8ac2baca; 0x3093b353; 0xa6a3b424; 0x0536d0ba];
  [0x9306d7cd; 0x2957de54; 0xbf67d923; 0x2e7a66b3; 0xb84a61c4];
  [0x021b685d; 0x942b6f2a; 0x37be0bb4; 0xa18e0cc3; 0x1bdf055a];
  [0x8def022d]].

(** ** The code *)

Definition crc_tab (e : endianness) : list Z :=
  match e with LittleEndian => crc_tab_le | BigEndian => crc_tab_be end.

Definition CRC32_INDEX (e : endianness) (c : Z) : Z :=
  match e with LittleEndian => Z.land c 0xff | BigEndian => Z.shiftr c 24 end.
Definition CRC32_SHIFTED (e : endianness) (c : Z) : Z :=
  match e with LittleEndian => Z.shiftr c 8 | BigEndian => u32 (Z.shiftl c 8) end.
Definition CRC32_SWAP (e : endianness) (c : Z) : Z :=
  match e with
  | LittleEndian => c
  | BigEndian =>
      Z.lor (Z.lor (Z.shiftr (Z.land c 0xff000000) 24) (Z.shiftr (Z.land c 0x00ff0000) 8))
            (Z.lor (Z.shiftl (Z.land c 0x0000ff00) 8) (Z.shiftl (Z.land c 0x000000ff) 24))
  end.

(** [crc_tab[i]]; the index of the code is a byte. *)
Definition crc_at (e : endianness) (i : Z) : Z := default 0 (crc_tab e !! Z.to_nat i).

Definition crc_byte (e : endianness) (crc b : Z) : Z :=
  Z.lxor (crc_at e (Z.lxor (CRC32_INDEX e crc) b)) (CRC32_SHIFTED e crc).
Definition crc_word (e : endianness) (crc : Z) : Z :=
  Z.lxor (crc_at e (CRC32_INDEX e crc)) (CRC32_SHIFTED e crc).

(** The three loops: up to an aligned address, by words, the rest.  [addr] is
    the address of the first byte. *)
Fixpoint crc_head (e : endianness) (addr crc : Z) (data : list Z) : Z * list Z :=
  match data with
  | b :: rest =>
      if Z.land addr 3 =? 0 then (crc, data)
      else crc_head e (addr + 1) (crc_byte e crc b) rest
  | [] => (crc, [])
  end.

Fixpoint crc_words (e : endianness) (crc : Z) (data : list Z) : Z * list Z :=
  match data with
  | a :: b :: c :: d :: rest =>
      let crc := Z.lxor crc (load32 e a b c d) in
      crc_words e (crc_word e (crc_word e (crc_word e (crc_word e crc)))) rest
  | _ => (crc, data)
  end.

Definition crc_rest (e : endianness) (crc : Z) (data : list Z) : Z :=
  fold_left (crc_byte e) data crc.

Record pj_crc32_context := mk_crc32_context { crc_state : Z }.

Definition crc32_init_tab : pj_crc32_context := mk_crc32_context 0.

(** The new context and the value returned. *)
Definition crc32_update_tab (e : endianness) (ctx : pj_crc32_context) (addr : Z)
    (data : list Z) : pj_crc32_context * Z :=
  let crc := Z.lxor (crc_state ctx) CRC32_NEGL in
  let '(crc, data) := crc_head e addr crc data in
  let '(crc, data) := crc_words e crc data in
  let crc := crc_rest e crc data in
  let st := Z.lxor crc CRC32_NEGL in
  (mk_crc32_context st, st).

Definition crc32_final_tab (e : endianness) (ctx : pj_crc32_context) : pj_crc32_context * Z :=
  (ctx, CRC32_SWAP e (crc_state ctx)).

(** Without a table: eight shifts for each byte. *)
Definition temp_round (temp : Z) : Z :=
  if Z.odd temp then Z.lxor (Z.shiftr temp 1) 0xEDB88320 else Z.shiftr temp 1.

Definition crc_octet (crc octet : Z) : Z :=
  let temp := Z.lxor (Z.land crc 0xFF) octet in
  Z.lxor (Z.shiftr crc 8) (Nat.iter 8 temp_round temp).

Definition crc32_init_plain : pj_crc32_context := mk_crc32_context CRC32_NEGL.

Definition crc32_update_plain (ctx : pj_crc32_context) (octets : list Z) : pj_crc32_context * Z :=
  let crc := fold_left crc_octet octets (crc_state ctx) in
  (mk_crc32_context crc, Z.lxor crc CRC32_NEGL).

Definition crc32_final_plain (ctx : pj_crc32_context) : pj_crc32_context * Z :=
  let st := Z.lxor (crc_state ctx) CRC32_NEGL in (mk_crc32_context st, st).

(** The functions of the API, which the configuration selects. *)
Inductive crc_config := WithTables (e : endianness) | WithoutTables.

Definition pj_crc32_init (cfg : crc_config) : pj_crc32_context :=
  match cfg with WithTables _ => crc32_init_tab | WithoutTables => crc32_init_plain end.
Definition pj_crc32_update (cfg : crc_config) (ctx : pj_crc32_context) (addr : Z)
    (data : list Z) : pj_crc32_context * Z :=
  match cfg with
  | WithTables e => crc32_update_tab e ctx addr data
  | WithoutTables => crc32_update_plain ctx data
  end.
Definition pj_crc32_final (cfg : crc_config) (ctx : pj_crc32_context) : pj_crc32_context * Z :=
  match cfg with
  | WithTables e => crc32_final_tab e ctx
  | WithoutTables => crc32_final_plain ctx
  end.

Definition pj_crc32_calc (cfg : crc_config) (addr : Z) (data : list Z) : Z :=
  let ctx := pj_crc32_init cfg in
  let ctx := fst (pj_crc32_update cfg ctx addr data) in
  snd (pj_crc32_final cfg ctx).

(** A client that feeds the data in pieces, each at its address. *)
Definition crc32_stream (cfg : crc_config) (pieces : list (Z * list Z)) : Z :=
  let feed ctx p := fst (pj_crc32_update cfg ctx (fst p) (snd p)) in
  snd (pj_crc32_final cfg (fold_left feed pieces (pj_crc32_init cfg))).

(** ** The reference: the shift register of the standard *)

Definition CRC_POLY : Z := 0xEDB88320.

Definition crc_bit (crc : Z) (bit : bool) : Z :=
  Z.lxor (Z.shiftr crc 1) (if xorb (Z.odd crc) bit then CRC_POLY else 0).

Fixpoint low_bits (n : nat) (b : Z) : list bool :=
  match n with O => [] | S n => Z.odd b :: low_bits n (Z.div2 b) end.

Definition bits_of (data : list Z) : list bool := concat (map (low_bits 8) data).

Definition crc32_spec (data : list Z) : Z :=
  Z.lxor (fold_left crc_bit (bits_of data) 0xffffffff) 0xffffffff.

(** The check value of the standard, in each configuration. *)
Definition check_data : list Z := [49; 50; 51; 52; 53; 54; 55; 56; 57].
Lemma crc32_check_value : crc32_spec check_data = 0xcbf43926
  /\ pj_crc32_calc (WithTables LittleEndian) 1 check_data = 0xcbf43926
  /\ pj_crc32_calc (WithTables BigEndian) 2 check_data = 0xcbf43926
  /\ pj_crc32_calc WithoutTables 3 check_data = 0xcbf43926.
Proof. by vm_compute. Qed.

(** ** The shift register is linear *)

Definition crc_step (x : Z) : Z := crc_bit x false.
Definition crc_steps (n : nat) (x : Z) : Z := Nat.iter n crc_step x.

Lemma odd_lxor x y : Z.odd (Z.lxor x y) = xorb (Z.odd x) (Z.odd y).
Proof. by rewrite <- !Z.bit0_odd, Z.lxor_spec. Qed.

Lemma crc_step_lxor x y : crc_step (Z.lxor x y) = Z.lxor (crc_step x) (crc_step y).
Proof.
  unfold crc_step, crc_bit. rewrite !xorb_false_r, odd_lxor, Z.shiftr_lxor.
  destruct (Z.odd x), (Z.odd y); simpl;
    rewrite ?Z.lxor_0_r, ?Z.lxor_assoc; f_equal.
  - rewrite (Z.lxor_comm CRC_POLY), Z.lxor_assoc, Z.lxor_nilpotent. by rewrite Z.lxor_0_r.
  - apply Z.lxor_comm.
Qed.

Lemma crc_steps_S n x : crc_steps (S n) x = crc_steps n (crc_step x).
Proof. unfold crc_steps. by rewrite Nat.iter_succ_r. Qed.

Lemma crc_steps_lxor n x y : crc_steps n (Z.lxor x y) = Z.lxor (crc_steps n x) (crc_steps n y).
Proof.
  revert x y; induction n as [|n IH]; intros x y; [done|].
  by rewrite !crc_steps_S, crc_step_lxor, IH.
Qed.

Lemma crc_step_even h : crc_step (2 * h) = h.
Proof.
  unfold crc_step, crc_bit. rewrite xorb_false_r.
  replace (Z.odd (2 * h)) with false by (rewrite Z.odd_mul; done).
  rewrite Z.lxor_0_r, <- Z.div2_spec. rewrite Z.div2_div. by rewrite Z.mul_comm, Z.div_mul.
Qed.

Lemma crc_steps_shift n h : crc_steps n (h * 2 ^ Z.of_nat n) = h.
Proof.
  revert h; induction n as [|n IH]; intros h; [unfold crc_steps; simpl; lia|].
  rewrite crc_steps_S.
  replace (h * 2 ^ Z.of_nat (S n)) with (2 * (h * 2 ^ Z.of_nat n))
    by (rewrite Nat2Z.inj_succ, Z.pow_succ_r by lia; lia).
  by rewrite crc_step_even, IH.
Qed.

Lemma crc_bit_step x b : crc_bit x b = crc_step (Z.lxor x (Z.b2z b)).
Proof.
  unfold crc_step, crc_bit. rewrite xorb_false_r, odd_lxor, Z.shiftr_lxor.
  destruct b; simpl Z.b2z; by rewrite Z.lxor_0_r.
Qed.

(** A number splits into its low bit and the rest, without carry. *)
Lemma lxor_low n lo hi : 0 <= n -> 0 <= lo < 2 ^ n -> lo + hi * 2 ^ n = Z.lxor lo (hi * 2 ^ n).
Proof.
  intros Hn Hlo. pose proof (lxor_split n lo 0 0 hi) as E.
  rewrite Z.lxor_0_r, Z.lxor_0_l, Z.add_0_l, Z.mul_0_l, Z.add_0_r in E. symmetry; apply E; lia.
Qed.

(** Feeding the bits of [b] is adding [b] and shifting. *)
Lemma crc_low_bits n x b : 0 <= b < 2 ^ Z.of_nat n ->
  fold_left crc_bit (low_bits n b) x = crc_steps n (Z.lxor x b).
Proof.
  revert x b; induction n as [|n IH]; intros x b Hb.
  { simpl in *. replace b with 0 by lia. by rewrite Z.lxor_0_r. }
  rewrite Nat2Z.inj_succ, Z.pow_succ_r in Hb by lia.
  simpl low_bits. simpl fold_left.
  pose proof (Z.div2_odd b) as Eb. rewrite Z.div2_div in Eb.
  assert (0 <= Z.b2z (Z.odd b) < 2) by (destruct (Z.odd b); simpl; lia).
  rewrite IH, crc_steps_S by (rewrite Z.div2_div; lia). f_equal.
  rewrite crc_bit_step, Z.div2_div.
  rewrite Eb at 3. rewrite Z.add_comm, Z.mul_comm.
  change (b / 2 * 2) with (b / 2 * 2 ^ 1).
  rewrite lxor_low by (simpl; lia).
  rewrite <- Z.lxor_assoc. rewrite (crc_step_lxor (Z.lxor x _)). f_equal.
  change (2 ^ 1) with 2. by rewrite (Z.mul_comm _ 2), crc_step_even.
Qed.

(** ** Table steps *)

Definition crc_fold (crc : Z) (data : list Z) : Z :=
  fold_left (fun x b => crc_steps 8 (Z.lxor x b)) data crc.

Lemma crc_fold_spec data x : bytes_ok data -> fold_left crc_bit (bits_of data) x = crc_fold x data.
Proof.
  intros H. revert x; induction H as [|b data Hb _ IH]; intros x; [done|].
  change (bits_of (b :: data)) with (low_bits 8 b ++ bits_of data). rewrite fold_left_app.
  rewrite crc_low_bits by exact Hb. apply IH.
Qed.

Lemma crc_steps8_split x b : 0 <= x -> is_u8 b ->
  crc_steps 8 (Z.lxor x b)
  = Z.lxor (crc_steps 8 (Z.lxor (Z.land x 255) b)) (Z.shiftr x 8).
Proof.
  intros Hx Hb. change 255 with (Z.ones 8).
  rewrite Z.land_ones, Z.shiftr_div_pow2 by lia.
  set (lo := x mod 2 ^ 8). set (hi := x / 2 ^ 8).
  assert (Hlo : 0 <= lo < 2 ^ 8) by (apply Z.mod_pos_bound; lia).
  assert (E : x = lo + hi * 2 ^ 8) by (unfold lo, hi; rewrite Z.mul_comm, Z.add_comm; apply Z.div_mod; lia).
  rewrite E, lxor_low by lia.
  rewrite Z.lxor_assoc, (Z.lxor_comm (hi * _)), <- Z.lxor_assoc, crc_steps_lxor.
  f_equal. exact (crc_steps_shift 8 hi).
Qed.

Lemma tab_le_at i : is_u8 i -> crc_at LittleEndian i = crc_steps 8 i.
Proof.
  intros Hi. apply Z.eqb_eq.
  apply (range_check 256 (fun i => crc_at LittleEndian i =? crc_steps 8 i)); [by vm_compute|exact Hi].
Qed.

Lemma tab_be_at i : is_u8 i -> crc_at BigEndian i = pj_htonl (crc_at LittleEndian i).
Proof.
  intros Hi. apply Z.eqb_eq.
  apply (range_check 256 (fun i => crc_at BigEndian i =? pj_htonl (crc_at LittleEndian i)));
    [by vm_compute|exact Hi].
Qed.

Lemma index_range c : 0 <= c -> is_u8 (Z.land c 255).
Proof. intros. apply (land_bound 8); lia. Qed.

Lemma crc_byte_le x b : 0 <= x -> is_u8 b -> crc_byte LittleEndian x b = crc_steps 8 (Z.lxor x b).
Proof.
  intros Hx Hb. rewrite crc_steps8_split by done. unfold crc_byte.
  simpl CRC32_INDEX; simpl CRC32_SHIFTED.
  rewrite tab_le_at; [done|]. apply u8_lxor; [by apply index_range|done].
Qed.

Lemma temp_round_step x : temp_round x = crc_step x.
Proof.
  unfold temp_round, crc_step, crc_bit. rewrite xorb_false_r.
  destruct (Z.odd x); [done|by rewrite Z.lxor_0_r].
Qed.

Lemma crc_octet_steps x b : 0 <= x -> is_u8 b -> crc_octet x b = crc_steps 8 (Z.lxor x b).
Proof.
  intros Hx Hb. rewrite crc_steps8_split by done. unfold crc_octet.
  rewrite Z.lxor_comm. f_equal. unfold crc_steps. generalize (Z.lxor (Z.land x 255) b).
  intros y. generalize 8%nat. induction n as [|n IH]; [done|].
  simpl. by rewrite IH, temp_round_step.
Qed.

Lemma crc_step_range x : is_u32 x -> is_u32 (crc_step x).
Proof.
  intros Hx. unfold crc_step, crc_bit. rewrite xorb_false_r. apply u32_lxor.
  - apply u32_shiftr; [lia|done].
  - destruct (Z.odd x); unfold CRC_POLY; int_lia.
Qed.

Lemma crc_steps_range n x : is_u32 x -> is_u32 (crc_steps n x).
Proof.
  revert x; induction n as [|n IH]; intros x Hx; [done|].
  rewrite crc_steps_S. by apply IH, crc_step_range.
Qed.

Lemma u8_u32 b : is_u8 b -> is_u32 b.
Proof. int_lia. Qed.
#[export] Hint Resolve crc_steps_range u8_u32 : pj.

Lemma crc_fold_range data x : bytes_ok data -> is_u32 x -> is_u32 (crc_fold x data).
Proof.
  intros H. revert x; induction H as [|b data Hb _ IH]; intros x Hx; [done|].
  apply IH. auto with pj.
Qed.

Lemma crc_fold_app x a b : crc_fold x (a ++ b) = crc_fold (crc_fold x a) b.
Proof. apply fold_left_app. Qed.

#[local] Opaque crc_steps.

(** ** The loops *)

Lemma crc_head_le data : forall addr x x' rest, bytes_ok data -> is_u32 x ->
  crc_head LittleEndian addr x data = (x', rest) ->
  crc_fold x' rest = crc_fold x data /\ bytes_ok rest /\ is_u32 x'.
Proof.
  induction data as [|b data IH]; intros addr x x' rest Hd Hx E; simpl in E.
  { by injection E as <- <-. }
  destruct (Z.land addr 3 =? 0); [by injection E as <- <-|].
  apply list.Forall_cons in Hd as [Hb Hd].
  rewrite crc_byte_le in E by (unfold is_u32 in Hx; first [lia|done]).
  apply IH in E; [done..|]. auto with pj.
Qed.

(** Four table steps take in a word that was added at once. *)
Lemma crc_steps8_word x b w : is_u8 b ->
  crc_steps 8 (Z.lxor x (b + w * 256)) = Z.lxor (crc_steps 8 (Z.lxor x b)) w.
Proof.
  intros Hb. change 256 with (2 ^ 8). rewrite lxor_low by (unfold is_u8 in Hb; lia).
  rewrite <- Z.lxor_assoc, (crc_steps_lxor 8 (Z.lxor x b)). f_equal. exact (crc_steps_shift 8 w).
Qed.

Lemma crc_word_le x : is_u32 x -> crc_word LittleEndian x = crc_steps 8 x.
Proof.
  intros Hx. pose proof (crc_byte_le x 0) as E. unfold crc_byte in E.
  rewrite !Z.lxor_0_r in E. apply E; unfold is_u32 in Hx; unfold is_u8; lia.
Qed.

Lemma crc_word4_le x a b c d : is_u32 x -> is_u8 a -> is_u8 b -> is_u8 c -> is_u8 d ->
  let y := Z.lxor x (load32 LittleEndian a b c d) in
  let f := crc_word LittleEndian in
  f (f (f (f y))) = crc_fold x [a; b; c; d].
Proof.
  intros Hx Ha Hb Hc Hd y f.
  change (load32 LittleEndian a b c d) with (le32 a b c d) in y.
  assert (Hy : is_u32 y) by (unfold y; apply u32_lxor; [done|by apply le32_range]).
  unfold f. rewrite (crc_word_le y) by done.
  do 3 (rewrite (crc_word_le (crc_steps _ _)) by auto with pj). unfold y.
  replace (le32 a b c d) with (a + (b + (c + d * 256) * 256) * 256) by (unfold le32; lia).
  rewrite !crc_steps8_word by assumption. unfold crc_fold. cbn [fold_left]. reflexivity.
Qed.

Lemma crc_words_small e x l : (length l < 4)%nat -> crc_words e x l = (x, l).
Proof. destruct l as [|? [|? [|? [|? ?]]]]; simpl; try done; lia. Qed.

Lemma crc_words_le data : forall x x' rest, bytes_ok data -> is_u32 x ->
  crc_words LittleEndian x data = (x', rest) ->
  crc_fold x' rest = crc_fold x data /\ bytes_ok rest /\ is_u32 x'.
Proof.
  induction data as [l Hl|a b c d l IH] using words_ind; intros x x' rest Hd Hx E.
  { rewrite crc_words_small in E by done. by injection E as <- <-. }
  apply list.Forall_cons in Hd as [Ha Hd]. apply list.Forall_cons in Hd as [Hb Hd].
  apply list.Forall_cons in Hd as [Hc Hd]. apply list.Forall_cons in Hd as [Hd' Hd].
  cbn [crc_words] in E. cbv zeta in E.
  rewrite (crc_word4_le x a b c d) in E by done.
  apply IH in E as (E & Hr & Hy); [|done|].
  - rewrite <- crc_fold_app in E. by split.
  - apply crc_fold_range; [|done]. unfold bytes_ok. by rewrite !list.Forall_cons, list.Forall_nil.
Qed.

Lemma crc_rest_le data x : bytes_ok data -> is_u32 x ->
  crc_rest LittleEndian x data = crc_fold x data.
Proof.
  intros H. revert x; induction H as [|b data Hb _ IH]; intros x Hx; [done|].
  change (crc_rest LittleEndian (crc_byte LittleEndian x b) data = crc_fold x (b :: data)).
  rewrite crc_byte_le by (unfold is_u32 in Hx; first [lia|done]).
  apply IH. auto with pj.
Qed.

(** The update of a little-endian machine, whatever the alignment. *)
Lemma crc_loops_le addr x data : bytes_ok data -> is_u32 x ->
  (let '(crc, rest) := crc_head LittleEndian addr x data in
   let '(crc, rest) := crc_words LittleEndian crc rest in
   crc_rest LittleEndian crc rest) = crc_fold x data.
Proof.
  intros Hd Hx. destruct (crc_head _ _ _ _) as [y r1] eqn:E1.
  apply crc_head_le in E1 as (<- & Hr1 & Hy); [|done..].
  destruct (crc_words _ _ _) as [z r2] eqn:E2.
  apply crc_words_le in E2 as (<- & Hr2 & Hz); [|done..].
  by apply crc_rest_le.
Qed.

(** ** The big-endian table: the same state with its bytes reversed *)

Lemma tab_le_range i : is_u8 i -> is_u32 (crc_at LittleEndian i).
Proof. intros. rewrite tab_le_at by done. auto with pj. Qed.

Lemma swap_index x : is_u32 x -> CRC32_INDEX BigEndian (pj_htonl x) = CRC32_INDEX LittleEndian x.
Proof.
  intros (a & b & c & d & Ha & Hb & Hc & Hd & ->)%u32_bytes.
  change (a + b * 256 + c * 65536 + d * 16777216) with (le32 a b c d).
  rewrite bswap_le32 by done. cbn [CRC32_INDEX].
  destruct (byte_of_le32 a b c d) as (E & _); [done..|].
  unfold byte_of in E. change (8 * 0) with 0 in E. rewrite Z.shiftr_0_r in E. rewrite E.
  rewrite Z.shiftr_div_pow2 by lia. unfold be32, le32, is_u8 in *.
  symmetry. apply Z.div_unique with (d + c * 256 + b * 65536); lia.
Qed.

Lemma swap_shifted x : is_u32 x ->
  CRC32_SHIFTED BigEndian (pj_htonl x) = pj_htonl (CRC32_SHIFTED LittleEndian x).
Proof.
  intros (a & b & c & d & Ha & Hb & Hc & Hd & ->)%u32_bytes.
  change (a + b * 256 + c * 65536 + d * 16777216) with (le32 a b c d).
  rewrite bswap_le32 by done. cbn [CRC32_SHIFTED].
  assert (H0 : is_u8 0) by (unfold is_u8; lia).
  replace (Z.shiftr (le32 a b c d) 8) with (le32 b c d 0).
  - rewrite bswap_le32 by done. rewrite Z.shiftl_mul_pow2 by lia. unfold u32, be32, le32, is_u8 in *.
    symmetry. apply Z.mod_unique with a; lia.
  - rewrite Z.shiftr_div_pow2 by lia. unfold le32, is_u8 in *.
    apply Z.div_unique with a; lia.
Qed.

Lemma crc_byte_be x b : is_u32 x -> is_u8 b ->
  crc_byte BigEndian (pj_htonl x) b = pj_htonl (crc_byte LittleEndian x b).
Proof.
  intros Hx Hb. unfold crc_byte. rewrite swap_index, swap_shifted by done.
  assert (Hi : is_u8 (Z.lxor (CRC32_INDEX LittleEndian x) b)).
  { apply u8_lxor; [|done]. apply index_range. unfold is_u32 in Hx; lia. }
  rewrite tab_be_at by done. symmetry. apply bswap_lxor; [by apply tab_le_range|].
  apply u32_shiftr; [lia|done].
Qed.

Lemma crc_byte_range x b : is_u32 x -> is_u8 b -> is_u32 (crc_byte LittleEndian x b).
Proof.
  intros Hx Hb. rewrite crc_byte_le by (unfold is_u32 in Hx; first [lia|done]). auto with pj.
Qed.

Lemma crc_word_be x : is_u32 x ->
  crc_word BigEndian (pj_htonl x) = pj_htonl (crc_word LittleEndian x)
  /\ is_u32 (crc_word LittleEndian x).
Proof.
  intros Hx. assert (H0 : is_u8 0) by (unfold is_u8; lia).
  pose proof (crc_byte_be x 0 Hx H0) as E. pose proof (crc_byte_range x 0 Hx H0) as R.
  unfold crc_byte in E, R. rewrite !Z.lxor_0_r in E. rewrite Z.lxor_0_r in R. done.
Qed.

Definition swap_pair (p : Z * list Z) : Z * list Z := (pj_htonl (fst p), snd p).

Lemma crc_head_be data : forall addr x, bytes_ok data -> is_u32 x ->
  crc_head BigEndian addr (pj_htonl x) data = swap_pair (crc_head LittleEndian addr x data).
Proof.
  induction data as [|b data IH]; intros addr x Hd Hx; [done|]. simpl.
  destruct (Z.land addr 3 =? 0); [done|]. apply list.Forall_cons in Hd as [Hb Hd].
  rewrite crc_byte_be by done. apply IH; [done|]. by apply crc_byte_range.
Qed.

Lemma crc_words_be data : forall x, bytes_ok data -> is_u32 x ->
  crc_words BigEndian (pj_htonl x) data = swap_pair (crc_words LittleEndian x data).
Proof.
  induction data as [l Hl|a b c d l IH] using words_ind; intros x Hd Hx.
  { by rewrite !crc_words_small. }
  apply list.Forall_cons in Hd as [Ha Hd]. apply list.Forall_cons in Hd as [Hb Hd].
  apply list.Forall_cons in Hd as [Hc Hd]. apply list.Forall_cons in Hd as [Hd' Hd].
  cbn [crc_words]. cbv zeta. cbn [load32].
  rewrite <- bswap_le32, <- bswap_lxor by auto with pj.
  assert (H1 : is_u32 (Z.lxor x (le32 a b c d))) by (apply u32_lxor; [done|by apply le32_range]).
  destruct (crc_word_be _ H1) as [-> H2]. destruct (crc_word_be _ H2) as [-> H3].
  destruct (crc_word_be _ H3) as [-> H4]. destruct (crc_word_be _ H4) as [-> H5].
  by apply IH.
Qed.

Lemma crc_rest_be data : forall x, bytes_ok data -> is_u32 x ->
  crc_rest BigEndian (pj_htonl x) data = pj_htonl (crc_rest LittleEndian x data).
Proof.
  unfold crc_rest. induction data as [|b data IH]; intros x Hd Hx; [done|].
  apply list.Forall_cons in Hd as [Hb Hd]. simpl.
  rewrite crc_byte_be by done. apply IH; [done|]. by apply crc_byte_range.
Qed.

Lemma crc_loops_be addr x data : bytes_ok data -> is_u32 x ->
  (let '(crc, rest) := crc_head BigEndian addr (pj_htonl x) data in
   let '(crc, rest) := crc_words BigEndian crc rest in
   crc_rest BigEndian crc rest) = pj_htonl (crc_fold x data).
Proof.
  intros Hd Hx. rewrite crc_head_be by done.
  destruct (crc_head LittleEndian addr x data) as [y r1] eqn:E1.
  apply crc_head_le in E1 as (<- & Hr1 & Hy); [|done..]. cbn [swap_pair fst snd].
  rewrite crc_words_be by done.
  destruct (crc_words LittleEndian y r1) as [z r2] eqn:E2.
  apply crc_words_le in E2 as (<- & Hr2 & Hz); [|done..]. cbn [swap_pair fst snd].
  by rewrite crc_rest_be, crc_rest_le.
Qed.

(** ** Every configuration computes the reference *)

(** What the context holds while the register of the standard holds [x]. *)
Definition ctx_holds (cfg : crc_config) (x : Z) (ctx : pj_crc32_context) : Prop :=
  crc_state ctx = match cfg with
                  | WithTables LittleEndian => Z.lxor x CRC32_NEGL
                  | WithTables BigEndian => pj_htonl (Z.lxor x CRC32_NEGL)
                  | WithoutTables => x
                  end.

Lemma negl_range : is_u32 CRC32_NEGL.
Proof. unfold is_u32, CRC32_NEGL; lia. Qed.
#[local] Hint Resolve negl_range : pj.

Lemma negl_cancel x : Z.lxor (Z.lxor x CRC32_NEGL) CRC32_NEGL = x.
Proof. by rewrite Z.lxor_assoc, Z.lxor_nilpotent, Z.lxor_0_r. Qed.

Lemma init_holds cfg : ctx_holds cfg CRC32_NEGL (pj_crc32_init cfg).
Proof. by destruct cfg as [[|]|]. Qed.

Lemma update_holds cfg x ctx addr data : bytes_ok data -> is_u32 x -> ctx_holds cfg x ctx ->
  ctx_holds cfg (crc_fold x data) (fst (pj_crc32_update cfg ctx addr data)).
Proof.
  intros Hd Hx Hc. unfold ctx_holds in *. destruct cfg as [e|]; cbn [pj_crc32_update].
  - unfold crc32_update_tab. rewrite Hc.
    assert (Hr : is_u32 (crc_fold x data)) by (by apply crc_fold_range).
    destruct e.
    + rewrite negl_cancel. rewrite <- (crc_loops_le addr x data) by done.
      destruct (crc_head _ _ _ _) as [y r1]. by destruct (crc_words _ _ _) as [z r2].
    + rewrite bswap_lxor by auto with pj. change (pj_htonl CRC32_NEGL) with CRC32_NEGL.
      rewrite negl_cancel.
      pose proof (crc_loops_be addr x data Hd Hx) as E.
      destruct (crc_head _ _ _ _) as [y r1]. destruct (crc_words _ _ _) as [z r2].
      cbn [fst crc_state]. rewrite E, bswap_lxor by auto with pj. done.
  - unfold crc32_update_plain. cbn [fst crc_state]. rewrite Hc. clear Hc.
    revert x Hx; induction Hd as [|b data Hb _ IH]; intros x Hx; [done|].
    cbn [fold_left]. rewrite crc_octet_steps by (unfold is_u32 in Hx; first [lia|done]).
    apply IH. auto with pj.
Qed.

Lemma swap_is_htonl x : is_u32 x -> CRC32_SWAP BigEndian x = pj_htonl x.
Proof.
  intros (a & b & c & d & Ha & Hb & Hc & Hd & ->)%u32_bytes.
  change (a + b * 256 + c * 65536 + d * 16777216) with (le32 a b c d).
  rewrite bswap_le32 by done. destruct (byte_of_le32 a b c d) as (E0 & E1 & E2 & E3); [done..|].
  unfold byte_of in *. change (8 * 0) with 0 in E0. change (8 * 1) with 8 in E1.
  change (8 * 2) with 16 in E2. change (8 * 3) with 24 in E3.
  cbn [CRC32_SWAP]. change 0xff000000 with (Z.shiftl 255 24). change 0x00ff0000 with (Z.shiftl 255 16).
  change 0x0000ff00 with (Z.shiftl 255 8). change 0x000000ff with (Z.shiftl 255 0).
  rewrite !land_byte, E0, E1, E2, E3 by lia.
  rewrite Z.shiftr_shiftl_l, Z.shiftr_shiftl_l, !Z.shiftl_shiftl by lia.
  change (24 - 24) with 0. change (16 - 8) with 8. change (8 + 8) with 16. change (0 + 24) with 24.
  rewrite Z.shiftl_0_r, !Z.shiftl_mul_pow2 by lia.
  by apply lor_bytes.
Qed.

Lemma final_holds cfg x ctx : is_u32 x -> ctx_holds cfg x ctx ->
  snd (pj_crc32_final cfg ctx) = Z.lxor x CRC32_NEGL.
Proof.
  unfold ctx_holds. intros Hx Hc. destruct cfg as [[|]|]; simpl snd; rewrite Hc; [done| |done].
  change (CRC32_SWAP BigEndian (pj_htonl (Z.lxor x CRC32_NEGL)) = Z.lxor x CRC32_NEGL).
  rewrite swap_is_htonl by auto with pj. apply pj_ntohl_htonl. auto with pj.
Qed.

Lemma spec_fold data : bytes_ok data ->
  crc32_spec data = Z.lxor (crc_fold CRC32_NEGL data) CRC32_NEGL.
Proof. intros H. unfold crc32_spec. by rewrite crc_fold_spec. Qed.

(** C20. In each of its configurations the module computes the CRC-32 of the
    standard: whatever the pieces a client feeds, and whatever their
    addresses, the final value is the value of the bit-serial register on all
    the data. *)
Theorem crc32_correct cfg pieces :
  Forall (fun p => bytes_ok (snd p)) pieces ->
  crc32_stream cfg pieces = crc32_spec (concat (map snd pieces)).
Proof.
  intros Hp. unfold crc32_stream.
  set (feed := fun _ _ => _).
  assert (G : forall x ctx, is_u32 x -> ctx_holds cfg x ctx ->
            bytes_ok (concat (map snd pieces)) /\
            ctx_holds cfg (crc_fold x (concat (map snd pieces))) (fold_left feed pieces ctx)).
  { clear -Hp. induction Hp as [|p pieces H _ IH]; intros x ctx Hx Hc; [by split; [constructor|]|].
    cbn [map concat fold_left]. rewrite crc_fold_app.
    destruct (IH (crc_fold x (snd p)) (feed ctx p)) as [Hd E].
    - by apply crc_fold_range.
    - by apply update_holds.
    - split; [|exact E]. by apply list.Forall_app. }
  destruct (G CRC32_NEGL (pj_crc32_init cfg)) as [Hd E]; [apply negl_range|apply init_holds|].
  rewrite spec_fold by exact Hd. apply final_holds; [|exact E].
  by apply crc_fold_range, negl_range.
Qed.

Lemma crc32_correct_witness :
  crc32_stream (WithTables BigEndian) [(3, [49; 50; 51]); (8, [52; 53; 54; 55; 56; 57])]
  = crc32_spec check_data.
Proof.
  apply (crc32_correct (WithTables BigEndian) [(3, [49; 50; 51]); (8, [52; 53; 54; 55; 56; 57])]).
  repeat constructor; simpl; lia.
Defined.

(** The one-off function, and its independence of the address. *)
Lemma crc32_calc_spec cfg addr data : bytes_ok data ->
  pj_crc32_calc cfg addr data = crc32_spec data.
Proof.
  intros H. rewrite spec_fold by done.
  apply final_holds; [by apply crc_fold_range, negl_range|].
  apply update_holds; [done|apply negl_range|apply init_holds].
Qed.

Lemma crc32_calc_range cfg addr data : bytes_ok data -> is_u32 (pj_crc32_calc cfg addr data).
Proof.
  intros H. rewrite crc32_calc_spec, spec_fold by done.
  apply u32_lxor; [|apply negl_range]. by apply crc_fold_range, negl_range.
Qed.

(** ** Error detection *)

Lemma crc_step_inj x y : is_u32 x -> is_u32 y -> crc_step x = crc_step y -> x = y.
Proof.
  intros Hx Hy E. set (z := Z.lxor x y).
  assert (Hz : is_u32 z) by (by apply u32_lxor).
  assert (Ez : crc_step z = 0) by (unfold z; rewrite crc_step_lxor, E; apply Z.lxor_nilpotent).
  apply Z.lxor_eq. fold z. unfold crc_step, crc_bit in Ez. rewrite xorb_false_r in Ez.
  destruct (Z.odd z) eqn:Eo.
  - apply Z.lxor_eq in Ez. exfalso.
    assert (Z.shiftr z 1 < 2 ^ 31); [|unfold CRC_POLY in Ez; lia].
    rewrite Z.shiftr_div_pow2 by lia. unfold is_u32 in Hz. apply Z.div_lt_upper_bound; lia.
  - rewrite Z.lxor_0_r, Z.shiftr_div_pow2 in Ez by lia. change (2 ^ 1) with 2 in Ez.
    pose proof (Z.div2_odd z) as Ed. rewrite Z.div2_div, Eo, Ez in Ed. done.
Qed.

Lemma crc_steps_inj n x y : is_u32 x -> is_u32 y -> crc_steps n x = crc_steps n y -> x = y.
Proof.
  revert x y; induction n as [|n IH]; intros x y Hx Hy E; [done|].
  rewrite !crc_steps_S in E. apply crc_step_inj; [done..|].
  apply IH; [by apply crc_step_range..|done].
Qed.

Lemma lxor_cancel_l x a b : Z.lxor x a = Z.lxor x b -> a = b.
Proof.
  intros E. apply (f_equal (Z.lxor x)) in E.
  by rewrite <- !Z.lxor_assoc, Z.lxor_nilpotent, !Z.lxor_0_l in E.
Qed.

Lemma crc_fold_inj data x y : bytes_ok data -> is_u32 x -> is_u32 y ->
  crc_fold x data = crc_fold y data -> x = y.
Proof.
  intros H. revert x y; induction H as [|b data Hb _ IH]; intros x y Hx Hy E; [done|].
  apply IH in E; [|auto with pj..]. apply crc_steps_inj in E; [|auto with pj..].
  rewrite !(Z.lxor_comm _ b) in E. by apply lxor_cancel_l in E.
Qed.

(** The number a short string of bytes makes, first byte lowest. *)
Fixpoint le_bytes (l : list Z) : Z :=
  match l with [] => 0 | b :: l => b + le_bytes l * 256 end.

Lemma le_bytes_range l : bytes_ok l -> 0 <= le_bytes l < 2 ^ (8 * Z.of_nat (length l)).
Proof.
  induction 1 as [|b l Hb _ IH]; [simpl; lia|]. cbn [le_bytes length].
  replace (8 * Z.of_nat (S (length l))) with (8 + 8 * Z.of_nat (length l)) by lia.
  rewrite Z.pow_add_r by lia. unfold is_u8 in Hb. change (2 ^ 8) with 256. lia.
Qed.

Lemma le_bytes_inj l l' : bytes_ok l -> bytes_ok l' -> length l = length l' ->
  le_bytes l = le_bytes l' -> l = l'.
Proof.
  intros H. revert l'; induction H as [|b l Hb _ IH]; intros [|b' l'] H' El E; try done.
  apply list.Forall_cons in H' as [Hb' H']. cbn [le_bytes] in E. unfold is_u8 in *.
  assert (b = b') by lia. f_equal; [done|]. apply IH; [done|simpl in El; lia|lia].
Qed.

Lemma crc_fold_steps l x : bytes_ok l ->
  crc_fold x l = crc_steps (8 * length l) (Z.lxor x (le_bytes l)).
Proof.
  intros H. revert x; induction H as [|b l Hb _ IH]; intros x.
  { cbn [le_bytes]. by rewrite Z.lxor_0_r. }
  cbn [le_bytes length]. replace (8 * S (length l))%nat with (8 * length l + 8)%nat by lia.
  transitivity (crc_steps (8 * length l) (crc_steps 8 (Z.lxor x (b + le_bytes l * 256)))).
  - rewrite crc_steps8_word by done. apply IH.
  - Transparent crc_steps. unfold crc_steps. by rewrite Nat.iter_add.
Qed.

(** A change confined to four consecutive bytes of a message, a burst of
    at most 32 bits among them, changes its CRC: the fingerprint of a damaged
    STUN message does not match. *)
Lemma crc32_detects_burst cfg addr addr' p m m' s :
  bytes_ok p -> bytes_ok m -> bytes_ok m' -> bytes_ok s ->
  length m = length m' -> (length m <= 4)%nat ->
  pj_crc32_calc cfg addr (p ++ m ++ s) = pj_crc32_calc cfg addr' (p ++ m' ++ s) ->
  m = m'.
Proof.
  intros Hp Hm Hm' Hs El Hl E.
  assert (Hneg : is_u32 (crc_fold CRC32_NEGL p)) by (by apply crc_fold_range, negl_range).
  assert (H : bytes_ok (p ++ m ++ s)) by (unfold bytes_ok; rewrite !Forall_app; auto).
  assert (H' : bytes_ok (p ++ m' ++ s)) by (unfold bytes_ok; rewrite !Forall_app; auto).
  rewrite !crc32_calc_spec, !spec_fold in E by assumption.
  rewrite !(Z.lxor_comm _ CRC32_NEGL) in E. apply lxor_cancel_l in E.
  rewrite !crc_fold_app in E. apply crc_fold_inj in E; [|done|by apply crc_fold_range..].
  set (x := crc_fold CRC32_NEGL p) in *.
  rewrite (crc_fold_steps m), (crc_fold_steps m'), El in E by assumption.
  assert (R : forall l, bytes_ok l -> (length l <= 4)%nat -> is_u32 (le_bytes l)).
  { intros l Hb Hlen. pose proof (le_bytes_range l Hb).
    pose proof (Z.pow_le_mono_r 2 (8 * Z.of_nat (length l)) 32). unfold is_u32. lia. }
  apply crc_steps_inj in E; [|apply u32_lxor; [done|apply R; [done|lia]]..].
  apply lxor_cancel_l in E. by apply le_bytes_inj.
Qed.

(** The value [pj_crc32_update] returns is documented as the current CRC; the
    table of a big-endian machine returns it with its bytes reversed. *)
Lemma update_value_big_endian :
  snd (pj_crc32_update (WithTables BigEndian) (pj_crc32_init (WithTables BigEndian)) 0 check_data)
  = 0x2639f4cb.
Proof. by vm_compute. Qed.
