(* ===== verification/Sha1.v ===== *)
(** * SHA-1

    Model of [pjlib-util/src/pjlib-util/sha1.c].  The unrolled rounds of
    [SHA1_Transform] are data, a list of the macro calls of the source, run on
    the five working variables and on the sixteen words of the block, which
    the macros expand in place.  The reference is FIPS 180: the message
    schedule of 80 words, the functions Ch, Parity and Maj, and the padding.
    The theorem of the file is that a context fed in any pieces gives the
    digest of the standard. *)

From Stdlib Require Import ZArith Lia Bool.
From stdpp Require Import base list numbers.
From S2P Require Import Prelude.
From S2P Require Import Words.
From S2P Require Import Blocks.
Local Open Scope Z_scope.

(** ** The transformation *)

Inductive reg := ra | rb | rc | rd | re.

(** The working variables [a] .. [e], and the five words of the state. *)
Record regs := mk_regs { va : Z; vb : Z; vc : Z; vd : Z; ve : Z }.

Definition get (r : reg) (s : regs) : Z :=
  match r with ra => va s | rb => vb s | rc => vc s | rd => vd s | re => ve s end.
Definition set (r : reg) (v : Z) (s : regs) : regs :=
  match r with
  | ra => s <| va := v |> | rb => s <| vb := v |> | rc => s <| vc := v |>
  | rd => s <| vd := v |> | re => s <| ve := v |>
  end.

(** [blk0] and [blk] give a word of the schedule and leave it in the block. *)
Definition blk0 (e : endianness) (i : nat) (l : list Z) : Z * list Z :=
  match e with
  | BigEndian => (word_at l i, l)
  | LittleEndian =>
      let v := Z.lor (Z.land (rol (word_at l i) 24) 0xFF00FF00)
                     (Z.land (rol (word_at l i) 8) 0x00FF00FF) in
      (v, <[i := v]> l)
  end.
Definition blk (i : nat) (l : list Z) : Z * list Z :=
  let at' k := word_at l (Nat.land k 15) in
  let v := rol (Z.lxor (Z.lxor (Z.lxor (at' (i + 13)%nat) (at' (i + 8)%nat)) (at' (i + 2)%nat)) (at' i)) 1 in
  (v, <[Nat.land i 15 := v]> l).

(** The macros [R0] .. [R4]: [z += f(w,x,y) + blk + k + rol(v,5); w = rol(w,30)]. *)
Inductive sha1_round := R0 | R1 | R2 | R3 | R4.
Record sha1_op := op { op_round : sha1_round; op_v : reg; op_w : reg; op_x : reg;
                       op_y : reg; op_z : reg; op_i : nat }.

Definition round_f (r : sha1_round) (w x y : Z) : Z :=
  match r with
  | R0 | R1 => Z.lxor (Z.land w (Z.lxor x y)) y
  | R2 | R4 => Z.lxor (Z.lxor w x) y
  | R3 => Z.lor (Z.land (Z.lor w x) y) (Z.land w x)
  end.
Definition round_k (r : sha1_round) : Z :=
  match r with
  | R0 | R1 => 0x5A827999 | R2 => 0x6ED9EBA1 | R3 => 0x8F1BBCDC | R4 => 0xCA62C1D6
  end.
Definition round_blk (e : endianness) (r : sha1_round) (i : nat) (l : list Z) : Z * list Z :=
  match r with R0 => blk0 e i l | _ => blk i l end.

Definition exec_op (e : endianness) (sl : regs * list Z) (o : sha1_op) : regs * list Z :=
  let '(s, l) := sl in
  let w := get (op_w o) s in
  let f := round_f (op_round o) w (get (op_x o) s) (get (op_y o) s) in
  let '(b, l) := round_blk e (op_round o) (op_i o) l in
  let z := u32 (get (op_z o) s + (f + b + round_k (op_round o) + rol (get (op_v o) s) 5)) in
  let s := set (op_z o) z s in
  (set (op_w o) (rol (get (op_w o) s) 30) s, l).

Definition sha1_program : list sha1_op := concat [
  [op R0 ra rb rc rd re 0; op R0 re ra rb rc rd 1; op R0 rd re ra rb rc 2; op R0 rc rd re ra rb 3];
  [op R0 rb rc rd re ra 4; op R0 ra rb rc rd re 5; op R0 re ra rb rc rd 6; op R0 rd re ra rb rc 7];
  [op R0 rc rd re ra rb 8; op R0 rb rc rd re ra 9; op R0 ra rb rc rd re 10; op R0 re ra rb rc rd 11];
  [op R0 rd re ra rb rc 12; op R0 rc rd re ra rb 13; op R0 rb rc rd re ra 14; op R0 ra rb rc rd re 15];
  [op R1 re ra rb rc rd 16; op R1 rd re ra rb rc 17; op R1 rc rd re ra rb 18; op R1 rb rc rd re ra 19];
  [op R2 ra rb rc rd re 20; op R2 re ra rb rc rd 21; op R2 rd re ra rb rc 22; op R2 rc rd re ra rb 23];
  [op R2 rb rc rd re ra 24; op R2 ra rb rc rd re 25; op R2 re ra rb rc rd 26; op R2 rd re ra rb rc 27];
  [op R2 rc rd re ra rb 28; op R2 rb rc rd re ra 29; op R2 ra rb rc rd re 30; op R2 re ra rb rc rd 31];
  [op R2 rd re ra rb rc 32; op R2 rc rd re ra rb 33; op R2 rb rc rd re ra 34; op R2 ra rb rc rd re 35];
  [op R2 re ra rb rc rd 36; op R2 rd re ra rb rc 37; op R2 rc rd re ra rb 38; op R2 rb rc rd re ra 39];
  [op R3 ra rb rc rd re 40; op R3 re ra rb rc rd 41; op R3 rd re ra rb rc 42; op R3 rc rd re ra rb 43];
  [op R3 rb rc rd re ra 44; op R3 ra rb rc rd re 45; op R3 re ra rb rc rd 46; op R3 rd re ra rb rc 47];
  [op R3 rc rd re ra rb 48; op R3 rb rc rd re ra 49; op R3 ra rb rc rd re 50; op R3 re ra rb rc rd 51];
  [op R3 rd re ra rb rc 52; op R3 rc rd re ra rb 53; op R3 rb rc rd re ra 54; op R3 ra rb rc rd re 55];
  [op R3 re ra rb rc rd 56; op R3 rd re ra rb rc 57; op R3 rc rd re ra rb 58; op R3 rb rc rd re ra 59];
  [op R4 ra rb rc rd re 60; op R4 re ra rb rc rd 61; op R4 rd re ra rb rc 62; op R4 rc rd re ra rb 63];
  [op R4 rb rc rd re ra 64; op R4 ra rb rc rd re 65; op R4 re ra rb rc rd 66; op R4 rd re ra rb rc 67];
  [op R4 rc rd re ra rb 68; op R4 rb rc rd re ra 69; op R4 ra rb rc rd re 70; op R4 re ra rb rc rd 71];
  [op R4 rd re ra rb rc 72; op R4 rc rd re ra rb 73; op R4 rb rc rd re ra 74; op R4 ra rb rc rd re 75];
  [op R4 re ra rb rc rd 76; op R4 rd re ra rb rc 77; op R4 rc rd re ra rb 78; op R4 rb rc rd re ra 79]].

(** The new state, and the block, which is the caller's buffer. *)
Definition SHA1_Transform (e : endianness) (state : regs) (buffer : list Z) : regs * list Z :=
  let '(s, l) := fold_left (exec_op e) sha1_program (state, to_words e buffer) in
  (mk_regs (u32 (va state + va s)) (u32 (vb state + vb s)) (u32 (vc state + vc s))
           (u32 (vd state + vd s)) (u32 (ve state + ve s)),
   from_words e l).

(** ** The context *)

Record pj_sha1_context := mk_sha1_context {
  sha_state : regs;
  sha_count0 : Z;
  sha_count1 : Z;
  sha_buffer : list Z
}.

Definition sha1_H0 : regs :=
  mk_regs 0x67452301 0xEFCDAB89 0x98BADCFE 0x10325476 0xC3D2E1F0.

(** The buffer keeps what the memory of the context held. *)
Definition pj_sha1_init (ctx : pj_sha1_context) : pj_sha1_context :=
  mk_sha1_context sha1_H0 0 0 (sha_buffer ctx).

(** The bit count after [len] more bytes. *)
Definition sha1_count (count0 count1 len : Z) : Z * Z :=
  let c0 := u32 (count0 + u32 (Z.shiftl (u32 len) 3)) in
  let c1 := if c0 <? u64 (Z.shiftl len 3) then u32 (count1 + 1) else count1 in
  (c0, u32 (c1 + Z.shiftr (u32 len) 29)).

(** [for ( ; i + 63 < len; i += 64)], on the data from [i]; the new state and
    the data left. *)
Fixpoint sha1_loop (e : endianness) (fuel : nat) (st : regs) (data : list Z) : regs * list Z :=
  match fuel with
  | O => (st, data)
  | S fuel =>
      if (63 <? length data)%nat
      then sha1_loop e fuel (fst (SHA1_Transform e st (take 64 data))) (drop 64 data)
      else (st, data)
  end.

Definition pj_sha1_update (e : endianness) (ctx : pj_sha1_context) (data : list Z) : pj_sha1_context :=
  let len := Z.of_nat (length data) in
  let j := Z.to_nat (Z.land (Z.shiftr (sha_count0 ctx) 3) 63) in
  let '(c0, c1) := sha1_count (sha_count0 ctx) (sha_count1 ctx) len in
  if (63 <? j + length data)%nat then
    let i := (64 - j)%nat in
    let '(st, buf) := SHA1_Transform e (sha_state ctx) (splice (sha_buffer ctx) j (take i data)) in
    let '(st, rest) := sha1_loop e (length data) st (drop i data) in
    mk_sha1_context st c0 c1 (splice buf 0 rest)
  else
    mk_sha1_context (sha_state ctx) c0 c1 (splice (sha_buffer ctx) j data).

(** [while ((context->count[0] & 504) != 448)]. *)
Fixpoint sha1_pad_loop (e : endianness) (fuel : nat) (ctx : pj_sha1_context) : pj_sha1_context :=
  match fuel with
  | O => ctx
  | S fuel =>
      if Z.land (sha_count0 ctx) 504 =? 448 then ctx
      else sha1_pad_loop e fuel (pj_sha1_update e ctx [0])
  end.

Definition state_bytes (s : regs) : list Z :=
  concat (map (store32 BigEndian) [va s; vb s; vc s; vd s; ve s]).

(** The wiped context and the digest. *)
Definition pj_sha1_final (e : endianness) (ctx : pj_sha1_context) : pj_sha1_context * list Z :=
  let finalcount := store32 BigEndian (sha_count1 ctx) ++ store32 BigEndian (sha_count0 ctx) in
  let ctx := pj_sha1_update e ctx [128] in
  let ctx := sha1_pad_loop e 64 ctx in
  let ctx := pj_sha1_update e ctx finalcount in
  (mk_sha1_context (mk_regs 0 0 0 0 0) 0 0 (replicate 64 0), state_bytes (sha_state ctx)).

(** ** The standard *)

Definition Ch (x y z : Z) : Z := Z.lxor (Z.land x y) (Z.land (not32 x) z).
Definition Parity (x y z : Z) : Z := Z.lxor (Z.lxor x y) z.
Definition Maj (x y z : Z) : Z := Z.lxor (Z.lxor (Z.land x y) (Z.land x z)) (Z.land y z).

Definition fips_f (t : nat) : Z -> Z -> Z -> Z :=
  if (t <? 20)%nat then Ch else if (t <? 40)%nat then Parity
  else if (t <? 60)%nat then Maj else Parity.
Definition fips_k (t : nat) : Z :=
  if (t <? 20)%nat then 0x5a827999 else if (t <? 40)%nat then 0x6ed9eba1
  else if (t <? 60)%nat then 0x8f1bbcdc else 0xca62c1d6.

(** The schedule: sixteen words of the block, then each word from four before. *)
Fixpoint expand (n : nat) (w : list Z) : list Z :=
  match n with
  | O => w
  | S n =>
      let t := length w in
      expand n (w ++ [rol (Z.lxor (Z.lxor (Z.lxor (word_at w (t - 3)) (word_at w (t - 8)))
                                          (word_at w (t - 14))) (word_at w (t - 16))) 1])
  end.
Definition schedule (block : list Z) : list Z := expand 64 (to_words BigEndian block).

Definition fips_step (W : list Z) (s : regs) (t : nat) : regs :=
  mk_regs (u32 (rol (va s) 5 + fips_f t (vb s) (vc s) (vd s) + ve s + fips_k t + word_at W t))
          (va s) (rol (vb s) 30) (vc s) (vd s).

Definition fips_compress (H : regs) (block : list Z) : regs :=
  let s := fold_left (fips_step (schedule block)) (seq 0 80) H in
  mk_regs (u32 (va s + va H)) (u32 (vb s + vb H)) (u32 (vc s + vc H))
          (u32 (vd s + vd H)) (u32 (ve s + ve H)).

Definition be64 (n : Z) : list Z :=
  [byte_of n 7; byte_of n 6; byte_of n 5; byte_of n 4;
   byte_of n 3; byte_of n 2; byte_of n 1; byte_of n 0].

Definition sha1_fips (m : list Z) : list Z :=
  state_bytes (run fips_compress sha1_H0 (pad be64 m)).

(** The test vectors of the standard. *)
Definition wild_sha1 : pj_sha1_context := mk_sha1_context (mk_regs 1 2 3 4 5) 6 7 (replicate 64 255).
Definition sha1_of (e : endianness) (m : list Z) : list Z :=
  snd (pj_sha1_final e (pj_sha1_update e (pj_sha1_init wild_sha1) m)).

Lemma sha1_abc :
  sha1_of LittleEndian [97; 98; 99]
  = [0xA9; 0x99; 0x3E; 0x36; 0x47; 0x06; 0x81; 0x6A; 0xBA; 0x3E;
     0x25; 0x71; 0x78; 0x50; 0xC2; 0x6C; 0x9C; 0xD0; 0xD8; 0x9D]
  /\ sha1_of BigEndian [97; 98; 99] = sha1_fips [97; 98; 99]
  /\ sha1_of LittleEndian [97; 98; 99] = sha1_fips [97; 98; 99].
Proof. by vm_compute. Qed.

(** ** The rounds *)

Definition regs_ok (s : regs) : Prop :=
  is_u32 (va s) /\ is_u32 (vb s) /\ is_u32 (vc s) /\ is_u32 (vd s) /\ is_u32 (ve s).

Lemma Ch_eq w x y : is_u32 w -> is_u32 x -> is_u32 y ->
  Z.lxor (Z.land w (Z.lxor x y)) y = Ch w x y.
Proof.
  intros Hw Hx Hy. apply u32_bits_eq; [auto with pj| |].
  - unfold Ch. pose proof (not32_range w Hw). auto with pj.
  - intros i Hi. unfold Ch. rewrite !Z.lxor_spec, !Z.land_spec, Z.lxor_spec, not32_bit by done.
    by destruct (Z.testbit w i), (Z.testbit x i), (Z.testbit y i).
Qed.

Lemma Maj_eq w x y : Z.lor (Z.land (Z.lor w x) y) (Z.land w x) = Maj w x y.
Proof.
  apply Z.bits_inj'. intros i Hi. unfold Maj.
  rewrite Z.lor_spec, !Z.lxor_spec, !Z.land_spec, Z.lor_spec.
  by destruct (Z.testbit w i), (Z.testbit x i), (Z.testbit y i).
Qed.

(** The call number [t] of the program, and what it should be. *)
Definition round_of (t : nat) : sha1_round :=
  if (t <? 16)%nat then R0 else if (t <? 20)%nat then R1 else if (t <? 40)%nat then R2
  else if (t <? 60)%nat then R3 else R4.
Definition expected_op (t : nat) : sha1_op :=
  match (t mod 5)%nat with
  | 0%nat => op (round_of t) ra rb rc rd re t
  | 1%nat => op (round_of t) re ra rb rc rd t
  | 2%nat => op (round_of t) rd re ra rb rc t
  | 3%nat => op (round_of t) rc rd re ra rb t
  | _ => op (round_of t) rb rc rd re ra t
  end.

Lemma program_expected : sha1_program = map expected_op (seq 0 80).
Proof. reflexivity. Qed.

(** The variables in the order in which the call number [t] uses them. *)
Definition view (t : nat) (s : regs) : regs :=
  let o := expected_op t in
  mk_regs (get (op_v o) s) (get (op_w o) s) (get (op_x o) s) (get (op_y o) s) (get (op_z o) s).

Lemma mod5_cases t : let m := (t mod 5)%nat in let m' := (S t mod 5)%nat in
  (m = 0 /\ m' = 1 \/ m = 1 /\ m' = 2 \/ m = 2 /\ m' = 3 \/ m = 3 /\ m' = 4 \/ m = 4 /\ m' = 0)%nat.
Proof.
  intros m m'. unfold m, m'. clear m m'.
  pose proof (Nat.div_mod_eq t 5). pose proof (Nat.div_mod_eq (S t) 5).
  pose proof (Nat.mod_upper_bound t 5). pose proof (Nat.mod_upper_bound (S t) 5). lia.
Qed.

Lemma view_ok t s : regs_ok s -> regs_ok (view t s).
Proof.
  unfold regs_ok. intros (Ha & Hb & Hc & Hd & He). unfold view, expected_op.
  destruct (t mod 5)%nat as [|[|[|[|n]]]]; simpl; auto.
Qed.

Lemma expected_fields t : op_round (expected_op t) = round_of t /\ op_i (expected_op t) = t.
Proof. unfold expected_op. destruct (t mod 5)%nat as [|[|[|[|n]]]]; done. Qed.

(** One call on the variables, seen in the order of the next one. *)
Lemma exec_view t s z w :
  let o := expected_op t in
  view (S t) (set (op_w o) w (set (op_z o) z s))
  = mk_regs z (va (view t s)) w (vc (view t s)) (vd (view t s)).
Proof.
  intros o. unfold o, view, expected_op.
  destruct (mod5_cases t) as [[E E']|[[E E']|[[E E']|[[E E']|[E E']]]]]; rewrite E, E'; done.
Qed.

Lemma exec_get_w t s z : let o := expected_op t in get (op_w o) (set (op_z o) z s) = get (op_w o) s.
Proof.
  intros o. unfold o, expected_op. destruct (t mod 5)%nat as [|[|[|[|n]]]]; done.
Qed.

Lemma round_f_fips t w x y : is_u32 w -> is_u32 x -> is_u32 y ->
  round_f (round_of t) w x y = fips_f t w x y /\ round_k (round_of t) = fips_k t.
Proof.
  intros. unfold round_of, fips_f, fips_k.
  destruct (t <? 16)%nat eqn:E1.
  - apply Nat.ltb_lt in E1. destruct (t <? 20)%nat eqn:E2; [|apply Nat.ltb_ge in E2; lia].
    by split; [apply Ch_eq|].
  - destruct (t <? 20)%nat; [by split; [apply Ch_eq|]|].
    destruct (t <? 40)%nat; [done|]. destruct (t <? 60)%nat; [|done].
    split; [apply Maj_eq|done].
Qed.

Lemma fips_step_ok W s t : regs_ok s -> regs_ok (fips_step W s t).
Proof.
  unfold regs_ok, fips_step. intros (Ha & Hb & Hc & Hd & He). simpl.
  repeat split; try apply u32_range; try apply Ha; try apply Hc; try apply Hd;
    apply rol_range; (lia || done).
Qed.

(** ** The schedule in sixteen words *)

Lemma word_at_app1 l l' i : (i < length l)%nat -> word_at (l ++ l') i = word_at l i.
Proof. apply app_nth1. Qed.

Lemma expand_prefix n : forall w i, (i < length w)%nat -> word_at (expand n w) i = word_at w i.
Proof.
  induction n as [|n IH]; intros w i Hi; [done|]. cbn [expand]. cbv zeta.
  rewrite IH by (rewrite length_app; simpl; lia). by apply word_at_app1.
Qed.

Definition expand_word (w : list Z) (t : nat) : Z :=
  rol (Z.lxor (Z.lxor (Z.lxor (word_at w (t - 3)) (word_at w (t - 8)))
                      (word_at w (t - 14))) (word_at w (t - 16))) 1.

Lemma expand_rec n : forall w t, (16 <= length w)%nat -> (length w <= t < length w + n)%nat ->
  word_at (expand n w) t = expand_word (expand n w) t.
Proof.
  induction n as [|n IH]; intros w t Hw Ht; [lia|].
  cbn [expand]. cbv zeta. fold (expand_word w (length w)).
  set (w' := w ++ [expand_word w (length w)]).
  assert (Hl : length w' = S (length w)) by (unfold w'; rewrite length_app; simpl; lia).
  destruct (Nat.eq_dec t (length w)) as [->|]; [|apply IH; lia].
  rewrite expand_prefix by lia. unfold w' at 1, word_at. rewrite app_nth2, Nat.sub_diag by lia.
  cbn [nth]. unfold expand_word. rewrite !expand_prefix by lia.
  unfold w'. rewrite !word_at_app1 by lia. done.
Qed.

(** The block before call [t]: the last sixteen words of the schedule so far,
    and the words of the message not used yet. *)
Definition block_inv (W raw : list Z) (t : nat) (l : list Z) : Prop :=
  length l = 16%nat
  /\ (forall j, (j < t)%nat -> (t <= j + 16)%nat -> word_at l (j mod 16) = word_at W j)
  /\ (forall j, (t <= j < 16)%nat -> word_at l j = word_at raw j).

Lemma word_at_insert l i j v : (i < length l)%nat ->
  word_at (<[i := v]> l) j = if Nat.eq_dec i j then v else word_at l j.
Proof.
  intros Hi. unfold word_at. rewrite !nth_lookup. destruct (Nat.eq_dec i j) as [->|Hn].
  - by rewrite list_lookup_insert_eq.
  - by rewrite list_lookup_insert_ne.
Qed.

Lemma mod16_inj j t : (j < t)%nat -> (t < j + 16)%nat -> (j mod 16 <> t mod 16)%nat.
Proof.
  intros. pose proof (Nat.div_mod_eq t 16). pose proof (Nat.div_mod_eq j 16). lia.
Qed.

Lemma block_inv_insert W raw t l : block_inv W raw t l ->
  block_inv W raw (S t) (<[(t mod 16)%nat := word_at W t]> l).
Proof.
  intros (Hl & Hw & Hr).
  assert (Hm : (t mod 16 < 16)%nat) by (by apply Nat.mod_upper_bound).
  split; [by rewrite length_insert|]. split.
  - intros j Hj1 Hj2. rewrite word_at_insert by lia.
    destruct (Nat.eq_dec (t mod 16)%nat (j mod 16)%nat) as [E|E].
    + destruct (Nat.eq_dec j t) as [->|]; [done|].
      exfalso. apply (mod16_inj j t); lia.
    + apply Hw; [|lia]. destruct (Nat.eq_dec j t) as [->|]; [done|lia].
  - intros j Hj. rewrite word_at_insert by lia.
    destruct (Nat.eq_dec (t mod 16)%nat j) as [E|E]; [|apply Hr; lia].
    rewrite Nat.mod_small in E by lia. lia.
Qed.

Lemma land15 k : Nat.land k 15 = (k mod 16)%nat.
Proof. change 15%nat with (Nat.ones 4). by rewrite Nat.land_ones. Qed.

(** The byte swap of a little-endian block. *)
Lemma blk0_swap w : is_u32 w ->
  Z.lor (Z.land (rol w 24) 0xFF00FF00) (Z.land (rol w 8) 0x00FF00FF) = pj_htonl w.
Proof.
  intros (a & b & c & d & Ha & Hb & Hc & Hd & ->)%u32_bytes.
  change (a + b * 256 + c * 65536 + d * 16777216) with (le32 a b c d).
  assert (H0 : is_u8 0) by (unfold is_u8; lia). assert (H255 : is_u8 255) by (unfold is_u8; lia).
  rewrite bswap_le32, rol8_le32, rol24_le32 by done.
  change 0xFF00FF00 with (le32 0 255 0 255). change 0x00FF00FF with (le32 255 0 255 0).
  rewrite !le32_land by done. rewrite !Z.land_0_r.
  assert (E : forall x, is_u8 x -> Z.land x 255 = x).
  { intros x Hx. change 255 with (Z.ones 8). rewrite Z.land_ones by lia. by apply Z.mod_small. }
  rewrite !E by done. rewrite le32_lor by done. rewrite !Z.lor_0_r, !Z.lor_0_l. done.
Qed.

Lemma regs_eta s : mk_regs (va s) (vb s) (vc s) (vd s) (ve s) = s.
Proof. by destruct s. Qed.

#[local] Opaque expand.

Section Transform.
Context (e : endianness) (block : list Z).
Hypothesis Hbytes : bytes_ok block.
Hypothesis Hlen : length block = 64%nat.

Let W := schedule block.
Let raw := to_words e block.

Lemma schedule_first t : (t < 16)%nat ->
  word_at W t = match e with BigEndian => word_at raw t | LittleEndian => pj_htonl (word_at raw t) end.
Proof.
  intros Ht. unfold W, schedule. pose proof (to_words_length BigEndian block 16) as Hl.
  rewrite expand_prefix by lia. unfold raw. destruct e; [|done].
  rewrite to_words_swap by done. unfold word_at. rewrite nth_indep with (d' := pj_htonl 0).
  - apply map_nth.
  - rewrite length_map, (to_words_length _ _ 16); lia.
Qed.

Lemma schedule_next t : (16 <= t < 80)%nat -> word_at W t = expand_word W t.
Proof.
  intros Ht. pose proof (to_words_length BigEndian block 16) as Hl.
  exact (expand_rec 64 (to_words BigEndian block) t ltac:(lia) ltac:(lia)).
Qed.

Lemma raw_ok t : (t < 16)%nat -> is_u32 (word_at raw t).
Proof.
  intros Ht. unfold word_at. apply Forall_nth; [apply to_words_ok; exact Hbytes|].
  unfold raw. rewrite (to_words_length _ _ 16); lia.
Qed.

(** The word a call uses is the word of the schedule. *)
Lemma round_blk_word t l : (t < 80)%nat -> block_inv W raw t l ->
  exists l', round_blk e (round_of t) t l = (word_at W t, l') /\ block_inv W raw (S t) l'.
Proof.
  intros Ht Hinv. pose proof (block_inv_insert W raw t l Hinv) as Hins.
  destruct Hinv as (Hl & Hw & Hr). destruct (Nat.lt_ge_cases t 16) as [Hlt|Hge].
  - assert (Er : round_of t = R0).
    { unfold round_of. destruct (Nat.ltb_spec t 16); [done|lia]. }
    rewrite Er. cbn [round_blk]. rewrite Nat.mod_small in Hins by done.
    assert (Hu : is_u32 (word_at l t)) by (rewrite Hr by lia; by apply raw_ok).
    pose proof (schedule_first t Hlt) as Ew. destruct e; cbn [blk0].
    + rewrite blk0_swap, Hr, <- Ew by (first [assumption|lia]). eexists. split; [reflexivity|exact Hins].
    + rewrite Hr, <- Ew by lia. exists l. split; [done|].
      rewrite list_insert_id in Hins; [done|].
      rewrite Ew, <- (Hr t) by lia. unfold word_at. rewrite nth_lookup.
      destruct (lookup_lt_is_Some_2 l t) as [x Hx]; [lia|]. by rewrite Hx.
  - assert (Er : forall k m, round_blk e (round_of t) k m = blk k m).
    { intros k m. unfold round_of. destruct (Nat.ltb_spec t 16); [lia|].
      by destruct (t <? 20)%nat, (t <? 40)%nat, (t <? 60)%nat. }
    rewrite Er. unfold blk. rewrite !land15.
    assert (Em : forall k, (0 < k < 16)%nat ->
              word_at l ((t + (16 - k)) mod 16) = word_at W (t - k)).
    { intros k Hk. rewrite <- (Hw (t - k)%nat) by lia. f_equal.
      replace (t + (16 - k))%nat with (t - k + 1 * 16)%nat by lia. by rewrite Nat.Div0.mod_add. }
    assert (E16 : word_at l (t mod 16) = word_at W (t - 16)).
    { rewrite <- (Hw (t - 16)%nat) by lia. f_equal.
      replace t with (t - 16 + 1 * 16)%nat at 1 by lia. by rewrite Nat.Div0.mod_add. }
    pose proof (Em 3%nat ltac:(lia)) as E3. pose proof (Em 8%nat ltac:(lia)) as E8.
    pose proof (Em 14%nat ltac:(lia)) as E14.
    cbn [Nat.sub] in E3, E8, E14. rewrite E3, E8, E14, E16.
    change (rol _ 1) with (expand_word W t). rewrite <- schedule_next by lia.
    eexists. split; [reflexivity|exact Hins].
Qed.

(** One call of the program is one step of the standard. *)
Lemma exec_op_step t s l : (t < 80)%nat -> regs_ok s -> block_inv W raw t l ->
  exists s' l', exec_op e (s, l) (expected_op t) = (s', l')
    /\ view (S t) s' = fips_step W (view t s) t /\ block_inv W raw (S t) l'.
Proof.
  intros Ht Hs Hinv. destruct (round_blk_word t l Ht Hinv) as (l' & Eb & Hinv').
  destruct (expected_fields t) as [Ef Ei]. unfold exec_op. rewrite Ef, Ei, Eb.
  do 2 eexists. split; [reflexivity|]. split; [|done].
  rewrite exec_get_w. rewrite exec_view. pose proof (view_ok t s Hs) as (Ha & Hb & Hc & Hd & He).
  unfold view in *. cbn [va vb vc vd ve] in *.
  destruct (round_f_fips t (get (op_w (expected_op t)) s) (get (op_x (expected_op t)) s)
              (get (op_y (expected_op t)) s)) as [-> ->]; [done..|].
  unfold fips_step. cbn [va vb vc vd ve]. f_equal. f_equal. lia.
Qed.

Lemma view_regs_ok t s : regs_ok (view t s) -> regs_ok s.
Proof.
  unfold regs_ok, view, expected_op. destruct (t mod 5)%nat as [|[|[|[|n]]]]; simpl; tauto.
Qed.

Lemma program_steps n : forall t s l, (t + n <= 80)%nat -> regs_ok s -> block_inv W raw t l ->
  exists s' l', fold_left (exec_op e) (map expected_op (seq t n)) (s, l) = (s', l')
    /\ view (t + n) s' = fold_left (fips_step W) (seq t n) (view t s)
    /\ length l' = 16%nat.
Proof.
  induction n as [|n IH]; intros t s l Ht Hs Hinv.
  { exists s, l. rewrite Nat.add_0_r. split; [reflexivity|]. split; [reflexivity|apply Hinv]. }
  cbn [seq map fold_left].
  destruct (exec_op_step t s l) as (s1 & l1 & -> & Ev & Hinv1); [lia|exact Hs|exact Hinv|].
  assert (Hs1 : regs_ok s1).
  { apply (view_regs_ok (S t)). rewrite Ev. by apply fips_step_ok, view_ok. }
  destruct (IH (S t) s1 l1) as (s2 & l2 & -> & Ev2 & Hl); [lia|exact Hs1|exact Hinv1|].
  exists s2, l2. split; [reflexivity|]. split; [|exact Hl].
  rewrite <- Ev, <- Ev2. by replace (t + S n)%nat with (S t + n)%nat by lia.
Qed.

(** The transformation is the compression function of the standard. *)
Lemma transform_fips st : regs_ok st ->
  fst (SHA1_Transform e st block) = fips_compress st block
  /\ length (snd (SHA1_Transform e st block)) = 64%nat.
Proof.
  intros Hst. unfold SHA1_Transform. rewrite program_expected.
  assert (Hinv : block_inv W raw 0 (to_words e block)).
  { split; [apply to_words_length; exact Hlen|]. split; [intros; lia|]. intros; reflexivity. }
  destruct (program_steps 80 0 st (to_words e block) ltac:(lia) Hst Hinv) as (s & l & -> & Ev & Hl).
  cbn [fst snd]. rewrite from_words_length, Hl. split; [|reflexivity].
  unfold fips_compress. change (view 0 st) with (mk_regs (va st) (vb st) (vc st) (vd st) (ve st)) in Ev.
  change (view (0 + 80) s) with (mk_regs (va s) (vb s) (vc s) (vd s) (ve s)) in Ev.
  rewrite (regs_eta st), (regs_eta s) in Ev.
  change (fold_left (fips_step W) (seq 0 80) st) with (fold_left (fips_step (schedule block)) (seq 0 80) st) in Ev.
  rewrite <- Ev. f_equal; f_equal; apply Z.add_comm.
Qed.
End Transform.

Lemma fips_compress_ok st block : regs_ok (fips_compress st block).
Proof. unfold fips_compress, regs_ok. cbn [va vb vc vd ve]. auto with pj. Qed.

Lemma run_ok st m : regs_ok st -> regs_ok (run fips_compress st m).
Proof.
  intros H. unfold run. generalize (blocks (nblocks m) m). intros bs.
  revert st H; induction bs as [|b bs IH]; intros st H; [exact H|]. apply IH, fips_compress_ok.
Qed.

(** ** The context follows the message *)

(** A context that has taken in [m]. *)
Definition sha1_holds (ctx : pj_sha1_context) (m : list Z) : Prop :=
  bytes_ok m
  /\ sha_state ctx = run fips_compress sha1_H0 m
  /\ length (sha_buffer ctx) = 64%nat
  /\ take (length m mod 64) (sha_buffer ctx) = rest_of m
  /\ sha_count0 ctx = u32 (8 * Z.of_nat (length m))
  /\ sha_count1 ctx = u32 (8 * Z.of_nat (length m) / 4294967296).

Lemma H0_ok : regs_ok sha1_H0.
Proof. unfold regs_ok, is_u32; simpl; lia. Qed.

Lemma sha1_loop_run e fuel : forall st data, regs_ok st -> bytes_ok data -> (length data <= fuel)%nat ->
  sha1_loop e fuel st data = (run fips_compress st data, rest_of data).
Proof.
  induction fuel as [|fuel IH]; intros st data Hst Hd Hl.
  { destruct data; [reflexivity|simpl in Hl; lia]. }
  cbn [sha1_loop]. destruct (Nat.ltb_spec 63 (length data)) as [Hge|Hlt].
  - assert (Ht : length (take 64 data) = 64%nat) by (rewrite length_take; lia).
    assert (Hb : bytes_ok (take 64 data)) by (by apply list.Forall_take).
    destruct (transform_fips e (take 64 data) Hb Ht st Hst) as [-> _].
    rewrite IH; [|apply fips_compress_ok|by apply list.Forall_drop|rewrite length_drop; lia].
    destruct (run_block fips_compress st (take 64 data) (drop 64 data) Ht) as [E1 E2].
    rewrite take_drop in E1, E2. by rewrite E1, E2.
  - destruct (run_small fips_compress st data) as [-> ->]; [lia|reflexivity].
Qed.

Lemma sha1_count_exact L len : 0 <= L -> 0 <= len < 2 ^ 29 ->
  sha1_count (u32 (8 * L)) (u32 (8 * L / 4294967296)) len
  = (u32 (8 * (L + len)), u32 (8 * (L + len) / 4294967296)).
Proof.
  intros HL Hlen. unfold sha1_count.
  rewrite (u32_small len), Z.shiftr_div_pow2, (Z.div_small len) by (unfold is_u32; lia).
  rewrite Z.shiftl_mul_pow2 by lia. change (2 ^ 3) with 8.
  rewrite (u32_small (len * 8)) by (unfold is_u32; lia).
  replace (u64 (len * 8)) with (len * 8) by (unfold u64; rewrite Z.mod_small; lia).
  rewrite Z.add_0_r.
  assert (E : u32 (u32 (8 * L) + len * 8) = u32 (8 * (L + len))) by int_lia.
  rewrite E. f_equal. destruct (Z.ltb_spec (u32 (8 * (L + len))) (len * 8)); int_lia.
Qed.

Lemma sha1_update_holds e ctx m data :
  sha1_holds ctx m -> bytes_ok data -> Z.of_nat (length data) < 2 ^ 29 ->
  sha1_holds (pj_sha1_update e ctx data) (m ++ data).
Proof.
  intros (Hm & Hst & Hlb & Hbuf & Hc0 & Hc1) Hd Hlen. unfold pj_sha1_update.
  rewrite Hc0, Hc1, fill_position, sha1_count_exact, Hst by lia.
  set (st := run fips_compress sha1_H0 m). set (j := (length m mod 64)%nat) in *.
  assert (Hj : (j < 64)%nat) by (by apply Nat.mod_upper_bound).
  assert (Hst' : regs_ok st) by (apply run_ok, H0_ok).
  assert (Hmd : bytes_ok (m ++ data)) by (by apply Forall_app).
  assert (Hrl : length (rest_of m) = j) by apply rest_of_length.
  assert (Hrb : bytes_ok (rest_of m)) by (by apply list.Forall_drop).
  destruct (run_continue fips_compress sha1_H0 m data) as [Er Es]. fold st in Er.
  pose proof (rest_of_length (m ++ data)) as Hrl'.
  assert (Hrl'' : (length (rest_of (m ++ data)) < 64)%nat) by (rewrite Hrl'; by apply Nat.mod_upper_bound).
  rewrite <- Nat2Z.inj_add, <- length_app.
  destruct (Nat.ltb_spec 63 (j + length data)) as [Hge|Hlt].
  - set (i := (64 - j)%nat).
    assert (Ht : length (take i data) = i) by (rewrite length_take; lia).
    rewrite splice_full, Hbuf by lia. set (full := rest_of m ++ take i data).
    assert (Hfl : length full = 64%nat) by (unfold full; rewrite length_app; lia).
    assert (Hfb : bytes_ok full) by (apply Forall_app; split; [exact Hrb|by apply list.Forall_take]).
    destruct (transform_fips e full Hfb Hfl st Hst') as [Et Hl].
    destruct (SHA1_Transform e st full) as [st1 buf1]. cbn [fst snd] in Et, Hl. subst st1.
    rewrite sha1_loop_run; [|apply fips_compress_ok|by apply list.Forall_drop|rewrite length_drop; lia].
    destruct (run_block fips_compress st full (drop i data) Hfl) as [E1 E2].
    unfold full in E1, E2. rewrite <- app_assoc, take_drop in E1, E2.
    rewrite <- E2, <- Es. unfold full. rewrite <- E1, <- Er.
    split; [exact Hmd|]. split; [reflexivity|]. cbn [sha_buffer sha_count0 sha_count1].
    split; [rewrite splice_length; lia|]. split; [|by split].
    rewrite <- Hrl'. pose proof (splice_take buf1 0 (rest_of (m ++ data)) ltac:(lia)) as E.
    exact E.
  - destruct (run_small fips_compress st (rest_of m ++ data)) as [E1 E2]; [rewrite length_app; lia|].
    rewrite E1 in Er. rewrite E2 in Es.
    split; [exact Hmd|]. split; [symmetry; exact Er|]. cbn [sha_buffer sha_count0 sha_count1].
    split; [rewrite splice_length; lia|]. split; [|by split].
    rewrite <- Hrl', Es, length_app, Hrl, splice_take, Hbuf by lia. reflexivity.
Qed.

Lemma pad_test n : (Z.land (u32 (8 * Z.of_nat n)) 504 =? 448) = (n mod 64 =? 56)%nat.
Proof.
  assert (E : Z.land (u32 (8 * Z.of_nat n)) 504 = 8 * Z.of_nat (n mod 64)).
  { rewrite <- (fill_position n). change 63 with (Z.ones 6).
    rewrite Z.land_ones, Z2Nat.id by (try apply Z.mod_pos_bound; lia).
    rewrite <- Z.land_ones by lia. change 504 with (Z.shiftl (Z.ones 6) 3).
    replace (u32 (8 * Z.of_nat n)) with (Z.shiftl (Z.shiftr (u32 (8 * Z.of_nat n)) 3) 3) at 1.
    - rewrite <- Z.shiftl_land, Z.shiftl_mul_pow2 by lia. lia.
    - rewrite Z.shiftl_mul_pow2, Z.shiftr_div_pow2 by lia. change (2 ^ 3) with 8. int_lia. }
  rewrite E. destruct (Nat.eqb_spec (n mod 64) 56) as [->|]; [reflexivity|].
  apply Z.eqb_neq. lia.
Qed.

Lemma sha1_pad_loop_holds e fuel : forall ctx m k, sha1_holds ctx m ->
  k = Z.to_nat ((56 - Z.of_nat (length m)) mod 64) -> (k <= fuel)%nat ->
  sha1_holds (sha1_pad_loop e fuel ctx) (m ++ replicate k 0).
Proof.
  induction fuel as [|fuel IH]; intros ctx m k Hh Hk Hle.
  { assert (k = 0)%nat as -> by lia. cbn [replicate sha1_pad_loop]. by rewrite app_nil_r. }
  cbn [sha1_pad_loop]. assert (Ec : sha_count0 ctx = u32 (8 * Z.of_nat (length m))) by apply Hh.
  rewrite Ec, pad_test. destruct (Nat.eqb_spec (length m mod 64) 56) as [E|E].
  - assert (k = 0)%nat as ->.
    { rewrite Hk. apply (f_equal Z.of_nat) in E. rewrite Nat2Z.inj_mod in E.
      change (Z.of_nat 64) with 64 in E. change (Z.of_nat 56) with 56 in E.
      apply Nat2Z.inj. rewrite Z2Nat.id by (apply Z.mod_pos_bound; lia).
      Z.to_euclidean_division_equations. lia. }
    cbn [replicate]. by rewrite app_nil_r.
  - assert (Hs : k = S (Z.to_nat ((56 - Z.of_nat (length (m ++ [0]))) mod 64))).
    { rewrite Hk, length_app. cbn [length]. apply Nat2Z.inj.
      rewrite Nat2Z.inj_succ, !Z2Nat.id by (apply Z.mod_pos_bound; lia).
      assert (E' : Z.of_nat (length m) mod 64 <> 56).
      { intros E'. apply E. apply Nat2Z.inj. by rewrite Nat2Z.inj_mod. }
      rewrite Nat2Z.inj_add. change (Z.of_nat 1) with 1.
      Z.to_euclidean_division_equations. lia. }
    rewrite Hs. cbn [replicate].
    replace (m ++ 0 :: replicate _ 0)
      with ((m ++ [0]) ++ replicate (Z.to_nat ((56 - Z.of_nat (length (m ++ [0]))) mod 64)) 0)
      by (by rewrite <- app_assoc).
    apply IH; [|reflexivity|lia]. apply sha1_update_holds; [exact Hh| |simpl; lia].
    repeat constructor; lia.
Qed.

Lemma be64_words n : 0 <= n ->
  store32 BigEndian (u32 (n / 4294967296)) ++ store32 BigEndian (u32 n) = be64 n.
Proof.
  intros Hn. unfold be64. cbn [store32 app]. rewrite !byte_of_high, !byte_of_low by lia. reflexivity.
Qed.

Lemma sha1_final_spec e ctx m : sha1_holds ctx m -> snd (pj_sha1_final e ctx) = sha1_fips m.
Proof.
  intros Hh. unfold pj_sha1_final. cbv zeta. cbn [snd].
  assert (Ec : sha_count0 ctx = u32 (8 * Z.of_nat (length m))) by apply Hh.
  assert (Ec' : sha_count1 ctx = u32 (8 * Z.of_nat (length m) / 4294967296)) by apply Hh.
  rewrite Ec, Ec', be64_words by lia.
  assert (H1 : sha1_holds (pj_sha1_update e ctx [128]) (m ++ [128])).
  { apply sha1_update_holds; [exact Hh| |simpl; lia]. repeat constructor; lia. }
  assert (H2 := sha1_pad_loop_holds e 64 _ _ _ H1 eq_refl). 
  pose proof (Z.mod_pos_bound (56 - Z.of_nat (length (m ++ [128]))) 64 ltac:(lia)).
  specialize (H2 ltac:(lia)).
  set (c2 := sha1_pad_loop e 64 _) in *.
  assert (Hb : bytes_ok (be64 (8 * Z.of_nat (length m)))).
  { unfold bytes_ok, be64. rewrite !list.Forall_cons, list.Forall_nil.
    repeat match goal with |- _ /\ _ => split end; first [apply byte_of_range; lia | exact I]. }
  assert (Hl8 : Z.of_nat (length (be64 (8 * Z.of_nat (length m)))) < 2 ^ 29) by (cbn [be64 length]; lia).
  destruct (sha1_update_holds e c2 _ _ H2 Hb Hl8) as (_ & Hst & _).
  rewrite Hst. unfold sha1_fips, pad. f_equal. f_equal. rewrite <- !app_assoc.
  rewrite length_app. cbn [length]. unfold pad_zeros.
  replace (56 - Z.of_nat (length m + 1)) with (55 - Z.of_nat (length m)) by lia. reflexivity.
Qed.

Lemma sha1_init_holds ctx : length (sha_buffer ctx) = 64%nat -> sha1_holds (pj_sha1_init ctx) [].
Proof.
  intros Hl. unfold sha1_holds, pj_sha1_init. cbn [sha_state sha_buffer sha_count0 sha_count1].
  split; [constructor|]. split; [reflexivity|]. split; [exact Hl|]. by split.
Qed.

Lemma sha1_fold_holds e pieces : forall ctx m, sha1_holds ctx m -> Forall (piece_ok (2 ^ 29)) pieces ->
  sha1_holds (fold_left (pj_sha1_update e) pieces ctx) (m ++ concat pieces).
Proof.
  induction pieces as [|p pieces IH]; intros ctx m Hh Hp; cbn [fold_left concat].
  - by rewrite app_nil_r.
  - apply list.Forall_cons in Hp as [[Hb Hlen] Hp]. rewrite app_assoc. apply IH; [|exact Hp].
    by apply sha1_update_holds.
Qed.

(** A client that feeds the data in pieces. *)
Definition sha1_stream (e : endianness) (ctx : pj_sha1_context) (pieces : list (list Z)) : list Z :=
  snd (pj_sha1_final e (fold_left (pj_sha1_update e) pieces (pj_sha1_init ctx))).

(** C18. The digest of any data, fed in any pieces of less than 2^29 bytes, on
    a machine of either byte order and whatever the memory of the context held
    before, is the SHA-1 of FIPS 180. *)
Theorem sha1_correct e ctx pieces :
  length (sha_buffer ctx) = 64%nat -> Forall (piece_ok (2 ^ 29)) pieces ->
  sha1_stream e ctx pieces = sha1_fips (concat pieces).
Proof.
  intros Hl Hp. apply sha1_final_spec. apply (sha1_fold_holds e pieces _ []); [|exact Hp].
  by apply sha1_init_holds.
Qed.

Lemma sha1_correct_witness :
  sha1_stream LittleEndian wild_sha1 [[97]; []; [98; 99]] = sha1_fips [97; 98; 99].
Proof.
  apply (sha1_correct LittleEndian wild_sha1 [[97]; []; [98; 99]]); [reflexivity|].
  repeat constructor; lia.
Defined.

(** The carry of the bit count is wrong for a piece of 2^29 bytes or more: the
    left side of [(count[0] += (pj_uint32_t)len << 3) < (len << 3)] has 32 bits
    and the right side 64, so the carry is taken twice. *)
Lemma sha1_count_large :
  sha1_count 0 0 (2 ^ 29) = (0, 2) /\ 8 * 2 ^ 29 = 1 * 4294967296.
Proof. by vm_compute. Qed.
