(* ===== verification/Md5.v ===== *)
(** * MD5

    Model of [pjlib-util/src/pjlib-util/md5.c], on machines of either byte
    order.  The 64 steps of [MD5Transform] are data, a list of the macro calls
    of the source, run on the four working variables.  The reference is
    RFC 1321: its functions F, G, H and I, its order of words and shifts, the
    table of sines, computed here from the power series, and the padding.  The
    theorem of the file is that a context fed in any pieces gives the digest of
    the standard. *)

From Stdlib Require Import ZArith Lia Bool.
From stdpp Require Import base list numbers.
From S2P Require Import Prelude.
From S2P Require Import Words.
From S2P Require Import Blocks.
Local Open Scope Z_scope.

(** ** The transformation *)

Inductive mreg := ma | mb | mc | md.

(** The working variables [a] .. [d], and the four words of [ctx->buf]. *)
Record mregs := mk_mregs { wa : Z; wb : Z; wc : Z; wd : Z }.

Definition mget (r : mreg) (s : mregs) : Z :=
  match r with ma => wa s | mb => wb s | mc => wc s | md => wd s end.
Definition mset (r : mreg) (v : Z) (s : mregs) : mregs :=
  match r with
  | ma => s <| wa := v |> | mb => s <| wb := v |> | mc => s <| wc := v |> | md => s <| wd := v |>
  end.

Inductive md5_fun := F1 | F2 | F3 | F4.
Definition fun_F1 (x y z : Z) : Z := Z.lxor z (Z.land x (Z.lxor y z)).
Definition md5_f (f : md5_fun) (x y z : Z) : Z :=
  match f with
  | F1 => fun_F1 x y z
  | F2 => fun_F1 z x y
  | F3 => Z.lxor (Z.lxor x y) z
  | F4 => Z.lxor y (Z.lor x (not32 z))
  end.

(** [MD5STEP(f, w, x, y, z, in[k] + c, s)]. *)
Record md5_op := step { st_f : md5_fun; st_w : mreg; st_x : mreg; st_y : mreg; st_z : mreg;
                        st_k : nat; st_c : Z; st_s : Z }.

Definition exec_step (input : list Z) (r : mregs) (o : md5_op) : mregs :=
  let x := mget (st_x o) r in
  let data := u32 (word_at input (st_k o) + st_c o) in
  let w := u32 (mget (st_w o) r + (md5_f (st_f o) x (mget (st_y o) r) (mget (st_z o) r) + data)) in
  let w := rol w (st_s o) in
  mset (st_w o) (u32 (w + x)) r.

Definition md5_program : list md5_op := [
  step F1 ma mb mc md 0 0xd76aa478 7;
  step F1 md ma mb mc 1 0xe8c7b756 12;
  step F1 mc md ma mb 2 0x242070db 17;
  step F1 mb mc md ma 3 0xc1bdceee 22;
  step F1 ma mb mc md 4 0xf57c0faf 7;
  step F1 md ma mb mc 5 0x4787c62a 12;
  step F1 mc md ma mb 6 0xa8304613 17;
  step F1 mb mc md ma 7 0xfd469501 22;
  step F1 ma mb mc md 8 0x698098d8 7;
  step F1 md ma mb mc 9 0x8b44f7af 12;
  step F1 mc md ma mb 10 0xffff5bb1 17;
  step F1 mb mc md ma 11 0x895cd7be 22;
  step F1 ma mb mc md 12 0x6b901122 7;
  step F1 md ma mb mc 13 0xfd987193 12;
  step F1 mc md ma mb 14 0xa679438e 17;
  step F1 mb mc md ma 15 0x49b40821 22;
  step F2 ma mb mc md 1 0xf61e2562 5;
  step F2 md ma mb mc 6 0xc040b340 9;
  step F2 mc md ma mb 11 0x265e5a51 14;
  step F2 mb mc md ma 0 0xe9b6c7aa 20;
  step F2 ma mb mc md 5 0xd62f105d 5;
  step F2 md ma mb mc 10 0x02441453 9;
  step F2 mc md ma mb 15 0xd8a1e681 14;
  step F2 mb mc md ma 4 0xe7d3fbc8 20;
  step F2 ma mb mc md 9 0x21e1cde6 5;
  step F2 md ma mb mc 14 0xc33707d6 9;
  step F2 mc md ma mb 3 0xf4d50d87 14;
  step F2 mb mc md ma 8 0x455a14ed 20;
  step F2 ma mb mc md 13 0xa9e3e905 5;
  step F2 md ma mb mc 2 0xfcefa3f8 9;
  step F2 mc md ma mb 7 0x676f02d9 14;
  step F2 mb mc md ma 12 0x8d2a4c8a 20;
  step F3 ma mb mc md 5 0xfffa3942 4;
  step F3 md ma mb mc 8 0x8771f681 11;
  step F3 mc md ma mb 11 0x6d9d6122 16;
  step F3 mb mc md ma 14 0xfde5380c 23;
  step F3 ma mb mc md 1 0xa4beea44 4;
  step F3 md ma mb mc 4 0x4bdecfa9 11;
  step F3 mc md ma mb 7 0xf6bb4b60 16;
  step F3 mb mc md ma 10 0xbebfbc70 23;
  step F3 ma mb mc md 13 0x289b7ec6 4;
  step F3 md ma mb mc 0 0xeaa127fa 11;
  step F3 mc md ma mb 3 0xd4ef3085 16;
  step F3 mb mc md ma 6 0x04881d05 23;
  step F3 ma mb mc md 9 0xd9d4d039 4;
  step F3 md ma mb mc 12 0xe6db99e5 11;
  step F3 mc md ma mb 15 0x1fa27cf8 16;
  step F3 mb mc md ma 2 0xc4ac5665 23;
  step F4 ma mb mc md 0 0xf4292244 6;
  step F4 md ma mb mc 7 0x432aff97 10;
  step F4 mc md ma mb 14 0xab9423a7 15;
  step F4 mb mc md ma 5 0xfc93a039 21;
  step F4 ma mb mc md 12 0x655b59c3 6;
  step F4 md ma mb mc 3 0x8f0ccc92 10;
  step F4 mc md ma mb 10 0xffeff47d 15;
  step F4 mb mc md ma 1 0x85845dd1 21;
  step F4 ma mb mc md 8 0x6fa87e4f 6;
  step F4 md ma mb mc 15 0xfe2ce6e0 10;
  step F4 mc md ma mb 6 0xa3014314 15;
  step F4 mb mc md ma 13 0x4e0811a1 21;
  step F4 ma mb mc md 4 0xf7537e82 6;
  step F4 md ma mb mc 11 0xbd3af235 10;
  step F4 mc md ma mb 2 0x2ad7d2bb 15;
  step F4 mb mc md ma 9 0xeb86d391 21].

Definition MD5Transform (buf : mregs) (input : list Z) : mregs :=
  let r := fold_left (exec_step input) md5_program buf in
  mk_mregs (u32 (wa buf + wa r)) (u32 (wb buf + wb r)) (u32 (wc buf + wc r)) (u32 (wd buf + wd r)).

(** ** The context *)

Record pj_md5_context := mk_md5_context {
  md_buf : mregs;
  md_bits0 : Z;
  md_bits1 : Z;
  md_in : list Z
}.

(** [byteReverse(buf, longs)]: nothing on a little-endian machine; on a
    big-endian one each of the first words is stored again from its
    little-endian value. *)
Definition byteReverse (e : endianness) (longs : nat) (buf : list Z) : list Z :=
  match e with
  | LittleEndian => buf
  | BigEndian =>
      from_words BigEndian (to_words LittleEndian (take (4 * longs) buf)) ++ drop (4 * longs) buf
  end.

(** Reversing and hashing the input buffer: the new state and buffer. *)
Definition md5_block (e : endianness) (buf : mregs) (input : list Z) : mregs * list Z :=
  let input := byteReverse e 16 input in
  (MD5Transform buf (to_words e input), input).

Definition md5_H0 : mregs := mk_mregs 0x67452301 0xefcdab89 0x98badcfe 0x10325476.

Definition pj_md5_init (ctx : pj_md5_context) : pj_md5_context :=
  mk_md5_context md5_H0 0 0 (md_in ctx).

(** The bit count after [len] more bytes. *)
Definition md5_count (bits0 bits1 len : Z) : Z * Z :=
  let t := bits0 in
  let bits0 := u32 (t + u32 (Z.shiftl (u32 len) 3)) in
  let bits1 := if bits0 <? t then u32 (bits1 + 1) else bits1 in
  (bits0, u32 (bits1 + Z.shiftr len 29)).

(** [while (len >= 64)]: state, input buffer and the data left. *)
Fixpoint md5_loop (e : endianness) (fuel : nat) (buf : mregs) (input data : list Z)
    : mregs * list Z * list Z :=
  match fuel with
  | O => (buf, input, data)
  | S fuel =>
      if (64 <=? length data)%nat then
        let '(buf, input) := md5_block e buf (splice input 0 (take 64 data)) in
        md5_loop e fuel buf input (drop 64 data)
      else (buf, input, data)
  end.

Definition pj_md5_update (e : endianness) (ctx : pj_md5_context) (data : list Z) : pj_md5_context :=
  let len := Z.of_nat (length data) in
  let t := Z.to_nat (Z.land (Z.shiftr (md_bits0 ctx) 3) 63) in
  let '(b0, b1) := md5_count (md_bits0 ctx) (md_bits1 ctx) len in
  let tail buf input data :=
    let '(buf, input, data) := md5_loop e (length data) buf input data in
    mk_md5_context buf b0 b1 (splice input 0 data) in
  if (t =? 0)%nat then tail (md_buf ctx) (md_in ctx) data
  else
    let free := (64 - t)%nat in
    if (length data <? free)%nat then mk_md5_context (md_buf ctx) b0 b1 (splice (md_in ctx) t data)
    else
      let '(buf, input) := md5_block e (md_buf ctx) (splice (md_in ctx) t (take free data)) in
      tail buf input (drop free data).

Definition mregs_bytes (s : mregs) : list Z :=
  concat (map (store32 LittleEndian) [wa s; wb s; wc s; wd s]).

(** The digest is [ctx->buf] as memory, reversed on a big-endian machine. *)
Definition digest_bytes (e : endianness) (s : mregs) : list Z :=
  byteReverse e 4 (from_words e [wa s; wb s; wc s; wd s]).

Definition pj_md5_final (e : endianness) (ctx : pj_md5_context) : pj_md5_context * list Z :=
  let count := Z.to_nat (Z.land (Z.shiftr (md_bits0 ctx) 3) 63) in
  let input := splice (md_in ctx) count [128] in
  let p := S count in
  let count := (64 - 1 - count)%nat in
  let '(buf, input) :=
    if (count <? 8)%nat then
      let '(buf, input) := md5_block e (md_buf ctx) (splice input p (replicate count 0)) in
      (buf, splice input 0 (replicate 56 0))
    else (md_buf ctx, splice input p (replicate (count - 8) 0)) in
  let input := byteReverse e 14 input in
  let input := splice input 56 (store32 e (md_bits0 ctx)) in
  let input := splice input 60 (store32 e (md_bits1 ctx)) in
  let buf := MD5Transform buf (to_words e input) in
  (mk_md5_context (mk_mregs 0 0 0 0) 0 0 (replicate 64 0), digest_bytes e buf).

(** ** The standard *)

Definition rfc_F (x y z : Z) : Z := Z.lor (Z.land x y) (Z.land (not32 x) z).
Definition rfc_G (x y z : Z) : Z := Z.lor (Z.land x z) (Z.land y (not32 z)).
Definition rfc_H (x y z : Z) : Z := Z.lxor (Z.lxor x y) z.
Definition rfc_I (x y z : Z) : Z := Z.lxor y (Z.lor x (not32 z)).

Definition rfc_f (i : nat) : Z -> Z -> Z -> Z :=
  match (i / 16)%nat with 0%nat => rfc_F | 1%nat => rfc_G | 2%nat => rfc_H | _ => rfc_I end.

(** The word of the block and the shift of step [i]. *)
Definition rfc_k (i : nat) : nat :=
  match (i / 16)%nat with
  | 0%nat => i mod 16
  | 1%nat => (5 * i + 1) mod 16
  | 2%nat => (3 * i + 5) mod 16
  | _ => (7 * i) mod 16
  end%nat.
Definition rfc_shifts : list (list Z) :=
  [[7; 12; 17; 22]; [5; 9; 14; 20]; [4; 11; 16; 23]; [6; 10; 15; 21]].
Definition rfc_s (i : nat) : Z := nth (i mod 4) (nth (i / 16) rfc_shifts []) 0.

(** The integer part of 2^32 times abs(sin(i)), [i] in radians, from 110 terms
    of the power series in fixed point with 240 binary digits: the terms left
    out and the rounding are far below the distance of the values to the next
    integer. *)
Fixpoint sin_terms (n : nat) (k : Z) (x2 term : Z) : Z :=
  match n with
  | O => 0
  | S n => term - sin_terms n (k + 2) x2 (term * x2 / ((k + 1) * (k + 2)))
  end.
Definition rfc_T (i : nat) : Z :=
  let x := Z.of_nat (S i) in
  Z.shiftr (Z.abs (sin_terms 110 1 (x * x) (Z.shiftl x 240))) 208.

Definition rfc_step (X : list Z) (s : mregs) (i : nat) : mregs :=
  mk_mregs (wd s)
    (u32 (wb s + rol (u32 (wa s + rfc_f i (wb s) (wc s) (wd s) + word_at X (rfc_k i) + rfc_T i)) (rfc_s i)))
    (wb s) (wc s).

Definition rfc_compress (s : mregs) (block : list Z) : mregs :=
  let r := fold_left (rfc_step (to_words LittleEndian block)) (seq 0 64) s in
  mk_mregs (u32 (wa r + wa s)) (u32 (wb r + wb s)) (u32 (wc r + wc s)) (u32 (wd r + wd s)).

Definition le64 (n : Z) : list Z :=
  [byte_of n 0; byte_of n 1; byte_of n 2; byte_of n 3;
   byte_of n 4; byte_of n 5; byte_of n 6; byte_of n 7].

Definition md5_rfc (m : list Z) : list Z :=
  mregs_bytes (run rfc_compress md5_H0 (pad le64 m)).

Definition wild_md5 : pj_md5_context := mk_md5_context (mk_mregs 1 2 3 4) 5 6 (replicate 64 255).
Definition md5_of (e : endianness) (m : list Z) : list Z :=
  snd (pj_md5_final e (pj_md5_update e (pj_md5_init wild_md5) m)).

(** A value of the test suite of the RFC. *)
Lemma md5_abc :
  md5_of LittleEndian [97; 98; 99]
  = [0x90; 0x01; 0x50; 0x98; 0x3c; 0xd2; 0x4f; 0xb0; 0xd6; 0x96; 0x3f; 0x7d; 0x28; 0xe1; 0x7f; 0x72]
  /\ md5_of BigEndian [97; 98; 99] = md5_of LittleEndian [97; 98; 99]
  /\ md5_rfc [97; 98; 99] = md5_of LittleEndian [97; 98; 99].
Proof. by vm_compute. Qed.

(** ** The steps *)

Definition mregs_ok (s : mregs) : Prop :=
  is_u32 (wa s) /\ is_u32 (wb s) /\ is_u32 (wc s) /\ is_u32 (wd s).

Definition fun_of (t : nat) : md5_fun :=
  match (t / 16)%nat with 0%nat => F1 | 1%nat => F2 | 2%nat => F3 | _ => F4 end.
Definition expected_step (t : nat) : md5_op :=
  match (t mod 4)%nat with
  | 0%nat => step (fun_of t) ma mb mc md (rfc_k t) (rfc_T t) (rfc_s t)
  | 1%nat => step (fun_of t) md ma mb mc (rfc_k t) (rfc_T t) (rfc_s t)
  | 2%nat => step (fun_of t) mc md ma mb (rfc_k t) (rfc_T t) (rfc_s t)
  | _ => step (fun_of t) mb mc md ma (rfc_k t) (rfc_T t) (rfc_s t)
  end.

(** The source's functions, words, shifts and constants are those of the RFC. *)
Lemma md5_program_expected : md5_program = map expected_step (seq 0 64).
Proof. vm_compute. reflexivity. Qed.

Definition mview (t : nat) (s : mregs) : mregs :=
  let o := expected_step t in
  mk_mregs (mget (st_w o) s) (mget (st_x o) s) (mget (st_y o) s) (mget (st_z o) s).

Lemma mod4_cases t : let m := (t mod 4)%nat in let m' := (S t mod 4)%nat in
  (m = 0 /\ m' = 1 \/ m = 1 /\ m' = 2 \/ m = 2 /\ m' = 3 \/ m = 3 /\ m' = 0)%nat.
Proof.
  intros m m'. unfold m, m'. clear m m'.
  pose proof (Nat.div_mod_eq t 4). pose proof (Nat.div_mod_eq (S t) 4).
  pose proof (Nat.mod_upper_bound t 4). pose proof (Nat.mod_upper_bound (S t) 4). lia.
Qed.

Lemma md5_f_rfc t x y z : is_u32 x -> is_u32 y -> is_u32 z ->
  md5_f (fun_of t) x y z = rfc_f t x y z.
Proof.
  intros Hx Hy Hz. pose proof (not32_range x Hx). pose proof (not32_range z Hz).
  unfold fun_of, rfc_f. destruct (t / 16)%nat as [|[|[|n]]]; [| |reflexivity..];
    (apply u32_bits_eq; [unfold md5_f, fun_F1; auto with pj|unfold rfc_F, rfc_G; auto with pj|]);
    intros i Hi; unfold md5_f, fun_F1, rfc_F, rfc_G;
    rewrite Z.lor_spec, Z.lxor_spec, !Z.land_spec, Z.lxor_spec, not32_bit by exact Hi;
    by destruct (Z.testbit x i), (Z.testbit y i), (Z.testbit z i).
Qed.

Lemma mview_ok t s : mregs_ok s -> mregs_ok (mview t s).
Proof.
  unfold mregs_ok. intros (Ha & Hb & Hc & Hd). unfold mview, expected_step.
  destruct (t mod 4)%nat as [|[|[|n]]]; cbn; auto.
Qed.

Lemma rfc_step_ok X s i : mregs_ok s -> mregs_ok (rfc_step X s i).
Proof.
  unfold mregs_ok, rfc_step. intros (Ha & Hb & Hc & Hd). cbn [wa wb wc wd].
  split; [exact Hd|]. split; [apply u32_range|]. by split.
Qed.

(** The fields of the expected call, without unfolding its constants. *)
Lemma expected_parts t : let o := expected_step t in
  st_f o = fun_of t /\ st_k o = rfc_k t /\ st_c o = rfc_T t /\ st_s o = rfc_s t.
Proof.
  intros o. unfold o, expected_step. destruct (t mod 4)%nat as [|[|[|n]]]; repeat split.
Qed.

Lemma mset_view t s v : mview (S t) (mset (st_w (expected_step t)) v s)
  = mk_mregs (wd (mview t s)) v (wb (mview t s)) (wc (mview t s)).
Proof.
  unfold mview, expected_step.
  destruct (mod4_cases t) as [[E E']|[[E E']|[[E E']|[E E']]]]; rewrite E, E'; reflexivity.
Qed.

Lemma u32_add_l a b : u32 (u32 a + b) = u32 (a + b).
Proof. unfold u32. apply Zplus_mod_idemp_l. Qed.
Lemma u32_add_r a b : u32 (a + u32 b) = u32 (a + b).
Proof. unfold u32. apply Zplus_mod_idemp_r. Qed.

Lemma exec_step_rfc X t s : mregs_ok s ->
  mview (S t) (exec_step X s (expected_step t)) = rfc_step X (mview t s) t.
Proof.
  intros Hs. destruct (mview_ok t s Hs) as (Hw & Hx & Hy & Hz).
  unfold exec_step. rewrite mset_view.
  destruct (expected_parts t) as (-> & -> & -> & ->).
  unfold rfc_step, mview in *. cbn [wa wb wc wd] in *.
  rewrite md5_f_rfc by assumption. f_equal.
  rewrite (Z.add_comm (rol _ _)). f_equal. f_equal. f_equal.
  rewrite !Z.add_assoc, u32_add_r, !Z.add_assoc. reflexivity.
Qed.

Lemma mview_mregs_ok t s : mregs_ok (mview t s) -> mregs_ok s.
Proof.
  unfold mregs_ok, mview, expected_step. destruct (t mod 4)%nat as [|[|[|n]]]; cbn; tauto.
Qed.

Lemma md5_steps X n : forall t s, mregs_ok s ->
  mview (t + n) (fold_left (exec_step X) (map expected_step (seq t n)) s)
  = fold_left (rfc_step X) (seq t n) (mview t s).
Proof.
  induction n as [|n IH]; intros t s Hs.
  { rewrite Nat.add_0_r. reflexivity. }
  cbn [seq map fold_left]. rewrite <- exec_step_rfc by exact Hs.
  replace (t + S n)%nat with (S t + n)%nat by lia. apply IH.
  apply (mview_mregs_ok (S t)). rewrite exec_step_rfc by exact Hs. by apply rfc_step_ok, mview_ok.
Qed.

Lemma mview_id t s : (t mod 4 = 0)%nat -> mview t s = s.
Proof. intros E. unfold mview, expected_step. rewrite E. by destruct s. Qed.

Lemma MD5Transform_rfc s block : mregs_ok s ->
  MD5Transform s (to_words LittleEndian block) = rfc_compress s block.
Proof.
  intros Hs. unfold MD5Transform, rfc_compress. rewrite md5_program_expected.
  pose proof (md5_steps (to_words LittleEndian block) 64 0 s Hs) as E.
  rewrite !mview_id in E by reflexivity. rewrite E.
  f_equal; f_equal; apply Z.add_comm.
Qed.

Lemma rfc_compress_ok s block : mregs_ok (rfc_compress s block).
Proof. unfold rfc_compress, mregs_ok. cbn [wa wb wc wd]. auto with pj. Qed.

Lemma md5_run_ok st m : mregs_ok st -> mregs_ok (run rfc_compress st m).
Proof.
  intros H. unfold run. generalize (blocks (nblocks m) m). intros bs.
  revert st H; induction bs as [|b bs IH]; intros st H; [exact H|]. apply IH, rfc_compress_ok.
Qed.

#[local] Opaque MD5Transform rfc_compress.

(** ** Byte order *)

Lemma to_from_words ws l : Forall is_u32 ws ->
  to_words BigEndian (from_words BigEndian ws ++ l) = ws ++ to_words BigEndian l.
Proof.
  induction 1 as [|w ws Hw _ IH]; [reflexivity|].
  change (from_words BigEndian (w :: ws)) with (store32 BigEndian w ++ from_words BigEndian ws).
  rewrite <- app_assoc. cbn [store32 app to_words load32]. rewrite IH. f_equal.
  unfold be32. by apply le32_byte_of.
Qed.

Lemma to_words_app e l : forall l' n, length l = (4 * n)%nat ->
  to_words e (l ++ l') = to_words e l ++ to_words e l'.
Proof.
  induction l as [l Hl|a b c d l IH] using words_ind; intros l' n Hn.
  - destruct n; [|lia]. by apply nil_length_inv in Hn as ->.
  - cbn [app to_words]. destruct n as [|n]; [simpl in Hn; lia|].
    rewrite (IH l' n) by (simpl in Hn; lia). reflexivity.
Qed.

(** The words a transformation sees are little-endian on both machines. *)
Lemma reversed_words e block : bytes_ok block -> length block = 64%nat ->
  to_words e (byteReverse e 16 block) = to_words LittleEndian block
  /\ length (byteReverse e 16 block) = 64%nat.
Proof.
  intros Hb Hl. destruct e; cbn [byteReverse]; [by split|].
  rewrite (take_ge block), (drop_ge block) by (simpl; lia).
  rewrite app_nil_r, from_words_length, (to_words_length _ _ 16) by (simpl; lia).
  split; [|reflexivity].
  rewrite <- (app_nil_r (from_words _ _)), to_from_words by (by apply to_words_ok).
  by rewrite app_nil_r.
Qed.

Lemma md5_block_rfc e st block : mregs_ok st -> bytes_ok block -> length block = 64%nat ->
  fst (md5_block e st block) = rfc_compress st block
  /\ length (snd (md5_block e st block)) = 64%nat.
Proof.
  intros Hs Hb Hl. unfold md5_block. cbn [fst snd].
  destruct (reversed_words e block Hb Hl) as [-> ->]. split; [by apply MD5Transform_rfc|reflexivity].
Qed.

(** ** The context follows the message *)

Definition md5_holds (ctx : pj_md5_context) (m : list Z) : Prop :=
  bytes_ok m
  /\ md_buf ctx = run rfc_compress md5_H0 m
  /\ length (md_in ctx) = 64%nat
  /\ take (length m mod 64) (md_in ctx) = rest_of m
  /\ md_bits0 ctx = u32 (8 * Z.of_nat (length m))
  /\ md_bits1 ctx = u32 (8 * Z.of_nat (length m) / 4294967296).

Lemma md5_H0_ok : mregs_ok md5_H0.
Proof. unfold mregs_ok, is_u32; cbn [wa wb wc wd md5_H0]; lia. Qed.

Lemma md5_loop_run e fuel : forall st input data, mregs_ok st -> bytes_ok data ->
  length input = 64%nat -> (length data <= fuel)%nat ->
  exists input', md5_loop e fuel st input data = (run rfc_compress st data, input', rest_of data)
    /\ length input' = 64%nat.
Proof.
  induction fuel as [|fuel IH]; intros st input data Hst Hd Hi Hl.
  { destruct data; [|simpl in Hl; lia]. by exists input. }
  cbn [md5_loop]. destruct (Nat.leb_spec 64 (length data)) as [Hge|Hlt].
  - assert (Ht : length (take 64 data) = 64%nat) by (rewrite length_take; lia).
    assert (Hb : bytes_ok (take 64 data)) by (by apply list.Forall_take).
    rewrite splice_full, take_0, app_nil_l by (exact Hi || lia).
    destruct (md5_block_rfc e st (take 64 data) Hst Hb Ht) as [E Hl1].
    destruct (md5_block e st (take 64 data)) as [st1 input1]. cbn [fst snd] in E, Hl1. subst st1.
    destruct (IH (rfc_compress st (take 64 data)) input1 (drop 64 data)) as (i' & -> & Hi');
      [apply rfc_compress_ok|by apply list.Forall_drop|exact Hl1|rewrite length_drop; lia|].
    destruct (run_block rfc_compress st (take 64 data) (drop 64 data) Ht) as [E1 E2].
    rewrite take_drop in E1, E2. rewrite E1, E2. by exists i'.
  - destruct (run_small rfc_compress st data) as [-> ->]; [lia|]. by exists input.
Qed.

Lemma md5_count_exact L len : 0 <= L -> 0 <= len < 2 ^ 32 ->
  md5_count (u32 (8 * L)) (u32 (8 * L / 4294967296)) len
  = (u32 (8 * (L + len)), u32 (8 * (L + len) / 4294967296)).
Proof.
  intros HL Hlen. unfold md5_count.
  rewrite (u32_small len), Z.shiftl_mul_pow2, Z.shiftr_div_pow2 by (unfold is_u32; lia).
  change (2 ^ 3) with 8. change (2 ^ 29) with 536870912.
  assert (E : u32 (u32 (8 * L) + u32 (len * 8)) = u32 (8 * (L + len))) by int_lia.
  rewrite E. f_equal. destruct (Z.ltb_spec (u32 (8 * (L + len))) (u32 (8 * L))); int_lia.
Qed.

(** The loop and the last copy, once whole blocks have been hashed. *)
Lemma md5_tail_holds e w d st input b0 b1 :
  bytes_ok (w ++ d) -> (length w mod 64 = 0)%nat -> st = run rfc_compress md5_H0 w ->
  length input = 64%nat ->
  b0 = u32 (8 * Z.of_nat (length (w ++ d))) ->
  b1 = u32 (8 * Z.of_nat (length (w ++ d)) / 4294967296) ->
  md5_holds (let '(buf, input, data) := md5_loop e (length d) st input d in
             mk_md5_context buf b0 b1 (splice input 0 data)) (w ++ d).
Proof.
  intros Hb Hw Hst Hi Hb0 Hb1. pose proof Hb as [_ Hd]%Forall_app.
  destruct (md5_loop_run e (length d) st input d) as (i' & -> & Hi');
    [rewrite Hst; apply md5_run_ok, md5_H0_ok|exact Hd|exact Hi|lia|].
  destruct (run_app rfc_compress md5_H0 w d Hw) as [E1 E2].
  pose proof (rest_of_length (w ++ d)) as Hr.
  assert (Hlt : (length (rest_of (w ++ d)) < 64)%nat) by (rewrite Hr; by apply Nat.mod_upper_bound).
  rewrite E2 in Hr, Hlt.
  unfold md5_holds. cbn [md_buf md_in md_bits0 md_bits1]. rewrite E1, E2, Hst.
  split; [exact Hb|]. split; [reflexivity|]. split; [rewrite splice_length; lia|].
  split; [|by split]. rewrite <- Hr. exact (splice_take i' 0 (rest_of d) ltac:(lia)).
Qed.

Lemma md5_update_holds e ctx m data :
  md5_holds ctx m -> bytes_ok data -> Z.of_nat (length data) < 2 ^ 32 ->
  md5_holds (pj_md5_update e ctx data) (m ++ data).
Proof.
  intros (Hm & Hst & Hlb & Hbuf & Hc0 & Hc1) Hd Hlen. unfold pj_md5_update.
  rewrite Hc0, Hc1, fill_position, md5_count_exact, Hst by lia.
  rewrite <- Nat2Z.inj_add, <- length_app.
  set (st := run rfc_compress md5_H0 m). set (t := (length m mod 64)%nat) in *.
  assert (Ht : (t < 64)%nat) by (by apply Nat.mod_upper_bound).
  assert (Hst' : mregs_ok st) by (apply md5_run_ok, md5_H0_ok).
  assert (Hmd : bytes_ok (m ++ data)) by (by apply Forall_app).
  assert (Hrl : length (rest_of m) = t) by apply rest_of_length.
  assert (Hrb : bytes_ok (rest_of m)) by (by apply list.Forall_drop).
  destruct (run_continue rfc_compress md5_H0 m data) as [Er Es]. fold st in Er.
  destruct (Nat.eqb_spec t 0) as [E0|E0]; [by apply md5_tail_holds|].
  destruct (Nat.ltb_spec (length data) (64 - t)) as [Hlt|Hge].
  - destruct (run_small rfc_compress st (rest_of m ++ data)) as [E1 E2]; [rewrite length_app; lia|].
    rewrite E1 in Er. rewrite E2 in Es. pose proof (rest_of_length (m ++ data)) as Hrl'.
    unfold md5_holds. cbn [md_buf md_in md_bits0 md_bits1].
    split; [exact Hmd|]. split; [symmetry; exact Er|]. split; [rewrite splice_length; lia|].
    split; [|by split].
    rewrite <- Hrl', Es, length_app, Hrl, splice_take, Hbuf by lia. reflexivity.
  - set (i := (64 - t)%nat) in *.
    assert (Hti : length (take i data) = i) by (rewrite length_take; lia).
    rewrite splice_full, Hbuf by lia. set (full := rest_of m ++ take i data).
    assert (Hfl : length full = 64%nat) by (unfold full; rewrite length_app; lia).
    assert (Hfb : bytes_ok full) by (apply Forall_app; split; [exact Hrb|by apply list.Forall_take]).
    destruct (md5_block_rfc e st full Hst' Hfb Hfl) as [Et Hl].
    destruct (md5_block e st full) as [st1 input1]. cbn [fst snd] in Et, Hl.
    assert (Ew : m ++ data = (m ++ take i data) ++ drop i data) by (by rewrite <- app_assoc, take_drop).
    rewrite Ew. apply md5_tail_holds; [by rewrite <- Ew| | |exact Hl|reflexivity..].
    + rewrite length_app, Hti. unfold i, t. pose proof (Nat.div_mod_eq (length m) 64).
      replace (length m + (64 - length m mod 64))%nat with ((length m / 64 + 1) * 64)%nat by lia.
      by rewrite Nat.Div0.mod_mul.
    + destruct (run_continue rfc_compress md5_H0 m (take i data)) as [-> _]. fold st full.
      rewrite Et. rewrite <- (app_nil_r full) at 2.
      destruct (run_block rfc_compress st full [] Hfl) as [-> _]. reflexivity.
Qed.

(** ** The last blocks *)

Lemma last_block_words e x f b0 b1 : length x = 64%nat -> take 56 x = f -> bytes_ok f ->
  to_words e (splice (splice (byteReverse e 14 x) 56 (store32 e b0)) 60 (store32 e b1))
  = to_words LittleEndian (f ++ store32 LittleEndian b0 ++ store32 LittleEndian b1).
Proof.
  intros Hl Hf Hb.
  assert (Hlf : length f = 56%nat) by (rewrite <- Hf, length_take; lia).
  assert (Es : forall g y, length g = 56%nat -> length y = 8%nat ->
            splice (splice (g ++ y) 56 (store32 e b0)) 60 (store32 e b1)
            = g ++ store32 e b0 ++ store32 e b1).
  { intros g y Hg Hy. assert (L4 : forall b, length (store32 e b) = 4%nat) by (intros; by destruct e).
    unfold splice. rewrite (take_app_length' g y 56), !L4 by lia. rewrite (app_assoc g (store32 e b0)).
    rewrite (take_app_length' (g ++ store32 e b0)) by (rewrite length_app, L4; lia).
    rewrite (drop_ge _ (60 + 4)), app_nil_r, <- app_assoc; [reflexivity|].
    rewrite ?length_app, ?length_drop, ?length_app, ?L4. lia. }
  rewrite <- (take_drop 56 x), Hf.
  destruct e; cbn [byteReverse].
  - rewrite Es; [reflexivity|exact Hlf|rewrite length_drop; lia].
  - change (4 * 14)%nat with 56%nat. rewrite take_app_length', drop_app_length' by (by rewrite Hlf).
    rewrite Es; [|rewrite from_words_length, (to_words_length _ _ 14); lia|rewrite length_drop; lia].
    rewrite to_from_words by (by apply to_words_ok).
    rewrite (to_words_app LittleEndian f _ 14) by lia. reflexivity.
Qed.

Lemma le64_words n : 0 <= n ->
  store32 LittleEndian (u32 n) ++ store32 LittleEndian (u32 (n / 4294967296)) = le64 n.
Proof.
  intros Hn. unfold le64. cbn [store32 app]. rewrite !byte_of_high, !byte_of_low by lia. reflexivity.
Qed.

Lemma le64_bytes n : 0 <= n -> bytes_ok (le64 n).
Proof.
  intros Hn. rewrite <- le64_words by exact Hn.
  apply Forall_app; split; apply store32_bytes; apply u32_range.
Qed.

Lemma replicate_bytes n : bytes_ok (replicate n 0).
Proof. apply Forall_replicate. unfold is_u8; lia. Qed.

Lemma store32_swap w : is_u32 w ->
  store32 BigEndian (le32 (byte_of w 3) (byte_of w 2) (byte_of w 1) (byte_of w 0))
  = store32 LittleEndian w.
Proof.
  intros [Hw _]. cbn [store32].
  destruct (byte_of_le32 (byte_of w 3) (byte_of w 2) (byte_of w 1) (byte_of w 0))
    as (-> & -> & -> & ->); auto using byte_of_range.
Qed.

Lemma digest_bytes_rfc e s : mregs_ok s -> digest_bytes e s = mregs_bytes s.
Proof.
  intros (Ha & Hb & Hc & Hd). unfold digest_bytes, mregs_bytes. destruct e; [reflexivity|].
  cbn [byteReverse]. rewrite take_ge, drop_ge, app_nil_r by (rewrite from_words_length; simpl; lia).
  change (to_words LittleEndian (from_words BigEndian [wa s; wb s; wc s; wd s]))
    with (map (fun w => le32 (byte_of w 3) (byte_of w 2) (byte_of w 1) (byte_of w 0))
              [wa s; wb s; wc s; wd s]).
  unfold from_words. cbn [map]. by rewrite !store32_swap.
Qed.

(** The last block, with the length in its last eight bytes. *)
Lemma md5_last_block e st x f n : mregs_ok st -> length x = 64%nat -> take 56 x = f -> bytes_ok f ->
  0 <= n ->
  MD5Transform st (to_words e (splice (splice (byteReverse e 14 x) 56 (store32 e (u32 n))) 60
                                 (store32 e (u32 (n / 4294967296)))))
  = rfc_compress st (f ++ le64 n).
Proof.
  intros Hs Hl Hf Hb Hn. rewrite (last_block_words e x f) by assumption.
  rewrite le64_words by exact Hn. by apply MD5Transform_rfc.
Qed.

(** The padded message, behind its whole blocks. *)
Lemma pad_run m : let c := (length m mod 64)%nat in
  run rfc_compress md5_H0 (pad le64 m)
  = run rfc_compress (run rfc_compress md5_H0 m)
      (rest_of m ++ [128] ++ replicate (if (c <=? 55)%nat then 55 - c else 63 - c + 56) 0
         ++ le64 (8 * Z.of_nat (length m))).
Proof.
  intros c. replace (if (c <=? 55)%nat then _ else _) with (pad_zeros (Z.of_nat (length m))).
  - unfold pad.
    destruct (run_continue rfc_compress md5_H0 m
                ([128] ++ replicate (pad_zeros (Z.of_nat (length m))) 0
                   ++ le64 (8 * Z.of_nat (length m)))) as [-> _].
    reflexivity.
  - unfold pad_zeros. pose proof (Nat.div_mod_eq (length m) 64) as Ed. fold c in Ed.
    assert (Hc : (c < 64)%nat) by (by apply Nat.mod_upper_bound).
    apply Nat2Z.inj. rewrite Z2Nat.id by (apply Z.mod_pos_bound; lia).
    destruct (Nat.leb_spec c 55); Z.to_euclidean_division_equations; lia.
Qed.

Lemma run_one st b : length b = 64%nat -> run rfc_compress st b = rfc_compress st b.
Proof.
  intros Hb. rewrite <- (app_nil_r b) at 1.
  by destruct (run_block rfc_compress st b [] Hb) as [-> _].
Qed.

Section Final.
Context (e : endianness) (st : mregs) (input r : list Z) (c : nat) (n : Z).
Hypothesis Hst : mregs_ok st.
Hypothesis Hin : length input = 64%nat.
Hypothesis Hr : bytes_ok r.
Hypothesis Hrl : length r = c.
Hypothesis Hc : (c < 64)%nat.
Hypothesis Htake : take (S c) input = r ++ [128].
Hypothesis Hn : 0 <= n.

Let with_length (x : list Z) : list Z :=
  splice (splice (byteReverse e 14 x) 56 (store32 e (u32 n))) 60 (store32 e (u32 (n / 4294967296))).

Lemma padded_bytes k : bytes_ok (r ++ [128] ++ replicate k 0).
Proof.
  apply Forall_app; split; [exact Hr|]. apply Forall_app; split; [|apply replicate_bytes].
  repeat constructor; lia.
Qed.

Lemma padded_length k : length (r ++ [128] ++ replicate k 0) = (c + S k)%nat.
Proof. rewrite !length_app, length_replicate, Hrl. reflexivity. Qed.

(** The length fits behind the padding byte. *)
Lemma final_one : (c <= 55)%nat ->
  MD5Transform st (to_words e (with_length (splice input (S c) (replicate (55 - c) 0))))
  = run rfc_compress st (r ++ [128] ++ replicate (55 - c) 0 ++ le64 n).
Proof.
  intros Hle. set (f := r ++ [128] ++ replicate (55 - c) 0).
  assert (Hf : length f = 56%nat) by (unfold f; rewrite padded_length; lia).
  unfold with_length. rewrite (md5_last_block e st _ f n); [|exact Hst| | |apply padded_bytes|exact Hn].
  - rewrite <- run_one by (rewrite length_app; simpl; lia). unfold f. by rewrite <- !app_assoc.
  - rewrite splice_length; [exact Hin|rewrite length_replicate; lia].
  - pose proof (splice_take input (S c) (replicate (55 - c) 0) ltac:(lia)) as E.
    rewrite length_replicate, Htake, <- app_assoc in E.
    by replace (S c + (55 - c))%nat with 56%nat in E by lia.
Qed.

(** It does not: a block of padding, and one of zeros and the length. *)
Lemma final_two : (55 < c)%nat ->
  let '(st1, in1) := md5_block e st (splice input (S c) (replicate (63 - c) 0)) in
  MD5Transform st1 (to_words e (with_length (splice in1 0 (replicate 56 0))))
  = run rfc_compress st (r ++ [128] ++ replicate (63 - c + 56) 0 ++ le64 n).
Proof.
  intros Hgt. set (full := r ++ [128] ++ replicate (63 - c) 0).
  assert (Hfull : length full = 64%nat) by (unfold full; rewrite padded_length; lia).
  assert (Ef : splice input (S c) (replicate (63 - c) 0) = full).
  { rewrite splice_full, Htake, <- app_assoc by (rewrite ?length_replicate; lia). reflexivity. }
  rewrite Ef. destruct (md5_block_rfc e st full Hst (padded_bytes _) Hfull) as [Et Hl].
  destruct (md5_block e st full) as [st1 in1]. cbn [fst snd] in Et, Hl.
  unfold with_length. rewrite (md5_last_block e st1 _ (replicate 56 0) n);
    [|subst st1; apply rfc_compress_ok| | |apply replicate_bytes|exact Hn].
  - rewrite <- run_one by (rewrite length_app; simpl; lia). rewrite replicate_add.
    replace (r ++ [128] ++ (replicate (63 - c) 0 ++ replicate 56 0) ++ le64 n)
      with (full ++ (replicate 56 0 ++ le64 n)) by (unfold full; by rewrite <- !app_assoc).
    destruct (run_block rfc_compress st full (replicate 56 0 ++ le64 n) Hfull) as [-> _].
    by rewrite <- Et.
  - rewrite splice_length, Hl; [reflexivity|rewrite length_replicate; lia].
  - exact (splice_take in1 0 (replicate 56 0) ltac:(lia)).
Qed.
End Final.

Lemma md5_final_spec e ctx m : md5_holds ctx m -> snd (pj_md5_final e ctx) = md5_rfc m.
Proof.
  intros (Hm & Hst & Hlb & Hbuf & Hc0 & Hc1). unfold pj_md5_final.
  rewrite Hc0, Hc1, fill_position, Hst. unfold md5_rfc. rewrite pad_run.
  set (n := 8 * Z.of_nat (length m)). set (c := (length m mod 64)%nat) in *.
  set (st := run rfc_compress md5_H0 m). set (input := splice (md_in ctx) c [128]).
  assert (Hc : (c < 64)%nat) by (by apply Nat.mod_upper_bound).
  assert (Hst' : mregs_ok st) by (apply md5_run_ok, md5_H0_ok).
  assert (Hrl : length (rest_of m) = c) by apply rest_of_length.
  assert (Hrb : bytes_ok (rest_of m)) by (by apply list.Forall_drop).
  assert (Hin : length input = 64%nat) by (unfold input; rewrite splice_length; simpl; lia).
  assert (Ht : take (S c) input = rest_of m ++ [128]).
  { rewrite <- Hbuf, <- (Nat.add_1_r c). apply (splice_take (md_in ctx) c [128]). lia. }
  destruct (Nat.leb_spec c 55) as [Hle|Hgt].
  - destruct (Nat.ltb_spec (64 - 1 - c) 8) as [?|_]; [lia|]. cbn [snd].
    replace (64 - 1 - c - 8)%nat with (55 - c)%nat by lia.
    rewrite (final_one e st input (rest_of m) c n) by (assumption || lia).
    apply digest_bytes_rfc. by apply md5_run_ok.
  - destruct (Nat.ltb_spec (64 - 1 - c) 8) as [_|?]; [|lia].
    replace (64 - 1 - c)%nat with (63 - c)%nat by lia.
    pose proof (final_two e st input (rest_of m) c n Hst' Hin Hrb Hrl Hc Ht ltac:(lia) Hgt) as E.
    destruct (md5_block e st _) as [st1 in1]. cbn [snd]. rewrite E.
    apply digest_bytes_rfc. by apply md5_run_ok.
Qed.

Lemma md5_init_holds ctx : length (md_in ctx) = 64%nat -> md5_holds (pj_md5_init ctx) [].
Proof.
  intros Hl. unfold md5_holds, pj_md5_init. cbn [md_buf md_in md_bits0 md_bits1].
  split; [constructor|]. split; [reflexivity|]. split; [exact Hl|]. by split.
Qed.

Lemma md5_fold_holds e pieces : forall ctx m, md5_holds ctx m -> Forall (piece_ok (2 ^ 32)) pieces ->
  md5_holds (fold_left (pj_md5_update e) pieces ctx) (m ++ concat pieces).
Proof.
  induction pieces as [|p pieces IH]; intros ctx m Hh Hp; cbn [fold_left concat].
  - by rewrite app_nil_r.
  - apply list.Forall_cons in Hp as [[Hb Hlen] Hp]. rewrite app_assoc. apply IH; [|exact Hp].
    by apply md5_update_holds.
Qed.

(** A client that feeds the data in pieces. *)
Definition md5_stream (e : endianness) (ctx : pj_md5_context) (pieces : list (list Z)) : list Z :=
  snd (pj_md5_final e (fold_left (pj_md5_update e) pieces (pj_md5_init ctx))).

(** C19. The digest of any data, fed in any pieces whose length fits the
    parameter, on a machine of either byte order and whatever the memory of the
    context held before, is the MD5 of RFC 1321. *)
Theorem md5_correct e ctx pieces :
  length (md_in ctx) = 64%nat -> Forall (piece_ok (2 ^ 32)) pieces ->
  md5_stream e ctx pieces = md5_rfc (concat pieces).
Proof.
  intros Hl Hp. apply md5_final_spec. apply (md5_fold_holds e pieces _ []); [|exact Hp].
  by apply md5_init_holds.
Qed.

Lemma md5_correct_witness :
  md5_stream BigEndian wild_md5 [[97]; []; [98; 99]] = md5_rfc [97; 98; 99].
Proof.
  apply (md5_correct BigEndian wild_md5 [[97]; []; [98; 99]]); [reflexivity|].
  repeat constructor; lia.
Defined.
