(* ===== verification/Hmac.v ===== *)
(** * HMAC

    Model of [pjlib-util/src/pjlib-util/hmac_sha1.c] and [hmac_md5.c].  The two
    files are one algorithm over two digests: the functions are written once
    against the class [Digest], what an incremental digest promises its
    clients, and instantiated for [sha1.c] and [md5.c].  The theorem is that a
    context fed in any pieces gives the HMAC of RFC 2104. *)

From Stdlib Require Import ZArith Lia Bool.
From stdpp Require Import base list numbers.
From S2P Require Import Prelude.
From S2P Require Import Words.
From S2P Require Import Blocks.
From S2P Require Import Sha1.
From S2P Require Import Md5.
Local Open Scope Z_scope.

(** An incremental digest: a context is set up in memory that holds anything of
    the right size, takes in pieces, and gives the hash of their
    concatenation. *)
Class Digest (C : Type) := {
  dg_init : C -> C;
  dg_update : C -> list Z -> C;
  dg_final : C -> C * list Z;
  dg_size : nat;
  dg_limit : Z;
  dg_memory : C -> Prop;
  dg_hash : list Z -> list Z;
  dg_limit_block : 64 < dg_limit;
  dg_size_block : (dg_size < 64)%nat;
  dg_hash_bytes : forall m, bytes_ok (dg_hash m);
  dg_hash_size : forall m, length (dg_hash m) = dg_size;
  dg_final_memory : forall c, dg_memory (fst (dg_final c));
  dg_final_hash : forall c pieces, dg_memory c -> Forall (piece_ok dg_limit) pieces ->
    snd (dg_final (fold_left dg_update pieces (dg_init c))) = dg_hash (concat pieces)
}.

(** ** The algorithm *)

Section Hmac.
Context {C : Type} `{D : Digest C}.

Record hmac_context := mk_hmac { hm_context : C; hm_opad : list Z }.

(** A key of more than a block is replaced by its digest; [tctx] is the
    memory of the local context. *)
Definition hmac_key (tctx : C) (key : list Z) : list Z :=
  if (64 <? length key)%nat then snd (dg_final (dg_update (dg_init tctx) key)) else key.

Definition xor_pad (pad : Z) (block : list Z) : list Z := map (fun b => Z.lxor b pad) block.

Definition hmac_init (hctx : hmac_context) (tctx : C) (key : list Z) : hmac_context :=
  let key := hmac_key tctx key in
  let block := splice (replicate 64 0) 0 key in
  mk_hmac (dg_update (dg_init (hm_context hctx)) (xor_pad 0x36 block)) (xor_pad 0x5c block).

Definition hmac_update (hctx : hmac_context) (input : list Z) : hmac_context :=
  mk_hmac (dg_update (hm_context hctx) input) (hm_opad hctx).

Definition hmac_final (hctx : hmac_context) : hmac_context * list Z :=
  let '(ctx, digest) := dg_final (hm_context hctx) in
  let ctx := dg_update (dg_update (dg_init ctx) (hm_opad hctx)) digest in
  let '(ctx, digest) := dg_final ctx in
  (mk_hmac ctx (hm_opad hctx), digest).

(** ** RFC 2104 *)

Definition hmac_spec (key text : list Z) : list Z :=
  let k0 := if (64 <? length key)%nat then dg_hash key else key in
  let k := k0 ++ replicate (64 - length k0) 0 in
  dg_hash (xor_pad 0x5c k ++ dg_hash (xor_pad 0x36 k ++ text)).

(** ** Correctness *)

Lemma hmac_key_spec tctx key : dg_memory tctx -> piece_ok dg_limit key ->
  hmac_key tctx key = (if (64 <? length key)%nat then dg_hash key else key)
  /\ bytes_ok (hmac_key tctx key) /\ (length (hmac_key tctx key) <= 64)%nat.
Proof.
  intros Hm Hk. unfold hmac_key. destruct (Nat.ltb_spec 64 (length key)) as [Hgt|Hle].
  - pose proof (dg_final_hash tctx [key] Hm ltac:(by constructor)) as E.
    cbn [fold_left concat] in E. rewrite app_nil_r in E. rewrite E.
    split; [reflexivity|]. split; [apply dg_hash_bytes|]. rewrite dg_hash_size.
    pose proof dg_size_block. lia.
  - split; [reflexivity|]. split; [apply Hk|lia].
Qed.

Lemma xor_pad_ok pad block : is_u8 pad -> bytes_ok block -> bytes_ok (xor_pad pad block).
Proof.
  intros Hp Hb. apply Forall_map. eapply list.Forall_impl; [exact Hb|].
  intros b Hb'. by apply u8_lxor.
Qed.

Lemma pad_block k : (length k <= 64)%nat ->
  splice (replicate 64 0) 0 k = k ++ replicate (64 - length k) 0.
Proof.
  intros Hk. unfold splice. rewrite take_0, app_nil_l, drop_replicate. f_equal.
Qed.

Lemma pad_piece pad k : is_u8 pad -> bytes_ok k -> (length k <= 64)%nat ->
  piece_ok dg_limit (xor_pad pad (k ++ replicate (64 - length k) 0)).
Proof.
  intros Hp Hk Hl. split.
  - apply xor_pad_ok; [exact Hp|]. apply Forall_app; split; [exact Hk|apply replicate_bytes].
  - unfold xor_pad. rewrite length_map, length_app, length_replicate. pose proof dg_limit_block. lia.
Qed.

Lemma fold_hmac_update pieces : forall h,
  fold_left hmac_update pieces h = mk_hmac (fold_left dg_update pieces (hm_context h)) (hm_opad h).
Proof.
  induction pieces as [|p pieces IH]; intros h; [by destruct h|]. cbn [fold_left]. by rewrite IH.
Qed.

(** A context fed in any pieces gives the HMAC of the RFC. *)
Lemma hmac_stream hctx tctx key pieces :
  dg_memory (hm_context hctx) -> dg_memory tctx ->
  piece_ok dg_limit key -> Forall (piece_ok dg_limit) pieces ->
  snd (hmac_final (fold_left hmac_update pieces (hmac_init hctx tctx key)))
  = hmac_spec key (concat pieces).
Proof.
  intros Hc Ht Hk Hp. destruct (hmac_key_spec tctx key Ht Hk) as (Ek & Hkb & Hkl).
  unfold hmac_init, hmac_spec. rewrite <- Ek. set (k := hmac_key tctx key) in *. clearbody k.
  rewrite pad_block by exact Hkl. set (b := k ++ replicate (64 - length k) 0).
  assert (Hi : piece_ok dg_limit (xor_pad 0x36 b)) by (apply pad_piece; [unfold is_u8; lia|done..]).
  assert (Ho : piece_ok dg_limit (xor_pad 0x5c b)) by (apply pad_piece; [unfold is_u8; lia|done..]).
  rewrite fold_hmac_update. cbn [hm_context hm_opad]. unfold hmac_final. cbn [hm_context hm_opad].
  pose proof (dg_final_hash (hm_context hctx) (xor_pad 0x36 b :: pieces) Hc ltac:(by constructor)) as E1.
  cbn [fold_left concat] in E1. set (inner := fold_left dg_update pieces _) in *.
  pose proof (dg_final_memory inner) as Hm1.
  destruct (dg_final inner) as [ctx1 digest1]. cbn [fst snd] in E1, Hm1.
  assert (Hd : piece_ok dg_limit digest1).
  { rewrite E1. split; [apply dg_hash_bytes|]. rewrite dg_hash_size.
    pose proof dg_size_block. pose proof dg_limit_block. lia. }
  pose proof (dg_final_hash ctx1 [xor_pad 0x5c b; digest1] Hm1
                ltac:(constructor; [exact Ho|constructor; [exact Hd|constructor]])) as E2.
  cbn [fold_left concat] in E2. rewrite app_nil_r in E2.
  destruct (dg_final _) as [ctx2 digest2]. cbn [snd] in *. by rewrite E2, E1.
Qed.
End Hmac.

Arguments hmac_context C : clear implicits.
Arguments mk_hmac {C}.

(** ** The two digests *)

Lemma state_bytes_ok s : regs_ok s -> bytes_ok (state_bytes s) /\ length (state_bytes s) = 20%nat.
Proof.
  intros (Ha & Hb & Hc & Hd & He). split; [|reflexivity].
  apply (from_words_bytes BigEndian [va s; vb s; vc s; vd s; ve s]). by repeat (constructor; [assumption|]).
Qed.

Lemma mregs_bytes_ok s : mregs_ok s -> bytes_ok (mregs_bytes s) /\ length (mregs_bytes s) = 16%nat.
Proof.
  intros (Ha & Hb & Hc & Hd). split; [|reflexivity].
  apply (from_words_bytes LittleEndian [wa s; wb s; wc s; wd s]). by repeat (constructor; [assumption|]).
Qed.

Lemma sha1_fips_ok m : bytes_ok (sha1_fips m) /\ length (sha1_fips m) = 20%nat.
Proof. apply state_bytes_ok, run_ok, H0_ok. Qed.

Lemma md5_rfc_ok m : bytes_ok (md5_rfc m) /\ length (md5_rfc m) = 16%nat.
Proof. apply mregs_bytes_ok, md5_run_ok, md5_H0_ok. Qed.

#[export, refine] Instance sha1_digest (e : endianness) : Digest pj_sha1_context := {
  dg_init := pj_sha1_init;
  dg_update := pj_sha1_update e;
  dg_final := pj_sha1_final e;
  dg_size := 20;
  dg_limit := 2 ^ 29;
  dg_memory := fun c => length (sha_buffer c) = 64%nat;
  dg_hash := sha1_fips
}.
Proof.
  - lia.
  - lia.
  - intros m. apply sha1_fips_ok.
  - intros m. apply sha1_fips_ok.
  - reflexivity.
  - intros c pieces Hc Hp. apply sha1_final_spec.
    apply (sha1_fold_holds e pieces _ []); [by apply sha1_init_holds|exact Hp].
Defined.

Lemma md5_final_wipes e c : md_in (fst (pj_md5_final e c)) = replicate 64 0.
Proof. unfold pj_md5_final. destruct (if (_ <? 8)%nat then _ else _) as [buf input]. reflexivity. Qed.

#[export, refine] Instance md5_digest (e : endianness) : Digest pj_md5_context := {
  dg_init := pj_md5_init;
  dg_update := pj_md5_update e;
  dg_final := pj_md5_final e;
  dg_size := 16;
  dg_limit := 2 ^ 32;
  dg_memory := fun c => length (md_in c) = 64%nat;
  dg_hash := md5_rfc
}.
Proof.
  - lia.
  - lia.
  - intros m. apply md5_rfc_ok.
  - intros m. apply md5_rfc_ok.
  - intros c. by rewrite md5_final_wipes.
  - intros c pieces Hc Hp. apply md5_final_spec.
    apply (md5_fold_holds e pieces _ []); [by apply md5_init_holds|exact Hp].
Defined.

(** ** The API *)

Definition pj_hmac_sha1_init (e : endianness) := @hmac_init _ (sha1_digest e).
Definition pj_hmac_sha1_update (e : endianness) := @hmac_update _ (sha1_digest e).
Definition pj_hmac_sha1_final (e : endianness) := @hmac_final _ (sha1_digest e).
Definition pj_hmac_md5_init (e : endianness) := @hmac_init _ (md5_digest e).
Definition pj_hmac_md5_update (e : endianness) := @hmac_update _ (md5_digest e).
Definition pj_hmac_md5_final (e : endianness) := @hmac_final _ (md5_digest e).

(** The one-off functions; the local contexts hold anything. *)
Definition pj_hmac_sha1 (e : endianness) (hctx : hmac_context pj_sha1_context)
    (tctx : pj_sha1_context) (input key : list Z) : list Z :=
  snd (pj_hmac_sha1_final e (pj_hmac_sha1_update e (pj_hmac_sha1_init e hctx tctx key) input)).
Definition pj_hmac_md5 (e : endianness) (hctx : hmac_context pj_md5_context)
    (tctx : pj_md5_context) (input key : list Z) : list Z :=
  snd (pj_hmac_md5_final e (pj_hmac_md5_update e (pj_hmac_md5_init e hctx tctx key) input)).

Definition wild_hmac_sha1 := mk_hmac wild_sha1 [].
Definition wild_hmac_md5 := mk_hmac wild_md5 [].

(** The second test cases of RFC 2202. *)
Lemma hmac_test_cases :
  let key := [74; 101; 102; 101] in
  let text := [119; 104; 97; 116; 32; 100; 111; 32; 121; 97; 32; 119; 97; 110; 116; 32; 102; 111;
               114; 32; 110; 111; 116; 104; 105; 110; 103; 63] in
  pj_hmac_sha1 LittleEndian wild_hmac_sha1 wild_sha1 text key
  = [0xef; 0xfc; 0xdf; 0x6a; 0xe5; 0xeb; 0x2f; 0xa2; 0xd2; 0x74;
     0x16; 0xd5; 0xf1; 0x84; 0xdf; 0x9c; 0x25; 0x9a; 0x7c; 0x79]
  /\ pj_hmac_md5 LittleEndian wild_hmac_md5 wild_md5 text key
     = [0x75; 0x0c; 0x78; 0x3e; 0x6a; 0xb0; 0xb5; 0x03; 0xea; 0xa8; 0x6e; 0x31; 0x0a; 0x5d; 0xb7; 0x38].
Proof. by vm_compute. Qed.

(** C21. The message authentication code the incremental functions compute for
    any key and any pieces is the HMAC-SHA1 of RFC 2104 over FIPS 180. *)
Theorem hmac_sha1_correct e hctx tctx key pieces :
  length (sha_buffer (hm_context hctx)) = 64%nat -> length (sha_buffer tctx) = 64%nat ->
  piece_ok (2 ^ 29) key -> Forall (piece_ok (2 ^ 29)) pieces ->
  snd (pj_hmac_sha1_final e
         (fold_left (pj_hmac_sha1_update e) pieces (pj_hmac_sha1_init e hctx tctx key)))
  = @hmac_spec _ (sha1_digest e) key (concat pieces).
Proof. apply (@hmac_stream _ (sha1_digest e)). Qed.

Lemma hmac_sha1_correct_witness :
  snd (pj_hmac_sha1_final LittleEndian
         (fold_left (pj_hmac_sha1_update LittleEndian) [[1; 2]; [3]]
            (pj_hmac_sha1_init LittleEndian wild_hmac_sha1 wild_sha1 (replicate 70 7))))
  = @hmac_spec _ (sha1_digest LittleEndian) (replicate 70 7) [1; 2; 3].
Proof.
  apply (hmac_sha1_correct LittleEndian wild_hmac_sha1 wild_sha1 (replicate 70 7) [[1; 2]; [3]]);
    [reflexivity|reflexivity| |].
  - split; [apply Forall_replicate; unfold is_u8; lia|rewrite length_replicate; lia].
  - repeat constructor; lia.
Defined.

(** The same of HMAC-MD5. *)
Theorem hmac_md5_correct e hctx tctx key pieces :
  length (md_in (hm_context hctx)) = 64%nat -> length (md_in tctx) = 64%nat ->
  piece_ok (2 ^ 32) key -> Forall (piece_ok (2 ^ 32)) pieces ->
  snd (pj_hmac_md5_final e
         (fold_left (pj_hmac_md5_update e) pieces (pj_hmac_md5_init e hctx tctx key)))
  = @hmac_spec _ (md5_digest e) key (concat pieces).
Proof. apply (@hmac_stream _ (md5_digest e)). Qed.
