(* ===== verification/StunMsg.v ===== *)
(** * STUN messages

    The data model of [pjnath/src/pjnath/stun_msg.c]: messages and attributes,
    the descriptor tables, the functions that create attributes, messages and
    responses, and the table of error reasons.  A socket address is its
    family, its port in host order and its address bytes in network order; an
    attribute is the C struct its descriptor makes of it. *)

From Stdlib Require Import ZArith Lia Bool String.
From stdpp Require Import base list numbers.
From S2P Require Import Prelude.
From S2P Require Import PjString.
From S2P Require Import Words.
From S2P Require Import Blocks.
Local Open Scope Z_scope.

(** ** Constants (stun_msg.h, pjnath/errno.h, pjnath/config.h) *)

Definition PJ_STUN_MAGIC : Z := 0x2112A442.
Definition PJ_STUN_MAX_ATTR : Z := 16.
Definition STUN_XOR_FINGERPRINT : Z := 0x5354554e.
Definition PJ_STUN_ATTR_MESSAGE_INTEGRITY : Z := 0x0008.
Definition PJ_STUN_ATTR_ERROR_CODE : Z := 0x0009.
Definition PJ_STUN_ATTR_UNKNOWN_ATTRIBUTES : Z := 0x000A.
Definition PJ_STUN_ATTR_END_MANDATORY_ATTR : Z := 0x0031.
Definition PJ_STUN_ATTR_START_EXTENDED_ATTR : Z := 0x8021.
Definition PJ_STUN_ATTR_SOFTWARE : Z := 0x8022.
Definition PJ_STUN_ATTR_FINGERPRINT : Z := 0x8028.
Definition PJ_STUN_ATTR_END_EXTENDED_ATTR : Z := 0x802b.

Definition PJ_STUN_SC_BAD_REQUEST : Z := 400.
Definition PJ_STUN_SC_UNKNOWN_ATTRIBUTE : Z := 420.
Definition PJ_STUN_SC_SERVER_ERROR : Z := 500.

Definition PJNATH_ERRNO_START : Z := 370000.
Definition PJNATH_EINSTUNMSGLEN : pj_status_t := PJNATH_ERRNO_START + 2.
Definition PJNATH_EINSTUNMSGTYPE : pj_status_t := PJNATH_ERRNO_START + 3.
Definition PJNATH_ESTUNTOOMANYATTR : pj_status_t := PJNATH_ERRNO_START + 21.
Definition PJNATH_ESTUNINATTRLEN : pj_status_t := PJNATH_ERRNO_START + 22.
Definition PJNATH_ESTUNDUPATTR : pj_status_t := PJNATH_ERRNO_START + 23.
Definition PJNATH_ESTUNFINGERPRINT : pj_status_t := PJNATH_ERRNO_START + 30.
Definition PJNATH_ESTUNMSGINTPOS : pj_status_t := PJNATH_ERRNO_START + 31.
Definition PJNATH_ESTUNFINGERPOS : pj_status_t := PJNATH_ERRNO_START + 33.
Definition PJNATH_EINVAF : pj_status_t := PJNATH_ERRNO_START + 42.
Definition PJ_STATUS_FROM_STUN_CODE (code : Z) : pj_status_t := PJNATH_ERRNO_START + code.

Definition PJ_STUN_IS_REQUEST (t : Z) : bool := Z.land t 0x0110 =? 0.
Definition PJ_STUN_IS_SUCCESS_RESPONSE (t : Z) : bool := Z.land t 0x0110 =? 0x0100.
Definition PJ_STUN_IS_ERROR_RESPONSE (t : Z) : bool := Z.land t 0x0110 =? 0x0110.
Definition PJ_STUN_IS_INDICATION (t : Z) : bool := Z.land t 0x0110 =? 0x0010.
Definition PJ_STUN_GET_METHOD (t : Z) : Z := Z.land t 0xFEEF.

(** ** Messages *)

Inductive pj_sockaddr :=
  | Ipv4 (port : Z) (addr : list Z)
  | Ipv6 (port : Z) (addr : list Z)
  | OtherFamily (family : Z).

Record pj_stun_attr_hdr := mk_ahdr { ah_type : Z; ah_length : Z }.

(** [attr_count] and [attrs] of an unknown-attributes attribute are one list;
    [length] and [data] of a binary attribute likewise. *)
Inductive stun_attr :=
  | SockaddrAttr (h : pj_stun_attr_hdr) (xor_ed : bool) (addr : pj_sockaddr)
  | StringAttr (h : pj_stun_attr_hdr) (value : pj_str)
  | EmptyAttr (h : pj_stun_attr_hdr)
  | UintAttr (h : pj_stun_attr_hdr) (value : Z)
  | Uint64Attr (h : pj_stun_attr_hdr) (hi lo : Z)
  | MsgintAttr (h : pj_stun_attr_hdr) (hmac : list Z)
  | ErrcodeAttr (h : pj_stun_attr_hdr) (err_code : Z) (reason : pj_str)
  | UnknownAttr (h : pj_stun_attr_hdr) (attrs : list Z)
  | BinaryAttr (h : pj_stun_attr_hdr) (magic : Z) (data : list Z).

Definition attr_hdr (a : stun_attr) : pj_stun_attr_hdr :=
  match a with
  | SockaddrAttr h _ _ | StringAttr h _ | EmptyAttr h | UintAttr h _ | Uint64Attr h _ _
  | MsgintAttr h _ | ErrcodeAttr h _ _ | UnknownAttr h _ | BinaryAttr h _ _ => h
  end.
Definition attr_type (a : stun_attr) : Z := ah_type (attr_hdr a).

Record pj_stun_msg_hdr := mk_mhdr { mh_type : Z; mh_length : Z; mh_magic : Z; mh_tsx_id : list Z }.
Record pj_stun_msg := mk_msg { msg_hdr : pj_stun_msg_hdr; msg_attr : list stun_attr }.

(** ** Descriptors *)

Inductive attr_kind :=
  | KSockaddr | KXoredSockaddr | KString | KEmpty | KUint | KUint64
  | KMsgint | KErrcode | KUnknown | KBinary.
Record attr_desc := mk_desc { desc_name : string; desc_kind : attr_kind }.

Definition mandatory_attr_desc : list (option attr_desc) := [
  None;
  Some (mk_desc "MAPPED-ADDRESS" KSockaddr);
  Some (mk_desc "RESPONSE-ADDRESS" KSockaddr);
  Some (mk_desc "CHANGE-REQUEST" KUint);
  Some (mk_desc "SOURCE-ADDRESS" KSockaddr);
  Some (mk_desc "CHANGED-ADDRESS" KSockaddr);
  Some (mk_desc "USERNAME" KString);
  Some (mk_desc "PASSWORD" KString);
  Some (mk_desc "MESSAGE-INTEGRITY" KMsgint);
  Some (mk_desc "ERROR-CODE" KErrcode);
  Some (mk_desc "UNKNOWN-ATTRIBUTES" KUnknown);
  Some (mk_desc "REFLECTED-FROM" KSockaddr);
  Some (mk_desc "CHANNEL-NUMBER" KUint);
  Some (mk_desc "LIFETIME" KUint);
  None;
  Some (mk_desc "MAGIC-COOKIE" KUint);
  Some (mk_desc "BANDWIDTH" KUint);
  None;
  Some (mk_desc "XOR-PEER-ADDRESS" KXoredSockaddr);
  Some (mk_desc "DATA" KBinary);
  Some (mk_desc "REALM" KString);
  Some (mk_desc "NONCE" KString);
  Some (mk_desc "XOR-RELAYED-ADDRESS" KXoredSockaddr);
  Some (mk_desc "REQUESTED-ADDRESS-TYPE" KUint);
  Some (mk_desc "EVEN-PORT" KUint);
  Some (mk_desc "REQUESTED-TRANSPORT" KUint);
  Some (mk_desc "DONT-FRAGMENT" KEmpty);
  None;
  None;
  None;
  None;
  None;
  Some (mk_desc "XOR-MAPPED-ADDRESS" KXoredSockaddr);
  Some (mk_desc "TIMER-VAL" KUint);
  Some (mk_desc "RESERVATION-TOKEN" KUint64);
  Some (mk_desc "XOR-REFLECTED-FROM" KXoredSockaddr);
  Some (mk_desc "PRIORITY" KUint);
  Some (mk_desc "USE-CANDIDATE" KEmpty);
  None;
  None;
  None;
  None;
  None;
  None;
  None;
  None;
  None;
  None;
  Some (mk_desc "ICMP" KUint);
  None].

Definition extended_attr_desc : list (option attr_desc) := [
  None;
  Some (mk_desc "SOFTWARE" KString);
  Some (mk_desc "ALTERNATE-SERVER" KSockaddr);
  Some (mk_desc "REFRESH-INTERVAL" KUint);
  None;
  None;
  None;
  Some (mk_desc "FINGERPRINT" KUint);
  Some (mk_desc "ICE-CONTROLLED" KUint64);
  Some (mk_desc "ICE-CONTROLLING" KUint64)].

Definition find_attr_desc (attr_type : Z) : option attr_desc :=
  if attr_type <? PJ_STUN_ATTR_END_MANDATORY_ATTR
  then default None (mandatory_attr_desc !! Z.to_nat attr_type)
  else if (attr_type >=? PJ_STUN_ATTR_START_EXTENDED_ATTR)
          && (attr_type <? PJ_STUN_ATTR_END_EXTENDED_ATTR)
  then default None (extended_attr_desc !! Z.to_nat (attr_type - PJ_STUN_ATTR_START_EXTENDED_ATTR))
  else None.

(** The sizes the assertions of [find_attr_desc] ask for. *)
Lemma desc_tables_sized :
  Z.of_nat (length mandatory_attr_desc) = PJ_STUN_ATTR_END_MANDATORY_ATTR + 1
  /\ Z.of_nat (length extended_attr_desc)
     = PJ_STUN_ATTR_END_EXTENDED_ATTR - PJ_STUN_ATTR_START_EXTENDED_ATTR.
Proof. done. Qed.

(** ** Names *)

Definition stun_method_names : list string :=
  ["Unknown"; "Binding"; "SharedSecret"; "Allocate"; "Refresh"; "???"; "Send"; "Data";
   "CreatePermission"; "ChannelBind"]%string.

Definition pj_stun_get_method_name (msg_type : Z) : string :=
  default "???"%string (stun_method_names !! Z.to_nat (PJ_STUN_GET_METHOD msg_type)).

Definition pj_stun_get_class_name (msg_type : Z) : string :=
  (if PJ_STUN_IS_REQUEST msg_type then "request"
   else if PJ_STUN_IS_SUCCESS_RESPONSE msg_type then "success response"
   else if PJ_STUN_IS_ERROR_RESPONSE msg_type then "error response"
   else if PJ_STUN_IS_INDICATION msg_type then "indication"
   else "???")%string.

Definition pj_stun_get_attr_name (attr_type : Z) : string :=
  match find_attr_desc attr_type with Some d => desc_name d | None => "???"%string end.

(** ** Reasons of errors *)

Definition stun_err_msg_map : list (Z * string) :=
  [(300, "Try Alternate"); (400, "Bad Request"); (401, "Unauthorized"); (403, "Forbidden");
   (420, "Unknown Attribute"); (437, "Allocation Mismatch"); (438, "Stale Nonce");
   (439, "Active Destination Already Set"); (441, "Wrong Credentials");
   (442, "Unsupported Transport Protocol"); (445, "Operation for TCP Only");
   (446, "Connection Failure"); (447, "Connection Timeout"); (486, "Allocation Quota Reached");
   (487, "Role Conflict"); (500, "Server Error"); (508, "Insufficient Capacity");
   (600, "Global Failure")]%string.

(** The binary search.  [None] is a read behind the table. *)
Fixpoint reason_search (fuel : nat) (err_code : Z) (first n : nat) : option nat :=
  match fuel with
  | O => None
  | S fuel =>
      if (n =? 0)%nat then Some first
      else
        let half := (n / 2)%nat in
        let mid := (first + half)%nat in
        match stun_err_msg_map !! mid with
        | None => None
        | Some (c, _) =>
            if c <? err_code then reason_search fuel err_code (S mid) (n - S half)
            else if c >? err_code then reason_search fuel err_code first half
            else Some mid
        end
  end.

(** The reason, empty when the code is not in the table; [None] when the last
    test reads behind the table. *)
Definition pj_stun_get_err_reason (err_code : Z) : option pj_str :=
  match reason_search 6 err_code 0 (length stun_err_msg_map) with
  | None => None
  | Some first =>
      match stun_err_msg_map !! first with
      | None => None
      | Some (c, m) => Some (if c =? err_code then cstr m else [])
      end
  end.

(** ** Attributes *)

Definition INIT_ATTR (t l : Z) : pj_stun_attr_hdr := mk_ahdr (u16 t) (u16 l).

(** [pj_sockaddr_get_addr_len], of an address of one of the two families. *)
Definition addr_len (a : pj_sockaddr) : Z :=
  match a with Ipv4 _ _ => 4 | Ipv6 _ _ => 16 | OtherFamily _ => 0 end.

Definition pj_stun_sockaddr_attr_create (t : Z) (xor_ed : bool) (a : pj_sockaddr) : stun_attr :=
  SockaddrAttr (INIT_ATTR t (addr_len a + 4)) xor_ed a.
Definition pj_stun_string_attr_create (t : Z) (value : pj_str) : stun_attr :=
  StringAttr (INIT_ATTR t (Z.of_nat (length value))) value.
Definition pj_stun_empty_attr_create (t : Z) : stun_attr := EmptyAttr (INIT_ATTR t 0).
Definition pj_stun_uint_attr_create (t value : Z) : stun_attr := UintAttr (INIT_ATTR t 4) value.
Definition pj_stun_uint64_attr_create (t hi lo : Z) : stun_attr := Uint64Attr (INIT_ATTR t 8) hi lo.
Definition pj_stun_msgint_attr_create : stun_attr :=
  MsgintAttr (INIT_ATTR PJ_STUN_ATTR_MESSAGE_INTEGRITY 20) (replicate 20 0).
Definition pj_stun_binary_attr_create (t : Z) (data : list Z) : stun_attr :=
  BinaryAttr (INIT_ATTR t (Z.of_nat (length data))) PJ_STUN_MAGIC data.

(** "%d" of an [int]. *)
Definition print_int (z : Z) : pj_str := if z <? 0 then cstr "-" ++ pj_utoa (- z) else pj_utoa z.

(** [None]: the reason is looked up behind the table. *)
Definition pj_stun_errcode_attr_create (err_code : Z) (err_reason : option pj_str)
    : option (pj_status_t * option stun_attr) :=
  if err_code =? 0 then Some (PJ_EINVAL, None)
  else
    let reason :=
      match err_reason with
      | Some r => Some r
      | None =>
          match pj_stun_get_err_reason err_code with
          | None => None
          | Some [] => Some (cstr "Unknown error " ++ print_int err_code)
          | Some r => Some r
          end
      end in
    match reason with
    | None => None
    | Some r =>
        Some (PJ_SUCCESS,
              Some (ErrcodeAttr (INIT_ATTR PJ_STUN_ATTR_ERROR_CODE (4 + Z.of_nat (length r)))
                      err_code r))
    end.

Definition pj_stun_unknown_attr_create (attrs : list Z) : pj_status_t * option stun_attr :=
  let cnt := Z.of_nat (length attrs) in
  if cnt <? PJ_STUN_MAX_ATTR
  then (PJ_SUCCESS, Some (UnknownAttr (INIT_ATTR PJ_STUN_ATTR_UNKNOWN_ATTRIBUTES (cnt * 2)) attrs))
  else (PJ_EINVAL, None).

(** ** Messages *)

(** The transaction id made from process id, random number and counter: words
    of a little-endian machine.  The static counter starts at a random number. *)
Definition new_tsx_id (counter seed pid random : Z) : list Z * Z :=
  let counter := if counter =? 0 then seed else counter in
  (from_words LittleEndian [pid; random; counter], u32 (counter + 1)).

Definition pj_stun_msg_init (msg_type magic : Z) (tsx_id : list Z) : pj_status_t * option pj_stun_msg :=
  if msg_type =? 0 then (PJ_EINVAL, None)
  else (PJ_SUCCESS, Some (mk_msg (mk_mhdr (u16 msg_type) 0 magic tsx_id) [])).
Definition pj_stun_msg_create := pj_stun_msg_init.

Definition pj_stun_msg_add_attr (msg : pj_stun_msg) (a : stun_attr) : pj_status_t * pj_stun_msg :=
  if Z.of_nat (length (msg_attr msg)) <? PJ_STUN_MAX_ATTR
  then (PJ_SUCCESS, mk_msg (msg_hdr msg) (msg_attr msg ++ [a]))
  else (PJ_ETOOMANY, msg).

Definition pj_stun_msg_add_errcode_attr (msg : pj_stun_msg) (err_code : Z) (reason : option pj_str)
    : option (pj_status_t * pj_stun_msg) :=
  match pj_stun_errcode_attr_create err_code reason with
  | None => None
  | Some (_, Some a) => Some (pj_stun_msg_add_attr msg a)
  | Some (st, None) => Some (st, msg)
  end.
Definition pj_stun_msg_add_unknown_attr (msg : pj_stun_msg) (attrs : list Z) : pj_status_t * pj_stun_msg :=
  match pj_stun_unknown_attr_create attrs with
  | (_, Some a) => pj_stun_msg_add_attr msg a
  | (st, None) => (st, msg)
  end.

(** The response to a request: an error response when [err_code] is not zero. *)
Definition pj_stun_msg_create_response (req : pj_stun_msg) (err_code : Z) (err_msg : option pj_str)
    : option (pj_status_t * option pj_stun_msg) :=
  let t := mh_type (msg_hdr req) in
  if negb (PJ_STUN_IS_REQUEST t) then Some (PJNATH_EINSTUNMSGTYPE, None)
  else
    let t := if err_code =? 0 then Z.lor t 0x0100 else Z.lor t 0x0110 in
    match pj_stun_msg_create t (mh_magic (msg_hdr req)) (mh_tsx_id (msg_hdr req)) with
    | (st, None) => Some (st, None)
    | (_, Some response) =>
        if err_code =? 0 then Some (PJ_SUCCESS, Some response)
        else
          match pj_stun_msg_add_errcode_attr response err_code err_msg with
          | None => None
          | Some (st, response) =>
              if st =? PJ_SUCCESS then Some (PJ_SUCCESS, Some response) else Some (st, None)
          end
    end.

Fixpoint find_attr_loop (attrs : list stun_attr) (t : Z) : option stun_attr :=
  match attrs with
  | [] => None
  | a :: attrs => if attr_type a =? t then Some a else find_attr_loop attrs t
  end.
Definition pj_stun_msg_find_attr (msg : pj_stun_msg) (t : Z) (index : nat) : option stun_attr :=
  find_attr_loop (drop index (msg_attr msg)) t.

(** ** The struct behind an attribute

    A message holds pointers to headers, and the code takes the struct from the
    descriptor of the type.  [has_kind] says that the struct is that one. *)
Definition has_kind (k : attr_kind) (a : stun_attr) : bool :=
  match k, a with
  | (KSockaddr | KXoredSockaddr), SockaddrAttr _ _ _ => true
  | KString, StringAttr _ _ => true
  | KEmpty, EmptyAttr _ => true
  | KUint, UintAttr _ _ => true
  | KUint64, Uint64Attr _ _ _ => true
  | KMsgint, MsgintAttr _ _ => true
  | KErrcode, ErrcodeAttr _ _ _ => true
  | KUnknown, UnknownAttr _ _ => true
  | KBinary, BinaryAttr _ _ _ => true
  | _, _ => false
  end.

(** A copy of an attribute has the same fields; an attribute of a type without
    descriptor is copied as a binary one if it carries the magic. *)
Definition pj_stun_attr_clone (a : stun_attr) : option stun_attr :=
  match find_attr_desc (attr_type a), a with
  | Some d, _ => if has_kind (desc_kind d) a then Some a else None
  | None, BinaryAttr _ magic _ => if magic =? PJ_STUN_MAGIC then Some a else None
  | None, _ => None
  end.
Definition pj_stun_msg_clone (src : pj_stun_msg) : pj_stun_msg :=
  mk_msg (msg_hdr src) (omap pj_stun_attr_clone (msg_attr src)).

(** ** The search for a reason *)

(** The table is sorted, and the search finds every code of it. *)
Lemma reason_found : forallb (fun cm =>
    match pj_stun_get_err_reason (fst cm) with
    | Some r => bool_decide (r = cstr (snd cm))
    | None => false
    end) stun_err_msg_map = true.
Proof. by vm_compute. Qed.

(** A code above the largest one of the table makes the last test read the
    entry behind the table, which does not exist. *)
Lemma reason_reads_behind c : 600 < c -> pj_stun_get_err_reason c = None.
Proof.
  intros Hc. unfold pj_stun_get_err_reason. cbn [length stun_err_msg_map].
  assert (E : forall k, k <= 600 -> (k <? c) = true) by (intros; lia).
  do 6 (cbn [reason_search Nat.eqb Nat.div Nat.divmod fst Nat.add lookup list_lookup stun_err_msg_map Nat.sub];
        rewrite ?E by lia).
  reflexivity.
Qed.
