(* ===== verification/StunCodec.v ===== *)
(** * Encoding and decoding STUN messages

    Model of the codec of [pjnath/src/pjnath/stun_msg.c]: the functions that
    decode and encode each kind of attribute, [pj_stun_msg_check],
    [pj_stun_msg_decode] and [pj_stun_msg_encode].  Memory is a list of bytes.
    A read outside it, and a copy of negative length, is the outcome [Wild] of
    a decoder; a write outside it is [Overrun] of an encoder; an attribute
    whose struct is not the one its type says is [BadCast].  The encoder keeps
    the bytes of the buffer that it does not write. *)

From Stdlib Require Import ZArith Lia Bool String.
From stdpp Require Import base list numbers.
From S2P Require Import Prelude.
From S2P Require Import PjString.
From S2P Require Import Words.
From S2P Require Import Blocks.
From S2P Require Import Crc32.
From S2P Require Import Sha1.
From S2P Require Import Hmac.
From S2P Require Import StunMsg.
Local Open Scope Z_scope.

Declare Scope stun_scope.
Delimit Scope stun_scope with stun.
Local Open Scope stun_scope.

(** ** Reading *)

Inductive res (A : Type) := Ok (a : A) | Err (st : pj_status_t) | Wild.
Arguments Ok {A}. Arguments Err {A}. Arguments Wild {A}.

Definition rbind {A B} (r : res A) (k : A -> res B) : res B :=
  match r with Ok a => k a | Err st => Err st | Wild => Wild end.
Notation "'let!' x ':=' e 'in' k" := (rbind e (fun x => k))
  (at level 10, x name, e at level 200, k at level 200) : stun_scope.

Definition get (buf : list Z) (pos : nat) : res Z :=
  match buf !! pos with Some b => Ok b | None => Wild end.

(** [memcpy] of [n] bytes from [buf + pos]. *)
Definition slice (buf : list Z) (pos n : nat) : res (list Z) :=
  if (pos + n <=? length buf)%nat then Ok (take n (drop pos buf)) else Wild.

Definition GETVAL16H (buf : list Z) (pos : nat) : res Z :=
  let! a := get buf pos in
  let! b := get buf (S pos) in
  Ok (u16 (Z.lor (Z.shiftl a 8) b)).

Definition GETVAL32H (buf : list Z) (pos : nat) : res Z :=
  let! a := get buf pos in
  let! b := get buf (S pos) in
  let! c := get buf (S (S pos)) in
  let! d := get buf (S (S (S pos))) in
  Ok (u32 (Z.lor (Z.lor (Z.lor (Z.shiftl a 24) (Z.shiftl b 16)) (Z.shiftl c 8)) d)).

Definition GETATTRHDR (buf : list Z) : res pj_stun_attr_hdr :=
  let! t := GETVAL16H buf 0 in
  let! l := GETVAL16H buf 2 in
  Ok (mk_ahdr t l).

(** ** Decoding attributes *)

Definition decode_sockaddr_attr (buf : list Z) : res (pj_stun_attr_hdr * pj_sockaddr) :=
  let! h := GETATTRHDR buf in
  if negb (ah_length h =? 8) && negb (ah_length h =? 20) then Err PJNATH_ESTUNINATTRLEN
  else
    let! val := get buf 5 in
    if val =? 1 then
      if negb (ah_length h =? 8) then Err PJNATH_ESTUNINATTRLEN
      else
        let! port := GETVAL16H buf 6 in
        let! addr := slice buf 8 4 in
        Ok (h, Ipv4 port addr)
    else if val =? 2 then
      if negb (ah_length h =? 20) then Err PJNATH_ESTUNINATTRLEN
      else
        let! port := GETVAL16H buf 6 in
        let! addr := slice buf 8 16 in
        Ok (h, Ipv6 port addr)
    else Err PJNATH_EINVAF.

(** The key of an address: the cookie, and for IPv6 the transaction id. *)
Definition xor_list (a b : list Z) : list Z := zip_with Z.lxor a b.
Definition magic_bytes : list Z := store32 BigEndian PJ_STUN_MAGIC.

Definition xor_addr (tsx_id : list Z) (a : pj_sockaddr) : pj_sockaddr :=
  match a with
  | Ipv4 port addr => Ipv4 (Z.lxor port (Z.shiftr PJ_STUN_MAGIC 16)) (xor_list addr magic_bytes)
  | Ipv6 port addr => Ipv6 (Z.lxor port (Z.shiftr PJ_STUN_MAGIC 16)) (xor_list addr (magic_bytes ++ tsx_id))
  | OtherFamily f => OtherFamily f
  end.

Definition decode_plain_sockaddr (buf : list Z) : res stun_attr :=
  let! ha := decode_sockaddr_attr buf in
  Ok (SockaddrAttr (fst ha) false (snd ha)).

Definition decode_xored_sockaddr_attr (buf : list Z) (mh : pj_stun_msg_hdr) : res stun_attr :=
  let! ha := decode_sockaddr_attr buf in
  match snd ha with
  | OtherFamily _ => Err PJNATH_EINVAF
  | a => Ok (SockaddrAttr (fst ha) true (xor_addr (mh_tsx_id mh) a))
  end.

Definition decode_string_attr (buf : list Z) : res stun_attr :=
  let! h := GETATTRHDR buf in
  let! value := slice buf 4 (Z.to_nat (ah_length h)) in
  Ok (StringAttr h value).

Definition decode_empty_attr (buf : list Z) : res stun_attr :=
  let! h := GETATTRHDR buf in
  if negb (ah_length h =? 0) then Err PJNATH_ESTUNINATTRLEN else Ok (EmptyAttr h).

(** The value is read before the length is checked. *)
Definition decode_uint_attr (buf : list Z) : res stun_attr :=
  let! h := GETATTRHDR buf in
  let! value := GETVAL32H buf 4 in
  if negb (ah_length h =? 4) then Err PJNATH_ESTUNINATTRLEN else Ok (UintAttr h value).

Definition decode_uint64_attr (buf : list Z) : res stun_attr :=
  let! h := GETATTRHDR buf in
  if negb (ah_length h =? 8) then Err PJNATH_ESTUNINATTRLEN
  else
    let! hi := GETVAL32H buf 4 in
    let! lo := GETVAL32H buf 8 in
    Ok (Uint64Attr h hi lo).

Definition decode_msgint_attr (buf : list Z) : res stun_attr :=
  let! h := GETATTRHDR buf in
  if negb (ah_length h =? 20) then Err PJNATH_ESTUNINATTRLEN
  else let! hmac := slice buf 4 20 in Ok (MsgintAttr h hmac).

(** The reason has [length - 4] bytes; a negative number of bytes is passed to
    [pj_strdup], which allocates and copies that many. *)
Definition decode_errcode_attr (buf : list Z) : res stun_attr :=
  let! h := GETATTRHDR buf in
  let! c := get buf 6 in
  let! n := get buf 7 in
  if ah_length h - 4 <? 0 then Wild
  else
    let! reason := slice buf 8 (Z.to_nat (ah_length h - 4)) in
    Ok (ErrcodeAttr h (c * 100 + n) reason).

(** [pj_ntohs(punk_attr[i])] for [n] values. *)
Fixpoint get_types (buf : list Z) (pos n : nat) : res (list Z) :=
  match n with
  | O => Ok []
  | S n =>
      let! t := GETVAL16H buf pos in
      let! ts := get_types buf (S (S pos)) n in
      Ok (t :: ts)
  end.

Definition decode_unknown_attr (buf : list Z) : res stun_attr :=
  let! h := GETATTRHDR buf in
  let attr_count := Z.shiftr (ah_length h) 1 in
  if attr_count >? PJ_STUN_MAX_ATTR then Err PJ_ETOOMANY
  else
    let! attrs := get_types buf 4 (Z.to_nat attr_count) in
    Ok (UnknownAttr h attrs).

(** The magic of the struct stays zero. *)
Definition decode_binary_attr (buf : list Z) : res stun_attr :=
  let! h := GETATTRHDR buf in
  let! data := slice buf 4 (Z.to_nat (ah_length h)) in
  Ok (BinaryAttr h 0 data).

Definition decode_attr (k : attr_kind) (buf : list Z) (mh : pj_stun_msg_hdr) : res stun_attr :=
  match k with
  | KSockaddr => decode_plain_sockaddr buf
  | KXoredSockaddr => decode_xored_sockaddr_attr buf mh
  | KString => decode_string_attr buf
  | KEmpty => decode_empty_attr buf
  | KUint => decode_uint_attr buf
  | KUint64 => decode_uint64_attr buf
  | KMsgint => decode_msgint_attr buf
  | KErrcode => decode_errcode_attr buf
  | KUnknown => decode_unknown_attr buf
  | KBinary => decode_binary_attr buf
  end.

(** [(n + 3) & ~3] on an unsigned number. *)
Definition align4 (n : Z) : Z := Z.land (u32 (n + 3)) 0xFFFFFFFC.

(** ** The environment of the codec

    The byte order, the configuration of the CRC, the address of the buffer and
    what the local digest contexts hold before they are set up. *)
Record stun_env := mk_env {
  env_endian : endianness;
  env_crc : crc_config;
  env_addr : Z;
  env_hctx : hmac_context pj_sha1_context;
  env_tctx : pj_sha1_context
}.

Definition fingerprint (env : stun_env) (bytes : list Z) : Z :=
  Z.lxor (pj_crc32_calc (env_crc env) (env_addr env) bytes) STUN_XOR_FINGERPRINT.

Definition message_mac (env : stun_env) (key bytes : list Z) : list Z :=
  let e := env_endian env in
  let ctx := pj_hmac_sha1_init e (env_hctx env) (env_tctx env) key in
  snd (pj_hmac_sha1_final e (pj_hmac_sha1_update e ctx bytes)).

(** ** Checking a packet *)

Definition PJ_STUN_IS_DATAGRAM : Z := 1.
Definition PJ_STUN_CHECK_PACKET : Z := 2.
Definition PJ_STUN_NO_FINGERPRINT_CHECK : Z := 8.

Definition pj_stun_msg_check (env : stun_env) (pdu : list Z) (pdu_len options : Z) : res pj_status_t :=
  if pdu_len <? 20 then Ok PJNATH_EINSTUNMSGLEN
  else
    let! first := get pdu 0 in
    if negb (first =? 0) && negb (first =? 1) then Ok PJNATH_EINSTUNMSGTYPE
    else
      let! msg_len := GETVAL16H pdu 2 in
      if (msg_len + 20 >? pdu_len)
         || (negb (Z.land options PJ_STUN_IS_DATAGRAM =? 0) && negb (msg_len + 20 =? pdu_len))
      then Ok PJNATH_EINSTUNMSGLEN
      else if negb (Z.land msg_len 3 =? 0) then Ok PJNATH_EINSTUNMSGLEN
      else
        let! magic := GETVAL32H pdu 4 in
        if negb (magic =? PJ_STUN_MAGIC) then Ok PJ_SUCCESS
        else if negb (Z.land options PJ_STUN_NO_FINGERPRINT_CHECK =? 0) then Ok PJ_SUCCESS
        else
          let at_fp := Z.to_nat (msg_len + 20 - 8) in
          let! t := GETVAL16H pdu at_fp in
          if negb (t =? PJ_STUN_ATTR_FINGERPRINT) then Ok PJ_SUCCESS
          else
            let! attr_len := GETVAL16H pdu (at_fp + 2) in
            let! fp := GETVAL32H pdu (at_fp + 4) in
            if negb (attr_len =? 4) then Ok PJNATH_ESTUNINATTRLEN
            else if fingerprint env (take at_fp pdu) =? fp then Ok PJ_SUCCESS
            else Ok PJNATH_ESTUNFINGERPRINT.

(** ** Decoding a message *)

(** What a call leaves in its result parameters. *)
Record decode_result := mk_dr {
  dr_status : pj_status_t;
  dr_msg : option pj_stun_msg;
  dr_parsed : Z;
  dr_response : option pj_stun_msg
}.

Section Decode.
(** [pj_strerror]: the text of a status, from the registered handlers. *)
Context (strerror : pj_status_t -> pj_str).

(** [return status] after [pj_stun_msg_create_response], when the caller wants
    a response and the message is a request. *)
Definition fail_with (want : bool) (msg : pj_stun_msg) (code : Z) (text : option pj_str)
    (st : pj_status_t) : res decode_result :=
  if want then
    match pj_stun_msg_create_response msg code text with
    | None => Wild
    | Some (_, r) => Ok (mk_dr st None 0 r)
    end
  else Ok (mk_dr st None 0 None).

Definition invalid_length_text (t : Z) : pj_str :=
  take 79 (cstr "Attribute " ++ cstr (pj_stun_get_attr_name t) ++ cstr " has invalid length").
Definition in_attr_text (st t : Z) : pj_str :=
  take 79 (strerror st ++ cstr " in " ++ cstr (pj_stun_get_attr_name t)).

Definition msg_add (msg : pj_stun_msg) (a : stun_attr) : pj_stun_msg :=
  mk_msg (msg_hdr msg) (msg_attr msg ++ [a]).
Definition msg_full (msg : pj_stun_msg) : bool :=
  Z.of_nat (length (msg_attr msg)) >=? PJ_STUN_MAX_ATTR.

Inductive attr_step :=
  | Added (msg : pj_stun_msg) (has_msg_int has_fingerprint : bool)
  | Stop (r : res decode_result).

(** An attribute without descriptor. *)
Definition unrecognized_attr (want : bool) (msg : pj_stun_msg) (t : Z) (pdu : list Z)
    (mi fp : bool) : attr_step :=
  if t <=? 0x7FFF then
    Stop (if want then
            match pj_stun_msg_create_response msg PJ_STUN_SC_UNKNOWN_ATTRIBUTE None with
            | None => Wild
            | Some (st, Some r) =>
                Ok (mk_dr (PJ_STATUS_FROM_STUN_CODE PJ_STUN_SC_UNKNOWN_ATTRIBUTE) None 0
                      (Some (snd (pj_stun_msg_add_unknown_attr r [u16 t]))))
            | Some (st, None) =>
                Ok (mk_dr (PJ_STATUS_FROM_STUN_CODE PJ_STUN_SC_UNKNOWN_ATTRIBUTE) None 0 None)
            end
          else Ok (mk_dr (PJ_STATUS_FROM_STUN_CODE PJ_STUN_SC_UNKNOWN_ATTRIBUTE) None 0 None))
  else if msg_full msg then
    Stop (fail_with want msg PJ_STUN_SC_SERVER_ERROR None PJNATH_ESTUNTOOMANYATTR)
  else
    match (let! l := GETVAL16H pdu 2 in slice pdu 4 (Z.to_nat l)) with
    | Ok data => Added (msg_add msg (pj_stun_binary_attr_create t data)) mi fp
    | Err st => Stop (Err st)
    | Wild => Stop Wild
    end.

(** Order of MESSAGE-INTEGRITY and FINGERPRINT: the new flags or an error. *)
Definition check_position (t : Z) (mi fp : bool) : (bool * bool) + pj_status_t :=
  if (t =? PJ_STUN_ATTR_MESSAGE_INTEGRITY) && negb fp then
    if mi then inr PJNATH_ESTUNDUPATTR else inl (true, fp)
  else if t =? PJ_STUN_ATTR_FINGERPRINT then
    if fp then inr PJNATH_ESTUNDUPATTR else inl (mi, true)
  else if fp then inr PJNATH_ESTUNFINGERPOS else inl (mi, fp).

(** An attribute with a descriptor. *)
Definition recognized_attr (want : bool) (msg : pj_stun_msg) (t : Z) (k : attr_kind)
    (pdu : list Z) (mi fp : bool) : attr_step :=
  match decode_attr k pdu (msg_hdr msg) with
  | Wild => Stop Wild
  | Err st => Stop (fail_with want msg PJ_STUN_SC_BAD_REQUEST (Some (in_attr_text st t)) st)
  | Ok a =>
      match check_position t mi fp with
      | inr st => Stop (fail_with want msg PJ_STUN_SC_BAD_REQUEST None st)
      | inl (mi, fp) =>
          if msg_full msg then
            Stop (fail_with want msg PJ_STUN_SC_SERVER_ERROR None PJNATH_ESTUNTOOMANYATTR)
          else Added (msg_add msg a) mi fp
      end
  end.

(** The loop over the attributes: [pdu] is the memory from the cursor,
    [pdu_len] the bytes of the message left, [used] the bytes consumed.
    [None] is a loop that has not ended. *)
Fixpoint decode_loop (fuel : nat) (want : bool) (msg : pj_stun_msg) (pdu : list Z) (pdu_len used : Z)
    (mi fp : bool) : option (res decode_result) :=
  match fuel with
  | O => None
  | S fuel =>
      if pdu_len <? 4 then
        Some (if pdu_len >? 0 then Ok (mk_dr PJNATH_EINSTUNMSGLEN None 0 None)
              else Ok (mk_dr PJ_SUCCESS (Some msg) used None))
      else
        match GETATTRHDR pdu with
        | Wild => Some Wild
        | Err st => Some (Err st)
        | Ok h =>
            let t := ah_type h in
            let attr_val_len := align4 (ah_length h) in
            if pdu_len <? attr_val_len then
              Some (fail_with want msg PJ_STUN_SC_BAD_REQUEST (Some (invalid_length_text t))
                      PJNATH_ESTUNINATTRLEN)
            else
              match (match find_attr_desc t with
                     | None => unrecognized_attr want msg t pdu mi fp
                     | Some d => recognized_attr want msg t (desc_kind d) pdu mi fp
                     end) with
              | Stop r => Some r
              | Added msg mi fp =>
                  if attr_val_len + 4 >=? pdu_len
                  then decode_loop fuel want msg (drop (Z.to_nat pdu_len) pdu) 0 (used + pdu_len) mi fp
                  else decode_loop fuel want msg (drop (Z.to_nat (attr_val_len + 4)) pdu)
                         (pdu_len - (attr_val_len + 4)) (used + (attr_val_len + 4)) mi fp
              end
        end
  end.

Definition read_hdr (pdu : list Z) : res pj_stun_msg_hdr :=
  let! t := GETVAL16H pdu 0 in
  let! l := GETVAL16H pdu 2 in
  let! m := GETVAL32H pdu 4 in
  let! id := slice pdu 8 12 in
  Ok (mk_mhdr t l m id).

(** [pdu] is the memory from the packet on, [pdu_len] the length given by the
    caller, [want] whether [p_response] is given. *)
Definition pj_stun_msg_decode (env : stun_env) (pdu : list Z) (pdu_len options : Z) (want : bool)
    : option (res decode_result) :=
  if pdu_len =? 0 then Some (Ok (mk_dr PJ_EINVAL None 0 None))
  else
    let parse :=
      match read_hdr pdu with
      | Wild => Some Wild
      | Err st => Some (Err st)
      | Ok h =>
          let want := want && PJ_STUN_IS_REQUEST (mh_type h) in
          decode_loop (S (Z.to_nat (mh_length h))) want (mk_msg h []) (drop 20 pdu) (mh_length h) 20
            false false
      end in
    if negb (Z.land options PJ_STUN_CHECK_PACKET =? 0) then
      match pj_stun_msg_check env pdu pdu_len options with
      | Ok st => if st =? PJ_SUCCESS then parse else Some (Ok (mk_dr st None 0 None))
      | Err st => Some (Err st)
      | Wild => Some Wild
      end
    else parse.
End Decode.

(** ** Encoding attributes *)

(** Status, buffer and bytes printed. *)
Inductive enc := Done (st : pj_status_t) (buf : list Z) (printed : Z) | Overrun | BadCast.

Definition write (buf : list Z) (pos : nat) (bytes : list Z) (k : list Z -> enc) : enc :=
  if (pos + length bytes <=? length buf)%nat then k (splice buf pos bytes) else Overrun.

(** The bytes [PUTVAL16H] and [PUTVAL32H] write. *)
Definition PUTVAL16H (v : Z) : list Z :=
  [u8 (Z.shiftr (Z.land v 0xFF00) 8); u8 (Z.land v 0x00FF)].
Definition PUTVAL32H (v : Z) : list Z :=
  [u8 (Z.shiftr (Z.land v 0xFF000000) 24); u8 (Z.shiftr (Z.land v 0x00FF0000) 16);
   u8 (Z.shiftr (Z.land v 0x0000FF00) 8); u8 (Z.land v 0x000000FF)].

Definition write_sockaddr (buf : list Z) (pos : nat) (len : Z) (attr_len family port : Z)
    (addr : list Z) : enc :=
  if len <? 4 + attr_len then Done PJ_ETOOSMALL buf 0
  else
    write buf (pos + 2) (PUTVAL16H attr_len) (fun buf =>
    write buf (pos + 4) [0; family] (fun buf =>
    write buf (pos + 6) (PUTVAL16H port) (fun buf =>
    write buf (pos + 8) addr (fun buf =>
    Done PJ_SUCCESS buf (4 + attr_len))))).

(** The type is written before the space is checked. *)
Definition encode_sockaddr_attr (h : pj_stun_attr_hdr) (xor_ed : bool) (a : pj_sockaddr)
    (buf : list Z) (pos : nat) (len : Z) (mh : pj_stun_msg_hdr) : enc :=
  write buf pos (PUTVAL16H (ah_type h)) (fun buf =>
  match (if xor_ed then xor_addr (mh_tsx_id mh) a else a) with
  | Ipv4 port addr => write_sockaddr buf pos len 8 1 port addr
  | Ipv6 port addr => write_sockaddr buf pos len 20 2 port addr
  | OtherFamily _ => Done PJNATH_EINVAF buf 0
  end).

(** [padding_char] is the character set by [pj_stun_set_padding_char]. *)
Definition encode_string_attr (padding_char : Z) (h : pj_stun_attr_hdr) (value : pj_str)
    (buf : list Z) (pos : nat) (len : Z) (mh : pj_stun_msg_hdr) : enc :=
  let slen := Z.of_nat (length value) in
  let printed := align4 (slen + 4) in
  if len <? printed then Done PJ_ETOOSMALL buf 0
  else
    write buf pos (PUTVAL16H (ah_type h)) (fun buf =>
    let l := if negb (mh_magic mh =? PJ_STUN_MAGIC) || (ah_type h =? PJ_STUN_ATTR_SOFTWARE)
             then u16 (align4 slen) else u16 slen in
    write buf (pos + 2) (PUTVAL16H l) (fun buf =>
    write buf (pos + 4) value (fun buf =>
    if Z.land slen 3 =? 0 then Done PJ_SUCCESS buf printed
    else
      write buf (pos + 4 + length value) (replicate (Z.to_nat (4 - Z.land slen 3)) (u8 padding_char))
        (fun buf => Done PJ_SUCCESS buf printed)))).

Definition encode_empty_attr (h : pj_stun_attr_hdr) (buf : list Z) (pos : nat) (len : Z) : enc :=
  if len <? 4 then Done PJ_ETOOSMALL buf 0
  else
    write buf pos (PUTVAL16H (ah_type h)) (fun buf =>
    write buf (pos + 2) (PUTVAL16H 0) (fun buf => Done PJ_SUCCESS buf 4)).

Definition encode_uint_attr (h : pj_stun_attr_hdr) (value : Z) (buf : list Z) (pos : nat) (len : Z) : enc :=
  if len <? 8 then Done PJ_ETOOSMALL buf 0
  else
    write buf pos (PUTVAL16H (ah_type h)) (fun buf =>
    write buf (pos + 2) (PUTVAL16H 4) (fun buf =>
    write buf (pos + 4) (PUTVAL32H value) (fun buf => Done PJ_SUCCESS buf 8))).

Definition encode_uint64_attr (h : pj_stun_attr_hdr) (hi lo : Z) (buf : list Z) (pos : nat) (len : Z) : enc :=
  if len <? 12 then Done PJ_ETOOSMALL buf 0
  else
    write buf pos (PUTVAL16H (ah_type h)) (fun buf =>
    write buf (pos + 2) (PUTVAL16H 8) (fun buf =>
    write buf (pos + 4) (PUTVAL32H hi) (fun buf =>
    write buf (pos + 8) (PUTVAL32H lo) (fun buf => Done PJ_SUCCESS buf 12)))).

Definition encode_msgint_attr (h : pj_stun_attr_hdr) (hmac : list Z) (buf : list Z) (pos : nat) (len : Z) : enc :=
  if len <? 24 then Done PJ_ETOOSMALL buf 0
  else
    write buf pos (PUTVAL16H (ah_type h)) (fun buf =>
    write buf (pos + 2) (PUTVAL16H (ah_length h)) (fun buf =>
    write buf (pos + 4) hmac (fun buf => Done PJ_SUCCESS buf 24))).

(** The space is checked without the padding that is counted as printed. *)
Definition encode_errcode_attr (h : pj_stun_attr_hdr) (err_code : Z) (reason : pj_str)
    (buf : list Z) (pos : nat) (len : Z) : enc :=
  let slen := Z.of_nat (length reason) in
  if len <? u32 (8 + slen) then Done PJ_ETOOSMALL buf 0
  else
    write buf pos (PUTVAL16H (ah_type h)) (fun buf =>
    write buf (pos + 2) (PUTVAL16H (u16 (4 + slen))) (fun buf =>
    write buf (pos + 4) (PUTVAL16H 0) (fun buf =>
    write buf (pos + 6) [u8 (Z.quot err_code 100); u8 (Z.rem err_code 100)] (fun buf =>
    write buf (pos + 8) reason (fun buf => Done PJ_SUCCESS buf (align4 (8 + slen))))))).

Fixpoint write_types (buf : list Z) (pos : nat) (attrs : list Z) (k : list Z -> enc) : enc :=
  match attrs with
  | [] => k buf
  | t :: attrs => write buf pos (PUTVAL16H t) (fun buf => write_types buf (pos + 2) attrs k)
  end.

Definition encode_unknown_attr (h : pj_stun_attr_hdr) (attrs : list Z) (buf : list Z) (pos : nat) (len : Z) : enc :=
  let n := 2 * Z.of_nat (length attrs) in
  if len <? 4 + n then Done PJ_ETOOSMALL buf 0
  else
    write buf pos (PUTVAL16H (ah_type h)) (fun buf =>
    write buf (pos + 2) (PUTVAL16H (u16 n)) (fun buf =>
    write_types buf (pos + 4) attrs (fun buf => Done PJ_SUCCESS buf (align4 (4 + n))))).

Definition encode_binary_attr (h : pj_stun_attr_hdr) (data : list Z) (buf : list Z) (pos : nat) (len : Z) : enc :=
  let n := Z.of_nat (length data) in
  let printed := align4 (n + 4) in
  if len <? printed then Done PJ_ETOOSMALL buf 0
  else
    write buf pos (PUTVAL16H (ah_type h)) (fun buf =>
    write buf (pos + 2) (PUTVAL16H (u16 n)) (fun buf =>
    write buf (pos + 4) data (fun buf => Done PJ_SUCCESS buf printed))).

(** The encoder of a descriptor, on the struct the attribute really is. *)
Definition encode_attr (padding_char : Z) (k : attr_kind) (a : stun_attr) (buf : list Z) (pos : nat)
    (len : Z) (mh : pj_stun_msg_hdr) : enc :=
  match k, a with
  | (KSockaddr | KXoredSockaddr), SockaddrAttr h x s => encode_sockaddr_attr h x s buf pos len mh
  | KString, StringAttr h v => encode_string_attr padding_char h v buf pos len mh
  | KEmpty, EmptyAttr h => encode_empty_attr h buf pos len
  | KUint, UintAttr h v => encode_uint_attr h v buf pos len
  | KUint64, Uint64Attr h hi lo => encode_uint64_attr h hi lo buf pos len
  | KMsgint, MsgintAttr h m => encode_msgint_attr h m buf pos len
  | KErrcode, ErrcodeAttr h c r => encode_errcode_attr h c r buf pos len
  | KUnknown, UnknownAttr h l => encode_unknown_attr h l buf pos len
  | KBinary, BinaryAttr h _ d => encode_binary_attr h d buf pos len
  | _, _ => BadCast
  end.

(** ** Encoding a message *)

(** Outcome of the whole encoder: status, the message, the buffer and
    [*p_msg_len], which is set on success only. *)
Inductive encoded :=
  | Encoded (st : pj_status_t) (msg : pj_stun_msg) (buf : list Z) (len : option Z)
  | EncodeOverrun
  | EncodeBadCast.

(** One attribute of the first loop. *)
Definition encode_one (padding_char : Z) (mh : pj_stun_msg_hdr) (a : stun_attr) (buf : list Z)
    (pos : nat) (buf_size : Z) : enc :=
  match find_attr_desc (attr_type a) with
  | Some d => encode_attr padding_char (desc_kind d) a buf pos (u32 buf_size) mh
  | None =>
      match a with
      | BinaryAttr h magic data =>
          if magic =? PJ_STUN_MAGIC then encode_binary_attr h data buf pos (u32 buf_size)
          else Done PJ_EBUG buf 0
      | _ => BadCast
      end
  end.

(** The first loop stops at MESSAGE-INTEGRITY or FINGERPRINT: status, index,
    the two attributes as indices, buffer, position and space left. *)
Inductive loop1 :=
  | Loop1 (i : nat) (mi fp : option nat) (buf : list Z) (pos : nat) (buf_size : Z)
  | Loop1Fail (st : pj_status_t) (buf : list Z)
  | Loop1Overrun
  | Loop1BadCast.

Fixpoint encode_attrs (padding_char : Z) (mh : pj_stun_msg_hdr) (attrs : list stun_attr) (i : nat)
    (buf : list Z) (pos : nat) (buf_size : Z) : loop1 :=
  match attrs with
  | [] => Loop1 i None None buf pos buf_size
  | a :: attrs =>
      if attr_type a =? PJ_STUN_ATTR_MESSAGE_INTEGRITY then Loop1 i (Some i) None buf pos buf_size
      else if attr_type a =? PJ_STUN_ATTR_FINGERPRINT then Loop1 i None (Some i) buf pos buf_size
      else
        match encode_one padding_char mh a buf pos buf_size with
        | Done st buf printed =>
            if negb (st =? PJ_SUCCESS) then Loop1Fail st buf
            else encode_attrs padding_char mh attrs (S i) buf (pos + Z.to_nat printed)
                   (u64 (buf_size - printed))
        | Overrun => Loop1Overrun
        | BadCast => Loop1BadCast
        end
  end.

(** The second loop looks at the attributes from [i]: [attrs] is what is left. *)
Fixpoint scan_attrs (attrs : list stun_attr) (i : nat) (mi fp : option nat)
    : (nat * option nat * option nat) + pj_status_t :=
  match attrs with
  | [] => inl (i, mi, fp)
  | a :: attrs =>
      match fp with
      | Some _ => inr PJNATH_ESTUNFINGERPOS
      | None =>
          if attr_type a =? PJ_STUN_ATTR_MESSAGE_INTEGRITY then
            match mi with
            | Some _ => inr PJNATH_ESTUNMSGINTPOS
            | None => scan_attrs attrs (S i) (Some i) fp
            end
          else if attr_type a =? PJ_STUN_ATTR_FINGERPRINT then scan_attrs attrs (S i) mi (Some i)
          else scan_attrs attrs (S i) mi fp
      end
  end.

Definition set_attr (msg : pj_stun_msg) (i : nat) (a : stun_attr) : pj_stun_msg :=
  mk_msg (msg_hdr msg) (<[i := a]> (msg_attr msg)).

(** FINGERPRINT and the end of the function, with [pos] bytes written. *)
Definition encode_end (env : stun_env) (msg : pj_stun_msg) (fp : option nat) (buf : list Z)
    (pos : nat) (buf_size : Z) : encoded :=
  let finish msg buf pos :=
    let n := Z.of_nat pos in
    let h := msg_hdr msg in
    Encoded PJ_SUCCESS (mk_msg (mk_mhdr (mh_type h) (u16 (n - 20)) (mh_magic h) (mh_tsx_id h)) (msg_attr msg))
      buf (Some n) in
  match fp with
  | None => finish msg buf pos
  | Some i =>
      match msg_attr msg !! i, GETVAL16H buf 2 with
      | Some (UintAttr h _), Ok l =>
          let buf := splice buf 2 (PUTVAL16H (u16 (l + 8))) in
          let value := fingerprint env (take pos buf) in
          let msg := set_attr msg i (UintAttr h value) in
          match encode_uint_attr h value buf pos (u32 buf_size) with
          | Done st buf printed =>
              if negb (st =? PJ_SUCCESS) then Encoded st msg buf None
              else finish msg buf (pos + Z.to_nat printed)%nat
          | Overrun => EncodeOverrun
          | BadCast => EncodeBadCast
          end
      | Some _, Ok _ => EncodeBadCast
      | _, _ => EncodeOverrun
      end
  end.

(** MESSAGE-INTEGRITY; [i] is the index the second loop ended with. *)
Definition encode_mac (env : stun_env) (key : option (list Z)) (msg : pj_stun_msg) (i : nat)
    (mi fp : option nat) (buf : list Z) (pos : nat) (buf_size : Z) : encoded :=
  match mi with
  | None => encode_end env msg fp buf pos buf_size
  | Some m =>
      match key with
      | None => Encoded PJ_EINVALIDOP msg buf None
      | Some key =>
          let count := Z.of_nat (length (msg_attr msg)) in
          if (count >? 1) && (Z.of_nat i <? u32 (count - 2)) then Encoded PJNATH_ESTUNMSGINTPOS msg buf None
          else
            let next :=
              if Z.of_nat i =? u32 (count - 2) then
                match msg_attr msg !! S i with
                | Some a => if attr_type a =? PJ_STUN_ATTR_FINGERPRINT then Some (Some (S i)) else None
                | None => None
                end
              else Some fp in
            match next with
            | None => Encoded PJNATH_ESTUNMSGINTPOS msg buf None
            | Some fp =>
                match msg_attr msg !! m with
                | Some (MsgintAttr h _) =>
                    let mac := message_mac env key (take pos buf) in
                    let msg := set_attr msg m (MsgintAttr h mac) in
                    match encode_msgint_attr h mac buf pos (u32 buf_size) with
                    | Done st buf printed =>
                        if negb (st =? PJ_SUCCESS) then Encoded st msg buf None
                        else encode_end env msg fp buf (pos + Z.to_nat printed)%nat (u64 (buf_size - printed))
                    | Overrun => EncodeOverrun
                    | BadCast => EncodeBadCast
                    end
                | _ => EncodeBadCast
                end
            end
      end
  end.

(** [buf] is the caller's buffer, its length the [buf_size] passed. *)
Definition pj_stun_msg_encode (env : stun_env) (padding_char : Z) (msg : pj_stun_msg) (buf : list Z)
    (options : Z) (key : option (list Z)) : encoded :=
  let buf_size := Z.of_nat (length buf) in
  if buf_size =? 0 then Encoded PJ_EINVAL msg buf None
  else if negb (options =? 0) then Encoded PJ_EINVAL msg buf None
  else if buf_size <? 20 then Encoded PJ_ETOOSMALL msg buf None
  else
    let h := msg_hdr msg in
    let buf := splice buf 0 (PUTVAL16H (mh_type h) ++ PUTVAL16H 0 ++ PUTVAL32H (mh_magic h) ++ mh_tsx_id h) in
    match encode_attrs padding_char h (msg_attr msg) 0 buf 20 (buf_size - 20) with
    | Loop1Fail st buf => Encoded st msg buf None
    | Loop1Overrun => EncodeOverrun
    | Loop1BadCast => EncodeBadCast
    | Loop1 i mi fp buf pos buf_size =>
        match scan_attrs (drop (S i) (msg_attr msg)) (S i) mi fp with
        | inr st => Encoded st msg buf None
        | inl (i, mi, fp) =>
            let body_len := match mi with
                            | Some _ => u16 (Z.of_nat pos - 20 + 24)
                            | None => u16 (Z.of_nat pos - 20)
                            end in
            let buf := splice buf 2 (PUTVAL16H body_len) in
            encode_mac env key msg i mi fp buf pos buf_size
        end
    end.
