(* ===== verification/StunAttr.v ===== *)
(** * Attributes survive the wire

    For each kind of attribute of [StunCodec]: the bytes its encoder writes,
    the space it takes, and the proof that its decoder reads the attribute
    back from them, whatever lies behind. *)

From Stdlib Require Import ZArith Lia Bool String.
From stdpp Require Import base list numbers.
From S2P Require Import Prelude.
From S2P Require Import PjString.
From S2P Require Import Words.
From S2P Require Import Blocks.
From S2P Require Import StunMsg.
From S2P Require Import StunCodec.
Local Open Scope Z_scope.
Local Open Scope stun_scope.

(** ** Reading what was written *)

Lemma put16_bytes v : is_u16 v -> PUTVAL16H v = [v / 256; v mod 256].
Proof.
  intros Hv. unfold PUTVAL16H, is_u16 in *. change 0xFF00 with (Z.shiftl 255 8). rewrite land_byte by lia.
  rewrite Z.shiftr_shiftl_l, Z.shiftl_0_r by lia. change 255 with (Z.ones 8). change 0x00FF with (Z.ones 8).
  rewrite !Z.land_ones, Z.shiftr_div_pow2 by lia. change (2 ^ 8) with 256.
  rewrite (Z.mod_small (v / 256)) by (Z.to_euclidean_division_equations; lia).
  f_equal; [|f_equal]; apply u8_small; unfold is_u8; Z.to_euclidean_division_equations; lia.
Qed.

Lemma put16_ok v : is_u16 v -> bytes_ok (PUTVAL16H v) /\ length (PUTVAL16H v) = 2%nat.
Proof.
  intros Hv. split; [|reflexivity]. rewrite put16_bytes by exact Hv. unfold is_u16 in Hv.
  unfold bytes_ok. rewrite !list.Forall_cons, list.Forall_nil. unfold is_u8.
  Z.to_euclidean_division_equations; lia.
Qed.

Lemma get16_bytes a b : is_u8 a -> is_u8 b -> u16 (Z.lor (Z.shiftl a 8) b) = a * 256 + b.
Proof.
  unfold is_u8. intros Ha Hb. rewrite Z.shiftl_mul_pow2, Z.lor_comm, lor_disjoint by lia.
  change (2 ^ 8) with 256. unfold u16. rewrite Z.mod_small by lia. lia.
Qed.

Lemma put32_bytes v : is_u32 v -> PUTVAL32H v = store32 BigEndian v.
Proof.
  intros Hv. unfold PUTVAL32H. cbn [store32]. unfold byte_of.
  change 0xFF000000 with (Z.shiftl 255 24). change 0x00FF0000 with (Z.shiftl 255 16).
  change 0x0000FF00 with (Z.shiftl 255 8). change 0x000000FF with (Z.shiftl 255 0).
  rewrite !land_byte, !Z.shiftr_shiftl_l, !Z.sub_diag, !Z.shiftl_0_r by lia.
  change (8 * 3) with 24. change (8 * 2) with 16. change (8 * 1) with 8. change (8 * 0) with 0.
  assert (E : forall k, u8 (Z.land (Z.shiftr v k) 255) = Z.land (Z.shiftr v k) 255).
  { intros k. apply u8_small, (land_bound 8); [lia| |lia].
    apply Z.shiftr_nonneg. unfold is_u32 in Hv; lia. }
  by rewrite !E.
Qed.

Lemma get32_bytes a b c d : is_u8 a -> is_u8 b -> is_u8 c -> is_u8 d ->
  u32 (Z.lor (Z.lor (Z.lor (Z.shiftl a 24) (Z.shiftl b 16)) (Z.shiftl c 8)) d) = be32 a b c d.
Proof.
  intros Ha Hb Hc Hd. rewrite !Z.shiftl_mul_pow2 by lia.
  rewrite <- (u32_small (be32 a b c d)) by auto with pj. f_equal. unfold be32.
  rewrite <- lor_bytes by assumption.
  rewrite <- Z.lor_assoc, (Z.lor_comm (c * _) d). rewrite Z.lor_comm.
  f_equal. apply Z.lor_comm.
Qed.

Lemma get_app l x r : get (l ++ x :: r) (length l) = Ok x.
Proof. unfold get. by rewrite list_lookup_middle. Qed.

Lemma get_shift l r n : get (l ++ r) (length l + n) = get r n.
Proof. unfold get. rewrite lookup_app_r by lia. by replace (length l + n - length l)%nat with n by lia. Qed.

Lemma get16_put v r : is_u16 v -> GETVAL16H (PUTVAL16H v ++ r) 0 = Ok v.
Proof.
  intros Hv. rewrite put16_bytes by exact Hv. unfold is_u16 in Hv.
  unfold GETVAL16H. cbn [app get lookup list_lookup rbind].
  rewrite get16_bytes by (unfold is_u8; Z.to_euclidean_division_equations; lia). f_equal.
  Z.to_euclidean_division_equations; lia.
Qed.

Lemma get32_put v r : is_u32 v -> GETVAL32H (PUTVAL32H v ++ r) 0 = Ok v.
Proof.
  intros Hv. rewrite put32_bytes by exact Hv.
  unfold GETVAL32H. cbn [app store32 get lookup list_lookup rbind].
  rewrite get32_bytes by (apply byte_of_range; unfold is_u32 in Hv; lia).
  unfold be32. by rewrite le32_byte_of.
Qed.

(** Reads at an offset are reads of the memory from there. *)
Lemma get16_shift l r n : GETVAL16H (l ++ r) (length l + n) = GETVAL16H r n.
Proof.
  unfold GETVAL16H. rewrite <- !Nat.add_succ_r, !get_shift. reflexivity.
Qed.
Lemma get32_shift l r n : GETVAL32H (l ++ r) (length l + n) = GETVAL32H r n.
Proof.
  unfold GETVAL32H. rewrite <- !Nat.add_succ_r, !get_shift. reflexivity.
Qed.
Lemma slice_shift l r n m : slice (l ++ r) (length l + n) m = slice r n m.
Proof.
  unfold slice. rewrite length_app. rewrite <- drop_drop, drop_app_length.
  destruct (Nat.leb_spec (length l + n + m) (length l + length r)), (Nat.leb_spec (n + m) (length r)); done || lia.
Qed.
Lemma slice_here x r : slice (x ++ r) 0 (length x) = Ok x.
Proof.
  unfold slice. rewrite length_app, drop_0, take_app_length.
  destruct (Nat.leb_spec (0 + length x) (length x + length r)); [done|lia].
Qed.

(** The header of an attribute. *)
Definition ahdr_bytes (t l : Z) : list Z := PUTVAL16H t ++ PUTVAL16H l.

Lemma read_attr_hdr t l r : is_u16 t -> is_u16 l ->
  GETATTRHDR (ahdr_bytes t l ++ r) = Ok (mk_ahdr t l).
Proof.
  intros Ht Hl. unfold GETATTRHDR, ahdr_bytes. rewrite <- app_assoc, get16_put by exact Ht.
  cbn [rbind]. rewrite (get16_shift (PUTVAL16H t) _ 0), get16_put by exact Hl. reflexivity.
Qed.

(** ** Consecutive writes *)

Lemma splice_splice buf pos a b : (pos + length a + length b <= length buf)%nat ->
  splice (splice buf pos a) (pos + length a) b = splice buf pos (a ++ b).
Proof.
  intros H. unfold splice at 1. rewrite splice_take by lia. unfold splice.
  rewrite length_app, <- !app_assoc. f_equal. f_equal. f_equal.
  rewrite !app_assoc, drop_app_ge by (rewrite length_app, length_take; lia).
  rewrite length_app, length_take, drop_drop. f_equal. lia.
Qed.

Lemma write_ok buf pos bytes k : (pos + length bytes <= length buf)%nat ->
  write buf pos bytes k = k (splice buf pos bytes).
Proof. intros H. unfold write. by rewrite (proj2 (Nat.leb_le _ _) H). Qed.

(** A second write right behind the first. *)
Lemma write_behind buf pos a b k : (pos + length a + length b <= length buf)%nat ->
  write (splice buf pos a) (pos + length a) b k = k (splice buf pos (a ++ b)).
Proof.
  intros H. rewrite write_ok by (rewrite splice_length; lia). by rewrite splice_splice.
Qed.

(** The same with the position as the code writes it. *)
Lemma write_at buf pos a p b k : p = (pos + length a)%nat ->
  (pos + length a + length b <= length buf)%nat ->
  write (splice buf pos a) p b k = k (splice buf pos (a ++ b)).
Proof. intros ->. apply write_behind. Qed.

Lemma write_types_ok attrs : forall buf pos a k,
  (pos + length a + 2 * length attrs <= length buf)%nat ->
  write_types (splice buf pos a) (pos + length a) attrs k
  = k (splice buf pos (a ++ concat (map PUTVAL16H attrs))).
Proof.
  induction attrs as [|t attrs IH]; intros buf pos a k H; cbn [write_types map concat].
  - by rewrite app_nil_r.
  - cbn [length] in H. rewrite write_behind by (simpl; lia).
    replace (pos + length a + 2)%nat with (pos + length (a ++ PUTVAL16H t))%nat
      by (rewrite length_app; simpl; lia).
    rewrite IH, <- app_assoc by (rewrite length_app; simpl; lia). reflexivity.
Qed.

(** ** Alignment *)

Lemma align4_spec n : 0 <= n < 4294967292 -> align4 n = (n + 3) / 4 * 4.
Proof.
  intros Hn. unfold align4. rewrite u32_small by (unfold is_u32; lia). set (x := n + 3).
  assert (Ex : x = x mod 4 + x / 4 * 2 ^ 2) by (change (2 ^ 2) with 4; Z.to_euclidean_division_equations; lia).
  rewrite Ex at 1. change 0xFFFFFFFC with (0 + Z.ones 30 * 2 ^ 2).
  rewrite land_split by (try (change (2 ^ 2) with 4; apply Z.mod_pos_bound); lia).
  rewrite Z.land_0_r, Z.land_ones by lia. rewrite Z.mod_small; [reflexivity|].
  unfold x. change (2 ^ 30) with 1073741824. Z.to_euclidean_division_equations; lia.
Qed.

Lemma align4_bounds n : 0 <= n < 4294967292 -> n <= align4 n < n + 4 /\ align4 n mod 4 = 0.
Proof. intros Hn. rewrite align4_spec by exact Hn. Z.to_euclidean_division_equations; lia. Qed.

Lemma align4_id n : 0 <= n < 4294967292 -> n mod 4 = 0 -> align4 n = n.
Proof. intros Hn Hm. rewrite align4_spec by exact Hn. Z.to_euclidean_division_equations; lia. Qed.

(** The padding of a string. *)
Definition pad_count (n : Z) : nat := Z.to_nat ((- n) mod 4).

Lemma pad_count_spec n : 0 <= n < 4294967292 -> Z.of_nat (pad_count n) = align4 n - n.
Proof.
  intros Hn. unfold pad_count. rewrite Z2Nat.id by (apply Z.mod_pos_bound; lia).
  rewrite align4_spec by exact Hn. Z.to_euclidean_division_equations; lia.
Qed.

Lemma land3 n : 0 <= n -> Z.land n 3 = n mod 4.
Proof. intros. change 3 with (Z.ones 2). by rewrite Z.land_ones by lia. Qed.

(** ** The bytes of an attribute *)

(** Length field of a string: rounded up for SOFTWARE and for peers of RFC 3489. *)
Definition padded_string (mh : pj_stun_msg_hdr) (t : Z) : bool :=
  negb (mh_magic mh =? PJ_STUN_MAGIC) || (t =? PJ_STUN_ATTR_SOFTWARE).

Definition sockaddr_bytes (t : Z) (a : pj_sockaddr) : list Z :=
  match a with
  | Ipv4 port addr => ahdr_bytes t 8 ++ [0; 1] ++ PUTVAL16H port ++ addr
  | Ipv6 port addr => ahdr_bytes t 20 ++ [0; 2] ++ PUTVAL16H port ++ addr
  | OtherFamily _ => []
  end.

Definition attr_bytes (padc : Z) (mh : pj_stun_msg_hdr) (a : stun_attr) : list Z :=
  match a with
  | SockaddrAttr h x s => sockaddr_bytes (ah_type h) (if x then xor_addr (mh_tsx_id mh) s else s)
  | StringAttr h v =>
      let n := Z.of_nat (length v) in
      ahdr_bytes (ah_type h) (if padded_string mh (ah_type h) then align4 n else n)
      ++ v ++ replicate (pad_count n) (u8 padc)
  | EmptyAttr h => ahdr_bytes (ah_type h) 0
  | UintAttr h v => ahdr_bytes (ah_type h) 4 ++ PUTVAL32H v
  | Uint64Attr h hi lo => ahdr_bytes (ah_type h) 8 ++ PUTVAL32H hi ++ PUTVAL32H lo
  | MsgintAttr h m => ahdr_bytes (ah_type h) (ah_length h) ++ m
  | ErrcodeAttr h c r =>
      ahdr_bytes (ah_type h) (4 + Z.of_nat (length r)) ++ [0; 0; c / 100; c mod 100] ++ r
  | UnknownAttr h l => ahdr_bytes (ah_type h) (2 * Z.of_nat (length l)) ++ concat (map PUTVAL16H l)
  | BinaryAttr h _ d => ahdr_bytes (ah_type h) (Z.of_nat (length d)) ++ d
  end.

(** The space it takes in the message. *)
Definition attr_space (padc : Z) (mh : pj_stun_msg_hdr) (a : stun_attr) : Z :=
  align4 (Z.of_nat (length (attr_bytes padc mh a))).

(** Attributes as the functions that create them make them, with values in
    the range of the wire. *)
Definition sockaddr_ok (a : pj_sockaddr) : Prop :=
  match a with
  | Ipv4 port addr => is_u16 port /\ bytes_ok addr /\ length addr = 4%nat
  | Ipv6 port addr => is_u16 port /\ bytes_ok addr /\ length addr = 16%nat
  | OtherFamily _ => False
  end.

Definition fields_ok (a : stun_attr) : Prop :=
  match a with
  | SockaddrAttr h _ s => sockaddr_ok s /\ ah_length h = addr_len s + 4
  | StringAttr h v => bytes_ok v /\ ah_length h = Z.of_nat (length v)
  | EmptyAttr h => ah_length h = 0
  | UintAttr h v => is_u32 v /\ ah_length h = 4
  | Uint64Attr h hi lo => is_u32 hi /\ is_u32 lo /\ ah_length h = 8
  | MsgintAttr h m => bytes_ok m /\ length m = 20%nat /\ ah_length h = 20
  | ErrcodeAttr h c r => 0 <= c < 25600 /\ bytes_ok r /\ ah_length h = 4 + Z.of_nat (length r)
  | UnknownAttr h l => Forall is_u16 l /\ (length l <= 16)%nat /\ ah_length h = 2 * Z.of_nat (length l)
  | BinaryAttr h _ d => bytes_ok d /\ ah_length h = Z.of_nat (length d)
  end.

(** The struct and the flag of an XOR address are those of the type. *)
Definition kind_ok (k : attr_kind) (a : stun_attr) : Prop :=
  has_kind k a = true /\
  match k, a with
  | KSockaddr, SockaddrAttr _ x _ => x = false
  | KXoredSockaddr, SockaddrAttr _ x _ => x = true
  | _, _ => True
  end.

Definition attr_ok (a : stun_attr) : Prop :=
  is_u16 (attr_type a) /\ fields_ok a /\ ah_length (attr_hdr a) <= 65528 /\
  match find_attr_desc (attr_type a) with
  | Some d => kind_ok (desc_kind d) a
  | None => match a with
            | BinaryAttr _ magic _ => magic = PJ_STUN_MAGIC /\ 0x7FFF < attr_type a
            | _ => False
            end
  end.

(** What the decoder makes of it: a padded string keeps its padding, and the
    magic of a binary attribute with a descriptor is not set. *)
Definition wire_attr (padc : Z) (mh : pj_stun_msg_hdr) (a : stun_attr) : stun_attr :=
  match a with
  | StringAttr h v =>
      if padded_string mh (ah_type h)
      then StringAttr (mk_ahdr (ah_type h) (align4 (Z.of_nat (length v))))
             (v ++ replicate (pad_count (Z.of_nat (length v))) (u8 padc))
      else a
  | BinaryAttr h _ d =>
      match find_attr_desc (ah_type h) with Some _ => BinaryAttr h 0 d | None => a end
  | _ => a
  end.

(** ** Encoders write these bytes *)

Definition mhdr_ok (mh : pj_stun_msg_hdr) : Prop :=
  is_u16 (mh_type mh) /\ is_u32 (mh_magic mh) /\ bytes_ok (mh_tsx_id mh) /\ length (mh_tsx_id mh) = 12%nat.

Lemma bytes_length_xor a b : length (xor_list a b) = Nat.min (length a) (length b).
Proof. apply length_zip_with. Qed.

Lemma xor_addr_ok mh a : mhdr_ok mh -> sockaddr_ok a ->
  sockaddr_ok (xor_addr (mh_tsx_id mh) a) /\ addr_len (xor_addr (mh_tsx_id mh) a) = addr_len a.
Proof.
  intros (_ & _ & Hid & Hl) Ha. assert (Hm : bytes_ok magic_bytes) by (apply store32_bytes; unfold is_u32; done).
  assert (Hp : is_u16 (Z.shiftr PJ_STUN_MAGIC 16)) by (unfold is_u16; done).
  assert (Hx : forall l m, bytes_ok l -> bytes_ok m -> bytes_ok (xor_list l m)).
  { intros l m Hl' Hm'. unfold xor_list. revert m Hm'.
    induction Hl' as [|x l Hx _ IH]; intros m Hm'; [constructor|].
    destruct Hm' as [|y m Hy Hm']; [constructor|]. constructor; [by apply u8_lxor|by apply IH]. }
  destruct a as [port addr|port addr|f]; cbn [xor_addr sockaddr_ok addr_len] in *; [| |done];
    destruct Ha as (H1 & H2 & H3); split; try reflexivity;
    (split; [by apply u16_lxor|split; [apply Hx; [exact H2|]|rewrite bytes_length_xor, H3]]).
  - exact Hm.
  - reflexivity.
  - apply Forall_app; by split.
  - rewrite length_app, Hl. reflexivity.
Qed.

(** Runs a chain of writes. *)
Ltac run_writes :=
  repeat first
    [ rewrite write_ok by (cbn [length PUTVAL16H PUTVAL32H]; lia)
    | rewrite write_at by (rewrite ?length_app; cbn [length PUTVAL16H PUTVAL32H]; lia) ];
  cbv beta.

(** The space was checked. *)
Ltac space_left len :=
  match goal with |- context [len <? ?n] => destruct (Z.ltb_spec len n); [lia|] end.

Lemma sockaddr_length t a : sockaddr_ok a ->
  Z.of_nat (length (sockaddr_bytes t a)) = addr_len a + 8.
Proof.
  destruct a as [port addr|port addr|f]; cbn [sockaddr_ok sockaddr_bytes addr_len]; [| |done];
    intros (_ & _ & Hl); unfold ahdr_bytes; rewrite !length_app, Hl; reflexivity.
Qed.

Lemma encode_sockaddr_ok h (x : bool) s buf pos len mh :
  let s' := if x then xor_addr (mh_tsx_id mh) s else s in
  sockaddr_ok s' -> is_u16 (ah_type h) -> addr_len s' + 8 <= len ->
  Z.of_nat pos + (addr_len s' + 8) <= Z.of_nat (length buf) ->
  encode_sockaddr_attr h x s buf pos len mh
  = Done PJ_SUCCESS (splice buf pos (sockaddr_bytes (ah_type h) s')) (addr_len s' + 8).
Proof.
  intros s' Hs Ht Hlen Hb. unfold encode_sockaddr_attr. fold s'.
  destruct s' as [port addr|port addr|f]; cbn [addr_len sockaddr_ok] in *; [| |done];
    destruct Hs as (Hp & Ha & Hl);
    (rewrite write_ok by (cbn [length PUTVAL16H]; lia)); unfold write_sockaddr;
    space_left len; run_writes; cbn [sockaddr_bytes]; unfold ahdr_bytes; by rewrite <- !app_assoc.
Qed.

Lemma encode_string_ok padc h v buf pos len mh :
  let n := Z.of_nat (length v) in
  n <= 65528 -> align4 (n + 4) <= len ->
  Z.of_nat pos + align4 (n + 4) <= Z.of_nat (length buf) ->
  encode_string_attr padc h v buf pos len mh
  = Done PJ_SUCCESS (splice buf pos (attr_bytes padc mh (StringAttr h v))) (align4 (n + 4)).
Proof.
  intros n Hn Hlen Hb. pose proof (align4_bounds (n + 4) ltac:(lia)) as [Ha _].
  pose proof (align4_bounds n ltac:(lia)) as [Ha' _].
  assert (E4 : align4 (n + 4) = align4 n + 4).
  { rewrite !align4_spec by lia. Z.to_euclidean_division_equations; lia. }
  pose proof (pad_count_spec n ltac:(lia)) as Hp.
  unfold encode_string_attr. fold n. space_left len.
  rewrite !(u16_small (align4 n)), !(u16_small n) by (unfold is_u16; lia).
  run_writes. fold (padded_string mh (ah_type h)). cbn [attr_bytes]. fold n. unfold ahdr_bytes.
  rewrite land3 by lia. destruct (Z.eqb_spec (n mod 4) 0) as [E|E].
  - assert (E0 : pad_count n = 0%nat) by (unfold pad_count; Z.to_euclidean_division_equations; lia).
    rewrite E0. cbn [replicate]. by rewrite app_nil_r, <- !app_assoc.
  - replace (Z.to_nat (4 - n mod 4)) with (pad_count n)
      by (unfold pad_count; f_equal; Z.to_euclidean_division_equations; lia).
    rewrite write_at; [by rewrite <- !app_assoc| |].
    + rewrite !length_app. cbn [length PUTVAL16H]. lia.
    + rewrite !length_app, length_replicate. cbn [length PUTVAL16H]. lia.
Qed.

Lemma encode_errcode_ok h c r buf pos len :
  let n := Z.of_nat (length r) in
  0 <= c < 25600 -> n <= 65524 -> align4 (8 + n) <= len ->
  Z.of_nat pos + align4 (8 + n) <= Z.of_nat (length buf) ->
  encode_errcode_attr h c r buf pos len
  = Done PJ_SUCCESS (splice buf pos (attr_bytes 0 (mk_mhdr 0 0 0 []) (ErrcodeAttr h c r))) (align4 (8 + n)).
Proof.
  intros n Hc Hn Hlen Hb. pose proof (align4_bounds (8 + n) ltac:(lia)) as [Ha _].
  unfold encode_errcode_attr. fold n. rewrite (u32_small (8 + n)), (u16_small (4 + n)) by (unfold is_u32, is_u16; lia).
  space_left len. rewrite Z.quot_div_nonneg, Z.rem_mod_nonneg by lia.
  rewrite !u8_small by (unfold is_u8; Z.to_euclidean_division_equations; lia).
  run_writes. cbn [attr_bytes]. fold n. unfold ahdr_bytes. rewrite <- !app_assoc. reflexivity.
Qed.

Lemma encode_unknown_ok h l buf pos len :
  let n := 2 * Z.of_nat (length l) in
  (length l <= 16)%nat -> align4 (4 + n) <= len ->
  Z.of_nat pos + align4 (4 + n) <= Z.of_nat (length buf) ->
  encode_unknown_attr h l buf pos len
  = Done PJ_SUCCESS (splice buf pos (attr_bytes 0 (mk_mhdr 0 0 0 []) (UnknownAttr h l))) (align4 (4 + n)).
Proof.
  intros n Hn Hlen Hb. pose proof (align4_bounds (4 + n) ltac:(lia)) as [Ha _].
  unfold encode_unknown_attr. fold n. rewrite (u16_small n) by (unfold is_u16; lia).
  space_left len. run_writes.
  replace (pos + 4)%nat with (pos + length (PUTVAL16H (ah_type h) ++ PUTVAL16H n))%nat
    by (rewrite length_app; reflexivity).
  rewrite write_types_ok by (rewrite length_app; cbn [length PUTVAL16H]; lia). reflexivity.
Qed.

Lemma encode_binary_ok h m d buf pos len :
  let n := Z.of_nat (length d) in
  n <= 65528 -> align4 (n + 4) <= len ->
  Z.of_nat pos + align4 (n + 4) <= Z.of_nat (length buf) ->
  encode_binary_attr h d buf pos len
  = Done PJ_SUCCESS (splice buf pos (attr_bytes 0 (mk_mhdr 0 0 0 []) (BinaryAttr h m d))) (align4 (n + 4)).
Proof.
  intros n Hn Hlen Hb. pose proof (align4_bounds (n + 4) ltac:(lia)) as [Ha _].
  unfold encode_binary_attr. fold n. rewrite (u16_small n) by (unfold is_u16; lia).
  space_left len. run_writes. reflexivity.
Qed.

(** The space of an attribute is its length field rounded up, and a header. *)
Lemma concat_types_length l : length (concat (map PUTVAL16H l)) = (2 * length l)%nat.
Proof. induction l as [|t l IH]; [done|]. cbn [map concat length]. rewrite length_app, IH. simpl. lia. Qed.

Lemma attr_bytes_length padc mh a : mhdr_ok mh -> fields_ok a -> ah_length (attr_hdr a) <= 65528 ->
  let n := Z.of_nat (length (attr_bytes padc mh a)) in
  ah_length (attr_hdr a) + 4 <= n <= 65535 /\ align4 n = align4 (ah_length (attr_hdr a)) + 4.
Proof.
  intros Hm Hf Hl.
  assert (E4 : forall k, 0 <= k <= 65528 -> align4 (k + 4) = align4 k + 4).
  { intros k Hk. rewrite !align4_spec by lia. Z.to_euclidean_division_equations; lia. }
  assert (G : forall n, n = ah_length (attr_hdr a) + 4 -> 0 <= ah_length (attr_hdr a) ->
     ah_length (attr_hdr a) + 4 <= n <= 65535 /\ align4 n = align4 (ah_length (attr_hdr a)) + 4).
  { intros n -> H0. split; [lia|by apply E4]. }
  destruct a as [h x s|h v|h|h v|h hi lo|h m|h c r|h l|h g d]; cbn [attr_bytes fields_ok attr_hdr] in *;
    unfold ahdr_bytes in *.
  - destruct Hf as [Hs Hh].
    assert (Hs' : sockaddr_ok (if x then xor_addr (mh_tsx_id mh) s else s)
                  /\ addr_len (if x then xor_addr (mh_tsx_id mh) s else s) = addr_len s).
    { destruct x; [by apply xor_addr_ok|by split]. }
    destruct Hs' as [Hs' Es]. rewrite sockaddr_length, Es by exact Hs'.
    apply G; [lia|]. rewrite Hh. destruct s; cbn [addr_len]; lia.
  - destruct Hf as [_ Hh]. set (n := Z.of_nat (length v)) in *.
    pose proof (pad_count_spec n ltac:(lia)). pose proof (align4_bounds n ltac:(lia)) as [Hab Ham].
    rewrite !length_app, length_replicate. cbn [length PUTVAL16H].
    rewrite Hh. replace (Z.of_nat (2 + 2 + (length v + pad_count n))) with (align4 n + 4) by lia.
    split; [split; [lia|]|apply align4_id; [lia|]].
    + clear -Hab Ham Hl Hh. Z.to_euclidean_division_equations; lia.
    + clear -Ham. Z.to_euclidean_division_equations; lia.
  - apply G; [rewrite length_app; cbn [length PUTVAL16H]; lia|lia].
  - destruct Hf as [_ Hh]. apply G; [rewrite !length_app; cbn [length PUTVAL16H PUTVAL32H]; lia|lia].
  - destruct Hf as (_ & _ & Hh). apply G; [rewrite !length_app; cbn [length PUTVAL16H PUTVAL32H]; lia|lia].
  - destruct Hf as (_ & H20 & Hh). apply G; [rewrite !length_app, H20; cbn [length PUTVAL16H]; lia|lia].
  - destruct Hf as (_ & _ & Hh). apply G; [rewrite !length_app; cbn [length PUTVAL16H]; lia|lia].
  - destruct Hf as (_ & _ & Hh).
    apply G; [rewrite !length_app, concat_types_length; cbn [length PUTVAL16H]; lia|lia].
  - destruct Hf as (_ & Hh). apply G; [rewrite !length_app; cbn [length PUTVAL16H]; lia|lia].
Qed.

Lemma attr_space_eq padc mh a : mhdr_ok mh -> attr_ok a ->
  attr_space padc mh a = align4 (ah_length (attr_hdr a)) + 4.
Proof. intros Hm (_ & Hf & Hl & _). by apply attr_bytes_length. Qed.

(** Every encoder writes the bytes of the attribute at the position and
    reports the space. *)
Lemma encode_attr_ok padc mh k a buf pos len :
  mhdr_ok mh -> attr_ok a -> has_kind k a = true -> attr_space padc mh a <= len ->
  Z.of_nat pos + attr_space padc mh a <= Z.of_nat (length buf) ->
  encode_attr padc k a buf pos len mh
  = Done PJ_SUCCESS (splice buf pos (attr_bytes padc mh a)) (attr_space padc mh a).
Proof.
  intros Hm Ha Hk Hlen Hb. pose proof (attr_space_eq padc mh a Hm Ha) as Es.
  destruct Ha as (Ht & Hf & Hl & _). rewrite Es in *. clear Es.
  assert (E4 : forall n, 0 <= n <= 65528 -> align4 (n + 4) = align4 n + 4).
  { intros n Hn. rewrite !align4_spec by lia. Z.to_euclidean_division_equations; lia. }
  destruct a as [h x s|h v|h|h v|h hi lo|h m|h c r|h l|h g d]; cbn [attr_hdr fields_ok attr_type] in *;
    destruct k; try discriminate Hk; cbn [encode_attr].
  1,2: destruct Hf as [Hs Hh];
    assert (Hs' : sockaddr_ok (if x then xor_addr (mh_tsx_id mh) s else s)
                  /\ addr_len (if x then xor_addr (mh_tsx_id mh) s else s) = addr_len s)
      by (destruct x; [by apply xor_addr_ok|by split]);
    destruct Hs' as [Hs' Es];
    assert (Ea : align4 (ah_length h) + 4 = addr_len s + 8)
      by (rewrite Hh; destruct s; [reflexivity..|done]);
    rewrite encode_sockaddr_ok by (rewrite ?Es; (assumption || lia)); by rewrite Es, Ea.
  - destruct Hf as [_ Hh]. rewrite Hh, <- E4 in * by lia. apply encode_string_ok; lia.
  - rewrite Hf in *. change (align4 0) with 0 in *. unfold encode_empty_attr. space_left len. run_writes. reflexivity.
  - destruct Hf as [_ Hh]. rewrite Hh in *. change (align4 4) with 4 in *.
    unfold encode_uint_attr. space_left len. run_writes. reflexivity.
  - destruct Hf as (_ & _ & Hh). rewrite Hh in *. change (align4 8) with 8 in *.
    unfold encode_uint64_attr. space_left len. run_writes.
    cbn [attr_bytes]. unfold ahdr_bytes. by rewrite <- !app_assoc.
  - destruct Hf as (_ & H20 & Hh). rewrite Hh in *. change (align4 20) with 20 in *.
    unfold encode_msgint_attr. space_left len. rewrite Hh. run_writes.
    cbn [attr_bytes]. unfold ahdr_bytes. by rewrite Hh.
  - destruct Hf as (Hc & _ & Hh). rewrite Hh, <- E4 in * by lia.
    replace (4 + Z.of_nat (length r) + 4) with (8 + Z.of_nat (length r)) in * by lia.
    apply encode_errcode_ok; lia.
  - destruct Hf as (_ & H16 & Hh). rewrite Hh, <- E4 in * by lia.
    replace (2 * Z.of_nat (length l) + 4) with (4 + 2 * Z.of_nat (length l)) in * by lia.
    apply encode_unknown_ok; lia.
  - destruct Hf as (_ & Hh). rewrite Hh, <- E4 in * by lia. apply (encode_binary_ok h g); lia.
Qed.

Lemma encode_one_ok padc mh a buf pos buf_size :
  mhdr_ok mh -> attr_ok a -> attr_space padc mh a <= u32 buf_size ->
  Z.of_nat pos + attr_space padc mh a <= Z.of_nat (length buf) ->
  encode_one padc mh a buf pos buf_size
  = Done PJ_SUCCESS (splice buf pos (attr_bytes padc mh a)) (attr_space padc mh a).
Proof.
  intros Hm Ha Hlen Hb. unfold encode_one. pose proof Ha as (_ & Hf & Hl & Hk).
  destruct (find_attr_desc (attr_type a)) as [d|].
  - apply encode_attr_ok; [done..| |done|done]. apply Hk.
  - destruct a as [| | | | | | | |h g d]; try done. destruct Hk as [-> _]. rewrite Z.eqb_refl.
    exact (encode_attr_ok padc mh KBinary _ buf pos _ Hm Ha eq_refl Hlen Hb).
Qed.

(** ** Decoders read them back *)

(** Reads behind the header. *)
Lemma get_hdr t l r p n : p = (4 + n)%nat -> get (ahdr_bytes t l ++ r) p = get r n.
Proof. intros ->. exact (get_shift (ahdr_bytes t l) r n). Qed.
Lemma get16_hdr t l r p n : p = (4 + n)%nat -> GETVAL16H (ahdr_bytes t l ++ r) p = GETVAL16H r n.
Proof. intros ->. exact (get16_shift (ahdr_bytes t l) r n). Qed.
Lemma get32_hdr t l r p n : p = (4 + n)%nat -> GETVAL32H (ahdr_bytes t l ++ r) p = GETVAL32H r n.
Proof. intros ->. exact (get32_shift (ahdr_bytes t l) r n). Qed.
Lemma slice_hdr t l r p n m : p = (4 + n)%nat -> slice (ahdr_bytes t l ++ r) p m = slice r n m.
Proof. intros ->. exact (slice_shift (ahdr_bytes t l) r n m). Qed.

Lemma slice_len x r n : n = length x -> slice (x ++ r) 0 n = Ok x.
Proof. intros ->. apply slice_here. Qed.

Lemma slice_at pre r p m : p = length pre -> slice (pre ++ r) p m = slice r 0 m.
Proof. intros ->. rewrite <- (Nat.add_0_r (length pre)). apply slice_shift. Qed.

Lemma get32_at pre r p : p = length pre -> GETVAL32H (pre ++ r) p = GETVAL32H r 0.
Proof. intros ->. rewrite <- (Nat.add_0_r (length pre)). apply get32_shift. Qed.

Lemma xor_list_cancel a b : (length a <= length b)%nat -> xor_list (xor_list a b) b = a.
Proof.
  unfold xor_list. revert b; induction a as [|x a IH]; intros [|y b] H; cbn [zip_with length] in *; try done; [lia|].
  rewrite IH by lia. by rewrite Z.lxor_assoc, Z.lxor_nilpotent, Z.lxor_0_r.
Qed.

(** Removing the key gives the address back. *)
Lemma xor_addr_cancel mh a : mhdr_ok mh -> sockaddr_ok a ->
  xor_addr (mh_tsx_id mh) (xor_addr (mh_tsx_id mh) a) = a.
Proof.
  intros (_ & _ & _ & Hid) Ha. destruct a as [port addr|port addr|f]; cbn [xor_addr sockaddr_ok] in *; [| |done];
    destruct Ha as (_ & _ & Hl);
    rewrite Z.lxor_assoc, Z.lxor_nilpotent, Z.lxor_0_r, xor_list_cancel; try reflexivity.
  - rewrite Hl. reflexivity.
  - rewrite length_app, Hl, Hid. reflexivity.
Qed.

Lemma decode_sockaddr_bytes t a r : is_u16 t -> sockaddr_ok a ->
  decode_sockaddr_attr (sockaddr_bytes t a ++ r) = Ok (mk_ahdr t (addr_len a + 4), a).
Proof.
  intros Ht Ha. unfold decode_sockaddr_attr.
  destruct a as [port addr|port addr|f]; cbn [sockaddr_ok sockaddr_bytes addr_len] in *; [| |done];
    destruct Ha as (Hp & Hb & Hl); rewrite <- !app_assoc;
    (rewrite read_attr_hdr by (first [exact Ht | by unfold is_u16]));
    cbn [rbind ah_length ah_type Z.eqb Pos.eqb negb andb];
    (rewrite (get_hdr _ _ _ 5 1) by reflexivity); cbn [get app lookup list_lookup rbind Z.eqb Pos.eqb];
    (rewrite (get16_hdr _ _ _ 6 2) by reflexivity);
    match goal with |- context [GETVAL16H (?x :: ?y :: ?rest) 2] =>
      change (GETVAL16H (x :: y :: rest) 2) with (GETVAL16H ([x; y] ++ rest) (length [x; y] + 0)) end;
    rewrite get16_shift, get16_put by exact Hp; cbn [rbind];
    (rewrite (slice_hdr _ _ _ 8 4) by reflexivity);
    match goal with |- context [slice (?x :: ?y :: PUTVAL16H ?p ++ ?rest) 4 ?m] =>
      change (slice (x :: y :: PUTVAL16H p ++ rest) 4 m)
        with (slice (([x; y] ++ PUTVAL16H p) ++ rest) (length ([x; y] ++ PUTVAL16H p) + 0) m) end;
    rewrite slice_shift, slice_len by (by rewrite Hl); reflexivity.
Qed.

Lemma get_types_put l : forall r, Forall is_u16 l ->
  forall pre p, p = length pre -> get_types (pre ++ concat (map PUTVAL16H l) ++ r) p (length l) = Ok l.
Proof.
  induction l as [|t l IH]; intros r Hl pre p ->; [done|].
  apply list.Forall_cons in Hl as [Ht Hl]. cbn [map concat length get_types]. rewrite <- app_assoc.
  rewrite <- (Nat.add_0_r (length pre)) at 1. rewrite get16_shift, get16_put by exact Ht. cbn [rbind].
  rewrite (app_assoc pre). rewrite IH; [reflexivity|exact Hl|]. rewrite length_app. cbn [length PUTVAL16H]. lia.
Qed.

Lemma u16_len n : 0 <= n <= 65528 -> is_u16 n /\ is_u16 (align4 n).
Proof.
  intros Hn. pose proof (align4_bounds n ltac:(lia)) as [H1 H2]. unfold is_u16.
  split; [lia|]. split; [lia|]. lia.
Qed.

Lemma decode_string_bytes padc mh h v r : is_u16 (ah_type h) -> Z.of_nat (length v) <= 65528 ->
  ah_length h = Z.of_nat (length v) ->
  decode_string_attr (attr_bytes padc mh (StringAttr h v) ++ r) = Ok (wire_attr padc mh (StringAttr h v)).
Proof.
  intros Ht Hn Hh. set (n := Z.of_nat (length v)) in *.
  destruct (u16_len n ltac:(lia)) as [Hu Hua]. pose proof (pad_count_spec n ltac:(lia)) as Hp.
  unfold decode_string_attr. cbn [attr_bytes wire_attr]. fold n. rewrite <- !app_assoc.
  rewrite read_attr_hdr by (destruct (padded_string mh (ah_type h)); assumption). cbn [rbind ah_length].
  rewrite (slice_hdr _ _ _ 4 0) by reflexivity. destruct (padded_string mh (ah_type h)).
  - rewrite app_assoc, slice_len; [reflexivity|]. rewrite length_app, length_replicate. lia.
  - rewrite slice_len by lia. destruct h as [t l]; cbn [ah_type ah_length] in *. by subst l.
Qed.

Lemma decode_errcode_bytes mh h c r rest : is_u16 (ah_type h) -> 0 <= c < 25600 ->
  ah_length h = 4 + Z.of_nat (length r) -> ah_length h <= 65528 ->
  decode_errcode_attr (attr_bytes 0 mh (ErrcodeAttr h c r) ++ rest) = Ok (ErrcodeAttr h c r).
Proof.
  intros Ht Hc Hh Hl. unfold decode_errcode_attr. cbn [attr_bytes]. rewrite <- Hh, <- !app_assoc.
  rewrite read_attr_hdr by (first [exact Ht|unfold is_u16; lia]). cbn [rbind ah_length].
  rewrite (get_hdr _ _ _ 6 2), (get_hdr _ _ _ 7 3) by reflexivity. cbn [get app lookup list_lookup rbind].
  destruct (Z.ltb_spec (ah_length h - 4) 0); [lia|].
  rewrite (slice_hdr _ _ _ 8 4) by reflexivity.
  change (0 :: 0 :: c / 100 :: c mod 100 :: r ++ rest) with ([0; 0; c / 100; c mod 100] ++ (r ++ rest)).
  rewrite slice_at, slice_len by (first [reflexivity|lia]). cbn [rbind].
  replace (c / 100 * 100 + c mod 100) with c by (Z.to_euclidean_division_equations; lia).
  by destruct h.
Qed.

(** Every decoder gives the attribute back, as it looks on the wire. *)
Lemma decode_attr_ok padc mh k a r : mhdr_ok mh -> attr_ok a -> kind_ok k a ->
  (exists d, find_attr_desc (attr_type a) = Some d) ->
  decode_attr k (attr_bytes padc mh a ++ r) mh = Ok (wire_attr padc mh a).
Proof.
  intros Hm (Ht & Hf & Hl & _) [Hk Hx] [d Hd].
  assert (Hu : is_u16 (ah_length (attr_hdr a)) \/ ah_length (attr_hdr a) < 0) by (unfold is_u16; lia).
  destruct a as [h x s|h v|h|h v|h hi lo|h m|h c rs|h l|h g dt]; cbn [attr_hdr fields_ok attr_type] in *;
    destruct k; try discriminate Hk; cbn [decode_attr kind_ok] in *.
  - subst x. destruct Hf as [Hs Hh]. unfold decode_plain_sockaddr. cbn [attr_bytes wire_attr].
    rewrite decode_sockaddr_bytes by assumption. cbn [rbind fst snd]. rewrite <- Hh. by destruct h.
  - subst x. destruct Hf as [Hs Hh]. unfold decode_xored_sockaddr_attr. cbn [attr_bytes wire_attr].
    destruct (xor_addr_ok mh s Hm Hs) as [Hs' Es]. rewrite decode_sockaddr_bytes by assumption.
    cbn [rbind fst snd]. rewrite Es, <- Hh.
    pose proof (xor_addr_cancel mh s Hm Hs) as Ec.
    destruct (xor_addr (mh_tsx_id mh) s) as [| |f] eqn:E; [by rewrite Ec; destruct h..|done].
  - destruct Hf as [_ Hh]. apply decode_string_bytes; [exact Ht|lia|exact Hh].
  - unfold decode_empty_attr. cbn [attr_bytes wire_attr].
    rewrite read_attr_hdr by (first [exact Ht|by unfold is_u16]). cbn [rbind ah_length Z.eqb negb].
    rewrite <- Hf. by destruct h.
  - destruct Hf as [Hv Hh]. unfold decode_uint_attr. cbn [attr_bytes wire_attr]. rewrite <- app_assoc.
    rewrite read_attr_hdr by (first [exact Ht|by unfold is_u16]). cbn [rbind ah_length].
    rewrite (get32_hdr _ _ _ 4 0), get32_put by (first [reflexivity|exact Hv]).
    cbn [rbind Z.eqb Pos.eqb negb]. rewrite <- Hh. by destruct h.
  - destruct Hf as (Hhi & Hlo & Hh). unfold decode_uint64_attr. cbn [attr_bytes wire_attr]. rewrite <- !app_assoc.
    rewrite read_attr_hdr by (first [exact Ht|by unfold is_u16]). cbn [rbind ah_length Z.eqb Pos.eqb negb].
    rewrite (get32_hdr _ _ _ 4 0), get32_put by (first [reflexivity|exact Hhi]). cbn [rbind].
    rewrite (get32_hdr _ _ _ 8 4) by reflexivity.
    rewrite get32_at, get32_put by (first [reflexivity|exact Hlo]).
    cbn [rbind]. rewrite <- Hh. by destruct h.
  - destruct Hf as (Hb & H20 & Hh). unfold decode_msgint_attr. cbn [attr_bytes wire_attr]. rewrite <- app_assoc.
    rewrite read_attr_hdr by (first [exact Ht|rewrite Hh; by unfold is_u16]). cbn [rbind ah_length].
    rewrite Hh. cbn [Z.eqb Pos.eqb negb].
    rewrite (slice_hdr _ _ _ 4 0), slice_len by (first [reflexivity|by rewrite H20]).
    cbn [rbind]. rewrite <- Hh. by destruct h.
  - destruct Hf as (Hc & Hb & Hh). exact (decode_errcode_bytes mh h c rs r Ht Hc Hh Hl).
  - destruct Hf as (Hb & H16 & Hh). unfold decode_unknown_attr. cbn [attr_bytes wire_attr]. rewrite <- app_assoc.
    rewrite read_attr_hdr by (first [exact Ht|unfold is_u16; lia]). cbn [rbind ah_length].
    rewrite Z.shiftr_div_pow2 by lia. change (2 ^ 1) with 2. rewrite Z.mul_comm, Z.div_mul by lia.
    unfold PJ_STUN_MAX_ATTR. rewrite Z.gtb_ltb. destruct (Z.ltb_spec 16 (Z.of_nat (length l))); [lia|].
    rewrite Nat2Z.id, (get_types_put l r Hb (ahdr_bytes _ _) 4) by reflexivity.
    cbn [rbind]. rewrite Z.mul_comm, <- Hh. by destruct h.
  - destruct Hf as (Hb & Hh). unfold decode_binary_attr. cbn [attr_bytes wire_attr].
    change (attr_type (BinaryAttr h g dt)) with (ah_type h) in Hd. rewrite Hd, <- app_assoc.
    rewrite read_attr_hdr by (first [exact Ht|unfold is_u16; lia]). cbn [rbind ah_length].
    rewrite (slice_hdr _ _ _ 4 0), slice_len by (first [reflexivity|lia]).
    cbn [rbind]. rewrite <- Hh. by destruct h.
Qed.

(** ** What is written are bytes *)

Lemma ahdr_bytes_ok t l : is_u16 t -> is_u16 l -> bytes_ok (ahdr_bytes t l).
Proof. intros. apply Forall_app; split; by apply put16_ok. Qed.

Lemma put32_ok v : is_u32 v -> bytes_ok (PUTVAL32H v).
Proof. intros Hv. rewrite put32_bytes by exact Hv. by apply store32_bytes. Qed.

Lemma sockaddr_bytes_ok t a : is_u16 t -> sockaddr_ok a -> bytes_ok (sockaddr_bytes t a).
Proof.
  intros Ht Ha. destruct a as [port addr|port addr|f]; cbn [sockaddr_ok sockaddr_bytes] in *; [| |done];
    destruct Ha as (Hp & Hb & _); repeat (apply Forall_app; split);
    try (by apply put16_ok); try exact Hb; try (by unfold is_u16); repeat constructor; lia.
Qed.

Lemma attr_bytes_ok padc mh a : mhdr_ok mh -> attr_ok a -> bytes_ok (attr_bytes padc mh a).
Proof.
  intros Hm (Ht & Hf & Hl & _).
  destruct a as [h x s|h v|h|h v|h hi lo|h m|h c r|h l|h g d];
    cbn [attr_bytes fields_ok attr_hdr attr_type] in *.
  - apply sockaddr_bytes_ok; [exact Ht|]. destruct x; [apply (xor_addr_ok mh s Hm (proj1 Hf))|apply Hf].
  - destruct Hf as [Hv Hh]. destruct (u16_len (Z.of_nat (length v)) ltac:(lia)) as [Hu Hua].
    apply Forall_app; split; [apply ahdr_bytes_ok; [exact Ht|by destruct (padded_string mh (ah_type h))]|].
    apply Forall_app; split; [exact Hv|]. apply Forall_replicate, u8_range.
  - apply ahdr_bytes_ok; [exact Ht|by unfold is_u16].
  - destruct Hf as [Hv _]. apply Forall_app; split; [apply ahdr_bytes_ok; [exact Ht|by unfold is_u16]|by apply put32_ok].
  - destruct Hf as (Hhi & Hlo & _). apply Forall_app; split; [apply ahdr_bytes_ok; [exact Ht|by unfold is_u16]|].
    apply Forall_app; split; by apply put32_ok.
  - destruct Hf as (Hb & _ & Hh). apply Forall_app; split; [|exact Hb].
    apply ahdr_bytes_ok; [exact Ht|rewrite Hh; by unfold is_u16].
  - destruct Hf as (Hc & Hb & Hh). apply Forall_app; split; [apply ahdr_bytes_ok; [exact Ht|unfold is_u16; lia]|].
    change (bytes_ok ([0; 0; c / 100; c mod 100] ++ r)). apply Forall_app; split; [|exact Hb].
    rewrite !list.Forall_cons, list.Forall_nil. unfold is_u8. Z.to_euclidean_division_equations; lia.
  - destruct Hf as (Hb & H16 & Hh). apply Forall_app; split; [apply ahdr_bytes_ok; [exact Ht|unfold is_u16; lia]|].
    clear Hh H16 Ht. induction Hb as [|t l Ht' _ IH]; [constructor|]. cbn [map concat].
    apply Forall_app; split; [by apply put16_ok|exact IH].
  - destruct Hf as (Hb & Hh). apply Forall_app; split; [|exact Hb].
    apply ahdr_bytes_ok; [exact Ht|unfold is_u16; lia].
Qed.
