(* ===== verification/StunRoundtrip.v ===== *)
(** * Messages survive the wire

    [StunAttr] lifted to messages: what [pj_stun_msg_encode] lays out, with
    MESSAGE-INTEGRITY and FINGERPRINT computed over the right bytes, and that
    [pj_stun_msg_decode] gives the message back. *)

From Stdlib Require Import ZArith Lia Bool String.
From stdpp Require Import base list numbers.
From S2P Require Import Prelude.
From S2P Require Import PjString.
From S2P Require Import Words.
From S2P Require Import Blocks.
From S2P Require Import Crc32.
From S2P Require Import Sha1.
From S2P Require Import Hmac.
From S2P Require Import StunMsg.
From S2P Require Import StunCodec.
From S2P Require Import StunAttr.
Local Open Scope Z_scope.
Local Open Scope stun_scope.

Definition is_some {A} (o : option A) : bool := match o with Some _ => true | None => false end.

Definition opt_list {A} (o : option A) : list A := match o with Some x => [x] | None => [] end.

(** ** Messages a client may send

    Attributes of any kind, then at most one MESSAGE-INTEGRITY, then at most one
    FINGERPRINT. *)

Definition mi_attr (hmac : list Z) : stun_attr :=
  MsgintAttr (INIT_ATTR PJ_STUN_ATTR_MESSAGE_INTEGRITY 20) hmac.
Definition fp_attr (value : Z) : stun_attr := UintAttr (INIT_ATTR PJ_STUN_ATTR_FINGERPRINT 4) value.

Definition stun_msg (h : pj_stun_msg_hdr) (normal : list stun_attr) (mi : option (list Z))
    (fp : option Z) : pj_stun_msg :=
  mk_msg h (normal ++ opt_list (mi_attr <$> mi) ++ opt_list (fp_attr <$> fp)).

Definition normal_attr (a : stun_attr) : Prop :=
  attr_ok a /\ attr_type a <> PJ_STUN_ATTR_MESSAGE_INTEGRITY /\ attr_type a <> PJ_STUN_ATTR_FINGERPRINT.

Definition space_of (padc : Z) (h : pj_stun_msg_hdr) (l : list stun_attr) : Z :=
  foldr Z.add 0 (map (attr_space padc h) l).

Definition env_ok (env : stun_env) : Prop :=
  length (sha_buffer (hm_context (env_hctx env))) = 64%nat /\ length (sha_buffer (env_tctx env)) = 64%nat.

(** The bytes an attribute occupies: its own and the padding. *)
Definition chunk_of (padc : Z) (h : pj_stun_msg_hdr) (a : stun_attr) (c : list Z) : Prop :=
  exists padding, c = attr_bytes padc h a ++ padding /\ Z.of_nat (length c) = attr_space padc h a.

(** ** The digests of the environment *)

Lemma message_mac_ok env key bytes : env_ok env -> piece_ok (2 ^ 29) key -> piece_ok (2 ^ 29) bytes ->
  message_mac env key bytes = @hmac_spec _ (sha1_digest (env_endian env)) key bytes
  /\ bytes_ok (message_mac env key bytes) /\ length (message_mac env key bytes) = 20%nat.
Proof.
  intros [H1 H2] Hk Hb.
  assert (E : message_mac env key bytes = @hmac_spec _ (sha1_digest (env_endian env)) key bytes).
  { pose proof (@hmac_stream _ (sha1_digest (env_endian env)) (env_hctx env) (env_tctx env) key [bytes]
                  H1 H2 Hk ltac:(constructor; [exact Hb|constructor])) as E.
    cbn [fold_left concat] in E. rewrite app_nil_r in E. exact E. }
  rewrite E. split; [reflexivity|]. unfold hmac_spec. split; apply sha1_fips_ok.
Qed.

Lemma fingerprint_ok env bytes : bytes_ok bytes -> is_u32 (fingerprint env bytes).
Proof.
  intros H. apply u32_lxor; [by apply crc32_calc_range|]. unfold is_u32, STUN_XOR_FINGERPRINT; lia.
Qed.

(** ** The first loop *)

(** A write further on leaves what lies between. *)
Lemma splice_gap buf pos a n b : (length a <= n)%nat -> (pos + n + length b <= length buf)%nat ->
  splice (splice buf pos a) (pos + n) b
  = splice buf pos (a ++ take (n - length a) (drop (pos + length a) buf) ++ b).
Proof.
  intros Ha Hb. set (g := take (n - length a) (drop (pos + length a) buf)).
  assert (Hg : length g = (n - length a)%nat) by (unfold g; rewrite length_take, length_drop; lia).
  assert (E : splice buf pos a = splice buf pos (a ++ g)).
  { unfold splice. rewrite length_app, Hg, <- !app_assoc. f_equal. f_equal. unfold g.
    replace (pos + (length a + (n - length a)))%nat with (pos + length a + (n - length a))%nat by lia.
    rewrite <- (take_drop (n - length a) (drop (pos + length a) buf)) at 1. by rewrite drop_drop. }
  rewrite E. replace (pos + n)%nat with (pos + length (a ++ g))%nat by (rewrite length_app, Hg; lia).
  rewrite splice_splice by (rewrite length_app, Hg; lia). by rewrite <- app_assoc.
Qed.

Lemma attr_space_bounds padc h a : mhdr_ok h -> attr_ok a ->
  Z.of_nat (length (attr_bytes padc h a)) <= attr_space padc h a <= 65536 /\ 4 <= attr_space padc h a.
Proof.
  intros Hm Ha. pose proof Ha as (_ & Hf & Hl & _).
  destruct (attr_bytes_length padc h a Hm Hf Hl) as [Hb E].
  pose proof (align4_bounds (Z.of_nat (length (attr_bytes padc h a))) ltac:(lia)) as [H1 H2].
  unfold attr_space. split; [|].
  - split; [lia|]. Z.to_euclidean_division_equations; lia.
  - assert (0 <= ah_length (attr_hdr a)); [|lia].
    destruct a as [? ? s|? v|?|? ?|? ? ?|? ?|? ? r|? l|? ? d]; cbn [fields_ok attr_hdr] in *;
      try (destruct Hf as (_ & _ & ->) || destruct Hf as (_ & ->) || rewrite Hf); try lia.
    destruct s; cbn [addr_len]; lia.
Qed.

Lemma space_of_nonneg padc h l : mhdr_ok h -> Forall normal_attr l -> 0 <= space_of padc h l.
Proof.
  intros Hm. induction 1 as [|a l [Ha _] _ IH]; [done|]. cbn [space_of map foldr] in *.
  pose proof (attr_space_bounds padc h a Hm Ha). fold (space_of padc h l). lia.
Qed.

Lemma encode_normal padc h l : forall tail i buf pos bs, mhdr_ok h -> Forall normal_attr l ->
  space_of padc h l <= bs < 2 ^ 32 ->
  Z.of_nat pos + space_of padc h l <= Z.of_nat (length buf) ->
  exists chunks, Forall2 (chunk_of padc h) l chunks
    /\ Z.of_nat (length (concat chunks)) = space_of padc h l
    /\ (bytes_ok buf -> bytes_ok (concat chunks))
    /\ encode_attrs padc h (l ++ tail) i buf pos bs
       = encode_attrs padc h tail (i + length l) (splice buf pos (concat chunks))
           (pos + length (concat chunks)) (bs - space_of padc h l).
Proof.
  induction l as [|a l IH]; intros tail i buf pos bs Hm Hl Hbs Hb.
  { exists []. split; [constructor|]. split; [done|]. split; [constructor|]. cbn [concat length app space_of map foldr].
    rewrite !Nat.add_0_r, Z.sub_0_r. unfold splice. by rewrite Nat.add_0_r, app_nil_l, take_drop. }
  apply list.Forall_cons in Hl as [(Ha & Hn1 & Hn2) Hl].
  cbn [space_of map foldr] in Hbs, Hb |- *. fold (space_of padc h l) in *.
  pose proof (space_of_nonneg padc h l Hm Hl) as H0.
  destruct (attr_space_bounds padc h a Hm Ha) as [[Hs1 Hs2] Hs3].
  set (sp := attr_space padc h a) in *. set (bytes := attr_bytes padc h a) in *.
  cbn [app encode_attrs]. rewrite (proj2 (Z.eqb_neq _ _) Hn1), (proj2 (Z.eqb_neq _ _) Hn2).
  rewrite encode_one_ok; [|exact Hm|exact Ha|fold sp; rewrite u32_small; unfold is_u32; lia|fold sp; lia].
  fold sp bytes. cbn [negb Z.eqb PJ_SUCCESS].
  assert (Eu : u64 (bs - sp) = bs - sp) by (unfold u64; apply Z.mod_small; lia). rewrite Eu.
  assert (Hlb : length (splice buf pos bytes) = length buf) by (apply splice_length; lia).
  destruct (IH tail (S i) (splice buf pos bytes) (pos + Z.to_nat sp)%nat (bs - sp) Hm Hl)
    as (chunks & Hc & Hcl & Hcb & E); [lia|rewrite Hlb; lia|].
  set (g := take (Z.to_nat sp - length bytes) (drop (pos + length bytes) buf)).
  assert (Hg : length g = (Z.to_nat sp - length bytes)%nat) by (unfold g; rewrite length_take, length_drop; lia).
  exists ((bytes ++ g) :: chunks). cbn [concat length].
  split; [constructor; [|exact Hc]|split; [|split]].
  - exists g. split; [done|]. rewrite length_app, Hg. fold sp. lia.
  - rewrite !length_app, Hg. lia.
  - intros Hbb. assert (Hab : bytes_ok bytes) by (by apply attr_bytes_ok).
    apply Forall_app; split; [apply Forall_app; split; [exact Hab|by apply list.Forall_take, list.Forall_drop]|].
    by apply Hcb, splice_bytes.
  - rewrite E. rewrite splice_gap by lia. fold g. rewrite <- app_assoc.
    rewrite !length_app, Hg. f_equal; lia.
Qed.

(** ** The header and its length field *)

Definition head (h : pj_stun_msg_hdr) (l : Z) : list Z :=
  PUTVAL16H (mh_type h) ++ PUTVAL16H l ++ PUTVAL32H (mh_magic h) ++ mh_tsx_id h.

Lemma head_length h l : mhdr_ok h -> length (head h l) = 20%nat.
Proof. intros (_ & _ & _ & Hl). unfold head. rewrite !length_app, Hl. reflexivity. Qed.

Lemma head_bytes h l : mhdr_ok h -> is_u16 l -> bytes_ok (head h l).
Proof.
  intros (Ht & Hm & Hb & _) Hl. unfold head. apply Forall_app; split; [by apply put16_ok|].
  apply Forall_app; split; [by apply put16_ok|]. apply Forall_app; split; [|exact Hb].
  rewrite put32_bytes by exact Hm. by apply store32_bytes.
Qed.

Lemma splice_zero buf x : (length x <= length buf)%nat -> splice buf 0 x = x ++ drop (length x) buf.
Proof. intros. unfold splice. by rewrite take_0, app_nil_l. Qed.

(** Rewriting bytes in the middle. *)
Lemma splice_patch buf a b c b' : length b = length b' ->
  (length (a ++ b ++ c) <= length buf)%nat ->
  splice (splice buf 0 (a ++ b ++ c)) (length a) b' = splice buf 0 (a ++ b' ++ c).
Proof.
  intros Hb Hl. rewrite splice_zero by exact Hl. unfold splice at 1.
  rewrite <- !app_assoc, take_app_length. f_equal.
  rewrite drop_app_ge by lia. replace (length a + length b' - length a)%nat with (length b) by lia.
  rewrite drop_app_length. rewrite !length_app in *. unfold splice.
  rewrite take_0, app_nil_l, !length_app, Hb, <- !app_assoc. done.
Qed.

Lemma set_length h l l' x buf : (20 + length x <= length buf)%nat -> mhdr_ok h ->
  splice (splice buf 0 (head h l ++ x)) 2 (PUTVAL16H l') = splice buf 0 (head h l' ++ x).
Proof.
  intros Hl Hh. pose proof (head_length h l Hh) as E. unfold head in *. rewrite <- !app_assoc.
  apply (splice_patch buf (PUTVAL16H (mh_type h)) (PUTVAL16H l)); [reflexivity|].
  rewrite !app_assoc, length_app. rewrite <- !app_assoc. lia.
Qed.

Lemma get_length h l r : is_u16 l -> GETVAL16H (head h l ++ r) 2 = Ok l.
Proof.
  intros Hl. unfold head. rewrite <- !app_assoc.
  rewrite (get16_shift (PUTVAL16H (mh_type h)) _ 0 : GETVAL16H _ 2 = _). by apply get16_put.
Qed.

Definition with_len (h : pj_stun_msg_hdr) (l : Z) : pj_stun_msg_hdr :=
  mk_mhdr (mh_type h) l (mh_magic h) (mh_tsx_id h).

(** ** The end of the encoder *)

Lemma take_written buf x n : n = length x -> (length x <= length buf)%nat ->
  take n (splice buf 0 x) = x.
Proof. intros -> Hl. rewrite splice_zero by exact Hl. apply take_app_length. Qed.

Section Layout.
Context (env : stun_env) (padc : Z) (h : pj_stun_msg_hdr) (buf : list Z).
Hypothesis Hh : mhdr_ok h.
Hypothesis Hbuf : Z.of_nat (length buf) < 2 ^ 29.

Let written (x : list Z) : list Z := splice buf 0 x.

Lemma encode_end_plain attrs x bs :
  encode_end env (mk_msg h attrs) None (written x) (length x) bs
  = Encoded PJ_SUCCESS (mk_msg (with_len h (u16 (Z.of_nat (length x) - 20))) attrs) (written x)
      (Some (Z.of_nat (length x))).
Proof. reflexivity. Qed.

(** The fingerprint of everything before it, with the final length. *)
Lemma encode_end_fp attrs old x l bs : is_u16 l -> is_u16 (l + 8) ->
  bytes_ok x -> 8 <= bs < 2 ^ 32 ->
  (20 + length x + 8 <= length buf)%nat ->
  let i := length attrs in
  let v := fingerprint env (head h (l + 8) ++ x) in
  let y := head h (l + 8) ++ x ++ attr_bytes padc h (fp_attr v) in
  encode_end env (mk_msg h (attrs ++ [fp_attr old])) (Some i) (written (head h l ++ x)) (20 + length x) bs
  = Encoded PJ_SUCCESS (mk_msg (with_len h (u16 (Z.of_nat (length y) - 20))) (attrs ++ [fp_attr v]))
      (written y) (Some (Z.of_nat (length y))) /\ is_u32 v.
Proof.
  intros Hl Hl8 Hx Hbs Hb i v y. unfold encode_end. cbn [msg_attr].
  unfold i. rewrite list_lookup_middle by reflexivity. cbn [fp_attr].
  assert (Hlx : length (head h l ++ x) = (20 + length x)%nat) by (rewrite length_app, head_length by exact Hh; done).
  assert (Hly : length (head h (l + 8) ++ x) = (20 + length x)%nat) by (rewrite length_app, head_length by exact Hh; done).
  unfold written. rewrite splice_zero, <- app_assoc, get_length by (exact Hl || lia).
  rewrite app_assoc, <- splice_zero by lia. rewrite (u16_small (l + 8)) by exact Hl8.
  rewrite set_length by (exact Hh || lia). rewrite take_written by lia. fold v.
  assert (Hv : is_u32 v).
  { apply fingerprint_ok, Forall_app. split; [by apply head_bytes|exact Hx]. }
  unfold encode_uint_attr. rewrite u32_small by (unfold is_u32; lia).
  destruct (Z.ltb_spec bs 8); [lia|].
  rewrite <- Hly. change (length (head h (l + 8) ++ x)) with (0 + length (head h (l + 8) ++ x))%nat at 1.
  rewrite write_behind by (cbn [length PUTVAL16H]; lia).
  rewrite write_at by (rewrite ?length_app; cbn [length PUTVAL16H]; rewrite ?head_length by exact Hh; lia).
  rewrite write_at by (rewrite ?length_app; cbn [length PUTVAL16H PUTVAL32H]; rewrite ?head_length by exact Hh; lia).
  cbn [negb Z.eqb PJ_SUCCESS]. split; [|exact Hv].
  assert (Ey : (((head h (l + 8) ++ x) ++ PUTVAL16H (ah_type (INIT_ATTR PJ_STUN_ATTR_FINGERPRINT 4)))
                 ++ PUTVAL16H 4) ++ PUTVAL32H v = y).
  { unfold y. cbn [attr_bytes fp_attr]. unfold ahdr_bytes. by rewrite <- !app_assoc. }
  rewrite Ey. assert (Hyl : length y = (length (head h (l + 8) ++ x) + Z.to_nat 8)%nat).
  { rewrite <- Ey, !length_app. cbn [length PUTVAL16H PUTVAL32H]. lia. }
  rewrite <- Hyl. cbn [msg_hdr msg_attr set_attr]. f_equal.
  unfold set_attr. cbn [msg_hdr msg_attr]. unfold with_len. f_equal.
  rewrite insert_app_r_alt, Nat.sub_diag by lia. reflexivity.
Qed.

(** The code over everything before it, with a length that counts it. *)
Lemma encode_mac_mi key attrs old tl fpi b l bs :
  env_ok env -> piece_ok (2 ^ 29) key -> is_u16 l -> bytes_ok b -> 24 <= bs < 2 ^ 32 ->
  (20 + length b + 24 <= length buf)%nat -> (length (attrs ++ mi_attr old :: tl) <= 16)%nat ->
  let mac := message_mac env key (head h l ++ b) in
  let y := head h l ++ b ++ attr_bytes padc h (mi_attr mac) in
  encode_mac env (Some key) (mk_msg h (attrs ++ mi_attr old :: tl)) (length (attrs ++ mi_attr old :: tl))
    (Some (length attrs)) fpi (written (head h l ++ b)) (20 + length b) bs
  = encode_end env (mk_msg h (attrs ++ mi_attr mac :: tl)) fpi (written y) (length y) (bs - 24)
  /\ bytes_ok mac /\ length mac = 20%nat /\ length y = (20 + length b + 24)%nat.
Proof.
  intros Henv Hkey Hl Hb Hbs Hlen Hcount mac y.
  assert (Hlx : length (head h l ++ b) = (20 + length b)%nat) by (rewrite length_app, head_length by exact Hh; done).
  assert (Hxb : piece_ok (2 ^ 29) (head h l ++ b)).
  { split; [apply Forall_app; split; [by apply head_bytes|exact Hb]|lia]. }
  destruct (message_mac_ok env key _ Henv Hkey Hxb) as (_ & Hmb & Hml). fold mac in Hmb, Hml.
  assert (Hcount1 : (1 <= length (attrs ++ mi_attr old :: tl))%nat) by (rewrite length_app; simpl; lia).
  unfold encode_mac. cbn [msg_attr]. set (count := length (attrs ++ mi_attr old :: tl)) in *.
  assert (E1 : (Z.of_nat count >? 1) && (Z.of_nat count <? u32 (Z.of_nat count - 2)) = false).
  { destruct (Z.gtb_spec (Z.of_nat count) 1); [|reflexivity]. cbn [andb].
    apply Z.ltb_ge. rewrite u32_small by (unfold is_u32; lia). lia. }
  rewrite E1. assert (E2 : (Z.of_nat count =? u32 (Z.of_nat count - 2)) = false).
  { apply Z.eqb_neq. int_lia. }
  rewrite E2. rewrite list_lookup_middle by reflexivity. cbn [mi_attr].
  unfold written. rewrite take_written by lia. fold mac.
  unfold encode_msgint_attr. rewrite u32_small by (unfold is_u32; lia).
  destruct (Z.ltb_spec bs 24); [lia|].
  rewrite <- Hlx. change (length (head h l ++ b)) with (0 + length (head h l ++ b))%nat at 1.
  rewrite write_behind by (cbn [length PUTVAL16H]; lia).
  rewrite write_at by (rewrite ?length_app; cbn [length PUTVAL16H]; rewrite ?head_length by exact Hh; lia).
  rewrite write_at by (rewrite ?length_app, ?Hml; cbn [length PUTVAL16H]; rewrite ?head_length by exact Hh; lia).
  cbn [negb Z.eqb PJ_SUCCESS].
  assert (Ey : (((head h l ++ b) ++ PUTVAL16H (ah_type (INIT_ATTR PJ_STUN_ATTR_MESSAGE_INTEGRITY 20)))
                 ++ PUTVAL16H (ah_length (INIT_ATTR PJ_STUN_ATTR_MESSAGE_INTEGRITY 20))) ++ mac = y).
  { unfold y. cbn [attr_bytes mi_attr]. unfold ahdr_bytes. by rewrite <- !app_assoc. }
  rewrite Ey. assert (Hyl : length y = (length (head h l ++ b) + Z.to_nat 24)%nat).
  { rewrite <- Ey, !length_app, Hml. cbn [length PUTVAL16H]. lia. }
  rewrite <- Hyl. replace (u64 (bs - 24)) with (bs - 24) by (unfold u64; rewrite Z.mod_small; lia).
  unfold set_attr. cbn [msg_hdr msg_attr]. rewrite insert_app_r_alt, Nat.sub_diag by lia.
  split; [reflexivity|]. split; [exact Hmb|]. split; [exact Hml|]. rewrite Hyl, Hlx. lia.
Qed.
End Layout.

(** ** The whole encoder *)

(** The bytes of a message with body [b], its authentication code and its
    fingerprint. *)
Definition mac_part (env : stun_env) (padc : Z) (h : pj_stun_msg_hdr) (mi : bool) (key b : list Z) : list Z :=
  if mi then message_mac env key (head h (Z.of_nat (length b) + 24) ++ b) else [].
Definition mac_bytes (env : stun_env) (padc : Z) (h : pj_stun_msg_hdr) (mi : bool) (key b : list Z) : list Z :=
  if mi then attr_bytes padc h (mi_attr (mac_part env padc h mi key b)) else [].
Definition fp_part (env : stun_env) (h : pj_stun_msg_hdr) (x : list Z) : Z :=
  fingerprint env (head h (Z.of_nat (length x) + 8) ++ x).

Definition message_bytes (env : stun_env) (padc : Z) (h : pj_stun_msg_hdr) (mi fp : bool)
    (key b : list Z) : list Z :=
  let x := b ++ mac_bytes env padc h mi key b in
  if fp then head h (Z.of_nat (length x) + 8) ++ x ++ attr_bytes padc h (fp_attr (fp_part env h x))
  else head h (Z.of_nat (length x)) ++ x.

(** The length of the body with what follows it. *)
Definition body_size (padc : Z) (h : pj_stun_msg_hdr) (normal : list stun_attr) (mi fp : bool) : Z :=
  space_of padc h normal + (if mi then 24 else 0) + (if fp then 8 else 0).

(** The message the encoder leaves: length, code and fingerprint are set. *)
Definition sent_msg (env : stun_env) (padc : Z) (h : pj_stun_msg_hdr) (normal : list stun_attr)
    (mi : option (list Z)) (fp : option Z) (key b : list Z) : pj_stun_msg :=
  let m := is_some mi in
  stun_msg (with_len h (body_size padc h normal m (is_some fp))) normal
    (match mi with Some _ => Some (mac_part env padc h m key b) | None => None end)
    (match fp with Some _ => Some (fp_part env h (b ++ mac_bytes env padc h m key b)) | None => None end).

Section Encode.
Context (env : stun_env) (padc : Z) (h : pj_stun_msg_hdr) (normal : list stun_attr) (buf key : list Z).
Hypothesis Henv : env_ok env.
Hypothesis Hh : mhdr_ok h.
Hypothesis Hnormal : Forall normal_attr normal.
Hypothesis Hbytes : bytes_ok buf.
Hypothesis Hbuf : Z.of_nat (length buf) < 2 ^ 29.
Hypothesis Hkey : piece_ok (2 ^ 29) key.

Lemma encode_start tail : 20 + space_of padc h normal <= Z.of_nat (length buf) ->
  exists chunks, Forall2 (chunk_of padc h) normal chunks
    /\ Z.of_nat (length (concat chunks)) = space_of padc h normal /\ bytes_ok (concat chunks)
    /\ encode_attrs padc h (normal ++ tail) 0 (splice buf 0 (head h 0)) 20 (Z.of_nat (length buf) - 20)
       = encode_attrs padc h tail (length normal) (splice buf 0 (head h 0 ++ concat chunks))
           (20 + length (concat chunks)) (Z.of_nat (length buf) - 20 - space_of padc h normal).
Proof.
  intros Hs. pose proof (head_length h 0 Hh) as Hl.
  pose proof (space_of_nonneg padc h normal Hh Hnormal) as H0.
  destruct (encode_normal padc h normal tail 0 (splice buf 0 (head h 0)) 20 (Z.of_nat (length buf) - 20) Hh Hnormal)
    as (chunks & Hc & Hcl & Hcb & E); [lia|rewrite splice_length; lia|].
  exists chunks. split; [exact Hc|]. split; [exact Hcl|]. split.
  { apply Hcb, splice_bytes; [exact Hbytes|]. apply head_bytes; [exact Hh|by unfold is_u16]. }
  rewrite E. f_equal.
  rewrite <- Hl at 1. apply (splice_splice buf 0 (head h 0) (concat chunks)). lia.
Qed.

Lemma drop_tail (a : stun_attr) tl : drop (S (length normal)) (normal ++ a :: tl) = tl.
Proof. by rewrite cons_middle, app_assoc, drop_app_length' by (rewrite length_app; simpl; lia). Qed.

(** The second loop behind the attributes. *)
Lemma scan_tail (mi : option (list Z)) (fp : option Z) : let tail := opt_list (mi_attr <$> mi) ++ opt_list (fp_attr <$> fp) in
  let n := length normal in
  forall b pos bs, exists i0 mi0 fp0 i1,
    encode_attrs padc h tail n b pos bs = Loop1 i0 mi0 fp0 b pos bs
    /\ scan_attrs (drop (S i0) (normal ++ tail)) (S i0) mi0 fp0
       = inl (i1, (match mi with Some _ => Some n | None => None end),
              (match fp with Some _ => Some (n + (if is_some mi then 1 else 0))%nat | None => None end))
    /\ (mi <> None -> i1 = length (normal ++ tail)).
Proof.
  intros tail n b pos bs. unfold tail. destruct mi as [old|], fp as [v|];
    cbn [opt_list fmap option_fmap option_map app is_some].
  - exists n, (Some n), None, (S (S n)). split; [reflexivity|]. unfold n. rewrite drop_tail.
    split; [|intros _; rewrite length_app; simpl; lia].
    cbn [scan_attrs]. rewrite Nat.add_1_r. reflexivity.
  - exists n, (Some n), None, (S n). split; [reflexivity|]. unfold n. rewrite drop_tail.
    split; [reflexivity|intros _; rewrite length_app; simpl; lia].
  - exists n, None, (Some n), (S n). split; [reflexivity|]. unfold n. rewrite drop_tail.
    split; [by rewrite Nat.add_0_r|done].
  - exists n, None, None, (S n). split; [reflexivity|]. unfold n. rewrite app_nil_r, drop_ge by lia.
    split; [reflexivity|done].
Qed.

Lemma mi_bytes_length mac : length mac = 20%nat -> length (attr_bytes padc h (mi_attr mac)) = 24%nat.
Proof. intros Hl. cbn [attr_bytes mi_attr]. unfold ahdr_bytes. rewrite !length_app, Hl. reflexivity. Qed.

Lemma fp_bytes_length v : length (attr_bytes padc h (fp_attr v)) = 8%nat.
Proof. reflexivity. Qed.

(** The encoder up to the authentication code. *)
Lemma encode_to_mac (mi : option (list Z)) (fp : option Z) :
  20 + body_size padc h normal (is_some mi) (is_some fp) <= Z.of_nat (length buf) ->
  body_size padc h normal (is_some mi) (is_some fp) <= 65535 ->
  exists chunks, Forall2 (chunk_of padc h) normal chunks
    /\ Z.of_nat (length (concat chunks)) = space_of padc h normal /\ bytes_ok (concat chunks)
    /\ exists i, (mi <> None -> i = length (msg_attr (stun_msg h normal mi fp)))
    /\ pj_stun_msg_encode env padc (stun_msg h normal mi fp) buf 0 (Some key)
       = let b := concat chunks in
         encode_mac env (Some key) (stun_msg h normal mi fp) i
           (match mi with Some _ => Some (length normal) | None => None end)
           (match fp with Some _ => Some (length normal + (if is_some mi then 1 else 0))%nat | None => None end)
           (splice buf 0 (head h (Z.of_nat (length b) + (if is_some mi then 24 else 0)) ++ b)) (20 + length b)
           (Z.of_nat (length buf) - 20 - space_of padc h normal).
Proof.
  intros Hb Hsz. unfold body_size in *.
  pose proof (space_of_nonneg padc h normal Hh Hnormal) as H0.
  set (tail := opt_list (mi_attr <$> mi) ++ opt_list (fp_attr <$> fp)).
  destruct (encode_start tail) as (chunks & Hc & Hcl & Hcb & E).
  { destruct (is_some mi), (is_some fp); lia. }
  exists chunks. split; [exact Hc|]. split; [exact Hcl|]. split; [exact Hcb|].
  destruct (scan_tail mi fp (splice buf 0 (head h 0 ++ concat chunks)) (20 + length (concat chunks))
              (Z.of_nat (length buf) - 20 - space_of padc h normal))
    as (i0 & mi0 & fp0 & i1 & E1 & E2 & Hi). fold tail in E1, E2, Hi.
  exists i1. split; [exact Hi|]. unfold pj_stun_msg_encode, stun_msg. cbn [msg_hdr msg_attr].
  fold tail. fold (head h 0).
  destruct (Z.eqb_spec (Z.of_nat (length buf)) 0); [destruct (is_some mi), (is_some fp); lia|].
  cbn [Z.eqb negb]. destruct (Z.ltb_spec (Z.of_nat (length buf)) 20); [destruct (is_some mi), (is_some fp); lia|].
  rewrite E, E1, E2. f_equal.
  rewrite set_length by (exact Hh || (destruct (is_some mi), (is_some fp); lia)).
  f_equal. f_equal. f_equal. destruct mi; cbn [is_some] in *; destruct (is_some fp);
    rewrite u16_small by (unfold is_u16; lia); lia.
Qed.

(** The end of the encoder, with and without a fingerprint. *)
Lemma encode_tail attrs (fp : option Z) x bs :
  let size := Z.of_nat (length x) + (if is_some fp then 8 else 0) in
  let y := if is_some fp
           then head h (Z.of_nat (length x) + 8) ++ x ++ attr_bytes padc h (fp_attr (fp_part env h x))
           else head h (Z.of_nat (length x)) ++ x in
  bytes_ok x -> (if is_some fp then 8 else 0) <= bs < 2 ^ 32 -> size <= 65535 ->
  20 + size <= Z.of_nat (length buf) ->
  encode_end env (mk_msg h (attrs ++ opt_list (fp_attr <$> fp)))
    (match fp with Some _ => Some (length attrs) | None => None end)
    (splice buf 0 (head h (Z.of_nat (length x)) ++ x)) (20 + length x) bs
  = Encoded PJ_SUCCESS
      (mk_msg (with_len h size)
         (attrs ++ opt_list (fp_attr <$> match fp with Some _ => Some (fp_part env h x) | None => None end)))
      (splice buf 0 y) (Some (20 + size))
  /\ Z.of_nat (length y) = 20 + size /\ (fp <> None -> is_u32 (fp_part env h x)).
Proof.
  intros size y Hx Hbs Hsz Hb. unfold size, y in *. clear size y.
  destruct fp as [v|]; cbn [is_some opt_list fmap option_fmap option_map] in *.
  - destruct (encode_end_fp env padc h buf Hh attrs v x (Z.of_nat (length x)) bs) as [E Hv];
      [unfold is_u16; lia..|exact Hx|exact Hbs|lia|].
    set (y := head h (Z.of_nat (length x) + 8) ++ x ++ _) in *.
    assert (Hy : Z.of_nat (length y) = 20 + (Z.of_nat (length x) + 8)).
    { unfold y. rewrite !length_app, head_length, fp_bytes_length by exact Hh. lia. }
    cbv zeta in E. fold (fp_part env h x) in E, Hv |- *. fold y in E. rewrite E, Hy.
    rewrite u16_small by (unfold is_u16; lia). split; [|split; [reflexivity|intros _; exact Hv]].
    repeat f_equal; lia.
  - rewrite Z.add_0_r in *. rewrite !app_nil_r.
    assert (Hy : length (head h (Z.of_nat (length x)) ++ x) = (20 + length x)%nat)
      by (rewrite length_app, head_length by exact Hh; done).
    split; [|split; [rewrite Hy; lia|done]].
    pose proof (encode_end_plain env h buf attrs (head h (Z.of_nat (length x)) ++ x) bs) as E.
    rewrite Hy in E. rewrite E, u16_small by (unfold is_u16; lia). repeat f_equal; lia.
Qed.

(** What the encoder leaves in buffer and message. *)
Lemma encode_layout (mi : option (list Z)) (fp : option Z) :
  let size := body_size padc h normal (is_some mi) (is_some fp) in
  20 + size <= Z.of_nat (length buf) -> size <= 65535 ->
  (length (msg_attr (stun_msg h normal mi fp)) <= 16)%nat ->
  exists chunks, Forall2 (chunk_of padc h) normal chunks
    /\ Z.of_nat (length (concat chunks)) = space_of padc h normal /\ bytes_ok (concat chunks)
    /\ let b := concat chunks in
       let bytes := message_bytes env padc h (is_some mi) (is_some fp) key b in
       let mac := mac_part env padc h (is_some mi) key b in
       pj_stun_msg_encode env padc (stun_msg h normal mi fp) buf 0 (Some key)
       = Encoded PJ_SUCCESS (sent_msg env padc h normal mi fp key b) (splice buf 0 bytes) (Some (20 + size))
       /\ Z.of_nat (length bytes) = 20 + size
       /\ (mi <> None -> bytes_ok mac /\ length mac = 20%nat)
       /\ (fp <> None -> is_u32 (fp_part env h (b ++ mac_bytes env padc h (is_some mi) key b))).
Proof.
  intros size Hb Hsz Hcount. unfold size in *. clear size.
  destruct (encode_to_mac mi fp Hb Hsz) as (chunks & Hc & Hcl & Hcb & i & Hi & E).
  exists chunks. split; [exact Hc|]. split; [exact Hcl|]. split; [exact Hcb|].
  cbv zeta in E |- *. rewrite E. clear E. set (b := concat chunks) in *. unfold body_size in *.
  unfold sent_msg, message_bytes, mac_bytes, mac_part.
  pose proof (space_of_nonneg padc h normal Hh Hnormal) as H0.
  destruct mi as [old|].
  - cbn [is_some] in *. rewrite (Hi ltac:(done)). unfold stun_msg in *.
    set (l := Z.of_nat (length b) + 24) in *. cbn [msg_attr] in *.
    destruct (encode_mac_mi env padc h buf Hh Hbuf key normal old (opt_list (fp_attr <$> fp))
                (match fp with Some _ => Some (length normal + 1)%nat | None => None end) b l
                (Z.of_nat (length buf) - 20 - space_of padc h normal)) as (E & Hmb & Hml & Hyl);
      [exact Henv|exact Hkey|unfold is_u16; destruct fp; cbn [is_some] in *; lia|exact Hcb
      |destruct fp; cbn [is_some] in *; lia|destruct fp; cbn [is_some] in *; lia|exact Hcount|].
    set (mac := message_mac env key (head h l ++ b)) in *.
    change (normal ++ opt_list (mi_attr <$> Some old) ++ opt_list (fp_attr <$> fp))
      with (normal ++ mi_attr old :: opt_list (fp_attr <$> fp)).
    rewrite E. clear E. set (mib := attr_bytes padc h (mi_attr mac)) in *.
    assert (Hmib : length mib = 24%nat) by (by apply mi_bytes_length).
    assert (Hmok : bytes_ok mib).
    { apply Forall_app; split; [apply ahdr_bytes_ok; by unfold is_u16|exact Hmb]. }
    destruct (encode_tail (normal ++ [mi_attr mac]) fp (b ++ mib)
                (Z.of_nat (length buf) - 20 - space_of padc h normal - 24)) as (E & Hy & Hv);
      [by apply Forall_app|destruct (is_some fp); lia|rewrite length_app; destruct (is_some fp); lia
      |rewrite length_app; destruct (is_some fp); lia|].
    replace (Z.of_nat (length (b ++ mib))) with l in * by (rewrite length_app, Hmib; lia).
    replace (length (normal ++ [mi_attr mac])) with (length normal + 1)%nat in E by (rewrite length_app; done).
    rewrite <- !app_assoc in E. rewrite Hyl. replace (20 + length b + 24)%nat with (20 + length (b ++ mib))%nat
      by (rewrite length_app, Hmib; lia).
    cbn [app] in E. rewrite E.
    replace (l + (if is_some fp then 8 else 0)) with (space_of padc h normal + 24 + (if is_some fp then 8 else 0)) in * by lia.
    split; [by rewrite <- !app_assoc|]. split; [exact Hy|]. split; [by split|exact Hv].
  - cbn [is_some] in *. rewrite !app_nil_r, Z.add_0_r in *. unfold stun_msg. cbn [opt_list fmap option_fmap option_map app].
    destruct (encode_tail normal fp b (Z.of_nat (length buf) - 20 - space_of padc h normal)) as (E & Hy & Hv);
      [exact Hcb|destruct (is_some fp); lia|destruct (is_some fp); lia|destruct (is_some fp); lia|].
    rewrite Hcl, !Nat.add_0_r in *. unfold encode_mac, body_size. rewrite E, !Z.add_0_r.
    split; [reflexivity|]. split; [exact Hy|]. split; [done|exact Hv].
Qed.
End Encode.

(** ** Reading it back *)

Lemma wire_hdr padc h a r : mhdr_ok h -> attr_ok a ->
  GETATTRHDR (attr_bytes padc h a ++ r) = Ok (attr_hdr (wire_attr padc h a))
  /\ align4 (ah_length (attr_hdr (wire_attr padc h a))) + 4 = attr_space padc h a
  /\ ah_type (attr_hdr (wire_attr padc h a)) = attr_type a.
Proof.
  intros Hm Ha. pose proof (attr_space_eq padc h a Hm Ha) as Es. pose proof Ha as (Ht & Hf & Hl & _).
  rewrite Es. unfold attr_type in *.
  destruct a as [hd x s|hd v|hd|hd v|hd hi lo|hd m|hd c rs|hd l|hd g d];
    cbn [attr_bytes attr_hdr wire_attr fields_ok] in *.
  2: { destruct Hf as [_ Hh]. destruct (u16_len (Z.of_nat (length v)) ltac:(lia)) as [Hu Hua].
       pose proof (align4_bounds (Z.of_nat (length v)) ltac:(lia)) as [Hb Hmod].
       rewrite <- !app_assoc, read_attr_hdr by (first [exact Ht|by destruct (padded_string h (ah_type hd))]).
       destruct (padded_string h (ah_type hd)); cbn [attr_hdr ah_length ah_type].
       - rewrite (align4_id (align4 _)) by (lia || exact Hmod). by rewrite Hh.
       - rewrite <- Hh. by destruct hd. }
  8: { destruct Hf as [_ Hh]. rewrite <- app_assoc, read_attr_hdr by (first [exact Ht|unfold is_u16; lia]).
       rewrite <- Hh. destruct (find_attr_desc (ah_type hd)); cbn [attr_hdr]; by destruct hd. }
  all: split; [|by split].
  - destruct Hf as [Hs Hh].
    assert (Hs' : sockaddr_ok (if x then xor_addr (mh_tsx_id h) s else s)
                  /\ addr_len (if x then xor_addr (mh_tsx_id h) s else s) = addr_len s).
    { destruct x; [by apply xor_addr_ok|by split]. }
    destruct Hs' as [Hs' El].
    assert (E : sockaddr_bytes (ah_type hd) (if x then xor_addr (mh_tsx_id h) s else s)
                = ahdr_bytes (ah_type hd) (addr_len s + 4)
                  ++ drop 4 (sockaddr_bytes (ah_type hd) (if x then xor_addr (mh_tsx_id h) s else s))).
    { rewrite <- El. destruct (if x then _ else _); [reflexivity..|done]. }
    rewrite E, <- app_assoc, read_attr_hdr.
    + rewrite <- Hh. by destruct hd.
    + exact Ht.
    + destruct s; [by unfold is_u16..|done].
  - rewrite read_attr_hdr by (first [exact Ht|by unfold is_u16]). rewrite <- Hf. by destruct hd.
  - destruct Hf as [_ Hh]. rewrite <- app_assoc, read_attr_hdr by (first [exact Ht|by unfold is_u16]).
    rewrite <- Hh. by destruct hd.
  - destruct Hf as (_ & _ & Hh). rewrite <- !app_assoc, read_attr_hdr by (first [exact Ht|by unfold is_u16]).
    rewrite <- Hh. by destruct hd.
  - destruct Hf as (_ & _ & Hh). rewrite <- app_assoc, read_attr_hdr by (first [exact Ht|rewrite Hh; by unfold is_u16]).
    by destruct hd.
  - destruct Hf as (_ & _ & Hh). rewrite <- !app_assoc, read_attr_hdr by (first [exact Ht|unfold is_u16; lia]).
    rewrite <- Hh. by destruct hd.
  - destruct Hf as (_ & _ & Hh). rewrite <- app_assoc, read_attr_hdr by (first [exact Ht|unfold is_u16; lia]).
    rewrite <- Hh. by destruct hd.
Qed.

Lemma attr_bytes_len padc h l a : attr_bytes padc (with_len h l) a = attr_bytes padc h a.
Proof. by destruct a. Qed.
Lemma wire_attr_len padc h l a : wire_attr padc (with_len h l) a = wire_attr padc h a.
Proof. by destruct a. Qed.

(** An attribute without descriptor is read as a binary one. *)
Lemma unrecognized_ok want h attrs padc mh a r mi fp :
  mhdr_ok mh -> attr_ok a -> find_attr_desc (attr_type a) = None -> msg_full (mk_msg h attrs) = false ->
  unrecognized_attr want (mk_msg h attrs) (attr_type a) (attr_bytes padc mh a ++ r) mi fp
  = Added (mk_msg h (attrs ++ [wire_attr padc mh a])) mi fp.
Proof.
  intros Hm (Ht & Hf & Hl & Hk) Hd Hfull. rewrite Hd in Hk.
  destruct a as [| | | | | | | |hd g d]; try done. destruct Hk as [-> Hgt].
  cbn [attr_type attr_bytes wire_attr fields_ok attr_hdr] in *. unfold attr_type in *. cbn [attr_hdr] in *.
  destruct Hf as [_ Hh]. rewrite Hd. unfold unrecognized_attr.
  destruct (Z.leb_spec (ah_type hd) 0x7FFF); [lia|]. rewrite Hfull, <- app_assoc. unfold ahdr_bytes.
  rewrite <- app_assoc. rewrite (get16_shift (PUTVAL16H (ah_type hd)) _ 0 : GETVAL16H _ 2 = _).
  rewrite get16_put by (unfold is_u16; lia). cbn [rbind]. rewrite app_assoc.
  fold (ahdr_bytes (ah_type hd) (Z.of_nat (length d))).
  rewrite (slice_hdr _ _ _ 4 0), slice_len by (first [reflexivity|lia]).
  unfold msg_add, pj_stun_binary_attr_create, INIT_ATTR. cbn [msg_hdr msg_attr].
  rewrite !u16_small by (first [exact Ht|unfold is_u16; lia]). rewrite <- Hh. by destruct hd.
Qed.

Section Decoding.
Context (strerror : pj_status_t -> pj_str) (padc : Z) (h : pj_stun_msg_hdr) (want : bool).
Hypothesis Hh : mhdr_ok h.

(** One round of the loop on the bytes of one attribute. *)
Lemma decode_step fuel l attrs a c rest pdu_len used mi fp mi' fp' :
  attr_ok a -> chunk_of padc h a c -> (length attrs < 16)%nat ->
  attr_space padc h a <= pdu_len ->
  match find_attr_desc (attr_type a) with
  | Some _ => check_position (attr_type a) mi fp = inl (mi', fp')
  | None => mi' = mi /\ fp' = fp
  end ->
  decode_loop strerror (S fuel) want (mk_msg (with_len h l) attrs) (c ++ rest) pdu_len used mi fp
  = decode_loop strerror fuel want (mk_msg (with_len h l) (attrs ++ [wire_attr padc h a])) rest
      (pdu_len - attr_space padc h a) (used + attr_space padc h a) mi' fp'.
Proof.
  intros Ha (g & -> & Hc) Hcount Hlen Hpos. set (sp := attr_space padc h a) in *.
  destruct (wire_hdr padc h a (g ++ rest) Hh Ha) as (E1 & E2 & E3). fold sp in E2.
  destruct (attr_space_bounds padc h a Hh Ha) as [_ H4]. fold sp in H4.
  assert (Hfull : forall A, msg_full (mk_msg A attrs) = false).
  { intros A. unfold msg_full, PJ_STUN_MAX_ATTR. cbn [msg_attr]. rewrite Z.geb_leb. apply Z.leb_gt. lia. }
  cbn [decode_loop]. destruct (Z.ltb_spec pdu_len 4); [lia|]. rewrite <- app_assoc, E1. cbv zeta. rewrite E3.
  set (avl := align4 _) in *. destruct (Z.ltb_spec pdu_len avl); [lia|].
  assert (Estep : (match find_attr_desc (attr_type a) with
            | None => unrecognized_attr want (mk_msg (with_len h l) attrs) (attr_type a) (attr_bytes padc h a ++ g ++ rest) mi fp
            | Some d => recognized_attr strerror want (mk_msg (with_len h l) attrs) (attr_type a) (desc_kind d)
                          (attr_bytes padc h a ++ g ++ rest) mi fp
            end) = Added (mk_msg (with_len h l) (attrs ++ [wire_attr padc h a])) mi' fp').
  { pose proof Ha as (Ht & Hf & Hl & Hk). destruct (find_attr_desc (attr_type a)) as [d|] eqn:Ed.
    - unfold recognized_attr. cbn [msg_hdr].
      pose proof (decode_attr_ok padc (with_len h l) (desc_kind d) a (g ++ rest) Hh Ha Hk ltac:(by exists d)) as Ed'.
      rewrite attr_bytes_len, wire_attr_len in Ed'. rewrite Ed', Hpos, Hfull. reflexivity.
    - destruct Hpos as [-> ->]. by apply unrecognized_ok. }
  rewrite Estep. rewrite app_assoc, Z.geb_leb.
  assert (Hd : forall n, n = sp -> drop (Z.to_nat n) ((attr_bytes padc h a ++ g) ++ rest) = rest).
  { intros n ->. apply drop_app_length'. lia. }
  destruct (Z.leb_spec pdu_len (avl + 4)) as [Hle|Hgt].
  - replace pdu_len with sp by lia. rewrite Hd by lia. by rewrite Z.sub_diag.
  - rewrite Hd by lia. by replace (avl + 4) with sp by lia.
Qed.

(** The attributes before MESSAGE-INTEGRITY. *)
Lemma decode_normal l normal : forall chunks fuel attrs rest pdu_len used,
  Forall normal_attr normal -> Forall2 (chunk_of padc h) normal chunks ->
  (length attrs + length normal <= 16)%nat -> space_of padc h normal <= pdu_len ->
  decode_loop strerror (length normal + fuel) want (mk_msg (with_len h l) attrs) (concat chunks ++ rest)
    pdu_len used false false
  = decode_loop strerror fuel want (mk_msg (with_len h l) (attrs ++ map (wire_attr padc h) normal)) rest
      (pdu_len - space_of padc h normal) (used + space_of padc h normal) false false.
Proof.
  induction normal as [|a normal IH]; intros chunks fuel attrs rest pdu_len used Hn Hc Hcount Hlen.
  { inversion Hc; subst. cbn [length Nat.add concat app map space_of foldr].
    by rewrite app_nil_r, Z.sub_0_r, Z.add_0_r. }
  apply list.Forall_cons in Hn as [(Ha & Hn1 & Hn2) Hn]. inversion Hc as [|? c ? chunks' Hca Hcs]; subst.
  cbn [space_of map foldr length] in *. fold (space_of padc h normal) in *.
  pose proof (space_of_nonneg padc h normal Hh Hn).
  cbn [Nat.add concat]. rewrite <- app_assoc.
  rewrite (decode_step _ _ _ a c _ _ _ false false false false); [|exact Ha|exact Hca|lia|lia|].
  - rewrite (IH chunks'); [|exact Hn|exact Hcs|rewrite length_app; simpl; lia|lia].
    rewrite <- app_assoc. cbn [app]. f_equal; lia.
  - destruct (find_attr_desc (attr_type a)); [|by split]. unfold check_position.
    rewrite (proj2 (Z.eqb_neq _ _) Hn1), (proj2 (Z.eqb_neq _ _) Hn2). reflexivity.
Qed.

(** The end of the loop. *)
Lemma decode_done fuel l attrs rest used mi fp :
  decode_loop strerror (S fuel) want (mk_msg (with_len h l) attrs) rest 0 used mi fp
  = Some (Ok (mk_dr PJ_SUCCESS (Some (mk_msg (with_len h l) attrs)) used None)).
Proof. reflexivity. Qed.

Lemma mi_ok mac : bytes_ok mac -> length mac = 20%nat ->
  attr_ok (mi_attr mac) /\ chunk_of padc h (mi_attr mac) (attr_bytes padc h (mi_attr mac))
  /\ attr_space padc h (mi_attr mac) = 24.
Proof.
  intros Hb Hl. assert (Ha : attr_ok (mi_attr mac)).
  { split; [by unfold is_u16|]. split; [by cbn|]. split; [done|]. by cbn. }
  assert (E : attr_space padc h (mi_attr mac) = 24) by (by rewrite attr_space_eq).
  split; [exact Ha|]. split; [|exact E]. exists []. rewrite app_nil_r, E. split; [reflexivity|].
  cbn [attr_bytes mi_attr]. unfold ahdr_bytes. rewrite !length_app, Hl. reflexivity.
Qed.

Lemma fp_ok v : is_u32 v ->
  attr_ok (fp_attr v) /\ chunk_of padc h (fp_attr v) (attr_bytes padc h (fp_attr v))
  /\ attr_space padc h (fp_attr v) = 8.
Proof.
  intros Hv. assert (Ha : attr_ok (fp_attr v)).
  { split; [by unfold is_u16|]. split; [by cbn|]. split; [done|]. by cbn. }
  assert (E : attr_space padc h (fp_attr v) = 8) by (by rewrite attr_space_eq).
  split; [exact Ha|]. split; [|exact E]. exists []. rewrite app_nil_r, E. by split.
Qed.
End Decoding.

Lemma read_hdr_head h l r : mhdr_ok h -> is_u16 l -> read_hdr (head h l ++ r) = Ok (with_len h l).
Proof.
  intros (Ht & Hm & _ & Hid) Hl. unfold read_hdr. rewrite get_length by exact Hl. unfold head.
  rewrite <- !app_assoc. rewrite get16_put by exact Ht. cbn [rbind].
  rewrite (app_assoc (PUTVAL16H (mh_type h))).
  rewrite get32_at, get32_put by (first [reflexivity|exact Hm]). cbn [rbind].
  rewrite (app_assoc _ (PUTVAL32H (mh_magic h))).
  rewrite slice_at, slice_len by (first [reflexivity|by rewrite Hid]). reflexivity.
Qed.

Lemma space_of_count padc h normal : mhdr_ok h -> Forall normal_attr normal ->
  4 * Z.of_nat (length normal) <= space_of padc h normal.
Proof.
  intros Hm. induction 1 as [|a l [Ha _] _ IH]; [done|]. cbn [space_of map foldr length] in *.
  fold (space_of padc h l) in *. pose proof (attr_space_bounds padc h a Hm Ha). lia.
Qed.

Section Message.
Context (strerror : pj_status_t -> pj_str) (env : stun_env) (padc : Z) (h : pj_stun_msg_hdr)
  (normal : list stun_attr) (chunks : list (list Z)) (key : list Z) (mi : option (list Z)) (fp : option Z).
Let b := concat chunks.
Let size := body_size padc h normal (is_some mi) (is_some fp).
Let mac := mac_part env padc h (is_some mi) key b.
Let v := fp_part env h (b ++ mac_bytes env padc h (is_some mi) key b).
Hypothesis Hh : mhdr_ok h.
Hypothesis Hnormal : Forall normal_attr normal.
Hypothesis Hchunks : Forall2 (chunk_of padc h) normal chunks.
Hypothesis Hb : Z.of_nat (length b) = space_of padc h normal.
Hypothesis Hcount : (length (msg_attr (stun_msg h normal mi fp)) <= 16)%nat.
Hypothesis Hsize : size <= 65535.
Hypothesis Hmac : mi <> None -> bytes_ok mac /\ length mac = 20%nat.
Hypothesis Hfp : fp <> None -> is_u32 v.

(** The attributes behind the body, as bytes. *)
Let tail_bytes : list Z :=
  mac_bytes env padc h (is_some mi) key b ++ (if is_some fp then attr_bytes padc h (fp_attr v) else []).

Lemma message_bytes_split :
  message_bytes env padc h (is_some mi) (is_some fp) key b = head h size ++ b ++ tail_bytes.
Proof.
  unfold message_bytes, tail_bytes, size, body_size. rewrite <- Hb.
  assert (El : Z.of_nat (length (mac_bytes env padc h (is_some mi) key b)) = if is_some mi then 24 else 0).
  { unfold mac_bytes. destruct mi as [m|]; cbn [is_some] in *; [|done].
    rewrite mi_bytes_length; [done|]. by apply Hmac. }
  destruct (is_some fp); rewrite length_app, Nat2Z.inj_add, El.
  - by rewrite <- !app_assoc.
  - by rewrite app_nil_r, Z.add_0_r.
Qed.

Lemma decode_tail want fuel attrs rest used :
  (length attrs + (if is_some mi then 1 else 0) + (if is_some fp then 1 else 0) <= 16)%nat ->
  let sz := (if is_some mi then 24 else 0) + (if is_some fp then 8 else 0) in
  decode_loop strerror ((if is_some mi then 1 else 0) + ((if is_some fp then 1 else 0) + S fuel)) want
    (mk_msg (with_len h size) attrs) (tail_bytes ++ rest) sz used false false
  = Some (Ok (mk_dr PJ_SUCCESS
                (Some (mk_msg (with_len h size)
                   (attrs ++ opt_list (mi_attr <$> match mi with Some _ => Some mac | None => None end)
                          ++ opt_list (fp_attr <$> match fp with Some _ => Some v | None => None end))))
                (used + sz) None)).
Proof.
  intros Hc sz. unfold sz, tail_bytes, mac_bytes. fold mac. clear sz.
  destruct mi as [m|]; cbn [is_some opt_list fmap option_fmap option_map app Nat.add] in *.
  - destruct (Hmac ltac:(done)) as [Hmb Hml]. destruct (mi_ok padc h Hh mac Hmb Hml) as (Ha & Hca & Es).
    rewrite <- app_assoc.
    rewrite (decode_step strerror padc h want Hh _ size attrs (mi_attr mac) _ _ _ _ false false true false);
      [|exact Ha|exact Hca|lia|rewrite Es; destruct (is_some fp); lia|reflexivity].
    rewrite Es. change (wire_attr padc h (mi_attr mac)) with (mi_attr mac).
    destruct fp as [w|]; cbn [is_some opt_list fmap option_fmap option_map app Nat.add] in *.
    + destruct (fp_ok padc h Hh v (Hfp ltac:(done))) as (Hf & Hcf & Ef).
      rewrite (decode_step strerror padc h want Hh _ size _ (fp_attr v) _ _ _ _ true false true true);
        [|exact Hf|exact Hcf|rewrite length_app; simpl; lia|rewrite Ef; lia|reflexivity].
      rewrite Ef, <- app_assoc. change (24 + 8 - 24 - 8) with 0. rewrite decode_done.
      by rewrite <- Z.add_assoc.
    + change (24 + 0 - 24) with 0. rewrite decode_done. reflexivity.
  - destruct fp as [w|]; cbn [is_some opt_list fmap option_fmap option_map app Nat.add] in *.
    + destruct (fp_ok padc h Hh v (Hfp ltac:(done))) as (Hf & Hcf & Ef).
      rewrite (decode_step strerror padc h want Hh _ size _ (fp_attr v) _ _ _ _ false false false true);
        [|exact Hf|exact Hcf|lia|rewrite Ef; lia|reflexivity].
      rewrite Ef. change (0 + 8 - 8) with 0. rewrite decode_done. reflexivity.
    + change (0 + 0) with 0. by rewrite decode_done, app_nil_r, Z.add_0_r.
Qed.

(** The decoder on the bytes of the message and whatever lies behind. *)
Lemma decode_message want rest :
  pj_stun_msg_decode strerror env
    (message_bytes env padc h (is_some mi) (is_some fp) key b ++ rest) (20 + size) 0 want
  = Some (Ok (mk_dr PJ_SUCCESS
      (Some (mk_msg (with_len h size)
               (map (wire_attr padc h) (msg_attr (sent_msg env padc h normal mi fp key b)))))
      (20 + size) None)).
Proof.
  pose proof (space_of_count padc h normal Hh Hnormal) as Hsp.
  assert (Hs0 : 4 * Z.of_nat (length normal) + (if is_some mi then 1 else 0) + (if is_some fp then 1 else 0) <= size).
  { unfold size, body_size. destruct (is_some mi), (is_some fp); lia. }
  rewrite message_bytes_split. unfold pj_stun_msg_decode.
  destruct (Z.eqb_spec (20 + size) 0); [destruct (is_some mi), (is_some fp); lia|].
  cbn [Z.land Z.eqb negb]. rewrite <- !app_assoc.
  rewrite read_hdr_head by (first [exact Hh|unfold is_u16; destruct (is_some mi), (is_some fp); lia]).
  change (mh_length (with_len h size)) with size. set (w := want && _). clearbody w.
  rewrite <- (head_length h size Hh) at 1. rewrite drop_app_length.
  assert (Hattrs : map (wire_attr padc h) (msg_attr (sent_msg env padc h normal mi fp key b))
    = map (wire_attr padc h) normal
      ++ opt_list (mi_attr <$> match mi with Some _ => Some mac | None => None end)
      ++ opt_list (fp_attr <$> match fp with Some _ => Some v | None => None end)).
  { unfold sent_msg, stun_msg. cbn [msg_attr]. rewrite !map_app. by destruct mi, fp. }
  rewrite Hattrs.
  set (k := (Z.to_nat size - length normal - (if is_some mi then 1 else 0) - (if is_some fp then 1 else 0))%nat).
  replace (S (Z.to_nat size))
    with (length normal + ((if is_some mi then 1 else 0) + ((if is_some fp then 1 else 0) + S k)))%nat
    by (unfold k; destruct (is_some mi), (is_some fp); lia).
  assert (Hc16 : (length normal + (if is_some mi then 1 else 0) + (if is_some fp then 1 else 0) <= 16)%nat).
  { unfold stun_msg in Hcount. cbn [msg_attr] in Hcount. rewrite !length_app in Hcount. clear -Hcount.
    destruct mi, fp; cbn [is_some opt_list fmap option_fmap option_map length] in Hcount |- *; lia. }
  rewrite (decode_normal strerror padc h w Hh size normal chunks);
    [|exact Hnormal|exact Hchunks|simpl; destruct (is_some mi), (is_some fp); lia
     |unfold size, body_size; destruct (is_some mi), (is_some fp); lia].
  replace (size - space_of padc h normal) with ((if is_some mi then 24 else 0) + (if is_some fp then 8 else 0))
    by (unfold size, body_size; lia).
  rewrite app_nil_l, decode_tail by (rewrite length_map; exact Hc16).
  do 3 f_equal. unfold size, body_size. lia.
Qed.
End Message.

(** ** Round trip *)

(** The value the encoder fills in where there is an attribute for it. *)
Definition filled {A B : Type} (o : option A) (v : B) : option B :=
  match o with Some _ => Some v | None => None end.

(** The values, from the reference digests: HMAC-SHA1, and the CRC-32 with the
    mask of the standard. *)
Definition hmac_sha1 (key text : list Z) : list Z := @hmac_spec _ (sha1_digest LittleEndian) key text.
Definition crc_fingerprint (bytes : list Z) : Z := Z.lxor (crc32_spec bytes) STUN_XOR_FINGERPRINT.

(** The attributes that are the same after the transport: a string that is
    padded (SOFTWARE, and every string of a message without the magic cookie) is
    a multiple of four long, and the internal mark of a binary attribute is not
    set. *)
Definition wire_exact (mh : pj_stun_msg_hdr) (a : stun_attr) : Prop :=
  match a with
  | StringAttr ah v => padded_string mh (ah_type ah) = true -> Z.of_nat (length v) mod 4 = 0
  | BinaryAttr ah magic _ => find_attr_desc (ah_type ah) <> None -> magic = 0
  | _ => True
  end.

Lemma wire_exact_same padc mh a : attr_ok a -> wire_exact mh a -> wire_attr padc mh a = a.
Proof.
  intros (_ & Hf & Hl & _) Hx. destruct a as [ | ah v | | | | | | |ah g d]; cbn [wire_attr wire_exact attr_hdr fields_ok] in *; try done.
  - destruct (padded_string mh (ah_type ah)); [|done]. specialize (Hx eq_refl). destruct Hf as [_ Hlen].
    assert (Hp : pad_count (Z.of_nat (length v)) = 0%nat) by (unfold pad_count; rewrite Z.mod_opp_l_z by (done || lia); done).
    pose proof (pad_count_spec (Z.of_nat (length v)) ltac:(rewrite Hlen in Hl; cbn [ah_length] in Hl; lia)) as Ha.
    rewrite Hp in *. cbn [replicate]. rewrite app_nil_r. replace (align4 _) with (Z.of_nat (length v)) by lia.
    destruct ah; cbn in Hlen |- *; by rewrite Hlen.
  - destruct (find_attr_desc (ah_type ah)); [|done]. by rewrite Hx.
Qed.

(** What the encoder fills in, as functions of the bytes it writes. *)
Lemma filled_values env padc h normal chunks key (mi : option (list Z)) (fp : option Z) :
  let b := concat chunks in
  let space := space_of padc h normal in
  let size := body_size padc h normal (is_some mi) (is_some fp) in
  let mac := mac_part env padc h (is_some mi) key b in
  let v := fp_part env h (b ++ mac_bytes env padc h (is_some mi) key b) in
  let bytes := message_bytes env padc h (is_some mi) (is_some fp) key b in
  env_ok env -> mhdr_ok h -> piece_ok (2 ^ 29) key -> bytes_ok b -> Z.of_nat (length b) = space ->
  (length (msg_attr (stun_msg h normal mi fp)) <= 16)%nat -> size <= 65535 ->
  (mi <> None -> bytes_ok mac /\ length mac = 20%nat) -> (fp <> None -> is_u32 v) ->
  (mi <> None -> mac = hmac_sha1 key (head h (space + 24) ++ take (Z.to_nat space) (drop 20 bytes)))
  /\ (fp <> None -> v = crc_fingerprint (take (Z.to_nat (12 + size)) bytes)).
Proof.
  intros b space size mac v bytes Henv Hh Hk Hb Hl Hcnt Hsz Hmac Hv.
  pose proof (message_bytes_split env padc h normal chunks key mi fp Hl Hcnt Hsz Hmac Hv) as Es.
  fold b size bytes in Es. assert (Hs0 : 0 <= space) by lia. split.
  - intros Hmi. rewrite Es, <- (head_length h size Hh), drop_app_length. replace (Z.to_nat space) with (length b) by lia.
    rewrite take_app_length. unfold mac, mac_part. destruct mi; [|done]. cbn [is_some]. rewrite Hl.
    apply message_mac_ok; [exact Henv|exact Hk|]. split.
    + apply Forall_app; split; [|exact Hb]. apply head_bytes; [exact Hh|]. unfold is_u16. revert Hsz. unfold size, body_size.
      cbn [is_some]. fold space. destruct (is_some fp); lia.
    + rewrite length_app, head_length by exact Hh. revert Hsz. unfold size, body_size. cbn [is_some]. fold space. destruct (is_some fp); lia.
  - intros Hfp. unfold v, fp_part, fingerprint, crc_fingerprint. set (x := b ++ mac_bytes env padc h (is_some mi) key b).
    assert (Hx : Z.of_nat (length x) + 8 = size).
    { unfold x, size, body_size. rewrite length_app. fold space. unfold mac_bytes. destruct fp; [|done].
      destruct mi as [m|]; cbn [is_some]; [rewrite mi_bytes_length by (by apply Hmac)|cbn [length]]; lia. }
    assert (Ht : take (Z.to_nat (12 + size)) bytes = head h size ++ x).
    { unfold bytes, message_bytes. destruct fp; [|done]. cbn [is_some]. fold x. rewrite Hx, app_assoc.
      apply take_app_length'. rewrite length_app, head_length by exact Hh. lia. }
    rewrite Ht, Hx, crc32_calc_spec; [done|]. apply Forall_app; split; [apply head_bytes; [exact Hh|unfold is_u16; lia]|].
    unfold x. apply Forall_app; split; [exact Hb|]. unfold mac_bytes. destruct mi; cbn [is_some]; [|constructor].
    apply Forall_app; split; [apply ahdr_bytes_ok; by unfold is_u16|]. by apply Hmac.
Qed.

(** C11. A message of well-formed attributes, with or without MESSAGE-INTEGRITY
    and FINGERPRINT, is encoded into any buffer that has room for it, and nothing
    behind the message is written.  The MESSAGE-INTEGRITY filled in is the
    HMAC-SHA1, under the key, of the header (with the length up to the code) and
    the body written in front of it; the FINGERPRINT is the masked CRC-32 of all
    the bytes in front of it.  Decoding the bytes, whatever follows them in
    memory, succeeds and gives each attribute back in its place, a padded string
    (SOFTWARE, or any string of an RFC 3489 message) with its padding; if no
    string needs padding the message decoded is exactly the one sent. *)
Theorem stun_roundtrip strerror env padc h normal mi fp key buf rest want :
  let space := space_of padc h normal in
  let size := body_size padc h normal (is_some mi) (is_some fp) in
  let n := 20 + size in
  env_ok env -> mhdr_ok h -> Forall normal_attr normal -> bytes_ok buf -> piece_ok (2 ^ 29) key ->
  (length (msg_attr (stun_msg h normal mi fp)) <= 16)%nat ->
  n <= Z.of_nat (length buf) < 2 ^ 29 -> size <= 65535 ->
  exists buf' received,
    let mac := hmac_sha1 key (head h (space + 24) ++ take (Z.to_nat space) (drop 20 buf')) in
    let v := crc_fingerprint (take (Z.to_nat (n - 8)) buf') in
    let sent := stun_msg (with_len h size) normal (filled mi mac) (filled fp v) in
    pj_stun_msg_encode env padc (stun_msg h normal mi fp) buf 0 (Some key)
    = Encoded PJ_SUCCESS sent buf' (Some n)
    /\ drop (Z.to_nat n) buf' = drop (Z.to_nat n) buf
    /\ pj_stun_msg_decode strerror env (take (Z.to_nat n) buf' ++ rest) n 0 want
       = Some (Ok (mk_dr PJ_SUCCESS (Some received) n None))
    /\ received = mk_msg (with_len h size) (map (wire_attr padc h) (msg_attr sent))
    /\ (Forall (wire_exact h) normal -> received = sent).
Proof.
  intros space size n Henv Hh Hn Hb Hk Hc Hbuf Hsz. unfold n, size in *.
  destruct (encode_layout env padc h normal buf key Henv Hh Hn Hb ltac:(lia) Hk mi fp ltac:(lia) Hsz Hc)
    as (chunks & Hch & Hcl & Hcb & E & Hlen & Hmac & Hfp).
  destruct (filled_values env padc h normal chunks key mi fp Henv Hh Hk Hcb Hcl Hc Hsz Hmac Hfp) as [Emac Ev].
  set (b := concat chunks) in *. set (bytes := message_bytes _ _ _ _ _ _ _) in *.
  assert (Hl : length bytes = Z.to_nat (20 + body_size padc h normal (is_some mi) (is_some fp))) by lia.
  exists (splice buf 0 bytes), (mk_msg (with_len h size) (map (wire_attr padc h) (msg_attr (sent_msg env padc h normal mi fp key b)))).
  assert (Es : forall mac v, (mi <> None -> mac_part env padc h (is_some mi) key b = mac) ->
      (fp <> None -> fp_part env h (b ++ mac_bytes env padc h (is_some mi) key b) = v) ->
      stun_msg (with_len h (body_size padc h normal (is_some mi) (is_some fp))) normal (filled mi mac) (filled fp v)
      = sent_msg env padc h normal mi fp key b).
  { intros mac v Hm Hv. destruct mi, fp; cbn [filled]; rewrite <- ?Hm, <- ?Hv by done; done. }
  cbv zeta. rewrite splice_zero by lia. rewrite <- Hl, drop_app_length, take_app_length.
  assert (Htk : take (Z.to_nat space) (drop 20 (bytes ++ drop (length bytes) buf)) = take (Z.to_nat space) (drop 20 bytes)).
  { assert (0 <= (if is_some mi then 24 else 0) + (if is_some fp then 8 else 0)) by (by destruct (is_some mi), (is_some fp)).
    unfold body_size in Hlen. fold space in Hlen. rewrite drop_app_le by lia. apply take_app_le. rewrite length_drop. lia. }
  assert (Htf : take (Z.to_nat (20 + body_size padc h normal (is_some mi) (is_some fp) - 8)) (bytes ++ drop (length bytes) buf)
                = take (Z.to_nat (12 + body_size padc h normal (is_some mi) (is_some fp))) bytes).
  { rewrite take_app_le by lia. f_equal. lia. }
  rewrite Htk, Htf, Es by (intros Hs; first [exact (Emac Hs)|exact (Ev Hs)]).
  rewrite <- (splice_zero buf bytes) by lia. split; [exact E|]. split; [reflexivity|].
  split; [by apply (decode_message strerror env padc h normal chunks key mi fp)|]. split; [done|].
  intros Hx. unfold sent_msg, stun_msg. cbn [msg_attr]. f_equal. rewrite !map_app. f_equal; [|by destruct mi, fp].
  rewrite <- (map_id normal) at 2. apply map_ext_Forall. apply List.Forall_forall. intros a Ha.
  apply wire_exact_same; [|by apply (proj1 (List.Forall_forall _ _) Hx)]. by apply (proj1 (List.Forall_forall _ _) Hn).
Qed.

(** A request with addresses, strings and a code, for the witnesses. *)
Definition sample_hdr : pj_stun_msg_hdr :=
  mk_mhdr 0x0001 0 PJ_STUN_MAGIC [1; 2; 3; 4; 5; 6; 7; 8; 9; 10; 11; 12].
Definition sample_attrs : list stun_attr :=
  [pj_stun_string_attr_create 0x0006 (cstr "alice");
   pj_stun_sockaddr_attr_create 0x0020 true (Ipv4 3478 [192; 168; 1; 2]);
   pj_stun_uint_attr_create 0x0024 4294967295;
   pj_stun_string_attr_create PJ_STUN_ATTR_SOFTWARE (cstr "pj")].
Definition sample_env (e : endianness) : stun_env :=
  mk_env e (WithTables e) 0 wild_hmac_sha1 wild_sha1.

Ltac solve_bytes := unfold bytes_ok; repeat (apply list.Forall_cons; split; [unfold is_u8; lia|]); constructor.

Lemma sample_normal : Forall normal_attr sample_attrs.
Proof.
  repeat apply list.Forall_cons_2; try apply list.Forall_nil_2;
    (split; [|by split]); (split; [by unfold is_u16|]); (split; [|split; [by vm_compute|by vm_compute]]).
  - split; [|reflexivity]. change (cstr "alice") with [97; 108; 105; 99; 101]. solve_bytes.
  - split; [|reflexivity]. split; [unfold is_u16; lia|]. split; [solve_bytes|reflexivity].
  - split; [unfold is_u32; lia|reflexivity].
  - split; [|reflexivity]. change (cstr "pj") with [112; 106]. solve_bytes.
Qed.

Lemma sample_hdr_ok : mhdr_ok sample_hdr.
Proof. split; [by unfold is_u16|]. split; [by unfold is_u32|]. split; [solve_bytes|reflexivity]. Qed.

Lemma wild_buffer n : bytes_ok (replicate n 170).
Proof. apply Forall_replicate. unfold is_u8; lia. Qed.

Lemma stun_roundtrip_witness : exists buf' received,
  let mac := hmac_sha1 (cstr "secret") (head sample_hdr 64 ++ take 40 (drop 20 buf')) in
  let v := crc_fingerprint (take 84 buf') in
  let sent := stun_msg (with_len sample_hdr 72) sample_attrs (Some mac) (Some v) in
  pj_stun_msg_encode (sample_env LittleEndian) 32 (stun_msg sample_hdr sample_attrs (Some []) (Some 0))
    (replicate 200 170) 0 (Some (cstr "secret"))
  = Encoded PJ_SUCCESS sent buf' (Some 92)
  /\ drop 92 buf' = drop 92 (replicate 200 170)
  /\ pj_stun_msg_decode (fun _ => []) (sample_env LittleEndian) (take 92 buf' ++ []) 92 0 true
     = Some (Ok (mk_dr PJ_SUCCESS (Some received) 92 None))
  /\ received = mk_msg (with_len sample_hdr 72) (map (wire_attr 32 sample_hdr) (msg_attr sent))
  /\ (Forall (wire_exact sample_hdr) sample_attrs -> received = sent).
Proof.
  apply (stun_roundtrip (fun _ => []) (sample_env LittleEndian) 32 sample_hdr sample_attrs (Some []) (Some 0)
           (cstr "secret") (replicate 200 170) [] true).
  - split; reflexivity.
  - exact sample_hdr_ok.
  - exact sample_normal.
  - apply wild_buffer.
  - change (cstr "secret") with [115; 101; 99; 114; 101; 116]. split; [solve_bytes|simpl; lia].
  - simpl. lia.
  - split; [by vm_compute|by vm_compute].
  - by vm_compute.
Defined.
