(* ===== verification/StunCheck.v ===== *)
(** * The fingerprint of STUN packets

    [pj_stun_msg_check] on the packets [pj_stun_msg_encode] makes, whole and
    damaged: the CRC of the FINGERPRINT attribute, through the burst lemma of
    [Crc32], rejects every change of up to four consecutive bytes that lies
    behind the cookie and outside the header of the attribute. *)

From Stdlib Require Import ZArith Lia Bool String.
From stdpp Require Import base list numbers.
From S2P Require Import Prelude.
From S2P Require Import PjString.
From S2P Require Import Words.
From S2P Require Import Blocks.
From S2P Require Import Crc32.
From S2P Require Import Sha1.
From S2P Require Import Hmac.
From S2P Require Import StunMsg.
From S2P Require Import StunCodec.
From S2P Require Import StunAttr.
From S2P Require Import StunRoundtrip.
Local Open Scope Z_scope.
Local Open Scope stun_scope.

(** Type, length and cookie: the eight bytes the receiver looks at first. *)
Definition lead (t size : Z) : list Z := PUTVAL16H t ++ PUTVAL16H size ++ PUTVAL32H PJ_STUN_MAGIC.
Definition fp_hdr : list Z := ahdr_bytes PJ_STUN_ATTR_FINGERPRINT 4.

(** The value of the checksum does not depend on the machine. *)
Lemma fingerprint_same env env' bytes : bytes_ok bytes -> fingerprint env bytes = fingerprint env' bytes.
Proof. intros H. unfold fingerprint. by rewrite !crc32_calc_spec. Qed.

Lemma fingerprint_burst env p m m' s :
  bytes_ok p -> bytes_ok m -> bytes_ok m' -> bytes_ok s -> length m = length m' -> (length m <= 4)%nat ->
  fingerprint env (p ++ m ++ s) = fingerprint env (p ++ m' ++ s) -> m = m'.
Proof.
  intros Hp Hm Hm' Hs El Hl E. unfold fingerprint in E.
  rewrite !(Z.lxor_comm _ STUN_XOR_FINGERPRINT) in E. apply lxor_cancel_l in E.
  by apply (crc32_detects_burst (env_crc env) (env_addr env) (env_addr env) p m m' s).
Qed.

Lemma get16_at pre r p : p = length pre -> GETVAL16H (pre ++ r) p = GETVAL16H r 0.
Proof. intros ->. rewrite <- (Nat.add_0_r (length pre)). apply get16_shift. Qed.

Lemma get32_read a b c d : is_u8 a -> is_u8 b -> is_u8 c -> is_u8 d ->
  GETVAL32H [a; b; c; d] 0 = Ok (be32 a b c d).
Proof. intros Ha Hb Hc Hd. unfold GETVAL32H. cbn [get lookup list_lookup rbind]. by rewrite get32_bytes. Qed.

Lemma be32_inj a b c d a' b' c' d' :
  is_u8 a -> is_u8 b -> is_u8 c -> is_u8 d -> is_u8 a' -> is_u8 b' -> is_u8 c' -> is_u8 d' ->
  be32 a b c d = be32 a' b' c' d' -> a = a' /\ b = b' /\ c = c' /\ d = d'.
Proof. unfold be32, le32, is_u8. lia. Qed.

Lemma app_prefix {A} (l1 l2 k1 k2 : list A) : l1 ++ l2 = k1 ++ k2 -> (length l1 <= length k1)%nat ->
  exists k, k1 = l1 ++ k /\ l2 = k ++ k2.
Proof.
  intros E Hl. exists (drop (length l1) k1).
  assert (E1 : l1 = take (length l1) k1).
  { apply (f_equal (take (length l1))) in E. rewrite take_app_length, take_app_le in E by exact Hl. exact E. }
  split; [rewrite E1 at 1; symmetry; apply take_drop|].
  apply (f_equal (drop (length l1))) in E. by rewrite drop_app_length, drop_app_le in E.
Qed.

(** ** A packet that ends with a fingerprint *)

Section Packet.
Context (env : stun_env) (t size : Z) (y : list Z).
Hypothesis Ht : 0 <= t < 0x200.
Hypothesis Hsize : 8 <= size <= 65535.
Hypothesis Hmod : size mod 4 = 0.
Hypothesis Hy : Z.of_nat (length y) = size + 4.

Lemma lead_length : length (lead t size) = 8%nat.
Proof. reflexivity. Qed.

(** The check reduces to the comparison of the checksums. *)
Lemma check_packet z a b c d : length z = length y -> is_u8 a -> is_u8 b -> is_u8 c -> is_u8 d ->
  pj_stun_msg_check env (lead t size ++ z ++ fp_hdr ++ [a; b; c; d]) (20 + size) PJ_STUN_IS_DATAGRAM
  = Ok (if fingerprint env (lead t size ++ z) =? be32 a b c d then PJ_SUCCESS else PJNATH_ESTUNFINGERPRINT).
Proof.
  intros Hz Ha Hb Hc Hd. unfold pj_stun_msg_check, lead. rewrite <- !app_assoc.
  destruct (Z.ltb_spec (20 + size) 20); [lia|].
  assert (Eg : forall r, get (PUTVAL16H t ++ r) 0 = Ok (t / 256)).
  { intros r. rewrite put16_bytes by (unfold is_u16; lia). reflexivity. }
  rewrite Eg. cbn [rbind].
  assert (Ef : negb (t / 256 =? 0) && negb (t / 256 =? 1) = false).
  { destruct (Z.eqb_spec (t / 256) 0), (Z.eqb_spec (t / 256) 1); try reflexivity.
    exfalso. clear Eg. Z.to_euclidean_division_equations; lia. }
  rewrite Ef, get16_at, get16_put by (first [reflexivity|unfold is_u16; lia]). cbn [rbind].
  change (Z.land PJ_STUN_IS_DATAGRAM PJ_STUN_IS_DATAGRAM) with 1. cbn [Z.eqb negb andb].
  rewrite (Z.add_comm 20 size), Z.eqb_refl. cbn [negb]. rewrite orb_false_r.
  destruct (Z.gtb_spec (size + 20) (size + 20)); [lia|].
  rewrite land3, Hmod by lia. cbn [Z.eqb negb].
  rewrite (app_assoc (PUTVAL16H t)), get32_at, get32_put by (first [reflexivity|by unfold is_u32]). cbn [rbind].
  rewrite Z.eqb_refl. cbn [negb Z.land PJ_STUN_IS_DATAGRAM PJ_STUN_NO_FINGERPRINT_CHECK Pos.land Z.eqb].
  rewrite <- app_assoc. set (at_fp := Z.to_nat (size + 20 - 8)).
  set (pre := PUTVAL16H t ++ PUTVAL16H size ++ PUTVAL32H PJ_STUN_MAGIC ++ z).
  assert (El : at_fp = length pre).
  { unfold pre, at_fp. rewrite !length_app. cbn [PUTVAL16H PUTVAL32H length]. lia. }
  replace (PUTVAL16H t ++ PUTVAL16H size ++ PUTVAL32H PJ_STUN_MAGIC ++ z ++ fp_hdr ++ [a; b; c; d])
    with (pre ++ fp_hdr ++ [a; b; c; d]) by (unfold pre; by rewrite <- !app_assoc).
  rewrite get16_at by exact El. change (GETVAL16H (fp_hdr ++ [a; b; c; d]) 0) with (@Ok Z PJ_STUN_ATTR_FINGERPRINT).
  cbn [rbind]. rewrite Z.eqb_refl. cbn [negb].
  rewrite El, get16_shift. change (GETVAL16H (fp_hdr ++ [a; b; c; d]) 2) with (@Ok Z 4). cbn [rbind].
  rewrite get32_shift, (get32_shift fp_hdr _ 0 : GETVAL32H _ 4 = _), get32_read by assumption.
  cbn [rbind Z.eqb Pos.eqb negb]. rewrite take_app_length.
  by destruct (fingerprint env pre =? be32 a b c d).
Qed.

(** Damage in front of the checksum or to the checksum. *)
Lemma check_damaged p m m' s w : bytes_ok (lead t size ++ y ++ fp_hdr ++ w) -> length w = 4%nat ->
  pj_stun_msg_check env (lead t size ++ y ++ fp_hdr ++ w) (20 + size) PJ_STUN_IS_DATAGRAM = Ok PJ_SUCCESS ->
  lead t size ++ y ++ fp_hdr ++ w = p ++ m ++ s -> bytes_ok m' -> length m' = length m -> (length m <= 4)%nat ->
  m' <> m -> (8 <= length p)%nat ->
  Z.of_nat (length p + length m) <= 12 + size \/ 16 + size <= Z.of_nat (length p) ->
  pj_stun_msg_check env (p ++ m' ++ s) (20 + size) PJ_STUN_IS_DATAGRAM = Ok PJNATH_ESTUNFINGERPRINT.
Proof.
  intros Hok Hw Hpass E Hm' El Hl Hne Hp Hpos.
  destruct w as [|a [|b [|c [|d [|? ?]]]]]; try discriminate Hw.
  assert (Hall := Hok). unfold bytes_ok in Hall. rewrite !Forall_app in Hall. destruct Hall as (Hlead & Hyb & Hfh & Hwb).
  apply bytes4 in Hwb as (Ha & Hb & Hc & Hd & _).
  rewrite check_packet in Hpass by (first [assumption|reflexivity]).
  destruct (Z.eqb_spec (fingerprint env (lead t size ++ y)) (be32 a b c d)) as [Ev|]; [|discriminate].
  clear Hpass. destruct Hpos as [Hbefore|Hvalue].
  - destruct (app_prefix _ _ _ _ E) as (p1 & -> & E1); [rewrite lead_length; lia|].
    rewrite length_app, lead_length in Hbefore. rewrite (app_assoc p1) in E1.
    destruct (app_prefix _ _ _ _ (eq_sym E1)) as (s1 & Ey & ->); [rewrite length_app; lia|].
    assert (Hz : length (p1 ++ m' ++ s1) = length y) by (rewrite Ey, !length_app; lia).
    rewrite Ey in Hyb, Ev. unfold bytes_ok in Hyb. rewrite !Forall_app in Hyb. destruct Hyb as ((Hp1 & Hm) & Hs1).
    clear E E1 Ey.
    replace ((lead t size ++ p1) ++ m' ++ s1 ++ fp_hdr ++ [a; b; c; d])
      with (lead t size ++ (p1 ++ m' ++ s1) ++ fp_hdr ++ [a; b; c; d]) by (by rewrite <- !app_assoc).
    rewrite check_packet by assumption.
    destruct (Z.eqb_spec (fingerprint env (lead t size ++ p1 ++ m' ++ s1)) (be32 a b c d)) as [E|]; [|reflexivity].
    exfalso. apply Hne. rewrite <- Ev, <- !app_assoc, !(app_assoc (lead t size) p1) in E.
    refine (fingerprint_burst env (lead t size ++ p1) m' m s1 _ Hm' Hm Hs1 El _ E); [by apply Forall_app|lia].
  - assert (Hlen : length (lead t size ++ y ++ fp_hdr) = Z.to_nat (16 + size)).
    { rewrite !length_app. cbn [lead fp_hdr ahdr_bytes PUTVAL16H PUTVAL32H app length]. lia. }
    rewrite (app_assoc y), (app_assoc (lead t size)) in E.
    destruct (app_prefix _ _ _ _ E) as (p1 & -> & E1); [lia|].
    replace (((lead t size ++ y ++ fp_hdr) ++ p1) ++ m' ++ s)
      with (lead t size ++ y ++ fp_hdr ++ (p1 ++ m' ++ s)) by (by rewrite <- !app_assoc).
    assert (Hw' : bytes_ok (p1 ++ m' ++ s) /\ length (p1 ++ m' ++ s) = 4%nat /\ p1 ++ m' ++ s <> [a; b; c; d]).
    { assert (H4 : bytes_ok (p1 ++ m ++ s)) by (rewrite <- E1; unfold bytes_ok; rewrite !list.Forall_cons; auto).
      unfold bytes_ok in *. rewrite !Forall_app in *. apply (f_equal length) in E1 as El4. rewrite !length_app in *.
      split; [tauto|]. split; [simpl in El4; lia|]. rewrite E1. intros H. apply app_inv_head, app_inv_tail in H. done. }
    destruct Hw' as (Hok' & Hl4 & Hd4).
    destruct (p1 ++ m' ++ s) as [|a' [|b' [|c' [|d' [|? ?]]]]]; try discriminate Hl4.
    apply bytes4 in Hok' as (Ha' & Hb' & Hc' & Hd' & _). rewrite check_packet by (first [assumption|reflexivity]). rewrite Ev.
    destruct (Z.eqb_spec (be32 a b c d) (be32 a' b' c' d')) as [E4|]; [|reflexivity].
    exfalso. apply Hd4. apply be32_inj in E4; try assumption. destruct E4 as (-> & -> & -> & ->). reflexivity.
Qed.
End Packet.

(** ** The packets of the encoder *)

Lemma space_of_aligned padc h l : mhdr_ok h -> Forall normal_attr l -> space_of padc h l mod 4 = 0.
Proof.
  intros Hm. induction 1 as [|a l [Ha _] _ IH]; [done|]. cbn [space_of map foldr]. fold (space_of padc h l).
  assert (attr_space padc h a mod 4 = 0).
  { unfold attr_space. apply align4_bounds. pose proof Ha as (_ & Hf & Hl & _).
    pose proof (attr_bytes_length padc h a Hm Hf Hl) as [H _]. lia. }
  rewrite Zplus_mod, IH. by rewrite H.
Qed.

Lemma body_size_aligned padc h l m f : mhdr_ok h -> Forall normal_attr l -> body_size padc h l m f mod 4 = 0.
Proof.
  intros Hm Hl. pose proof (space_of_aligned padc h l Hm Hl) as E. unfold body_size.
  destruct m, f; Z.to_euclidean_division_equations; lia.
Qed.

Section Sealed.
Context (env : stun_env) (padc : Z) (h : pj_stun_msg_hdr) (normal : list stun_attr) (mi : option (list Z))
        (old : Z) (key buf : list Z).
Let size := body_size padc h normal (is_some mi) true.
Hypothesis Henv : env_ok env.
Hypothesis Hh : mhdr_ok h.
Hypothesis Hn : Forall normal_attr normal.
Hypothesis Hb : bytes_ok buf.
Hypothesis Hk : piece_ok (2 ^ 29) key.
Hypothesis Hmagic : mh_magic h = PJ_STUN_MAGIC.
Hypothesis Hc : (length (msg_attr (stun_msg h normal mi (Some old))) <= 16)%nat.
Hypothesis Hbuf : 20 + size <= Z.of_nat (length buf) < 2 ^ 29.
Hypothesis Hsz : size <= 65535.

(** A packet with fingerprint: the eight bytes, the rest, the checksum. *)
Lemma sealed_packet : exists sent buf' y,
  let v := fingerprint env (lead (mh_type h) size ++ y) in
  let packet := lead (mh_type h) size ++ y ++ fp_hdr ++ PUTVAL32H v in
  pj_stun_msg_encode env padc (stun_msg h normal mi (Some old)) buf 0 (Some key)
  = Encoded PJ_SUCCESS sent buf' (Some (20 + size))
  /\ take (Z.to_nat (20 + size)) buf' = packet
  /\ Z.of_nat (length y) = size + 4 /\ bytes_ok packet /\ is_u32 v.
Proof.
  pose proof (space_of_nonneg padc h normal Hh Hn) as H0.
  destruct (encode_layout env padc h normal buf key Henv Hh Hn Hb ltac:(lia) Hk mi (Some old)
              ltac:(cbn [is_some]; lia) Hsz Hc) as (chunks & _ & Hcl & Hcb & E & Hlen & Hmac & Hfp).
  cbn [is_some] in *. fold size in E, Hlen. set (b := concat chunks) in *. set (bytes := message_bytes _ _ _ _ _ _ _) in *.
  exists (sent_msg env padc h normal mi (Some old) key b), (splice buf 0 bytes).
  rewrite (take_written buf bytes) by lia. unfold bytes, message_bytes in *. clear bytes.
  set (x := b ++ mac_bytes env padc h (is_some mi) key b) in *. exists (mh_tsx_id h ++ x).
  assert (Hxl : Z.of_nat (length x) + 8 = size) by (rewrite !length_app, (head_length h _ Hh), fp_bytes_length in Hlen; lia).
  assert (Hx : bytes_ok x).
  { apply Forall_app; split; [exact Hcb|]. unfold mac_bytes. destruct mi as [m|]; cbn [is_some] in *; [|constructor].
    apply Forall_app; split; [apply ahdr_bytes_ok; by unfold is_u16|]. by apply Hmac. }
  assert (Ehead : head h size ++ x = lead (mh_type h) size ++ mh_tsx_id h ++ x).
  { unfold head, lead. by rewrite Hmagic, <- !app_assoc. }
  specialize (Hfp ltac:(done)). unfold fp_part in *. rewrite Hxl, Ehead in *.
  cbv zeta. set (v := fingerprint env _) in *. split; [exact E|].
  assert (Ep : head h size ++ x ++ attr_bytes padc h (fp_attr v)
               = lead (mh_type h) size ++ (mh_tsx_id h ++ x) ++ fp_hdr ++ PUTVAL32H v).
  { rewrite app_assoc, Ehead. by rewrite <- !app_assoc. }
  rewrite Ep. split; [reflexivity|]. split; [|split; [|exact Hfp]].
  - destruct Hh as (_ & _ & _ & Hid). rewrite length_app, Hid. lia.
  - rewrite <- Ep. apply Forall_app; split; [apply head_bytes; [exact Hh|unfold is_u16, size, body_size in *; destruct (is_some mi); lia]|].
    apply Forall_app; split; [exact Hx|]. apply Forall_app; split; [apply ahdr_bytes_ok; by unfold is_u16|].
    rewrite put32_bytes by exact Hfp. by apply store32_bytes.
Qed.
End Sealed.

(** C23. A message with the magic cookie and a fingerprint that the encoder made
    passes the check of the receiver, on any machine; and when up to four
    consecutive bytes of the packet arrive changed, all of them behind the cookie
    (from the ninth byte) and in front of the FINGERPRINT attribute, or all of
    them in the four bytes of the checksum, the check answers
    PJNATH_ESTUNFINGERPRINT.  Damage to the cookie or to the header of the
    attribute is outside the claim: [cookie_unprotected]. *)
Theorem stun_fingerprint_protects env env' padc h normal mi old key buf :
  let size := body_size padc h normal (is_some mi) true in
  env_ok env -> mhdr_ok h -> Forall normal_attr normal -> bytes_ok buf -> piece_ok (2 ^ 29) key ->
  mh_type h < 0x200 -> mh_magic h = PJ_STUN_MAGIC ->
  (length (msg_attr (stun_msg h normal mi (Some old))) <= 16)%nat ->
  20 + size <= Z.of_nat (length buf) < 2 ^ 29 -> size <= 65535 ->
  exists sent buf',
    let packet := take (Z.to_nat (20 + size)) buf' in
    pj_stun_msg_encode env padc (stun_msg h normal mi (Some old)) buf 0 (Some key)
    = Encoded PJ_SUCCESS sent buf' (Some (20 + size))
    /\ pj_stun_msg_check env' packet (20 + size) PJ_STUN_IS_DATAGRAM = Ok PJ_SUCCESS
    /\ forall p m m' s, packet = p ++ m ++ s -> m' <> m -> length m' = length m -> bytes_ok m' ->
         (length m <= 4)%nat -> (8 <= length p)%nat ->
         Z.of_nat (length p + length m) <= 12 + size \/ 16 + size <= Z.of_nat (length p) ->
         pj_stun_msg_check env' (p ++ m' ++ s) (20 + size) PJ_STUN_IS_DATAGRAM = Ok PJNATH_ESTUNFINGERPRINT.
Proof.
  intros size Henv Hh Hn Hb Hk Ht Hmagic Hc Hbuf Hsz.
  destruct (sealed_packet env padc h normal mi old key buf Henv Hh Hn Hb Hk Hmagic Hc Hbuf Hsz)
    as (sent & buf' & y & E & Ep & Hy & Hok & Hv). fold size in E, Ep, Hy, Hok, Hv.
  exists sent, buf'. cbv zeta. rewrite Ep. split; [exact E|]. set (v := fingerprint env _) in *.
  pose proof (body_size_aligned padc h normal (is_some mi) true Hh Hn) as Hmod. fold size in Hmod.
  assert (Hs8 : 8 <= size).
  { pose proof (space_of_nonneg padc h normal Hh Hn). unfold size, body_size. destruct (is_some mi); lia. }
  assert (Ht0 : 0 <= mh_type h < 0x200) by (destruct Hh as (Hu & _); unfold is_u16 in Hu; lia).
  assert (Hpass : pj_stun_msg_check env' (lead (mh_type h) size ++ y ++ fp_hdr ++ PUTVAL32H v)
                    (20 + size) PJ_STUN_IS_DATAGRAM = Ok PJ_SUCCESS).
  { rewrite put32_bytes by exact Hv. cbn [store32]. assert (H00 : 0 <= v) by (unfold is_u32 in Hv; lia).
    rewrite (check_packet env' (mh_type h) size y) by (first [lia|assumption|reflexivity|by apply byte_of_range]).
    unfold be32. rewrite le32_byte_of by exact Hv.
    rewrite (fingerprint_same env' env); [fold v; by rewrite Z.eqb_refl|].
    rewrite app_assoc in Hok. by apply Forall_app in Hok as [? _]. }
  split; [exact Hpass|]. intros p m m' s Es Hne El Hm' Hl4 Hp8 Hpos.
  by apply (check_damaged env' (mh_type h) size y) with (m := m) (w := PUTVAL32H v); try lia.
Qed.

Lemma stun_fingerprint_protects_witness : exists sent buf',
  let packet := take 92 buf' in
  pj_stun_msg_encode (sample_env LittleEndian) 32 (stun_msg sample_hdr sample_attrs (Some []) (Some 0))
    (replicate 200 170) 0 (Some (cstr "secret")) = Encoded PJ_SUCCESS sent buf' (Some 92)
  /\ pj_stun_msg_check (sample_env BigEndian) packet 92 PJ_STUN_IS_DATAGRAM = Ok PJ_SUCCESS
  /\ forall p m m' s, packet = p ++ m ++ s -> m' <> m -> length m' = length m -> bytes_ok m' ->
       (length m <= 4)%nat -> (8 <= length p)%nat ->
       Z.of_nat (length p + length m) <= 84 \/ 88 <= Z.of_nat (length p) ->
       pj_stun_msg_check (sample_env BigEndian) (p ++ m' ++ s) 92 PJ_STUN_IS_DATAGRAM = Ok PJNATH_ESTUNFINGERPRINT.
Proof.
  apply (stun_fingerprint_protects (sample_env LittleEndian) (sample_env BigEndian) 32 sample_hdr sample_attrs
           (Some []) 0 (cstr "secret") (replicate 200 170)).
  - split; reflexivity.
  - exact sample_hdr_ok.
  - exact sample_normal.
  - apply wild_buffer.
  - change (cstr "secret") with [115; 101; 99; 114; 101; 116]. split; [solve_bytes|simpl; lia].
  - reflexivity.
  - reflexivity.
  - simpl. lia.
  - split; [by vm_compute|by vm_compute].
  - by vm_compute.
Defined.

(** With one bit of the cookie changed the packet is taken for one of RFC 3489,
    and with one bit of the type of the last attribute changed for one without a
    fingerprint: in both cases nothing is checked. *)
Definition sealed_sample : list Z := Eval vm_compute in
  match pj_stun_msg_encode (sample_env LittleEndian) 32 (stun_msg sample_hdr sample_attrs None (Some 0)) (replicate 200 170) 0 None with
  | Encoded _ _ buf (Some n) => take (Z.to_nat n) buf
  | _ => []
  end.
Lemma cookie_unprotected :
  let check p := pj_stun_msg_check (sample_env LittleEndian) p 68 PJ_STUN_IS_DATAGRAM in
  check sealed_sample = Ok PJ_SUCCESS
  /\ check (splice sealed_sample 7 [0x43]) = Ok PJ_SUCCESS /\ check (splice sealed_sample 61 [0x29]) = Ok PJ_SUCCESS
  /\ check (splice sealed_sample 9 [0x43]) = Ok PJNATH_ESTUNFINGERPRINT.
Proof. by vm_compute. Qed.
