(* ===== verification/StunBounds.v ===== *)
(** * What the decoder of STUN messages reads and builds

    For any packet whatever: the loop of [pj_stun_msg_decode] ends; with four
    readable bytes behind the packet it reads nothing outside, an ERROR-CODE
    attribute shorter than its fixed part apart; and the message it builds is
    well typed: each attribute is the struct its type promises, so that the
    encoder never takes one struct for another. *)

From Stdlib Require Import ZArith Lia Bool String.
From stdpp Require Import base list numbers.
From S2P Require Import Prelude.
From S2P Require Import PjString.
From S2P Require Import Words.
From S2P Require Import Blocks.
From S2P Require Import Crc32.
From S2P Require Import Sha1.
From S2P Require Import Hmac.
From S2P Require Import StunMsg.
From S2P Require Import StunCodec.
From S2P Require Import StunAttr.
Local Open Scope Z_scope.
Local Open Scope stun_scope.

(** ** Termination *)

Lemma align4_nonneg n : 0 <= align4 n.
Proof. unfold align4. apply Z.land_nonneg. left. unfold u32. apply Z.mod_pos_bound. lia. Qed.

Lemma decode_loop_ends strerror want fuel : forall msg pdu pdu_len used mi fp,
  (Z.to_nat pdu_len < fuel)%nat ->
  is_Some (decode_loop strerror fuel want msg pdu pdu_len used mi fp).
Proof.
  induction fuel as [|fuel IH]; intros msg pdu pdu_len used mi fp Hf; [lia|]. cbn [decode_loop].
  destruct (Z.ltb_spec pdu_len 4); [by eexists|].
  destruct (GETATTRHDR pdu) as [h|st|]; [|by eexists..].
  destruct (Z.ltb_spec pdu_len (align4 (ah_length h))); [by eexists|].
  pose proof (align4_nonneg (ah_length h)).
  destruct (match find_attr_desc _ with Some _ => _ | None => _ end); [|by eexists].
  destruct (Z.geb_spec (align4 (ah_length h) + 4) pdu_len); apply IH; lia.
Qed.

Lemma get16_range buf p v : GETVAL16H buf p = Ok v -> is_u16 v.
Proof.
  unfold GETVAL16H. destruct (get buf p); [|done..]. cbn [rbind]. destruct (get buf (S p)); [|done..].
  cbn [rbind]. intros [= <-]. unfold is_u16, u16. apply Z.mod_pos_bound. lia.
Qed.

(** [pj_stun_msg_decode] returns, whatever the bytes of the packet, its
    length, the options and the memory around it. *)
Theorem stun_decode_returns strerror env pdu pdu_len options want :
  exists r, pj_stun_msg_decode strerror env pdu pdu_len options want = Some r.
Proof.
  assert (L : forall h w, exists r, decode_loop strerror (S (Z.to_nat (mh_length h))) w (mk_msg h []) (drop 20 pdu)
                                 (mh_length h) 20 false false = Some r).
  { intros h w. apply decode_loop_ends. lia. }
  unfold pj_stun_msg_decode. destruct (pdu_len =? 0); [by eexists|].
  destruct (negb _); [destruct (pj_stun_msg_check _ _ _ _) as [st|st|]; [destruct (st =? PJ_SUCCESS)|..]|];
    try (by eexists); destruct (read_hdr pdu); try (by eexists); apply L.
Qed.

(** ** Reads inside the buffer *)

Section Reads.
Context (buf : list Z).
Hypothesis Hbuf : bytes_ok buf.

Lemma get_in p : (p < length buf)%nat -> exists b, get buf p = Ok b /\ is_u8 b.
Proof.
  intros Hp. apply lookup_lt_is_Some in Hp as [b E]. exists b. unfold get. rewrite E. split; [done|].
  by apply (Forall_lookup_1 _ _ _ _ Hbuf E).
Qed.

Lemma get16_in p : (p + 2 <= length buf)%nat -> exists v, GETVAL16H buf p = Ok v /\ is_u16 v.
Proof.
  intros Hp. destruct (get_in p ltac:(lia)) as (a & Ea & _), (get_in (S p) ltac:(lia)) as (b & Eb & _).
  assert (E : GETVAL16H buf p = Ok (u16 (Z.lor (Z.shiftl a 8) b))) by (unfold GETVAL16H; by rewrite Ea, Eb).
  rewrite E. eexists. split; [done|]. by apply (get16_range buf p).
Qed.

Lemma get32_in p : (p + 4 <= length buf)%nat -> exists v, GETVAL32H buf p = Ok v /\ is_u32 v.
Proof.
  intros Hp. destruct (get_in p ltac:(lia)) as (a & Ea & _), (get_in (S p) ltac:(lia)) as (b & Eb & _),
    (get_in (S (S p)) ltac:(lia)) as (c & Ec & _), (get_in (S (S (S p))) ltac:(lia)) as (d & Ed & _).
  unfold GETVAL32H. rewrite Ea, Eb, Ec, Ed. cbn [rbind]. eexists. split; [done|].
  unfold is_u32, u32. apply Z.mod_pos_bound. lia.
Qed.

Lemma slice_in p n : (p + n <= length buf)%nat ->
  exists l, slice buf p n = Ok l /\ bytes_ok l /\ length l = n.
Proof.
  intros Hp. unfold slice. destruct (Nat.leb_spec (p + n) (length buf)); [|lia]. eexists. split; [done|].
  split; [by apply Forall_take, Forall_drop|]. rewrite length_take, length_drop. lia.
Qed.

Lemma attr_hdr_in : (4 <= length buf)%nat -> exists h, GETATTRHDR buf = Ok h /\ is_u16 (ah_type h) /\ is_u16 (ah_length h).
Proof.
  intros Hp. destruct (get16_in 0 ltac:(lia)) as (t & Et & Ht), (get16_in 2 ltac:(lia)) as (l & El & Hl).
  unfold GETATTRHDR. rewrite Et, El. cbn [rbind]. eexists. split; [done|]. by split.
Qed.

Lemma get_types_in n : forall p, (p + 2 * n <= length buf)%nat ->
  exists l, get_types buf p n = Ok l /\ Forall is_u16 l /\ length l = n.
Proof.
  induction n as [|n IH]; intros p Hp; cbn [get_types]; [by exists []|].
  destruct (get16_in p ltac:(lia)) as (t & Et & Ht), (IH (S (S p)) ltac:(lia)) as (l & El & Hl & Hn).
  rewrite Et, El. cbn [rbind]. exists (t :: l). split; [done|]. split; [by constructor|simpl; lia].
Qed.
End Reads.

(** ** The attributes the decoder builds *)

(** The fields agree with the length on the wire. *)
Definition decoded_fields (a : stun_attr) : Prop :=
  match a with
  | SockaddrAttr h _ s => sockaddr_ok s /\ ah_length h = addr_len s + 4
  | StringAttr h v => bytes_ok v /\ ah_length h = Z.of_nat (length v)
  | EmptyAttr h => ah_length h = 0
  | UintAttr h v => is_u32 v /\ ah_length h = 4
  | Uint64Attr h hi lo => is_u32 hi /\ is_u32 lo /\ ah_length h = 8
  | MsgintAttr h m => bytes_ok m /\ length m = 20%nat /\ ah_length h = 20
  | ErrcodeAttr h c r => 0 <= c <= 25755 /\ bytes_ok r /\ ah_length h = 4 + Z.of_nat (length r)
  | UnknownAttr h l => Forall is_u16 l /\ (length l <= 16)%nat /\ ah_length h / 2 = Z.of_nat (length l)
  | BinaryAttr h _ d => bytes_ok d /\ ah_length h = Z.of_nat (length d)
  end.

Definition decoded_attr (a : stun_attr) : Prop :=
  is_u16 (attr_type a) /\ decoded_fields a /\
  match find_attr_desc (attr_type a) with
  | Some d => kind_ok (desc_kind d) a
  | None => match a with
            | BinaryAttr _ magic _ => magic = PJ_STUN_MAGIC /\ 0x7FFF < attr_type a
            | _ => False
            end
  end.

Ltac parts := unfold kind_ok; cbn [negb rbind attr_hdr decoded_fields has_kind]; repeat match goal with |- _ /\ _ => split end.

Section Attribute.
Context (buf : list Z) (mh : pj_stun_msg_hdr) (h : pj_stun_attr_hdr).
Hypothesis Hbuf : bytes_ok buf.
Hypothesis Hmh : mhdr_ok mh.
Hypothesis Eh : GETATTRHDR buf = Ok h.
Hypothesis Hl : is_u16 (ah_length h).
Hypothesis H8 : (8 <= length buf)%nat.
Hypothesis Hin : (4 + Z.to_nat (ah_length h) <= length buf)%nat.

Lemma decode_sockaddr_in :
match decode_sockaddr_attr buf with
| Ok (h', s) => h' = h /\ sockaddr_ok s /\ ah_length h = addr_len s + 4
| Err st => st <> PJ_SUCCESS
| Wild => False
end.
Proof.
unfold decode_sockaddr_attr. rewrite Eh. cbn [rbind].
destruct (Z.eqb_spec (ah_length h) 8) as [E8|], (Z.eqb_spec (ah_length h) 20) as [E20|]; cbn [negb andb];
  [lia| | |done];
  (destruct (get_in buf Hbuf 5 ltac:(lia)) as (f & -> & _); cbn [rbind]; destruct (f =? 1); cbn [negb];
    [|destruct (f =? 2); cbn [negb]; [|done]]); try done;
  destruct (get16_in buf Hbuf 6 ltac:(lia)) as (p & -> & Hp); cbn [rbind].
- destruct (slice_in buf Hbuf 8 4 ltac:(lia)) as (a & -> & Ha & Hla). cbn [rbind].
  split; [done|]. by split; [split|].
- destruct (slice_in buf Hbuf 8 16 ltac:(lia)) as (a & -> & Ha & Hla). cbn [rbind].
  split; [done|]. by split; [split|].
Qed.

Definition attr_outcome (k : attr_kind) (r : res stun_attr) : Prop :=
match r with
| Ok a => attr_hdr a = h /\ decoded_fields a /\ kind_ok k a
| Err st => st <> PJ_SUCCESS
| Wild => k = KErrcode /\ ah_length h < 4
end.

Lemma decode_errcode_in : attr_outcome KErrcode (decode_errcode_attr buf).
Proof.
unfold decode_errcode_attr. rewrite Eh. cbn [rbind].
destruct (get_in buf Hbuf 6 ltac:(lia)) as (c & -> & Hc), (get_in buf Hbuf 7 ltac:(lia)) as (n & -> & Hn).
cbn [rbind]. destruct (Z.ltb_spec (ah_length h - 4) 0); [split; [done|lia]|].
destruct (slice_in buf Hbuf 8 (Z.to_nat (ah_length h - 4)) ltac:(lia)) as (r & -> & Hr & Hlr). cbn [rbind].
unfold is_u8 in *. split; [done|]. split; [|by split]. split; [lia|]. split; [done|]. lia.
Qed.

Lemma decode_unknown_in : attr_outcome KUnknown (decode_unknown_attr buf).
Proof.
unfold decode_unknown_attr. rewrite Eh. cbn [rbind]. rewrite Z.shiftr_div_pow2 by lia. change (2 ^ 1) with 2.
unfold is_u16 in Hl. destruct (Z.gtb_spec (ah_length h / 2) PJ_STUN_MAX_ATTR) as [|H16]; [done|].
unfold PJ_STUN_MAX_ATTR in H16.
assert (H2 : 0 <= ah_length h / 2 /\ 2 * (ah_length h / 2) <= ah_length h)
  by (Z.to_euclidean_division_equations; lia).
destruct (get_types_in buf Hbuf (Z.to_nat (ah_length h / 2)) 4 ltac:(lia)) as (l & -> & Ht & Hn).
cbn [rbind]. split; [done|]. split; [|by split]. split; [done|]. lia.
Qed.

Lemma decode_attr_in k : attr_outcome k (decode_attr k buf mh).
Proof.
pose proof decode_sockaddr_in as Hs. pose proof Hl as Hl'. unfold is_u16 in Hl'.
destruct k; cbn [decode_attr]; try apply decode_errcode_in; try apply decode_unknown_in.
- unfold decode_plain_sockaddr. destruct (decode_sockaddr_attr buf) as [[h' s]|st|]; cbn [rbind fst snd]; try done.
  destruct Hs as (-> & Hs & El). by parts.
- unfold decode_xored_sockaddr_attr. destruct (decode_sockaddr_attr buf) as [[h' s]|st|]; cbn [rbind fst snd]; try done.
  destruct Hs as (-> & Hs & El), (xor_addr_ok mh s Hmh Hs) as [Hx Ex].
  rewrite <- Ex in El. destruct s; [by parts..|done].
- unfold decode_string_attr. rewrite Eh. cbn [rbind].
  destruct (slice_in buf Hbuf 4 (Z.to_nat (ah_length h)) ltac:(lia)) as (v & -> & Hv & Hn). cbn [rbind].
  split; [done|]. split; [|by split]. split; [done|lia].
- unfold decode_empty_attr. rewrite Eh. cbn [rbind]. destruct (Z.eqb_spec (ah_length h) 0); by parts.
- unfold decode_uint_attr. rewrite Eh. cbn [rbind]. destruct (get32_in buf Hbuf 4 ltac:(lia)) as (v & -> & Hv).
  cbn [rbind]. destruct (Z.eqb_spec (ah_length h) 4); by parts.
- unfold decode_uint64_attr. rewrite Eh. cbn [rbind]. destruct (Z.eqb_spec (ah_length h) 8) as [E|]; [|done].
  cbn [negb]. destruct (get32_in buf Hbuf 4 ltac:(lia)) as (hi & -> & Hhi), (get32_in buf Hbuf 8 ltac:(lia)) as (lo & -> & Hlo).
  by parts.
- unfold decode_msgint_attr. rewrite Eh. cbn [rbind]. destruct (Z.eqb_spec (ah_length h) 20) as [E|]; [|done].
  cbn [negb]. destruct (slice_in buf Hbuf 4 20 ltac:(lia)) as (m & -> & Hm & Hn). by parts.
- unfold decode_binary_attr. rewrite Eh. cbn [rbind].
  destruct (slice_in buf Hbuf 4 (Z.to_nat (ah_length h)) ltac:(lia)) as (v & -> & Hv & Hn). cbn [rbind].
  split; [done|]. split; [|by split]. split; [done|lia].
Qed.
End Attribute.

(** ** The loop *)

(** What a returned result holds; [total] is the length of the message. *)
Definition result_ok (hdr : pj_stun_msg_hdr) (total : Z) (r : decode_result) : Prop :=
  match dr_msg r with
  | Some msg => dr_status r = PJ_SUCCESS /\ dr_parsed r = total /\ dr_response r = None
                /\ msg_hdr msg = hdr /\ (length (msg_attr msg) <= 16)%nat /\ Forall decoded_attr (msg_attr msg)
  | None => dr_status r <> PJ_SUCCESS /\ dr_parsed r = 0
  end.

(** An ERROR-CODE attribute without room for class and number, at byte [k]. *)
Definition short_errcode (pdu : list Z) (size : Z) : Prop :=
  exists k h, Z.of_nat k + 4 <= size /\ GETATTRHDR (drop k pdu) = Ok h
              /\ ah_type h = PJ_STUN_ATTR_ERROR_CODE /\ ah_length h < 4.

(** ERROR-CODE alone has its kind in the tables of descriptors. *)
Lemma errcode_only t d : is_u16 t -> find_attr_desc t = Some d -> desc_kind d = KErrcode ->
  t = PJ_STUN_ATTR_ERROR_CODE.
Proof.
  set (at_code := fun (o : option (option attr_desc)) (ok : bool) =>
         match o with Some (Some d) => match desc_kind d with KErrcode => ok | _ => true end | _ => true end).
  assert (Tm : forallb (fun i => at_code (mandatory_attr_desc !! i) (i =? 9)%nat) (seq 0 (length mandatory_attr_desc)) = true)
    by (by vm_compute).
  assert (Te : forallb (fun i => at_code (extended_attr_desc !! i) false) (seq 0 (length extended_attr_desc)) = true)
    by (by vm_compute).
  assert (L : forall (tab : list (option attr_desc)) f i, forallb (fun i => at_code (tab !! i) (f i)) (seq 0 (length tab)) = true ->
            default None (tab !! i) = Some d -> desc_kind d = KErrcode -> f i = true).
  { intros tab f i H Ed Ek. destruct (tab !! i) as [o|] eqn:Ei; [|done]. cbn in Ed. subst o.
    rewrite forallb_forall in H. specialize (H i). rewrite Ei in H. cbn in H. rewrite Ek in H. apply H.
    apply in_seq. apply lookup_lt_Some in Ei. lia. }
  intros Ht Hd Hk. unfold is_u16 in Ht. unfold find_attr_desc in Hd. destruct (t <? PJ_STUN_ATTR_END_MANDATORY_ATTR).
  - apply (L _ _ _ Tm) in Hd; [|exact Hk]. apply Nat.eqb_eq in Hd. unfold PJ_STUN_ATTR_ERROR_CODE. lia.
  - destruct (_ && _); [|done]. by apply (L _ (fun _ => false) _ Te) in Hd.
Qed.

Lemma create_response_reads msg code text : code = 400 \/ code = 420 \/ code = 500 ->
  pj_stun_msg_create_response msg code text <> None.
Proof.
  intros Hc. unfold pj_stun_msg_create_response. destruct (negb _); [done|].
  assert (C : pj_stun_errcode_attr_create code text <> None).
  { destruct text as [r|]; [unfold pj_stun_errcode_attr_create; by destruct (code =? 0)|].
    destruct Hc as [->|[->| ->]]; by vm_compute. }
  assert (E : forall m, pj_stun_msg_add_errcode_attr m code text <> None).
  { intros m. unfold pj_stun_msg_add_errcode_attr. by destruct (pj_stun_errcode_attr_create _ _) as [[? [?|]]|]. }
  destruct (pj_stun_msg_create _ _ _) as [st [r|]]; [|done]. destruct (code =? 0); [done|].
  specialize (E r). destruct (pj_stun_msg_add_errcode_attr r code text) as [[st' r']|]; [|done].
  by destruct (st' =? PJ_SUCCESS).
Qed.

Lemma fail_with_ok want msg code text st hdr total : code = 400 \/ code = 420 \/ code = 500 -> st <> PJ_SUCCESS ->
  exists r, fail_with want msg code text st = Ok r /\ result_ok hdr total r.
Proof.
  intros Hc Hst. unfold fail_with. pose proof (create_response_reads msg code text Hc) as Hr.
  destruct want; [|by eexists]. destruct (pj_stun_msg_create_response msg code text) as [[st' r]|]; [by eexists|done].
Qed.

Section Loop.
Context (strerror : pj_status_t -> pj_str) (want : bool).

Definition step_ok (pdu : list Z) (h : pj_stun_attr_hdr) (msg : pj_stun_msg) (total : Z) (s : attr_step) : Prop :=
match s with
| Added msg' _ _ => msg_hdr msg' = msg_hdr msg /\ (length (msg_attr msg') <= 16)%nat
                    /\ Forall decoded_attr (msg_attr msg')
| Stop (Ok r) => result_ok (msg_hdr msg) total r
| Stop (Err _) => False
| Stop Wild => ah_type h = PJ_STUN_ATTR_ERROR_CODE /\ ah_length h < 4
end.

Context (pdu : list Z) (h : pj_stun_attr_hdr) (msg : pj_stun_msg) (total : Z).
Hypothesis Hpdu : bytes_ok pdu.
Hypothesis Eh : GETATTRHDR pdu = Ok h.
Hypothesis Ht : is_u16 (ah_type h).
Hypothesis Hl : is_u16 (ah_length h).
Hypothesis H8 : (8 <= length pdu)%nat.
Hypothesis Hin : (4 + Z.to_nat (ah_length h) <= length pdu)%nat.
Hypothesis Hmh : mhdr_ok (msg_hdr msg).
Hypothesis Hattrs : Forall decoded_attr (msg_attr msg).

Lemma add_ok a mi fp : msg_full msg = false -> decoded_attr a -> step_ok pdu h msg total (Added (msg_add msg a) mi fp).
Proof.
intros Hf Ha. unfold msg_full in Hf. destruct (Z.geb_spec (Z.of_nat (length (msg_attr msg))) PJ_STUN_MAX_ATTR) as [|H]; [done|].
unfold PJ_STUN_MAX_ATTR in H. cbn [step_ok msg_add msg_hdr msg_attr]. split; [done|]. split.
- rewrite length_app. simpl. lia.
- apply Forall_app. split; [done|]. by constructor.
Qed.

Lemma stop_ok code text st : code = 400 \/ code = 420 \/ code = 500 -> st <> PJ_SUCCESS ->
step_ok pdu h msg total (Stop (fail_with want msg code text st)).
Proof. intros Hc Hst. by destruct (fail_with_ok want msg code text st (msg_hdr msg) total Hc Hst) as (r & -> & Hr). Qed.

Lemma unrecognized_in mi fp : find_attr_desc (ah_type h) = None ->
step_ok pdu h msg total (unrecognized_attr want msg (ah_type h) pdu mi fp).
Proof.
intros Hd. unfold unrecognized_attr. destruct (Z.leb_spec (ah_type h) 0x7FFF).
- pose proof (create_response_reads msg PJ_STUN_SC_UNKNOWN_ATTRIBUTE None ltac:(by right; left)) as Hr.
  destruct want; [|done]. by destruct (pj_stun_msg_create_response _ _ _) as [[st [r|]]|].
- destruct (msg_full msg) eqn:Hf; [apply stop_ok; [by right; right|done]|].
  assert (El : GETVAL16H pdu 2 = Ok (ah_length h)).
  { unfold GETATTRHDR in Eh. destruct (GETVAL16H pdu 0); [|done..]. destruct (GETVAL16H pdu 2); [|done..].
    cbn [rbind] in Eh. by injection Eh as <-. }
  rewrite El. cbn [rbind]. unfold is_u16 in *.
  destruct (slice_in pdu Hpdu 4 (Z.to_nat (ah_length h)) ltac:(lia)) as (d & -> & Hdb & Hn).
  apply add_ok; [exact Hf|]. unfold pj_stun_binary_attr_create.
  assert (Et : attr_type (BinaryAttr (INIT_ATTR (ah_type h) (Z.of_nat (length d))) PJ_STUN_MAGIC d) = ah_type h).
  { unfold attr_type, INIT_ATTR. cbn [attr_hdr ah_type]. by rewrite u16_small. }
  split; [by rewrite Et|]. split; [|by rewrite Et, Hd].
  split; [exact Hdb|]. unfold INIT_ATTR. cbn [ah_length]. rewrite u16_small; [done|]. unfold is_u16; lia.
Qed.

Lemma recognized_in d mi fp : find_attr_desc (ah_type h) = Some d ->
step_ok pdu h msg total (recognized_attr strerror want msg (ah_type h) (desc_kind d) pdu mi fp).
Proof.
intros Hd. unfold recognized_attr.
pose proof (decode_attr_in pdu (msg_hdr msg) h Hpdu Hmh Eh Hl H8 Hin (desc_kind d)) as Ha.
destruct (decode_attr (desc_kind d) pdu (msg_hdr msg)) as [a|st|] eqn:Ed; cbn [attr_outcome] in Ha.
- destruct Ha as (Eah & Hf & Hk).
  destruct (check_position (ah_type h) mi fp) as [[mi' fp']|st] eqn:Ep.
  + destruct (msg_full msg) eqn:Hfull; [apply stop_ok; [by right; right|done]|].
    apply add_ok; [exact Hfull|]. split; [unfold attr_type; by rewrite Eah|]. split; [exact Hf|].
    unfold attr_type. by rewrite Eah, Hd.
  + apply stop_ok; [by left|]. unfold check_position in Ep.
    repeat match type of Ep with context [if ?b then _ else _] => destruct b end; by simplify_eq.
- apply stop_ok; [by left|exact Ha].
- destruct Ha as [Hk Hs]. split; [by apply (errcode_only _ d)|exact Hs].
Qed.
End Loop.

Lemma short_errcode_drop n pdu size : short_errcode (drop n pdu) (size - Z.of_nat n) -> short_errcode pdu size.
Proof.
  intros (k & h & Hk & E & Ht & Hl). exists (n + k)%nat, h. rewrite drop_drop in E.
  split; [lia|]. by rewrite Nat.add_comm in E |- *.
Qed.

Lemma decode_loop_in strerror want fuel : forall msg pdu pdu_len used mi fp,
  bytes_ok pdu -> 0 <= pdu_len -> pdu_len + 4 <= Z.of_nat (length pdu) -> mhdr_ok (msg_hdr msg) ->
  Forall decoded_attr (msg_attr msg) -> (length (msg_attr msg) <= 16)%nat ->
  match decode_loop strerror fuel want msg pdu pdu_len used mi fp with
  | Some (Ok r) => result_ok (msg_hdr msg) (used + pdu_len) r
  | Some (Err _) => False
  | Some Wild => short_errcode pdu pdu_len
  | None => True
  end.
Proof.
  induction fuel as [|fuel IH]; intros msg pdu pdu_len used mi fp Hpdu H0 Hin Hmh Hattrs Hlen; [done|].
  cbn [decode_loop]. destruct (Z.ltb_spec pdu_len 4).
  { destruct (Z.gtb_spec pdu_len 0); [done|]. cbn [result_ok dr_msg]. replace (used + pdu_len) with used by lia.
    by repeat split. }
  destruct (attr_hdr_in pdu Hpdu ltac:(lia)) as (h & Eh & Ht & Hl). rewrite Eh.
  destruct (Z.ltb_spec pdu_len (align4 (ah_length h))).
  { by destruct (fail_with_ok want msg PJ_STUN_SC_BAD_REQUEST (Some (invalid_length_text (ah_type h)))
                   PJNATH_ESTUNINATTRLEN (msg_hdr msg) (used + pdu_len) ltac:(by left) ltac:(done)) as (r & -> & Hr). }
  pose proof (align4_bounds (ah_length h)) as Ha. unfold is_u16 in Hl. destruct Ha as [Ha _]; [lia|].
  set (s := match find_attr_desc _ with Some _ => _ | None => _ end).
  assert (Hs : step_ok pdu h msg (used + pdu_len) s).
  { unfold s. destruct (find_attr_desc (ah_type h)) as [d|] eqn:Hd.
    - by apply recognized_in; try lia.
    - by apply unrecognized_in; try lia. }
  clearbody s. destruct s as [msg' mi' fp'|[r|st|]]; cbn [step_ok] in Hs; [|exact Hs|exact Hs|].
  - destruct Hs as (Eh' & Hlen' & Hattrs'). rewrite <- Eh' in Hmh.
    destruct (Z.geb_spec (align4 (ah_length h) + 4) pdu_len) as [Hge|Hge].
    + specialize (IH msg' (drop (Z.to_nat pdu_len) pdu) 0 (used + pdu_len) mi' fp' (Forall_drop _ _ _ Hpdu) ltac:(lia)).
      rewrite length_drop, Z.add_0_r in IH. specialize (IH ltac:(lia) Hmh Hattrs' Hlen').
      destruct (decode_loop _ _ _ _ _ _ _ _ _) as [[r|st|]|]; try done; [by rewrite Eh' in IH|].
      apply (short_errcode_drop (Z.to_nat pdu_len)). by rewrite Z2Nat.id, Z.sub_diag by lia.
    + set (n := align4 (ah_length h) + 4) in *.
      specialize (IH msg' (drop (Z.to_nat n) pdu) (pdu_len - n) (used + n) mi' fp' (Forall_drop _ _ _ Hpdu) ltac:(lia)).
      rewrite length_drop in IH. specialize (IH ltac:(lia) Hmh Hattrs' Hlen').
      replace (used + n + (pdu_len - n)) with (used + pdu_len) in IH by lia.
      destruct (decode_loop _ _ _ _ _ _ _ _ _) as [[r|st|]|]; try done; [by rewrite Eh' in IH|].
      apply (short_errcode_drop (Z.to_nat n)). by rewrite Z2Nat.id by lia.
  - exists 0%nat, h. rewrite drop_0. destruct Hs. split; [lia|]. by split.
Qed.

(** ** The check in front *)

(** It reads inside the packet, and what it accepts has room for the length in
    its header. *)
Lemma check_in env pdu pdu_len options : bytes_ok pdu -> pdu_len <= Z.of_nat (length pdu) ->
  exists st, pj_stun_msg_check env pdu pdu_len options = Ok st
    /\ (st = PJ_SUCCESS -> 20 <= pdu_len /\ exists l, GETVAL16H pdu 2 = Ok l /\ is_u16 l /\ l + 20 <= pdu_len).
Proof.
  intros Hpdu Hlen. unfold pj_stun_msg_check. destruct (Z.ltb_spec pdu_len 20); [by eexists|].
  destruct (get_in pdu Hpdu 0 ltac:(lia)) as (f & -> & _). cbn [rbind].
  destruct (negb (f =? 0) && negb (f =? 1)); [by eexists|].
  destruct (get16_in pdu Hpdu 2 ltac:(lia)) as (l & El & Hl). rewrite El. cbn [rbind].
  destruct (Z.gtb_spec (l + 20) pdu_len) as [|Hfit]; [by eexists|]. cbn [orb].
  destruct (negb _ && negb _); [by eexists|]. destruct (negb (Z.land l 3 =? 0)); [by eexists|].
  assert (G : forall st, exists st', Ok st = Ok st' /\ (st' = PJ_SUCCESS -> 20 <= pdu_len /\
            exists l', Ok l = Ok l' /\ is_u16 l' /\ l' + 20 <= pdu_len)).
  { intros st. exists st. split; [done|]. intros _. split; [done|]. by exists l. }
  destruct (get32_in pdu Hpdu 4 ltac:(lia)) as (m & -> & _). cbn [rbind].
  destruct (negb (m =? PJ_STUN_MAGIC)); [apply G|]. destruct (negb _); [apply G|]. unfold is_u16 in Hl.
  destruct (get16_in pdu Hpdu (Z.to_nat (l + 20 - 8)) ltac:(lia)) as (t & -> & _). cbn [rbind].
  destruct (negb (t =? _)); [apply G|].
  destruct (get16_in pdu Hpdu (Z.to_nat (l + 20 - 8) + 2) ltac:(lia)) as (al & -> & _). cbn [rbind].
  destruct (get32_in pdu Hpdu (Z.to_nat (l + 20 - 8) + 4) ltac:(lia)) as (v & -> & _). cbn [rbind].
  destruct (negb (al =? 4)); [apply G|]. destruct (_ =? v); apply G.
Qed.

Lemma read_hdr_in pdu : bytes_ok pdu -> (20 <= length pdu)%nat ->
  exists h, read_hdr pdu = Ok h /\ mhdr_ok h /\ GETVAL16H pdu 2 = Ok (mh_length h).
Proof.
  intros Hpdu H. unfold read_hdr.
  destruct (get16_in pdu Hpdu 0 ltac:(lia)) as (t & -> & Ht), (get16_in pdu Hpdu 2 ltac:(lia)) as (l & El & Hl),
    (get32_in pdu Hpdu 4 ltac:(lia)) as (m & -> & Hm), (slice_in pdu Hpdu 8 12 ltac:(lia)) as (id & -> & Hid & Hn).
  rewrite El. cbn [rbind]. eexists. split; [done|]. split; [|done]. by split; [|split; [|split]].
Qed.

(** ** The encoder on well-typed messages *)

Definition typed_attr (a : stun_attr) : Prop :=
  match find_attr_desc (attr_type a) with
  | Some d => has_kind (desc_kind d) a = true
  | None => match a with BinaryAttr _ _ _ => True | _ => False end
  end.

Lemma decoded_typed a : decoded_attr a -> typed_attr a.
Proof.
  intros (_ & _ & H). unfold typed_attr. destruct (find_attr_desc _); [by destruct H|]. by destruct a.
Qed.

Lemma write_cast buf pos bytes k : (forall b, k b <> BadCast) -> write buf pos bytes k <> BadCast.
Proof. intros Hk. unfold write. by destruct (_ <=? _)%nat. Qed.

Lemma write_types_cast l : forall buf pos k, (forall b, k b <> BadCast) -> write_types buf pos l k <> BadCast.
Proof. induction l as [|t l IH]; intros buf pos k Hk; cbn [write_types]; [done|]. apply write_cast. auto. Qed.

Lemma encode_attr_cast padc k a buf pos len mh : has_kind k a = true -> encode_attr padc k a buf pos len mh <> BadCast.
Proof.
  intros Hk. destruct k, a; try discriminate Hk; cbn [encode_attr];
    unfold encode_sockaddr_attr, encode_string_attr, encode_empty_attr, encode_uint_attr, encode_uint64_attr,
      encode_msgint_attr, encode_errcode_attr, encode_unknown_attr, encode_binary_attr, write_sockaddr;
    repeat first [apply write_cast; intros ? | apply write_types_cast; intros ? | case_match; try discriminate | discriminate].
Qed.

Definition idx_ok (attrs : list stun_attr) (t : Z) (o : option nat) : Prop :=
  match o with Some i => exists a, attrs !! i = Some a /\ attr_type a = t | None => True end.

Lemma encode_one_cast padc mh a buf pos bs : typed_attr a -> encode_one padc mh a buf pos bs <> BadCast.
Proof.
  intros Ht. unfold encode_one, typed_attr in *. destruct (find_attr_desc (attr_type a)); [by apply encode_attr_cast|].
  destruct a as [| | | | | | | |h m d]; try done. destruct (m =? PJ_STUN_MAGIC); [|done].
  unfold encode_binary_attr. case_match; [done|]. repeat (apply write_cast; intros ?). done.
Qed.

Lemma encode_attrs_cast padc mh attrs : forall pre buf pos bs, Forall typed_attr attrs ->
  match encode_attrs padc mh attrs (length pre) buf pos bs with
  | Loop1 _ mi fp _ _ _ => idx_ok (pre ++ attrs) PJ_STUN_ATTR_MESSAGE_INTEGRITY mi
                           /\ idx_ok (pre ++ attrs) PJ_STUN_ATTR_FINGERPRINT fp
  | Loop1BadCast => False
  | _ => True
  end.
Proof.
  induction attrs as [|a attrs IH]; intros pre buf pos bs Ht; cbn [encode_attrs]; [done|].
  apply list.Forall_cons in Ht as [Ha Ht].
  assert (Ei : (pre ++ a :: attrs) !! length pre = Some a) by (by rewrite list_lookup_middle).
  destruct (Z.eqb_spec (attr_type a) PJ_STUN_ATTR_MESSAGE_INTEGRITY); [split; [by exists a|done]|].
  destruct (Z.eqb_spec (attr_type a) PJ_STUN_ATTR_FINGERPRINT); [split; [done|by exists a]|].
  pose proof (encode_one_cast padc mh a buf pos bs Ha). destruct (encode_one _ _ _ _ _ _) as [st b pr| |]; [|done..].
  destruct (negb (st =? PJ_SUCCESS)); [done|].
  specialize (IH (pre ++ [a]) b (pos + Z.to_nat pr)%nat (u64 (bs - pr)) Ht).
  rewrite length_app, <- app_assoc in IH. cbn [length app] in IH. by rewrite Nat.add_1_r in IH.
Qed.

Lemma scan_attrs_idx all attrs : forall i mi fp, attrs = drop i all ->
  idx_ok all PJ_STUN_ATTR_MESSAGE_INTEGRITY mi -> idx_ok all PJ_STUN_ATTR_FINGERPRINT fp ->
  match scan_attrs attrs i mi fp with
  | inl (_, mi, fp) => idx_ok all PJ_STUN_ATTR_MESSAGE_INTEGRITY mi /\ idx_ok all PJ_STUN_ATTR_FINGERPRINT fp
  | inr _ => True
  end.
Proof.
  induction attrs as [|a attrs IH]; intros i mi fp E Hm Hf; cbn [scan_attrs]; [by split|].
  assert (Ei : all !! i = Some a) by (rewrite <- (Nat.add_0_r i), <- lookup_drop, <- E; done).
  assert (Er : attrs = drop (S i) all) by (rewrite <- Nat.add_1_r, <- drop_drop, <- E; done).
  destruct fp; [done|]. destruct (Z.eqb_spec (attr_type a) PJ_STUN_ATTR_MESSAGE_INTEGRITY).
  - destruct mi; [done|]. apply IH; [done| |done]. by exists a.
  - destruct (Z.eqb_spec (attr_type a) PJ_STUN_ATTR_FINGERPRINT); apply IH; try done. by exists a.
Qed.

Lemma typed_uint a : typed_attr a -> attr_type a = PJ_STUN_ATTR_FINGERPRINT -> exists h v, a = UintAttr h v.
Proof.
  intros Ht E. unfold typed_attr in Ht. rewrite E in Ht.
  change (match a with UintAttr _ _ => true | _ => false end = true) in Ht.
  destruct a; try discriminate Ht. by do 2 eexists.
Qed.
Lemma typed_msgint a : typed_attr a -> attr_type a = PJ_STUN_ATTR_MESSAGE_INTEGRITY -> exists h m, a = MsgintAttr h m.
Proof.
  intros Ht E. unfold typed_attr in Ht. rewrite E in Ht.
  change (match a with MsgintAttr _ _ => true | _ => false end = true) in Ht.
  destruct a; try discriminate Ht. by do 2 eexists.
Qed.

Lemma encode_end_cast env msg fp buf pos bs : Forall typed_attr (msg_attr msg) ->
  idx_ok (msg_attr msg) PJ_STUN_ATTR_FINGERPRINT fp -> encode_end env msg fp buf pos bs <> EncodeBadCast.
Proof.
  intros Ht Hf. unfold encode_end. destruct fp as [i|]; [|done].
  destruct Hf as (a & Ei & Ea). rewrite Ei.
  destruct (typed_uint a (Forall_lookup_1 _ _ _ _ Ht Ei) Ea) as (h & v & ->).
  destruct (GETVAL16H buf 2) as [l|st|]; [|done..]. unfold encode_uint_attr. case_match eqn:E; [|done|].
  - by destruct (negb _).
  - case_match; [done|]. exfalso. revert E. repeat (apply write_cast; intros ?). done.
Qed.

(** Setting the code changes no type. *)
Lemma set_msgint msg m h old mac : Forall typed_attr (msg_attr msg) -> msg_attr msg !! m = Some (MsgintAttr h old) ->
  let msg' := set_attr msg m (MsgintAttr h mac) in
  Forall typed_attr (msg_attr msg') /\ forall fp, idx_ok (msg_attr msg) PJ_STUN_ATTR_FINGERPRINT fp ->
                                             idx_ok (msg_attr msg') PJ_STUN_ATTR_FINGERPRINT fp.
Proof.
  intros Ht Em msg'. pose proof (Forall_lookup_1 _ _ _ _ Ht Em) as Hm. unfold msg', set_attr. cbn [msg_attr]. split.
  - apply Forall_insert; [exact Ht|]. unfold typed_attr, attr_type in *. cbn [attr_hdr] in *.
    destruct (find_attr_desc (ah_type h)) as [d|]; [|done]. by destruct (desc_kind d).
  - intros [i|]; [|done]. intros (a & Ei & Ea). destruct (decide (i = m)) as [->|Hne].
    + exists (MsgintAttr h mac). rewrite list_lookup_insert_eq by (by apply lookup_lt_Some in Em). split; [done|].
      rewrite Em in Ei. by injection Ei as <-.
    + exists a. by rewrite list_lookup_insert_ne by done.
Qed.

Lemma encode_mac_cast env key msg i mi fp buf pos bs : Forall typed_attr (msg_attr msg) ->
  idx_ok (msg_attr msg) PJ_STUN_ATTR_MESSAGE_INTEGRITY mi -> idx_ok (msg_attr msg) PJ_STUN_ATTR_FINGERPRINT fp ->
  encode_mac env key msg i mi fp buf pos bs <> EncodeBadCast.
Proof.
  intros Ht Hm Hf. unfold encode_mac. destruct mi as [m|]; [|by apply encode_end_cast].
  destruct key as [key|]; [|done]. destruct (_ && _); [done|].
  match goal with |- match ?n with Some _ => _ | None => _ end <> _ => set (next := n) end.
  assert (Hn : forall fp', next = Some fp' -> idx_ok (msg_attr msg) PJ_STUN_ATTR_FINGERPRINT fp').
  { unfold next. intros fp'. destruct (_ =? _); [|by intros [= <-]].
    destruct (msg_attr msg !! S i) as [a|] eqn:Ei; [|done].
    destruct (Z.eqb_spec (attr_type a) PJ_STUN_ATTR_FINGERPRINT); [|done]. intros [= <-]. by exists a. }
  clearbody next. destruct next as [fp'|]; [|done]. specialize (Hn fp' eq_refl).
  destruct Hm as (a & Em & Ea). rewrite Em.
  destruct (typed_msgint a (Forall_lookup_1 _ _ _ _ Ht Em) Ea) as (h & old & ->).
  set (mac := message_mac env key (take pos buf)). clearbody mac.
  destruct (set_msgint msg m h old mac Ht Em) as [Ht' Hf'].
  destruct (encode_msgint_attr h mac buf pos (u32 bs)) eqn:E; [|done|].
  - destruct (negb _); [done|]. apply encode_end_cast; [exact Ht'|by apply Hf'].
  - exfalso. revert E. unfold encode_msgint_attr. case_match; [done|]. repeat (apply write_cast; intros ?). done.
Qed.

Lemma encode_typed env padc msg buf options key : Forall typed_attr (msg_attr msg) ->
  pj_stun_msg_encode env padc msg buf options key <> EncodeBadCast.
Proof.
  intros Ht. unfold pj_stun_msg_encode. destruct (_ =? 0); [done|]. destruct (negb _); [done|]. destruct (_ <? _); [done|].
  set (b := splice _ _ _). set (bs := Z.of_nat (length buf) - 20).
  pose proof (encode_attrs_cast padc (msg_hdr msg) (msg_attr msg) [] b 20 bs Ht) as H. cbn [length app] in H.
  destruct (encode_attrs _ _ _ _ _ _ _) as [i mi fp b' pos bs'| | |]; [|done..]. destruct H as [Hm Hf].
  pose proof (scan_attrs_idx (msg_attr msg) (drop (S i) (msg_attr msg)) (S i) mi fp eq_refl Hm Hf) as H.
  destruct (scan_attrs _ _ _ _) as [[[i' mi'] fp']|]; [|done]. destruct H as [Hm' Hf']. by apply encode_mac_cast.
Qed.

(** C22. Decoding a packet with PJ_STUN_CHECK_PACKET, when four bytes behind it
    can be read: no byte outside is read unless the message holds an ERROR-CODE
    attribute shorter than four bytes; an error leaves no message; and a message
    that is returned is well typed: all its bytes are consumed, it has at most
    16 attributes, each with the struct of its type and fields that agree with
    its length, and encoding it never reads one struct as another. *)
Theorem stun_decode_typed strerror env pdu pdu_len options want :
  bytes_ok pdu -> pdu_len + 4 <= Z.of_nat (length pdu) -> Z.land options PJ_STUN_CHECK_PACKET <> 0 ->
  match pj_stun_msg_decode strerror env pdu pdu_len options want with
  | Some (Ok r) =>
      match dr_msg r with
      | Some msg =>
          dr_status r = PJ_SUCCESS /\ dr_parsed r = 20 + mh_length (msg_hdr msg) /\ dr_parsed r <= pdu_len
          /\ (length (msg_attr msg) <= 16)%nat /\ Forall decoded_attr (msg_attr msg)
          /\ forall env' padc buf opt key, pj_stun_msg_encode env' padc msg buf opt key <> EncodeBadCast
      | None => dr_status r <> PJ_SUCCESS
      end
  | Some Wild => short_errcode (drop 20 pdu) (pdu_len - 20)
  | Some (Err _) | None => False
  end.
Proof.
  intros Hpdu Hlen Hopt. unfold pj_stun_msg_decode. destruct (Z.eqb_spec pdu_len 0); [done|].
  destruct (Z.eqb_spec (Z.land options PJ_STUN_CHECK_PACKET) 0); [done|]. cbn [negb].
  destruct (check_in env pdu pdu_len options Hpdu ltac:(lia)) as (st & -> & Hok).
  destruct (Z.eqb_spec st PJ_SUCCESS) as [->|]; [|done]. destruct (Hok eq_refl) as (H20 & l & El & Hl & Hfit).
  destruct (read_hdr_in pdu Hpdu ltac:(lia)) as (h & -> & Hh & Elh). rewrite El in Elh. injection Elh as ->.
  set (w := want && _). clearbody w. unfold is_u16 in Hl.
  pose proof (decode_loop_in strerror w (S (Z.to_nat (mh_length h))) (mk_msg h []) (drop 20 pdu) (mh_length h) 20 false false
                (Forall_drop _ _ _ Hpdu) ltac:(lia) ltac:(rewrite length_drop; lia) Hh ltac:(constructor) ltac:(simpl; lia)) as H.
  destruct (decode_loop_ends strerror w (S (Z.to_nat (mh_length h))) (mk_msg h []) (drop 20 pdu) (mh_length h) 20 false false
              ltac:(lia)) as [res E].
  rewrite E in H |- *. destruct res as [r|st|]; [|exact H|].
  - unfold result_ok in H. destruct (dr_msg r) as [msg|]; [|by destruct H].
    destruct H as (Hst & Hp & _ & Emh & H16 & Hattrs). rewrite Hp, Emh. cbn [msg_hdr].
    split; [exact Hst|]. split; [done|]. split; [lia|]. split; [exact H16|]. split; [exact Hattrs|].
    intros. apply encode_typed. revert Hattrs. apply List.Forall_impl, decoded_typed.
  - destruct H as (k & ah & Hk & Ha). exists k, ah. split; [lia|exact Ha].
Qed.

(** A binding request with USERNAME "ab", as it arrives. *)
Definition sample_packet : list Z :=
  [0; 1; 0; 8; 0x21; 0x12; 0xA4; 0x42; 1; 2; 3; 4; 5; 6; 7; 8; 9; 10; 11; 12; 0; 6; 0; 2; 97; 98; 0; 0].
Definition plain_env : stun_env := mk_env LittleEndian WithoutTables 0 wild_hmac_sha1 wild_sha1.

Lemma stun_decode_typed_witness :
  match pj_stun_msg_decode (fun _ => []) plain_env (sample_packet ++ [0; 0; 0; 0]) 28 PJ_STUN_CHECK_PACKET true with
  | Some (Ok r) =>
      match dr_msg r with
      | Some msg =>
          dr_status r = PJ_SUCCESS /\ dr_parsed r = 20 + mh_length (msg_hdr msg) /\ dr_parsed r <= 28
          /\ (length (msg_attr msg) <= 16)%nat /\ Forall decoded_attr (msg_attr msg)
          /\ forall env' padc buf opt key, pj_stun_msg_encode env' padc msg buf opt key <> EncodeBadCast
      | None => dr_status r <> PJ_SUCCESS
      end
  | Some Wild => short_errcode (drop 20 (sample_packet ++ [0; 0; 0; 0])) (28 - 20)
  | Some (Err _) | None => False
  end.
Proof.
  apply (stun_decode_typed (fun _ => []) plain_env (sample_packet ++ [0; 0; 0; 0]) 28 PJ_STUN_CHECK_PACKET true).
  - unfold bytes_ok, sample_packet. cbn [app]. repeat (apply list.Forall_cons; split; [unfold is_u8; lia|]). constructor.
  - cbn. lia.
  - done.
Defined.

(** ** What the checks miss *)

Definition sample_head (size : Z) : list Z :=
  [0; 1; 0; size; 0x21; 0x12; 0xA4; 0x42; 1; 2; 3; 4; 5; 6; 7; 8; 9; 10; 11; 12].

(** The length of an attribute is compared with the bytes left before its own
    header is taken off: the last attribute may reach four bytes behind the
    packet. *)
Lemma attr_reaches_behind :
  pj_stun_msg_decode (fun _ => []) plain_env (sample_head 4 ++ [0; 6; 0; 4]) 24 PJ_STUN_CHECK_PACKET false = Some Wild
  /\ match pj_stun_msg_decode (fun _ => []) plain_env (sample_head 4 ++ [0; 6; 0; 4] ++ [83; 69; 67; 82]) 24
             PJ_STUN_CHECK_PACKET false with
     | Some (Ok r) => option_map msg_attr (dr_msg r) = Some [StringAttr (mk_ahdr 6 4) [83; 69; 67; 82]]
     | _ => False
     end.
Proof. by vm_compute. Qed.

(** An ERROR-CODE attribute of length zero asks for a reason of -4 bytes. *)
Lemma errcode_reason_negative :
  pj_stun_msg_decode (fun _ => []) plain_env (sample_head 4 ++ [0; 9; 0; 0] ++ replicate 100 0) 24
    PJ_STUN_CHECK_PACKET false = Some Wild.
Proof. by vm_compute. Qed.

(** An optional attribute without descriptor is accepted behind FINGERPRINT,
    where every other one is an error. *)
Lemma attr_behind_fingerprint :
  match pj_stun_msg_decode (fun _ => []) plain_env
          (sample_head 12 ++ [0x80; 0x28; 0; 4; 1; 2; 3; 4] ++ [0x90; 0; 0; 0] ++ [0; 0; 0; 0]) 32
          (PJ_STUN_CHECK_PACKET + PJ_STUN_NO_FINGERPRINT_CHECK) false with
  | Some (Ok r) => dr_status r = PJ_SUCCESS /\ option_map (fun m => map attr_type (msg_attr m)) (dr_msg r) = Some [0x8028; 0x9000]
  | _ => False
  end
  /\ match pj_stun_msg_decode (fun _ => []) plain_env
             (sample_head 12 ++ [0x80; 0x28; 0; 4; 1; 2; 3; 4] ++ [0; 0x25; 0; 0] ++ [0; 0; 0; 0]) 32
             (PJ_STUN_CHECK_PACKET + PJ_STUN_NO_FINGERPRINT_CHECK) false with
     | Some (Ok r) => dr_status r = PJNATH_ESTUNFINGERPOS
     | _ => False
     end.
Proof. by vm_compute. Qed.

Definition out_hdr : pj_stun_msg_hdr := mk_mhdr 0x0001 0 PJ_STUN_MAGIC [1; 2; 3; 4; 5; 6; 7; 8; 9; 10; 11; 12].

(** An address that finds the buffer full is written two bytes too far before
    its space is checked; the sizes of the error code and of the list of unknown
    attributes are checked without padding, and the space left wraps around. *)
Lemma sockaddr_overruns :
  pj_stun_msg_encode plain_env 0 (mk_msg out_hdr [pj_stun_sockaddr_attr_create 0x0020 true (Ipv4 1 [1; 2; 3; 4])])
    (replicate 20 0) 0 None = EncodeOverrun.
Proof. by vm_compute. Qed.

Lemma errcode_space_wraps :
  let e := ErrcodeAttr (INIT_ATTR PJ_STUN_ATTR_ERROR_CODE 5) 400 [65] in
  pj_stun_msg_encode plain_env 0 (mk_msg out_hdr [e; pj_stun_string_attr_create 0x0006 (replicate 8 66)])
    (replicate 29 0) 0 None = EncodeOverrun.
Proof. by vm_compute. Qed.

(** Attributes added behind MESSAGE-INTEGRITY are left out without an error. *)
Lemma attrs_behind_msgint_dropped :
  match pj_stun_msg_encode plain_env 0
          (mk_msg out_hdr [pj_stun_msgint_attr_create; pj_stun_uint_attr_create 0x0024 7; pj_stun_uint_attr_create 0x000D 1])
          (replicate 100 0) 0 (Some [1]) with
  | Encoded st _ _ len => st = PJ_SUCCESS /\ len = Some 44
  | _ => False
  end.
Proof. by vm_compute. Qed.
