(* ===== verification/StunAuth.v ===== *)
(** * Authentication of STUN messages

    Model of [pjnath/src/pjnath/stun_auth.c]: the key of a credential, the
    verification of requests and responses and the challenge sent back.  The
    callbacks of a dynamic credential are functions of the model; the default
    configuration, without the old style of the authentication code, is the
    one modelled.  An attribute that is not the struct its type says, and a
    read outside the packet, is [AuthWild]. *)

From Stdlib Require Import ZArith Lia Bool String.
From stdpp Require Import base list numbers.
From S2P Require Import Prelude.
From S2P Require Import PjString.
From S2P Require Import Words.
From S2P Require Import Blocks.
From S2P Require Import Crc32.
From S2P Require Import Sha1.
From S2P Require Import Md5.
From S2P Require Import Hmac.
From S2P Require Import StunMsg.
From S2P Require Import StunCodec.
From S2P Require Import StunAttr.
From S2P Require Import StunRoundtrip.
From S2P Require Import StunBounds.
Local Open Scope Z_scope.
Local Open Scope stun_scope.

(** ** Credentials *)

Inductive pj_stun_passwd_type := PJ_STUN_PASSWD_PLAIN | PJ_STUN_PASSWD_HASHED.

Record static_cred := mk_static {
  sc_realm : pj_str; sc_username : pj_str; sc_data_type : pj_stun_passwd_type;
  sc_data : pj_str; sc_nonce : pj_str
}.

(** What the callbacks answer. *)
Record dyn_cred := mk_dyn {
  get_auth : pj_status_t * pj_str * pj_str;
  get_password : pj_stun_msg -> option pj_str -> pj_str -> pj_status_t * pj_stun_passwd_type * pj_str;
  verify_nonce : option (pj_stun_msg -> option pj_str -> pj_str -> pj_str -> bool)
}.

Inductive pj_stun_auth_cred := StaticCred (c : static_cred) | DynamicCred (c : dyn_cred).

Record pj_stun_req_cred_info := mk_cinfo {
  ci_realm : pj_str; ci_username : pj_str; ci_nonce : pj_str; ci_auth_key : pj_str
}.

Definition PJ_STUN_ATTR_USERNAME : Z := 0x0006.
Definition PJ_STUN_ATTR_REALM : Z := 0x0014.
Definition PJ_STUN_ATTR_NONCE : Z := 0x0015.
Definition PJ_STUN_SC_UNAUTHORIZED : Z := 401.
Definition PJ_STUN_SC_STALE_NONCE : Z := 438.

(** ** Keys *)

(** One quote in front and one behind. *)
Definition REMOVE_QUOTE (s : pj_str) : pj_str :=
  let s := match s with c :: r => if c =? 34 then r else s | [] => s end in
  match s !! (length s - 1)%nat with Some c => if c =? 34 then take (length s - 1) s else s | None => s end.

Definition calc_md5_key (e : endianness) (ctx : pj_md5_context) (realm username passwd : pj_str) : list Z :=
  let ctx := pj_md5_init ctx in
  let ctx := pj_md5_update e ctx (REMOVE_QUOTE username) in
  let ctx := pj_md5_update e ctx (cstr ":") in
  let ctx := pj_md5_update e ctx (REMOVE_QUOTE realm) in
  let ctx := pj_md5_update e ctx (cstr ":") in
  let ctx := pj_md5_update e ctx passwd in
  snd (pj_md5_final e ctx).

(** The assertion that a password without a realm is a plain one
    ([pj_assert(data_type == PJ_STUN_PASSWD_PLAIN)]) is not modelled: the last
    case is what a build without assertions computes. *)
Definition pj_stun_create_key (e : endianness) (ctx : pj_md5_context) (realm : option pj_str)
    (username : pj_str) (data_type : pj_stun_passwd_type) (data : pj_str) : pj_str :=
  match realm with
  | Some (c :: r) =>
      match data_type with
      | PJ_STUN_PASSWD_PLAIN => calc_md5_key e ctx (c :: r) username data
      | PJ_STUN_PASSWD_HASHED => data
      end
  | _ => data
  end.

(** ** The challenge *)

Definition pj_stun_msg_add_string_attr (msg : pj_stun_msg) (t : Z) (value : pj_str) : pj_status_t * pj_stun_msg :=
  pj_stun_msg_add_attr msg (pj_stun_string_attr_create t value).

Definition nonempty (s : pj_str) : bool := negb (length s =? 0)%nat.

(** Status and [*p_response]; [None] when the reason is read behind its table. *)
Definition create_challenge (msg : pj_stun_msg) (err_code : Z) (errstr : option string) (realm nonce : pj_str)
    : option (pj_status_t * option pj_stun_msg) :=
  match pj_stun_msg_create_response msg err_code (cstr <$> errstr) with
  | None => None
  | Some (rcode, None) => Some (rcode, None)
  | Some (_, Some response) =>
      let step1 :=
        if negb (err_code =? 400) && nonempty realm then
          let '(rcode, response) := pj_stun_msg_add_string_attr response PJ_STUN_ATTR_REALM realm in
          (rcode, response, if nonempty nonce then nonce else cstr "pjstun")
        else (PJ_SUCCESS, response, nonce) in
      let '(rcode, response, nonce) := step1 in
      if negb (rcode =? PJ_SUCCESS) then Some (rcode, None)
      else if negb (err_code =? 400) && nonempty nonce then
        let '(rcode, response) := pj_stun_msg_add_string_attr response PJ_STUN_ATTR_NONCE nonce in
        if negb (rcode =? PJ_SUCCESS) then Some (rcode, None) else Some (PJ_SUCCESS, Some response)
      else Some (PJ_SUCCESS, Some response)
  end.

(** ** The authentication code of a packet *)

(** The loop that looks for MESSAGE-INTEGRITY: the attribute, the bytes in front
    of it and whether another attribute follows. *)
Fixpoint scan_msgint (attrs : list stun_attr) (pos : Z) (amsgi : option stun_attr)
    : option stun_attr * Z * bool :=
  match attrs with
  | [] => (amsgi, pos, false)
  | a :: attrs =>
      if attr_type a =? PJ_STUN_ATTR_MESSAGE_INTEGRITY then scan_msgint attrs pos (Some a)
      else
        match amsgi with
        | Some _ => (amsgi, pos, true)
        | None => scan_msgint attrs (u32 (pos + (align4 (ah_length (attr_hdr a)) + 4))) None
        end
  end.

(** The header, with the length up to the code when something follows it, and
    the body in front of it. *)
Definition packet_mac (env : stun_env) (key pkt : list Z) (amsgi_pos : Z) (beyond : bool) : res (list Z) :=
  let e := env_endian env in
  let ctx := pj_hmac_sha1_init e (env_hctx env) (env_tctx env) key in
  let! hdr := slice pkt 0 20 in
  let hdr := if beyond then splice hdr 2 (PUTVAL16H (u16 (amsgi_pos + 24))) else hdr in
  let ctx := pj_hmac_sha1_update e ctx hdr in
  let! body := slice pkt 20 (Z.to_nat amsgi_pos) in
  let ctx := pj_hmac_sha1_update e ctx body in
  Ok (snd (pj_hmac_sha1_final e ctx)).

(** The code in the struct of an attribute. *)
Definition hmac_of (a : stun_attr) : res (list Z) :=
  match a with MsgintAttr _ hmac => Ok hmac | _ => Wild end.
Definition string_of (a : stun_attr) : res pj_str :=
  match a with StringAttr _ v => Ok v | _ => Wild end.
Definition opt_string_of (a : option stun_attr) : res (option pj_str) :=
  match a with None => Ok None | Some a => let! v := string_of a in Ok (Some v) end.

(** ** Requests *)

(** A stage of the verification: it passes, jumps to [on_auth_failed] with what
    [*p_info] holds, or returns. *)
Inductive auth (A : Type) :=
  | Pass (a : A)
  | Reject (info : pj_stun_req_cred_info) (err_code : Z) (err_text : option string)
  | Leave (st : pj_status_t)
  | AuthWild.
Arguments Pass {A}. Arguments Reject {A}. Arguments Leave {A}. Arguments AuthWild {A}.

Definition abind {A B} (r : auth A) (k : A -> auth B) : auth B :=
  match r with Pass a => k a | Reject i c t => Reject i c t | Leave st => Leave st | AuthWild => AuthWild end.
Notation "'do!' x ':=' e 'in' k" := (abind e (fun x => k))
  (at level 10, x name, e at level 200, k at level 200) : stun_scope.

Definition alift {A} (r : res A) : auth A :=
  match r with Ok a => Pass a | Err st => Leave st | Wild => AuthWild end.
Definition reject_if {A} (b : bool) (info : pj_stun_req_cred_info) (code : Z) (text : option string) (k : auth A) : auth A :=
  if b then Reject info code text else k.

(** Realm and nonce of the credential. *)
Definition cred_info (cred : pj_stun_auth_cred) : pj_status_t * pj_stun_req_cred_info :=
  match cred with
  | StaticCred c => (PJ_SUCCESS, mk_cinfo (sc_realm c) [] (sc_nonce c) [])
  | DynamicCred c => let '(st, realm, nonce) := get_auth c in (st, mk_cinfo realm [] nonce [])
  end.

Section Request.
Context (env : stun_env) (md5ctx : pj_md5_context) (msg : pj_stun_msg) (cred : pj_stun_auth_cred)
      (info : pj_stun_req_cred_info).
Let e := env_endian env.

(** The user and the key. *)
Definition auth_user (auser : pj_str) (arealm : option stun_attr) : auth pj_stun_req_cred_info :=
match cred with
| StaticCred c =>
    if pj_strcmp auser (sc_username c) =? 0 then
      Pass (mk_cinfo (ci_realm info) (sc_username c) (ci_nonce info)
              (pj_stun_create_key e md5ctx (Some (ci_realm info)) auser (sc_data_type c) (sc_data c)))
    else Reject info PJ_STUN_SC_UNAUTHORIZED None
| DynamicCred c =>
    do! realm := alift (opt_string_of arealm) in
    let '(rcode, data_type, password) := get_password c msg realm auser in
    if rcode =? PJ_SUCCESS then
      Pass (mk_cinfo (ci_realm info) auser (ci_nonce info)
              (pj_stun_create_key e md5ctx realm auser data_type password))
    else Reject info PJ_STUN_SC_UNAUTHORIZED None
end.

(** Long term or short term. *)
Definition auth_term (arealm anonce : option stun_attr) : auth unit :=
match nonempty (ci_realm info), arealm with
| true, None => Reject info PJ_STUN_SC_BAD_REQUEST (Some "Missing REALM"%string)
| true, Some r =>
    match anonce, nonempty (ci_nonce info) with
    | None, true => Reject info PJ_STUN_SC_BAD_REQUEST (Some "Missing NONCE"%string)
    | _, _ =>
        do! realm := alift (string_of r) in
        if pj_stricmp realm (ci_realm info) =? 0 then Pass tt
        else Reject info PJ_STUN_SC_UNAUTHORIZED (Some "Invalid REALM"%string)
    end
| false, Some _ => Pass tt
| false, None =>
    if nonempty (ci_nonce info) then Reject info PJ_STUN_SC_UNAUTHORIZED (Some "NONCE required"%string) else Pass tt
end.

Definition auth_nonce (auser : pj_str) (arealm anonce : option stun_attr) : auth unit :=
match anonce with
| None => Pass tt
| Some a =>
    do! nonce := alift (string_of a) in
    do! ok :=
      match cred with
      | DynamicCred c =>
          match verify_nonce c with
          | Some verify => do! realm := alift (opt_string_of arealm) in Pass (verify msg realm auser nonce)
          | None => Pass true
          end
      | StaticCred _ => Pass (if nonempty (ci_nonce info) then pj_strcmp nonce (ci_nonce info) =? 0 else true)
      end in
    if (ok : bool) then Pass tt else Reject info PJ_STUN_SC_STALE_NONCE None
end.
End Request.

(** The function between the setup and [on_auth_failed]. *)
Definition auth_stages (env : stun_env) (md5ctx : pj_md5_context) (pkt : list Z) (msg : pj_stun_msg)
    (cred : pj_stun_auth_cred) (info : pj_stun_req_cred_info) : auth pj_stun_req_cred_info :=
  let '(amsgi, amsgi_pos, beyond) := scan_msgint (msg_attr msg) 0 None in
  match amsgi with
  | None => Reject info (if nonempty (ci_realm info) then PJ_STUN_SC_UNAUTHORIZED else PJ_STUN_SC_BAD_REQUEST) None
  | Some mi =>
      match pj_stun_msg_find_attr msg PJ_STUN_ATTR_USERNAME 0 with
      | None => Reject info PJ_STUN_SC_BAD_REQUEST (Some "Missing USERNAME"%string)
      | Some auser =>
          let arealm := pj_stun_msg_find_attr msg PJ_STUN_ATTR_REALM 0 in
          reject_if (nonempty (ci_realm info) && negb (is_some arealm)) info PJ_STUN_SC_BAD_REQUEST
            (Some "Missing REALM"%string)
            (do! user := alift (string_of auser) in
             do! info := auth_user env md5ctx msg cred info user arealm in
             let anonce := pj_stun_msg_find_attr msg PJ_STUN_ATTR_NONCE 0 in
             do! _term := auth_term info arealm anonce in
             do! _nonce := auth_nonce msg cred info user arealm anonce in
             do! digest := alift (packet_mac env (ci_auth_key info) pkt amsgi_pos beyond) in
             do! hmac := alift (hmac_of mi) in
             if memcmp hmac digest =? 0 then Pass info
             else Reject info PJ_STUN_SC_UNAUTHORIZED (Some "MESSAGE-INTEGRITY mismatch"%string))
      end
  end.

(** What the call leaves: status, [*p_info] unless it is not touched, and the
    response. *)
Record auth_result := mk_ar {
  ar_status : pj_status_t; ar_info : option pj_stun_req_cred_info; ar_response : option pj_stun_msg
}.

Definition pj_stun_authenticate_request (env : stun_env) (md5ctx : pj_md5_context) (pkt : list Z)
    (pkt_len : Z) (msg : pj_stun_msg) (cred : pj_stun_auth_cred) (want : bool) : res auth_result :=
  if pkt_len =? 0 then Ok (mk_ar PJ_EINVAL None None)
  else
    let want := want && PJ_STUN_IS_REQUEST (mh_type (msg_hdr msg)) in
    let '(status, info) := cred_info cred in
    if negb (status =? PJ_SUCCESS) then Ok (mk_ar status (Some info) None)
    else
      match auth_stages env md5ctx pkt msg cred info with
      | Pass info => Ok (mk_ar PJ_SUCCESS (Some info) None)
      | Leave st => Ok (mk_ar st (Some info) None)
      | AuthWild => Wild
      | Reject info code text =>
          let status := PJ_STATUS_FROM_STUN_CODE code in
          if want then
            match create_challenge msg code text (ci_realm info) (ci_nonce info) with
            | None => Wild
            | Some (_, response) => Ok (mk_ar status (Some info) response)
            end
          else Ok (mk_ar status (Some info) None)
      end.

(** ** Responses *)

Definition pj_stun_auth_valid_for_msg (msg : pj_stun_msg) : res bool :=
  let t := mh_type (msg_hdr msg) in
  if negb (PJ_STUN_IS_ERROR_RESPONSE t) && negb (PJ_STUN_IS_INDICATION t) then Ok true
  else if PJ_STUN_IS_INDICATION t then Ok false
  else
    match pj_stun_msg_find_attr msg PJ_STUN_ATTR_ERROR_CODE 0 with
    | None => Ok true
    | Some (ErrcodeAttr _ c _) =>
        Ok (negb ((c =? PJ_STUN_SC_BAD_REQUEST) || (c =? PJ_STUN_SC_UNAUTHORIZED)
                  || (c =? PJ_STUN_SC_STALE_NONCE) || (c =? PJ_STUN_SC_UNKNOWN_ATTRIBUTE)))
    | Some _ => Wild
    end.

Definition pj_stun_authenticate_response (env : stun_env) (pkt : list Z) (pkt_len : Z) (msg : pj_stun_msg)
    (key : pj_str) : res pj_status_t :=
  if pkt_len =? 0 then Ok PJ_EINVAL
  else
    match pj_stun_msg_find_attr msg PJ_STUN_ATTR_MESSAGE_INTEGRITY 0 with
    | None => Ok (PJ_STATUS_FROM_STUN_CODE PJ_STUN_SC_UNAUTHORIZED)
    | Some _ =>
        if mh_length (msg_hdr msg) <? 24 then Ok PJNATH_EINSTUNMSGLEN
        else
          match scan_msgint (msg_attr msg) 0 None with
          | (None, _, _) => Ok (PJ_STATUS_FROM_STUN_CODE PJ_STUN_SC_BAD_REQUEST)
          | (Some mi, amsgi_pos, beyond) =>
              let! digest := packet_mac env key pkt amsgi_pos beyond in
              let! hmac := hmac_of mi in
              Ok (if memcmp hmac digest =? 0 then PJ_SUCCESS
                  else PJ_STATUS_FROM_STUN_CODE PJ_STUN_SC_UNAUTHORIZED)
          end
    end.

(** ** What the functions compute *)

(** The key of a credential, from the reference digests. *)
Definition key_spec (realm username : pj_str) (t : pj_stun_passwd_type) (data : pj_str) : pj_str :=
  match realm, t with
  | _ :: _, PJ_STUN_PASSWD_PLAIN =>
      md5_rfc (REMOVE_QUOTE username ++ cstr ":" ++ REMOVE_QUOTE realm ++ cstr ":" ++ data)
  | _, _ => data
  end.

Lemma hmac_endian e key text : @hmac_spec _ (sha1_digest e) key text = hmac_sha1 key text.
Proof. reflexivity. Qed.

Lemma remove_quote_length s : (length (REMOVE_QUOTE s) <= length s)%nat.
Proof.
  unfold REMOVE_QUOTE. set (s' := match s with [] => s | c :: r => if c =? 34 then r else s end).
  assert ((length s' <= length s)%nat) by (unfold s'; destruct s as [|c r]; [done|]; destruct (c =? 34); simpl; lia).
  destruct (s' !! (length s' - 1)%nat) as [c|]; [|done]. destruct (c =? 34); [|done]. rewrite length_take. lia.
Qed.

Lemma remove_quote_bytes s : bytes_ok s -> bytes_ok (REMOVE_QUOTE s).
Proof.
  intros H. unfold REMOVE_QUOTE. set (s' := match s with [] => s | c :: r => if c =? 34 then r else s end).
  assert (Hs : bytes_ok s').
  { unfold s'. destruct s as [|c r]; [done|]. apply list.Forall_cons in H as [Hc Hr]. destruct (c =? 34); [done|]. by constructor. }
  destruct (s' !! (length s' - 1)%nat) as [c|]; [|done]. destruct (c =? 34); [|done]. by apply Forall_take.
Qed.

Lemma remove_quote_piece n s : piece_ok n s -> piece_ok n (REMOVE_QUOTE s).
Proof. intros [Hb Hl]. split; [by apply remove_quote_bytes|]. pose proof (remove_quote_length s). lia. Qed.

Lemma fold_left_5 {A B} (f : A -> B -> A) x a b c d e : f (f (f (f (f x a) b) c) d) e = fold_left f [a; b; c; d; e] x.
Proof. reflexivity. Qed.

(** The MD5 of user, realm and password, each taken in as one piece. *)
Lemma create_key_spec e ctx realm username t data : length (md_in ctx) = 64%nat ->
  piece_ok (2 ^ 32) realm -> piece_ok (2 ^ 32) username -> piece_ok (2 ^ 32) data ->
  pj_stun_create_key e ctx (Some realm) username t data = key_spec realm username t data.
Proof.
  intros Hc Hr Hu Hd. unfold pj_stun_create_key, key_spec. destruct realm as [|c r]; [done|]. destruct t; [|done].
  assert (Hcolon : piece_ok (2 ^ 32) (cstr ":")) by (split; [repeat constructor; lia|done]).
  unfold calc_md5_key. rewrite (fold_left_5 (pj_md5_update e)). apply md5_final_spec. set (pieces := [REMOVE_QUOTE username; cstr ":"; REMOVE_QUOTE (c :: r); cstr ":"; data]).
  replace (REMOVE_QUOTE username ++ cstr ":" ++ REMOVE_QUOTE (c :: r) ++ cstr ":" ++ data) with ([] ++ concat pieces)
    by (unfold pieces; cbn [concat]; by rewrite !app_nil_r).
  apply (md5_fold_holds e pieces _ []); [by apply md5_init_holds|]. unfold pieces.
  repeat (apply list.Forall_cons; split); try apply list.Forall_nil_2;
    first [exact Hcolon|exact Hd|by apply remove_quote_piece].
Qed.

Lemma packet_mac_spec env key pkt pos beyond : env_ok env -> piece_ok (2 ^ 29) key -> bytes_ok pkt ->
  20 + pos <= Z.of_nat (length pkt) < 2 ^ 29 -> 0 <= pos ->
  packet_mac env key pkt pos beyond
  = Ok (hmac_sha1 key ((if beyond then splice (take 20 pkt) 2 (PUTVAL16H (u16 (pos + 24))) else take 20 pkt)
                       ++ take (Z.to_nat pos) (drop 20 pkt))).
Proof.
  intros [H1 H2] Hk Hp Hl H0. unfold packet_mac, slice.
  destruct (Nat.leb_spec (0 + 20) (length pkt)); [|lia]. cbn [rbind]. rewrite drop_0.
  destruct (Nat.leb_spec (20 + Z.to_nat pos) (length pkt)); [|lia]. cbn [rbind].
  set (hd := if beyond then _ else _). set (body := take (Z.to_nat pos) (drop 20 pkt)).
  assert (Hu : is_u16 (u16 (pos + 24))) by (unfold is_u16, u16; apply Z.mod_pos_bound; lia).
  assert (Hhd : piece_ok (2 ^ 29) hd).
  { assert (Ht : bytes_ok (take 20 pkt)) by (by apply Forall_take).
    split; unfold hd; destruct beyond.
    - apply splice_bytes; [exact Ht|by apply put16_ok].
    - exact Ht.
    - rewrite splice_length; rewrite length_take; [lia|]. cbn [PUTVAL16H length]. lia.
    - rewrite length_take. lia. }
  assert (Hbody : piece_ok (2 ^ 29) body).
  { split; [by apply Forall_take, Forall_drop|]. unfold body. rewrite length_take, length_drop. lia. }
  pose proof (@hmac_stream _ (sha1_digest (env_endian env)) (env_hctx env) (env_tctx env) key [hd; body] H1 H2 Hk
                ltac:(constructor; [exact Hhd|constructor; [exact Hbody|constructor]])) as E.
  cbn [fold_left concat] in E. rewrite app_nil_r in E. exact (f_equal Ok E).
Qed.

(** The code is compared as a whole. *)
Lemma hmac_sha1_ok key text : bytes_ok (hmac_sha1 key text) /\ length (hmac_sha1 key text) = 20%nat.
Proof. apply sha1_fips_ok. Qed.

Lemma memcmp_mac m key text : length m = 20%nat ->
  (memcmp m (hmac_sha1 key text) =? 0) = bool_decide (m = hmac_sha1 key text).
Proof.
  intros Hm. destruct (hmac_sha1_ok key text) as [_ Hl].
  pose proof (memcmp_0 m (hmac_sha1 key text) ltac:(congruence)) as Hc.
  destruct (Z.eqb_spec (memcmp m (hmac_sha1 key text)) 0) as [E|E], (bool_decide_reflect (m = hmac_sha1 key text)); tauto.
Qed.

(** ** Packets of the encoder *)

Lemma scan_normal padc h : forall normal pos tail, mhdr_ok h -> Forall normal_attr normal ->
  0 <= pos -> pos + space_of padc h normal < 2 ^ 32 ->
  scan_msgint (map (wire_attr padc h) normal ++ tail) pos None = scan_msgint tail (pos + space_of padc h normal) None.
Proof.
  intros normal. induction normal as [|a normal IH]; intros pos tail Hh Hn Hp Hs; [by rewrite Z.add_0_r|].
  apply list.Forall_cons in Hn as [(Ha & Hne & _) Hn]. pose proof (space_of_nonneg padc h normal Hh Hn).
  destruct (wire_hdr padc h a [] Hh Ha) as (_ & Hsp & Ht). pose proof (attr_space_bounds padc h a Hh Ha).
  assert (Es : space_of padc h (a :: normal) = attr_space padc h a + space_of padc h normal) by reflexivity.
  cbn [map app scan_msgint]. unfold attr_type at 1. rewrite Ht.
  destruct (Z.eqb_spec (attr_type a) PJ_STUN_ATTR_MESSAGE_INTEGRITY); [done|].
  rewrite Hsp, u32_small by (unfold is_u32; lia). rewrite IH by (first [done|lia]). f_equal. lia.
Qed.

Lemma scan_tail_mi padc h mac pos (fp : option Z) :
  scan_msgint (map (wire_attr padc h) ([mi_attr mac] ++ opt_list (fp_attr <$> fp))) pos None
  = (Some (mi_attr mac), pos, is_some fp).
Proof. by destruct fp. Qed.

Lemma splice_head h l l' : mhdr_ok h -> splice (head h l) 2 (PUTVAL16H l') = head h l'.
Proof.
  intros Hh. pose proof (set_length h l l' [] (replicate 20 0) ltac:(rewrite length_replicate; simpl; lia) Hh) as E.
  rewrite !app_nil_r in E. rewrite !splice_zero in E by (rewrite length_replicate, head_length; done).
  rewrite !head_length in E by exact Hh. rewrite drop_ge, !app_nil_r in E by (rewrite length_replicate; lia). exact E.
Qed.

Section Signed.
Context (env : stun_env) (padc : Z) (h : pj_stun_msg_hdr) (normal : list stun_attr) (old : list Z)
      (fp : option Z) (key buf rest : list Z).
Let space := space_of padc h normal.
Let size := body_size padc h normal true (is_some fp).
Hypothesis Henv : env_ok env.
Hypothesis Hh : mhdr_ok h.
Hypothesis Hn : Forall normal_attr normal.
Hypothesis Hb : bytes_ok buf.
Hypothesis Hk : piece_ok (2 ^ 29) key.
Hypothesis Hc : (length (msg_attr (stun_msg h normal (Some old) fp)) <= 16)%nat.
Hypothesis Hbuf : 20 + size <= Z.of_nat (length buf) < 2 ^ 29.
Hypothesis Hsz : size <= 65535.
Hypothesis Hrest : bytes_ok rest.
Hypothesis Hmem : 20 + size + Z.of_nat (length rest) < 2 ^ 29.

(** The attributes the receiver decodes: those of the sender, then the code of
  header and body, then the fingerprint. *)
Definition received (mac : list Z) (v : Z) : pj_stun_msg :=
mk_msg (with_len h size)
  (map (wire_attr padc h) normal ++ map (wire_attr padc h) ([mi_attr mac] ++ opt_list (fp_attr <$> filled fp v))).

Lemma signed_mac b tl env' k' : Z.of_nat (length b) = space -> bytes_ok b -> bytes_ok tl ->
(is_some fp = false -> size = space + 24) -> env_ok env' -> piece_ok (2 ^ 29) k' ->
let pkt := (head h size ++ b ++ tl) ++ rest in
Z.of_nat (length pkt) < 2 ^ 29 ->
packet_mac env' k' pkt space (is_some fp) = Ok (hmac_sha1 k' (head h (space + 24) ++ b)).
Proof.
intros Hl Hbb Htl Hnofp Henv' Hk' pkt Hp. pose proof (head_length h size Hh) as Hhl.
assert (Hs0 : 0 <= size).
{ pose proof (space_of_nonneg padc h normal Hh Hn). unfold size, body_size. destruct (is_some fp); lia. }
assert (Epkt : pkt = head h size ++ b ++ tl ++ rest) by (unfold pkt; by rewrite <- !app_assoc).
assert (Hpb : bytes_ok pkt).
{ rewrite Epkt. apply Forall_app; split; [apply head_bytes; [exact Hh|unfold is_u16; lia]|].
  apply Forall_app; split; [exact Hbb|]. by apply Forall_app. }
rewrite packet_mac_spec; [|exact Henv'|exact Hk'|exact Hpb| |lia].
2:{ split; [|exact Hp]. rewrite Epkt, !length_app, Hhl. lia. }
rewrite Epkt, <- Hhl, take_app_length, drop_app_length.
replace (Z.to_nat space) with (length b) by lia. rewrite take_app_length. do 3 f_equal.
destruct (is_some fp) eqn:Ef; [|by rewrite Hnofp].
rewrite splice_head by exact Hh. f_equal. rewrite u16_small; [done|].
revert Hsz. unfold size, body_size, is_u16. fold space. destruct (is_some fp); lia.
Qed.

Lemma signed_message : exists sent buf' v,
let protected := head h (space + 24) ++ take (Z.to_nat space) (drop 20 buf') in
let pkt := take (Z.to_nat (20 + size)) buf' ++ rest in
pj_stun_msg_encode env padc (stun_msg h normal (Some old) fp) buf 0 (Some key)
= Encoded PJ_SUCCESS sent buf' (Some (20 + size))
/\ (forall strerror want, pj_stun_msg_decode strerror env pkt (20 + size) 0 want
    = Some (Ok (mk_dr PJ_SUCCESS (Some (received (hmac_sha1 key protected) v)) (20 + size) None)))
/\ forall env' k', env_ok env' -> piece_ok (2 ^ 29) k' ->
     packet_mac env' k' pkt space (is_some fp) = Ok (hmac_sha1 k' protected).
Proof.
pose proof (space_of_nonneg padc h normal Hh Hn) as H0.
destruct (encode_layout env padc h normal buf key Henv Hh Hn Hb ltac:(lia) Hk (Some old) fp (proj1 Hbuf) Hsz Hc)
  as (chunks & Hch & Hcl & Hcb & E & Hlen & Hmac & Hfp). cbn [is_some] in *. fold size in E, Hlen.
fold space in H0, Hcl. set (b := concat chunks) in *. set (bytes := message_bytes _ _ _ _ _ _ _) in *.
specialize (Hmac ltac:(done)).
assert (Hszb : space + 24 <= 65535) by (unfold size, body_size in Hsz; fold space in Hsz; destruct (is_some fp); lia).
assert (Emac : mac_part env padc h true key b = hmac_sha1 key (head h (space + 24) ++ b)).
{ unfold mac_part. rewrite Hcl. apply message_mac_ok; [exact Henv|exact Hk|]. split.
  - apply Forall_app; split; [|exact Hcb]. apply head_bytes; [exact Hh|unfold is_u16; lia].
  - rewrite length_app, head_length by exact Hh. lia. }
exists (sent_msg env padc h normal (Some old) fp key b), (splice buf 0 bytes),
  (fp_part env h (b ++ mac_bytes env padc h true key b)).
set (tl := mac_bytes env padc h true key b ++ (if is_some fp
           then attr_bytes padc h (fp_attr (fp_part env h (b ++ mac_bytes env padc h true key b))) else [])).
assert (Es : bytes = head h size ++ b ++ tl)
  by (apply (message_bytes_split env padc h normal chunks key (Some old) fp); first [assumption|by intros _]).
assert (Ebody : take (Z.to_nat space) (drop 20 (splice buf 0 bytes)) = b).
{ rewrite splice_zero by lia. rewrite Es, <- !app_assoc, <- (head_length h size Hh), drop_app_length.
  replace (Z.to_nat space) with (length b) by lia. apply take_app_length. }
cbv zeta. rewrite Ebody, (take_written buf bytes) by lia. split; [exact E|]. split.
- intros strerror want. unfold bytes.
  rewrite (decode_message strerror env padc h normal chunks key (Some old) fp); try assumption; [|done].
  do 4 f_equal. unfold received. f_equal. rewrite <- Emac. unfold sent_msg, stun_msg. cbn [msg_attr is_some].
  rewrite !map_app. by destruct fp.
- intros env' k' Henv' Hk'.
  rewrite Es in Hlen |- *.
  assert (Htl : bytes_ok tl).
  { apply Forall_app; split; [apply Forall_app; split; [apply ahdr_bytes_ok; by unfold is_u16|apply Hmac]|].
    destruct fp as [w|]; cbn [is_some] in *; [|constructor].
    apply Forall_app; split; [apply ahdr_bytes_ok; by unfold is_u16|]. specialize (Hfp ltac:(done)).
    rewrite put32_bytes by exact Hfp. by apply store32_bytes. }
  apply signed_mac; try assumption.
  + intros Ef. unfold size, body_size. fold space. rewrite Ef. lia.
  + rewrite length_app. lia.
Qed.
End Signed.

Lemma find_attr_app l1 l2 t : Forall (fun a => attr_type a <> t) l1 -> find_attr_loop (l1 ++ l2) t = find_attr_loop l2 t.
Proof. induction 1 as [|a l1 H _ IH]; [done|]. cbn [app find_attr_loop]. by destruct (Z.eqb_spec (attr_type a) t). Qed.

Lemma wire_type padc h a : mhdr_ok h -> attr_ok a -> attr_type (wire_attr padc h a) = attr_type a.
Proof. intros Hh Ha. by destruct (wire_hdr padc h a [] Hh Ha) as (_ & _ & E). Qed.

(** A message signed with a key, sent, received and decoded, on any machine
    and whatever lies behind it in memory, authenticates with the same key; with
    another key it is rejected as unauthorized, unless the two keys give the
    protected header and body the same HMAC-SHA1. *)
Theorem stun_response_authenticates env env' padc h normal old fp key key' buf rest :
  let space := space_of padc h normal in
  let n := 20 + body_size padc h normal true (is_some fp) in
  env_ok env -> env_ok env' -> mhdr_ok h -> Forall normal_attr normal -> bytes_ok buf -> bytes_ok rest ->
  piece_ok (2 ^ 29) key -> piece_ok (2 ^ 29) key' ->
  (length (msg_attr (stun_msg h normal (Some old) fp)) <= 16)%nat ->
  n <= Z.of_nat (length buf) < 2 ^ 29 -> n <= 65555 -> n + Z.of_nat (length rest) < 2 ^ 29 ->
  exists sent buf' msg,
    let pkt := take (Z.to_nat n) buf' ++ rest in
    let protected := head h (space + 24) ++ take (Z.to_nat space) (drop 20 buf') in
    pj_stun_msg_encode env padc (stun_msg h normal (Some old) fp) buf 0 (Some key)
    = Encoded PJ_SUCCESS sent buf' (Some n)
    /\ (forall strerror want, pj_stun_msg_decode strerror env pkt n 0 want
         = Some (Ok (mk_dr PJ_SUCCESS (Some msg) n None)))
    /\ pj_stun_authenticate_response env' pkt n msg key'
       = Ok (if bool_decide (hmac_sha1 key protected = hmac_sha1 key' protected) then PJ_SUCCESS
             else PJ_STATUS_FROM_STUN_CODE PJ_STUN_SC_UNAUTHORIZED).
Proof.
  intros space n Henv Henv' Hh Hn Hb Hr Hk Hk' Hc Hbuf Hsz Hmem. unfold n, space in *.
  destruct (signed_message env padc h normal old fp key buf rest Henv Hh Hn Hb Hk Hc Hbuf ltac:(lia) Hr Hmem)
    as (sent & buf' & v & E & Ed & Hm).
  set (protected := head h _ ++ _) in *. exists sent, buf', (received padc h normal fp (hmac_sha1 key protected) v).
  cbv zeta. split; [exact E|]. split; [exact Ed|]. pose proof (space_of_nonneg padc h normal Hh Hn) as H0.
  assert (Hbs : space_of padc h normal + 24 <= body_size padc h normal true (is_some fp))
    by (unfold body_size; destruct (is_some fp); lia).
  unfold pj_stun_authenticate_response, pj_stun_msg_find_attr, received. cbn [msg_attr msg_hdr].
  destruct (Z.eqb_spec (20 + body_size padc h normal true (is_some fp)) 0); [lia|]. rewrite drop_0, find_attr_app.
  2:{ apply Forall_map. eapply list.Forall_impl; [exact Hn|]. intros a (Ha & Hne & _). cbn. by rewrite wire_type. }
  cbn [map app find_attr_loop]. change (attr_type (wire_attr padc h (mi_attr _)) =? _) with true. cbn iota.
  cbn [with_len mh_length]. destruct (Z.ltb_spec (body_size padc h normal true (is_some fp)) 24); [lia|].
  change (wire_attr padc h ?a :: map (wire_attr padc h) ?l) with (map (wire_attr padc h) ([a] ++ l)).
  rewrite scan_normal, scan_tail_mi, Z.add_0_l by (first [exact Hh|exact Hn|lia]).
  replace (is_some (filled fp v)) with (is_some fp) by (by destruct fp).
  rewrite Hm by assumption. cbn [rbind hmac_of mi_attr].
  rewrite memcmp_mac by apply hmac_sha1_ok. reflexivity.
Qed.

(** ** Requests and static credentials *)

Lemma abind_pass {A B} (r : auth A) (k : A -> auth B) b : abind r k = Pass b -> exists a, r = Pass a /\ k a = Pass b.
Proof. destruct r; cbn [abind]; try discriminate. eauto. Qed.

Lemma alift_pass {A} (r : res A) a : alift r = Pass a -> r = Ok a.
Proof. destruct r; cbn [alift]; congruence. Qed.

Lemma string_of_ok a v : string_of a = Ok v -> exists h, a = StringAttr h v.
Proof. destruct a; cbn [string_of]; try discriminate. intros [= ->]. by eexists. Qed.

Lemma nonempty_true s : nonempty s = true <-> s <> [].
Proof. by destruct s. Qed.

(** The bytes the code covers. *)
Definition covered (pkt : list Z) (pos : Z) (beyond : bool) : list Z :=
  (if beyond then splice (take 20 pkt) 2 (PUTVAL16H (u16 (pos + 24))) else take 20 pkt)
  ++ take (Z.to_nat pos) (drop 20 pkt).

Lemma scan_msgint_facts attrs : forall pos amsgi mi p beyond, Forall decoded_attr attrs -> 0 <= pos ->
  (forall a, amsgi = Some a -> exists h m, a = MsgintAttr h m /\ length m = 20%nat) ->
  scan_msgint attrs pos amsgi = (Some mi, p, beyond) ->
  0 <= p /\ exists h m, mi = MsgintAttr h m /\ length m = 20%nat.
Proof.
  induction attrs as [|a attrs IH]; intros pos amsgi mi p beyond Hd Hp Ha E; cbn [scan_msgint] in E.
  { injection E as -> -> _. split; [done|]. by apply Ha. }
  apply list.Forall_cons in Hd as [Hda Hd].
  destruct (Z.eqb_spec (attr_type a) PJ_STUN_ATTR_MESSAGE_INTEGRITY) as [Et|].
  - apply (IH _ _ _ _ _ Hd Hp) in E; [exact E|]. intros b [= <-].
    destruct (typed_msgint a (decoded_typed a Hda) Et) as (h & m & ->). exists h, m. split; [done|].
    by destruct Hda as (_ & (_ & Hl & _) & _).
  - destruct amsgi as [a0|].
    + injection E as -> -> _. split; [done|]. by apply Ha.
    + apply (IH _ _ _ _ _ Hd) in E; [exact E| |done]. unfold u32. apply Z.mod_pos_bound. lia.
Qed.

Lemma packet_mac_inv env key pkt pos beyond d : env_ok env -> piece_ok (2 ^ 29) key -> bytes_ok pkt ->
  Z.of_nat (length pkt) < 2 ^ 29 -> 0 <= pos ->
  packet_mac env key pkt pos beyond = Ok d -> d = hmac_sha1 key (covered pkt pos beyond).
Proof.
  intros He Hk Hp Hl H0 E.
  assert (Hfit : 20 + pos <= Z.of_nat (length pkt)).
  { unfold packet_mac, slice in E. destruct (Nat.leb_spec (0 + 20) (length pkt)); [|discriminate].
    cbn [rbind] in E. destruct (Nat.leb_spec (20 + Z.to_nat pos) (length pkt)); [lia|discriminate]. }
  rewrite packet_mac_spec in E by (first [assumption|lia]). by injection E as <-.
Qed.

Lemma md5_rfc_piece m : piece_ok (2 ^ 29) (md5_rfc m).
Proof. destruct (md5_rfc_ok m) as [Hb Hl]. split; [exact Hb|]. rewrite Hl. lia. Qed.

Definition cred_ok (c : static_cred) : Prop :=
  piece_ok (2 ^ 29) (sc_realm c) /\ piece_ok (2 ^ 29) (sc_username c) /\ piece_ok (2 ^ 29) (sc_data c).

Definition cred_key (c : static_cred) : pj_str :=
  key_spec (sc_realm c) (sc_username c) (sc_data_type c) (sc_data c).

Lemma piece_mono s : piece_ok (2 ^ 29) s -> piece_ok (2 ^ 32) s.
Proof. intros [Hb Hl]. split; [exact Hb|lia]. Qed.

Lemma cred_key_ok e ctx c : cred_ok c -> length (md_in ctx) = 64%nat ->
  pj_stun_create_key e ctx (Some (sc_realm c)) (sc_username c) (sc_data_type c) (sc_data c) = cred_key c
  /\ piece_ok (2 ^ 29) (cred_key c).
Proof.
  intros (Hr & Hu & Hd) Hc. split; [by apply create_key_spec; try apply piece_mono|].
  unfold cred_key, key_spec. destruct (sc_realm c); [exact Hd|]. destruct (sc_data_type c); [apply md5_rfc_piece|exact Hd].
Qed.

(** What the accepted request carries. *)
Definition request_authentic (pkt : list Z) (msg : pj_stun_msg) (c : static_cred) : Prop :=
  (exists h, pj_stun_msg_find_attr msg PJ_STUN_ATTR_USERNAME 0 = Some (StringAttr h (sc_username c)))
  /\ (exists h m pos beyond, scan_msgint (msg_attr msg) 0 None = (Some (MsgintAttr h m), pos, beyond)
        /\ m = hmac_sha1 (cred_key c) (covered pkt pos beyond))
  /\ (sc_realm c <> [] ->
        (exists h r, pj_stun_msg_find_attr msg PJ_STUN_ATTR_REALM 0 = Some (StringAttr h r) /\ pj_stricmp r (sc_realm c) = 0)
        /\ (sc_nonce c <> [] -> exists h, pj_stun_msg_find_attr msg PJ_STUN_ATTR_NONCE 0 = Some (StringAttr h (sc_nonce c)))).

(** Every rejection has one of three codes. *)
Definition rejects_ok {A} (r : auth A) : Prop :=
  match r with
  | Reject _ code _ => code = PJ_STUN_SC_BAD_REQUEST \/ code = PJ_STUN_SC_UNAUTHORIZED \/ code = PJ_STUN_SC_STALE_NONCE
  | Leave _ => False
  | _ => True
  end.

Lemma rejects_bind {A B} (r : auth A) (k : A -> auth B) : rejects_ok r -> (forall a, rejects_ok (k a)) -> rejects_ok (abind r k).
Proof. by destruct r; cbn. Qed.

Lemma rejects_string a : rejects_ok (alift (string_of a)).
Proof. by destruct a. Qed.
Lemma rejects_opt_string a : rejects_ok (alift (opt_string_of a)).
Proof. by destruct a as [[]|]. Qed.
Lemma rejects_mac env key pkt pos beyond : rejects_ok (alift (packet_mac env key pkt pos beyond)).
Proof. unfold packet_mac, slice. by destruct (_ <=? _)%nat; cbn [rbind]; [destruct (_ <=? _)%nat|]. Qed.

Create HintDb stun_auth.
#[export] Hint Resolve rejects_string rejects_opt_string rejects_mac : stun_auth.

Ltac solve_rejects :=
  repeat first [apply rejects_bind; [|intros ?] | case_match | progress cbn [reject_if rejects_ok alift hmac_of] | solve [auto with stun_auth] ].

Lemma auth_stages_rejects env md5ctx pkt msg c info : rejects_ok (auth_stages env md5ctx pkt msg (StaticCred c) info).
Proof.
  unfold auth_stages. destruct (scan_msgint _ _ _) as [[[mi|] pos] beyond]; [|case_match; cbn; auto].
  destruct (pj_stun_msg_find_attr msg PJ_STUN_ATTR_USERNAME 0); [|cbn; auto].
  unfold reject_if. destruct (_ && _); [cbn; auto|].
  apply rejects_bind; [auto with stun_auth|intros user].
  apply rejects_bind; [unfold auth_user; case_match; cbn; auto|intros i'].
  apply rejects_bind; [unfold auth_term; solve_rejects|intros _].
  apply rejects_bind; [unfold auth_nonce; solve_rejects|intros _].
  apply rejects_bind; [auto with stun_auth|intros d].
  apply rejects_bind; [by destruct mi|intros m]. case_match; cbn; auto.
Qed.

Section Accepted.
Context (env : stun_env) (md5ctx : pj_md5_context) (pkt : list Z) (msg : pj_stun_msg) (c : static_cred).
Let info0 := mk_cinfo (sc_realm c) [] (sc_nonce c) [].
Let info1 := mk_cinfo (sc_realm c) (sc_username c) (sc_nonce c) (cred_key c).
Hypothesis Henv : env_ok env.
Hypothesis Hmd : length (md_in md5ctx) = 64%nat.
Hypothesis Hcred : cred_ok c.

Lemma auth_user_pass user arealm i : auth_user env md5ctx msg (StaticCred c) info0 user arealm = Pass i ->
  user = sc_username c /\ i = info1.
Proof.
  unfold auth_user. destruct (Z.eqb_spec (pj_strcmp user (sc_username c)) 0) as [Eu|]; [|discriminate].
  apply pj_strcmp_0 in Eu as ->. intros [= <-]. split; [done|]. unfold info1. cbn [info0 ci_realm ci_nonce].
  f_equal. by apply cred_key_ok.
Qed.

Lemma auth_term_pass arealm anonce : sc_realm c <> [] -> auth_term info1 arealm anonce = Pass tt ->
  (exists h r, arealm = Some (StringAttr h r) /\ pj_stricmp r (sc_realm c) = 0)
  /\ (sc_nonce c <> [] -> anonce <> None).
Proof.
  intros Hr E. unfold auth_term in E. cbn [info1 ci_realm ci_nonce] in E.
  rewrite (proj2 (nonempty_true (sc_realm c)) Hr) in E. destruct arealm as [a|]; [|discriminate].
  assert (E' : (do! realm := alift (string_of a) in
                if pj_stricmp realm (sc_realm c) =? 0 then Pass tt
                else Reject info1 PJ_STUN_SC_UNAUTHORIZED (Some "Invalid REALM"%string)) = Pass tt
               /\ (sc_nonce c <> [] -> anonce <> None)).
  { destruct anonce as [b|]; [by split|]. destruct (nonempty (sc_nonce c)) eqn:Hn; [discriminate|].
    split; [exact E|]. intros H. apply nonempty_true in H. congruence. }
  destruct E' as [E1 Hno]. split; [|exact Hno]. apply abind_pass in E1 as (r & Es & E1).
  apply alift_pass, string_of_ok in Es as (h & ->). destruct (Z.eqb_spec (pj_stricmp r (sc_realm c)) 0); [|discriminate].
  by exists h, r.
Qed.

Lemma auth_nonce_pass user arealm a : sc_nonce c <> [] ->
  auth_nonce msg (StaticCred c) info1 user arealm (Some a) = Pass tt -> exists h, a = StringAttr h (sc_nonce c).
Proof.
  intros Hn E. unfold auth_nonce in E. apply abind_pass in E as (v & Es & E).
  apply alift_pass, string_of_ok in Es as (h & ->). cbn [info1 ci_nonce abind] in E.
  rewrite (proj2 (nonempty_true (sc_nonce c)) Hn) in E.
  destruct (Z.eqb_spec (pj_strcmp v (sc_nonce c)) 0) as [Ev|]; [|discriminate].
  apply pj_strcmp_0 in Ev as ->. by exists h.
Qed.

Lemma auth_stages_pass i : bytes_ok pkt -> Z.of_nat (length pkt) < 2 ^ 29 -> Forall decoded_attr (msg_attr msg) ->
  auth_stages env md5ctx pkt msg (StaticCred c) info0 = Pass i -> request_authentic pkt msg c /\ i = info1.
Proof.
  intros Hp Hl Hd E. unfold auth_stages in E.
  destruct (scan_msgint (msg_attr msg) 0 None) as [[[mi|] pos] beyond] eqn:Es; [|discriminate].
  destruct (scan_msgint_facts _ 0 None mi pos beyond Hd ltac:(lia) ltac:(done) Es) as (H0 & mh & m & -> & Hm).
  destruct (pj_stun_msg_find_attr msg PJ_STUN_ATTR_USERNAME 0) as [ua|] eqn:Eu; [|discriminate].
  unfold reject_if in E. destruct (_ && _); [discriminate|].
  apply abind_pass in E as (user & Eus & E). apply alift_pass, string_of_ok in Eus as (uh & ->).
  apply abind_pass in E as (i' & Ei & E). apply auth_user_pass in Ei as [-> ->].
  apply abind_pass in E as ([] & Et & E). apply abind_pass in E as ([] & En & E).
  apply abind_pass in E as (d & Edg & E). apply alift_pass in Edg. cbn [info1 ci_auth_key] in Edg.
  destruct (cred_key_ok (env_endian env) md5ctx c Hcred Hmd) as [_ Hkey].
  apply packet_mac_inv in Edg; [|assumption..]. subst d. cbn [hmac_of alift abind] in E.
  rewrite memcmp_mac in E by exact Hm. destruct (bool_decide_reflect (m = hmac_sha1 (cred_key c) (covered pkt pos beyond)));
    [|discriminate]. injection E as <-. split; [|done].
  split; [by exists uh|]. split; [by exists mh, m, pos, beyond|]. intros Hr.
  destruct (auth_term_pass _ _ Hr Et) as [Hrealm Hno]. split; [exact Hrealm|]. intros Hnn. specialize (Hno Hnn).
  destruct (pj_stun_msg_find_attr msg PJ_STUN_ATTR_NONCE 0) as [a|]; [|done].
  destruct (auth_nonce_pass _ _ a Hnn En) as (h & ->). by exists h.
Qed.
End Accepted.

(** C13. A request is accepted for a static credential only if its USERNAME is
    the one of the credential, its MESSAGE-INTEGRITY is the HMAC-SHA1, under the
    key of the credential, of the header up to the code and of the body in front
    of it, and, for a long-term credential, its REALM and NONCE are those asked
    for; the credential reported is the one configured. *)
Theorem auth_request_sound env md5ctx pkt pkt_len msg c want r :
  env_ok env -> length (md_in md5ctx) = 64%nat -> cred_ok c -> bytes_ok pkt -> Z.of_nat (length pkt) < 2 ^ 29 ->
  Forall decoded_attr (msg_attr msg) ->
  pj_stun_authenticate_request env md5ctx pkt pkt_len msg (StaticCred c) want = Ok r -> ar_status r = PJ_SUCCESS ->
  request_authentic pkt msg c
  /\ ar_info r = Some (mk_cinfo (sc_realm c) (sc_username c) (sc_nonce c) (cred_key c)) /\ ar_response r = None.
Proof.
  intros Henv Hmd Hcred Hp Hl Hd E Hst. unfold pj_stun_authenticate_request, cred_info in E.
  destruct (pkt_len =? 0); [injection E as <-; discriminate|]. cbn [Z.eqb negb] in E.
  pose proof (auth_stages_rejects env md5ctx pkt msg c (mk_cinfo (sc_realm c) [] (sc_nonce c) [])) as Hrej.
  destruct (auth_stages _ _ _ _ _ _) as [i|i code text|st|] eqn:Es; cbn [rejects_ok] in Hrej; [|exfalso|done|discriminate].
  - injection E as <-. destruct (auth_stages_pass env md5ctx pkt msg c Henv Hmd Hcred i Hp Hl Hd Es) as [Ha ->]. done.
  - assert (Hcode : PJ_STATUS_FROM_STUN_CODE code <> PJ_SUCCESS) by (destruct Hrej as [->|[->| ->]]; done).
    destruct (want && _).
    + destruct (create_challenge _ _ _ _ _) as [[st resp]|]; [|discriminate]. by injection E as <-.
    + by injection E as <-.
Qed.

(** ** A signed request is accepted *)

(** A string attribute the receiver looks for is found as it was sent. *)
Lemma find_received padc h normal fp mac v t ah s : mhdr_ok h -> mh_magic h = PJ_STUN_MAGIC -> Forall normal_attr normal ->
  t <> PJ_STUN_ATTR_SOFTWARE -> find_attr_loop normal t = Some (StringAttr ah s) ->
  pj_stun_msg_find_attr (received padc h normal fp mac v) t 0 = Some (StringAttr ah s).
Proof.
  intros Hh Hmag Hn Hne E. unfold pj_stun_msg_find_attr, received. rewrite drop_0. cbn [msg_attr].
  induction Hn as [|a normal [Ha _] _ IH]; [discriminate|]. cbn [find_attr_loop map app] in *. rewrite wire_type by assumption.
  destruct (Z.eqb_spec (attr_type a) t) as [Et|]; [|by apply IH]. injection E as ->.
  unfold attr_type in Et. cbn [attr_hdr] in Et. f_equal. cbn [wire_attr]. unfold padded_string. rewrite Hmag, Z.eqb_refl.
  destruct (Z.eqb_spec (ah_type ah) PJ_STUN_ATTR_SOFTWARE); [congruence|reflexivity].
Qed.

(** What the client puts into the request for the credential. *)
Definition carries (normal : list stun_attr) (c : static_cred) : Prop :=
  (exists h, find_attr_loop normal PJ_STUN_ATTR_USERNAME = Some (StringAttr h (sc_username c)))
  /\ (sc_realm c <> [] -> exists h r, find_attr_loop normal PJ_STUN_ATTR_REALM = Some (StringAttr h r) /\ pj_stricmp r (sc_realm c) = 0)
  /\ (sc_nonce c <> [] -> exists h, find_attr_loop normal PJ_STUN_ATTR_NONCE = Some (StringAttr h (sc_nonce c))).

Lemma decoded_nonce_string padc h normal fp mac v a : mhdr_ok h -> Forall normal_attr normal ->
  pj_stun_msg_find_attr (received padc h normal fp mac v) PJ_STUN_ATTR_NONCE 0 = Some a -> exists ah s, a = StringAttr ah s.
Proof.
  intros Hh Hn E. unfold pj_stun_msg_find_attr, received in E. rewrite drop_0 in E. cbn [msg_attr] in E.
  induction Hn as [|b normal [Hb _] _ IH]; cbn [find_attr_loop map app] in E; [by destruct fp|].
  destruct (Z.eqb_spec (attr_type (wire_attr padc h b)) PJ_STUN_ATTR_NONCE) as [Et|]; [|by apply IH].
  injection E as <-. rewrite wire_type in Et by assumption. destruct Hb as (_ & _ & _ & Hk). rewrite Et in Hk.
  change (kind_ok KString b) in Hk. destruct Hk as [Hk _]. destruct b; try discriminate Hk.
  cbn [wire_attr]. destruct (padded_string _ _); by do 2 eexists.
Qed.

Section Accept.
Context (env : stun_env) (md5ctx : pj_md5_context) (pkt : list Z) (padc : Z) (h : pj_stun_msg_hdr)
        (normal : list stun_attr) (fp : option Z) (c : static_cred) (mac : list Z) (v : Z).
Let msg := received padc h normal fp mac v.
Hypothesis Hmd : length (md_in md5ctx) = 64%nat.
Hypothesis Hcred : cred_ok c.
Hypothesis Hh : mhdr_ok h.
Hypothesis Hmag : mh_magic h = PJ_STUN_MAGIC.
Hypothesis Hn : Forall normal_attr normal.
Hypothesis Hc : carries normal c.
Hypothesis Hshort : sc_realm c = [] -> sc_nonce c = [].
Hypothesis Hs : space_of padc h normal < 2 ^ 32.
Hypothesis Hlen : length mac = 20%nat.
Hypothesis Hmac : packet_mac env (cred_key c) pkt (space_of padc h normal) (is_some fp) = Ok mac.

Let info1 := mk_cinfo (sc_realm c) (sc_username c) (sc_nonce c) (cred_key c).

Lemma accept_term :
  auth_term info1 (pj_stun_msg_find_attr msg PJ_STUN_ATTR_REALM 0) (pj_stun_msg_find_attr msg PJ_STUN_ATTR_NONCE 0) = Pass tt.
Proof.
  destruct Hc as (_ & Hlong & Hnonce). unfold auth_term. cbn [info1 ci_realm ci_nonce].
  destruct (nonempty (sc_realm c)) eqn:Er.
  - apply nonempty_true in Er. destruct (Hlong Er) as (rh & r & Ef & Ec).
    unfold msg at 1. rewrite (find_received padc h normal fp mac v PJ_STUN_ATTR_REALM rh r) by (first [assumption|done]).
    cbn [string_of alift abind]. rewrite Ec. cbn [Z.eqb].
    destruct (nonempty (sc_nonce c)) eqn:En; [|by destruct (pj_stun_msg_find_attr _ _ _)].
    apply nonempty_true in En. destruct (Hnonce En) as (nh & Efn).
    unfold msg. by rewrite (find_received padc h normal fp mac v PJ_STUN_ATTR_NONCE nh (sc_nonce c)) by (first [assumption|done]).
  - destruct (pj_stun_msg_find_attr msg PJ_STUN_ATTR_REALM 0); [done|].
    assert (Hr : sc_realm c = []) by (destruct (sc_realm c); [done|discriminate Er]). by rewrite (Hshort Hr).
Qed.

Lemma accept_nonce user arealm :
  auth_nonce msg (StaticCred c) info1 user arealm (pj_stun_msg_find_attr msg PJ_STUN_ATTR_NONCE 0) = Pass tt.
Proof.
  destruct Hc as (_ & _ & Hnonce). unfold auth_nonce.
  destruct (pj_stun_msg_find_attr msg PJ_STUN_ATTR_NONCE 0) as [a|] eqn:Ea; [|done].
  destruct (nonempty (sc_nonce c)) eqn:En.
  - apply nonempty_true in En as Hne. destruct (Hnonce Hne) as (nh & Efn). unfold msg in Ea.
    rewrite (find_received padc h normal fp mac v PJ_STUN_ATTR_NONCE nh (sc_nonce c)) in Ea by (first [assumption|done]).
    injection Ea as <-. cbn [string_of alift abind info1 ci_nonce]. rewrite En.
    by rewrite (proj2 (pj_strcmp_0 (sc_nonce c) (sc_nonce c)) eq_refl).
  - destruct (decoded_nonce_string padc h normal fp mac v a Hh Hn Ea) as (ah & s & ->).
    cbn [string_of alift abind info1 ci_nonce]. by rewrite En.
Qed.

Lemma accept_stages :
  auth_stages env md5ctx pkt msg (StaticCred c) (mk_cinfo (sc_realm c) [] (sc_nonce c) []) = Pass info1.
Proof.
  unfold auth_stages. pose proof (space_of_nonneg padc h normal Hh Hn) as H0.
  assert (Es : scan_msgint (msg_attr msg) 0 None = (Some (mi_attr mac), space_of padc h normal, is_some fp)).
  { unfold msg, received. cbn [msg_attr]. rewrite scan_normal, scan_tail_mi, Z.add_0_l by (first [assumption|lia]).
    by destruct fp. }
  rewrite Es. pose proof Hc as ((uh & Eu) & Hlong & _).
  unfold msg at 1. rewrite (find_received padc h normal fp mac v PJ_STUN_ATTR_USERNAME uh (sc_username c))
    by (first [assumption|done]). fold msg.
  assert (Er : nonempty (ci_realm (mk_cinfo (sc_realm c) [] (sc_nonce c) []))
               && negb (is_some (pj_stun_msg_find_attr msg PJ_STUN_ATTR_REALM 0)) = false).
  { cbn [ci_realm]. destruct (nonempty (sc_realm c)) eqn:Er; [|done]. apply nonempty_true in Er.
    destruct (Hlong Er) as (rh & r & Ef & _). unfold msg.
    by rewrite (find_received padc h normal fp mac v PJ_STUN_ATTR_REALM rh r) by (first [assumption|done]). }
  unfold reject_if. rewrite Er. cbn [string_of alift abind]. unfold auth_user.
  rewrite (proj2 (pj_strcmp_0 (sc_username c) (sc_username c)) eq_refl). cbn [Z.eqb ci_realm ci_nonce].
  destruct (cred_key_ok (env_endian env) md5ctx c Hcred Hmd) as [-> _]. cbn [abind]. fold info1.
  rewrite accept_term. cbn [abind]. rewrite accept_nonce. cbn [abind].
  cbn [info1 ci_auth_key]. rewrite Hmac. cbn [alift abind hmac_of mi_attr].
  assert (Em : memcmp mac mac = 0) by (by apply memcmp_0). by rewrite Em.
Qed.
End Accept.

(** C12. A credential that is a long-term one (has a realm) or has no nonce, and
    a request with the magic cookie: a client that puts user name, and realm and
    nonce if they are asked for, into the request and signs it with the key of
    the credential is accepted by the server after encoding, transport and
    decoding, on any machine.  (A nonce without a realm is refused,
    [short_term_nonce].) *)
Theorem stun_request_authenticates env env' md5ctx padc h normal old fp buf rest c want :
  let n := 20 + body_size padc h normal true (is_some fp) in
  env_ok env -> env_ok env' -> length (md_in md5ctx) = 64%nat -> cred_ok c -> carries normal c -> (sc_realm c = [] -> sc_nonce c = []) ->
  mhdr_ok h -> mh_magic h = PJ_STUN_MAGIC -> Forall normal_attr normal -> bytes_ok buf -> bytes_ok rest ->
  (length (msg_attr (stun_msg h normal (Some old) fp)) <= 16)%nat ->
  n <= Z.of_nat (length buf) < 2 ^ 29 -> n <= 65555 -> n + Z.of_nat (length rest) < 2 ^ 29 ->
  exists sent buf' msg,
    let pkt := take (Z.to_nat n) buf' ++ rest in
    pj_stun_msg_encode env padc (stun_msg h normal (Some old) fp) buf 0 (Some (cred_key c))
    = Encoded PJ_SUCCESS sent buf' (Some n)
    /\ (forall strerror w, pj_stun_msg_decode strerror env pkt n 0 w = Some (Ok (mk_dr PJ_SUCCESS (Some msg) n None)))
    /\ pj_stun_authenticate_request env' md5ctx pkt n msg (StaticCred c) want
       = Ok (mk_ar PJ_SUCCESS (Some (mk_cinfo (sc_realm c) (sc_username c) (sc_nonce c) (cred_key c))) None).
Proof.
  intros n Henv Henv' Hmd Hcred Hca Hshort Hh Hmag Hn Hb Hr Hc Hbuf Hsz Hmem. unfold n in *.
  destruct (cred_key_ok LittleEndian md5ctx c Hcred Hmd) as [_ Hk].
  destruct (signed_message env padc h normal old fp (cred_key c) buf rest Henv Hh Hn Hb Hk Hc Hbuf ltac:(lia) Hr Hmem)
    as (sent & buf' & v & E & Ed & Hm).
  set (protected := head h _ ++ _) in *.
  exists sent, buf', (received padc h normal fp (hmac_sha1 (cred_key c) protected) v).
  cbv zeta. split; [exact E|]. split; [exact Ed|]. pose proof (space_of_nonneg padc h normal Hh Hn) as H0.
  assert (Hbs : space_of padc h normal + 24 <= body_size padc h normal true (is_some fp))
    by (unfold body_size; destruct (is_some fp); lia).
  unfold pj_stun_authenticate_request, cred_info.
  destruct (Z.eqb_spec (20 + body_size padc h normal true (is_some fp)) 0); [lia|]. cbn [Z.eqb negb].
  change (negb (PJ_SUCCESS =? PJ_SUCCESS)) with false. cbn iota.
  rewrite accept_stages; first [assumption|lia|by apply hmac_sha1_ok|by apply Hm|reflexivity].
Qed.

(** ** Witnesses *)

(** A long-term credential, and a request that carries it. *)
Definition sample_cred : static_cred :=
  mk_static (cstr "example.org") (cstr "alice") PJ_STUN_PASSWD_PLAIN (cstr "secret") (cstr "n0nce").
Definition sample_request : list stun_attr :=
  [pj_stun_string_attr_create PJ_STUN_ATTR_USERNAME (cstr "alice");
   pj_stun_string_attr_create PJ_STUN_ATTR_REALM (cstr "Example.org");
   pj_stun_string_attr_create PJ_STUN_ATTR_NONCE (cstr "n0nce")].

Lemma ascii_ok s : bytes_ok (cstr s).
Proof.
  unfold bytes_ok, cstr. apply Forall_map, list.Forall_forall. intros a _. unfold is_u8, compose.
  pose proof (Ascii.N_ascii_bounded a). lia.
Qed.

Lemma string_normal t s : is_u16 t -> find_attr_desc t = Some (mk_desc (pj_stun_get_attr_name t) KString) ->
  t <> PJ_STUN_ATTR_MESSAGE_INTEGRITY -> t <> PJ_STUN_ATTR_FINGERPRINT -> Z.of_nat (length (cstr s)) <= 1000 ->
  normal_attr (pj_stun_string_attr_create t (cstr s)).
Proof.
  intros Ht Hd H1 H2 Hl. unfold pj_stun_string_attr_create, INIT_ATTR. rewrite !u16_small by (unfold is_u16; lia || exact Ht).
  split; [|by split]. split; [exact Ht|]. split; [split; [apply ascii_ok|done]|]. split; [cbn; lia|].
  unfold attr_type. cbn [attr_hdr ah_type]. by rewrite Hd.
Qed.

Lemma sample_request_normal : Forall normal_attr sample_request.
Proof.
  repeat (apply list.Forall_cons_2; [apply string_normal; [by unfold is_u16|by vm_compute..]|]). apply list.Forall_nil_2.
Qed.

Lemma sample_cred_ok : cred_ok sample_cred.
Proof. by split; [|split]; (split; [apply ascii_ok|by vm_compute]). Qed.

Lemma sample_carries : carries sample_request sample_cred.
Proof.
  split; [by eexists|]. split; [|by eexists].
  intros _. do 2 eexists. split; [reflexivity|by vm_compute].
Qed.

Lemma stun_response_authenticates_witness : exists sent buf' msg,
  let pkt := take 92 buf' ++ [] in
  let protected := head sample_hdr 64 ++ take 40 (drop 20 buf') in
  pj_stun_msg_encode (sample_env LittleEndian) 32 (stun_msg sample_hdr sample_request (Some []) (Some 0))
    (replicate 200 170) 0 (Some (cstr "secret")) = Encoded PJ_SUCCESS sent buf' (Some 92)
  /\ (forall strerror want, pj_stun_msg_decode strerror (sample_env LittleEndian) pkt 92 0 want
       = Some (Ok (mk_dr PJ_SUCCESS (Some msg) 92 None)))
  /\ pj_stun_authenticate_response (sample_env BigEndian) pkt 92 msg (cstr "guess")
     = Ok (if bool_decide (hmac_sha1 (cstr "secret") protected = hmac_sha1 (cstr "guess") protected) then PJ_SUCCESS
           else PJ_STATUS_FROM_STUN_CODE PJ_STUN_SC_UNAUTHORIZED).
Proof.
  apply (stun_response_authenticates (sample_env LittleEndian) (sample_env BigEndian) 32 sample_hdr sample_request
           [] (Some 0) (cstr "secret") (cstr "guess") (replicate 200 170) []).
  - split; reflexivity.
  - split; reflexivity.
  - exact sample_hdr_ok.
  - exact sample_request_normal.
  - apply wild_buffer.
  - apply list.Forall_nil_2.
  - split; [apply ascii_ok|by vm_compute].
  - split; [apply ascii_ok|by vm_compute].
  - simpl. lia.
  - split; [by vm_compute|by vm_compute].
  - by vm_compute.
  - by vm_compute.
Defined.

Lemma stun_request_authenticates_witness : exists sent buf' msg,
  let pkt := take 92 buf' ++ [] in
  pj_stun_msg_encode (sample_env LittleEndian) 32 (stun_msg sample_hdr sample_request (Some []) (Some 0))
    (replicate 200 170) 0 (Some (cred_key sample_cred)) = Encoded PJ_SUCCESS sent buf' (Some 92)
  /\ (forall strerror w, pj_stun_msg_decode strerror (sample_env LittleEndian) pkt 92 0 w
       = Some (Ok (mk_dr PJ_SUCCESS (Some msg) 92 None)))
  /\ pj_stun_authenticate_request (sample_env BigEndian) wild_md5 pkt 92 msg (StaticCred sample_cred) true
     = Ok (mk_ar PJ_SUCCESS (Some (mk_cinfo (sc_realm sample_cred) (sc_username sample_cred) (sc_nonce sample_cred)
                                     (cred_key sample_cred))) None).
Proof.
  apply (stun_request_authenticates (sample_env LittleEndian) (sample_env BigEndian) wild_md5 32 sample_hdr sample_request
           [] (Some 0) (replicate 200 170) [] sample_cred true).
  - split; reflexivity.
  - split; reflexivity.
  - reflexivity.
  - exact sample_cred_ok.
  - exact sample_carries.
  - discriminate.
  - exact sample_hdr_ok.
  - reflexivity.
  - exact sample_request_normal.
  - apply wild_buffer.
  - apply list.Forall_nil_2.
  - simpl. lia.
  - split; [by vm_compute|by vm_compute].
  - by vm_compute.
  - by vm_compute.
Defined.

(** The packet of this request, with its key computed from the digests. *)
Definition signed_packet : list Z := Eval vm_compute in
  match pj_stun_msg_encode (sample_env LittleEndian) 32 (stun_msg sample_hdr sample_request (Some []) None)
          (replicate 200 170) 0 (Some (cred_key sample_cred)) with
  | Encoded _ _ buf (Some n) => take (Z.to_nat n) buf
  | _ => []
  end.
Definition signed_msg : pj_stun_msg := Eval vm_compute in
  match pj_stun_msg_decode (fun _ => []) (sample_env LittleEndian) signed_packet 84 0 false with
  | Some (Ok r) => default (mk_msg sample_hdr []) (dr_msg r)
  | _ => mk_msg sample_hdr []
  end.

Ltac decode_part := (split; [by vm_compute|split; [|by vm_compute]]); cbn [decoded_fields].

Lemma signed_msg_decoded : Forall decoded_attr (msg_attr signed_msg).
Proof.
  unfold signed_msg. cbn [msg_attr].
  do 3 (apply list.Forall_cons_2; [decode_part; split; [solve_bytes|reflexivity]|]).
  apply list.Forall_cons_2; [decode_part; split; [solve_bytes|by split]|constructor].
Qed.

Lemma auth_request_sound_witness :
  request_authentic signed_packet signed_msg sample_cred
  /\ Some (mk_cinfo (sc_realm sample_cred) (sc_username sample_cred) (sc_nonce sample_cred) (cred_key sample_cred))
     = Some (mk_cinfo (sc_realm sample_cred) (sc_username sample_cred) (sc_nonce sample_cred) (cred_key sample_cred))
  /\ @None pj_stun_msg = None.
Proof.
  apply (auth_request_sound (sample_env LittleEndian) wild_md5 signed_packet 84 signed_msg sample_cred true
           (mk_ar PJ_SUCCESS (Some (mk_cinfo (sc_realm sample_cred) (sc_username sample_cred) (sc_nonce sample_cred)
                                     (cred_key sample_cred))) None)).
  - split; reflexivity.
  - reflexivity.
  - exact sample_cred_ok.
  - unfold signed_packet. solve_bytes.
  - by vm_compute.
  - exact signed_msg_decoded.
  - by vm_compute.
  - reflexivity.
Defined.

(** ** What the checks miss *)

(** A short-term credential that asks for a nonce refuses every request without
    REALM, also one with the right nonce; and with any REALM in the request the
    nonce is not asked for. *)
Lemma short_term_nonce info anonce nonce : ci_realm info = [] -> ci_nonce info = nonce -> nonce <> [] ->
  auth_term info None anonce = Reject info PJ_STUN_SC_UNAUTHORIZED (Some "NONCE required"%string)
  /\ (forall r, auth_term info (Some r) None = Pass tt).
Proof.
  intros Hr Hn Hne. unfold auth_term. rewrite Hr, Hn. cbn [nonempty length Nat.eqb negb].
  by rewrite (proj2 (nonempty_true nonce) Hne).
Qed.

(** The quotes of a name are removed one at each end, its trailing nulls not. *)
Lemma quotes_and_nulls :
  REMOVE_QUOTE [34; 34; 97; 34; 34] = [34; 97; 34] /\ REMOVE_QUOTE [97; 0] = [97; 0].
Proof. by vm_compute. Qed.
