(* ===== verification/StunTsx.v ===== *)
(** * STUN client transactions

    Model of [pjnath/src/pjnath/stun_transaction.c]: the retransmissions of a
    request, its time-out and its completion by a response.  A timer entry is
    whether it is scheduled: expiry takes it from the heap before its callback,
    which resets its id first.  What the timer heap and the transport answer in
    one call is a value of [tsx_env]; the packets sent, the delays asked for and
    the callbacks are recorded. *)

From Stdlib Require Import ZArith Lia Bool.
From stdpp Require Import base list numbers option.
From S2P Require Import Prelude.
From S2P Require Import TimeVal.
From S2P Require Import PjString.
From S2P Require Import StunMsg.
Local Open Scope Z_scope.

Definition PJ_STUN_RTO_VALUE : Z := 100.
Definition PJ_STUN_TIMEOUT_VALUE : Z := 16 * PJ_STUN_RTO_VALUE.
Definition PJ_STUN_MAX_TRANSMIT_COUNT : Z := 7.
Definition PJ_EBUSY : pj_status_t := 70011.
Definition PJNATH_ESTUNTIMEDOUT : pj_status_t := 370004.
Definition PJNATH_ESTUNDESTROYED : pj_status_t := 370060.

(** [on_complete] is whether the callback is set. *)
Record pj_stun_client_tsx := mk_tsx {
  ct_on_complete : bool; ct_complete : bool; ct_require_retransmit : bool; ct_rto_msec : Z;
  ct_retransmit_timer : bool; ct_transmit_count : Z; ct_retransmit_time : time_val; ct_destroy_timer : bool;
  ct_last_pkt : list Z
}.

(** What a call does, in order. *)
Inductive tsx_event :=
  | EvSchedule (delay : time_val)
  | EvSend (pkt : list Z)
  | EvComplete (status : pj_status_t) (response : option pj_stun_msg)
  | EvDestroy.

(** The status of scheduling a timer that is not scheduled, and of sending. *)
Record tsx_env := mk_env { te_schedule : pj_status_t; te_send : pj_status_t }.

Definition outcome : Type := pj_status_t * pj_stun_client_tsx * list tsx_event.

(** ** Operations *)

Definition pj_stun_client_tsx_create (rto_msec : Z) (on_complete : bool) : pj_stun_client_tsx :=
  mk_tsx on_complete false false rto_msec false 0 (mk_tv 0 0) false [].

Definition set_retransmit_timer (tsx : pj_stun_client_tsx) (on : bool) : pj_stun_client_tsx :=
  mk_tsx (ct_on_complete tsx) (ct_complete tsx) (ct_require_retransmit tsx) (ct_rto_msec tsx) on (ct_transmit_count tsx)
    (ct_retransmit_time tsx) (ct_destroy_timer tsx) (ct_last_pkt tsx).
Definition set_retransmit_time (tsx : pj_stun_client_tsx) (t : time_val) : pj_stun_client_tsx :=
  mk_tsx (ct_on_complete tsx) (ct_complete tsx) (ct_require_retransmit tsx) (ct_rto_msec tsx) (ct_retransmit_timer tsx)
    (ct_transmit_count tsx) t (ct_destroy_timer tsx) (ct_last_pkt tsx).
Definition set_transmit_count (tsx : pj_stun_client_tsx) (n : Z) : pj_stun_client_tsx :=
  mk_tsx (ct_on_complete tsx) (ct_complete tsx) (ct_require_retransmit tsx) (ct_rto_msec tsx) (ct_retransmit_timer tsx) n
    (ct_retransmit_time tsx) (ct_destroy_timer tsx) (ct_last_pkt tsx).
Definition set_destroy_timer (tsx : pj_stun_client_tsx) (on : bool) : pj_stun_client_tsx :=
  mk_tsx (ct_on_complete tsx) (ct_complete tsx) (ct_require_retransmit tsx) (ct_rto_msec tsx) (ct_retransmit_timer tsx)
    (ct_transmit_count tsx) (ct_retransmit_time tsx) on (ct_last_pkt tsx).
Definition set_request (tsx : pj_stun_client_tsx) (retransmit : bool) (pkt : list Z) : pj_stun_client_tsx :=
  mk_tsx (ct_on_complete tsx) (ct_complete tsx) retransmit (ct_rto_msec tsx) (ct_retransmit_timer tsx)
    (ct_transmit_count tsx) (ct_retransmit_time tsx) (ct_destroy_timer tsx) pkt.
Definition drop_callback (tsx : pj_stun_client_tsx) : pj_stun_client_tsx :=
  mk_tsx false (ct_complete tsx) (ct_require_retransmit tsx) (ct_rto_msec tsx) (ct_retransmit_timer tsx)
    (ct_transmit_count tsx) (ct_retransmit_time tsx) (ct_destroy_timer tsx) (ct_last_pkt tsx).

(** [pj_timer_heap_schedule_w_grp_lock] on the retransmission timer, which both
    callers have found not to be scheduled, and the reset of its id on failure. *)
Definition schedule_retransmit (tsx : pj_stun_client_tsx) (env : tsx_env) : outcome :=
  let st := te_schedule env in
  if st =? PJ_SUCCESS then (st, set_retransmit_timer tsx true, [EvSchedule (ct_retransmit_time tsx)])
  else (st, set_retransmit_timer tsx false, []).

(** The completion, once. *)
Definition tsx_complete (tsx : pj_stun_client_tsx) (st : pj_status_t) (msg : option pj_stun_msg)
    : pj_stun_client_tsx * list tsx_event :=
  if ct_complete tsx then (tsx, [])
  else (mk_tsx (ct_on_complete tsx) true (ct_require_retransmit tsx) (ct_rto_msec tsx) (ct_retransmit_timer tsx)
          (ct_transmit_count tsx) (ct_retransmit_time tsx) (ct_destroy_timer tsx) (ct_last_pkt tsx),
        if ct_on_complete tsx then [EvComplete st msg] else []).

Definition pj_stun_client_tsx_schedule_destroy (tsx : pj_stun_client_tsx) (env : tsx_env) (on_destroy : bool)
    : pj_status_t * pj_stun_client_tsx :=
  if negb on_destroy then (PJ_EINVAL, tsx)
  else
    let tsx := set_retransmit_timer (set_destroy_timer tsx false) false in
    if negb (te_schedule env =? PJ_SUCCESS) then (te_schedule env, tsx)
    else (PJ_SUCCESS, drop_callback (set_destroy_timer tsx true)).

Definition pj_stun_client_tsx_stop (tsx : pj_stun_client_tsx) : pj_status_t * pj_stun_client_tsx :=
  (PJ_SUCCESS, set_destroy_timer (set_retransmit_timer tsx false) false).

Definition pj_stun_client_tsx_is_complete (tsx : pj_stun_client_tsx) : bool := ct_complete tsx.

(** The delay before the next transmission, or before giving up. *)
Definition retransmit_delay (tsx : pj_stun_client_tsx) : time_val :=
  if ct_transmit_count tsx =? 0 then mk_tv 0 (ct_rto_msec tsx)
  else if ct_transmit_count tsx <? PJ_STUN_MAX_TRANSMIT_COUNT - 1 then
    let msec := u32 (u32 (PJ_TIME_VAL_MSEC (ct_retransmit_time tsx)) * 2) in
    mk_tv (msec / 1000) (msec mod 1000)
  else mk_tv (PJ_STUN_TIMEOUT_VALUE / 1000) (PJ_STUN_TIMEOUT_VALUE mod 1000).

(** The rest of [tsx_transmit_msg], once the timer is set. *)
Definition send_last_pkt (tsx : pj_stun_client_tsx) (mod_count : bool) (env : tsx_env) (evs : list tsx_event) : outcome :=
  let tsx := if mod_count then set_transmit_count tsx (u32 (ct_transmit_count tsx + 1)) else tsx in
  let st := te_send env in
  let evs := evs ++ [EvSend (ct_last_pkt tsx)] in
  if st =? PJNATH_ESTUNDESTROYED then (st, tsx, evs)
  else if negb (st =? PJ_SUCCESS) then (st, if mod_count then set_retransmit_timer tsx false else tsx, evs)
  else (st, tsx, evs).

Definition tsx_transmit_msg (tsx : pj_stun_client_tsx) (mod_count : bool) (env : tsx_env) : outcome :=
  if negb (negb (ct_retransmit_timer tsx) || negb (ct_require_retransmit tsx) || negb mod_count) then (PJ_EBUSY, tsx, [])
  else if ct_require_retransmit tsx && mod_count then
    let '(st, tsx, evs) := schedule_retransmit (set_retransmit_time tsx (retransmit_delay tsx)) env in
    if negb (st =? PJ_SUCCESS) then (st, tsx, evs) else send_last_pkt tsx mod_count env evs
  else send_last_pkt tsx mod_count env [].

(** The end of [pj_stun_client_tsx_send_msg]. *)
Definition start_sending (tsx : pj_stun_client_tsx) (env : tsx_env) (evs : list tsx_event) : outcome :=
  let '(st, tsx, evs') := tsx_transmit_msg tsx true env in
  if negb (st =? PJ_SUCCESS) then (st, set_retransmit_timer tsx false, evs ++ evs')
  else (PJ_SUCCESS, tsx, evs ++ evs').

Definition pj_stun_client_tsx_send_msg (tsx : pj_stun_client_tsx) (retransmit : bool) (pkt : list Z) (env : tsx_env) : outcome :=
  if (length pkt =? 0)%nat then (PJ_EINVAL, tsx, [])
  else if ct_retransmit_timer tsx then (PJ_EBUSY, tsx, [])
  else
    let tsx := set_request tsx retransmit pkt in
    if retransmit then start_sending tsx env []
    else
      let timeout := u32 (ct_rto_msec tsx * 16) in
      let tsx := set_retransmit_time (set_transmit_count tsx PJ_STUN_MAX_TRANSMIT_COUNT)
                   (mk_tv (timeout / 1000) (timeout mod 1000)) in
      let '(st, tsx, evs) := schedule_retransmit tsx env in
      if negb (st =? PJ_SUCCESS) then (st, tsx, evs) else start_sending tsx env evs.

(** Called by the timer heap for a timer that was scheduled. *)
Definition retransmit_timer_callback (tsx : pj_stun_client_tsx) (env : tsx_env) : pj_stun_client_tsx * list tsx_event :=
  let tsx := set_retransmit_timer tsx false in
  if PJ_STUN_MAX_TRANSMIT_COUNT <=? ct_transmit_count tsx then tsx_complete tsx PJNATH_ESTUNTIMEDOUT None
  else
    let '(st, tsx, evs) := tsx_transmit_msg tsx true env in
    if negb (st =? PJ_SUCCESS) then
      let '(tsx, evs') := tsx_complete (set_retransmit_timer tsx false) st None in (tsx, evs ++ evs')
    else (tsx, evs).

Definition pj_stun_client_tsx_retransmit (tsx : pj_stun_client_tsx) (mod_count : bool) (env : tsx_env) : outcome :=
  if ct_destroy_timer tsx then (PJ_SUCCESS, tsx, [])
  else tsx_transmit_msg (if mod_count then set_retransmit_timer tsx false else tsx) mod_count env.

Definition destroy_timer_callback (tsx : pj_stun_client_tsx) : pj_stun_client_tsx * list tsx_event :=
  (set_destroy_timer tsx false, [EvDestroy]).

(** The code of an ERROR-CODE attribute. *)
Definition err_code_of (msg : pj_stun_msg) : option Z :=
  match pj_stun_msg_find_attr msg PJ_STUN_ATTR_ERROR_CODE 0 with
  | Some (ErrcodeAttr _ code _) => Some code
  | _ => None
  end.

Definition pj_stun_client_tsx_on_rx_msg (tsx : pj_stun_client_tsx) (msg : pj_stun_msg) : outcome :=
  let t := mh_type (msg_hdr msg) in
  if negb (PJ_STUN_IS_SUCCESS_RESPONSE t) && negb (PJ_STUN_IS_ERROR_RESPONSE t) then (PJNATH_EINSTUNMSGTYPE, tsx, [])
  else
    let tsx := set_retransmit_timer tsx false in
    match err_code_of msg with
    | Some code =>
        if code <=? 200 then (PJ_SUCCESS, tsx, [])
        else let '(tsx, evs) := tsx_complete tsx (PJ_STATUS_FROM_STUN_CODE code) (Some msg) in (PJ_SUCCESS, tsx, evs)
    | None => let '(tsx, evs) := tsx_complete tsx PJ_SUCCESS (Some msg) in (PJ_SUCCESS, tsx, evs)
    end.

(** ** Runs *)

(** A timer can only expire while it is scheduled. *)
Inductive tsx_op :=
  | TSend (retransmit : bool) (pkt : list Z) (env : tsx_env)
  | TExpire (env : tsx_env)
  | TRetransmit (mod_count : bool) (env : tsx_env)
  | TRxMsg (msg : pj_stun_msg)
  | TScheduleDestroy (env : tsx_env)
  | TStop
  | TDestroyExpire.

Definition tsx_step (tsx : pj_stun_client_tsx) (op : tsx_op) : pj_stun_client_tsx * list tsx_event :=
  match op with
  | TSend retransmit pkt env => let '(_, tsx, evs) := pj_stun_client_tsx_send_msg tsx retransmit pkt env in (tsx, evs)
  | TExpire env => if ct_retransmit_timer tsx then retransmit_timer_callback tsx env else (tsx, [])
  | TRetransmit mod_count env => let '(_, tsx, evs) := pj_stun_client_tsx_retransmit tsx mod_count env in (tsx, evs)
  | TRxMsg msg => let '(_, tsx, evs) := pj_stun_client_tsx_on_rx_msg tsx msg in (tsx, evs)
  | TScheduleDestroy env => (snd (pj_stun_client_tsx_schedule_destroy tsx env true), [])
  | TStop => (snd (pj_stun_client_tsx_stop tsx), [])
  | TDestroyExpire => if ct_destroy_timer tsx then destroy_timer_callback tsx else (tsx, [])
  end.

Fixpoint tsx_run (tsx : pj_stun_client_tsx) (ops : list tsx_op) : pj_stun_client_tsx * list tsx_event :=
  match ops with
  | [] => (tsx, [])
  | op :: ops =>
      let '(tsx, evs) := tsx_step tsx op in
      let '(tsx, evs') := tsx_run tsx ops in
      (tsx, evs ++ evs')
  end.

Definition is_complete (e : tsx_event) : bool := match e with EvComplete _ _ => true | _ => false end.
Definition count (f : tsx_event -> bool) (evs : list tsx_event) : nat := length (List.filter f evs).

Lemma count_app f a b : count f (a ++ b) = (count f a + count f b)%nat.
Proof. unfold count. by rewrite List.filter_app, length_app. Qed.

(** ** One completion *)

(** The events complete the transaction once if it becomes complete with its
    callback set, and do not otherwise. *)
Definition completes (tsx tsx' : pj_stun_client_tsx) (evs : list tsx_event) : Prop :=
  (count is_complete evs <= 1)%nat /\ (ct_complete tsx = true -> ct_complete tsx' = true /\ count is_complete evs = 0%nat)
  /\ (ct_complete tsx' = false -> count is_complete evs = 0%nat).

(** A transmission does not complete anything. *)
Definition quiet (tsx : pj_stun_client_tsx) (r : outcome) : Prop :=
  count is_complete (snd r) = 0%nat /\ ct_complete (snd (fst r)) = ct_complete tsx.

Lemma send_last_quiet tsx mc env evs : count is_complete evs = 0%nat -> quiet tsx (send_last_pkt tsx mc env evs).
Proof.
  intros H. unfold quiet, send_last_pkt. repeat case_if; cbn [fst snd]; rewrite count_app, H; done.
Qed.

Lemma transmit_quiet tsx mc env : quiet tsx (tsx_transmit_msg tsx mc env).
Proof.
  unfold tsx_transmit_msg. case_if; [done|]. case_if; [|by apply send_last_quiet].
  unfold schedule_retransmit. case_if; cbn [negb].
  - rewrite E1. cbn [negb]. match goal with |- quiet _ (send_last_pkt ?t _ _ ?e) => destruct (send_last_quiet t mc env e) as [H1 H2]; [done|] end.
    split; [exact H1|exact H2].
  - rewrite E1. done.
Qed.

Lemma start_quiet tsx env evs : count is_complete evs = 0%nat -> quiet tsx (start_sending tsx env evs).
Proof.
  intros H. unfold start_sending. destruct (transmit_quiet tsx true env) as [H1 H2]. destruct (tsx_transmit_msg tsx true env) as [[st t] e].
  cbn [fst snd] in *. unfold quiet. case_if; cbn [fst snd]; rewrite count_app, H, H1; done.
Qed.

Lemma quiet_completes tsx r : quiet tsx r -> completes tsx (snd (fst r)) (snd r).
Proof. intros [H1 H2]. unfold completes. rewrite H1, H2. split_and!; [lia|done|done]. Qed.

Lemma complete_completes tsx st msg : completes tsx (fst (tsx_complete tsx st msg)) (snd (tsx_complete tsx st msg)).
Proof.
  unfold completes, tsx_complete. destruct (ct_complete tsx) eqn:E; cbn [fst snd].
  - rewrite E. cbn. split_and!; try done; lia.
  - destruct (ct_on_complete tsx); cbn; split_and!; try done; lia.
Qed.

Lemma step_completes tsx op : completes tsx (fst (tsx_step tsx op)) (snd (tsx_step tsx op)).
Proof.
  assert (Hnone : forall t, ct_complete t = ct_complete tsx -> completes tsx t []).
  { intros t E. unfold completes. rewrite E. cbn. split_and!; try done. lia. }
  destruct op as [rt pkt env|env|mc env|msg|env| |]; cbn [tsx_step].
  - assert (H : quiet tsx (pj_stun_client_tsx_send_msg tsx rt pkt env)).
    { unfold pj_stun_client_tsx_send_msg. repeat (case_if; [done|]). destruct rt; [by apply (start_quiet (set_request tsx true pkt))|].
      unfold schedule_retransmit. destruct (te_schedule env =? PJ_SUCCESS) eqn:Es; rewrite Es; cbn [negb]; [|done].
      match goal with |- quiet _ (start_sending ?t _ ?e) => destruct (start_quiet t env e) as [H1 H2]; [done|] end.
      split; [exact H1|exact H2]. }
    apply quiet_completes in H. destruct (pj_stun_client_tsx_send_msg tsx rt pkt env) as [[st t] e]. exact H.
  - destruct (ct_retransmit_timer tsx); [|by apply Hnone]. unfold retransmit_timer_callback.
    case_if; [exact (complete_completes (set_retransmit_timer tsx false) _ _)|].
    pose proof (transmit_quiet (set_retransmit_timer tsx false) true env) as Hq. destruct (tsx_transmit_msg _ true env) as [[st t] e].
    destruct Hq as [H1 H2]. cbn [fst snd] in H1, H2. change (ct_complete t = ct_complete tsx) in H2. case_if.
    + pose proof (complete_completes (set_retransmit_timer t false) st None) as Hc. destruct (tsx_complete _ st None) as [t' e'].
      cbn [fst snd] in *. unfold completes in *. rewrite count_app, H1. cbn [ct_complete set_retransmit_timer] in Hc. by rewrite H2 in Hc.
    + apply (quiet_completes tsx (st, t, e)). by split.
  - assert (H : quiet tsx (pj_stun_client_tsx_retransmit tsx mc env)).
    { unfold pj_stun_client_tsx_retransmit. case_if; [done|]. destruct mc; [exact (transmit_quiet (set_retransmit_timer tsx false) true env)|].
      apply transmit_quiet. }
    apply quiet_completes in H. destruct (pj_stun_client_tsx_retransmit tsx mc env) as [[st t] e]. exact H.
  - unfold pj_stun_client_tsx_on_rx_msg. case_if; [by apply Hnone|]. destruct (err_code_of msg) as [code|]; [case_if; [by apply Hnone|]|];
      (match goal with |- context [tsx_complete ?t ?s ?m] => pose proof (complete_completes t s m) as Hc; destruct (tsx_complete t s m) end);
      exact Hc.
  - apply Hnone. unfold pj_stun_client_tsx_schedule_destroy. cbn [negb]. by case_if.
  - by apply Hnone.
  - case_if; [|by apply Hnone]. unfold completes. cbn. split_and!; try done. lia.
Qed.

Lemma run_completes ops : forall tsx, completes tsx (fst (tsx_run tsx ops)) (snd (tsx_run tsx ops)).
Proof.
  induction ops as [|op ops IH]; intros tsx; cbn [tsx_run]; [split_and!; cbn; try done; lia|].
  destruct (step_completes tsx op) as (A1 & A2 & A3). destruct (tsx_step tsx op) as [t1 e1]. cbn [fst snd] in *.
  destruct (IH t1) as (B1 & B2 & B3). destruct (tsx_run t1 ops) as [t2 e2]. cbn [fst snd] in *. unfold completes. rewrite count_app.
  destruct (ct_complete t1) eqn:E1.
  - destruct (B2 eq_refl) as [-> ->]. split_and!; [lia|intros H; destruct (A2 H) as [_ ->]; done|done].
  - rewrite (A3 eq_refl). split_and!; [lia| |intros H; rewrite (B3 H); done]. intros H. by destruct (A2 H).
Qed.

(** Whatever happens to a transaction, in any order and whatever the timer
    heap and the transport answer, its user is told of its completion at most
    once, and not before [pj_stun_client_tsx_is_complete] is true. *)
Theorem stun_tsx_completes_once rto_msec on_complete ops :
  let '(tsx, evs) := tsx_run (pj_stun_client_tsx_create rto_msec on_complete) ops in
  (count is_complete evs <= 1)%nat
  /\ (pj_stun_client_tsx_is_complete tsx = false -> count is_complete evs = 0%nat).
Proof.
  destruct (run_completes ops (pj_stun_client_tsx_create rto_msec on_complete)) as (H1 & _ & H2).
  by destruct (tsx_run _ ops) as [t e].
Qed.

(** ** The end of a transaction *)





Lemma stopped_expires envs : forall tsx, ct_retransmit_timer tsx = false -> tsx_run tsx (map TExpire envs) = (tsx, []).
Proof. induction envs as [|env envs IH]; intros tsx H; cbn [map tsx_run tsx_step]; [done|]. rewrite H. by rewrite IH. Qed.


(** The timer heap and the transport take everything. *)
Definition env_fine : tsx_env := mk_env PJ_SUCCESS PJ_SUCCESS.




(** ** The schedule of retransmissions *)

Definition msecs (n : Z) : time_val := mk_tv (n / 1000) (n mod 1000).

Lemma msecs_back n : PJ_TIME_VAL_MSEC (msecs n) = n.
Proof. unfold PJ_TIME_VAL_MSEC, msecs. cbn [sec msec]. pose proof (Z.div_mod n 1000). lia. Qed.

(** The transaction after [k] transmissions, with the timer set to [t]. *)
Definition sent (rto_msec : Z) (pkt : list Z) (k : Z) (t : time_val) : pj_stun_client_tsx :=
  mk_tsx true false true rto_msec true k t false pkt.

Lemma sent_doubles rto pkt k t : 1 <= k <= 5 -> is_u32 (2 * PJ_TIME_VAL_MSEC t) -> 0 <= PJ_TIME_VAL_MSEC t ->
  tsx_step (sent rto pkt k t) (TExpire env_fine)
  = (sent rto pkt (k + 1) (msecs (2 * PJ_TIME_VAL_MSEC t)), [EvSchedule (msecs (2 * PJ_TIME_VAL_MSEC t)); EvSend pkt]).
Proof.
  intros Hk Ht Hp. assert (Hd : retransmit_delay (set_retransmit_timer (sent rto pkt k t) false) = msecs (2 * PJ_TIME_VAL_MSEC t)).
  { unfold retransmit_delay, PJ_STUN_MAX_TRANSMIT_COUNT. cbn [ct_transmit_count ct_retransmit_time set_retransmit_timer sent].
    destruct (Z.eqb_spec k 0); [lia|]. destruct (Z.ltb_spec k (7 - 1)); [|lia].
    rewrite (u32_small (PJ_TIME_VAL_MSEC t)) by (unfold is_u32 in *; lia). rewrite Z.mul_comm, u32_small by done. done. }
  cbn [tsx_step sent ct_retransmit_timer]. unfold retransmit_timer_callback. cbn [ct_transmit_count set_retransmit_timer].
  change (mk_tsx true false true rto false k t false pkt) with (set_retransmit_timer (sent rto pkt k t) false).
  unfold tsx_transmit_msg. rewrite Hd. generalize (msecs (2 * PJ_TIME_VAL_MSEC t)). intros d. cbn -[u32].
  rewrite (u32_small (k + 1)) by (unfold is_u32; lia).
  destruct (Z.leb_spec PJ_STUN_MAX_TRANSMIT_COUNT k); [unfold PJ_STUN_MAX_TRANSMIT_COUNT in *; lia|reflexivity].
Qed.

(** The last transmission is followed by the time-out. *)
Lemma sent_last rto pkt t :
  tsx_step (sent rto pkt 6 t) (TExpire env_fine)
  = (sent rto pkt 7 (msecs PJ_STUN_TIMEOUT_VALUE), [EvSchedule (msecs PJ_STUN_TIMEOUT_VALUE); EvSend pkt]).
Proof. reflexivity. Qed.

Lemma sent_first rto pkt : pkt <> [] ->
  tsx_step (pj_stun_client_tsx_create rto true) (TSend true pkt env_fine)
  = (sent rto pkt 1 (mk_tv 0 rto), [EvSchedule (mk_tv 0 rto); EvSend pkt]).
Proof. by destruct pkt. Qed.

Lemma tsx_run_cons tsx op ops : tsx_run tsx (op :: ops)
  = (fst (tsx_run (fst (tsx_step tsx op)) ops), snd (tsx_step tsx op) ++ snd (tsx_run (fst (tsx_step tsx op)) ops)).
Proof. cbn [tsx_run]. destruct (tsx_step tsx op) as [t e]. cbn [fst snd]. by destruct (tsx_run t ops). Qed.

(** Without a response and without errors a request is sent seven times: the
    interval before the first retransmission is the configured one, it doubles
    with each retransmission up to 32 times that, and 1600 ms after the last
    transmission the transaction ends with a time-out. *)
Theorem stun_tsx_schedule rto_msec pkt : pkt <> [] -> 0 <= rto_msec -> rto_msec * 32 < 2 ^ 32 ->
  snd (tsx_run (pj_stun_client_tsx_create rto_msec true) (TSend true pkt env_fine :: repeat (TExpire env_fine) 7))
  = concat (map (fun d => [EvSchedule d; EvSend pkt])
      (mk_tv 0 rto_msec :: map msecs [rto_msec * 2; rto_msec * 4; rto_msec * 8; rto_msec * 16; rto_msec * 32; PJ_STUN_TIMEOUT_VALUE]))
    ++ [EvComplete PJNATH_ESTUNTIMEDOUT None].
Proof.
  intros Hp H0 H32. cbn [repeat]. rewrite tsx_run_cons, sent_first by done. cbn [fst snd].
  assert (Hfirst : PJ_TIME_VAL_MSEC (mk_tv 0 rto_msec) = rto_msec) by (unfold PJ_TIME_VAL_MSEC; cbn [sec msec]; lia).
  do 5 (rewrite tsx_run_cons, sent_doubles by (rewrite ?Hfirst, ?msecs_back; unfold is_u32; lia); cbn [fst snd];
        rewrite ?Hfirst, ?msecs_back).
  rewrite tsx_run_cons. change (1 + 1 + 1 + 1 + 1 + 1) with 6. rewrite sent_last. cbn [fst snd].
  replace (2 * (2 * (2 * (2 * (2 * rto_msec))))) with (rto_msec * 32) by lia.
  replace (2 * (2 * (2 * (2 * rto_msec)))) with (rto_msec * 16) by lia. replace (2 * (2 * (2 * rto_msec))) with (rto_msec * 8) by lia.
  replace (2 * (2 * rto_msec)) with (rto_msec * 4) by lia. replace (2 * rto_msec) with (rto_msec * 2) by lia. reflexivity.
Qed.

Lemma stun_tsx_schedule_witness :
  snd (tsx_run (pj_stun_client_tsx_create 100 true) (TSend true [0; 1] env_fine :: repeat (TExpire env_fine) 7))
  = concat (map (fun d => [EvSchedule d; EvSend [0; 1]])
      (mk_tv 0 100 :: map msecs [100 * 2; 100 * 4; 100 * 8; 100 * 16; 100 * 32; PJ_STUN_TIMEOUT_VALUE]))
    ++ [EvComplete PJNATH_ESTUNTIMEDOUT None].
Proof. apply (stun_tsx_schedule 100 [0; 1]); [done|lia|lia]. Defined.

(** ** Defects *)

(** An error response with a code up to 200 stops the retransmissions, and with
    them the only timer: the transaction never ends.  A code of 201 to 299 ends
    it, while the comment asks for all codes below 300 to be discarded. *)
Definition error_response (code : Z) : pj_stun_msg :=
  mk_msg (mk_mhdr 0x0111 8 PJ_STUN_MAGIC []) [ErrcodeAttr (INIT_ATTR PJ_STUN_ATTR_ERROR_CODE 4) code []].

Lemma provisional_never_ends envs :
  let '(tsx, evs) := tsx_run (pj_stun_client_tsx_create 100 true)
                       (TSend true [0; 1] env_fine :: TRxMsg (error_response 100) :: map TExpire envs) in
  pj_stun_client_tsx_is_complete tsx = false /\ ct_retransmit_timer tsx = false /\ count is_complete evs = 0%nat.
Proof. do 2 rewrite tsx_run_cons. rewrite stopped_expires by done. done. Qed.

Lemma response_299_completes :
  pj_stun_client_tsx_is_complete (fst (tsx_run (pj_stun_client_tsx_create 100 true)
    [TSend true [0; 1] env_fine; TRxMsg (error_response 299)])) = true.
Proof. vm_compute. reflexivity. Qed.
