(* ===== verification/StunReject.v ===== *)
(** * Requests that fail authentication

    What [pj_stun_authenticate_request] ([StunAuth]) answers to a request it
    rejects, and what the client transaction ([StunTsx]) makes of the answer. *)

From Stdlib Require Import ZArith Lia Bool String.
From stdpp Require Import base list numbers option.
From S2P Require Import Prelude.
From S2P Require Import PjString.
From S2P Require Import Words.
From S2P Require Import Md5.
From S2P Require Import StunMsg.
From S2P Require Import StunCodec.
From S2P Require Import StunRoundtrip.
From S2P Require Import StunAuth.
From S2P Require Import StunTsx.
Local Open Scope Z_scope.

(** A rejection carries one of three codes, and the realm and nonce of the
    credential. *)
Definition rejects_for {A} (realm nonce : pj_str) (r : auth A) : Prop :=
  match r with
  | Reject i code _ =>
      (code = PJ_STUN_SC_BAD_REQUEST \/ code = PJ_STUN_SC_UNAUTHORIZED \/ code = PJ_STUN_SC_STALE_NONCE)
      /\ ci_realm i = realm /\ ci_nonce i = nonce
  | Leave _ => False
  | _ => True
  end.

Lemma rejects_for_bind {A B} realm nonce (r : auth A) (k : A -> auth B) (P : A -> Prop) :
  rejects_for realm nonce r -> (forall a, r = Pass a -> P a) -> (forall a, P a -> rejects_for realm nonce (k a)) ->
  rejects_for realm nonce (abind r k).
Proof. destruct r; cbn; auto. Qed.

Lemma rejects_for_string realm nonce a : rejects_for realm nonce (alift (string_of a)).
Proof. by destruct a. Qed.

Lemma rejects_for_mac realm nonce env key pkt pos beyond : rejects_for realm nonce (alift (packet_mac env key pkt pos beyond)).
Proof. unfold packet_mac, slice. by destruct (_ <=? _)%nat; cbn [rbind]; [destruct (_ <=? _)%nat|]. Qed.

Section Stages.
Context (env : stun_env) (md5ctx : pj_md5_context) (pkt : list Z) (msg : pj_stun_msg) (c : static_cred) (realm nonce : pj_str).

Lemma term_rejects i arealm anonce : ci_realm i = realm -> ci_nonce i = nonce ->
  rejects_for realm nonce (auth_term i arealm anonce).
Proof.
  intros Hr Hn. unfold auth_term. destruct (nonempty (ci_realm i)).
  - destruct arealm as [a|]; [|cbn; auto].
    destruct anonce, (nonempty (ci_nonce i)); try (cbn; by auto);
      (eapply (rejects_for_bind _ _ _ _ (fun _ => True)); [apply rejects_for_string|done|intros ? _]; case_match; cbn; auto).
  - destruct arealm; [done|]. case_match; cbn; auto.
Qed.

Lemma nonce_rejects i user arealm anonce : ci_realm i = realm -> ci_nonce i = nonce ->
  rejects_for realm nonce (auth_nonce msg (StaticCred c) i user arealm anonce).
Proof.
  intros Hr Hn. unfold auth_nonce. destruct anonce as [a|]; [|done].
  eapply (rejects_for_bind _ _ _ _ (fun _ => True)); [apply rejects_for_string|done|intros ? _]. cbn [abind]. case_match; cbn; auto.
Qed.

Lemma stages_reject info : ci_realm info = realm -> ci_nonce info = nonce ->
  rejects_for realm nonce (auth_stages env md5ctx pkt msg (StaticCred c) info).
Proof.
  intros Hr Hn. unfold auth_stages. destruct (scan_msgint _ _ _) as [[[mi|] pos] beyond]; [|case_match; cbn; auto].
  destruct (pj_stun_msg_find_attr msg PJ_STUN_ATTR_USERNAME 0); [|cbn; auto]. unfold reject_if. destruct (_ && _); [cbn; auto|].
  eapply (rejects_for_bind _ _ _ _ (fun _ => True)); [apply rejects_for_string|done|intros user _].
  eapply (rejects_for_bind _ _ _ _ (fun i => ci_realm i = realm /\ ci_nonce i = nonce)).
  { unfold auth_user. case_match; cbn; auto. }
  { unfold auth_user. intros i. case_match; [|discriminate]. by intros [= <-]. }
  intros i [Hr' Hn']. eapply (rejects_for_bind _ _ _ _ (fun _ => True)); [by apply term_rejects|done|intros _ _].
  eapply (rejects_for_bind _ _ _ _ (fun _ => True)); [by apply nonce_rejects|done|intros _ _].
  eapply (rejects_for_bind _ _ _ _ (fun _ => True)); [|done|intros d _].
  { apply rejects_for_mac. }
  eapply (rejects_for_bind _ _ _ _ (fun _ => True)); [by destruct mi|done|intros m _]. case_match; cbn; auto.
Qed.
End Stages.

(** ** The challenge *)

(** What a message holds as the string attribute of a type. *)
Definition holds_string (msg : pj_stun_msg) (t : Z) (v : option pj_str) : Prop :=
  match v with
  | Some v => exists ah, pj_stun_msg_find_attr msg t 0 = Some (StringAttr ah v)
  | None => pj_stun_msg_find_attr msg t 0 = None
  end.

(** Realm and nonce of the challenge: none in a 400; otherwise the realm of a
    long-term credential, and the nonce of the credential, for which a long-term
    one without a nonce has a fixed text. *)
Definition challenge_realm (c : static_cred) (code : Z) : option pj_str :=
  if (code =? PJ_STUN_SC_BAD_REQUEST) || negb (nonempty (sc_realm c)) then None else Some (sc_realm c).
Definition challenge_nonce (c : static_cred) (code : Z) : option pj_str :=
  if code =? PJ_STUN_SC_BAD_REQUEST then None
  else if nonempty (sc_nonce c) then Some (sc_nonce c)
  else if nonempty (sc_realm c) then Some (cstr "pjstun") else None.

(** What the response to a rejected request holds. *)
Definition challenges (msg : pj_stun_msg) (c : static_cred) (code : Z) (resp : pj_stun_msg) : Prop :=
  let h := msg_hdr msg in
  PJ_STUN_IS_ERROR_RESPONSE (mh_type (msg_hdr resp)) = true
  /\ PJ_STUN_GET_METHOD (mh_type (msg_hdr resp)) = PJ_STUN_GET_METHOD (mh_type h)
  /\ mh_magic (msg_hdr resp) = mh_magic h /\ mh_tsx_id (msg_hdr resp) = mh_tsx_id h
  /\ err_code_of resp = Some code
  /\ holds_string resp PJ_STUN_ATTR_REALM (challenge_realm c code)
  /\ holds_string resp PJ_STUN_ATTR_NONCE (challenge_nonce c code).

(** The type of an error response. *)
Lemma error_type t : is_u16 t -> PJ_STUN_IS_REQUEST t = true ->
  Z.lor t 0x0110 <> 0 /\ is_u16 (Z.lor t 0x0110) /\ PJ_STUN_IS_ERROR_RESPONSE (Z.lor t 0x0110) = true
  /\ PJ_STUN_GET_METHOD (Z.lor t 0x0110) = PJ_STUN_GET_METHOD t.
Proof.
  intros Ht Hr. unfold PJ_STUN_IS_REQUEST in Hr. apply Z.eqb_eq in Hr.
  assert (He : Z.land (Z.lor t 0x0110) 0x0110 = 0x0110) by (rewrite Z.land_lor_distr_l, Hr; reflexivity).
  split_and!.
  - intros H0. rewrite H0 in He. discriminate.
  - rewrite <- Z.lxor_lor by done. apply u16_lxor; [done|unfold is_u16; lia].
  - unfold PJ_STUN_IS_ERROR_RESPONSE. by rewrite He.
  - unfold PJ_STUN_GET_METHOD. rewrite Z.land_lor_distr_l. change (Z.land 0x0110 0xFEEF) with 0. apply Z.lor_0_r.
Qed.

(** The reason of the three codes is in the table. *)
Lemma known_reason code text : code = PJ_STUN_SC_BAD_REQUEST \/ code = PJ_STUN_SC_UNAUTHORIZED \/ code = PJ_STUN_SC_STALE_NONCE ->
  exists reason, pj_stun_errcode_attr_create code text
    = Some (PJ_SUCCESS, Some (ErrcodeAttr (INIT_ATTR PJ_STUN_ATTR_ERROR_CODE (4 + Z.of_nat (length reason))) code reason)).
Proof.
  intros H. unfold pj_stun_errcode_attr_create. assert (Hc0 : (code =? 0) = false) by (by destruct H as [->|[->| ->]]).
  rewrite Hc0. destruct text as [s|]; [by exists s|].
  assert (exists x l, pj_stun_get_err_reason code = Some (x :: l)) as (x & l & ->)
    by (destruct H as [->|[->| ->]]; eexists _, _; vm_compute; reflexivity).
  by exists (x :: l).
Qed.

Lemma challenge_ok msg c code text : is_u16 (mh_type (msg_hdr msg)) -> PJ_STUN_IS_REQUEST (mh_type (msg_hdr msg)) = true ->
  code = PJ_STUN_SC_BAD_REQUEST \/ code = PJ_STUN_SC_UNAUTHORIZED \/ code = PJ_STUN_SC_STALE_NONCE ->
  exists resp, create_challenge msg code text (sc_realm c) (sc_nonce c) = Some (PJ_SUCCESS, Some resp) /\ challenges msg c code resp.
Proof.
  intros Ht Hr Hcode. destruct (error_type _ Ht Hr) as (Hnz & Hu & He & Hm).
  destruct (known_reason code (cstr <$> text) Hcode) as [reason Ereason].
  assert (Hc0 : (code =? 0) = false) by (by destruct Hcode as [->|[->| ->]]).
  unfold create_challenge, pj_stun_msg_create_response. rewrite Hr, Hc0. cbn [negb]. unfold pj_stun_msg_create, pj_stun_msg_init.
  rewrite (proj2 (Z.eqb_neq _ _) Hnz), u16_small by done. unfold pj_stun_msg_add_errcode_attr. rewrite Ereason. cbn [Z.eqb PJ_SUCCESS].
  clear Ereason Hc0. destruct Hcode as [->|[->| ->]], (sc_realm c) as [|r realm] eqn:Er, (sc_nonce c) as [|n nonce] eqn:En;
    (eexists; split; [reflexivity|]); unfold challenges, challenge_realm, challenge_nonce; rewrite Er, En; (split; [exact He|]); (split; [exact Hm|]);
    (split; [reflexivity|]); (split; [reflexivity|]); (split; [reflexivity|]);
    (split; (reflexivity || (eexists; reflexivity))).
Qed.

(** ** Rejection *)

(** C14. A request that a static credential does not authenticate is answered
    with an error response for the same transaction and method, whose
    ERROR-CODE is 400, 401 or 438 and gives the status returned.  A 400 carries
    neither REALM nor NONCE.  Another response carries REALM exactly when the
    credential has a realm (is a long-term one), and as NONCE the credential's
    nonce, or, when it has none, a fixed text for a long-term credential and
    nothing for a short-term one.  The client transaction that receives the
    response completes with that status. *)
Theorem stun_auth_rejection env md5ctx pkt pkt_len msg c r rto request :
  is_u16 (mh_type (msg_hdr msg)) -> PJ_STUN_IS_REQUEST (mh_type (msg_hdr msg)) = true -> pkt_len <> 0 -> request <> [] ->
  pj_stun_authenticate_request env md5ctx pkt pkt_len msg (StaticCred c) true = Ok r -> ar_status r <> PJ_SUCCESS ->
  exists code resp, ar_status r = PJ_STATUS_FROM_STUN_CODE code /\ ar_response r = Some resp
    /\ (code = PJ_STUN_SC_BAD_REQUEST \/ code = PJ_STUN_SC_UNAUTHORIZED \/ code = PJ_STUN_SC_STALE_NONCE)
    /\ challenges msg c code resp
    /\ List.filter is_complete (snd (tsx_run (pj_stun_client_tsx_create rto true) [TSend true request env_fine; TRxMsg resp]))
       = [EvComplete (ar_status r) (Some resp)].
Proof.
  intros Ht Hr Hpl Hreq E Hst. unfold pj_stun_authenticate_request, cred_info in E. rewrite Hr in E.
  rewrite (proj2 (Z.eqb_neq _ _) Hpl) in E. cbn [Z.eqb negb andb] in E.
  pose proof (stages_reject env md5ctx pkt msg c (sc_realm c) (sc_nonce c) (mk_cinfo (sc_realm c) [] (sc_nonce c) []) eq_refl eq_refl) as Hrej.
  destruct (auth_stages _ _ _ _ _ _) as [i|i code text|st|]; cbn [rejects_for] in Hrej; [by injection E as <-| |done|discriminate].
  destruct Hrej as (Hcode & Hi1 & Hi2). destruct (challenge_ok msg c code text Ht Hr Hcode) as (resp & Ec & Hch).
  rewrite Hi1, Hi2, Ec in E. injection E as <-. exists code, resp. cbn [ar_status ar_response]. split_and!; try done.
  rewrite tsx_run_cons, sent_first by done. cbn [fst snd]. rewrite tsx_run_cons. cbn [tsx_step]. unfold pj_stun_client_tsx_on_rx_msg.
  destruct Hch as (He & _ & _ & _ & Hcd & _). rewrite He, andb_false_r, Hcd.
  destruct Hcode as [->|[->| ->]]; reflexivity.
Qed.

(** A request without MESSAGE-INTEGRITY, and a long-term credential. *)
Definition bare_request : pj_stun_msg := mk_msg (mk_mhdr 1 0 PJ_STUN_MAGIC (replicate 12 5)) [].
Definition rejection_cred : static_cred := mk_static (cstr "realm") (cstr "user") PJ_STUN_PASSWD_PLAIN (cstr "pass") [].
Definition challenged : auth_result :=
  match pj_stun_authenticate_request (sample_env LittleEndian) wild_md5 (replicate 20 0) 20 bare_request (StaticCred rejection_cred) true with
  | Ok r => r
  | _ => mk_ar PJ_SUCCESS None None
  end.

Lemma stun_auth_rejection_witness :
  exists code resp, ar_status challenged = PJ_STATUS_FROM_STUN_CODE code /\ ar_response challenged = Some resp
    /\ (code = PJ_STUN_SC_BAD_REQUEST \/ code = PJ_STUN_SC_UNAUTHORIZED \/ code = PJ_STUN_SC_STALE_NONCE)
    /\ challenges bare_request rejection_cred code resp
    /\ List.filter is_complete (snd (tsx_run (pj_stun_client_tsx_create 100 true) [TSend true [1; 2] env_fine; TRxMsg resp]))
       = [EvComplete (ar_status challenged) (Some resp)].
Proof.
  apply (stun_auth_rejection (sample_env LittleEndian) wild_md5 (replicate 20 0) 20 bare_request rejection_cred challenged 100 [1; 2]);
    [unfold is_u16; cbn; lia|reflexivity|done|done|vm_compute; reflexivity|vm_compute; discriminate].
Defined.
