(* ===== verification/Dns.v ===== *)
(** * DNS packets

    Model of [pjlib-util/src/pjlib-util/dns.c]: queries, the parser of packets
    with its decompression of names, and the copy of parsed packets.  Memory is
    the list of the bytes from the packet on, of which the first [size] are the
    packet; a read behind the list is the outcome [Outside], a loop that has
    used up its rounds [Spinning].  Positions are offsets from the packet. *)

From Stdlib Require Import ZArith Lia Bool String.
From stdpp Require Import base list numbers.
From S2P Require Import Prelude.
From S2P Require Import PjString.
From S2P Require Import Words.
From S2P Require Import Blocks.
Local Open Scope Z_scope.

Declare Scope dns_scope.
Delimit Scope dns_scope with dns.
Local Open Scope dns_scope.

(** ** Constants (dns.h, pjlib-util/errno.h, pjlib-util/config.h) *)

Definition PJ_DNS_TYPE_A : Z := 1.
Definition PJ_DNS_TYPE_NS : Z := 2.
Definition PJ_DNS_TYPE_CNAME : Z := 5.
Definition PJ_DNS_TYPE_PTR : Z := 12.
Definition PJ_DNS_TYPE_MX : Z := 15.
Definition PJ_DNS_TYPE_TXT : Z := 16.
Definition PJ_DNS_TYPE_AAAA : Z := 28.
Definition PJ_DNS_TYPE_SRV : Z := 33.
Definition PJ_DNS_TYPE_NAPTR : Z := 35.
Definition PJ_DNS_MAX_NAMES_IN_NAMETABLE : nat := 16.
Definition PJ_DNS_NO_QD : Z := 1.
Definition PJ_DNS_NO_ANS : Z := 2.
Definition PJ_DNS_NO_NS : Z := 4.
Definition PJ_DNS_NO_AR : Z := 8.
Definition PJ_DNS_SET_RD (on : Z) : Z := u16 (Z.shiftl on 8).

Definition PJLIB_UTIL_EDNSQRYTOOSMALL : pj_status_t := 320040.
Definition PJLIB_UTIL_EDNSINSIZE : pj_status_t := 320041.
Definition PJLIB_UTIL_EDNSINCLASS : pj_status_t := 320042.
Definition PJLIB_UTIL_EDNSINNAMEPTR : pj_status_t := 320043.

Definition pj_dns_get_type_name (type : Z) : string :=
  (if (type =? PJ_DNS_TYPE_A)%Z then "A"
   else if (type =? PJ_DNS_TYPE_AAAA)%Z then "AAAA"
   else if (type =? PJ_DNS_TYPE_SRV)%Z then "SRV"
   else if (type =? PJ_DNS_TYPE_NS)%Z then "NS"
   else if (type =? PJ_DNS_TYPE_CNAME)%Z then "CNAME"
   else if (type =? PJ_DNS_TYPE_PTR)%Z then "PTR"
   else if (type =? PJ_DNS_TYPE_MX)%Z then "MX"
   else if (type =? PJ_DNS_TYPE_TXT)%Z then "TXT"
   else if (type =? PJ_DNS_TYPE_NAPTR)%Z then "NAPTR"
   else "(Unknown)")%string.

(** ** Parsed packets *)

Record pj_dns_hdr := mk_dhdr {
  dh_id : Z; dh_flags : Z; dh_qdcount : Z; dh_anscount : Z; dh_nscount : Z; dh_arcount : Z
}.

Record pj_dns_parsed_query := mk_query { q_name : pj_str; q_type : Z; q_dnsclass : Z }.

(** The union; [cname], [ns] and [ptr] have the same layout. *)
Inductive rdata :=
  | RdNone
  | RdSrv (prio weight port : Z) (target : pj_str)
  | RdName (name : pj_str)
  | RdA (ip_addr : list Z)
  | RdAaaa (ip_addr : list Z).

Record pj_dns_parsed_rr := mk_rr {
  rr_name : pj_str; rr_type : Z; rr_dnsclass : Z; rr_ttl : Z; rr_rdlength : Z;
  rr_data : option (list Z); rr_rdata : rdata
}.

Record pj_dns_parsed_packet := mk_packet {
  p_hdr : pj_dns_hdr; p_q : list pj_dns_parsed_query; p_ans : list pj_dns_parsed_rr;
  p_ns : list pj_dns_parsed_rr; p_arr : list pj_dns_parsed_rr
}.

(** ** Queries *)

Definition write16 (val : Z) : list Z := [u8 (Z.shiftr val 8); u8 (Z.land val 0xFF)].

(** A label as the loop writes it: its length in one byte, and its characters. *)
Definition put_label (label : list Z) : list Z := u8 (Z.of_nat (length label)) :: label.

(** The loop over the name; [cur] is the label between the two pointers.  A dot
    at the end of the name ends the loop without another label. *)
Fixpoint put_labels (cur name : list Z) : list Z :=
  match name with
  | [] => match cur with [] => [] | _ => put_label cur end
  | c :: name => if c =? 46 then put_label cur ++ put_labels [] name else put_labels (cur ++ [c]) name
  end.

(** The bytes in the order they are written. *)
Definition query_bytes (id qtype : Z) (name : pj_str) : list Z :=
  write16 id ++ write16 (u16 (PJ_DNS_SET_RD 1)) ++ write16 1 ++ [0; 0; 0; 0; 0; 0]
  ++ put_labels [] name ++ [0] ++ write16 (u16 qtype) ++ write16 1.

Inductive made := Made (st : pj_status_t) (packet : list Z) (size : Z) | MadeOverrun.

(** [packet] is the buffer and [size] the size the caller passes. *)
Definition pj_dns_make_query (packet : list Z) (size id qtype : Z) (name : pj_str) : made :=
  if qtype =? 0 then Made PJ_EINVAL packet size
  else
    let d := 12 + Z.of_nat (length name) + 4 in
    if size <? d then Made PJLIB_UTIL_EDNSQRYTOOSMALL packet size
    else
      let bytes := query_bytes id qtype name in
      if (length bytes <=? length packet)%nat
      then Made PJ_SUCCESS (splice packet 0 bytes) (Z.of_nat (length bytes))
      else MadeOverrun.

(** ** Reading *)

Inductive dres (A : Type) := Got (a : A) | Failed (st : pj_status_t) | Outside | Spinning.
Arguments Got {A}. Arguments Failed {A}. Arguments Outside {A}. Arguments Spinning {A}.

Definition dbind {A B} (r : dres A) (k : A -> dres B) : dres B :=
  match r with Got a => k a | Failed st => Failed st | Outside => Outside | Spinning => Spinning end.
Notation "'get!' x ':=' e 'in' k" := (dbind e (fun x => k))
  (at level 10, x pattern, e at level 200, k at level 200) : dns_scope.

Section Parse.
(** The memory, and [max - pkt]. *)
Context (pkt : list Z) (size : nat).

Definition peek (p : nat) : dres Z :=
  match pkt !! p with Some b => Got b | None => Outside end.
Definition copy (p n : nat) : dres (list Z) :=
  if (p + n <=? length pkt)%nat then Got (take n (drop p pkt)) else Outside.

(** [pj_memcpy] into an integer and [pj_ntohs] or [pj_ntohl]. *)
Definition read16 (p : nat) : dres Z :=
  get! a := peek p in
  get! b := peek (S p) in
  Got (a * 256 + b).
Definition read32 (p : nat) : dres Z :=
  get! a := read16 p in
  get! b := read16 (S (S p)) in
  Got (a * 65536 + b).

(** The two top bits of a length byte mark a pointer, whose offset has 14 bits. *)
Definition is_pointer (c : Z) : bool := Z.land c 0xc0 =? 0xc0.
Definition pointer_at (p : nat) : dres nat :=
  get! v := read16 p in
  Got (Z.to_nat (Z.lxor v 0xc000)).

(** The loop of [get_name_len]; [rec] is the recursive call.  The result is
    [*parsed_len] and [*name_len]. *)
Fixpoint name_len_loop (rec : nat -> dres (nat * nat)) (fuel p parsed len : nat) : dres (nat * nat) :=
  match fuel with
  | O => Spinning
  | S fuel =>
      get! c := peek p in
      if c =? 0 then Got (S parsed, len)
      else if is_pointer c then
        get! offset := pointer_at p in
        if (size <=? offset)%nat then Failed PJLIB_UTIL_EDNSINNAMEPTR
        else
          get! r := rec offset in
          Got (parsed + 2, len + snd r)%nat
      else
        let label_len := Z.to_nat c in
        if (size <? label_len)%nat then Failed PJLIB_UTIL_EDNSINNAMEPTR
        else
          let p := (p + (label_len + 1))%nat in
          get! d := peek p in
          let label_len' := if d =? 0 then label_len else S label_len in
          if (size <=? p)%nat then Failed PJLIB_UTIL_EDNSINSIZE
          else name_len_loop rec fuel p (parsed + (label_len + 1)) (len + label_len')
  end.

(** [depth] is 11 less [rec_counter]. *)
Fixpoint get_name_len_rec (depth : nat) (start : nat) : dres (nat * nat) :=
  match depth with
  | O => Failed PJLIB_UTIL_EDNSINNAMEPTR
  | S depth => name_len_loop (get_name_len_rec depth) (S size) start 0 0
  end.
Definition get_name_len : nat -> dres (nat * nat) := get_name_len_rec 11.

(** The loop of [get_name]: [name] is what has been written. *)
Fixpoint name_loop (rec : nat -> list Z -> dres (list Z)) (fuel p : nat) (name : list Z) : dres (list Z) :=
  match fuel with
  | O => Spinning
  | S fuel =>
      get! c := peek p in
      if c =? 0 then Got name
      else if is_pointer c then
        get! offset := pointer_at p in
        if (size <=? offset)%nat then Failed PJLIB_UTIL_EDNSINNAMEPTR else rec offset name
      else
        let label_len := Z.to_nat c in
        if (size <? label_len)%nat then Failed PJLIB_UTIL_EDNSINNAMEPTR
        else
          get! label := copy (S p) label_len in
          let p := (p + (label_len + 1))%nat in
          get! d := peek p in
          let name := if d =? 0 then name ++ label else name ++ label ++ [46] in
          if (size <=? p)%nat then Failed PJLIB_UTIL_EDNSINSIZE
          else name_loop rec fuel p name
  end.

Fixpoint get_name_rec (depth : nat) (start : nat) (name : list Z) : dres (list Z) :=
  match depth with
  | O => Failed PJLIB_UTIL_EDNSINNAMEPTR
  | S depth => name_loop (get_name_rec depth) (S size) start name
  end.
Definition get_name (start : nat) : dres (list Z) := get_name_rec 11 start [].

(** The length, the allocation of as many bytes and the copy: the name, the
    bytes of it in the packet and the bytes allocated ([spare] more than the
    length). *)
Definition parse_name (start spare : nat) : dres (list Z * nat * nat) :=
  get! (name_part_len, name_len) := get_name_len start in
  get! name := get_name start in
  Got (name, name_part_len, (name_len + spare)%nat).

Definition parse_query (start : nat) : dres (pj_dns_parsed_query * nat) :=
  get! (name, part, _) := parse_name start 4 in
  let p := (start + part)%nat in
  get! t := read16 p in
  get! c := read16 (p + 2) in
  Got (mk_query name t c, (part + 4)%nat).

(** The resource data of the well-known types: what is stored, and the end. *)
Definition parse_rdata (type : Z) (rdlength p : nat) : dres (option (list Z) * rdata * nat) :=
  if type =? PJ_DNS_TYPE_A then
    get! a := copy p 4 in Got (None, RdA a, (p + 4)%nat)
  else if type =? PJ_DNS_TYPE_AAAA then
    get! a := copy p 16 in Got (None, RdAaaa a, (p + 16)%nat)
  else if (type =? PJ_DNS_TYPE_CNAME) || (type =? PJ_DNS_TYPE_NS) || (type =? PJ_DNS_TYPE_PTR) then
    get! (name, part, _) := parse_name p 0 in Got (None, RdName name, (p + part)%nat)
  else if type =? PJ_DNS_TYPE_SRV then
    get! prio := read16 p in
    get! weight := read16 (p + 2) in
    get! port := read16 (p + 4) in
    get! (target, part, _) := parse_name (p + 6) 0 in
    Got (None, RdSrv prio weight port target, (p + 6 + part)%nat)
  else
    get! d := copy p rdlength in Got (Some d, RdNone, (p + rdlength)%nat).

Definition parse_rr (start : nat) : dres (pj_dns_parsed_rr * nat) :=
  get! (name, part, _) := parse_name start 4 in
  let p := (start + part)%nat in
  if (size <? p + 10)%nat then Failed PJLIB_UTIL_EDNSINSIZE
  else
    get! t := read16 p in
    get! c := read16 (p + 2) in
    if negb (c =? 1) then Failed PJLIB_UTIL_EDNSINCLASS
    else
      get! ttl := read32 (p + 4) in
      get! l := read16 (p + 8) in
      let rdlength := Z.to_nat l in
      let p := (p + 10)%nat in
      if (size <? p + rdlength)%nat then Failed PJLIB_UTIL_EDNSINSIZE
      else
        get! (data, rd, last) := parse_rdata t rdlength p in
        Got (mk_rr name t c ttl l data rd, (last - start)%nat).

(** [n] records from [start] on; the result is the records and the position
    behind them. *)
Fixpoint parse_many {A} (parse : nat -> dres (A * nat)) (n start : nat) : dres (list A * nat) :=
  match n with
  | O => Got ([], start)
  | S n =>
      get! (x, parsed_len) := parse start in
      get! (xs, last) := parse_many parse n (start + parsed_len) in
      Got (x :: xs, last)
  end.

Definition pj_dns_parse_packet : dres pj_dns_parsed_packet :=
  if (size =? 0)%nat then Failed PJ_EINVAL
  else if (size <? 12)%nat then Failed PJLIB_UTIL_EDNSINSIZE
  else
    get! id := read16 0 in
    get! flags := read16 2 in
    get! qd := read16 4 in
    get! an := read16 6 in
    get! ns := read16 8 in
    get! ar := read16 10 in
    get! (q, start) := parse_many parse_query (Z.to_nat qd) 12 in
    get! (ans, start) := parse_many parse_rr (Z.to_nat an) start in
    get! (nss, start) := parse_many parse_rr (Z.to_nat ns) start in
    get! (arr, _) := parse_many parse_rr (Z.to_nat ar) start in
    Got (mk_packet (mk_dhdr id flags qd an ns ar) q ans nss arr).
End Parse.

(** ** Copies *)

(** The search of the table, and the name the copy gets with the table after. *)
Definition apply_name_table (nametable : list pj_str) (src : pj_str) : pj_str * list pj_str :=
  match list_find (fun n => pj_stricmp n src = 0) nametable with
  | Some (_, n) => (n, nametable)
  | None =>
      (src, if (length nametable <? PJ_DNS_MAX_NAMES_IN_NAMETABLE)%nat then nametable ++ [src] else nametable)
  end.

Definition copy_query (src : pj_dns_parsed_query) (nametable : list pj_str)
    : pj_dns_parsed_query * list pj_str :=
  let '(name, nametable) := apply_name_table nametable (q_name src) in
  (mk_query name (q_type src) (q_dnsclass src), nametable).

(** Only the target of an SRV record goes through the table; the other
    alternatives of the union, and the raw data, are copied as they are. *)
Definition copy_rr (src : pj_dns_parsed_rr) (nametable : list pj_str) : pj_dns_parsed_rr * list pj_str :=
  let '(name, nametable) := apply_name_table nametable (rr_name src) in
  let '(rd, nametable) :=
    match rr_rdata src with
    | RdSrv prio weight port target =>
        if rr_type src =? PJ_DNS_TYPE_SRV then
          let '(target, nametable) := apply_name_table nametable target in
          (RdSrv prio weight port target, nametable)
        else (RdSrv prio weight port target, nametable)
    | rd => (rd, nametable)
    end in
  (mk_rr name (rr_type src) (rr_dnsclass src) (rr_ttl src) (rr_rdlength src) (rr_data src) rd, nametable).

Fixpoint copy_many {A} (copy1 : A -> list pj_str -> A * list pj_str) (l : list A) (nametable : list pj_str)
    : list A * list pj_str :=
  match l with
  | [] => ([], nametable)
  | x :: l =>
      let '(y, nametable) := copy1 x nametable in
      let '(ys, nametable) := copy_many copy1 l nametable in
      (y :: ys, nametable)
  end.

(** The first [count] elements of a section are copied unless the option says
    not to. *)
Definition copy_section {A} (copy1 : A -> list pj_str -> A * list pj_str) (options flag count : Z) (l : list A)
    (nametable : list pj_str) : list A * list pj_str :=
  if negb (count =? 0) && (Z.land options flag =? 0) then copy_many copy1 (take (Z.to_nat count) l) nametable
  else ([], nametable).

(** The counts of the copy go up by one with each element copied. *)
Definition pj_dns_packet_dup (p : pj_dns_parsed_packet) (options : Z) : pj_dns_parsed_packet :=
  let h := p_hdr p in
  let '(q, t) := copy_section copy_query options PJ_DNS_NO_QD (dh_qdcount h) (p_q p) [] in
  let '(ans, t) := copy_section copy_rr options PJ_DNS_NO_ANS (dh_anscount h) (p_ans p) t in
  let '(ns, t) := copy_section copy_rr options PJ_DNS_NO_NS (dh_nscount h) (p_ns p) t in
  let '(arr, _) := copy_section copy_rr options PJ_DNS_NO_AR (dh_arcount h) (p_arr p) t in
  let n {A} (l : list A) := u16 (Z.of_nat (length l)) in
  mk_packet (mk_dhdr (dh_id h) (dh_flags h) (n q) (n ans) (n ns) (n arr)) q ans ns arr.

(** ** Records made by hand *)

Definition pj_dns_init_srv_rr (res_name : pj_str) (dnsclass ttl prio weight port : Z) (target : pj_str)
    : pj_dns_parsed_rr :=
  mk_rr res_name PJ_DNS_TYPE_SRV (u16 dnsclass) ttl 0 None (RdSrv (u16 prio) (u16 weight) (u16 port) target).
Definition pj_dns_init_cname_rr (res_name : pj_str) (dnsclass ttl : Z) (name : pj_str) : pj_dns_parsed_rr :=
  mk_rr res_name PJ_DNS_TYPE_CNAME (u16 dnsclass) ttl 0 None (RdName name).
Definition pj_dns_init_a_rr (res_name : pj_str) (dnsclass ttl : Z) (ip_addr : list Z) : pj_dns_parsed_rr :=
  mk_rr res_name PJ_DNS_TYPE_A (u16 dnsclass) ttl 0 None (RdA ip_addr).
