(* ===== verification/DnsProps.v ===== *)
(** * What the DNS parser guarantees

    Termination, the buffers of names, the bytes it can read behind a packet,
    queries that survive the wire and copies that are equal up to the case of
    names, for the model of [Dns]. *)

From Stdlib Require Import ZArith Lia Bool String.
From stdpp Require Import base list numbers.
From S2P Require Import Prelude.
From S2P Require Import PjString.
From S2P Require Import Words.
From S2P Require Import Blocks.
From S2P Require Import Dns.
Local Open Scope Z_scope.
Local Open Scope dns_scope.

(** ** Termination *)

(** An outcome that is not a loop without end. *)
Definition ends {A} (r : dres A) : Prop := r <> Spinning.

Lemma ends_bind {A B} (r : dres A) (k : A -> dres B) : ends r -> (forall a, ends (k a)) -> ends (dbind r k).
Proof. unfold ends. destruct r; cbn [dbind]; auto; done. Qed.

Lemma ends_peek pkt p : ends (peek pkt p).
Proof. unfold peek. by destruct (pkt !! p). Qed.
Lemma ends_copy pkt p n : ends (copy pkt p n).
Proof. unfold copy. by destruct (_ <=? _)%nat. Qed.
Lemma ends_read16 pkt p : ends (read16 pkt p).
Proof. unfold read16. apply ends_bind; [apply ends_peek|intros a]. apply ends_bind; [apply ends_peek|done]. Qed.
Lemma ends_read32 pkt p : ends (read32 pkt p).
Proof. unfold read32. apply ends_bind; [apply ends_read16|intros a]. apply ends_bind; [apply ends_read16|done]. Qed.
Lemma ends_pointer pkt p : ends (pointer_at pkt p).
Proof. unfold pointer_at. apply ends_bind; [apply ends_read16|done]. Qed.

Create HintDb dns.
#[export] Hint Resolve ends_peek ends_copy ends_read16 ends_read32 ends_pointer : dns.

Ltac dbind_intro := apply ends_bind; [auto with dns|intros ?].

Lemma ends_name_len_loop pkt size rec fuel : (forall q, ends (rec q)) -> forall p parsed len,
  (size - p < fuel)%nat -> ends (name_len_loop pkt size rec fuel p parsed len).
Proof.
  intros Hrec. induction fuel as [|fuel IH]; intros p parsed len Hf; [lia|]. cbn [name_len_loop].
  dbind_intro. destruct (_ =? 0) eqn:E0; [done|]. apply Z.eqb_neq in E0. destruct (is_pointer _).
  - dbind_intro. destruct (_ <=? _)%nat; [done|]. by apply ends_bind.
  - destruct (_ <? _)%nat; [done|]. dbind_intro. destruct (Nat.leb_spec size (p + (Z.to_nat a + 1))); [done|].
    apply IH. lia.
Qed.

Lemma ends_name_len pkt size depth : forall start, ends (get_name_len_rec pkt size depth start).
Proof.
  induction depth as [|depth IH]; intros start; cbn [get_name_len_rec]; [done|]. apply ends_name_len_loop; [done|lia].
Qed.

Lemma ends_name_loop pkt size rec fuel : (forall q n, ends (rec q n)) -> forall p name,
  (size - p < fuel)%nat -> ends (name_loop pkt size rec fuel p name).
Proof.
  intros Hrec. induction fuel as [|fuel IH]; intros p name Hf; [lia|]. cbn [name_loop].
  dbind_intro. destruct (_ =? 0); [done|]. destruct (is_pointer _).
  - dbind_intro. by destruct (_ <=? _)%nat.
  - destruct (_ <? _)%nat; [done|]. dbind_intro. dbind_intro.
    destruct (Nat.leb_spec size (p + (Z.to_nat a + 1))); [done|]. apply IH. lia.
Qed.

Lemma ends_get_name pkt size depth : forall start name, ends (get_name_rec pkt size depth start name).
Proof.
  induction depth as [|depth IH]; intros start name; cbn [get_name_rec]; [done|]. apply ends_name_loop; [done|lia].
Qed.

Lemma ends_parse_name pkt size start spare : ends (parse_name pkt size start spare).
Proof.
  unfold parse_name. apply ends_bind; [apply ends_name_len|intros [part len]].
  apply ends_bind; [apply ends_get_name|done].
Qed.
#[export] Hint Resolve ends_parse_name : dns.

Lemma ends_parse_query pkt size start : ends (parse_query pkt size start).
Proof. unfold parse_query. apply ends_bind; [auto with dns|intros [[name part] alloc]]. by repeat dbind_intro. Qed.

Lemma ends_parse_rdata pkt size t l p : ends (parse_rdata pkt size t l p).
Proof.
  unfold parse_rdata. destruct (_ =? _); [by dbind_intro|]. destruct (_ =? _); [by dbind_intro|].
  destruct (_ || _); [apply ends_bind; [auto with dns|by intros [[? ?] ?]]|].
  destruct (_ =? _); [do 3 dbind_intro; apply ends_bind; [auto with dns|by intros [[? ?] ?]]|by dbind_intro].
Qed.

Lemma ends_parse_rr pkt size start : ends (parse_rr pkt size start).
Proof.
  unfold parse_rr. apply ends_bind; [auto with dns|intros [[name part] alloc]]. destruct (_ <? _)%nat; [done|].
  do 2 dbind_intro. destruct (negb _); [done|]. do 2 dbind_intro. destruct (_ <? _)%nat; [done|].
  apply ends_bind; [apply ends_parse_rdata|by intros [[? ?] ?]].
Qed.

Lemma ends_parse_many {A} (parse : nat -> dres (A * nat)) : (forall p, ends (parse p)) ->
  forall n start, ends (parse_many parse n start).
Proof.
  intros Hp n. induction n as [|n IH]; intros start; cbn [parse_many]; [done|].
  apply ends_bind; [apply Hp|intros [x k]]. apply ends_bind; [apply IH|by intros [? ?]].
Qed.

(** [pj_dns_parse_packet] returns for every packet, also one whose
    compressed names point at each other. *)
Theorem dns_parse_returns pkt size : pj_dns_parse_packet pkt size <> Spinning.
Proof.
  change (ends (pj_dns_parse_packet pkt size)). unfold pj_dns_parse_packet. destruct (_ =? _)%nat; [done|].
  destruct (_ <? _)%nat; [done|]. do 6 dbind_intro.
  apply ends_bind; [apply ends_parse_many, ends_parse_query|intros [q s1]].
  do 3 (apply ends_bind; [apply ends_parse_many, ends_parse_rr|intros [? ?]]). done.
Qed.

(** ** The buffers of names *)

(** A byte read inside the memory makes the label before it readable. *)
Lemma copy_before pkt p n d : peek pkt (p + (n + 1)) = Got d ->
  exists label, copy pkt (S p) n = Got label /\ length label = n.
Proof.
  intros Ed. assert (Hin : (p + (n + 1) < length pkt)%nat).
  { unfold peek in Ed. destruct (pkt !! _) eqn:El; [|discriminate]. by apply lookup_lt_Some in El. }
  unfold copy. destruct (Nat.leb_spec (S p + n) (length pkt)); [|lia]. eexists. split; [done|].
  rewrite length_take, length_drop. lia.
Qed.

(** The second pass writes what the first one counted. *)
Lemma name_loop_fits pkt size rec rec' fuel :
  (forall q part n, rec q = Got (part, n) -> forall nm, exists nm', rec' q nm = Got nm' /\ length nm' = (length nm + n)%nat) ->
  forall p parsed len part n name,
  name_len_loop pkt size rec fuel p parsed len = Got (part, n) ->
  exists name', name_loop pkt size rec' fuel p name = Got name' /\ (length name' + len = length name + n)%nat.
Proof.
  intros Hrec. induction fuel as [|fuel IH]; intros p parsed len part n name E; [discriminate|].
  cbn [name_len_loop name_loop] in *. destruct (peek pkt p) as [c|?| |]; cbn [dbind] in *; try discriminate.
  destruct (c =? 0); [injection E as <- <-; by exists name|].
  destruct (is_pointer c).
  - destruct (pointer_at pkt p) as [off|?| |]; cbn [dbind] in *; try discriminate.
    destruct (size <=? off)%nat; [discriminate|]. destruct (rec off) as [[pt k]|?| |] eqn:Er; cbn [dbind] in *; try discriminate.
    injection E as <- <-. destruct (Hrec off pt k Er name) as (nm' & -> & Hn). exists nm'. split; [done|]. cbn [snd]. lia.
  - destruct (size <? Z.to_nat c)%nat; [discriminate|].
    destruct (peek pkt (p + (Z.to_nat c + 1))) as [d|?| |] eqn:Ed; cbn [dbind] in *; try discriminate.
    destruct (copy_before _ _ _ _ Ed) as (label & -> & Hlab). cbn [dbind]. destruct (size <=? _)%nat; [discriminate|].
    destruct (IH _ _ _ _ _ (if d =? 0 then name ++ label else name ++ label ++ [46]) E) as (nm' & -> & Hn).
    exists nm'. split; [done|]. revert Hn. destruct (d =? 0); rewrite !length_app; cbn [length]; lia.
Qed.

Lemma get_name_fits pkt size depth : forall start part n, get_name_len_rec pkt size depth start = Got (part, n) ->
  forall nm, exists nm', get_name_rec pkt size depth start nm = Got nm' /\ length nm' = (length nm + n)%nat.
Proof.
  induction depth as [|depth IH]; intros start part n E nm; [discriminate|]. cbn [get_name_len_rec get_name_rec] in *.
  destruct (name_loop_fits _ _ _ _ _ IH _ _ _ _ _ nm E) as (nm' & -> & Hn). exists nm'. split; [done|lia].
Qed.

(** Whenever [get_name_len] succeeds, [get_name] succeeds on the same bytes
    and writes exactly as many characters as were counted: the buffer allocated
    for a name is never overrun, and the parser cannot fail between the two. *)
Theorem dns_name_fits pkt size start part n : get_name_len pkt size start = Got (part, n) ->
  exists name, get_name pkt size start = Got name /\ length name = n.
Proof. intros E. exact (get_name_fits _ _ _ _ _ _ E []). Qed.

(** "a.bc" with "bc" behind a pointer. *)
Definition pointed : list Z := [2; 98; 99; 0; 1; 97; 192; 0].
Lemma dns_name_fits_witness : exists name, get_name pointed 8 4 = Got name /\ length name = 4%nat.
Proof. apply (dns_name_fits pointed 8 4 4). vm_compute. reflexivity. Defined.

(** ** How far behind the packet the parser reads *)

(** The outcome is not a read outside the memory, and its result satisfies [P]. *)
Definition inside {A} (P : A -> Prop) (r : dres A) : Prop :=
  match r with Got a => P a | Outside => False | _ => True end.

Lemma inside_bind {A B} (P : A -> Prop) (Q : B -> Prop) r k :
  inside P r -> (forall a, P a -> inside Q (k a)) -> inside Q (dbind r k).
Proof. destruct r; cbn [inside dbind]; auto. Qed.

Lemma inside_weaken {A} (P Q : A -> Prop) r : inside P r -> (forall a, P a -> Q a) -> inside Q r.
Proof. destruct r; cbn [inside]; auto. Qed.

Section Bounded.
Context (pkt : list Z) (size : nat) (Hb : bytes_ok pkt).

Definition any {A} (_ : A) : Prop := True.
Definition is_byte (c : Z) : Prop := 0 <= c < 256.

Lemma inside_peek p : (p < length pkt)%nat -> inside is_byte (peek pkt p).
Proof.
  intros Hp. unfold peek. destruct (lookup_lt_is_Some_2 pkt p Hp) as [c Ec]. rewrite Ec. cbn [inside].
  exact (Forall_lookup_1 _ _ _ _ Hb Ec).
Qed.

Lemma inside_copy p n : (p + n <= length pkt)%nat -> inside any (copy pkt p n).
Proof. intros. unfold copy. destruct (Nat.leb_spec (p + n) (length pkt)); [done|lia]. Qed.

Lemma inside_read16 p : (p + 2 <= length pkt)%nat -> inside (fun v => 0 <= v < 65536) (read16 pkt p).
Proof.
  intros. unfold read16. eapply inside_bind; [apply inside_peek; lia|intros a Ha].
  eapply inside_bind; [apply inside_peek; lia|intros b Hc]. unfold is_byte in *. cbn [inside]. lia.
Qed.

Lemma inside_read32 p : (p + 4 <= length pkt)%nat -> inside any (read32 pkt p).
Proof.
  intros. unfold read32. eapply inside_bind; [apply inside_read16; lia|intros a Ha].
  by eapply inside_bind; [apply inside_read16; lia|].
Qed.

Lemma inside_pointer p : (p + 2 <= length pkt)%nat -> inside any (pointer_at pkt p).
Proof. intros. unfold pointer_at. by eapply inside_bind; [apply inside_read16; lia|]. Qed.

(** A length byte that is not a pointer is at most 191. *)
Lemma label_bound c : is_byte c -> is_pointer c = false -> (Z.to_nat c < 192)%nat.
Proof.
  intros Hc Hp. destruct (decide (c < 192)); [lia|exfalso]. unfold is_byte in Hc.
  assert (Hall : forallb (fun i => is_pointer (192 + Z.of_nat i)) (seq 0 64) = true) by reflexivity.
  rewrite forallb_forall in Hall. specialize (Hall (Z.to_nat (c - 192))).
  replace (192 + Z.of_nat (Z.to_nat (c - 192))) with c in Hall by lia.
  rewrite Hall in Hp; [discriminate|]. apply in_seq. lia.
Qed.

(** The farthest a name from [start] can be read, and the farthest its end. *)
Definition name_reach (start : nat) : nat := Nat.max start size + 193.
Definition name_end (start : nat) : nat := Nat.max (start + 2) (size + 1).

Lemma inside_name_len_loop rec fuel : (forall q, (q < size)%nat -> inside any (rec q)) ->
  forall start p parsed len, p = (start + parsed)%nat -> (p <= Nat.max start (size - 1))%nat ->
  (name_reach start <= length pkt)%nat ->
  inside (fun r => (start + fst r <= name_end start)%nat) (name_len_loop pkt size rec fuel p parsed len).
Proof.
  unfold name_reach, name_end. intros Hrec. induction fuel as [|fuel IH]; intros start p parsed len Ep Hp Hl; [done|].
  cbn [name_len_loop]. eapply inside_bind; [apply inside_peek; lia|intros c Hc].
  destruct (c =? 0); [cbn [inside fst]; lia|]. destruct (is_pointer c) eqn:Ei.
  - eapply inside_bind; [apply inside_pointer; lia|intros off _]. destruct (Nat.leb_spec size off); [done|].
    eapply inside_bind; [apply Hrec; lia|intros r _]. cbn [inside fst]. lia.
  - pose proof (label_bound _ Hc Ei). destruct (_ <? _)%nat; [done|].
    eapply inside_bind; [apply inside_peek; lia|intros d _]. destruct (Nat.leb_spec size (p + (Z.to_nat c + 1))); [done|].
    apply IH; lia.
Qed.

Lemma inside_name_len depth : forall start, (name_reach start <= length pkt)%nat ->
  inside (fun r => (start + fst r <= name_end start)%nat) (get_name_len_rec pkt size depth start).
Proof.
  induction depth as [|depth IH]; intros start Hl; [done|]. cbn [get_name_len_rec].
  apply inside_name_len_loop; [|lia|lia|done]. intros q Hq. eapply inside_weaken; [apply IH|done].
  unfold name_reach in *. lia.
Qed.

Lemma inside_name start spare : (name_reach start <= length pkt)%nat ->
  inside (fun r => (start + snd (fst r) <= name_end start)%nat) (parse_name pkt size start spare).
Proof.
  intros Hl. unfold parse_name. pose proof (inside_name_len 11 start Hl) as Hi. unfold get_name_len.
  destruct (get_name_len_rec pkt size 11 start) as [[part n]|?| |] eqn:E; cbn [inside dbind fst] in *; try done.
  destruct (get_name_fits _ _ _ _ _ _ E []) as (nm & En & _). unfold get_name. rewrite En. cbn [dbind inside fst snd]. lia.
Qed.

Lemma inside_query start : (name_reach start + 6 <= length pkt)%nat ->
  inside (fun r => (start + snd r <= Nat.max (start + 6) (size + 5))%nat) (parse_query pkt size start).
Proof.
  intros Hl. unfold parse_query. eapply inside_bind; [apply inside_name; lia|intros [[nm part] al]; cbn [fst snd]; intros Hpart].
  unfold name_reach, name_end in *. eapply inside_bind; [apply inside_read16; lia|intros t _].
  eapply inside_bind; [apply inside_read16; lia|intros c _]. cbn [inside snd]. lia.
Qed.

Lemma inside_rdata t l p : (p + l <= size)%nat -> (size + 209 <= length pkt)%nat ->
  inside (fun r => (p <= snd r <= size + 16)%nat) (parse_rdata pkt size t l p).
Proof.
  intros Hp Hl. unfold parse_rdata. destruct (_ =? _); [eapply inside_bind; [apply inside_copy; lia|cbn [inside snd]; lia]|].
  destruct (_ =? _); [eapply inside_bind; [apply inside_copy; lia|cbn [inside snd]; lia]|].
  destruct (_ || _).
  { eapply inside_bind; [apply inside_name; unfold name_reach; lia|intros [[nm part] al]; cbn [inside fst snd]].
    unfold name_end. lia. }
  destruct (_ =? _); [|eapply inside_bind; [apply inside_copy; lia|cbn [inside snd]; lia]].
  do 3 (eapply inside_bind; [apply inside_read16; lia|intros ? _]).
  eapply inside_bind; [apply inside_name; unfold name_reach; lia|intros [[nm part] al]; cbn [inside fst snd]].
  unfold name_end. lia.
Qed.

Lemma inside_rr start : (name_reach start <= length pkt)%nat -> (size + 209 <= length pkt)%nat ->
  inside (fun r => (start + snd r <= size + 16)%nat) (parse_rr pkt size start).
Proof.
  intros Hl Hs. unfold parse_rr. eapply inside_bind; [by apply inside_name|intros [[nm part] al] Hpart; cbn [fst snd] in Hpart].
  destruct (Nat.ltb_spec size (start + part + 10)); [done|].
  eapply inside_bind; [apply inside_read16; lia|intros t _]. eapply inside_bind; [apply inside_read16; lia|intros c _].
  destruct (negb _); [done|]. eapply inside_bind; [apply inside_read32; lia|intros ttl _].
  eapply inside_bind; [apply inside_read16; lia|intros l Hrl].
  destruct (Nat.ltb_spec size (start + part + 10 + Z.to_nat l)); [done|].
  eapply inside_bind; [apply inside_rdata; lia|intros [[d rd] last]; cbn [inside fst snd]]. lia.
Qed.

(** Records one behind the other, where one that starts within [B k] ends
    within [B (S k)]. *)
Lemma inside_many {A} (parse : nat -> dres (A * nat)) (B : nat -> nat) n : forall k start,
  (forall i s, (k <= i < k + n)%nat -> (s <= B i)%nat -> inside (fun r => (s + snd r <= B (S i))%nat) (parse s)) ->
  (start <= B k)%nat -> inside (fun r => (snd r <= B (k + n))%nat) (parse_many parse n start).
Proof.
  induction n as [|n IH]; intros k start Hstep Hs; cbn [parse_many]; [cbn [inside snd]; by rewrite Nat.add_0_r|].
  eapply inside_bind; [apply (Hstep k); [lia|done]|intros [x len] Hx; cbn [snd] in Hx].
  eapply inside_bind; [apply (IH (S k)); [intros i s Hi; apply Hstep; lia|done]|].
  intros [xs last]. cbn [inside snd]. by rewrite Nat.add_succ_r.
Qed.

Lemma inside_packet qd : read16 pkt 4 = Got qd -> (12 <= size)%nat -> (size + Nat.max (6 * Z.to_nat qd) 16 + 193 <= length pkt)%nat ->
  inside any (pj_dns_parse_packet pkt size).
Proof.
  intros Eq H12 Hl. unfold pj_dns_parse_packet. destruct (_ =? _)%nat; [done|]. destruct (_ <? _)%nat; [done|].
  do 2 (eapply inside_bind; [apply inside_read16; lia|intros ? _]). rewrite Eq. cbn [dbind].
  do 3 (eapply inside_bind; [apply inside_read16; lia|intros ? _]).
  eapply inside_bind.
  { apply (inside_many _ (fun k => size + 6 * k)%nat (Z.to_nat qd) 0 12); [|lia].
    intros i s Hi Hs. eapply inside_weaken; [apply inside_query; unfold name_reach; lia|intros r; cbn beta; lia]. }
  intros [q s1] Hs1. cbn [snd] in Hs1.
  assert (Hrr : forall n s, (s <= size + Nat.max (6 * Z.to_nat qd) 16)%nat ->
    inside (fun r => (snd r <= size + Nat.max (6 * Z.to_nat qd) 16)%nat) (parse_many (parse_rr pkt size) n s)).
  { intros n s Hs. apply (inside_many _ (fun _ => size + Nat.max (6 * Z.to_nat qd) 16)%nat n 0); [|done].
    intros i s' _ Hs'. eapply inside_weaken; [apply inside_rr; unfold name_reach; lia|intros r; cbn beta; lia]. }
  eapply inside_bind; [apply Hrr; lia|intros [? s2] Hs2; cbn [snd] in Hs2].
  eapply inside_bind; [by apply Hrr|intros [? s3] Hs3; cbn [snd] in Hs3].
  eapply inside_bind; [by apply Hrr|intros [? s4] _]. done.
Qed.
End Bounded.

(** C29. A packet of [size] bytes with [qd] questions is parsed without reading
    behind the [max (6 * qd) 16 + 193] bytes that follow it, whatever the bytes
    are.  The bound is not zero, because question records, labels and the data
    of A, AAAA and SRV records are not checked against the end of the packet. *)
Theorem dns_reads_bounded pkt size qd : bytes_ok pkt -> read16 pkt 4 = Got qd -> (12 <= size)%nat ->
  (size + Nat.max (6 * Z.to_nat qd) 16 + 193 <= length pkt)%nat -> pj_dns_parse_packet pkt size <> Outside.
Proof. intros Hb Eq H12 Hl E. pose proof (inside_packet pkt size Hb qd Eq H12 Hl) as H. by rewrite E in H. Qed.

(** Three answers: a TXT record of 180 bytes, an AAAA record without data, which
    ends the packet, and one in the memory [behind] the packet. *)
Definition empty_aaaa (behind : list Z) : list Z :=
  [0; 0; 0; 0; 0; 0; 0; 3; 0; 0; 0; 0] ++ ([0; 0; 16; 0; 1; 0; 0; 0; 0; 0; 180] ++ repeat 7 180)
  ++ [0; 0; 28; 0; 1; 0; 0; 0; 0; 0; 0] ++ behind.
Lemma dns_reads_bounded_witness : pj_dns_parse_packet (empty_aaaa (repeat 191 209)) 214 <> Outside.
Proof.
  apply (dns_reads_bounded _ 214 0); [apply (bool_decide_unpack _); vm_compute; exact I|reflexivity|lia|].
  apply Nat.leb_le. vm_compute. reflexivity.
Defined.

(** All the bytes up to the bound can be read. *)
Lemma reads_behind_packet : pj_dns_parse_packet (empty_aaaa (repeat 191 208)) 214 = Outside
  /\ pj_dns_parse_packet (empty_aaaa (repeat 191 209)) 214 = Failed PJLIB_UTIL_EDNSINSIZE.
Proof. vm_compute. auto. Qed.

(** ** Queries that survive the wire *)

(** Labels that can stand in a query: not empty, no dot inside, too short to be
    taken for a pointer. *)
Definition label_ok (l : list Z) : Prop := l <> [] /\ (46 ∉ l) /\ (length l < 192)%nat /\ bytes_ok l.

#[global] Instance label_ok_dec l : Decision (label_ok l).
Proof. unfold label_ok, bytes_ok. apply _. Defined.

(** The name of a list of labels, and its form on the wire. *)
Fixpoint dotted (labels : list (list Z)) : pj_str :=
  match labels with
  | [] => []
  | [l] => l
  | l :: labels => l ++ 46 :: dotted labels
  end.
Definition wire (labels : list (list Z)) : list Z := concat (map put_label labels).

Lemma put_labels_word l : forall cur name, 46 ∉ l -> put_labels cur (l ++ name) = put_labels (cur ++ l) name.
Proof.
  induction l as [|c l IH]; intros cur name Hl; cbn [app put_labels]; [by rewrite app_nil_r|].
  rewrite not_elem_of_cons in Hl. destruct (Z.eqb_spec c 46); [subst; tauto|].
  rewrite IH by tauto. by rewrite <- app_assoc.
Qed.

Lemma put_labels_wire labels : Forall label_ok labels -> put_labels [] (dotted labels) = wire labels.
Proof.
  unfold wire. induction labels as [|l labels IH]; intros HF; [done|].
  apply list.Forall_cons in HF as [(Hne & Hdot & _) HF]. destruct labels as [|l' labels].
  - cbn [dotted map concat]. rewrite <- (app_nil_r l) at 1. rewrite put_labels_word by done. cbn [app put_labels].
    rewrite app_nil_r. by destruct l.
  - cbn [dotted]. rewrite put_labels_word by done. cbn [app put_labels]. rewrite Z.eqb_refl.
    cbn [map concat]. f_equal. exact (IH HF).
Qed.

Lemma length_wire labels : labels <> [] -> length (wire labels) = S (length (dotted labels)).
Proof.
  unfold wire. induction labels as [|l labels IH]; intros Hne; [done|]. cbn [map concat put_label app length].
  rewrite length_app. destruct labels as [|l' labels]; [cbn [dotted map concat length]; lia|].
  rewrite IH by done. cbn [dotted]. rewrite length_app. cbn [length]. lia.
Qed.

(** What is at a position of the memory. *)
Lemma peek_at pkt p c rest : drop p pkt = c :: rest -> peek pkt p = Got c.
Proof. intros E. unfold peek. rewrite <- (Nat.add_0_r p), <- lookup_drop, E. done. Qed.

Lemma drop_more {A} (pkt : list A) p l rest n : drop p pkt = l ++ rest -> n = (p + length l)%nat -> drop n pkt = rest.
Proof. intros E ->. by rewrite <- drop_drop, E, drop_app_length. Qed.

Lemma copy_at pkt p l rest : l <> [] -> drop p pkt = l ++ rest -> copy pkt p (length l) = Got l.
Proof.
  intros Hne E. unfold copy. destruct (Nat.leb_spec (p + length l) (length pkt)); [by rewrite E, take_app_length|].
  pose proof (f_equal length E) as Hl. rewrite length_drop, length_app in Hl. destruct l; [done|]. cbn [length] in *. lia.
Qed.

Lemma short_not_pointer c : 0 < c < 192 -> is_pointer c = false.
Proof.
  intros Hc. assert (Hall : forallb (fun i => negb (is_pointer (Z.of_nat i))) (seq 0 192) = true) by reflexivity.
  rewrite forallb_forall in Hall. specialize (Hall (Z.to_nat c)). rewrite Z2Nat.id in Hall by lia.
  apply negb_true_iff, Hall, in_seq. lia.
Qed.

(** One label of a name on the wire, and the byte behind it, which is zero when
    the name ends there. *)
Lemma wire_step pkt p l labels rest : label_ok l -> Forall label_ok labels ->
  drop p pkt = wire (l :: labels) ++ 0 :: rest ->
  let p' := (p + (length l + 1))%nat in
  peek pkt p = Got (Z.of_nat (length l)) /\ copy pkt (S p) (length l) = Got l
  /\ drop p' pkt = wire labels ++ 0 :: rest
  /\ exists d, peek pkt p' = Got d /\ (d =? 0) = match labels with [] => true | _ => false end.
Proof.
  intros (Hne & _ & Hlen & _) HF E. cbn zeta. unfold wire in E. cbn [map concat] in E. unfold put_label at 1 in E.
  rewrite u8_small in E by (unfold is_u8; lia). cbn [app] in E.
  assert (E1 : drop (S p) pkt = l ++ concat (map put_label labels) ++ 0 :: rest).
  { rewrite app_assoc. eapply (drop_more _ p [_]); [exact E|cbn [length]; lia]. }
  assert (E2 : drop (p + (length l + 1)) pkt = wire labels ++ 0 :: rest) by (eapply drop_more; [exact E1|lia]).
  split_and!; [eapply peek_at; exact E|eapply copy_at; [exact Hne|exact E1]|exact E2|].
  destruct labels as [|l' labels]; [exists 0; split; [eapply peek_at; exact E2|done]|].
  apply list.Forall_cons in HF as [(Hne' & _ & Hlen' & _) _]. unfold wire in E2. cbn [map concat] in E2.
  unfold put_label at 1 in E2. rewrite u8_small in E2 by (unfold is_u8; lia). eexists. split; [eapply peek_at; exact E2|].
  destruct l'; [done|]. apply Z.eqb_neq. cbn [length]. lia.
Qed.

Lemma label_byte l : label_ok l -> (Z.of_nat (length l) =? 0) = false /\ is_pointer (Z.of_nat (length l)) = false.
Proof.
  intros (Hne & _ & Hlen & _). assert (0 < length l)%nat by (destruct l; [done|cbn [length]; lia]).
  split; [apply Z.eqb_neq; lia|]. apply short_not_pointer. lia.
Qed.

Lemma length_wire_cons l labels : length (wire (l :: labels)) = (S (length l) + length (wire labels))%nat.
Proof. unfold wire. cbn [map concat put_label app length]. by rewrite length_app. Qed.

Section Wire.
Context (pkt : list Z) (size : nat).

Lemma name_len_wire rec labels : forall fuel p parsed len rest, Forall label_ok labels ->
  drop p pkt = wire labels ++ 0 :: rest -> (p + length (wire labels) < size)%nat -> (length labels < fuel)%nat ->
  name_len_loop pkt size rec fuel p parsed len
  = Got (parsed + length (wire labels) + 1, len + length (dotted labels))%nat.
Proof.
  induction labels as [|l labels IH]; intros [|fuel] p parsed len rest HF E Hsz Hf; cbn [length] in Hf; try lia;
    cbn [name_len_loop].
  - rewrite (peek_at pkt p 0 rest) by done. cbn [dbind]. rewrite Z.eqb_refl. cbn. do 2 f_equal; lia.
  - apply list.Forall_cons in HF as [Hl HF]. destruct (wire_step _ _ _ _ _ Hl HF E) as (-> & _ & E' & d & Ed & Hd).
    cbn [dbind]. destruct (label_byte l Hl) as [-> ->]. rewrite Nat2Z.id. rewrite length_wire_cons in *.
    destruct (Nat.ltb_spec size (length l)); [lia|]. rewrite Ed. cbn [dbind]. rewrite Hd.
    destruct (Nat.leb_spec size (p + (length l + 1))); [lia|].
    rewrite (IH _ _ _ _ rest HF E') by lia. f_equal. f_equal; [lia|].
    destruct labels; [cbn [dotted length]; lia|]. cbn [dotted]. rewrite length_app. cbn [length]. lia.
Qed.

Lemma name_wire rec labels : forall fuel p name rest, Forall label_ok labels ->
  drop p pkt = wire labels ++ 0 :: rest -> (p + length (wire labels) < size)%nat -> (length labels < fuel)%nat ->
  name_loop pkt size rec fuel p name = Got (name ++ dotted labels).
Proof.
  induction labels as [|l labels IH]; intros [|fuel] p name rest HF E Hsz Hf; cbn [length] in Hf; try lia;
    cbn [name_loop].
  - rewrite (peek_at pkt p 0 rest) by done. cbn [dbind]. rewrite Z.eqb_refl. by rewrite app_nil_r.
  - apply list.Forall_cons in HF as [Hl HF]. destruct (wire_step _ _ _ _ _ Hl HF E) as (-> & Ec & E' & d & Ed & Hd).
    cbn [dbind]. destruct (label_byte l Hl) as [-> ->]. rewrite Nat2Z.id. rewrite length_wire_cons in *.
    destruct (Nat.ltb_spec size (length l)); [lia|]. rewrite Ec. cbn [dbind]. rewrite Ed. cbn [dbind]. rewrite Hd.
    destruct (Nat.leb_spec size (p + (length l + 1))); [lia|].
    rewrite (IH _ _ _ rest HF E') by lia. f_equal.
    destruct labels; cbn [dotted]; [by rewrite app_nil_r|by rewrite <- !app_assoc].
Qed.

Lemma length_labels labels : Forall label_ok labels -> (length labels <= length (wire labels))%nat.
Proof. induction 1; [done|]. rewrite length_wire_cons. cbn [length]. lia. Qed.

Lemma parse_name_wire labels p spare rest : Forall label_ok labels ->
  drop p pkt = wire labels ++ 0 :: rest -> (p + length (wire labels) < size)%nat ->
  parse_name pkt size p spare = Got (dotted labels, length (wire labels) + 1, length (dotted labels) + spare)%nat.
Proof.
  intros HF E Hs. pose proof (length_labels labels HF). unfold parse_name, get_name_len, get_name.
  change (get_name_len_rec pkt size 11 p) with (name_len_loop pkt size (get_name_len_rec pkt size 10) (S size) p 0 0).
  change (get_name_rec pkt size 11 p []) with (name_loop pkt size (get_name_rec pkt size 10) (S size) p []).
  rewrite (name_len_wire _ labels _ _ _ _ rest), (name_wire _ labels _ _ _ rest) by (done || lia). done.
Qed.

Lemma read16_at p v rest : is_u16 v -> drop p pkt = write16 v ++ rest -> read16 pkt p = Got v.
Proof.
  intros Hv E. unfold write16 in E. cbn [app] in E. unfold read16. rewrite (peek_at _ _ _ _ E). cbn [dbind].
  rewrite (peek_at pkt (S p) (u8 (Z.land v 255)) rest) by (eapply (drop_more _ p [_]); [exact E|cbn [length]; lia]).
  cbn [dbind]. f_equal. change 255 with (Z.ones 8). rewrite Z.land_ones, Z.shiftr_div_pow2 by lia.
  change (2 ^ 8) with 256. unfold is_u16 in Hv.
  assert (0 <= v / 256 < 256) by (split; [apply Z.div_pos|apply Z.div_lt_upper_bound]; lia).
  pose proof (Z.mod_pos_bound v 256 eq_refl). rewrite !u8_small by (unfold is_u8; lia). pose proof (Z.div_mod v 256). lia.
Qed.

Lemma parse_query_wire labels p t c rest : Forall label_ok labels -> is_u16 t -> is_u16 c ->
  drop p pkt = wire labels ++ 0 :: write16 t ++ write16 c ++ rest -> (p + length (wire labels) < size)%nat ->
  parse_query pkt size p = Got (mk_query (dotted labels) t c, (length (wire labels) + 5)%nat).
Proof.
  intros HF Ht Hc E Hs. unfold parse_query. rewrite (parse_name_wire labels p 4 _ HF E Hs). cbn [dbind].
  assert (E' : drop (p + (length (wire labels) + 1)) pkt = write16 t ++ write16 c ++ rest).
  { eapply (drop_more _ p (wire labels ++ [0])); [by rewrite <- app_assoc|]. rewrite length_app. cbn [length]. lia. }
  rewrite (read16_at _ _ _ Ht E'). cbn [dbind].
  rewrite (read16_at (p + (length (wire labels) + 1) + 2) c rest Hc) by (eapply drop_more; [exact E'|cbn; lia]).
  cbn [dbind]. do 2 f_equal. lia.
Qed.
End Wire.

(** What [pj_dns_make_query] writes for a name made of labels. *)
Lemma query_bytes_wire id t labels : Forall label_ok labels -> is_u16 t ->
  query_bytes id t (dotted labels)
  = write16 id ++ write16 256 ++ write16 1 ++ write16 0 ++ write16 0 ++ write16 0
    ++ wire labels ++ 0 :: write16 t ++ write16 1.
Proof. intros HF Ht. unfold query_bytes. rewrite put_labels_wire, (u16_small t) by done. reflexivity. Qed.

Lemma length_query_bytes id t labels : labels <> [] -> Forall label_ok labels -> is_u16 t ->
  length (query_bytes id t (dotted labels)) = (length (dotted labels) + 18)%nat.
Proof.
  intros Hne HF Ht. rewrite query_bytes_wire by done. pose proof (length_wire labels Hne).
  repeat (rewrite length_app; cbn [write16 app length]). lia.
Qed.

(** The parser on a query, whatever memory follows it. *)
Lemma parse_query_packet id t labels behind : labels <> [] -> Forall label_ok labels -> is_u16 id -> is_u16 t ->
  pj_dns_parse_packet (query_bytes id t (dotted labels) ++ behind) (length (query_bytes id t (dotted labels)))
  = Got (mk_packet (mk_dhdr id 256 1 0 0 0) [mk_query (dotted labels) t 1] [] [] []).
Proof.
  intros Hne HF Hid Ht. rewrite length_query_bytes by done. rewrite query_bytes_wire by done. rewrite <- !app_assoc. cbn [app].
  rewrite <- !app_assoc. pose proof (length_wire labels Hne).
  assert (H16 : forall v, is_u16 v -> forall pkt p rest, drop p pkt = write16 v ++ rest -> read16 pkt p = Got v)
    by (intros; by eapply read16_at).
  match goal with |- pj_dns_parse_packet ?l _ = _ => set (pkt := l) end.
  unfold pj_dns_parse_packet. destruct (Nat.eqb_spec (length (dotted labels) + 18) 0); [lia|].
  destruct (Nat.ltb_spec (length (dotted labels) + 18) 12); [lia|].
  rewrite (H16 id Hid pkt 0%nat _ eq_refl), (H16 256 ltac:(done) pkt 2%nat _ eq_refl), (H16 1 ltac:(done) pkt 4%nat _ eq_refl),
    (H16 0 ltac:(done) pkt 6%nat _ eq_refl), (H16 0 ltac:(done) pkt 8%nat _ eq_refl), (H16 0 ltac:(done) pkt 10%nat _ eq_refl).
  cbn [dbind]. change (Z.to_nat 1) with 1%nat. change (Z.to_nat 0) with 0%nat. cbn [parse_many].
  rewrite (parse_query_wire pkt _ labels 12 t 1 behind HF Ht ltac:(done) eq_refl) by lia. done.
Qed.

(** C28. A query made for a name of labels (not empty, without dots, shorter than
    192) fills 18 bytes more than the name has, and the parser gets from it the
    identifier, the recursion flag, and the question with the name, type and
    class that were asked for. *)
Theorem dns_query_roundtrip buf size id qtype labels :
  labels <> [] -> Forall label_ok labels -> is_u16 id -> 0 < qtype < 65536 ->
  Z.of_nat (length (dotted labels)) + 16 <= size -> (length (dotted labels) + 18 <= length buf)%nat ->
  exists packet n, pj_dns_make_query buf size id qtype (dotted labels) = Made PJ_SUCCESS packet (Z.of_nat n)
    /\ n = (length (dotted labels) + 18)%nat /\ length packet = length buf
    /\ pj_dns_parse_packet packet n
       = Got (mk_packet (mk_dhdr id 256 1 0 0 0) [mk_query (dotted labels) qtype 1] [] [] []).
Proof.
  intros Hne HF Hid Hq Hs Hb. assert (Ht : is_u16 qtype) by (unfold is_u16; lia).
  pose proof (length_query_bytes id qtype labels Hne HF Ht) as Hlen. unfold pj_dns_make_query.
  destruct (Z.eqb_spec qtype 0); [lia|]. destruct (Z.ltb_spec size (12 + Z.of_nat (length (dotted labels)) + 4)); [lia|].
  destruct (Nat.leb_spec (length (query_bytes id qtype (dotted labels))) (length buf)); [|lia].
  eexists _, _. split; [done|]. split; [done|]. split; [apply splice_length; lia|]. by apply parse_query_packet.
Qed.

(** "ab.c" *)
Lemma dns_query_roundtrip_witness :
  exists packet n, pj_dns_make_query (repeat 255 30) 30 7 33 [97; 98; 46; 99] = Made PJ_SUCCESS packet (Z.of_nat n)
    /\ n = 22%nat /\ length packet = 30%nat
    /\ pj_dns_parse_packet packet n
       = Got (mk_packet (mk_dhdr 7 256 1 0 0 0) [mk_query [97; 98; 46; 99] 33 1] [] [] []).
Proof.
  apply (dns_query_roundtrip (repeat 255 30) 30 7 33 [[97; 98]; [99]]); try done; [|vm_compute; lia].
  apply (bool_decide_unpack _). vm_compute. exact I.
Defined.

(** The size check leaves out the first length byte and the final zero: a
    buffer that passes it can be two bytes too short. *)
Lemma query_overruns_buffer : pj_dns_make_query (repeat 0 17) 17 7 1 [97] = MadeOverrun
  /\ pj_dns_make_query (repeat 0 18) 18 7 1 [97] = MadeOverrun.
Proof. vm_compute. auto. Qed.

(** ** Copies *)

(** Names are equal up to the case of their letters, as [pj_stricmp] compares
    them; records when their names are and the rest is the same. *)
Definition same_name (a b : pj_str) : Prop := pj_stricmp a b = 0.
#[global] Instance same_name_equivalence : Equivalence same_name.
Proof.
  unfold same_name. split; [intros a|intros a b|intros a b c]; rewrite !pj_stricmp_0; [done|by intros [-> ->]|].
  by intros [-> ->] [-> ->].
Qed.

Definition same_query (a b : pj_dns_parsed_query) : Prop :=
  same_name (q_name a) (q_name b) /\ q_type a = q_type b /\ q_dnsclass a = q_dnsclass b.
Definition same_rdata (a b : rdata) : Prop :=
  match a, b with
  | RdSrv p w o t, RdSrv p' w' o' t' => p = p' /\ w = w' /\ o = o' /\ same_name t t'
  | _, _ => a = b
  end.
Definition same_rr (a b : pj_dns_parsed_rr) : Prop :=
  same_name (rr_name a) (rr_name b) /\ same_rdata (rr_rdata a) (rr_rdata b)
  /\ (rr_type a, rr_dnsclass a, rr_ttl a, rr_rdlength a, rr_data a) = (rr_type b, rr_dnsclass b, rr_ttl b, rr_rdlength b, rr_data b).

Lemma name_table_same t src : same_name (fst (apply_name_table t src)) src.
Proof.
  unfold apply_name_table. destruct (list_find _ t) as [[i n]|] eqn:E; [|cbn [fst]; reflexivity].
  apply list_find_Some in E as (_ & Hn & _). exact Hn.
Qed.

Lemma copy_query_same q t : same_query (fst (copy_query q t)) q.
Proof.
  unfold copy_query. pose proof (name_table_same t (q_name q)) as H. destruct (apply_name_table _ _) as [nm t'].
  by split_and!.
Qed.

Lemma copy_rr_same r t : same_rr (fst (copy_rr r t)) r.
Proof.
  unfold copy_rr. pose proof (name_table_same t (rr_name r)) as H. destruct (apply_name_table _ _) as [nm t'].
  unfold same_rr. destruct (rr_rdata r) as [|p w o tg|nm'|a|a]; try by split_and!.
  destruct (_ =? _); [|split_and!; try done; cbn; split_and!; reflexivity].
  pose proof (name_table_same t' tg) as Ht. destruct (apply_name_table t' tg) as [tg' t'']. by split_and!.
Qed.

(** A section comes back whole, or empty when the options exclude it. *)
Lemma copy_section_same {A} (copy1 : A -> list pj_str -> A * list pj_str) (same : A -> A -> Prop) options flag count l t :
  (forall x t, same (fst (copy1 x t)) x) -> count = Z.of_nat (length l) ->
  Forall2 same (fst (copy_section copy1 options flag count l t)) (if Z.land options flag =? 0 then l else []).
Proof.
  intros H1 ->. unfold copy_section. rewrite Nat2Z.id, firstn_all. destruct (Z.land options flag =? 0);
    [|rewrite andb_false_r; constructor]. rewrite andb_true_r.
  destruct (Z.eqb_spec (Z.of_nat (length l)) 0) as [E|_]; cbn [negb]; [destruct l; [constructor|cbn [length] in E; lia]|].
  revert t. induction l as [|x l IH]; intros t; cbn [copy_many]; [constructor|].
  pose proof (H1 x t) as Hx. destruct (copy1 x t) as [y t']. specialize (IH t'). destruct (copy_many copy1 l t') as [ys t''].
  by constructor.
Qed.

(** The counts of a parsed header are the sizes of the sections. *)
Lemma parse_many_length {A} (parse : nat -> dres (A * nat)) n : forall start xs last,
  parse_many parse n start = Got (xs, last) -> length xs = n.
Proof.
  induction n as [|n IH]; intros start xs last E; cbn [parse_many] in E; [by injection E as <- <-|].
  destruct (parse start) as [[x k]|?| |]; cbn [dbind] in E; try discriminate.
  destruct (parse_many parse n (start + k)) as [[ys m]|?| |] eqn:E'; cbn [dbind] in E; try discriminate.
  injection E as <- <-. cbn [length]. f_equal. by eapply IH.
Qed.

Definition counts_ok (p : pj_dns_parsed_packet) : Prop :=
  let h := p_hdr p in
  dh_qdcount h = Z.of_nat (length (p_q p)) /\ dh_anscount h = Z.of_nat (length (p_ans p))
  /\ dh_nscount h = Z.of_nat (length (p_ns p)) /\ dh_arcount h = Z.of_nat (length (p_arr p))
  /\ Forall is_u16 [dh_qdcount h; dh_anscount h; dh_nscount h; dh_arcount h].

Lemma dbind_got {A B} (r : dres A) (k : A -> dres B) b : dbind r k = Got b -> exists a, r = Got a /\ k a = Got b.
Proof. destruct r; cbn [dbind]; try discriminate. eauto. Qed.

Lemma read16_got pkt p v : bytes_ok pkt -> read16 pkt p = Got v -> is_u16 v.
Proof.
  intros Hb E. unfold read16 in E. apply dbind_got in E as (a & Ea & E). apply dbind_got in E as (b & Eb & E).
  assert (H : forall q c, peek pkt q = Got c -> is_u8 c).
  { unfold peek. intros q c. destruct (pkt !! q) eqn:El; [|discriminate]. intros [= <-]. exact (Forall_lookup_1 _ _ _ _ Hb El). }
  apply H in Ea, Eb. injection E as <-. unfold is_u8, is_u16 in *. lia.
Qed.

Lemma parsed_counts pkt size p : bytes_ok pkt -> pj_dns_parse_packet pkt size = Got p -> counts_ok p.
Proof.
  intros Hb E. unfold pj_dns_parse_packet in E. destruct (_ =? _)%nat; [discriminate|]. destruct (_ <? _)%nat; [discriminate|].
  do 6 (apply dbind_got in E as (? & ?Hv%read16_got & E); [|done]).
  do 4 (apply dbind_got in E as ([? ?] & ?Hn%parse_many_length & E)). injection E as <-.
  unfold counts_ok, is_u16 in *. cbn. rewrite Hn, Hn0, Hn1, Hn2. repeat constructor; lia.
Qed.

(** A copy of a parsed packet has the header and, for every section that is
    not left out by the options, the records of the original, with names equal
    up to letter case (a name can be taken from an earlier record); the sections
    left out are empty, and the counts of the copy are the sizes of its
    sections. *)
Theorem dns_dup_same pkt size p options : bytes_ok pkt -> pj_dns_parse_packet pkt size = Got p ->
  let d := pj_dns_packet_dup p options in
  let kept {A} flag (l : list A) := if Z.land options flag =? 0 then l else [] in
  counts_ok d /\ dh_id (p_hdr d) = dh_id (p_hdr p) /\ dh_flags (p_hdr d) = dh_flags (p_hdr p)
  /\ Forall2 same_query (p_q d) (kept PJ_DNS_NO_QD (p_q p)) /\ Forall2 same_rr (p_ans d) (kept PJ_DNS_NO_ANS (p_ans p))
  /\ Forall2 same_rr (p_ns d) (kept PJ_DNS_NO_NS (p_ns p)) /\ Forall2 same_rr (p_arr d) (kept PJ_DNS_NO_AR (p_arr p)).
Proof.
  intros Hb E. apply parsed_counts in E as (Hq & Ha & Hn & Hr & Hu); [|done]. cbn zeta. unfold pj_dns_packet_dup.
  pose proof (copy_section_same copy_query same_query options PJ_DNS_NO_QD _ _ [] copy_query_same Hq) as Sq.
  destruct (copy_section copy_query _ _ _ _ _) as [q t1].
  pose proof (copy_section_same copy_rr same_rr options PJ_DNS_NO_ANS _ _ t1 copy_rr_same Ha) as Sa.
  destruct (copy_section copy_rr _ _ _ _ t1) as [an t2].
  pose proof (copy_section_same copy_rr same_rr options PJ_DNS_NO_NS _ _ t2 copy_rr_same Hn) as Sn.
  destruct (copy_section copy_rr _ _ _ _ t2) as [ns t3].
  pose proof (copy_section_same copy_rr same_rr options PJ_DNS_NO_AR _ _ t3 copy_rr_same Hr) as Sr.
  destruct (copy_section copy_rr _ _ _ _ t3) as [ar t4]. cbn [fst] in *. cbn [p_hdr dh_id dh_flags p_q p_ans p_ns p_arr].
  split; [|by split_and!]. rewrite !list.Forall_cons in Hu. destruct Hu as (U1 & U2 & U3 & U4 & _).
  assert (Hle : forall A (P : A -> A -> Prop) l m c f, is_u16 c -> c = Z.of_nat (length m) ->
    Forall2 P l (if Z.land options f =? 0 then m else []) -> is_u16 (Z.of_nat (length l))).
  { intros A P l m c f Hc -> HF. apply Forall2_length in HF. rewrite HF. destruct (Z.land options f =? 0); [exact Hc|]. cbn [length]. unfold is_u16. lia. }
  pose proof (Hle _ _ _ _ _ _ U1 Hq Sq) as V1. pose proof (Hle _ _ _ _ _ _ U2 Ha Sa) as V2.
  pose proof (Hle _ _ _ _ _ _ U3 Hn Sn) as V3. pose proof (Hle _ _ _ _ _ _ U4 Hr Sr) as V4.
  unfold counts_ok. cbn [p_hdr dh_qdcount dh_anscount dh_nscount dh_arcount p_q p_ans p_ns p_arr].
  rewrite !u16_small by done. rewrite !list.Forall_cons, list.Forall_nil. by split_and!.
Qed.

(** A question "A" and an SRV answer for "a" that points at "b". *)
Definition answered : list Z :=
  [0; 9; 129; 128; 0; 1; 0; 1; 0; 0; 0; 0] ++ [1; 65; 0; 0; 33; 0; 1]
  ++ [1; 97; 0; 0; 33; 0; 1; 0; 0; 0; 60; 0; 9; 0; 1; 0; 2; 19; 196; 1; 98; 0].
Definition answered_packet : pj_dns_parsed_packet :=
  mk_packet (mk_dhdr 9 33152 1 1 0 0) [mk_query [65] 33 1]
    [mk_rr [97] 33 1 60 9 None (RdSrv 1 2 5060 [98])] [] [].

Lemma dns_dup_same_witness :
  counts_ok (pj_dns_packet_dup answered_packet PJ_DNS_NO_QD)
  /\ Forall2 same_rr (p_ans (pj_dns_packet_dup answered_packet PJ_DNS_NO_QD)) (p_ans answered_packet).
Proof.
  assert (Hb : bytes_ok answered) by (apply (bool_decide_unpack _); vm_compute; exact I).
  destruct (dns_dup_same answered 41 answered_packet PJ_DNS_NO_QD Hb ltac:(vm_compute; reflexivity))
    as (H1 & _ & _ & _ & H2 & _). split; [exact H1|exact H2].
Defined.

(** The copy of the answer above gets its name from the question. *)
Lemma dup_takes_earlier_name :
  rr_name <$> p_ans (pj_dns_packet_dup answered_packet 0) = [[65]].
Proof. vm_compute. reflexivity. Qed.
