(* ===== verification/CircBuf.v ===== *)
(** * Circular sample buffers

    Model of [pjmedia/include/pjmedia/circbuf.h].  Pointers into the buffer are
    offsets from [buf], the second region of a pair is [None] when its pointer
    is NULL, and an access outside the samples allocated gives [None].  The
    theorems relate every operation to the same operation on a list, the
    samples held in the order they were written. *)

From Stdlib Require Import ZArith Lia Bool.
From stdpp Require Import base list numbers option.
From S2P Require Import Prelude.
From S2P Require Import Blocks.
Local Open Scope Z_scope.

(** ** Samples *)

(** [pjmedia_copy_samples] and [pjmedia_move_samples] from and to the buffer. *)
Definition fetch (mem : list Z) (pos n : Z) : option (list Z) :=
  if n =? 0 then Some []
  else if (0 <=? pos) && (pos + n <=? Z.of_nat (length mem))
  then Some (take (Z.to_nat n) (drop (Z.to_nat pos) mem)) else None.
Definition store (mem : list Z) (pos : Z) (samples : list Z) : option (list Z) :=
  if (0 <=? pos) && (pos + Z.of_nat (length samples) <=? Z.of_nat (length mem))
  then Some (splice mem (Z.to_nat pos) samples) else None.

(** The same through the pointer of a second region. *)
Definition fetch_reg (mem : list Z) (reg : option Z) (off n : Z) : option (list Z) :=
  match reg with Some pos => fetch mem (pos + off) n | None => if n =? 0 then Some [] else None end.
Definition store_reg (mem : list Z) (reg : option Z) (samples : list Z) : option (list Z) :=
  match reg with Some pos => store mem pos samples | None => match samples with [] => Some mem | _ => None end end.

(** ** The buffer *)

Record pjmedia_circ_buf := mk_circ { cb_buf : list Z; cb_capacity : Z; cb_start : Z; cb_len : Z }.

Definition pjmedia_circ_buf_create (capacity : Z) : pjmedia_circ_buf :=
  mk_circ (repeat 0 (Z.to_nat capacity)) capacity 0 0.

Definition pjmedia_circ_buf_reset (cb : pjmedia_circ_buf) : pj_status_t * pjmedia_circ_buf :=
  (PJ_SUCCESS, mk_circ (cb_buf cb) (cb_capacity cb) 0 0).

Definition pjmedia_circ_buf_get_len (cb : pjmedia_circ_buf) : Z := cb_len cb.

Definition pjmedia_circ_buf_set_len (cb : pjmedia_circ_buf) (len : Z) : pjmedia_circ_buf :=
  mk_circ (cb_buf cb) (cb_capacity cb) (cb_start cb) len.

Definition pjmedia_circ_buf_adv_read_ptr (cb : pjmedia_circ_buf) (count : Z) : pj_status_t * pjmedia_circ_buf :=
  if cb_len cb <=? count then pjmedia_circ_buf_reset cb
  else
    let start := cb_start cb + count in
    let start := if cb_capacity cb <=? start then start - cb_capacity cb else start in
    (PJ_SUCCESS, mk_circ (cb_buf cb) (cb_capacity cb) start (u32 (cb_len cb - count))).

Definition pjmedia_circ_buf_adv_write_ptr (cb : pjmedia_circ_buf) (count : Z) : pj_status_t * pjmedia_circ_buf :=
  if cb_capacity cb <? u32 (count + cb_len cb) then (PJ_ETOOBIG, cb)
  else (PJ_SUCCESS, pjmedia_circ_buf_set_len cb (u32 (cb_len cb + count))).

(** [reg1], [reg1_len], [reg2] and [reg2_len]. *)
Definition regions : Type := Z * Z * option Z * Z.

Definition pjmedia_circ_buf_get_read_regions (cb : pjmedia_circ_buf) : regions :=
  let reg1 := cb_start cb in
  if cb_capacity cb <? reg1 + cb_len cb then
    let reg1_len := u32 (cb_capacity cb - cb_start cb) in
    (reg1, reg1_len, Some 0, u32 (cb_len cb - reg1_len))
  else (reg1, cb_len cb, None, 0).

Definition pjmedia_circ_buf_get_write_regions (cb : pjmedia_circ_buf) : regions :=
  let reg1 := cb_start cb + cb_len cb in
  let reg1 := if cb_capacity cb <=? reg1 then reg1 - cb_capacity cb else reg1 in
  let reg1_len := u32 (cb_capacity cb - cb_len cb) in
  if cb_capacity cb <? reg1 + reg1_len then
    (reg1, u32 (cb_capacity cb - reg1), Some 0, u32 (cb_start cb))
  else (reg1, reg1_len, None, 0).

Definition pjmedia_circ_buf_read (cb : pjmedia_circ_buf) (count : Z)
    : option (pj_status_t * list Z * pjmedia_circ_buf) :=
  if cb_len cb <? count then Some (PJ_ETOOBIG, [], cb)
  else
    let '(reg1, reg1cnt, reg2, _) := pjmedia_circ_buf_get_read_regions cb in
    data ←
      (if count <=? reg1cnt then fetch (cb_buf cb) reg1 count
       else
         a ← fetch (cb_buf cb) reg1 reg1cnt;
         b ← fetch_reg (cb_buf cb) reg2 0 (u32 (count - reg1cnt));
         Some (a ++ b));
    let '(st, cb) := pjmedia_circ_buf_adv_read_ptr cb count in
    Some (st, data, cb).

(** [data] holds the [count] samples. *)
Definition pjmedia_circ_buf_write (cb : pjmedia_circ_buf) (data : list Z)
    : option (pj_status_t * pjmedia_circ_buf) :=
  let count := Z.of_nat (length data) in
  if u32 (cb_capacity cb - cb_len cb) <? count then Some (PJ_ETOOBIG, cb)
  else
    let '(reg1, reg1cnt, reg2, _) := pjmedia_circ_buf_get_write_regions cb in
    buf ←
      (if count <=? reg1cnt then store (cb_buf cb) reg1 data
       else
         buf ← store (cb_buf cb) reg1 (take (Z.to_nat reg1cnt) data);
         store_reg buf reg2 (drop (Z.to_nat reg1cnt) data));
    Some (pjmedia_circ_buf_adv_write_ptr (mk_circ buf (cb_capacity cb) (cb_start cb) (cb_len cb)) count).

Definition pjmedia_circ_buf_copy (cb : pjmedia_circ_buf) (start_idx count : Z) : option (pj_status_t * list Z) :=
  if cb_len cb <? u32 (count + start_idx) then Some (PJ_ETOOBIG, [])
  else
    let '(reg1, reg1cnt, reg2, _) := pjmedia_circ_buf_get_read_regions cb in
    data ←
      (if start_idx <? reg1cnt then
         let tmp_len := u32 (reg1cnt - start_idx) in
         let tmp_len := if count <? tmp_len then count else tmp_len in
         a ← fetch (cb_buf cb) (reg1 + start_idx) tmp_len;
         b ← (if tmp_len <? count then fetch_reg (cb_buf cb) reg2 0 (u32 (count - tmp_len)) else Some []);
         Some (a ++ b)
       else fetch_reg (cb_buf cb) reg2 (start_idx - reg1cnt) count);
    Some (PJ_SUCCESS, data).

(** The loop that rolls the buffer; [reg2] is the start of the buffer.  The
    result is the samples and [reg1]. *)
Fixpoint pack_loop (fuel : nat) (buf : list Z) (reg1 reg1cnt reg2cnt gap : Z) : option (list Z * Z) :=
  match fuel with
  | O => None
  | S fuel =>
      let gap := if reg2cnt <? gap then reg2cnt else gap in
      a ← fetch buf reg1 reg1cnt;
      buf ← store buf (reg1 - gap) a;
      b ← fetch buf 0 gap;
      buf ← store buf (reg1 + reg1cnt - gap) b;
      buf ← (if gap <? reg2cnt then c ← fetch buf gap (reg2cnt - gap); store buf 0 c else Some buf);
      let reg1 := reg1 - gap in
      let reg1cnt := reg1cnt + gap in
      let reg2cnt := reg2cnt - gap in
      if 0 <? reg2cnt then pack_loop fuel buf reg1 reg1cnt reg2cnt gap else Some (buf, reg1)
  end.

Definition pjmedia_circ_buf_pack_buffer (cb : pjmedia_circ_buf) : option (pj_status_t * pjmedia_circ_buf) :=
  let '(reg1, reg1cnt, reg2, reg2cnt) := pjmedia_circ_buf_get_read_regions cb in
  let gap := u32 (cb_capacity cb - pjmedia_circ_buf_get_len cb) in
  if negb (reg2cnt =? 0) && (gap =? 0) then Some (PJ_ETOOBIG, cb)
  else
    '(buf, reg1) ←
      (if negb (reg2cnt =? 0) then pack_loop (Z.to_nat reg2cnt) (cb_buf cb) reg1 reg1cnt reg2cnt gap
       else Some (cb_buf cb, reg1));
    buf ←
      (if negb (reg1 =? 0) then
         d ← fetch buf reg1 (pjmedia_circ_buf_get_len cb);
         store buf 0 d
       else Some buf);
    Some (PJ_SUCCESS, mk_circ buf (cb_capacity cb) 0 (cb_len cb)).

(** ** The samples held *)

(** The samples lie in one piece, or the first ones at the end of the buffer and
    the others at its beginning. *)
Definition in_one_piece (cb : pjmedia_circ_buf) (q : list Z) : Prop :=
  exists A C, cb_buf cb = A ++ q ++ C /\ cb_start cb = Z.of_nat (length A) /\ (q ++ C <> [] \/ A = []).
Definition in_two_pieces (cb : pjmedia_circ_buf) (q : list Z) : Prop :=
  exists X Y G, cb_buf cb = Y ++ G ++ X /\ q = X ++ Y /\ X <> [] /\ Y <> []
  /\ cb_start cb = Z.of_nat (length Y + length G).

Definition circ_holds (cb : pjmedia_circ_buf) (q : list Z) : Prop :=
  cb_capacity cb = Z.of_nat (length (cb_buf cb)) /\ cb_capacity cb < 2 ^ 31 /\ cb_len cb = Z.of_nat (length q)
  /\ (in_one_piece cb q \/ in_two_pieces cb q).

Lemma holds_fits cb q : circ_holds cb q -> Z.of_nat (length q) <= cb_capacity cb < 2 ^ 31 /\ 0 <= cb_start cb.
Proof.
  intros (Hc & Hb & _ & [(A & C & Eb & Es & _)|(X & Y & G & Eb & -> & _ & _ & Es)]); rewrite Hc in *; rewrite Eb in *;
    rewrite !length_app in *; lia.
Qed.

Lemma length_pos {A} (l : list A) : l <> [] <-> (0 < length l)%nat.
Proof. destruct l; cbn [length]; split; intros; try done; lia. Qed.

(** Cuts of a list whose length is known. *)
Lemma list_cut {A} (l : list A) n : (n <= length l)%nat -> exists a b, l = a ++ b /\ length a = n.
Proof. intros. exists (take n l), (drop n l). rewrite take_drop, length_take. split; [done|lia]. Qed.

Lemma fetch_app A X C pos n : pos = Z.of_nat (length A) -> n = Z.of_nat (length X) ->
  fetch (A ++ X ++ C) pos n = Some X.
Proof.
  intros -> ->. unfold fetch. destruct (Z.eqb_spec (Z.of_nat (length X)) 0) as [E|_].
  { destruct X; [done|cbn [length] in E; lia]. }
  rewrite (proj2 (Z.leb_le 0 _)), (proj2 (Z.leb_le _ (Z.of_nat (length _)))) by (rewrite ?length_app; lia).
  cbn [andb]. by rewrite !Nat2Z.id, drop_app_length, take_app_length.
Qed.

Lemma store_app A X C X' pos : pos = Z.of_nat (length A) -> length X' = length X ->
  store (A ++ X ++ C) pos X' = Some (A ++ X' ++ C).
Proof.
  intros -> HX. unfold store.
  rewrite (proj2 (Z.leb_le 0 _)), (proj2 (Z.leb_le _ (Z.of_nat (length (A ++ X ++ C))))) by (rewrite ?length_app; lia).
  cbn [andb]. rewrite Nat2Z.id. unfold splice. rewrite take_app_length, HX, (app_assoc A X C), drop_app_length' by (rewrite length_app; lia).
  done.
Qed.

(** The same with the parts of the memory named. *)
Ltac same_list := cbn [app]; rewrite <- ?app_assoc, ?app_nil_r; cbn [app]; reflexivity.

Lemma fetch_at A X C mem pos n : mem = A ++ X ++ C -> pos = Z.of_nat (length A) -> n = Z.of_nat (length X) ->
  fetch mem pos n = Some X.
Proof. intros ->. apply fetch_app. Qed.

Lemma store_at A X C X' mem pos : mem = A ++ X ++ C -> pos = Z.of_nat (length A) -> length X' = length X ->
  store mem pos X' = Some (A ++ X' ++ C).
Proof. intros ->. apply store_app. Qed.

(** The regions of a buffer in either form. *)
Lemma read_regions_one cb q : circ_holds cb q -> in_one_piece cb q ->
  pjmedia_circ_buf_get_read_regions cb = (cb_start cb, Z.of_nat (length q), None, 0).
Proof.
  intros (Hc & _ & Hl & _) (A & C & Eb & Es & _). unfold pjmedia_circ_buf_get_read_regions.
  rewrite Hc, Hl, Es, Eb, !length_app. case_if; bool_hyps; [lia|done].
Qed.

Lemma read_regions_two cb X Y G : cb_capacity cb = Z.of_nat (length (cb_buf cb)) -> cb_capacity cb < 2 ^ 31 ->
  cb_len cb = Z.of_nat (length (X ++ Y)) -> cb_buf cb = Y ++ G ++ X -> cb_start cb = Z.of_nat (length Y + length G) -> Y <> [] ->
  pjmedia_circ_buf_get_read_regions cb = (cb_start cb, Z.of_nat (length X), Some 0, Z.of_nat (length Y)).
Proof.
  intros Hc Hb Hl Eb Es HY. apply length_pos in HY. unfold pjmedia_circ_buf_get_read_regions.
  rewrite Hc in *. rewrite Hl, Es, Eb in *. rewrite !length_app in *. case_if; bool_hyps; [|lia].
  rewrite !u32_small by (unfold is_u32; lia). repeat f_equal; lia.
Qed.

(** ** The operations on the samples held *)

Lemma holds_create n : 0 <= n < 2 ^ 31 -> circ_holds (pjmedia_circ_buf_create n) [].
Proof.
  intros Hn. unfold pjmedia_circ_buf_create, circ_holds. cbn [cb_capacity cb_buf cb_len]. rewrite repeat_length, Z2Nat.id by lia.
  split_and!; try done; try lia. left. exists [], (repeat 0 (Z.to_nat n)). cbn. auto.
Qed.

Lemma holds_reset cb q : circ_holds cb q ->
  exists cb', pjmedia_circ_buf_reset cb = (PJ_SUCCESS, cb') /\ circ_holds cb' [] /\ cb_capacity cb' = cb_capacity cb.
Proof.
  intros (Hc & Hb & _). eexists. split; [reflexivity|]. split; [|done]. split_and!; try done.
  left. exists [], (cb_buf cb). cbn. auto.
Qed.

Lemma holds_adv_read cb q n : circ_holds cb q -> 0 <= n ->
  exists cb', pjmedia_circ_buf_adv_read_ptr cb n = (PJ_SUCCESS, cb') /\ circ_holds cb' (drop (Z.to_nat n) q)
    /\ cb_capacity cb' = cb_capacity cb.
Proof.
  intros H Hn. unfold pjmedia_circ_buf_adv_read_ptr. pose proof H as (Hc & Hb & Hl & Hq).
  destruct (Z.leb_spec (cb_len cb) n) as [Hge|Hlt]; [rewrite drop_ge by lia; exact (holds_reset cb q H)|].
  eexists. split; [reflexivity|]. split; [|done]. unfold circ_holds. cbn [cb_capacity cb_buf cb_len].
  pose proof (holds_fits cb q H) as [Hfit _]. rewrite u32_small by (unfold is_u32; lia).
  split; [done|]. split; [done|]. split; [rewrite length_drop; lia|].
  destruct Hq as [(A & C & Eb & Es & Hne)|(X & Y & G & Eb & Eq & HX & HY & Es)].
  - left. destruct (list_cut q (Z.to_nat n)) as (d & q' & -> & Hd); [lia|]. rewrite length_app in Hl.
    rewrite drop_app_length' by done. exists (A ++ d), C. cbn [cb_buf cb_start]. rewrite Hc, Eb, !length_app in *.
    case_if; bool_hyps; [lia|]. split_and!; [by rewrite <- !app_assoc|lia|]. left. destruct q'; [cbn [length] in Hl; lia|done].
  - subst q. rewrite length_app in Hl. rewrite Hc, Eb, !length_app in *. cbn [cb_buf cb_start].
    destruct (decide (n < Z.of_nat (length X))).
    + right. destruct (list_cut X (Z.to_nat n)) as (d & X' & -> & Hd); [lia|]. rewrite !length_app in *.
      rewrite <- (app_assoc d X' Y), drop_app_length' by done. exists X', Y, (G ++ d). cbn [cb_buf cb_start].
      case_if; bool_hyps; [lia|]. rewrite !length_app. split_and!; try done; [by rewrite <- !app_assoc|apply length_pos; lia|lia].
    + left. destruct (list_cut Y (Z.to_nat n - length X)) as (d & Y' & -> & Hd); [lia|]. rewrite !length_app in *.
      rewrite (app_assoc X d Y'), drop_app_length' by (rewrite length_app; lia). exists d, (G ++ X). cbn [cb_buf cb_start].
      case_if; bool_hyps; [|lia]. split_and!; [by rewrite <- !app_assoc|lia|]. left. destruct Y'; [cbn [length] in *; lia|done].
Qed.

Lemma holds_read cb q n : circ_holds cb q -> 0 <= n ->
  exists st cb', pjmedia_circ_buf_read cb n
    = Some (st, if Z.of_nat (length q) <? n then [] else take (Z.to_nat n) q, cb')
  /\ st = (if Z.of_nat (length q) <? n then PJ_ETOOBIG else PJ_SUCCESS)
  /\ circ_holds cb' (if Z.of_nat (length q) <? n then q else drop (Z.to_nat n) q) /\ cb_capacity cb' = cb_capacity cb.
Proof.
  intros H Hn. unfold pjmedia_circ_buf_read. pose proof H as (Hc & Hb & Hl & Hq). rewrite Hl.
  destruct (Z.ltb_spec (Z.of_nat (length q)) n) as [Hgt|Hle]; [eauto 8|]. pose proof (holds_fits cb q H) as [Hfit _].
  destruct (holds_adv_read cb q n H Hn) as (cb' & Ea & Hh & Hcap). rewrite Ea. exists PJ_SUCCESS, cb'.
  cut (forall r, r = Some (take (Z.to_nat n) q) -> (r ≫= λ data, Some (PJ_SUCCESS, data, cb')) = Some (PJ_SUCCESS, take (Z.to_nat n) q, cb')).
  2: { by intros ? ->. }
  intros Hret. destruct Hq as [Ho|(X & Y & G & Eb & Eq & HX & HY & Es)].
  - rewrite (read_regions_one cb q) by done. case_if; bool_hyps; [|lia]. split; [|done]. apply Hret.
    destruct Ho as (A & C & Eb & Es & _). rewrite Eb. destruct (list_cut q (Z.to_nat n)) as (d & q' & -> & Hd); [lia|].
    rewrite take_app_length' by done. rewrite <- app_assoc. apply fetch_app; [done|lia].
  - subst q. rewrite (read_regions_two cb X Y G) by done. rewrite length_app in Hle. split; [|done]. apply Hret. rewrite Eb. case_if; bool_hyps.
    + destruct (list_cut X (Z.to_nat n)) as (d & X' & -> & Hd); [lia|]. rewrite <- (app_assoc d X' Y), take_app_length' by done.
      rewrite (app_assoc Y G). apply fetch_app; [rewrite length_app; lia|lia].
    + destruct (list_cut Y (Z.to_nat n - length X)) as (d & Y' & -> & Hd); [lia|]. rewrite (app_assoc X d Y').
      rewrite take_app_length' by (rewrite length_app; lia).
      rewrite (fetch_at (d ++ Y' ++ G) X []) by (same_list || (rewrite ?length_app in *; lia)).
      cbn [mbind option_bind fetch_reg]. rewrite u32_small by (unfold is_u32; rewrite ?length_app in *; lia).
      by rewrite (fetch_at [] d (Y' ++ G ++ X)) by (same_list || (rewrite ?length_app in *; cbn [length]; lia)).
Qed.

(** The rest of the bookkeeping after the samples have been stored. *)
Lemma adv_write_ok cb q d buf : circ_holds cb q -> Z.of_nat (length d) <= cb_capacity cb - Z.of_nat (length q) ->
  length buf = length (cb_buf cb) ->
  (in_one_piece (mk_circ buf (cb_capacity cb) (cb_start cb) 0) (q ++ d)
   \/ in_two_pieces (mk_circ buf (cb_capacity cb) (cb_start cb) 0) (q ++ d)) ->
  exists cb', pjmedia_circ_buf_adv_write_ptr (mk_circ buf (cb_capacity cb) (cb_start cb) (cb_len cb)) (Z.of_nat (length d))
    = (PJ_SUCCESS, cb') /\ circ_holds cb' (q ++ d) /\ cb_capacity cb' = cb_capacity cb.
Proof.
  intros H Hd Hbuf Hp. pose proof (holds_fits cb q H) as [Hfit _]. destruct H as (Hc & Hb & Hl & _).
  unfold pjmedia_circ_buf_adv_write_ptr. cbn [cb_capacity cb_len]. rewrite Hl, !u32_small by (unfold is_u32; lia).
  case_if; bool_hyps; [lia|]. eexists. split; [reflexivity|]. split; [|done]. unfold circ_holds, pjmedia_circ_buf_set_len.
  cbn [cb_capacity cb_len cb_buf cb_start]. rewrite Hbuf, length_app. split_and!; [done|done|lia|exact Hp].
Qed.

Ltac pairs := repeat match goal with |- (_, _) = (_, _) => f_equal end; try done; rewrite ?length_app; cbn [length]; lia.

(** The free regions, for each place the samples can have. *)
Lemma write_regions_spec cb q : circ_holds cb q ->
  (exists A, cb_buf cb = A ++ q /\ cb_start cb = Z.of_nat (length A) /\ (q <> [] \/ A = [])
     /\ pjmedia_circ_buf_get_write_regions cb = (0, Z.of_nat (length A), None, 0))
  \/ (exists A C, cb_buf cb = A ++ q ++ C /\ cb_start cb = Z.of_nat (length A) /\ C <> []
     /\ pjmedia_circ_buf_get_write_regions cb
        = (Z.of_nat (length (A ++ q)), Z.of_nat (length C), match A with [] => None | _ => Some 0 end, Z.of_nat (length A)))
  \/ (exists X Y G, cb_buf cb = Y ++ G ++ X /\ q = X ++ Y /\ X <> [] /\ Y <> [] /\ cb_start cb = Z.of_nat (length Y + length G)
     /\ pjmedia_circ_buf_get_write_regions cb = (Z.of_nat (length Y), Z.of_nat (length G), None, 0)).
Proof.
  intros H. pose proof (holds_fits cb q H) as [Hfit _]. destruct H as (Hc & Hb & Hl & Hq).
  unfold pjmedia_circ_buf_get_write_regions. rewrite Hl, u32_small by (unfold is_u32; lia). rewrite Hc in *.
  destruct Hq as [(A & [|c C] & Eb & Es & Hne)|(X & Y & G & Eb & -> & HX & HY & Es)]; rewrite Eb, Es, !length_app in *;
    cbn [length] in *.
  - left. exists A. rewrite app_nil_r in *. split_and!; try done.
    repeat (case_if; bool_hyps; try lia). pairs.
  - right; left. exists A, (c :: C). cbn [length]. split_and!; try done.
    destruct A; cbn [length] in *; repeat (case_if; bool_hyps; try lia); rewrite ?u32_small by (unfold is_u32; lia); pairs.
  - right; right. exists X, Y, G. apply length_pos in HX, HY. split_and!; try done; try (by apply length_pos).
    repeat (case_if; bool_hyps; try lia). pairs.
Qed.

Lemma holds_write cb q d : circ_holds cb q -> Z.of_nat (length d) <= cb_capacity cb - Z.of_nat (length q) ->
  exists cb', pjmedia_circ_buf_write cb d = Some (PJ_SUCCESS, cb') /\ circ_holds cb' (q ++ d)
    /\ cb_capacity cb' = cb_capacity cb.
Proof.
  intros H Hd. pose proof (holds_fits cb q H) as [Hfit _]. pose proof H as (Hc & Hb & Hl & _).
  assert (Hadv : forall r buf, r = Some buf -> length buf = length (cb_buf cb) ->
    (in_one_piece (mk_circ buf (cb_capacity cb) (cb_start cb) 0) (q ++ d)
     \/ in_two_pieces (mk_circ buf (cb_capacity cb) (cb_start cb) 0) (q ++ d)) ->
    exists cb', (r ≫= fun buf => Some (pjmedia_circ_buf_adv_write_ptr (mk_circ buf (cb_capacity cb) (cb_start cb) (Z.of_nat (length q)))
       (Z.of_nat (length d)))) = Some (PJ_SUCCESS, cb') /\ circ_holds cb' (q ++ d) /\ cb_capacity cb' = cb_capacity cb).
  { intros r buf -> Hlen Hp. destruct (adv_write_ok cb q d buf H Hd Hlen Hp) as (cb' & E & Hcb'). rewrite Hl in E.
    exists cb'. cbn [mbind option_bind]. by rewrite E. }
  unfold pjmedia_circ_buf_write. cbn zeta. rewrite Hl, u32_small by (unfold is_u32; lia).
  destruct (Z.ltb_spec (cb_capacity cb - Z.of_nat (length q)) (Z.of_nat (length d))); [lia|]. rewrite Hc in Hd.
  destruct (write_regions_spec cb q H) as
      [(A & Eb & Es & Hne & ->)|[(A & C & Eb & Es & HC & ->)|(X & Y & G & Eb & -> & HX & HY & Es & ->)]];
    rewrite Eb in *; rewrite !length_app in Hd.
  - destruct (Z.leb_spec (Z.of_nat (length d)) (Z.of_nat (length A))); [|lia].
    destruct (list_cut A (length d)) as (a & A' & -> & Ha); [lia|]. rewrite length_app in Es. eapply Hadv.
    + apply (store_at [] a (A' ++ q)); [same_list|done|done].
    + rewrite !length_app. cbn [length]. lia.
    + destruct (decide (d = [])) as [->|Hd0]; [left; exists A', []|right; exists q, d, A']; cbn [cb_buf cb_start length app] in *;
        rewrite ?app_nil_r; (split_and!; try done; try lia).
      * destruct Hne as [?|[-> ->]%app_nil]; auto.
      * destruct Hne as [?|[-> ->]%app_nil]; [done|]. apply length_pos in Hd0. cbn [length] in *. lia.
  - destruct (Z.leb_spec (Z.of_nat (length d)) (Z.of_nat (length C))) as [Hle|Hgt].
    + destruct (list_cut C (length d)) as (c & C' & -> & Ha); [lia|]. eapply Hadv.
      * apply (store_at (A ++ q) c C'); [same_list|done|done].
      * rewrite !length_app. lia.
      * left. exists A, C'. cbn [cb_buf cb_start]. split_and!; [same_list|done|]. left. intros E. rewrite <- app_assoc in E.
        apply app_nil in E as [_ E]. apply HC, length_zero_iff_nil. apply (f_equal length) in E. rewrite length_app in *. cbn [length] in E. lia.
    + rewrite Nat2Z.id. destruct (list_cut d (length C)) as (d1 & d2 & -> & Hd1); [lia|].
      rewrite take_app_length', drop_app_length' by done. rewrite length_app in Hd, Hgt.
      destruct (list_cut A (length d2)) as (a & A' & -> & Ha); [lia|]. eapply Hadv.
      * rewrite (store_at ((a ++ A') ++ q) C [] d1) by (same_list || lia). cbn [mbind option_bind].
        assert (0 < length d2)%nat by lia. destruct a; cbn [length] in Ha; [lia|]. cbn [app store_reg].
        apply (store_at [] (z :: a) (A' ++ q ++ d1)); [same_list|done|done].
      * rewrite !length_app in *. cbn [length]. lia.
      * right. exists (q ++ d1), d2, A'. cbn [cb_buf cb_start]. rewrite length_app in Es. split_and!; [same_list|same_list| | |lia].
        -- apply length_pos. rewrite length_app. apply length_pos in HC. lia.
        -- apply length_pos. lia.
  - destruct (Z.leb_spec (Z.of_nat (length d)) (Z.of_nat (length G))); [|lia].
    destruct (list_cut G (length d)) as (g & G' & -> & Ha); [lia|]. rewrite length_app in Es. eapply Hadv.
    + apply (store_at Y g (G' ++ X)); [same_list|done|done].
    + rewrite !length_app. lia.
    + right. exists X, (Y ++ d), G'. cbn [cb_buf cb_start]. rewrite length_app. split_and!; [same_list|same_list|done| |lia].
      apply length_pos. rewrite length_app. apply length_pos in HY. lia.
Qed.

Lemma holds_copy cb q i n : circ_holds cb q -> 0 <= i -> 0 <= n -> i + n < 2 ^ 32 ->
  pjmedia_circ_buf_copy cb i n
  = Some (if Z.of_nat (length q) <? n + i then (PJ_ETOOBIG, [])
          else (PJ_SUCCESS, take (Z.to_nat n) (drop (Z.to_nat i) q))).
Proof.
  intros H Hi Hn Hs. pose proof (holds_fits cb q H) as [Hfit _]. pose proof H as (Hc & Hb & Hl & Hq).
  unfold pjmedia_circ_buf_copy. rewrite Hl, (u32_small (n + i)) by (unfold is_u32; lia).
  destruct (Z.ltb_spec (Z.of_nat (length q)) (n + i)) as [Hgt|Hle]; [done|].
  cut (forall r, r = Some (take (Z.to_nat n) (drop (Z.to_nat i) q)) ->
    (r ≫= fun data => Some (PJ_SUCCESS, data)) = Some (PJ_SUCCESS, take (Z.to_nat n) (drop (Z.to_nat i) q))).
  2: { by intros ? ->. }
  intros Hret. assert (Hcut : forall p d t : list Z, length p = Z.to_nat i -> length d = Z.to_nat n ->
    take (Z.to_nat n) (drop (Z.to_nat i) (p ++ d ++ t)) = d).
  { intros p d t Hp Hd. by rewrite drop_app_length', take_app_length' by done. }
  destruct Hq as [Ho|(X & Y & G & Eb & -> & HX & HY & Es)].
  - rewrite (read_regions_one cb q) by done. apply Hret. destruct Ho as (A & C & Eb & Es & _). rewrite Eb, Es.
    destruct (list_cut q (Z.to_nat i)) as (p & t & -> & Hp); [lia|]. rewrite length_app in *.
    destruct (list_cut t (Z.to_nat n)) as (d & t' & -> & Hd); [lia|]. rewrite length_app in *. rewrite Hcut by done.
    destruct (Z.ltb_spec i (Z.of_nat (length p + (length d + length t')))).
    + rewrite (u32_small (_ - i)) by (unfold is_u32; lia). set (m := if n <? _ then n else _).
      assert (Em : m = n) by (subst m; case_if; bool_hyps; lia). rewrite Em.
      rewrite (fetch_at (A ++ p) d (t' ++ C)) by (same_list || (rewrite ?length_app; lia)). cbn [mbind option_bind].
      rewrite Z.ltb_irrefl. cbn [mbind option_bind]. by rewrite app_nil_r.
    + unfold fetch_reg. destruct (Z.eqb_spec n 0); [|lia]. destruct d; [done|cbn [length] in *; lia].
  - rewrite (read_regions_two cb X Y G) by done. apply Hret. rewrite Eb, Es. rewrite length_app in *.
    destruct (Z.ltb_spec i (Z.of_nat (length X))) as [Hx|Hx]; [|cbn [fetch_reg]].
    + rewrite (u32_small (_ - i)) by (unfold is_u32; lia). destruct (list_cut X (Z.to_nat i)) as (p & x & -> & Hp); [lia|].
      rewrite length_app in *. destruct (Z.ltb_spec n (Z.of_nat (length p + length x) - i)).
      * destruct (list_cut x (Z.to_nat n)) as (d & x' & -> & Hd); [lia|]. rewrite <- !app_assoc, Hcut by done.
        rewrite (fetch_at (Y ++ G ++ p) d x') by (same_list || (rewrite ?length_app; lia)). cbn [mbind option_bind].
        rewrite Z.ltb_irrefl. cbn [mbind option_bind]. by rewrite app_nil_r.
      * destruct (list_cut Y (Z.to_nat n - length x)) as (y & y' & -> & Hy); [lia|]. rewrite length_app in *.
        replace ((p ++ x) ++ y ++ y') with (p ++ (x ++ y) ++ y') by same_list. rewrite Hcut by (rewrite ?length_app; lia).
        rewrite (fetch_at ((y ++ y') ++ G ++ p) x []) by (same_list || (rewrite ?length_app; lia)). cbn [mbind option_bind fetch_reg].
        rewrite u32_small by (unfold is_u32; lia). case_if; bool_hyps.
        -- by rewrite (fetch_at [] y (y' ++ G ++ p ++ x)) by (same_list || (cbn [length]; lia)).
        -- destruct y; [done|cbn [length] in *; lia].
    + destruct (list_cut Y (Z.to_nat i - length X)) as (p & y & -> & Hp); [lia|]. rewrite length_app in *.
      destruct (list_cut y (Z.to_nat n)) as (d & y' & -> & Hd); [lia|]. rewrite length_app in *.
      rewrite (app_assoc X p), Hcut by (rewrite ?length_app; lia).
      apply (fetch_at p d (y' ++ G ++ X)); [same_list|lia|lia].
Qed.

Lemma holds_set_len cb q n : circ_holds cb q -> 0 <= n <= Z.of_nat (length q) ->
  circ_holds (pjmedia_circ_buf_set_len cb n) (take (Z.to_nat n) q) /\ cb_capacity (pjmedia_circ_buf_set_len cb n) = cb_capacity cb.
Proof.
  intros (Hc & Hb & Hl & Hq) Hn. split; [|done]. unfold circ_holds, pjmedia_circ_buf_set_len.
  cbn [cb_capacity cb_buf cb_len]. split_and!; [done|done|rewrite length_take; lia|].
  destruct Hq as [(A & C & Eb & Es & Hne)|(X & Y & G & Eb & -> & HX & HY & Es)].
  - left. destruct (list_cut q (Z.to_nat n)) as (d & q' & -> & Hd); [lia|]. rewrite take_app_length' by done.
    exists A, (q' ++ C). cbn [cb_buf cb_start]. split_and!; [by rewrite Eb; same_list|done|]. by rewrite app_assoc.
  - rewrite length_app in Hn. destruct (decide (n <= Z.of_nat (length X))).
    + left. destruct (list_cut X (Z.to_nat n)) as (d & X' & -> & Hd); [lia|]. rewrite <- app_assoc, take_app_length' by done.
      exists (Y ++ G), X'. cbn [cb_buf cb_start]. split_and!; [by rewrite Eb; same_list|by rewrite length_app|by left].
    + right. destruct (list_cut Y (Z.to_nat n - length X)) as (d & Y' & -> & Hd); [lia|].
      rewrite app_assoc, take_app_length' by (rewrite length_app; lia). exists X, d, (Y' ++ G). cbn [cb_buf cb_start].
      rewrite !length_app in *. split_and!; [by rewrite Eb; same_list|done|done|apply length_pos; lia|lia].
Qed.

(** Lengthening the buffer takes in what lies behind the last sample. *)
Lemma holds_lengthen cb q n : circ_holds cb q -> 0 <= n -> Z.of_nat (length q) + n <= cb_capacity cb ->
  exists extra, length extra = Z.to_nat n /\ circ_holds (pjmedia_circ_buf_set_len cb (Z.of_nat (length q) + n)) (q ++ extra).
Proof.
  intros (Hc & Hb & Hl & Hq) Hn Hfit. rewrite Hc in Hfit.
  enough (exists extra, length extra = Z.to_nat n /\
    (in_one_piece (pjmedia_circ_buf_set_len cb (Z.of_nat (length q) + n)) (q ++ extra)
     \/ in_two_pieces (pjmedia_circ_buf_set_len cb (Z.of_nat (length q) + n)) (q ++ extra))) as (extra & He & Hp).
  { exists extra. split; [done|]. split_and!; cbn [pjmedia_circ_buf_set_len cb_capacity cb_buf cb_len];
      [done|done|rewrite length_app; lia|done]. }
  destruct Hq as [(A & C & Eb & Es & Hne)|(X & Y & G & Eb & -> & HX & HY & Es)]; rewrite Eb, !length_app in Hfit.
  - destruct (decide (n <= Z.of_nat (length C))).
    + destruct (list_cut C (Z.to_nat n)) as (d & C' & -> & Hd); [lia|]. exists d. split; [done|]. left.
      exists A, C'. cbn [pjmedia_circ_buf_set_len cb_buf cb_start]. split_and!; [by rewrite Eb; same_list|done|].
      by rewrite <- app_assoc.
    + destruct (list_cut A (Z.to_nat n - length C)) as (d & A' & -> & Hd); [lia|]. rewrite !length_app in *.
      exists (C ++ d). rewrite length_app. split; [lia|]. right. exists (q ++ C), d, A'.
      cbn [pjmedia_circ_buf_set_len cb_buf cb_start]. split_and!; [by rewrite Eb; same_list|by rewrite app_assoc| |apply length_pos; lia|done].
      destruct Hne as [?|E]; [done|]. apply app_eq_nil in E as [-> ->]. cbn [length] in *. lia.
  - destruct (list_cut G (Z.to_nat n)) as (d & G' & -> & Hd); [rewrite !length_app in *; lia|]. exists d. split; [done|]. right.
    exists X, (Y ++ d), G'. cbn [pjmedia_circ_buf_set_len cb_buf cb_start]. rewrite !length_app in *.
    split_and!; [by rewrite Eb; same_list|by rewrite app_assoc|done|by destruct Y|lia].
Qed.

(** Rolling the buffer puts the two pieces together at its end. *)
Lemma pack_loop_spec fuel : forall X Y G gap, (0 < length Y <= fuel)%nat -> (0 < length X)%nat -> 0 < gap <= Z.of_nat (length G) ->
  exists A, pack_loop fuel (Y ++ G ++ X) (Z.of_nat (length Y + length G)) (Z.of_nat (length X)) (Z.of_nat (length Y)) gap
    = Some (A ++ X ++ Y, Z.of_nat (length A)) /\ length A = length G.
Proof.
  induction fuel as [|fuel IH]; intros X Y G gap HY HX Hg; [lia|]. cbn [pack_loop].
  set (g := if Z.of_nat (length Y) <? gap then Z.of_nat (length Y) else gap).
  assert (Hg' : 0 < g <= Z.of_nat (length G) /\ g <= Z.of_nat (length Y)) by (subst g; case_if; bool_hyps; lia). clearbody g.
  destruct (list_cut Y (Z.to_nat g)) as (y1 & y2 & -> & Hy); [lia|].
  destruct (list_cut G (length G - Z.to_nat g)) as (G1 & G2 & -> & HG); [lia|]. rewrite !length_app in *.
  rewrite (fetch_at ((y1 ++ y2) ++ G1 ++ G2) X []) by (same_list || (rewrite ?length_app; lia)). cbn [mbind option_bind].
  destruct (list_cut (G2 ++ X) (length X)) as (M & J & EM & HM); [rewrite length_app; lia|].
  pose proof (f_equal length EM) as HJ. rewrite !length_app in HJ.
  rewrite (store_at (y1 ++ y2 ++ G1) M J X);
    [|rewrite <- !app_assoc, EM; same_list|rewrite !length_app; lia|done]. cbn [mbind option_bind].
  rewrite (fetch_at [] y1 (y2 ++ G1 ++ X ++ J)) by (same_list || (cbn [length]; lia)). cbn [mbind option_bind].
  rewrite (store_at (y1 ++ y2 ++ G1 ++ X) J [] y1) by (same_list || (rewrite ?length_app; lia)). cbn [mbind option_bind].
  destruct (Z.ltb_spec g (Z.of_nat (length y1 + length y2))) as [Hlt|Hge].
  - rewrite (fetch_at y1 y2 (G1 ++ X ++ y1)) by (same_list || lia). cbn [mbind option_bind].
    destruct (list_cut (y1 ++ y2) (length y2)) as (M' & J' & EM' & HM'); [rewrite length_app; lia|].
    pose proof (f_equal length EM') as HJ'. rewrite !length_app in HJ'.
    rewrite (store_at [] M' (J' ++ G1 ++ X ++ y1) y2);
      [|rewrite <- !app_assoc, !app_nil_r; rewrite (app_assoc y1 y2), EM'; same_list|cbn [length]; lia|done].
    cbn [mbind option_bind]. case_if; bool_hyps; [|lia].
    destruct (IH (X ++ y1) y2 (J' ++ G1) g) as (A & EA & HA); [lia|rewrite length_app; lia|rewrite length_app; lia|].
    exists A. rewrite !length_app in *. split; [|lia].
    replace ([] ++ y2 ++ J' ++ G1 ++ X ++ y1) with (y2 ++ (J' ++ G1) ++ X ++ y1) by same_list.
    replace (Z.of_nat (length y1 + length y2 + (length G1 + length G2)) - g)
      with (Z.of_nat (length y2 + (length J' + length G1))) by lia.
    replace (Z.of_nat (length X) + g) with (Z.of_nat (length X + length y1)) by lia.
    replace (Z.of_nat (length y1 + length y2) - g) with (Z.of_nat (length y2)) by lia. rewrite EA. do 2 f_equal. same_list.
  - destruct y2; [|cbn [length] in *; lia]. cbn [length] in *. case_if; bool_hyps; [lia|].
    exists (y1 ++ G1). rewrite length_app. split; [|lia]. cbn [mbind option_bind]. f_equal. f_equal; [same_list|lia].
Qed.

(** What packing gives: an error for a full buffer whose samples are in two
    pieces; otherwise the samples end up at the beginning of the buffer. *)
Definition packed (cb : pjmedia_circ_buf) (q : list Z) (st : pj_status_t) (cb' : pjmedia_circ_buf) : Prop :=
  circ_holds cb' q /\ cb_capacity cb' = cb_capacity cb
  /\ (st = PJ_SUCCESS /\ cb_start cb' = 0 /\ take (length q) (cb_buf cb') = q
      \/ st = PJ_ETOOBIG /\ cb' = cb /\ Z.of_nat (length q) = cb_capacity cb).

(** The last step: samples in one piece are moved to the beginning. *)
Lemma pack_end cb q A C mem : circ_holds cb q -> mem = A ++ q ++ C -> length mem = length (cb_buf cb) ->
  exists st cb', (buf ← (if negb (Z.of_nat (length A) =? 0) then
                           d ← fetch mem (Z.of_nat (length A)) (cb_len cb); store mem 0 d
                         else Some mem); Some (PJ_SUCCESS, mk_circ buf (cb_capacity cb) 0 (cb_len cb))) = Some (st, cb')
    /\ packed cb q st cb'.
Proof.
  intros (Hc & Hb & Hl & _) -> Hlen.
  assert (Hend : forall B, length (q ++ B) = length (cb_buf cb) ->
    packed cb q PJ_SUCCESS (mk_circ (q ++ B) (cb_capacity cb) 0 (cb_len cb))).
  { intros B HB. unfold packed. cbn [cb_capacity cb_start cb_buf]. rewrite take_app_length. split; [|auto].
    split_and!; cbn [cb_buf cb_capacity cb_len]; [by rewrite HB|done|done|]. left. exists [], B. cbn. auto. }
  exists PJ_SUCCESS. destruct (Z.eqb_spec (Z.of_nat (length A)) 0) as [E|_]; cbn [negb].
  - destruct A; [|cbn [length] in E; lia]. eexists. split; [reflexivity|]. by apply Hend.
  - rewrite (fetch_app A q C) by (done || lia). cbn [mbind option_bind].
    destruct (list_cut (A ++ q) (length q)) as (M & J & EM & HM); [rewrite length_app; lia|].
    rewrite app_assoc, EM in Hlen. rewrite (store_at [] M (J ++ C) q); [|by rewrite app_assoc, EM; same_list|done|done].
    eexists. split; [reflexivity|]. cbn [app]. apply Hend. rewrite <- Hlen, !length_app. lia.
Qed.

Lemma holds_pack cb q : circ_holds cb q ->
  exists st cb', pjmedia_circ_buf_pack_buffer cb = Some (st, cb') /\ packed cb q st cb'.
Proof.
  intros H. pose proof (holds_fits cb q H) as [Hfit Hs0]. pose proof H as (Hc & Hb & Hl & Hq).
  unfold pjmedia_circ_buf_pack_buffer, pjmedia_circ_buf_get_len. destruct Hq as [Ho|(X & Y & G & Eb & Eq & HX & HY & Es)].
  - rewrite (read_regions_one cb q) by done. destruct Ho as (A & C & Eb & Es & _). cbn [negb andb Z.eqb mbind option_bind].
    rewrite Es. by apply (pack_end cb q A C).
  - rewrite (read_regions_two cb X Y G) by (by rewrite <- ?Eq). apply length_pos in HX, HY. rewrite (u32_small (_ - _)) by (unfold is_u32; lia).
    destruct (Z.eqb_spec (Z.of_nat (length Y)) 0); [lia|]. cbn [negb andb].
    destruct (Z.eqb_spec (cb_capacity cb - cb_len cb) 0).
    + eexists _, _. split; [reflexivity|]. split; [done|]. split; [done|]. right. split_and!; [done|done|lia].
    + assert (Hgap : cb_capacity cb - cb_len cb = Z.of_nat (length G)) by (rewrite Hc, Hl, Eb, Eq, !length_app; lia).
      destruct (pack_loop_spec (length Y) X Y G (cb_capacity cb - cb_len cb)) as (A & EA & HA); [lia|lia|lia|].
      rewrite Nat2Z.id, Es, Eb, EA. cbn [mbind option_bind].
      apply (pack_end cb q A []); [done|by rewrite Eq; same_list|]. rewrite Eb, !length_app. lia.
Qed.

(** ** Runs *)

(** Calls on a buffer. *)
Inductive circ_op :=
  | CRead (n : Z) | CWrite (d : list Z) | CCopy (i n : Z) | CAdvRead (n : Z) | CAdvWrite (n : Z)
  | CSetLen (n : Z) | CReset | CPack.

Definition circ_step (cb : pjmedia_circ_buf) (op : circ_op) : option (pj_status_t * list Z * pjmedia_circ_buf) :=
  match op with
  | CRead n => pjmedia_circ_buf_read cb n
  | CWrite d => '(st, cb) ← pjmedia_circ_buf_write cb d; Some (st, [], cb)
  | CCopy i n => '(st, d) ← pjmedia_circ_buf_copy cb i n; Some (st, d, cb)
  | CAdvRead n => let '(st, cb) := pjmedia_circ_buf_adv_read_ptr cb n in Some (st, [], cb)
  | CAdvWrite n => let '(st, cb) := pjmedia_circ_buf_adv_write_ptr cb n in Some (st, [], cb)
  | CSetLen n => Some (PJ_SUCCESS, [], pjmedia_circ_buf_set_len cb n)
  | CReset => let '(st, cb) := pjmedia_circ_buf_reset cb in Some (st, [], cb)
  | CPack => '(st, cb) ← pjmedia_circ_buf_pack_buffer cb; Some (st, [], cb)
  end.

Fixpoint circ_run (cb : pjmedia_circ_buf) (ops : list circ_op) : option (list (pj_status_t * list Z) * pjmedia_circ_buf) :=
  match ops with
  | [] => Some ([], cb)
  | op :: ops =>
      '(st, d, cb) ← circ_step cb op;
      '(outs, cb) ← circ_run cb ops;
      Some ((st, d) :: outs, cb)
  end.

(** The same calls on a queue of at most [cap] samples: what they may answer,
    and the queue after.  Advancing the write pointer and lengthening the buffer
    add samples that no call has written, of any value. *)
Inductive queue_step (cap : Z) (q : list Z) : circ_op -> pj_status_t * list Z -> list Z -> Prop :=
  | QRead n : n <= Z.of_nat (length q) ->
      queue_step cap q (CRead n) (PJ_SUCCESS, take (Z.to_nat n) q) (drop (Z.to_nat n) q)
  | QReadShort n : Z.of_nat (length q) < n -> queue_step cap q (CRead n) (PJ_ETOOBIG, []) q
  | QWrite d : Z.of_nat (length q + length d) <= cap -> queue_step cap q (CWrite d) (PJ_SUCCESS, []) (q ++ d)
  | QWriteFull d : cap < Z.of_nat (length q + length d) -> queue_step cap q (CWrite d) (PJ_ETOOBIG, []) q
  | QCopy i n : i + n <= Z.of_nat (length q) ->
      queue_step cap q (CCopy i n) (PJ_SUCCESS, take (Z.to_nat n) (drop (Z.to_nat i) q)) q
  | QCopyShort i n : Z.of_nat (length q) < i + n -> queue_step cap q (CCopy i n) (PJ_ETOOBIG, []) q
  | QAdvRead n : queue_step cap q (CAdvRead n) (PJ_SUCCESS, []) (drop (Z.to_nat n) q)
  | QAdvWrite n extra : length extra = Z.to_nat n -> Z.of_nat (length q) + n <= cap ->
      queue_step cap q (CAdvWrite n) (PJ_SUCCESS, []) (q ++ extra)
  | QAdvWriteFull n : cap < Z.of_nat (length q) + n -> queue_step cap q (CAdvWrite n) (PJ_ETOOBIG, []) q
  | QShorten n : n <= Z.of_nat (length q) -> queue_step cap q (CSetLen n) (PJ_SUCCESS, []) (take (Z.to_nat n) q)
  | QLengthen n extra : Z.of_nat (length q) < n -> Z.of_nat (length (q ++ extra)) = n ->
      queue_step cap q (CSetLen n) (PJ_SUCCESS, []) (q ++ extra)
  | QReset : queue_step cap q CReset (PJ_SUCCESS, []) []
  | QPack : queue_step cap q CPack (PJ_SUCCESS, []) q
  | QPackFull : Z.of_nat (length q) = cap -> queue_step cap q CPack (PJ_ETOOBIG, []) q.

Inductive queue_run (cap : Z) : list Z -> list circ_op -> list (pj_status_t * list Z) -> list Z -> Prop :=
  | QDone q : queue_run cap q [] [] q
  | QStep q op out q1 ops outs q2 : queue_step cap q op out q1 -> queue_run cap q1 ops outs q2 ->
      queue_run cap q (op :: ops) (out :: outs) q2.

(** What the calls need of their arguments: counts are of the C type; the sum
    of the index and the count of a copy, and of the count of an advance and the
    length, do not wrap; and the length set is not above the capacity. *)
Definition circ_op_ok (capacity : Z) (op : circ_op) : Prop :=
  match op with
  | CRead n | CAdvRead n => 0 <= n
  | CCopy i n => 0 <= i /\ 0 <= n /\ i + n < 2 ^ 32
  | CAdvWrite n => 0 <= n /\ capacity + n < 2 ^ 32
  | CSetLen n => 0 <= n <= capacity
  | CWrite _ | CReset | CPack => True
  end.
#[global] Instance circ_op_ok_dec capacity op : Decision (circ_op_ok capacity op).
Proof. destruct op; cbn [circ_op_ok]; apply _. Defined.

Lemma write_full cb q d : circ_holds cb q -> cb_capacity cb < Z.of_nat (length q + length d) ->
  pjmedia_circ_buf_write cb d = Some (PJ_ETOOBIG, cb).
Proof.
  intros H Hd. pose proof (holds_fits cb q H) as [Hfit _]. destruct H as (_ & _ & Hl & _). unfold pjmedia_circ_buf_write.
  rewrite Hl, u32_small by (unfold is_u32; lia). case_if; bool_hyps; [done|lia].
Qed.

Lemma holds_adv_write cb q n : circ_holds cb q -> 0 <= n -> cb_capacity cb + n < 2 ^ 32 ->
  exists st cb' q', pjmedia_circ_buf_adv_write_ptr cb n = (st, cb') /\ queue_step (cb_capacity cb) q (CAdvWrite n) (st, []) q'
    /\ circ_holds cb' q' /\ cb_capacity cb' = cb_capacity cb.
Proof.
  intros H Hn Hw. pose proof (holds_fits cb q H) as [Hfit _]. pose proof H as (_ & _ & Hl & _).
  unfold pjmedia_circ_buf_adv_write_ptr. rewrite Hl, !u32_small by (unfold is_u32; lia). case_if; bool_hyps.
  - exists PJ_ETOOBIG, cb, q. split_and!; try done. apply QAdvWriteFull. lia.
  - destruct (holds_lengthen cb q n H Hn) as (extra & He & Hh); [lia|].
    eexists PJ_SUCCESS, _, (q ++ extra). split; [reflexivity|]. split_and!; [by apply QAdvWrite; [|lia]|done|done].
Qed.

Lemma holds_set_any cb q n : circ_holds cb q -> 0 <= n <= cb_capacity cb ->
  exists q', queue_step (cb_capacity cb) q (CSetLen n) (PJ_SUCCESS, []) q' /\ circ_holds (pjmedia_circ_buf_set_len cb n) q'.
Proof.
  intros H Hn. destruct (decide (n <= Z.of_nat (length q))).
  - eexists. split; [by apply QShorten|]. apply holds_set_len; [done|lia].
  - destruct (holds_lengthen cb q (n - Z.of_nat (length q)) H) as (extra & He & Hh); [lia..|].
    rewrite Zplus_minus in Hh. exists (q ++ extra). split; [|done]. apply QLengthen; [lia|]. rewrite length_app. lia.
Qed.

Lemma circ_step_refines cb q op : circ_holds cb q -> circ_op_ok (cb_capacity cb) op ->
  exists st d cb' q', circ_step cb op = Some (st, d, cb') /\ queue_step (cb_capacity cb) q op (st, d) q'
    /\ circ_holds cb' q' /\ cb_capacity cb' = cb_capacity cb.
Proof.
  intros H Hop. destruct op as [n|d|i n|n|n|n| |]; cbn [circ_step circ_op_ok] in *.
  - destruct (holds_read cb q n H Hop) as (st & cb' & E & -> & Hcb). eexists _, _, cb', _. split; [exact E|]. split; [|exact Hcb].
    destruct (Z.ltb_spec (Z.of_nat (length q)) n); by constructor.
  - destruct (decide (Z.of_nat (length q + length d) <= cb_capacity cb)).
    + destruct (holds_write cb q d H) as (cb' & -> & Hcb); [lia|]. eexists _, _, cb', _. split; [reflexivity|]. split; [|exact Hcb].
      by constructor.
    + rewrite (write_full cb q) by (done || lia). eexists _, _, cb, q. split; [reflexivity|]. split; [constructor; lia|done].
  - destruct Hop as (Hi & Hn & Hs). rewrite (holds_copy cb q) by done.
    destruct (Z.ltb_spec (Z.of_nat (length q)) (n + i)); eexists _, _, cb, q; (split; [reflexivity|]); (split; [constructor; lia|done]).
  - destruct (holds_adv_read cb q n H Hop) as (cb' & -> & Hcb). eexists _, _, cb', _. split; [reflexivity|]. split; [constructor|exact Hcb].
  - destruct Hop as [Hn Hw]. destruct (holds_adv_write cb q n H Hn Hw) as (st & cb' & q' & -> & Hs & Hcb).
    eexists _, _, cb', q'. split; [reflexivity|]. by split.
  - destruct (holds_set_any cb q n H Hop) as (q' & Hs & Hh). eexists _, _, _, q'. split; [reflexivity|]. by split_and!.
  - destruct (holds_reset cb q H) as (cb' & -> & Hcb). eexists _, _, cb', _. split; [reflexivity|]. split; [constructor|exact Hcb].
  - destruct (holds_pack cb q H) as (st & cb' & -> & Hh & Hcap & Hst). eexists _, _, cb', q. split; [reflexivity|]. split; [|done].
    destruct Hst as [(-> & _)|(-> & _ & Hf)]; by constructor.
Qed.

Lemma circ_run_refines ops : forall cb q, circ_holds cb q -> Forall (circ_op_ok (cb_capacity cb)) ops ->
  exists outs cb' q', circ_run cb ops = Some (outs, cb') /\ queue_run (cb_capacity cb) q ops outs q' /\ circ_holds cb' q'.
Proof.
  induction ops as [|op ops IH]; intros cb q H HF; cbn [circ_run]; [exists [], cb, q; repeat split; [constructor|apply H..]|].
  apply list.Forall_cons in HF as [Hop HF]. destruct (circ_step_refines cb q op H Hop) as (st & d & cb1 & q1 & -> & Hs & H1 & Hcap).
  rewrite <- Hcap in HF. destruct (IH cb1 q1 H1 HF) as (outs & cb' & q' & E & Hr & H'). cbn [mbind option_bind]. rewrite E. cbn [mbind option_bind].
  eexists _, cb', q'. split; [reflexivity|]. split; [|done]. econstructor; [exact Hs|]. by rewrite <- Hcap.
Qed.

(** C24. Take any calls on a new circular buffer (of less than 2^31 samples)
    that keep to these conditions: a length set is at most the capacity, and the
    sums that a copy and an advance of the write pointer compute fit in 32 bits.
    No call accesses samples outside the buffer, and the calls answer as they
    would on a queue of the capacity asked for: reading and copying give the
    samples in the order written, a write or an advance that does not fit and a
    read of too much change nothing, setting the length drops the newest samples
    or adds unspecified ones, as the advance does, and packing keeps the samples
    and fails only on a full buffer. *)
Theorem circ_refines_queue capacity ops : 0 <= capacity < 2 ^ 31 -> Forall (circ_op_ok capacity) ops ->
  exists outs cb q, circ_run (pjmedia_circ_buf_create capacity) ops = Some (outs, cb)
    /\ queue_run capacity [] ops outs q /\ circ_holds cb q.
Proof. intros Hc HF. exact (circ_run_refines ops _ [] (holds_create capacity Hc) HF). Qed.

Definition circ_calls : list circ_op :=
  [CWrite [1; 2; 3]; CRead 2; CWrite [4; 5]; CCopy 1 2; CPack; CWrite [6; 7]; CSetLen 2; CRead 3;
   CAdvWrite 1; CAdvWrite 2; CAdvRead 2; CSetLen 4].
Lemma circ_refines_queue_witness :
  exists outs cb q, circ_run (pjmedia_circ_buf_create 4) circ_calls = Some (outs, cb)
    /\ queue_run 4 [] circ_calls outs q /\ circ_holds cb q.
Proof. apply (circ_refines_queue 4 circ_calls); [lia|]. apply (bool_decide_unpack _). vm_compute. exact I. Defined.

(** The sum of the arguments of a copy can wrap, and the copy then reads outside
    the buffer. *)
Lemma copy_wraps : pjmedia_circ_buf_copy (mk_circ [1; 2] 2 0 1) 4294967295 1 = None.
Proof. vm_compute. reflexivity. Qed.

(** The other two conditions are needed as well: a count near 2^32 shortens the
    buffer instead of being refused, and a length above the capacity is taken
    and read. *)
Lemma adv_write_wraps : pjmedia_circ_buf_adv_write_ptr (mk_circ [1; 2] 2 0 2) 4294967295 = (PJ_SUCCESS, mk_circ [1; 2] 2 0 1).
Proof. vm_compute. reflexivity. Qed.
Lemma set_len_unchecked : pjmedia_circ_buf_read (pjmedia_circ_buf_set_len (pjmedia_circ_buf_create 2) 5) 5 = None.
Proof. vm_compute. reflexivity. Qed.
