(* ===== verification/DelayBuf.v ===== *)
(** * The delay buffer

    Model of [pjmedia/src/pjmedia/delaybuf.c].  The delay buffer is written
    against two interfaces: [SampleQueue], what it needs of the circular buffer,
    of which [CircBuf] gives an instance, and [Wsola], what it needs of the
    time-scale modification of [wsola.c], which is not modelled. *)

From Stdlib Require Import ZArith Lia Bool.
From stdpp Require Import base list numbers option.
From S2P Require Import Prelude.
From S2P Require Import Blocks.
From S2P Require Import CircBuf.
Local Open Scope Z_scope.

(** ** What the delay buffer asks of its queue *)

(** The operations, and what each does to the samples held.  [sq_samples] reads
    the samples held through the regions, and [sq_overwrite] stores others in
    their place. *)
Class SampleQueue (Q : Type) := {
  sq_create : Z -> Q;
  sq_get_len : Q -> Z;
  sq_set_len : Q -> Z -> Q;
  sq_reset : Q -> pj_status_t * Q;
  sq_adv_read_ptr : Q -> Z -> pj_status_t * Q;
  sq_read : Q -> Z -> option (pj_status_t * list Z * Q);
  sq_write : Q -> list Z -> option (pj_status_t * Q);
  sq_samples : Q -> option (list Z);
  sq_overwrite : Q -> list Z -> option Q;

  sq_holds : Z -> Q -> list Z -> Prop;
  sq_create_ok : forall cap, 0 <= cap < 2 ^ 31 -> sq_holds cap (sq_create cap) [];
  sq_fits : forall cap s q, sq_holds cap s q -> Z.of_nat (length q) <= cap < 2 ^ 31;
  sq_len_ok : forall cap s q, sq_holds cap s q -> sq_get_len s = Z.of_nat (length q);
  sq_set_len_ok : forall cap s q n, sq_holds cap s q -> 0 <= n <= Z.of_nat (length q) ->
    sq_holds cap (sq_set_len s n) (take (Z.to_nat n) q);
  sq_reset_ok : forall cap s q, sq_holds cap s q -> sq_holds cap (snd (sq_reset s)) [];
  sq_adv_ok : forall cap s q n, sq_holds cap s q -> 0 <= n -> sq_holds cap (snd (sq_adv_read_ptr s n)) (drop (Z.to_nat n) q);
  sq_read_ok : forall cap s q n, sq_holds cap s q -> 0 <= n <= Z.of_nat (length q) ->
    exists s', sq_read s n = Some (PJ_SUCCESS, take (Z.to_nat n) q, s') /\ sq_holds cap s' (drop (Z.to_nat n) q);
  sq_read_short : forall cap s q n, sq_holds cap s q -> Z.of_nat (length q) < n -> sq_read s n = Some (PJ_ETOOBIG, [], s);
  sq_write_ok : forall cap s q d, sq_holds cap s q -> Z.of_nat (length q + length d) <= cap ->
    exists s', sq_write s d = Some (PJ_SUCCESS, s') /\ sq_holds cap s' (q ++ d);
  sq_write_full : forall cap s q d, sq_holds cap s q -> cap < Z.of_nat (length q + length d) ->
    sq_write s d = Some (PJ_ETOOBIG, s);
  sq_samples_ok : forall cap s q, sq_holds cap s q -> sq_samples s = Some q;
  sq_overwrite_ok : forall cap s q q', sq_holds cap s q -> length q' = length q ->
    exists s', sq_overwrite s q' = Some s' /\ sq_holds cap s' q'
}.

(** ** The circular buffer as a queue *)

(** Loads and stores through the regions of [pjmedia_circ_buf_get_read_regions]. *)
Definition regions_samples (cb : pjmedia_circ_buf) : option (list Z) :=
  let '(buf1, buf1len, buf2, buf2len) := pjmedia_circ_buf_get_read_regions cb in
  a ← fetch (cb_buf cb) buf1 buf1len;
  b ← fetch_reg (cb_buf cb) buf2 0 buf2len;
  Some (a ++ b).
Definition overwrite_regions (cb : pjmedia_circ_buf) (samples : list Z) : option pjmedia_circ_buf :=
  let '(buf1, buf1len, buf2, _) := pjmedia_circ_buf_get_read_regions cb in
  buf ← store (cb_buf cb) buf1 (take (Z.to_nat buf1len) samples);
  buf ← store_reg buf buf2 (drop (Z.to_nat buf1len) samples);
  Some (mk_circ buf (cb_capacity cb) (cb_start cb) (cb_len cb)).

Lemma overwrite_holds cb q q' : circ_holds cb q -> length q' = length q ->
  exists cb', overwrite_regions cb q' = Some cb' /\ circ_holds cb' q' /\ cb_capacity cb' = cb_capacity cb.
Proof.
  intros H Hlen. pose proof H as (Hc & Hb & Hl & Hq). unfold overwrite_regions.
  destruct Hq as [Ho|(X & Y & G & Eb & -> & HX & HY & Es)].
  - rewrite (read_regions_one cb q) by done. destruct Ho as (A & C & Eb & Es & Hne). rewrite Nat2Z.id, take_ge, drop_ge by lia.
    rewrite Eb, (store_app A q C q') by done. eexists. split; [reflexivity|]. split; [|done].
    unfold circ_holds. cbn [cb_capacity cb_buf cb_len]. rewrite Hc, Eb, !length_app in *. split_and!; [lia|done|lia|].
    left. exists A, C. cbn [cb_buf cb_start]. split_and!; [done|done|]. destruct Hne as [Hne|]; [left|by right].
    intros [-> ->]%app_nil. destruct q; done.
  - rewrite (read_regions_two cb X Y G) by done. rewrite Nat2Z.id. rewrite length_app in Hlen.
    destruct (list_cut q' (length X)) as (X' & Y' & -> & HX'); [lia|]. rewrite length_app in Hlen.
    rewrite take_app_length', drop_app_length' by done. rewrite Eb, Es.
    rewrite (store_at (Y ++ G) X [] X') by (same_list || (rewrite ?length_app; lia)). cbn [mbind option_bind store_reg].
    rewrite (store_at [] Y (G ++ X') Y') by (same_list || (cbn [length]; lia)). cbn [mbind option_bind app].
    eexists. split; [reflexivity|]. split; [|done]. unfold circ_holds. cbn [cb_capacity cb_buf cb_len].
    rewrite Hc, Eb, !length_app in *. split_and!; [lia|done|lia|]. apply length_pos in HX, HY.
    right. exists X', Y', G. cbn [cb_buf cb_start]. split_and!; [done|done|apply length_pos; lia|apply length_pos; lia|lia].
Qed.

Lemma samples_held cb q : circ_holds cb q -> regions_samples cb = Some q.
Proof.
  intros H. pose proof H as (Hc & Hb & Hl & Hq). unfold regions_samples.
  destruct Hq as [Ho|(X & Y & G & Eb & -> & HX & HY & Es)].
  - rewrite (read_regions_one cb q) by done. destruct Ho as (A & C & Eb & Es & _). rewrite Eb, (fetch_app A q C) by done.
    cbn. by rewrite app_nil_r.
  - rewrite (read_regions_two cb X Y G) by done. rewrite Eb, Es.
    rewrite (fetch_at (Y ++ G) X []) by (same_list || (rewrite ?length_app; lia)). cbn [mbind option_bind fetch_reg].
    by rewrite (fetch_at [] Y (G ++ X)) by (same_list || (cbn [length]; lia)).
Qed.

#[export, refine] Instance circ_sample_queue : SampleQueue pjmedia_circ_buf := {
  sq_create := pjmedia_circ_buf_create;
  sq_get_len := pjmedia_circ_buf_get_len;
  sq_set_len := pjmedia_circ_buf_set_len;
  sq_reset := pjmedia_circ_buf_reset;
  sq_adv_read_ptr := pjmedia_circ_buf_adv_read_ptr;
  sq_read := pjmedia_circ_buf_read;
  sq_write := pjmedia_circ_buf_write;
  sq_samples := regions_samples;
  sq_overwrite := overwrite_regions;
  sq_holds cap cb q := circ_holds cb q /\ cb_capacity cb = cap
}.
Proof.
  - intros cap Hc. split; [by apply holds_create|done].
  - intros cap s q [H <-]. by apply (holds_fits s q).
  - intros cap s q [(_ & _ & Hl & _) _]. exact Hl.
  - intros cap s q n [H <-] Hn. by apply holds_set_len.
  - intros cap s q [H <-]. by destruct (holds_reset s q H) as (? & -> & ? & ?).
  - intros cap s q n [H <-] Hn. by destruct (holds_adv_read s q n H Hn) as (? & -> & ? & ?).
  - intros cap s q n [H <-] Hn. destruct (holds_read s q n H) as (st & s' & -> & -> & H' & Hc); [lia|].
    rewrite (proj2 (Z.ltb_ge (Z.of_nat (length q)) n)) in * by lia. eauto.
  - intros cap s q n [H <-] Hn. unfold pjmedia_circ_buf_read. destruct H as (_ & _ & -> & _).
    by rewrite (proj2 (Z.ltb_lt (Z.of_nat (length q)) n)) by lia.
  - intros cap s q d [H <-] Hd. destruct (holds_write s q d H) as (s' & -> & ? & ?); [lia|eauto].
  - intros cap s q d [H <-] Hd. by apply (write_full s q d).
  - intros cap s q [H _]. by apply samples_held.
  - intros cap s q q' [H <-] Hl. destruct (overwrite_holds s q q' H Hl) as (s' & -> & ? & ?). eauto.
Defined.

(** ** What the delay buffer asks of the time-scale modification *)

(** Discarding changes the samples in place and tells how many of them, at the
    end, are no longer needed; saving can change the frame it is given. *)
Class Wsola (W : Type) := {
  pjmedia_wsola_discard : W -> list Z -> Z -> pj_status_t * list Z * Z * W;
  pjmedia_wsola_save : W -> list Z -> pj_status_t * list Z * W;
  pjmedia_wsola_generate : W -> Z -> pj_status_t * list Z * W;
  pjmedia_wsola_reset : W -> W;

  wsola_discard_ok : forall w l n st l' k w', pjmedia_wsola_discard w l n = (st, l', k, w') ->
    length l' = length l /\ 0 <= k <= Z.of_nat (length l);
  wsola_save_ok : forall w f st f' w', pjmedia_wsola_save w f = (st, f', w') -> length f' = length f;
  wsola_generate_ok : forall w n st f w', 0 <= n -> pjmedia_wsola_generate w n = (st, f, w') -> Z.of_nat (length f) = n
}.

(** ** The delay buffer *)

Inductive OP := OP_PUT | OP_GET.
#[global] Instance OP_eq_dec : EqDecision OP.
Proof. solve_decision. Defined.

Definition RECALC_TIME : Z := 2000.
Definition DEFAULT_MAX_DELAY : Z := 400.
Definition SAFE_MARGIN : Z := 0.
Definition PJMEDIA_DELAY_BUF_SIMPLE_FIFO : Z := 1.

Section DelayBuf.
Context {Q : Type} {SQ : SampleQueue Q} {W : Type} {WS : Wsola W}.

Record pjmedia_delay_buf := mk_delay {
  db_samples_per_frame : Z; db_ptime : Z; db_channel_count : Z; db_circ_buf : Q; db_max_cnt : Z; db_eff_cnt : Z;
  db_level : Z; db_last_op : OP; db_recalc_timer : Z; db_max_level : Z; db_wsola : option W
}.

Definition with_queue (b : pjmedia_delay_buf) (q : Q) : pjmedia_delay_buf :=
  mk_delay (db_samples_per_frame b) (db_ptime b) (db_channel_count b) q (db_max_cnt b) (db_eff_cnt b)
    (db_level b) (db_last_op b) (db_recalc_timer b) (db_max_level b) (db_wsola b).
Definition with_wsola (b : pjmedia_delay_buf) (w : W) : pjmedia_delay_buf :=
  mk_delay (db_samples_per_frame b) (db_ptime b) (db_channel_count b) (db_circ_buf b) (db_max_cnt b) (db_eff_cnt b)
    (db_level b) (db_last_op b) (db_recalc_timer b) (db_max_level b) (Some w).
Definition with_learning (b : pjmedia_delay_buf) (eff_cnt level : Z) (last_op : OP) (recalc_timer max_level : Z)
    : pjmedia_delay_buf :=
  mk_delay (db_samples_per_frame b) (db_ptime b) (db_channel_count b) (db_circ_buf b) (db_max_cnt b) eff_cnt
    level last_op recalc_timer max_level (db_wsola b).

(** [wsola] is the result of [pjmedia_wsola_create], and [lock_status] that of
    creating the lock.  [None] is a division by zero. *)
Definition pjmedia_delay_buf_create (clock_rate samples_per_frame channel_count max_delay options : Z)
    (wsola : pj_status_t + W) (lock_status : pj_status_t) : option (pj_status_t + pjmedia_delay_buf) :=
  if (samples_per_frame =? 0) || (clock_rate =? 0) || (channel_count =? 0) then Some (inl PJ_EINVAL)
  else
    let ptime := u32 (samples_per_frame * 1000) / clock_rate / channel_count in
    let max_delay := if max_delay <? ptime then Z.max DEFAULT_MAX_DELAY ptime else max_delay in
    if ptime =? 0 then None
    else
      let max_cnt := u32 (samples_per_frame * max_delay) / ptime in
      let b w := mk_delay samples_per_frame ptime channel_count (sq_create max_cnt) max_cnt (Z.shiftr max_cnt 1)
                   0 OP_PUT RECALC_TIME 0 w in
      let finish w := if lock_status =? PJ_SUCCESS then Some (inr (b w)) else Some (inl lock_status) in
      if Z.land options PJMEDIA_DELAY_BUF_SIMPLE_FIFO =? 0 then
        match wsola with inl st => Some (inl st) | inr w => finish (Some w) end
      else finish None.

(** The request goes to the time-scale modification; what it erased is taken off
    the end.  The assertion [pj_assert(erase_cnt && ...)] in front is not modelled:
    it stops a debug build for frames of one sample, where the count is 0. *)
Definition shrink_buffer (b : pjmedia_delay_buf) (erase_cnt : Z) : option pjmedia_delay_buf :=
  match db_wsola b with
  | None => Some b
  | Some w =>
      samples ← sq_samples (db_circ_buf b);
      let '(st, samples, erase_cnt, w) := pjmedia_wsola_discard w samples erase_cnt in
      cb ← sq_overwrite (db_circ_buf b) samples;
      let cb := if (st =? PJ_SUCCESS) && (0 <? erase_cnt) then sq_set_len cb (u32 (sq_get_len cb - erase_cnt)) else cb in
      Some (with_wsola (with_queue b cb) w)
  end.

Definition AGC (cur target : Z) : Z :=
  if cur <? target then Z.shiftr (u32 (cur + target * 3)) 2 else Z.shiftr (u32 (cur * 3 + target)) 2.

Definition recalc (b : pjmedia_delay_buf) : pjmedia_delay_buf :=
  if db_recalc_timer b <=? 0 then
    let new_eff_cnt := u32 ((db_max_level b + SAFE_MARGIN) * db_samples_per_frame b) in
    let eff_cnt := AGC (db_eff_cnt b) new_eff_cnt in
    let eff_cnt := if eff_cnt mod db_channel_count b =? 0 then eff_cnt
                   else u32 (eff_cnt + (db_channel_count b - eff_cnt mod db_channel_count b)) in
    with_learning b eff_cnt (db_level b) (db_last_op b) RECALC_TIME 0
  else b.

Definition update (b : pjmedia_delay_buf) (op : OP) : option pjmedia_delay_buf :=
  if decide (op = db_last_op b) then
    Some (with_learning b (db_eff_cnt b) (u32 (db_level b + 1)) (db_last_op b) (db_recalc_timer b) (db_max_level b))
  else
    let max_level := if db_max_level b <? db_level b then db_level b else db_max_level b in
    let timer := s32 (db_recalc_timer b - Z.shiftr (u32 (db_level b * db_ptime b)) 1) in
    let b := recalc (with_learning b (db_eff_cnt b) 1 op timer max_level) in
    match op with
    | OP_PUT =>
        if u32 (db_samples_per_frame b + db_eff_cnt b) <? sq_get_len (db_circ_buf b)
        then shrink_buffer b (Z.shiftr (db_samples_per_frame b) 1) else Some b
    | OP_GET => Some b
    end.

(** The samples missing for another frame. *)
Definition excess (b : pjmedia_delay_buf) : Z := u32 (sq_get_len (db_circ_buf b) + db_samples_per_frame b - db_max_cnt b).
Definition overflows (b : pjmedia_delay_buf) : bool :=
  db_max_cnt b <? u32 (sq_get_len (db_circ_buf b) + db_samples_per_frame b).

(** Making room: shrinking, and dropping the oldest samples if that failed. *)
Definition make_space (b : pjmedia_delay_buf) : option pjmedia_delay_buf :=
  if overflows b then
    b ← shrink_buffer b (excess b);
    if overflows b then Some (with_queue b (snd (sq_adv_read_ptr (db_circ_buf b) (excess b)))) else Some b
  else Some b.

(** [frame] has [samples_per_frame] samples. *)
Definition pjmedia_delay_buf_put (b : pjmedia_delay_buf) (frame : list Z) : option (pj_status_t * pjmedia_delay_buf) :=
  '(st, frame, b) ←
    match db_wsola b with
    | None => Some (PJ_SUCCESS, frame, b)
    | Some _ =>
        b ← update b OP_PUT;
        match db_wsola b with
        | Some w => let '(st, frame, w) := pjmedia_wsola_save w frame in Some (st, frame, with_wsola b w)
        | None => Some (PJ_SUCCESS, frame, b)
        end
    end;
  if negb (st =? PJ_SUCCESS) then Some (st, b)
  else
    b ← make_space b;
    '(_, cb) ← sq_write (db_circ_buf b) frame;
    Some (PJ_SUCCESS, with_queue b cb).

(** The end of a get: the frame from the buffer, over what [frame] holds. *)
Definition take_frame (b : pjmedia_delay_buf) (frame : list Z) : option (pj_status_t * list Z * pjmedia_delay_buf) :=
  '(st, data, cb) ← sq_read (db_circ_buf b) (db_samples_per_frame b);
  Some (PJ_SUCCESS, data ++ drop (length data) frame, with_queue b cb).

(** What is left, padded with zeroes. *)
Definition take_rest (b : pjmedia_delay_buf) : option (pj_status_t * list Z * pjmedia_delay_buf) :=
  let buf_len := sq_get_len (db_circ_buf b) in
  '(_, data, cb) ← sq_read (db_circ_buf b) buf_len;
  Some (PJ_SUCCESS, data ++ replicate (Z.to_nat (u32 (db_samples_per_frame b - buf_len))) 0, with_queue b (snd (sq_reset cb))).

(** [frame] is what the buffer of the caller holds before. *)
Definition pjmedia_delay_buf_get (b : pjmedia_delay_buf) (frame : list Z)
    : option (pj_status_t * list Z * pjmedia_delay_buf) :=
  b ← match db_wsola b with Some _ => update b OP_GET | None => Some b end;
  if sq_get_len (db_circ_buf b) <? db_samples_per_frame b then
    match db_wsola b with
    | Some w =>
        let '(st, frame, w) := pjmedia_wsola_generate w (db_samples_per_frame b) in
        let b := with_wsola b w in
        if st =? PJ_SUCCESS then
          if sq_get_len (db_circ_buf b) =? 0 then Some (PJ_SUCCESS, frame, b)
          else
            '(_, cb) ← sq_write (db_circ_buf b) frame;
            take_frame (with_queue b cb) frame
        else take_rest b
    | None => take_rest b
    end
  else take_frame b frame.

Definition pjmedia_delay_buf_reset (b : pjmedia_delay_buf) : pjmedia_delay_buf :=
  let b := with_queue b (snd (sq_reset (db_circ_buf b))) in
  let b := with_learning b (db_eff_cnt b) (db_level b) (db_last_op b) RECALC_TIME (db_max_level b) in
  match db_wsola b with Some w => with_wsola b (pjmedia_wsola_reset w) | None => b end.

(** [status] is the result of [pjmedia_wsola_destroy]; the lock goes with the
    memory. *)
Definition pjmedia_delay_buf_destroy (b : pjmedia_delay_buf) (status : pj_status_t) : pj_status_t * pjmedia_delay_buf :=
  match db_wsola b with
  | None => (PJ_SUCCESS, b)
  | Some _ =>
      (status, if status =? PJ_SUCCESS
               then mk_delay (db_samples_per_frame b) (db_ptime b) (db_channel_count b) (db_circ_buf b) (db_max_cnt b)
                      (db_eff_cnt b) (db_level b) (db_last_op b) (db_recalc_timer b) (db_max_level b) None
               else b)
  end.
End DelayBuf.

(** ** What every call keeps *)

Section Props.
Context {Q : Type} {SQ : SampleQueue Q} {W : Type} {WS : Wsola W}.
Implicit Types (b : pjmedia_delay_buf (Q := Q) (W := W)) (q : list Z).

(** The buffer holds [q], at most [max_cnt] samples, with room for a frame. *)
Definition delay_holds b q : Prop :=
  sq_holds (db_max_cnt b) (db_circ_buf b) q /\ 0 < db_samples_per_frame b <= db_max_cnt b.

(** The same settings, and time-scale modification as before. *)
Definition same_setup b b' : Prop :=
  db_samples_per_frame b' = db_samples_per_frame b /\ db_max_cnt b' = db_max_cnt b
  /\ (db_wsola b' = None <-> db_wsola b = None).
#[local] Instance same_setup_preorder : PreOrder same_setup.
Proof.
  split; [by intros b|]. intros b1 b2 b3 (H1 & H2 & H3) (K1 & K2 & K3). split_and!; [congruence|congruence|tauto].
Qed.

Lemma delay_len b q : delay_holds b q -> sq_get_len (db_circ_buf b) = Z.of_nat (length q)
  /\ Z.of_nat (length q) <= db_max_cnt b < 2 ^ 31.
Proof. intros [H _]. split; [by eapply sq_len_ok|by eapply sq_fits]. Qed.

Lemma shrink_ok b q n : delay_holds b q ->
  exists b' q', shrink_buffer b n = Some b' /\ delay_holds b' q' /\ same_setup b b' /\ (length q' <= length q)%nat
    /\ (db_wsola b = None -> b' = b /\ q' = q).
Proof.
  intros [H Hs]. unfold shrink_buffer. destruct (db_wsola b) as [w|] eqn:Ew; [|by exists b, q; split_and!].
  rewrite (sq_samples_ok _ _ _ H). cbn [mbind option_bind].
  destruct (pjmedia_wsola_discard w q n) as [[[st l] k] w'] eqn:Ed. apply wsola_discard_ok in Ed as [Hl Hk].
  destruct (sq_overwrite_ok _ _ _ l H Hl) as (cb & -> & Hcb). cbn [mbind option_bind].
  pose proof (sq_len_ok _ _ _ Hcb) as Hlen. pose proof (sq_fits _ _ _ Hcb) as Hf. rewrite Hlen, u32_small by (unfold is_u32; lia).
  assert (Hset : forall cb', same_setup b (with_wsola (with_queue b cb') w')) by (intros cb'; split_and!; try done; cbn; rewrite Ew; done).
  destruct ((st =? PJ_SUCCESS) && (0 <? k)); eexists _, _; (split; [reflexivity|]).
  - split; [split; [apply sq_set_len_ok; [exact Hcb|lia]|done]|]. rewrite length_take. split_and!; try done; lia.
  - split; [split; [exact Hcb|done]|]. split_and!; try done; lia.
Qed.

Lemma recalc_setup b : same_setup b (recalc b) /\ db_circ_buf (recalc b) = db_circ_buf b.
Proof. unfold recalc. by case_if. Qed.

Lemma update_ok b q op : delay_holds b q ->
  exists b' q', update b op = Some b' /\ delay_holds b' q' /\ same_setup b b' /\ (length q' <= length q)%nat.
Proof.
  intros H. unfold update. destruct (decide (op = db_last_op b)); [by eexists _, q|].
  set (b0 := with_learning b _ 1 op _ _). destruct (recalc_setup b0) as [Hs Hc].
  assert (H0 : delay_holds (recalc b0) q) by (unfold delay_holds; destruct Hs as (-> & -> & _); rewrite Hc; exact H).
  assert (Hb : same_setup b (recalc b0)) by (transitivity b0; done).
  destruct op; [|by eexists _, q]. case_if; [|by eexists _, q].
  destruct (shrink_ok (recalc b0) q (Z.shiftr (db_samples_per_frame (recalc b0)) 1) H0) as (b' & q' & Esh & H' & Hs' & Hl & _).
  exists b', q'. split; [exact Esh|]. split_and!; try done. by transitivity (recalc b0).
Qed.

(** Room for a frame; without time-scale modification the oldest samples that
    are in the way go. *)
Lemma make_space_ok b q : delay_holds b q ->
  exists b' q', make_space b = Some b' /\ delay_holds b' q' /\ same_setup b b'
    /\ Z.of_nat (length q') + db_samples_per_frame b <= db_max_cnt b
    /\ (db_wsola b = None -> q' = drop (Z.to_nat (Z.of_nat (length q) + db_samples_per_frame b - db_max_cnt b)) q).
Proof.
  intros H. destruct (delay_len b q H) as [Hlen Hfit]. pose proof (proj2 H) as Hspf. unfold make_space, overflows at 1. rewrite Hlen, u32_small by (unfold is_u32; lia).
  case_if; bool_hyps; [|exists b, q; split_and!; try done; rewrite Z2Nat.nonpos by lia; done].
  destruct (shrink_ok b q (excess b) H) as (b1 & q1 & -> & H1 & Hs1 & Hl1 & Hn1). cbn [mbind option_bind].
  destruct (delay_len b1 q1 H1) as [Hlen1 Hfit1]. unfold overflows, excess. rewrite Hlen1. pose proof Hs1 as (Es & Em & _). rewrite Es, Em in *.
  rewrite u32_small by (unfold is_u32; lia). case_if; bool_hyps.
  - rewrite u32_small by (unfold is_u32; lia). eexists _, _. split; [reflexivity|]. split; [split; [apply sq_adv_ok; [apply H1|lia]|apply H1]|].
    split; [exact Hs1|]. rewrite length_drop. split; [lia|]. intros Hw. by destruct (Hn1 Hw) as [-> ->].
  - exists b1, q1. split_and!; try done. intros Hw. destruct (Hn1 Hw) as [-> ->]. lia.
Qed.

Lemma put_ok b q f : delay_holds b q -> Z.of_nat (length f) = db_samples_per_frame b ->
  exists st b' q', pjmedia_delay_buf_put b f = Some (st, b') /\ delay_holds b' q' /\ same_setup b b'
    /\ (st = PJ_SUCCESS -> exists q0 f', q' = q0 ++ f' /\ length f' = length f)
    /\ (db_wsola b = None -> st = PJ_SUCCESS
        /\ q' = drop (Z.to_nat (Z.of_nat (length q) + db_samples_per_frame b - db_max_cnt b)) q ++ f).
Proof.
  intros H Hf. unfold pjmedia_delay_buf_put.
  assert (Hend : forall b1 q1 f1, delay_holds b1 q1 -> same_setup b b1 -> length f1 = length f ->
    exists b' q', (b2 ← make_space b1; '(_, cb) ← sq_write (db_circ_buf b2) f1; Some (PJ_SUCCESS, with_queue b2 cb)) = Some (PJ_SUCCESS, b')
      /\ delay_holds b' q' /\ same_setup b b' /\ (exists q0 f', q' = q0 ++ f' /\ length f' = length f)
      /\ (db_wsola b1 = None -> q' = drop (Z.to_nat (Z.of_nat (length q1) + db_samples_per_frame b1 - db_max_cnt b1)) q1 ++ f1)).
  { intros b1 q1 f1 H1 S1 Hf1. destruct (make_space_ok b1 q1 H1) as (b2 & q2 & -> & H2 & S2 & Hroom & Hdrop). cbn [mbind option_bind].
    pose proof S1 as (E1 & M1 & _). pose proof S2 as (E2 & M2 & _).
    destruct (sq_write_ok _ _ _ f1 (proj1 H2)) as (cb & -> & Hcb); [lia|]. cbn [mbind option_bind].
    eexists _, (q2 ++ f1). split; [reflexivity|]. split; [split; [exact Hcb|apply H2]|]. split; [by transitivity b1; [|transitivity b2]|].
    split; [by exists q2, f1|]. intros Hw. by rewrite (Hdrop Hw). }
  destruct (db_wsola b) as [w|] eqn:Ew.
  - destruct (update_ok b q OP_PUT H) as (b1 & q1 & -> & H1 & S1 & _). cbn [mbind option_bind].
    destruct (db_wsola b1) as [w1|] eqn:Ew1; [|destruct S1 as (_ & _ & S1); rewrite Ew in S1; by apply S1 in Ew1].
    destruct (pjmedia_wsola_save w1 f) as [[st f'] w2] eqn:Es. apply wsola_save_ok in Es. cbn [mbind option_bind].
    assert (S2 : same_setup b (with_wsola b1 w2)) by (transitivity b1; [done|split_and!; try done; cbn; rewrite Ew1; done]).
    destruct (Z.eqb_spec st PJ_SUCCESS) as [->|Hst]; cbn [negb].
    + destruct (Hend (with_wsola b1 w2) q1 f' H1 S2 Es) as (b' & q' & -> & H' & S' & Hq' & _). exists PJ_SUCCESS, b', q'. by split_and!.
    + exists st, (with_wsola b1 w2), q1. by split_and!.
  - cbn [mbind option_bind negb Z.eqb PJ_SUCCESS]. destruct (Hend b q f H) as (b' & q' & E & H' & S' & Hq' & Hn); [done|done|].
    exists PJ_SUCCESS, b', q'. split_and!; try done. by intros _; split; [|apply Hn].
Qed.

(** The frame of a get: the first samples held, or all of them and zeroes. *)
Lemma take_rest_ok b q : delay_holds b q -> Z.of_nat (length q) < db_samples_per_frame b ->
  exists b', take_rest b = Some (PJ_SUCCESS, q ++ replicate (Z.to_nat (db_samples_per_frame b) - length q) 0, b')
    /\ delay_holds b' [] /\ same_setup b b'.
Proof.
  intros H Hl. destruct (delay_len b q H) as [Hlen Hfit]. unfold take_rest. rewrite Hlen.
  destruct (sq_read_ok _ _ _ (Z.of_nat (length q)) (proj1 H)) as (cb & -> & Hcb); [lia|]. cbn [mbind option_bind].
  rewrite Nat2Z.id, take_ge, u32_small by (unfold is_u32; destruct H; lia).
  replace (Z.to_nat (db_samples_per_frame b - Z.of_nat (length q))) with (Z.to_nat (db_samples_per_frame b) - length q)%nat by lia.
  eexists. split; [reflexivity|]. split; [split; [eapply sq_reset_ok, Hcb|apply H]|done].
Qed.

Lemma take_frame_ok b q f : delay_holds b q -> db_samples_per_frame b <= Z.of_nat (length q) ->
  Z.of_nat (length f) = db_samples_per_frame b ->
  exists b', take_frame b f = Some (PJ_SUCCESS, take (Z.to_nat (db_samples_per_frame b)) q, b')
    /\ delay_holds b' (drop (Z.to_nat (db_samples_per_frame b)) q) /\ same_setup b b'.
Proof.
  intros H Hl Hf. unfold take_frame. pose proof (proj2 H). destruct (sq_read_ok _ _ _ (db_samples_per_frame b) (proj1 H)) as (cb & -> & Hcb); [lia|].
  cbn [mbind option_bind]. exists (with_queue b cb). split; [|split; [split; [exact Hcb|apply H]|done]].
  rewrite (drop_ge f) by (rewrite length_take; lia). by rewrite app_nil_r.
Qed.

(** The frame without time-scale modification: zeroes follow what is held. *)
Definition padded_frame (spf : Z) q : list Z := take (Z.to_nat spf) (q ++ replicate (Z.to_nat spf) 0).

Lemma padded_short spf q : Z.of_nat (length q) < spf -> padded_frame spf q = q ++ replicate (Z.to_nat spf - length q) 0.
Proof. intros. unfold padded_frame. rewrite take_app_ge by lia. f_equal. rewrite take_replicate. f_equal. lia. Qed.
Lemma padded_long spf q : spf <= Z.of_nat (length q) -> padded_frame spf q = take (Z.to_nat spf) q.
Proof. intros. unfold padded_frame. apply take_app_le. lia. Qed.

Lemma get_ok b q f : delay_holds b q -> Z.of_nat (length f) = db_samples_per_frame b ->
  exists g b' q', pjmedia_delay_buf_get b f = Some (PJ_SUCCESS, g, b') /\ delay_holds b' q' /\ same_setup b b'
    /\ Z.of_nat (length g) = db_samples_per_frame b
    /\ (db_wsola b = None -> g = padded_frame (db_samples_per_frame b) q /\ q' = drop (Z.to_nat (db_samples_per_frame b)) q).
Proof.
  intros H Hf. unfold pjmedia_delay_buf_get. pose proof (proj2 H) as Hspf. destruct (db_wsola b) as [w|] eqn:Ew.
  - destruct (update_ok b q OP_GET H) as (b1 & q1 & -> & H1 & S1 & _). cbn [mbind option_bind].
    destruct (delay_len b1 q1 H1) as [Hlen _]. pose proof S1 as (Es & Em & Hw). rewrite Hlen.
    assert (Hfin : forall b2 q2 f2, same_setup b b2 -> delay_holds b2 q2 -> db_samples_per_frame b <= Z.of_nat (length q2) ->
      Z.of_nat (length f2) = db_samples_per_frame b ->
      exists g b' q', take_frame b2 f2 = Some (PJ_SUCCESS, g, b') /\ delay_holds b' q' /\ same_setup b b'
        /\ Z.of_nat (length g) = db_samples_per_frame b
        /\ (Some w = None -> g = padded_frame (db_samples_per_frame b) q /\ q' = drop (Z.to_nat (db_samples_per_frame b)) q)).
    { intros b2 q2 f2 S2 H2 Hl2 Hf2. pose proof S2 as (E2 & _). rewrite <- E2 in *. destruct (take_frame_ok b2 q2 f2 H2) as (b' & -> & H' & S'); [lia|lia|].
      eexists _, b', _. split; [reflexivity|]. split; [exact H'|]. split; [by transitivity b2|]. split; [rewrite length_take; lia|done]. }
    destruct (Z.ltb_spec (Z.of_nat (length q1)) (db_samples_per_frame b1)); [|apply (Hfin b1 q1); [done|done|lia|done]].
    destruct (db_wsola b1) as [w1|] eqn:Ew1; [|exfalso; assert (Hn : Some w = None) by (rewrite <- Ew; by apply Hw); discriminate].
    destruct (pjmedia_wsola_generate w1 (db_samples_per_frame b1)) as [[st g] w2] eqn:Eg. apply wsola_generate_ok in Eg; [|lia].
    assert (S2 : forall cb, same_setup b (with_queue (with_wsola b1 w2) cb)) by (intros cb; split_and!; try done; cbn; rewrite Ew; done).
    destruct (Z.eqb_spec st PJ_SUCCESS) as [->|_]; [cbn [db_circ_buf with_wsola]; rewrite Hlen; destruct (Z.eqb_spec (Z.of_nat (length q1)) 0)|].
    + eexists g, _, q1. split; [reflexivity|]. split_and!; try done; [apply (S2 (db_circ_buf b1))|lia].
    + destruct (decide (Z.of_nat (length q1 + length g) <= db_max_cnt b1)).
      * destruct (sq_write_ok _ _ _ g (proj1 H1)) as (cb & -> & Hcb); [done|]. cbn [mbind option_bind].
        apply (Hfin _ (q1 ++ g) g (S2 cb)); [split; [exact Hcb|apply H1]|rewrite length_app; lia|lia].
      * rewrite (sq_write_full _ _ _ g (proj1 H1)) by lia. cbn [mbind option_bind]. unfold take_frame. cbn [db_circ_buf db_samples_per_frame with_queue with_wsola].
        rewrite (sq_read_short _ _ _ _ (proj1 H1)) by done. eexists _, _, q1. split; [reflexivity|].
        split; [exact H1|]. split; [apply S2|]. split; [cbn [app length]; rewrite drop_0; lia|done].
    + destruct (take_rest_ok (with_wsola b1 w2) q1 H1) as (b' & -> & H' & S'); [done|]. eexists _, b', _. split; [reflexivity|].
      split; [exact H'|]. split; [by transitivity (with_wsola b1 w2); [apply (S2 (db_circ_buf b1))|]|].
      split; [|done]. rewrite length_app, length_replicate. cbn. lia.
  - cbn [mbind option_bind]. rewrite Ew. destruct (delay_len b q H) as [Hlen _]. rewrite Hlen.
    destruct (Z.ltb_spec (Z.of_nat (length q)) (db_samples_per_frame b)).
    + destruct (take_rest_ok b q H) as (b' & -> & H' & S'); [done|]. eexists _, b', _. split; [reflexivity|]. split; [exact H'|].
      split; [done|]. split; [rewrite length_app, length_replicate; lia|]. rewrite padded_short, drop_ge by lia. done.
    + destruct (take_frame_ok b q f H) as (b' & -> & H' & S'); [done|done|]. eexists _, b', _. split; [reflexivity|]. split; [exact H'|].
      split; [done|]. split; [rewrite length_take; lia|]. by rewrite padded_long.
Qed.

Lemma reset_ok b q : delay_holds b q -> delay_holds (pjmedia_delay_buf_reset b) [] /\ same_setup b (pjmedia_delay_buf_reset b).
Proof.
  intros [H Hs]. pose proof (sq_reset_ok _ _ _ H) as Hr. unfold pjmedia_delay_buf_reset. cbn [db_wsola with_learning with_queue].
  destruct (db_wsola b) eqn:Ew; (split; [split; [exact Hr|exact Hs]|]); split_and!; try done; cbn; by rewrite Ew.
Qed.

(** ** Creation *)

(** Arguments for which the products of [pjmedia_delay_buf_create] fit the type,
    and the frame time is not zero. *)
Definition create_args_ok (clock_rate spf channels max_delay : Z) : Prop :=
  0 < clock_rate /\ 0 < spf /\ 0 < channels /\ clock_rate * channels <= spf * 1000 < 2 ^ 32 /\ 0 <= max_delay
  /\ spf * Z.max (Z.max DEFAULT_MAX_DELAY (spf * 1000 / clock_rate / channels)) max_delay < 2 ^ 31.
#[global] Instance create_args_ok_dec c s n d : Decision (create_args_ok c s n d).
Proof. unfold create_args_ok. apply _. Defined.

Lemma create_ok clock_rate spf channels max_delay options wsola : create_args_ok clock_rate spf channels max_delay ->
  match wsola with inl _ => Z.land options PJMEDIA_DELAY_BUF_SIMPLE_FIFO <> 0 | inr _ => True end ->
  exists b, pjmedia_delay_buf_create clock_rate spf channels max_delay options wsola PJ_SUCCESS = Some (inr b)
    /\ delay_holds b [] /\ db_samples_per_frame b = spf
    /\ db_wsola b = (if Z.land options PJMEDIA_DELAY_BUF_SIMPLE_FIFO =? 0
                     then match wsola with inr w => Some w | inl _ => None end else None).
Proof.
  intros (Hr & Hs & Hc & Hp & Hm & Hmax) Hw. unfold pjmedia_delay_buf_create.
  rewrite (proj2 (Z.eqb_neq spf 0)), (proj2 (Z.eqb_neq clock_rate 0)), (proj2 (Z.eqb_neq channels 0)) by lia. cbn [orb].
  rewrite (u32_small (spf * 1000)) by (unfold is_u32; nia). set (ptime := spf * 1000 / clock_rate / channels) in *.
  assert (Hpt : 1 <= ptime) by (subst ptime; rewrite Z.div_div by lia; apply Z.div_le_lower_bound; nia).
  set (md := if max_delay <? ptime then Z.max DEFAULT_MAX_DELAY ptime else max_delay).
  assert (Hmd : ptime <= md <= Z.max (Z.max DEFAULT_MAX_DELAY ptime) max_delay) by (subst md; case_if; bool_hyps; lia).
  rewrite (proj2 (Z.eqb_neq ptime 0)) by lia. rewrite (u32_small (spf * md)) by (unfold is_u32; nia).
  assert (Hcnt : spf <= spf * md / ptime < 2 ^ 31).
  { split; [apply Z.div_le_lower_bound; nia|]. apply Z.div_lt_upper_bound; [lia|]. nia. }
  assert (Hb : forall w, delay_holds (mk_delay spf ptime channels (sq_create (spf * md / ptime)) (spf * md / ptime)
    (Z.shiftr (spf * md / ptime) 1) 0 OP_PUT RECALC_TIME 0 w) []).
  { intros w. split; cbn; [apply sq_create_ok; lia|lia]. }
  cbn [Z.eqb PJ_SUCCESS]. destruct (Z.eqb_spec (Z.land options PJMEDIA_DELAY_BUF_SIMPLE_FIFO) 0); [destruct wsola; [done|]|];
    eexists; (split; [reflexivity|]); by split.
Qed.

(** ** Runs *)

(** A get has a buffer for the frame, whose contents are the argument. *)
Inductive delay_op := DPut (frame : list Z) | DGet (frame : list Z) | DReset.

Definition delay_step b (op : delay_op) : option (pj_status_t * list Z * pjmedia_delay_buf) :=
  match op with
  | DPut f => '(st, b) ← pjmedia_delay_buf_put b f; Some (st, [], b)
  | DGet f => pjmedia_delay_buf_get b f
  | DReset => Some (PJ_SUCCESS, [], pjmedia_delay_buf_reset b)
  end.
Fixpoint delay_run b (ops : list delay_op) : option (list (pj_status_t * list Z) * pjmedia_delay_buf) :=
  match ops with
  | [] => Some ([], b)
  | op :: ops =>
      '(st, f, b) ← delay_step b op;
      '(outs, b) ← delay_run b ops;
      Some ((st, f) :: outs, b)
  end.

Definition delay_op_ok (spf : Z) (op : delay_op) : Prop :=
  match op with DPut f | DGet f => Z.of_nat (length f) = spf | DReset => True end.

(** The same calls on a list of samples of which the newest [max] are kept. *)
Definition newest (max : Z) (l : list Z) : list Z := drop (length l - Z.to_nat max) l.
Definition fifo_step (spf max : Z) q (op : delay_op) : pj_status_t * list Z * list Z :=
  match op with
  | DPut f => (PJ_SUCCESS, [], newest max (q ++ f))
  | DGet _ => (PJ_SUCCESS, padded_frame spf q, drop (Z.to_nat spf) q)
  | DReset => (PJ_SUCCESS, [], [])
  end.
Fixpoint fifo_run (spf max : Z) q (ops : list delay_op) : list (pj_status_t * list Z) * list Z :=
  match ops with
  | [] => ([], q)
  | op :: ops =>
      let '(st, f, q) := fifo_step spf max q op in
      let '(outs, q) := fifo_run spf max q ops in
      ((st, f) :: outs, q)
  end.

Lemma delay_step_fifo b q op : delay_holds b q -> db_wsola b = None -> delay_op_ok (db_samples_per_frame b) op ->
  exists b', delay_step b op = Some (fst (fst (fifo_step (db_samples_per_frame b) (db_max_cnt b) q op)),
                                     snd (fst (fifo_step (db_samples_per_frame b) (db_max_cnt b) q op)), b')
    /\ delay_holds b' (snd (fifo_step (db_samples_per_frame b) (db_max_cnt b) q op)) /\ same_setup b b'.
Proof.
  intros H Hw Hop. destruct op as [f|f|]; cbn [delay_step delay_op_ok fifo_step fst snd] in *.
  - destruct (put_ok b q f H Hop) as (st & b' & q' & -> & H' & S' & _ & Hn). destruct (Hn Hw) as [-> ->].
    exists b'. split; [done|]. split; [|done]. unfold newest. destruct H as [_ Hs]. rewrite length_app, drop_app_le by lia.
    by replace (length q + length f - Z.to_nat (db_max_cnt b))%nat with (Z.to_nat (Z.of_nat (length q) + db_samples_per_frame b - db_max_cnt b)) by lia.
  - destruct (get_ok b q f H Hop) as (g & b' & q' & -> & H' & S' & _ & Hn). destruct (Hn Hw) as [-> ->]. by exists b'.
  - destruct (reset_ok b q H) as [H' S']. by eexists.
Qed.

Lemma delay_run_fifo ops : forall b q, delay_holds b q -> db_wsola b = None -> Forall (delay_op_ok (db_samples_per_frame b)) ops ->
  exists b', delay_run b ops = Some (fst (fifo_run (db_samples_per_frame b) (db_max_cnt b) q ops), b')
    /\ delay_holds b' (snd (fifo_run (db_samples_per_frame b) (db_max_cnt b) q ops)).
Proof.
  induction ops as [|op ops IH]; intros b q H Hw HF; cbn [delay_run fifo_run]; [by exists b|].
  apply list.Forall_cons in HF as [Hop HF]. destruct (delay_step_fifo b q op H Hw Hop) as (b1 & -> & H1 & Es & Em & Hw1).
  destruct (fifo_step _ _ q op) as [[st f] q1]. cbn [mbind option_bind fst snd] in *. rewrite <- Es, <- Em in *.
  destruct (IH b1 q1 H1) as (b' & -> & H'); [by apply Hw1|done|]. destruct (fifo_run _ _ q1 ops) as [outs q2]. by exists b'.
Qed.

(** The answers a delay buffer may give. *)
Definition answer_ok (spf : Z) (op : delay_op) (out : pj_status_t * list Z) : Prop :=
  match op with DGet _ => fst out = PJ_SUCCESS /\ Z.of_nat (length (snd out)) = spf | _ => True end.

Lemma delay_run_total ops : forall b q, delay_holds b q -> Forall (delay_op_ok (db_samples_per_frame b)) ops ->
  exists outs b' q', delay_run b ops = Some (outs, b') /\ delay_holds b' q' /\ same_setup b b'
    /\ Forall2 (answer_ok (db_samples_per_frame b)) ops outs.
Proof.
  induction ops as [|op ops IH]; intros b q H HF; cbn [delay_run]; [by exists [], b, q|].
  apply list.Forall_cons in HF as [Hop HF].
  assert (Hstep : exists st f b1 q1, delay_step b op = Some (st, f, b1) /\ delay_holds b1 q1 /\ same_setup b b1
    /\ answer_ok (db_samples_per_frame b) op (st, f)).
  { destruct op as [f|f|]; cbn [delay_step delay_op_ok] in *.
    - destruct (put_ok b q f H Hop) as (st & b1 & q1 & -> & H1 & S1 & _). by eexists _, _, b1, q1.
    - destruct (get_ok b q f H Hop) as (g & b1 & q1 & -> & H1 & S1 & Hg & _). by eexists _, _, b1, q1.
    - destruct (reset_ok b q H) as [H1 S1]. by eexists _, _, _, []. }
  destruct Hstep as (st & f & b1 & q1 & -> & H1 & S1 & Ha). pose proof S1 as (Es & _). cbn [mbind option_bind]. rewrite <- Es in *.
  destruct (IH b1 q1 H1 HF) as (outs & b' & q' & -> & H' & S' & HA). eexists _, b', q'. split; [reflexivity|].
  split; [done|]. split; [by transitivity b1|]. by constructor.
Qed.
End Props.

(** ** The delay buffer on the circular buffer *)

(** C25. A delay buffer made as a simple FIFO answers any sequence of calls as a
    list of samples of which the newest [max_cnt] are kept: a frame put is
    appended and the oldest samples beyond the maximum go; a get takes the
    oldest frame, filled up with zeroes when too little is there. *)
Theorem delay_buf_is_fifo {W} `{Wsola W} clock_rate spf channels max_delay ops :
  create_args_ok clock_rate spf channels max_delay -> Forall (delay_op_ok spf) ops ->
  exists b b' : pjmedia_delay_buf (Q := pjmedia_circ_buf) (W := W),
    pjmedia_delay_buf_create clock_rate spf channels max_delay PJMEDIA_DELAY_BUF_SIMPLE_FIFO (inl PJ_EINVAL) PJ_SUCCESS = Some (inr b)
    /\ delay_run b ops = Some (fst (fifo_run spf (db_max_cnt b) [] ops), b')
    /\ sq_samples (db_circ_buf b') = Some (snd (fifo_run spf (db_max_cnt b) [] ops)).
Proof.
  intros Hargs HF. destruct (create_ok (Q := pjmedia_circ_buf) (W := W) clock_rate spf channels max_delay
    PJMEDIA_DELAY_BUF_SIMPLE_FIFO (inl PJ_EINVAL) Hargs) as (b & E & Hb & <- & Hw); [done|].
  destruct (delay_run_fifo ops b [] Hb Hw HF) as (b' & Er & Hb'). exists b, b'. split_and!; try done.
  exact (sq_samples_ok _ _ _ (proj1 Hb')).
Qed.

(** C37. With time-scale modification, whatever it answers: no call accesses
    samples outside the circular buffer, every get succeeds and delivers a whole
    frame, and no more than the maximum is ever held. *)
Theorem delay_buf_total {W} `{Wsola W} clock_rate spf channels max_delay options w ops :
  create_args_ok clock_rate spf channels max_delay -> Forall (delay_op_ok spf) ops ->
  exists (b b' : pjmedia_delay_buf (Q := pjmedia_circ_buf) (W := W)) outs,
    pjmedia_delay_buf_create clock_rate spf channels max_delay options (inr w) PJ_SUCCESS = Some (inr b)
    /\ delay_run b ops = Some (outs, b') /\ Forall2 (answer_ok spf) ops outs
    /\ sq_get_len (db_circ_buf b') <= db_max_cnt b.
Proof.
  intros Hargs HF. destruct (create_ok (Q := pjmedia_circ_buf) clock_rate spf channels max_delay options (inr w) Hargs I)
    as (b & E & Hb & <- & _).
  destruct (delay_run_total ops b [] Hb HF) as (outs & b' & q' & Er & Hb' & (_ & Em & _) & HA). exists b, b', outs. split_and!; try done.
  destruct (delay_len b' q' Hb') as [-> Hfit]. lia.
Qed.

(** A time-scale modification that erases what it is asked to at the end, and
    repeats silence. *)
#[local, refine] Instance cutting_wsola : Wsola unit := {
  pjmedia_wsola_discard w l n := (PJ_SUCCESS, l, Z.max 0 (Z.min n (Z.of_nat (length l))), w);
  pjmedia_wsola_save w f := (PJ_SUCCESS, f, w);
  pjmedia_wsola_generate w n := (PJ_SUCCESS, replicate (Z.to_nat n) 0, w);
  pjmedia_wsola_reset w := w
}.
Proof.
  - intros w l n st l' k w' [= <- <- <- <-]. lia.
  - by intros w f st f' w' [= <- <- <-].
  - intros w n st f w' Hn [= <- <- <-]. rewrite length_replicate. lia.
Defined.

(** Frames of 8 samples at 1000 samples a second, 20 milliseconds at most. *)
Definition frame_of (x : Z) : list Z := replicate 8 x.
Definition delay_calls : list delay_op :=
  [DPut (frame_of 1); DPut (frame_of 2); DPut (frame_of 3); DGet (frame_of 0); DGet (frame_of 0); DReset; DGet (frame_of 0)].

Lemma delay_buf_is_fifo_witness : exists b b' : pjmedia_delay_buf (Q := pjmedia_circ_buf) (W := unit),
  pjmedia_delay_buf_create 1000 8 1 20 PJMEDIA_DELAY_BUF_SIMPLE_FIFO (inl PJ_EINVAL) PJ_SUCCESS = Some (inr b)
  /\ delay_run b delay_calls = Some (fst (fifo_run 8 (db_max_cnt b) [] delay_calls), b')
  /\ sq_samples (db_circ_buf b') = Some (snd (fifo_run 8 (db_max_cnt b) [] delay_calls)).
Proof. apply (delay_buf_is_fifo 1000 8 1 20 delay_calls); [apply (bool_decide_unpack _); vm_compute; exact I|by repeat constructor]. Defined.

Lemma delay_buf_total_witness : exists (b b' : pjmedia_delay_buf (Q := pjmedia_circ_buf) (W := unit)) outs,
  pjmedia_delay_buf_create 1000 8 1 20 0 (inr tt) PJ_SUCCESS = Some (inr b)
  /\ delay_run b delay_calls = Some (outs, b') /\ Forall2 (answer_ok 8) delay_calls outs
  /\ sq_get_len (db_circ_buf b') <= db_max_cnt b.
Proof. apply (delay_buf_total 1000 8 1 20 0 tt delay_calls); [apply (bool_decide_unpack _); vm_compute; exact I|by repeat constructor]. Defined.

(** A frame of less than a millisecond divides by zero; a maximum delay meant as
    negative is taken for a large one, and the capacity wraps. *)
Lemma short_frame_divides_by_zero :
  pjmedia_delay_buf_create (Q := pjmedia_circ_buf) 48000 40 1 100 0 (inr tt) PJ_SUCCESS = None.
Proof. vm_compute. reflexivity. Qed.
Lemma negative_delay_wraps :
  match pjmedia_delay_buf_create (Q := pjmedia_circ_buf) 8000 160 1 (u32 (-1)) 1 (inr tt) PJ_SUCCESS with
  | Some (inr b) => db_max_cnt b =? 214748356
  | _ => false
  end = true.
Proof. unfold pjmedia_delay_buf_create. cbn [sq_create circ_sample_queue]. reflexivity. Qed.
