(* ===== verification/Pool.v ===== *)
(** * Memory pools of pjlib (pjlib/src/pj/pool.c, pool_i.h, pool_buf.c)

    A pool hands out memory from a list of blocks by moving a pointer; blocks
    come from the factory's policy.  Addresses are integers and what the memory
    holds is not modelled: the theorems are about which addresses are handed out.
    The layout is that of a 64-bit build ([pj_size_t] has 64 bits).

    The policy function [block_alloc] is outside the pool: what it answers is an
    argument, an address or [None] for NULL.  [granted] states what the pool
    relies on: the memory is aligned, inside the address space and overlaps no
    memory the pool has. *)

From Stdlib Require Import ZArith Lia Bool.
From stdpp Require Import base list numbers option.
From S2P Require Import Prelude.
Local Open Scope Z_scope.

(** ** Data *)

Definition PJ_POOL_ALIGNMENT : Z := 4.
Definition SIZEOF_POOL : Z := 128.
Definition SIZEOF_BLOCK : Z := 40.

Record pj_pool_block := mk_blk { blk_addr : Z; blk_buf : Z; blk_cur : Z; blk_end : Z }.

(** [struct pj_pool_t] less list links, name, factory and callback;
    [block_list] from its [next]. *)
Record pj_pool_t := mk_pool {
  pool_addr : Z; pool_factory_data : Z; pool_capacity : Z; increment_size : Z;
  block_list : list pj_pool_block }.

(** The answer to a request: an address, or NULL, with the size the callback
    was called with if it was. *)
Inductive alloc_result := Allocated (p : Z) | Failed (callback : option Z).

Definition ALIGN_PTR (ptr alignment : Z) : Z := ptr + Z.land (- ptr) (alignment - 1).

(** ** Allocation *)

(** The size rounded up to the alignment, in [pj_size_t]. *)
Definition round_size (size : Z) : Z :=
  if Z.land size (PJ_POOL_ALIGNMENT - 1) =? 0 then size
  else Z.land (u64 (size + PJ_POOL_ALIGNMENT)) (u64 (Z.lnot (PJ_POOL_ALIGNMENT - 1))).

Definition pj_pool_alloc_from_block (block : pj_pool_block) (size0 : Z)
    : option (Z * pj_pool_block) :=
  let size := round_size size0 in
  if u64 (blk_end block - blk_cur block) >=? size
  then Some (blk_cur block,
             mk_blk (blk_addr block) (blk_buf block) (blk_cur block + size) (blk_end block))
  else None.

Definition with_blocks (l : list pj_pool_block) (pool : pj_pool_t) : pj_pool_t :=
  mk_pool (pool_addr pool) (pool_factory_data pool) (pool_capacity pool) (increment_size pool) l.

(** The block is put in front of the list. *)
Definition new_block (addr size : Z) : pj_pool_block :=
  let buf := addr + SIZEOF_BLOCK in
  mk_blk addr buf (ALIGN_PTR buf PJ_POOL_ALIGNMENT) (addr + size).

Definition pj_pool_create_block (pool : pj_pool_t) (size : Z) (grant : option Z)
    : option Z * pj_pool_t :=
  match grant with
  | None => (Some size, pool)
  | Some addr =>
      (None, mk_pool (pool_addr pool) (pool_factory_data pool) (u64 (pool_capacity pool + size))
               (increment_size pool) (new_block addr size :: block_list pool))
  end.

(** The search through the blocks of [pj_pool_allocate_find]. *)
Fixpoint alloc_from_blocks (l : list pj_pool_block) (size : Z)
    : option (Z * list pj_pool_block) :=
  match l with
  | [] => None
  | b :: l' =>
      match pj_pool_alloc_from_block b size with
      | Some (p, b') => Some (p, b' :: l')
      | None => '(p, l'') ← alloc_from_blocks l' size; Some (p, b :: l'')
      end
  end.

(** The size of the block that is added for a request. *)
Definition grow_block_size (increment size : Z) : Z :=
  if increment <? u64 (size + SIZEOF_BLOCK + PJ_POOL_ALIGNMENT)
  then u64 (u64 (size + increment + SIZEOF_BLOCK + PJ_POOL_ALIGNMENT) / increment * increment)
  else increment.

Definition pj_pool_allocate_find (pool : pj_pool_t) (size : Z) (grant : option Z)
    : alloc_result * pj_pool_t :=
  match alloc_from_blocks (block_list pool) size with
  | Some (p, l) => (Allocated p, with_blocks l pool)
  | None =>
      if increment_size pool =? 0 then (Failed (Some size), pool)
      else
        match pj_pool_create_block pool (grow_block_size (increment_size pool) size) grant with
        | (Some cb, pool') => (Failed (Some cb), pool')
        | (None, pool') =>
            match block_list pool' with
            | [] => (Failed None, pool')
            | b :: l =>
                match pj_pool_alloc_from_block b size with
                | Some (p, b') => (Allocated p, with_blocks (b' :: l) pool')
                | None => (Failed None, pool')
                end
            end
        end
  end.

Definition pj_pool_alloc (pool : pj_pool_t) (size : Z) (grant : option Z)
    : alloc_result * pj_pool_t :=
  match block_list pool with
  | b :: l =>
      match pj_pool_alloc_from_block b size with
      | Some (p, b') => (Allocated p, with_blocks (b' :: l) pool)
      | None => pj_pool_allocate_find pool size grant
      end
  | [] => pj_pool_allocate_find pool size grant
  end.

(** The memory is then cleared. *)
Definition pj_pool_calloc (pool : pj_pool_t) (count size : Z) (grant : option Z)
    : alloc_result * pj_pool_t :=
  pj_pool_alloc pool (u64 (size * count)) grant.

Definition pj_pool_get_capacity (pool : pj_pool_t) : Z := pool_capacity pool.

Fixpoint used_in (l : list pj_pool_block) (used : Z) : Z :=
  match l with
  | [] => used
  | b :: l' => used_in l' (u64 (used + (blk_cur b - blk_buf b) + SIZEOF_BLOCK))
  end.
Definition pj_pool_get_used_size (pool : pj_pool_t) : Z := used_in (block_list pool) SIZEOF_POOL.

(** ** Creation, reset and destruction *)

(** The pool structure and its first block lie in the memory granted for
    [initial_size] bytes. *)
Definition pj_pool_create_int (initial_size increment : Z) (grant : option Z)
    : option pj_pool_t :=
  if initial_size <? SIZEOF_POOL + SIZEOF_BLOCK then None
  else
    match grant with
    | None => None
    | Some buffer =>
        let addr := buffer + SIZEOF_POOL in
        let buf := addr + SIZEOF_BLOCK in
        Some (mk_pool buffer 0 initial_size increment
                [mk_blk addr buf (ALIGN_PTR buf PJ_POOL_ALIGNMENT) (buffer + initial_size)])
    end.

(** Of [pj_pool_init_int], what concerns memory. *)
Definition pj_pool_init_int (pool : pj_pool_t) (increment : Z) : pj_pool_t :=
  mk_pool (pool_addr pool) (pool_factory_data pool) (pool_capacity pool) increment (block_list pool).

(** The blocks are freed from the second oldest to the newest; the result has
    the calls of [block_free], address and size. *)
Definition reset_pool (pool : pj_pool_t) : list (Z * Z) * pj_pool_t :=
  match reverse (block_list pool) with
  | [] => ([], pool)
  | first :: others =>
      ((fun b => (blk_addr b, blk_end b - blk_addr b)) <$> others,
       mk_pool (pool_addr pool) (pool_factory_data pool) (blk_end first - pool_addr pool)
         (increment_size pool)
         [mk_blk (blk_addr first) (blk_buf first) (ALIGN_PTR (blk_buf first) PJ_POOL_ALIGNMENT)
            (blk_end first)])
  end.

Definition pj_pool_reset (pool : pj_pool_t) : list (Z * Z) * pj_pool_t := reset_pool pool.

Definition pj_pool_destroy_int (pool : pj_pool_t) : list (Z * Z) :=
  let '(freed, pool') := reset_pool pool in
  match block_list pool' with
  | [] => freed
  | b :: _ => freed ++ [(pool_addr pool', blk_end b - pool_addr pool')]
  end.

(** A pool on a buffer of the caller: the buffer is moved up by its residue,
    then given to the pool as its only memory. *)
Definition align_buffer (buf size : Z) : Z * Z :=
  if Z.land buf (PJ_POOL_ALIGNMENT - 1) =? 0 then (buf, size)
  else let align_diff := Z.land buf (PJ_POOL_ALIGNMENT - 1) in
       (buf + align_diff, u64 (size - align_diff)).

Definition pj_pool_create_on_buf (buf size : Z) : option pj_pool_t :=
  if (buf =? 0) || (size =? 0) then None
  else let '(buf', size') := align_buffer buf size in pj_pool_create_int size' 0 (Some buf').

