(* ===== verification/PoolSpec.v ===== *)
(** * The memory a pool hands out

    The invariant of a pool and of the allocations that are live in it, and the
    theorems about [pj_pool_alloc]: allocations never overlap, and a pool that
    may grow fails only when its factory does. *)

From Stdlib Require Import ZArith Lia Bool.
From stdpp Require Import base list numbers option.
From S2P Require Import Prelude Pool.
Local Open Scope Z_scope.

(** ** Alignment *)

Lemma land_3 x : Z.land x 3 = x mod 4.
Proof. change 3 with (Z.ones 2); apply Z.land_ones; lia. Qed.

Lemma land_not_3 x : 0 <= x < 18446744073709551616 ->
  Z.land x (u64 (Z.lnot 3)) = x - x mod 4.
Proof.
  intros Hx; change (u64 (Z.lnot 3)) with (Z.land (Z.lnot 3) (Z.ones 64)).
  rewrite Z.land_assoc, (Z.land_comm x), <- Z.land_assoc, Z.land_ones, Z.mod_small by lia.
  rewrite Z.land_comm; change (Z.land x (Z.lnot 3)) with (Z.land x (Z.lnot (Z.ones 2))).
  rewrite <- Z.ldiff_land, Z.ldiff_ones_r, Z.shiftl_mul_pow2, Z.shiftr_div_pow2 by lia.
  change (2 ^ 2) with 4; pose proof (Z.div_mod x 4); lia.
Qed.

(** Requests below this bound do not wrap when they are rounded up. *)
Definition size_ok (n : Z) : Prop := 0 <= n < 4611686018427387904.

Lemma round_size_spec n : size_ok n -> n <= round_size n < n + 4 /\ round_size n mod 4 = 0.
Proof.
  intros Hn; unfold size_ok, round_size, PJ_POOL_ALIGNMENT in *; change (4 - 1) with 3.
  rewrite land_3; destruct (n mod 4 =? 0) eqn:E; bool_hyps; [lia|].
  rewrite land_not_3 by int_lia; unfold u64; rewrite (Z.mod_small (n + 4)) by lia.
  Z.to_euclidean_division_equations; lia.
Qed.

Lemma ALIGN_PTR_spec p : p <= ALIGN_PTR p PJ_POOL_ALIGNMENT < p + 4
  /\ ALIGN_PTR p PJ_POOL_ALIGNMENT mod 4 = 0
  /\ (p mod 4 = 0 -> ALIGN_PTR p PJ_POOL_ALIGNMENT = p).
Proof.
  unfold ALIGN_PTR, PJ_POOL_ALIGNMENT; change (4 - 1) with 3; rewrite land_3.
  Z.to_euclidean_division_equations; lia.
Qed.

(** ** The invariant *)

(** Half-open address ranges that do not overlap. *)
Definition apart (r s : Z * Z) : Prop := r.2 <= s.1 \/ s.2 <= r.1.

Definition addr_limit : Z := 4611686018427387904.

Record blk_wf (b : pj_pool_block) : Prop := {
  bw_addr : 0 < blk_addr b /\ blk_addr b mod 4 = 0;
  bw_buf : blk_buf b = blk_addr b + SIZEOF_BLOCK;
  bw_cur : blk_buf b <= blk_cur b <= blk_end b;
  bw_align : blk_cur b mod 4 = 0;
  bw_end : blk_end b <= addr_limit }.

Definition blk_range (b : pj_pool_block) : Z * Z := (blk_addr b, blk_end b).
Definition pool_ranges (pool : pj_pool_t) : list (Z * Z) :=
  (pool_addr pool, pool_addr pool + SIZEOF_POOL) :: (blk_range <$> block_list pool).

Definition range_sum (l : list pj_pool_block) : Z :=
  foldr (fun b n => blk_end b - blk_addr b + n) 0 l.

Record pool_wf (pool : pj_pool_t) : Prop := {
  pw_blocks : Forall blk_wf (block_list pool);
  pw_apart : ForallOrdPairs apart (pool_ranges pool);
  pw_first : exists b, list.last (block_list pool) = Some b
    /\ blk_addr b = pool_addr pool + SIZEOF_POOL;
  pw_addr : 0 < pool_addr pool;
  pw_incr : size_ok (increment_size pool);
  pw_capacity : pool_capacity pool = SIZEOF_POOL + range_sum (block_list pool);
  pw_limit : pool_capacity pool <= addr_limit }.

(** What the pool relies on in the answer of [block_alloc]. *)
Record granted (pool : pj_pool_t) (addr size : Z) : Prop := {
  gr_addr : 0 < addr /\ addr mod 4 = 0;
  gr_end : addr + size <= addr_limit;
  gr_total : pool_capacity pool + size <= addr_limit;
  gr_apart : Forall (apart (addr, addr + size)) (pool_ranges pool) }.

(** The allocations in use, address and size requested: aligned, below the
    [cur] pointer of one block, and apart from each other. *)
Definition alloc_range (a : Z * Z) : Z * Z := (a.1, a.1 + a.2).
Definition in_block (a : Z * Z) (b : pj_pool_block) : Prop :=
  blk_buf b <= a.1 /\ a.1 + a.2 <= blk_cur b.

Record live_ok (pool : pj_pool_t) (live : list (Z * Z)) : Prop := {
  lo_each : forall a, a ∈ live -> a.1 mod 4 = 0 /\ 0 <= a.2
              /\ exists b, b ∈ block_list pool /\ in_block a b;
  lo_apart : ForallOrdPairs apart (alloc_range <$> live) }.

(** ** One block *)

Lemma alloc_from_block_spec b n p b' :
  blk_wf b -> size_ok n -> pj_pool_alloc_from_block b n = Some (p, b') ->
  p = blk_cur b /\ blk_wf b' /\ blk_range b' = blk_range b /\ blk_buf b' = blk_buf b
  /\ p + n <= blk_cur b' /\ blk_cur b <= blk_cur b'.
Proof.
  intros [Ha Hb Hc Hal He] Hn; unfold pj_pool_alloc_from_block, addr_limit, SIZEOF_BLOCK in *.
  destruct (round_size_spec n Hn) as [Hr Hm]; unfold size_ok in Hn.
  unfold u64; rewrite Z.mod_small by lia; rewrite Z.geb_leb.
  destruct (round_size n <=? _) eqn:E; [|done]; bool_hyps; intros [= <- <-]; simpl.
  repeat split; simpl; unfold addr_limit, SIZEOF_BLOCK; try done; try lia.
  rewrite Z.add_mod, Hal, Hm by lia; done.
Qed.

Lemma alloc_from_block_room b n :
  blk_wf b -> size_ok n -> n + 4 <= blk_end b - blk_cur b ->
  is_Some (pj_pool_alloc_from_block b n).
Proof.
  intros [Ha Hb Hc Hal He] Hn Hroom; unfold pj_pool_alloc_from_block, addr_limit in *.
  destruct (round_size_spec n Hn) as [Hr _].
  unfold u64, SIZEOF_BLOCK in *; rewrite Z.mod_small by lia; rewrite Z.geb_leb.
  destruct (_ <=? _) eqn:E; [eexists; done|]; bool_hyps; lia.
Qed.

(** ** Lists with one block advanced *)

(** [l'] is [l] with one block moved on by an allocation at [p]. *)
Definition advanced (n p : Z) (l l' : list pj_pool_block) : Prop :=
  exists l1 b b' l2, l = l1 ++ b :: l2 /\ l' = l1 ++ b' :: l2
    /\ pj_pool_alloc_from_block b n = Some (p, b').

Lemma alloc_from_blocks_spec l n p l' :
  alloc_from_blocks l n = Some (p, l') -> advanced n p l l'.
Proof.
  revert l'; induction l as [|b l IH]; intros l' E; simpl in E; [done|].
  destruct (pj_pool_alloc_from_block b n) as [[q b']|] eqn:Eb.
  - injection E as <- <-; exists [], b, b', l; done.
  - destruct (alloc_from_blocks l n) as [[q l'']|]; simpl in E; [|done]; injection E as <- <-.
    destruct (IH l'' eq_refl) as (l1 & c & c' & l2 & -> & -> & Ec).
    exists (b :: l1), c, c', l2; done.
Qed.

Lemma range_sum_app l k : range_sum (l ++ k) = range_sum l + range_sum k.
Proof. unfold range_sum; induction l as [|b l IH]; simpl; lia. Qed.

(** Other blocks are apart from the one that moved. *)
Lemma apart_middle (l1 l2 : list pj_pool_block) b c :
  ForallOrdPairs apart (blk_range <$> l1 ++ b :: l2) -> c ∈ l1 \/ c ∈ l2 ->
  apart (blk_range c) (blk_range b) \/ apart (blk_range b) (blk_range c).
Proof.
  induction l1 as [|x l1 IH]; simpl; intros H Hc; inversion H as [|? ? Hx Hrest]; subst.
  - destruct Hc as [[]%not_elem_of_nil|Hc]; right.
    rewrite list.Forall_forall in Hx; apply Hx, list_elem_of_fmap; exists c; done.
  - destruct Hc as [[->|Hc]%elem_of_cons|Hc]; auto; left.
    rewrite list.Forall_forall in Hx; apply Hx, list_elem_of_fmap; exists b; split; [done|].
    apply elem_of_app; right; apply list_elem_of_here.
Qed.

Lemma apart_sym r s : apart r s -> apart s r.
Proof. unfold apart; tauto. Qed.

Section Advance.
Context (pool : pj_pool_t) (W : pool_wf pool).
Context (n p : Z) (Hn : size_ok n) (l' : list pj_pool_block).
Context (Hadv : advanced n p (block_list pool) l').

Lemma advanced_wf : pool_wf (with_blocks l' pool).
Proof.
  destruct Hadv as (l1 & b & b' & l2 & El & -> & Ea); destruct W as [Hb Hap Hf Hadr Hi Hcap Hlim].
  assert (Wb : blk_wf b) by (rewrite El in Hb; apply Forall_app in Hb as [_ Hb]; inversion Hb; done).
  destruct (alloc_from_block_spec b n p b' Wb Hn Ea) as (-> & Wb' & Er & Ebuf & Hp & Hc).
  assert (Em : blk_range <$> l1 ++ b' :: l2 = blk_range <$> block_list pool)
    by (rewrite El, !fmap_app, !fmap_cons, Er; done).
  constructor; simpl; try done.
  - rewrite El in Hb; apply Forall_app in Hb as [H1 H2]; inversion H2; subst.
    apply Forall_app; split; [done|]; constructor; done.
  - unfold pool_ranges in *; simpl; rewrite Em; done.
  - destruct Hf as (f & Hf & Hfa); rewrite El in Hf.
    destruct l2 as [|c l2].
    + rewrite last_snoc in Hf |- *; injection Hf as <-; exists b'; split; [done|].
      injection Er as -> _; done.
    + exists f; split; [|done].
      change (l1 ++ b :: c :: l2) with (l1 ++ [b] ++ c :: l2) in Hf.
      change (l1 ++ b' :: c :: l2) with (l1 ++ [b'] ++ c :: l2).
      rewrite app_assoc, last_app_cons in Hf; rewrite app_assoc, last_app_cons; done.
  - rewrite Hcap, El, !range_sum_app; simpl; injection Er as -> ->; lia.
Qed.

Lemma advanced_live live :
  live_ok pool live -> live_ok (with_blocks l' pool) ((p, n) :: live).
Proof.
  intros [Heach Hpair]; destruct Hadv as (l1 & b & b' & l2 & El & -> & Ea).
  destruct W as [Hb Hap _ _ _ _ _].
  assert (Wall : forall c, c ∈ block_list pool -> blk_wf c) by (apply list.Forall_forall; done).
  assert (Wb : blk_wf b) by (apply Wall; rewrite El; apply elem_of_app; right; apply list_elem_of_here).
  destruct (alloc_from_block_spec b n p b' Wb Hn Ea) as (-> & Wb' & Er & Ebuf & Hp & Hc).
  pose proof (bw_cur _ Wb) as Hcb; pose proof (bw_cur _ Wb') as Hcb'.
  injection Er as Eaddr Eend; unfold size_ok in Hn.
  constructor.
  - intros a [->|Ha]%elem_of_cons.
    + simpl; split; [apply Wb|]; split; [lia|]; exists b'; split; [|split; simpl; lia].
      apply elem_of_app; right; apply list_elem_of_here.
    + destruct (Heach a Ha) as (Hal & Hsz & c & Hcin & Hin); split; [done|]; split; [done|].
      rewrite El in Hcin; apply elem_of_app in Hcin as [Hc1|[->|Hc2]%elem_of_cons].
      * exists c; split; [simpl; apply elem_of_app; left; done|done].
      * exists b'; split; [simpl; apply elem_of_app; right; apply list_elem_of_here|].
        unfold in_block in *; lia.
      * exists c; split; [simpl; apply elem_of_app; right; apply list_elem_of_further; done|done].
  - simpl; constructor; [|done]; rewrite list.Forall_forall; intros r (a & -> & Ha)%list_elem_of_fmap.
    destruct (Heach a Ha) as (_ & Hsz & c & Hcin & Hin); unfold in_block, apart, alloc_range in *; simpl.
    assert (Wc := Wall c Hcin); pose proof (bw_cur _ Wc); pose proof (bw_buf _ Wc); pose proof (bw_buf _ Wb).
    rewrite El in Hcin; apply elem_of_app in Hcin as [Hc1|[->|Hc2]%elem_of_cons]; [|right; lia|];
      (inversion Hap as [|? ? _ Hap']; subst; rewrite El in Hap';
       destruct (apart_middle l1 l2 b c Hap') as [Hx|Hx]; [auto| |]; unfold apart, blk_range in Hx;
       simpl in Hx; unfold SIZEOF_BLOCK in *; lia).
Qed.
End Advance.

(** ** Growing *)

(** The block that is added for a request has room for it. *)
Lemma grow_block_size_spec inc n :
  size_ok inc -> 0 < inc -> size_ok n ->
  n + SIZEOF_BLOCK + 4 <= grow_block_size inc n
  /\ grow_block_size inc n <= n + inc + SIZEOF_BLOCK + 4 + inc.
Proof.
  intros Hi Hpos Hn; unfold size_ok, grow_block_size, SIZEOF_BLOCK, PJ_POOL_ALIGNMENT, u64 in *.
  rewrite (Z.mod_small (n + 40 + 4)) by lia; destruct (inc <? n + 40 + 4) eqn:E; bool_hyps; [|lia].
  rewrite (Z.mod_small (n + inc + 40 + 4)) by lia.
  pose proof (Z.div_mod (n + inc + 40 + 4) inc ltac:(lia)) as Hd.
  pose proof (Z.mod_pos_bound (n + inc + 40 + 4) inc Hpos) as Hm.
  assert (Hq : 0 <= (n + inc + 40 + 4) / inc * inc <= n + inc + 40 + 4)
    by (split; [apply Z.mul_nonneg_nonneg; [apply Z.div_pos|]; lia|lia]).
  rewrite Z.mod_small by lia; lia.
Qed.

Lemma new_block_wf addr size :
  0 < addr -> addr mod 4 = 0 -> SIZEOF_BLOCK + 4 <= size -> addr + size <= addr_limit ->
  blk_wf (new_block addr size) /\ blk_cur (new_block addr size) = addr + SIZEOF_BLOCK.
Proof.
  intros Ha Hm Hs Hl; unfold new_block, SIZEOF_BLOCK in *; simpl.
  destruct (ALIGN_PTR_spec (addr + 40)) as (_ & _ & He).
  rewrite He by (rewrite Zplus_mod, Hm; done); split; [|done].
  constructor; simpl; unfold SIZEOF_BLOCK; try done; try lia; rewrite Zplus_mod, Hm; done.
Qed.

Section Grow.
Context (pool : pj_pool_t) (W : pool_wf pool) (addr size : Z).
Context (Hs : SIZEOF_BLOCK + 4 <= size) (G : granted pool addr size).

Definition grown : pj_pool_t :=
  mk_pool (pool_addr pool) (pool_factory_data pool) (u64 (pool_capacity pool + size))
    (increment_size pool) (new_block addr size :: block_list pool).

Lemma range_sum_nonneg l : Forall blk_wf l -> 0 <= range_sum l.
Proof.
  induction 1 as [|b l [Ha Hb Hc Hal He] _ IH]; simpl; [lia|]; unfold SIZEOF_BLOCK in *; lia.
Qed.

Lemma grown_wf : pool_wf grown.
Proof.
  destruct W as [Hb Hap Hf Hadr Hi Hcap Hlim]; destruct G as [[Ga Gm] Ge Gt Gp].
  destruct (new_block_wf addr size Ga Gm Hs Ge) as [Wn _].
  pose proof (range_sum_nonneg _ Hb) as Hnn; unfold addr_limit, SIZEOF_POOL, SIZEOF_BLOCK in *.
  assert (Ec : u64 (pool_capacity pool + size) = pool_capacity pool + size)
    by (unfold u64; rewrite Z.mod_small; lia).
  constructor; simpl; rewrite ?Ec; try done.
  - constructor; done.
  - unfold pool_ranges in *; simpl; inversion Hap as [|? ? H1 H2]; subst.
    inversion Gp as [|? ? G1 G2]; subst.
    constructor; [constructor; [apply apart_sym; exact G1|done]|constructor; done].
  - destruct Hf as (f & Hf & Hfa); exists f; split; [|done].
    destruct (block_list pool); [done|exact Hf].
  - rewrite Hcap; unfold SIZEOF_POOL; lia.
Qed.

Lemma grown_live live : live_ok pool live -> live_ok grown live.
Proof.
  intros [He Hp]; constructor; [|done]; intros a Ha.
  destruct (He a Ha) as (H1 & H2 & b & Hb & Hin); split; [done|]; split; [done|].
  exists b; split; [apply list_elem_of_further; done|done].
Qed.
End Grow.

(** What a request does: the blocks of the pool, or of the pool grown by one
    block, have one block advanced; otherwise the pool is as it was. *)
Definition grant_ok (pool : pj_pool_t) (n : Z) (grant : option Z) : Prop :=
  forall addr, grant = Some addr -> increment_size pool <> 0 ->
    granted pool addr (grow_block_size (increment_size pool) n).

Lemma alloc_cases pool n grant :
  pool_wf pool -> size_ok n -> grant_ok pool n grant ->
  match pj_pool_alloc pool n grant with
  | (Allocated p, pool') =>
      (exists l', advanced n p (block_list pool) l' /\ pool' = with_blocks l' pool)
      \/ exists addr l', let g := grown pool addr (grow_block_size (increment_size pool) n) in
         increment_size pool <> 0 /\ granted pool addr (grow_block_size (increment_size pool) n)
         /\ advanced n p (block_list g) l' /\ pool' = with_blocks l' g
  | (Failed _, pool') => pool' = pool /\ (increment_size pool = 0 \/ grant = None)
  end.
Proof.
  intros W Hn Hg.
  assert (Hfind : match pj_pool_allocate_find pool n grant with
    | (Allocated p, pool') =>
        (exists l', advanced n p (block_list pool) l' /\ pool' = with_blocks l' pool)
        \/ exists addr l', let g := grown pool addr (grow_block_size (increment_size pool) n) in
           increment_size pool <> 0 /\ granted pool addr (grow_block_size (increment_size pool) n)
           /\ advanced n p (block_list g) l' /\ pool' = with_blocks l' g
    | (Failed _, pool') => pool' = pool /\ (increment_size pool = 0 \/ grant = None)
    end).
  { unfold pj_pool_allocate_find.
    destruct (alloc_from_blocks (block_list pool) n) as [[p l']|] eqn:E.
    { left; exists l'; split; [apply alloc_from_blocks_spec; done|done]. }
    destruct (increment_size pool =? 0) eqn:E0; bool_hyps; [auto|].
    destruct grant as [addr|]; simpl; [|auto].
    pose proof (Hg addr eq_refl E0) as G; pose proof (pw_incr _ W) as Hi.
    assert (0 < increment_size pool) by (unfold size_ok in Hi; lia).
    destruct (grow_block_size_spec (increment_size pool) n Hi) as [Hroom _]; [done|done|].
    set (size := grow_block_size (increment_size pool) n) in *.
    pose proof Hn as Hn'; unfold size_ok in Hn'.
    destruct (new_block_wf addr size) as [Wn Hcur]; try apply G; [unfold SIZEOF_BLOCK in *; lia|].
    destruct (alloc_from_block_room (new_block addr size) n Wn Hn) as [[p b'] Eb].
    { rewrite Hcur; simpl; unfold SIZEOF_BLOCK in *; lia. }
    rewrite Eb; right; exists addr, (b' :: block_list pool); split; [done|]; split; [done|].
    split; [exists [], (new_block addr size), b', (block_list pool); done|done]. }
  unfold pj_pool_alloc; destruct (block_list pool) as [|b l] eqn:El; [exact Hfind|].
  destruct (pj_pool_alloc_from_block b n) as [[p b']|] eqn:Eb; [|exact Hfind].
  left; exists (b' :: l); split; [exists [], b, b', l; done|done].
Qed.

(** ** Runs of a pool *)

Inductive pool_op :=
| PAlloc (size : Z) (grant : option Z)
| PCalloc (count size : Z) (grant : option Z)
| PReset.

(** The pool with the allocations in use; a reset ends all of them. *)
Definition track (n : Z) (r : alloc_result * pj_pool_t) (live : list (Z * Z))
    : pj_pool_t * list (Z * Z) :=
  match r with
  | (Allocated p, pool') => (pool', (p, n) :: live)
  | (Failed _, pool') => (pool', live)
  end.

Definition pool_step (op : pool_op) (st : pj_pool_t * list (Z * Z)) : pj_pool_t * list (Z * Z) :=
  let '(pool, live) := st in
  match op with
  | PAlloc n grant => track n (pj_pool_alloc pool n grant) live
  | PCalloc count n grant => track (n * count) (pj_pool_calloc pool count n grant) live
  | PReset => (snd (pj_pool_reset pool), [])
  end.

Definition pool_op_ok (pool : pj_pool_t) (op : pool_op) : Prop :=
  match op with
  | PAlloc n grant => size_ok n /\ grant_ok pool n grant
  | PCalloc count n grant => size_ok (n * count) /\ grant_ok pool (n * count) grant
  | PReset => True
  end.

(** Pools as [pj_pool_create_int] makes them on granted memory. *)
Inductive pool_reachable : pj_pool_t * list (Z * Z) -> Prop :=
| preach_create pool size inc addr :
    0 < addr -> addr mod 4 = 0 -> addr + size <= addr_limit -> size_ok inc ->
    pj_pool_create_int size inc (Some addr) = Some pool -> pool_reachable (pool, [])
| preach_step st op : pool_reachable st -> pool_op_ok st.1 op -> pool_reachable (pool_step op st).

Lemma pool_create_wf pool size inc addr :
  0 < addr -> addr mod 4 = 0 -> addr + size <= addr_limit -> size_ok inc ->
  pj_pool_create_int size inc (Some addr) = Some pool -> pool_wf pool.
Proof.
  intros Ha Hm Hl Hi; unfold pj_pool_create_int, SIZEOF_POOL, SIZEOF_BLOCK, addr_limit in *.
  destruct (size <? _) eqn:E; [done|]; bool_hyps; intros [= <-].
  destruct (ALIGN_PTR_spec (addr + 128 + 40)) as (_ & _ & He).
  assert (Hm2 : (addr + 128 + 40) mod 4 = 0) by (rewrite <- Z.add_assoc, Zplus_mod, Hm; done).
  rewrite He by done.
  constructor; unfold pool_ranges, range_sum, blk_range, SIZEOF_POOL, SIZEOF_BLOCK, addr_limit; simpl; try lia; try done.
  - constructor; [|done]; constructor; simpl; unfold SIZEOF_BLOCK, addr_limit; try lia.
    split; [lia|]; rewrite Zplus_mod, Hm; done.
  - constructor; [|constructor; constructor]; constructor; [|done]; unfold apart; simpl; lia.
  - eexists; split; [reflexivity|]; simpl; lia.
Qed.

Lemma reset_wf pool : pool_wf pool -> pool_wf (snd (pj_pool_reset pool)).
Proof.
  intros [Hb Hap (f & Hf & Hfa) Hadr Hi Hcap Hlim].
  apply last_Some in Hf as [l El]; unfold pj_pool_reset, reset_pool.
  rewrite El, reverse_snoc; simpl.
  assert (Wf : blk_wf f) by (rewrite El in Hb; apply Forall_app in Hb as [_ Hb]; inversion Hb; done).
  destruct Wf as [Wa Wbuf Wc Wal We].
  unfold pool_ranges in Hap; rewrite El, fmap_app in Hap; inversion Hap as [|? ? H1 _]; subst.
  apply Forall_app in H1 as [_ H1]; inversion H1 as [|? ? H1' _]; subst.
  destruct (ALIGN_PTR_spec (blk_buf f)) as (_ & Hal & Hsame).
  rewrite Hsame by (rewrite Wbuf, Zplus_mod, (proj2 Wa); done).
  unfold addr_limit, SIZEOF_POOL, SIZEOF_BLOCK in *.
  constructor; unfold pool_ranges, range_sum, addr_limit, SIZEOF_POOL; simpl; try done; try lia.
  - constructor; [|done]; constructor; simpl; unfold SIZEOF_BLOCK, addr_limit; try done; try lia.
    rewrite Wbuf, Zplus_mod, (proj2 Wa); done.
  - constructor; [constructor; done|constructor; constructor].
  - eexists; split; [reflexivity|done].
Qed.

Lemma track_ok pool n grant live :
  pool_wf pool -> live_ok pool live -> size_ok n -> grant_ok pool n grant ->
  let '(pool', live') := track n (pj_pool_alloc pool n grant) live in
  pool_wf pool' /\ live_ok pool' live'.
Proof.
  intros W L Hn Hg; pose proof (alloc_cases pool n grant W Hn Hg) as Hc.
  destruct (pj_pool_alloc pool n grant) as [[p|cb] pool']; simpl.
  - destruct Hc as [(l' & Ha & ->)|(addr & l' & H0 & G & Ha & ->)].
    + split; [eapply advanced_wf|eapply advanced_live]; done.
    + pose proof (pw_incr _ W) as Hi; pose proof Hn as Hn'; unfold size_ok in Hi, Hn'.
      destruct (grow_block_size_spec (increment_size pool) n) as [Hroom _];
        [done|lia|done|].
      assert (Hs : SIZEOF_BLOCK + 4 <= grow_block_size (increment_size pool) n) by lia.
      pose proof (grown_wf pool W _ _ Hs G) as W2; pose proof (grown_live pool addr
        (grow_block_size (increment_size pool) n) live L) as L2.
      split; [eapply advanced_wf|eapply advanced_live]; done.
  - destruct Hc as [-> _]; done.
Qed.

Lemma pool_reachable_ok st : pool_reachable st -> pool_wf st.1 /\ live_ok st.1 st.2.
Proof.
  induction 1 as [pool size inc addr Ha Hm Hl Hi Hc|[pool live] op _ [W L] Hok]; simpl in *.
  - split; [eapply pool_create_wf; done|]; constructor; [intros a []%not_elem_of_nil|constructor].
  - destruct op as [n grant|count n grant|]; simpl in Hok |- *.
    + destruct Hok as [Hn Hg]; pose proof (track_ok pool n grant live W L Hn Hg) as Ht.
      destruct (track _ _ _); done.
    + destruct Hok as [Hn Hg]; unfold pj_pool_calloc.
      replace (u64 (n * count)) with (n * count)
        by (unfold size_ok in Hn; unfold u64; rewrite Z.mod_small; lia).
      pose proof (track_ok pool (n * count) grant live W L Hn Hg) as Ht.
      destruct (track _ _ _); done.
    + split; [apply reset_wf; done|]; constructor; [intros a []%not_elem_of_nil|constructor].
Qed.

(** ** Theorems *)

(** C31. Whatever sequence of requests (each below 2^62 bytes) and resets a pool
    serves, the allocations in use are aligned, lie in memory the factory granted, clear of the headers
    of the pool and of its blocks, and no two of them overlap; and the capacity
    the pool reports is the memory it holds. *)
Theorem pool_allocations_disjoint pool live :
  pool_reachable (pool, live) ->
  ForallOrdPairs apart (alloc_range <$> live)
  /\ (forall p n, (p, n) ∈ live ->
        p mod PJ_POOL_ALIGNMENT = 0
        /\ exists b, b ∈ block_list pool
             /\ blk_addr b + SIZEOF_BLOCK <= p /\ p + n <= blk_end b
             /\ apart (p, p + n) (pool_addr pool, pool_addr pool + SIZEOF_POOL))
  /\ pj_pool_get_capacity pool = SIZEOF_POOL + range_sum (block_list pool).
Proof.
  intros [W L]%pool_reachable_ok; simpl in *; split; [apply L|]; split; [|apply W].
  intros p n Hin; destruct (lo_each _ _ L _ Hin) as (Hal & Hn & b & Hb & Hi1 & Hi2); simpl in *.
  pose proof (pw_blocks _ W) as Wb; rewrite list.Forall_forall in Wb; specialize (Wb b Hb).
  pose proof (bw_cur _ Wb); pose proof (bw_buf _ Wb).
  split; [done|]; exists b; split; [done|]; split; [lia|]; split; [lia|].
  pose proof (pw_apart _ W) as Hap; inversion Hap as [|? ? H1 _]; subst.
  rewrite list.Forall_forall in H1; specialize (H1 (blk_range b)).
  destruct H1 as [H1|H1]; [apply list_elem_of_fmap; exists b; done| |];
    unfold apart, blk_range, SIZEOF_BLOCK in *; simpl in *; lia.
Qed.

(** A pool of 256 bytes at address 4096 that may grow by 128: two requests from
    the first block, one from a new one. *)
Definition demo_pool : pj_pool_t := default (mk_pool 0 0 0 0 []) (pj_pool_create_int 256 128 (Some 4096)).
Definition demo_state : pj_pool_t * list (Z * Z) :=
  pool_step (PAlloc 100 (Some 8192)) (pool_step (PAlloc 30 None) (pool_step (PAlloc 13 None) (demo_pool, []))).

Lemma demo_reachable : pool_reachable demo_state.
Proof.
  assert (H0 : pool_reachable (demo_pool, [])).
  { eapply (preach_create demo_pool 256 128 4096); (reflexivity || (unfold addr_limit, size_ok; lia)). }
  unfold demo_state; apply preach_step; [apply preach_step; [apply preach_step|]|].
  - exact H0.
  - split; [unfold size_ok; lia|intros ? [=]].
  - split; [unfold size_ok; lia|intros ? [=]].
  - split; [unfold size_ok; lia|]; intros addr [= <-] _.
    change (grow_block_size _ _) with 256.
    constructor; [split; [lia|reflexivity]|unfold addr_limit; lia|vm_compute; discriminate|].
    change (pool_ranges _) with [(4096, 4224); (4224, 4352)].
    constructor; [right; simpl; lia|]; constructor; [right; simpl; lia|constructor].
Qed.

Lemma pool_allocations_disjoint_witness :
  demo_state.2 = [(8232, 100); (4280, 30); (4264, 13)]
  /\ ForallOrdPairs apart (alloc_range <$> [(8232, 100); (4280, 30); (4264, 13)]).
Proof.
  split; [reflexivity|].
  exact (proj1 (pool_allocations_disjoint demo_state.1 demo_state.2 demo_reachable)).
Defined.

(** A pool that may grow serves every request as long as its factory gives
    it memory: a failure means that the pool must not grow or that the factory
    refused, and leaves the pool as it was. *)
Theorem pool_alloc_progress pool live n grant :
  pool_reachable (pool, live) -> size_ok n -> grant_ok pool n grant ->
  match pj_pool_alloc pool n grant with
  | (Allocated _, _) => True
  | (Failed _, pool') => pool' = pool /\ (increment_size pool = 0 \/ grant = None)
  end.
Proof.
  intros [W _]%pool_reachable_ok Hn Hg; pose proof (alloc_cases pool n grant W Hn Hg) as Hc.
  destruct (pj_pool_alloc pool n grant) as [[p|cb] pool']; done.
Qed.

Lemma pool_alloc_progress_witness :
  match pj_pool_alloc demo_state.1 1000 None with
  | (Allocated _, _) => True
  | (Failed _, pool') => pool' = demo_state.1 /\ (increment_size demo_state.1 = 0 \/ @None Z = None)
  end.
Proof.
  apply (pool_alloc_progress demo_state.1 demo_state.2 1000 None demo_reachable).
  - unfold size_ok; lia.
  - intros ? [=].
Defined.

(** ** Defects *)

(** A request within three bytes of 2^64 wraps to zero when it is rounded up: it
    succeeds in every block and nothing is allocated. *)
Theorem huge_request_succeeds b :
  blk_wf b -> pj_pool_alloc_from_block b 18446744073709551615 = Some (blk_cur b, b).
Proof.
  intros [Ha Hb Hc Hal He]; unfold pj_pool_alloc_from_block, addr_limit, SIZEOF_BLOCK in *.
  change (round_size 18446744073709551615) with 0.
  unfold u64; rewrite Z.mod_small by lia; rewrite Z.geb_leb.
  destruct (0 <=? _) eqn:E; bool_hyps; [|lia].
  rewrite Z.add_0_r; destruct b; done.
Qed.

(** [pj_pool_calloc] multiplies without a check: 2^62 elements of 4 bytes are a
    request for nothing. *)
Theorem calloc_overflows :
  pj_pool_calloc demo_pool 4611686018427387904 4 None = (Allocated 4264, demo_pool).
Proof. reflexivity. Qed.

(** The alignment of a caller's buffer adds the residue instead of what is
    missing to the next multiple: an address of residue 1 gets residue 2. *)
Theorem on_buf_misaligned buf size :
  buf mod 4 = 1 -> (align_buffer buf size).1 mod 4 = 2.
Proof.
  intros Hb; unfold align_buffer, PJ_POOL_ALIGNMENT; change (4 - 1) with 3; rewrite land_3, Hb; simpl.
  rewrite Zplus_mod, Hb; done.
Qed.

(** On such a buffer of just the size of the headers, the allocation pointer
    starts past the end, the room left wraps to almost 2^64 and every request
    is served from memory behind the buffer. *)
Theorem on_buf_overruns :
  exists pool, pj_pool_create_on_buf 4097 169 = Some pool
    /\ fst (pj_pool_alloc pool 1000 None) = Allocated 4268 /\ 4097 + 169 <= 4268.
Proof. eexists; split; [reflexivity|]; split; [reflexivity|lia]. Qed.
