(* ===== verification/PoolCaching.v ===== *)
(** * The caching pool (pjlib/src/pj/pool_caching.c, pool_policy_malloc.c)

    The default pool factory: pools that are released are kept, by size class,
    and given out again.  Pools are shared objects: the lists hold their
    addresses and [cp_pools] is the store.  The answers of [malloc] are
    arguments. *)

From Stdlib Require Import ZArith Lia Bool.
From stdpp Require Import base list numbers option gmap.
From S2P Require Import Prelude Pool PoolSpec.
Local Open Scope Z_scope.

(** ** Data *)

Definition PJ_CACHING_POOL_ARRAY_SIZE : nat := 16.
Definition START_SIZE : nat := 5.
Definition pool_sizes : list Z :=
  [256; 512; 1024; 2048; 4096; 8192; 12288; 16384;
   20480; 24576; 28672; 32768; 40960; 49152; 57344; 65536].
Definition pool_size_at (i : nat) : Z := default 0 (pool_sizes !! i).

(** [struct pj_caching_pool] less its lock, with the store of pools. *)
Record pj_caching_pool := mk_cp {
  cp_capacity : Z; cp_max_capacity : Z; cp_used_count : Z;
  cp_used_size : Z; cp_peak_used_size : Z;
  cp_free_list : list (list Z); cp_used_list : list Z;
  cp_pools : gmap Z pj_pool_t }.

Definition pj_caching_pool_init (max_capacity : Z) : pj_caching_pool :=
  mk_cp 0 max_capacity 0 0 0 (replicate PJ_CACHING_POOL_ARRAY_SIZE []) [] ∅.

(** ** The policy *)

Definition with_usage (used peak : Z) (cp : pj_caching_pool) : pj_caching_pool :=
  mk_cp (cp_capacity cp) (cp_max_capacity cp) (cp_used_count cp) used peak
    (cp_free_list cp) (cp_used_list cp) (cp_pools cp).

Definition cpool_on_block_alloc (sz : Z) (cp : pj_caching_pool) : pj_caching_pool :=
  let used := u64 (cp_used_size cp + sz) in
  with_usage used (if used >? cp_peak_used_size cp then used else cp_peak_used_size cp) cp.

Definition cpool_on_block_free (sz : Z) (cp : pj_caching_pool) : pj_caching_pool :=
  with_usage (u64 (cp_used_size cp - sz)) (cp_peak_used_size cp) cp.

(** [malloc]'s answer is the address of the block: no signatures are kept when
    [PJ_SAFE_POOL] is 0. *)
Definition default_block_alloc (size : Z) (malloc : option Z) (cp : pj_caching_pool)
    : option Z * pj_caching_pool :=
  let cp1 := cpool_on_block_alloc size cp in
  match malloc with
  | None => (None, cpool_on_block_free size cp1)
  | Some p => (Some p, cp1)
  end.

(** [default_block_free] for each block freed. *)
Definition default_block_free (freed : list (Z * Z)) (cp : pj_caching_pool) : pj_caching_pool :=
  foldl (fun cp '(_, size) => cpool_on_block_free size cp) cp freed.

(** ** Lists *)

(** [pj_list_erase]: the node leaves the list it is in. *)
Definition list_erase (a : Z) (l : list Z) : list Z := filter (fun x => x <> a) l.

Definition with_lists (free : list (list Z)) (used : list Z) (cp : pj_caching_pool)
    : pj_caching_pool :=
  mk_cp (cp_capacity cp) (cp_max_capacity cp) (cp_used_count cp) (cp_used_size cp)
    (cp_peak_used_size cp) free used (cp_pools cp).
Definition unlink (a : Z) (cp : pj_caching_pool) : pj_caching_pool :=
  with_lists (list_erase a <$> cp_free_list cp) (list_erase a (cp_used_list cp)) cp.
Definition with_capacity (c : Z) (cp : pj_caching_pool) : pj_caching_pool :=
  mk_cp c (cp_max_capacity cp) (cp_used_count cp) (cp_used_size cp)
    (cp_peak_used_size cp) (cp_free_list cp) (cp_used_list cp) (cp_pools cp).
Definition with_count (c : Z) (cp : pj_caching_pool) : pj_caching_pool :=
  mk_cp (cp_capacity cp) (cp_max_capacity cp) c (cp_used_size cp)
    (cp_peak_used_size cp) (cp_free_list cp) (cp_used_list cp) (cp_pools cp).
Definition with_pools (m : gmap Z pj_pool_t) (cp : pj_caching_pool) : pj_caching_pool :=
  mk_cp (cp_capacity cp) (cp_max_capacity cp) (cp_used_count cp) (cp_used_size cp)
    (cp_peak_used_size cp) (cp_free_list cp) (cp_used_list cp) m.

(** ** Finding the size class *)

(** The search below [START_SIZE]: [k] is one more than the index looked at. *)
Fixpoint search_down (k : nat) (size : Z) : nat :=
  match k with
  | O => O
  | S k' => if pool_size_at k' >=? size then search_down k' size else k
  end.

(** The search above it, with [n] indices left. *)
Fixpoint search_up (n idx : nat) (size : Z) : nat :=
  match n with
  | O => idx
  | S n' => if pool_size_at idx <? size then search_up n' (S idx) size else idx
  end.

Definition size_index (size : Z) : nat :=
  if size <=? pool_size_at START_SIZE then search_down START_SIZE size
  else search_up (PJ_CACHING_POOL_ARRAY_SIZE - S START_SIZE) (S START_SIZE) size.

(** ** Creating and releasing pools *)

Definition set_factory_data (d : Z) (pool : pj_pool_t) : pj_pool_t :=
  mk_pool (pool_addr pool) d (pool_capacity pool) (increment_size pool) (block_list pool).

(** The end of [cpool_create_pool]: the pool goes to the used list. *)
Definition hand_out (idx : nat) (pool : pj_pool_t) (cp : pj_caching_pool) : pj_caching_pool :=
  mk_cp (cp_capacity cp) (cp_max_capacity cp) (u64 (cp_used_count cp + 1)) (cp_used_size cp)
    (cp_peak_used_size cp) (cp_free_list cp) (cp_used_list cp ++ [pool_addr pool])
    (<[pool_addr pool := set_factory_data (Z.of_nat idx) pool]> (cp_pools cp)).

Definition cpool_create_pool (cp : pj_caching_pool) (initial_size0 increment_sz : Z)
    (malloc : option Z) : option Z * pj_caching_pool :=
  let idx := size_index initial_size0 in
  match cp_free_list cp !! idx with
  | Some (a :: rest) =>
      match cp_pools cp !! a with
      | None => (None, cp)
      | Some pool0 =>
          let cp1 := unlink a cp in
          let pool := pj_pool_init_int pool0 increment_sz in
          let cap := pj_pool_get_capacity pool in
          let cp2 := with_capacity (if cp_capacity cp1 >? cap then cp_capacity cp1 - cap else 0) cp1 in
          (Some a, hand_out idx pool cp2)
      end
  | _ =>
      let initial_size := if (idx <? PJ_CACHING_POOL_ARRAY_SIZE)%nat
                          then pool_size_at idx else initial_size0 in
      if initial_size <? SIZEOF_POOL + SIZEOF_BLOCK then (None, cp)
      else
        let '(p, cp1) := default_block_alloc initial_size malloc cp in
        match pj_pool_create_int initial_size increment_sz p with
        | None => (None, cp1)
        | Some pool => (Some (pool_addr pool), hand_out idx pool cp1)
        end
  end.

(** [pj_pool_destroy_int] with the accounting of the blocks it frees. *)
Definition destroy_pool (pool : pj_pool_t) (cp : pj_caching_pool) : pj_caching_pool :=
  default_block_free (pj_pool_destroy_int pool)
    (with_pools (delete (pool_addr pool) (cp_pools cp)) cp).

Definition cpool_release_pool (cp : pj_caching_pool) (a : Z) : pj_caching_pool :=
  match cp_pools cp !! a with
  | None => cp
  | Some pool =>
      let cp1 := with_count (u64 (cp_used_count cp - 1)) (unlink a cp) in
      let pool_capacity := pj_pool_get_capacity pool in
      if (pool_capacity >? pool_size_at (PJ_CACHING_POOL_ARRAY_SIZE - 1))
         || (u64 (cp_capacity cp1 + pool_capacity) >? cp_max_capacity cp1)
      then destroy_pool pool cp1
      else
        let '(freed, pool') := pj_pool_reset pool in
        let cp2 := default_block_free freed (with_pools (<[a := pool']> (cp_pools cp1)) cp1) in
        let i := Z.to_nat (pool_factory_data pool') in
        if (PJ_CACHING_POOL_ARRAY_SIZE <=? i)%nat then destroy_pool pool' cp2
        else
          mk_cp (u64 (cp_capacity cp2 + pj_pool_get_capacity pool')) (cp_max_capacity cp2)
            (cp_used_count cp2) (cp_used_size cp2) (cp_peak_used_size cp2)
            (alter (cons a) i (cp_free_list cp2)) (cp_used_list cp2) (cp_pools cp2)
  end.

(** The size [pj_pool_alloc] asks of the factory, if it asks. *)
Definition block_request (pool : pj_pool_t) (n : Z) : option Z :=
  match alloc_from_blocks (block_list pool) n with
  | Some _ => None
  | None => if increment_size pool =? 0 then None
            else Some (grow_block_size (increment_size pool) n)
  end.

(** [pj_pool_alloc] on a pool of the factory. *)
Definition cp_pool_alloc (cp : pj_caching_pool) (a n : Z) (malloc : option Z)
    : alloc_result * pj_caching_pool :=
  match cp_pools cp !! a with
  | None => (Failed None, cp)
  | Some pool =>
      let '(r, pool') := pj_pool_alloc pool n malloc in
      let cp1 := match block_request pool n with
                 | None => cp
                 | Some sz => snd (default_block_alloc sz malloc cp)
                 end in
      (r, with_pools (<[a := pool']> (cp_pools cp1)) cp1)
  end.

(** All pools are destroyed: the free ones, list by list, then the used ones. *)
Definition destroy_all (l : list Z) (cp : pj_caching_pool) : pj_caching_pool :=
  foldl (fun cp a => match cp_pools cp !! a with
                     | Some pool => destroy_pool pool (unlink a cp)
                     | None => cp
                     end) cp l.
Definition pj_caching_pool_destroy (cp : pj_caching_pool) : pj_caching_pool :=
  let cp1 := destroy_all (concat (cp_free_list cp)) cp in
  destroy_all (cp_used_list cp1) cp1.

(** ** The size class *)

Lemma pool_sizes_mono i j : (i <= j)%nat -> (j < 16)%nat -> pool_size_at i <= pool_size_at j.
Proof.
  intros Hij Hj.
  assert (H : forallb (fun j => forallb (fun i => pool_size_at i <=? pool_size_at j) (seq 0 (S j)))
                (seq 0 16) = true) by (vm_compute; reflexivity).
  rewrite List.forallb_forall in H; specialize (H j ltac:(apply List.in_seq; lia)); simpl in H.
  change (forallb (fun i => pool_size_at i <=? pool_size_at j) (seq 0 (S j)) = true) in H.
  rewrite List.forallb_forall in H; specialize (H i ltac:(apply List.in_seq; lia)).
  apply Z.leb_le; exact H.
Qed.

Lemma search_down_spec k n :
  (k <= 16)%nat ->
  (search_down k n <= k)%nat
  /\ (forall i, (i < search_down k n)%nat -> pool_size_at i < n)
  /\ (forall i, (search_down k n <= i < k)%nat -> n <= pool_size_at i).
Proof.
  induction k as [|k IH]; intros Hk; simpl; [repeat split; intros; lia|].
  destruct (pool_size_at k >=? n) eqn:E; rewrite Z.geb_leb in E; bool_hyps.
  - destruct IH as (H1 & H2 & H3); [lia|]; repeat split; [lia|done|].
    intros i Hi; destruct (decide (i = k)) as [->|]; [lia|apply H3; lia].
  - repeat split; [lia| |intros; lia].
    intros i Hi; pose proof (pool_sizes_mono i k ltac:(lia) ltac:(lia)); lia.
Qed.

Lemma search_up_spec n idx size :
  (idx + n <= 16)%nat -> (forall i, (i < idx)%nat -> pool_size_at i < size) ->
  (search_up n idx size <= idx + n)%nat
  /\ (forall i, (i < search_up n idx size)%nat -> pool_size_at i < size)
  /\ ((search_up n idx size < idx + n)%nat -> size <= pool_size_at (search_up n idx size)).
Proof.
  revert idx; induction n as [|n IH]; intros idx Hn Hlt; simpl; [repeat split; auto; lia|].
  destruct (pool_size_at idx <? size) eqn:E; bool_hyps.
  - destruct (IH (S idx)) as (H1 & H2 & H3); [lia| |].
    + intros i Hi; destruct (decide (i = idx)) as [->|]; [done|apply Hlt; lia].
    + repeat split; [lia|done|intros; apply H3; lia].
  - repeat split; [lia|done|intros; lia].
Qed.

(** The class found is the smallest that fits, 16 when none does. *)
Lemma size_index_spec n :
  (size_index n <= 16)%nat
  /\ (forall i, (i < size_index n)%nat -> pool_size_at i < n)
  /\ ((size_index n < 16)%nat -> n <= pool_size_at (size_index n)).
Proof.
  unfold size_index; destruct (n <=? pool_size_at START_SIZE) eqn:E; bool_hyps.
  - destruct (search_down_spec START_SIZE n) as (H1 & H2 & H3); [unfold START_SIZE; lia|].
    unfold START_SIZE in *; repeat split; [lia|done|intros _].
    destruct (decide (search_down 5 n = 5%nat)) as [->|]; [done|apply H3; lia].
  - destruct (search_up_spec (PJ_CACHING_POOL_ARRAY_SIZE - S START_SIZE) (S START_SIZE) n)
      as (H1 & H2 & H3); unfold START_SIZE, PJ_CACHING_POOL_ARRAY_SIZE in *; [lia| |].
    + intros i Hi; pose proof (pool_sizes_mono i 5 ltac:(lia) ltac:(lia)); lia.
    + repeat split; [lia|done|intros; apply H3; lia].
Qed.

(** ** Accounting *)

Definition freed_sum (l : list (Z * Z)) : Z := foldr (fun '(_, n) s => n + s) 0 l.

Lemma block_free_fields freed cp :
  let cp' := default_block_free freed cp in
  cp_capacity cp' = cp_capacity cp /\ cp_max_capacity cp' = cp_max_capacity cp
  /\ cp_used_count cp' = cp_used_count cp /\ cp_free_list cp' = cp_free_list cp
  /\ cp_used_list cp' = cp_used_list cp /\ cp_pools cp' = cp_pools cp
  /\ u64 (cp_used_size cp') = u64 (cp_used_size cp - freed_sum freed)
  /\ (cp_used_size cp = u64 (cp_used_size cp) -> cp_used_size cp' = u64 (cp_used_size cp')).
Proof.
  unfold default_block_free; revert cp; induction freed as [|[p n] freed IH]; intros cp; simpl.
  - rewrite Z.sub_0_r; done.
  - destruct (IH (cpool_on_block_free n cp)) as (-> & -> & -> & -> & -> & -> & Hu & Hr).
    repeat split; try done.
    + rewrite Hu; simpl; unfold u64; rewrite Zminus_mod_idemp_l; f_equal; lia.
    + intros _; apply Hr; simpl; unfold u64; rewrite Zmod_mod; done.
Qed.

Lemma freed_sum_app l k : freed_sum (l ++ k) = freed_sum l + freed_sum k.
Proof. induction l as [|[p n] l IH]; simpl; lia. Qed.

Lemma freed_sum_blocks l :
  freed_sum ((fun b => (blk_addr b, blk_end b - blk_addr b)) <$> l) = range_sum l.
Proof.
  induction l as [|b l IH]; [done|].
  change (range_sum (b :: l)) with (blk_end b - blk_addr b + range_sum l); rewrite <- IH; done.
Qed.

Lemma range_sum_reverse l : range_sum (reverse l) = range_sum l.
Proof.
  induction l as [|b l IH]; [done|]; rewrite reverse_cons, range_sum_app, IH; simpl; lia.
Qed.

(** The size of the memory a pool was created in. *)
Definition first_size (pool : pj_pool_t) : Z :=
  match list.last (block_list pool) with
  | Some b => blk_end b - pool_addr pool
  | None => 0
  end.

(** A pool with one block and nothing allocated. *)
Definition pool_clean (pool : pj_pool_t) : Prop :=
  exists b, block_list pool = [b] /\ blk_cur b = ALIGN_PTR (blk_buf b) PJ_POOL_ALIGNMENT.

Lemma first_size_le pool : pool_wf pool -> first_size pool <= pool_capacity pool.
Proof.
  intros [Hb _ (f & Hf & Hfa) _ _ Hcap _]; unfold first_size; rewrite Hf.
  apply last_Some in Hf as [l El]; rewrite El in Hb, Hcap; apply Forall_app in Hb as [Hl _].
  pose proof (range_sum_nonneg l Hl); rewrite range_sum_app in Hcap; simpl in Hcap.
  unfold SIZEOF_POOL in *; lia.
Qed.

(** A reset leaves a clean pool of its first size and frees the rest. *)
Lemma reset_clean pool :
  pool_wf pool ->
  let pool' := snd (pj_pool_reset pool) in
  pool_clean pool' /\ pool_addr pool' = pool_addr pool
  /\ pool_factory_data pool' = pool_factory_data pool
  /\ pool_capacity pool' = first_size pool /\ first_size pool' = first_size pool
  /\ freed_sum (fst (pj_pool_reset pool)) = pool_capacity pool - first_size pool.
Proof.
  intros [Hb _ (f & Hf & Hfa) _ _ Hcap _]; unfold first_size; rewrite Hf.
  apply last_Some in Hf as [l El]; unfold pj_pool_reset, reset_pool; rewrite El, reverse_snoc; simpl.
  split; [eexists; split; [reflexivity|done]|]; repeat (split; [done|]).
  rewrite freed_sum_blocks, range_sum_reverse, Hcap, El, range_sum_app; simpl.
  unfold SIZEOF_POOL in *; lia.
Qed.

Lemma destroy_freed pool : pool_wf pool ->
  freed_sum (pj_pool_destroy_int pool) = pool_capacity pool.
Proof.
  intros W; destruct (reset_clean pool W) as ((b & Hb & _) & Ha & _ & Hc & Hfs & Hf).
  unfold pj_pool_destroy_int; unfold pj_pool_reset in *.
  destruct (reset_pool pool) as [freed pool']; simpl in *; rewrite Hb, freed_sum_app, Hf.
  unfold first_size in Hfs at 1; rewrite Hb in Hfs; simpl in Hfs |- *; lia.
Qed.

(** ** The invariant *)

(** The capacity of the free pools, class by class from [i] on. *)
Fixpoint free_sum (i : nat) (ls : list (list Z)) : Z :=
  match ls with
  | [] => 0
  | l :: ls' => Z.of_nat (length l) * pool_size_at i + free_sum (S i) ls'
  end.

Definition pools_sum (m : gmap Z pj_pool_t) : Z := map_fold (fun _ p s => pool_capacity p + s) 0 m.

Definition class_ok (pool : pj_pool_t) : Prop :=
  exists i, pool_factory_data pool = Z.of_nat i
    /\ ((i < 16)%nat /\ first_size pool = pool_size_at i \/ i = 16%nat /\ 65536 < first_size pool).

Record cp_inv (cp : pj_caching_pool) : Prop := {
  ci_len : length (cp_free_list cp) = 16%nat;
  ci_nodup : NoDup (cp_used_list cp ++ concat (cp_free_list cp));
  ci_store : forall a, a ∈ cp_used_list cp ++ concat (cp_free_list cp) <-> is_Some (cp_pools cp !! a);
  ci_wf : forall a pool, cp_pools cp !! a = Some pool ->
    pool_wf pool /\ pool_addr pool = a /\ class_ok pool;
  ci_free : forall i l a, cp_free_list cp !! i = Some l -> a ∈ l ->
    exists pool, cp_pools cp !! a = Some pool /\ pool_clean pool
      /\ pool_factory_data pool = Z.of_nat i /\ pool_capacity pool = pool_size_at i;
  ci_count : cp_used_count cp = u64 (Z.of_nat (length (cp_used_list cp)));
  ci_capacity : cp_capacity cp = free_sum 0 (cp_free_list cp);
  ci_max : cp_capacity cp <= cp_max_capacity cp < addr_limit;
  ci_used : cp_used_size cp = u64 (pools_sum (cp_pools cp)) }.

(** *** Lists *)

Lemma free_sum_insert j ls (i : nat) l l' :
  ls !! i = Some l ->
  free_sum j (<[i := l']> ls)
  = free_sum j ls + (Z.of_nat (length l') - Z.of_nat (length l)) * pool_size_at (j + i).
Proof.
  revert i j; induction ls as [|k ls IH]; intros [|i] j Hl; simpl in *; try done.
  - injection Hl as ->; rewrite Nat.add_0_r; lia.
  - rewrite (IH i (S j)) by done; replace (S j + i)%nat with (j + S i)%nat by lia; lia.
Qed.

Lemma pool_size_nonneg j : 0 <= pool_size_at j <= 65536.
Proof.
  unfold pool_size_at; destruct (pool_sizes !! j) as [z|] eqn:E; simpl; [|lia].
  apply list_elem_of_lookup_2 in E; unfold pool_sizes in E.
  repeat (apply elem_of_cons in E as [->|E]; [lia|]); apply not_elem_of_nil in E; done.
Qed.

Lemma free_sum_nonneg j ls : 0 <= free_sum j ls.
Proof.
  revert j; induction ls as [|l ls IH]; intros j; simpl; [lia|].
  pose proof (pool_size_nonneg j); specialize (IH (S j)); nia.
Qed.

Lemma list_erase_notin a l : (a ∉ l) -> list_erase a l = l.
Proof.
  unfold list_erase; induction l as [|x l IH]; intros Hn; [done|].
  rewrite not_elem_of_cons in Hn; destruct Hn as [Hne Hn].
  rewrite list.filter_cons, decide_True, IH by (done || congruence); done.
Qed.

Lemma elem_of_erase a x l : x ∈ list_erase a l <-> x <> a /\ x ∈ l.
Proof. unfold list_erase; rewrite list_elem_of_filter; done. Qed.

Lemma erase_length a l : NoDup l -> a ∈ l -> length l = S (length (list_erase a l)).
Proof.
  induction l as [|x l IH]; intros Hnd Hin; [apply not_elem_of_nil in Hin; done|].
  apply NoDup_cons in Hnd as [Hx Hnd]; unfold list_erase; rewrite list.filter_cons.
  destruct (decide (x = a)) as [->|Hne].
  - rewrite decide_False by auto; fold (list_erase a l); rewrite list_erase_notin; done.
  - rewrite decide_True by done; simpl; rewrite (IH Hnd); [done|].
    apply elem_of_cons in Hin as [->|]; done.
Qed.

Lemma erase_free_notin a ls : (a ∉ concat ls) -> list_erase a <$> ls = ls.
Proof.
  induction ls as [|l ls IH]; [done|]; intros Hn; simpl in *; rewrite not_elem_of_app in Hn.
  destruct Hn as [H1 H2]; f_equal; [apply list_erase_notin; done|apply IH; done].
Qed.

(** Unlinking the first pool of a free list. *)
Lemma erase_free_head ls (i : nat) a rest :
  NoDup (concat ls) -> ls !! i = Some (a :: rest) ->
  list_erase a <$> ls = <[i := rest]> ls.
Proof.
  revert i; induction ls as [|l ls IH]; intros [|i] Hnd Hl; simpl in *; try done.
  - injection Hl as ->; simpl in Hnd; apply NoDup_cons in Hnd as [Hn _].
    rewrite not_elem_of_app in Hn; destruct Hn as [Hn1 Hn2].
    unfold list_erase at 1; rewrite list.filter_cons, decide_False by auto.
    f_equal; [apply list_erase_notin; done|apply erase_free_notin; done].
  - apply NoDup_app in Hnd as (Hnd1 & Hdis & Hnd2).
    f_equal; [|apply IH; done]; apply list_erase_notin; intros Hin.
    apply (Hdis a Hin), list_elem_of_In, in_concat; exists (a :: rest).
    split; [apply list_elem_of_In, list_elem_of_lookup; exists i; done|left; done].
Qed.

Lemma concat_insert_perm (ls : list (list Z)) (i : nat) a rest :
  ls !! i = Some (a :: rest) -> concat ls ≡ₚ a :: concat (<[i := rest]> ls).
Proof.
  revert i; induction ls as [|k ls IH]; intros [|i] Hl; simpl in *; try done.
  - injection Hl as ->; done.
  - rewrite (IH i Hl); symmetry; apply Permutation_middle.
Qed.

Lemma concat_cons_perm (ls : list (list Z)) (i : nat) a l :
  ls !! i = Some l -> concat (<[i := a :: l]> ls) ≡ₚ a :: concat ls.
Proof.
  intros Hl; assert (Hlt : (i < length ls)%nat) by (apply lookup_lt_Some in Hl; done).
  rewrite (concat_insert_perm (<[i := a :: l]> ls) i a l) by (apply list_lookup_insert_eq; done).
  rewrite list_insert_insert_eq, list_insert_id by done; done.
Qed.

Lemma erase_perm a l : NoDup l -> a ∈ l -> l ≡ₚ a :: list_erase a l.
Proof.
  intros Hnd Hin; apply NoDup_Permutation; [done| |].
  - apply NoDup_cons; split; [rewrite elem_of_erase; tauto|apply NoDup_filter; done].
  - intros x; rewrite elem_of_cons, elem_of_erase; destruct (decide (x = a)) as [->|]; tauto.
Qed.

(** *** Sums over the store *)

Lemma pools_sum_insert m a p : m !! a = None ->
  pools_sum (<[a := p]> m) = pool_capacity p + pools_sum m.
Proof. intros Hn; unfold pools_sum; rewrite map_fold_insert_L; [done|intros; lia|done]. Qed.

Lemma pools_sum_delete m a p : m !! a = Some p ->
  pools_sum m = pool_capacity p + pools_sum (delete a m).
Proof.
  intros Hs; rewrite <- (insert_delete_id m a p Hs) at 1.
  rewrite pools_sum_insert; [done|apply lookup_delete_eq].
Qed.

Lemma pools_sum_update m a p p' : m !! a = Some p ->
  pools_sum (<[a := p']> m) = pools_sum m - pool_capacity p + pool_capacity p'.
Proof.
  intros Hs; rewrite <- insert_delete_eq, pools_sum_insert by apply lookup_delete_eq.
  rewrite (pools_sum_delete m a p Hs); lia.
Qed.

(** *** Pools under the factory *)

Lemma pool_wf_settings pool d inc :
  pool_wf pool -> size_ok inc ->
  pool_wf (mk_pool (pool_addr pool) d (pool_capacity pool) inc (block_list pool)).
Proof. intros [] Hi; constructor; done. Qed.

Lemma last_advanced n p l l' b :
  Forall blk_wf l -> size_ok n -> advanced n p l l' -> list.last l = Some b ->
  exists b', list.last l' = Some b' /\ blk_end b' = blk_end b.
Proof.
  intros Hb Hn (l1 & c & c' & l2 & -> & -> & Ea) Hl.
  apply Forall_app in Hb as [_ Hb]; inversion Hb as [|? ? Wc _]; subst.
  destruct (alloc_from_block_spec c n p c' Wc Hn Ea) as (_ & _ & Er & _).
  destruct l2 as [|e l2].
  - rewrite last_snoc in Hl |- *; injection Hl as <-; exists c'; split; [done|].
    injection Er as _ ->; done.
  - exists b; split; [|done].
    change (l1 ++ c :: e :: l2) with (l1 ++ [c] ++ e :: l2) in Hl.
    change (l1 ++ c' :: e :: l2) with (l1 ++ [c'] ++ e :: l2).
    rewrite app_assoc, last_app_cons in Hl; rewrite app_assoc, last_app_cons; done.
Qed.

(** A request keeps the identity of the pool; its capacity grows by the block
    the factory was asked for and gave. *)
Definition grant_size (pool : pj_pool_t) (n : Z) (grant : option Z) : Z :=
  match block_request pool n, grant with Some sz, Some _ => sz | _, _ => 0 end.

Lemma alloc_capacity pool n grant :
  pool_wf pool -> size_ok n -> grant_ok pool n grant ->
  pool_capacity (snd (pj_pool_alloc pool n grant)) = pool_capacity pool + grant_size pool n grant.
Proof.
  intros W Hn Hg; unfold grant_size, block_request.
  assert (Hcap : 0 <= pool_capacity pool).
  { rewrite (pw_capacity _ W); pose proof (range_sum_nonneg _ (pw_blocks _ W)).
    unfold SIZEOF_POOL; lia. }
  assert (Hfind : pool_capacity (snd (pj_pool_allocate_find pool n grant))
    = pool_capacity pool + match (match alloc_from_blocks (block_list pool) n with
        | Some _ => None
        | None => if increment_size pool =? 0 then None
                  else Some (grow_block_size (increment_size pool) n) end), grant with
        | Some sz, Some _ => sz | _, _ => 0 end).
  { unfold pj_pool_allocate_find.
    destruct (alloc_from_blocks (block_list pool) n) as [[p l']|]; simpl; [lia|].
    destruct (increment_size pool =? 0) eqn:E0; simpl; bool_hyps; [lia|].
    destruct grant as [addr|]; simpl; [|lia].
    pose proof (Hg addr eq_refl E0) as [_ _ Gt _].
    pose proof (pw_incr _ W) as Hi; pose proof Hn as Hn'; unfold size_ok in Hi, Hn'.
    destruct (grow_block_size_spec (increment_size pool) n) as [Hr _]; [done|lia|done|].
    unfold SIZEOF_BLOCK, addr_limit in *.
    destruct (pj_pool_alloc_from_block _ n) as [[p b']|]; simpl; unfold u64;
      rewrite Z.mod_small; lia. }
  unfold pj_pool_alloc; destruct (block_list pool) as [|b l] eqn:El; [exact Hfind|].
  destruct (pj_pool_alloc_from_block b n) as [[p b']|] eqn:Eb; [|exact Hfind].
  simpl; rewrite Eb; lia.
Qed.

Lemma alloc_identity pool n grant :
  pool_wf pool -> size_ok n -> grant_ok pool n grant ->
  let pool' := snd (pj_pool_alloc pool n grant) in
  pool_wf pool' /\ pool_addr pool' = pool_addr pool
  /\ pool_factory_data pool' = pool_factory_data pool /\ first_size pool' = first_size pool.
Proof.
  intros W Hn Hg; pose proof (alloc_cases pool n grant W Hn Hg) as Hc.
  assert (L0 : live_ok pool []) by (constructor; [intros a []%not_elem_of_nil|constructor]).
  pose proof (track_ok pool n grant [] W L0 Hn Hg) as Ht; unfold track in Ht.
  destruct (pw_first _ W) as (f & Hf & _).
  destruct (pj_pool_alloc pool n grant) as [[p|cb] pool']; simpl; [|destruct Hc as [-> _]; done].
  split; [apply Ht|]; unfold first_size; rewrite Hf.
  destruct Hc as [(l' & Ha & ->)|(addr & l' & H0 & G & Ha & ->)]; simpl.
  - destruct (last_advanced n p _ _ f (pw_blocks _ W) Hn Ha Hf) as (f' & -> & ->); done.
  - set (sz := grow_block_size (increment_size pool) n) in *.
    pose proof (pw_incr _ W) as Hi; pose proof Hn as Hn'; unfold size_ok in Hi, Hn'.
    destruct (grow_block_size_spec (increment_size pool) n) as [Hr _]; [done|lia|done|].
    fold sz in Hr; pose proof (grown_wf pool W addr sz ltac:(lia) G) as W2.
    assert (Hf2 : list.last (block_list (grown pool addr sz)) = Some f)
      by (simpl; destruct (block_list pool); [done|exact Hf]).
    destruct (last_advanced n p _ _ f (pw_blocks _ W2) Hn Ha Hf2) as (f' & -> & ->); done.
Qed.

(** ** The operations keep the invariant *)

Lemma init_inv max : 0 <= max < addr_limit -> cp_inv (pj_caching_pool_init max).
Proof.
  intros Hm; constructor; try done.
  - apply NoDup_nil_2.
  - intros a; simpl; rewrite lookup_empty; split; [intros []%not_elem_of_nil|intros [? ?]; done].
  - intros i l a Hl Ha.
    apply (lookup_replicate_1 PJ_CACHING_POOL_ARRAY_SIZE) in Hl as [-> _].
    apply not_elem_of_nil in Ha; done.
Qed.

Lemma in_free cp i l a : cp_free_list cp !! i = Some l -> a ∈ l -> a ∈ concat (cp_free_list cp).
Proof.
  intros Hl Ha; apply list_elem_of_In, in_concat; exists l; split;
    [apply list_elem_of_In, list_elem_of_lookup; exists i; done|apply list_elem_of_In; done].
Qed.

(** Giving out a pool of a free list. *)
Lemma reuse_inv cp a rest pool inc :
  cp_inv cp -> size_ok inc -> forall idx,
  cp_free_list cp !! idx = Some (a :: rest) -> cp_pools cp !! a = Some pool ->
  cp_inv (hand_out idx (pj_pool_init_int pool inc)
    (with_capacity (if cp_capacity (unlink a cp) >? pj_pool_get_capacity (pj_pool_init_int pool inc)
                    then cp_capacity (unlink a cp) - pj_pool_get_capacity (pj_pool_init_int pool inc)
                    else 0) (unlink a cp)))
  /\ (a ∉ cp_used_list cp).
Proof.
  intros I Hi idx Hl Hp; pose proof I as [Hlen Hnd Hst Hwf Hfr Hcnt Hcap Hmax Hus].
  destruct (Hwf a pool Hp) as (W & Haddr & Hcls).
  destruct (Hfr idx _ a Hl (list_elem_of_here _ _)) as (p' & Hp' & Hclean & Hdata & Hpc).
  assert (p' = pool) by congruence; subst p'.
  pose proof (concat_insert_perm _ idx a rest Hl) as Hperm.
  assert (Hau : a ∉ cp_used_list cp).
  { apply NoDup_app in Hnd as (_ & Hdis & _); intros Hin; apply (Hdis a Hin).
    rewrite Hperm; apply list_elem_of_here. }
  split; [|done]; unfold hand_out, unlink, with_capacity, with_lists; simpl.
  rewrite Haddr, (list_erase_notin a) by done.
  rewrite (erase_free_head _ idx a rest) by (apply NoDup_app in Hnd; tauto || done).
  assert (Hsum : free_sum 0 (<[idx := rest]> (cp_free_list cp)) = cp_capacity cp - pool_size_at idx).
  { rewrite (free_sum_insert 0 _ idx _ rest Hl), Hcap; simpl length; simpl Nat.add.
    replace (Z.of_nat (length rest) - Z.of_nat (S (length rest))) with (-1) by lia; lia. }
  pose proof (pool_size_nonneg idx).
  pose proof (free_sum_nonneg 0 (<[idx := rest]> (cp_free_list cp))) as Hnn.
  assert (Hnew : (if cp_capacity cp >? pool_capacity pool then cp_capacity cp - pool_capacity pool else 0)
                 = free_sum 0 (<[idx := rest]> (cp_free_list cp))).
  { rewrite Z.gtb_ltb; case_if; bool_hyps; lia. }
  assert (Hall : (cp_used_list cp ++ [a]) ++ concat (<[idx := rest]> (cp_free_list cp))
                 ≡ₚ cp_used_list cp ++ concat (cp_free_list cp)).
  { rewrite <- app_assoc, Hperm; done. }
  assert (Hnd' : a ∉ concat (<[idx := rest]> (cp_free_list cp))).
  { apply NoDup_app in Hnd as (_ & _ & Hnd); rewrite Hperm in Hnd; apply NoDup_cons in Hnd; tauto. }
  constructor; simpl.
  - rewrite length_insert; done.
  - rewrite Hall; done.
  - intros x; rewrite Hall, Hst; destruct (decide (x = a)) as [->|Hne].
    + rewrite lookup_insert_eq, Hp; split; intros _; eexists; done.
    + rewrite lookup_insert_ne by done; done.
  - intros x q; destruct (decide (x = a)) as [->|Hne].
    + rewrite lookup_insert_eq; intros [= <-]; split; [exact (pool_wf_settings pool (Z.of_nat idx) inc W Hi)|]; split; [exact Haddr|].
      exists idx; split; [done|]; left; destruct Hcls as (i & Ei & Hcl).
      assert (i = idx) by lia; subst i; apply lookup_lt_Some in Hl.
      destruct Hcl as [[? ?]|[? ?]]; [done|lia].
    + rewrite lookup_insert_ne by done; apply Hwf.
  - intros i l x Hil Hx.
    assert (Hxa : x <> a).
    { intros ->; apply Hnd', list_elem_of_In, in_concat; exists l; split;
        [apply list_elem_of_In, list_elem_of_lookup; exists i; done|apply list_elem_of_In; done]. }
    rewrite lookup_insert_ne by done.
    apply list_lookup_insert_Some in Hil as [(-> & <- & _)|[_ Hil]]; [|apply (Hfr i l x Hil Hx)].
    apply (Hfr i _ x Hl), list_elem_of_further; done.
  - rewrite Hcnt, length_app; simpl; unfold u64; rewrite Zplus_mod_idemp_l; f_equal; lia.
  - done.
  - rewrite Hnew; lia.
  - rewrite (pools_sum_update _ _ pool) by done; simpl; rewrite Hus; f_equal; lia.
Qed.

(** Accounting for an allocation that the factory makes. *)
Lemma block_alloc_fields size malloc cp :
  let '(p, cp') := default_block_alloc size malloc cp in
  p = malloc /\ cp_capacity cp' = cp_capacity cp /\ cp_max_capacity cp' = cp_max_capacity cp
  /\ cp_used_count cp' = cp_used_count cp /\ cp_free_list cp' = cp_free_list cp
  /\ cp_used_list cp' = cp_used_list cp /\ cp_pools cp' = cp_pools cp
  /\ (cp_used_size cp = u64 (cp_used_size cp) ->
      cp_used_size cp' = u64 (cp_used_size cp + match malloc with Some _ => size | None => 0 end)).
Proof.
  unfold default_block_alloc; destruct malloc as [p|]; simpl; repeat split.
  intros Hu; unfold u64 in *; rewrite Zminus_mod_idemp_l, Z.add_simpl_r, Z.add_0_r; done.
Qed.

(** Giving out a new pool. *)
Lemma new_pool_inv cp cp' idx pool :
  cp_inv cp -> pool_wf pool -> cp_pools cp !! pool_addr pool = None ->
  class_ok (set_factory_data (Z.of_nat idx) pool) ->
  cp_capacity cp' = cp_capacity cp -> cp_max_capacity cp' = cp_max_capacity cp ->
  cp_used_count cp' = cp_used_count cp -> cp_free_list cp' = cp_free_list cp ->
  cp_used_list cp' = cp_used_list cp -> cp_pools cp' = cp_pools cp ->
  cp_used_size cp' = u64 (cp_used_size cp + pool_capacity pool) ->
  cp_inv (hand_out idx pool cp').
Proof.
  intros [Hlen Hnd Hst Hwf Hfr Hcnt Hcap Hmax Hus] W Hn Hcls E1 E2 E3 E4 E5 E6 E7.
  assert (Hna : pool_addr pool ∉ cp_used_list cp ++ concat (cp_free_list cp)).
  { rewrite Hst, Hn; intros [? ?]; done. }
  assert (Hall : (cp_used_list cp ++ [pool_addr pool]) ++ concat (cp_free_list cp)
                 ≡ₚ pool_addr pool :: cp_used_list cp ++ concat (cp_free_list cp))
    by (rewrite <- app_assoc; symmetry; apply Permutation_middle).
  constructor; simpl; rewrite ?E1, ?E2, ?E3, ?E4, ?E5, ?E6; try done.
  - rewrite Hall; apply NoDup_cons; done.
  - intros x; rewrite Hall, elem_of_cons, Hst; destruct (decide (x = pool_addr pool)) as [->|Hne].
    + rewrite lookup_insert_eq; split; [intros _; eexists; done|tauto].
    + rewrite lookup_insert_ne by done; tauto.
  - intros x q; destruct (decide (x = pool_addr pool)) as [->|Hne].
    + rewrite lookup_insert_eq; intros [= <-].
      split; [apply (pool_wf_settings pool); [done|apply W]|done].
    + rewrite lookup_insert_ne by done; apply Hwf.
  - intros i l x Hl Hx; rewrite lookup_insert_ne; [apply (Hfr i l x Hl Hx)|].
    intros <-; apply Hna, elem_of_app; right; exact (in_free cp i l _ Hl Hx).
  - rewrite Hcnt, length_app; simpl; unfold u64; rewrite Zplus_mod_idemp_l; f_equal; lia.
  - rewrite E7, Hus, pools_sum_insert by done; simpl; unfold u64; rewrite Zplus_mod_idemp_l.
    f_equal; lia.
Qed.

(** What [malloc] answers to a request of the factory for a new pool. *)
Definition malloc_ok (cp : pj_caching_pool) (size : Z) (malloc : option Z) : Prop :=
  forall p, malloc = Some p ->
    0 < p /\ p mod 4 = 0 /\ p + size <= addr_limit /\ cp_pools cp !! p = None.

(** The size a new pool for [n] bytes is created with. *)
Definition class_size (n : Z) : Z :=
  if (size_index n <? PJ_CACHING_POOL_ARRAY_SIZE)%nat then pool_size_at (size_index n) else n.

Lemma class_size_ge n : n <= class_size n.
Proof.
  unfold class_size, PJ_CACHING_POOL_ARRAY_SIZE; destruct (size_index_spec n) as (_ & _ & Hs).
  destruct (size_index n <? 16)%nat eqn:E; [apply Nat.ltb_lt in E; auto|lia].
Qed.

Lemma created_class n inc p pool :
  pj_pool_create_int (class_size n) inc (Some p) = Some pool ->
  first_size pool = class_size n /\ pool_capacity pool = class_size n /\ pool_addr pool = p
  /\ pool_clean pool /\ increment_size pool = inc
  /\ class_ok (set_factory_data (Z.of_nat (size_index n)) pool).
Proof.
  unfold pj_pool_create_int; destruct (_ <? _); [done|]; intros [= <-].
  assert (Hf : first_size (mk_pool p 0 (class_size n) inc
    [mk_blk (p + SIZEOF_POOL) (p + SIZEOF_POOL + SIZEOF_BLOCK)
       (ALIGN_PTR (p + SIZEOF_POOL + SIZEOF_BLOCK) PJ_POOL_ALIGNMENT) (p + class_size n)])
    = class_size n) by (unfold first_size; simpl; lia).
  split; [exact Hf|]; split; [done|]; split; [done|].
  split; [eexists; split; [reflexivity|done]|]; split; [done|].
  exists (size_index n); split; [done|].
  change (first_size (set_factory_data _ ?q)) with (first_size q); rewrite Hf.
  destruct (size_index_spec n) as (H1 & H2 & _); unfold class_size, PJ_CACHING_POOL_ARRAY_SIZE.
  destruct (size_index n <? 16)%nat eqn:E; [apply Nat.ltb_lt in E; by left|].
  apply Nat.ltb_ge in E; right; split; [lia|].
  specialize (H2 15%nat ltac:(lia)); exact H2.
Qed.

(** The state when [default_block_alloc] has been refused. *)
Lemma inv_same_fields cp cp' :
  cp_inv cp ->
  cp_capacity cp' = cp_capacity cp -> cp_max_capacity cp' = cp_max_capacity cp ->
  cp_used_count cp' = cp_used_count cp -> cp_free_list cp' = cp_free_list cp ->
  cp_used_list cp' = cp_used_list cp -> cp_pools cp' = cp_pools cp ->
  cp_used_size cp' = cp_used_size cp -> cp_inv cp'.
Proof.
  intros [] E1 E2 E3 E4 E5 E6 E7; constructor; rewrite ?E1, ?E2, ?E3, ?E4, ?E5, ?E6, ?E7; done.
Qed.

(** What the factory promises of a pool it gives out: nobody holds it, it has
    the size asked for and nothing is allocated in it. *)
Definition fresh_pool (cp : pj_caching_pool) (n inc a : Z) (cp' : pj_caching_pool) : Prop :=
  (a ∉ cp_used_list cp) /\ cp_used_list cp' = cp_used_list cp ++ [a]
  /\ exists pool, cp_pools cp' !! a = Some pool /\ n <= pool_capacity pool
       /\ pool_clean pool /\ increment_size pool = inc.

Lemma create_new_spec cp n inc malloc r cp' :
  cp_inv cp -> size_ok inc -> malloc_ok cp (class_size n) malloc ->
  (if class_size n <? SIZEOF_POOL + SIZEOF_BLOCK then (None, cp)
   else let '(p, cp1) := default_block_alloc (class_size n) malloc cp in
        match pj_pool_create_int (class_size n) inc p with
        | Some pool => (Some (pool_addr pool), hand_out (size_index n) pool cp1)
        | None => (None, cp1)
        end) = (r, cp') ->
  cp_inv cp' /\ match r with
                | Some a => fresh_pool cp n inc a cp'
                | None => cp_used_list cp' = cp_used_list cp
                end.
Proof.
  intros I Hi Hm; destruct (class_size n <? _) eqn:Esz; [intros [= <- <-]; done|].
  pose proof (block_alloc_fields (class_size n) malloc cp) as Hf.
  destruct (default_block_alloc (class_size n) malloc cp) as [p cp1].
  destruct Hf as (-> & E1 & E2 & E3 & E4 & E5 & E6 & E7).
  assert (Hu : cp_used_size cp = u64 (cp_used_size cp))
    by (rewrite (ci_used _ I); unfold u64; rewrite Zmod_mod; done).
  specialize (E7 Hu); destruct malloc as [p|].
  - destruct (pj_pool_create_int (class_size n) inc (Some p)) as [pool|] eqn:Ec.
    + intros [= <- <-]; destruct (created_class n inc p pool Ec) as (_ & Hcap & Hpa & Hcl & Hinc & Hok).
      destruct (Hm p eq_refl) as (Hp1 & Hp2 & Hp3 & Hp4).
      assert (Hn : cp_pools cp !! pool_addr pool = None) by (rewrite Hpa; done).
      pose proof (class_size_ge n) as Hge.
      split; [|split; [|split]].
      * apply (new_pool_inv cp cp1); try done; [eapply pool_create_wf; done|].
        rewrite Hcap; exact E7.
      * intros Hin; destruct (proj1 (ci_store _ I (pool_addr pool))) as [? ?]; [|congruence].
        apply elem_of_app; left; done.
      * simpl; rewrite E5; done.
      * eexists; split; [simpl; apply lookup_insert_eq|]; split; [simpl; lia|done].
    + unfold pj_pool_create_int in Ec; rewrite Esz in Ec; done.
  - unfold pj_pool_create_int; rewrite Esz; intros [= <- <-].
    split; [|done]; apply (inv_same_fields cp); try done.
    rewrite E7, Z.add_0_r; done.
Qed.

Lemma create_pool_spec cp n inc malloc r cp' :
  cp_inv cp -> size_ok inc -> malloc_ok cp (class_size n) malloc ->
  cpool_create_pool cp n inc malloc = (r, cp') ->
  cp_inv cp' /\ match r with
                | Some a => fresh_pool cp n inc a cp'
                | None => cp_used_list cp' = cp_used_list cp
                end.
Proof.
  intros I Hi Hm; unfold cpool_create_pool; fold (class_size n).
  destruct (cp_free_list cp !! size_index n) as [[|b rest]|] eqn:El;
    [apply create_new_spec; done| |apply create_new_spec; done].
  destruct (ci_free _ I _ _ b El (list_elem_of_here _ _)) as (pool & Hp & Hcl & _ & Hpc).
  rewrite Hp; intros [= <- <-].
  destruct (reuse_inv cp b rest pool inc I Hi _ El Hp) as [I' Hnu].
  destruct (ci_wf _ I _ _ Hp) as (_ & Haddr & _).
  split; [exact I'|]; split; [done|]; split.
  { simpl; rewrite Haddr, list_erase_notin by done; done. }
  exists (set_factory_data (Z.of_nat (size_index n)) (pj_pool_init_int pool inc)).
  split; [simpl; rewrite Haddr; apply lookup_insert_eq|]; simpl; rewrite Hpc.
  split; [|done]; destruct (size_index_spec n) as (_ & _ & Hs); apply Hs.
  apply lookup_lt_Some in El; rewrite (ci_len _ I) in El; done.
Qed.

(** *** Release *)

Lemma u64_u64 x : u64 (u64 x) = u64 x.
Proof. unfold u64; apply Zmod_mod. Qed.

(** A used pool leaves its list; the others stay. *)
Lemma unlink_used cp a :
  cp_inv cp -> a ∈ cp_used_list cp ->
  (list_erase a <$> cp_free_list cp) = cp_free_list cp
  /\ cp_used_list cp ++ concat (cp_free_list cp)
     ≡ₚ a :: (list_erase a (cp_used_list cp) ++ concat (cp_free_list cp))
  /\ u64 (cp_used_count cp - 1) = u64 (Z.of_nat (length (list_erase a (cp_used_list cp))))
  /\ NoDup (a :: (list_erase a (cp_used_list cp) ++ concat (cp_free_list cp))).
Proof.
  intros [Hlen Hnd Hst Hwf Hfr Hcnt Hcap Hmax Hus] Ha.
  pose proof Hnd as Hnd'; apply NoDup_app in Hnd' as (Hnu & Hdis & _).
  assert (Hp : cp_used_list cp ++ concat (cp_free_list cp)
     ≡ₚ a :: (list_erase a (cp_used_list cp) ++ concat (cp_free_list cp)))
    by (rewrite (erase_perm a (cp_used_list cp)) at 1 by done; done).
  split; [apply erase_free_notin, Hdis; done|]; split; [done|]; split; [|rewrite <- Hp; done].
  rewrite Hcnt, (erase_length a (cp_used_list cp)) by done.
  unfold u64; rewrite Zminus_mod_idemp_l; f_equal; lia.
Qed.

(** The pool is given back to the system. *)
Lemma release_destroys cp a pool :
  cp_inv cp -> a ∈ cp_used_list cp -> cp_pools cp !! a = Some pool ->
  cp_inv (destroy_pool pool (with_count (u64 (cp_used_count cp - 1)) (unlink a cp))).
Proof.
  intros I Ha Hp; destruct (unlink_used cp a I Ha) as (Ef & Hperm & Hcount & Hnd').
  pose proof I as [Hlen Hnd Hst Hwf Hfr Hcnt Hcap Hmax Hus].
  destruct (Hwf a pool Hp) as (W & Haddr & _); unfold destroy_pool.
  match goal with |- cp_inv (default_block_free ?f ?c) =>
    destruct (block_free_fields f c) as (F1 & F2 & F3 & F4 & F5 & F6 & F7 & F8);
    set (cp' := default_block_free f c) in *; clearbody cp' end.
  simpl in F1, F2, F3, F4, F5, F6, F7, F8; rewrite Ef in F4; rewrite Haddr in F6.
  rewrite destroy_freed in F7 by done; apply NoDup_cons in Hnd' as [Hna Hnd'].
  constructor; rewrite ?F1, ?F2, ?F3, ?F4, ?F5, ?F6; try done.
  - intros x; specialize (Hst x); rewrite Hperm, elem_of_cons in Hst.
    destruct (decide (x = a)) as [->|Hne].
    + rewrite lookup_delete_eq; split; [done|intros [? ?]; done].
    + rewrite lookup_delete_ne by done; tauto.
  - intros x q; destruct (decide (x = a)) as [->|Hne];
      [rewrite lookup_delete_eq; done|rewrite lookup_delete_ne by done; apply Hwf].
  - intros i l x Hl Hx; rewrite lookup_delete_ne; [apply (Hfr i l x Hl Hx)|].
    intros <-; apply Hna, elem_of_app; right; exact (in_free cp i l _ Hl Hx).
  - rewrite F8 by (rewrite Hus, u64_u64; done); rewrite F7, Hus, (pools_sum_delete _ a pool) by done.
    unfold u64; rewrite Zminus_mod_idemp_l; f_equal; lia.
Qed.

(** The pool is reset and kept in the list of its class. *)
Lemma release_keeps cp a pool i :
  cp_inv cp -> a ∈ cp_used_list cp -> cp_pools cp !! a = Some pool ->
  pool_factory_data pool = Z.of_nat i -> (i < 16)%nat ->
  cp_capacity cp + pool_capacity pool <= cp_max_capacity cp ->
  let '(freed, pool') := pj_pool_reset pool in
  let cp1 := with_count (u64 (cp_used_count cp - 1)) (unlink a cp) in
  let cp2 := default_block_free freed (with_pools (<[a := pool']> (cp_pools cp1)) cp1) in
  cp_inv (mk_cp (u64 (cp_capacity cp2 + pj_pool_get_capacity pool')) (cp_max_capacity cp2)
            (cp_used_count cp2) (cp_used_size cp2) (cp_peak_used_size cp2)
            (alter (cons a) i (cp_free_list cp2)) (cp_used_list cp2) (cp_pools cp2)).
Proof.
  intros I Ha Hp Hdata Hi16 Hroom.
  destruct (unlink_used cp a I Ha) as (Ef & Hperm & Hcount & Hnd').
  pose proof I as [Hlen Hnd Hst Hwf Hfr Hcnt Hcap Hmax Hus].
  destruct (Hwf a pool Hp) as (W & Haddr & (j & Hj & Hcls)).
  assert (j = i) by lia; subst j; destruct Hcls as [[_ Hfs]|[? _]]; [|lia].
  pose proof (first_size_le pool W) as Hfl; pose proof (reset_wf pool W) as W'.
  destruct (reset_clean pool W) as (Hcl & Ha' & Hd' & Hc' & Hf' & Hfreed).
  destruct (pj_pool_reset pool) as [freed pool']; simpl in W', Hcl, Ha', Hd', Hc', Hf', Hfreed.
  intros cp1 cp2.
  destruct (block_free_fields freed (with_pools (<[a := pool']> (cp_pools cp1)) cp1))
    as (F1 & F2 & F3 & F4 & F5 & F6 & F7 & F8); fold cp2 in F1, F2, F3, F4, F5, F6, F7, F8.
  clearbody cp2; unfold cp1 in *; clear cp1; simpl in F1, F2, F3, F4, F5, F6, F7, F8.
  rewrite Ef in F4; rewrite Hfreed in F7; apply NoDup_cons in Hnd' as [Hna Hnd'].
  destruct (lookup_lt_is_Some_2 (cp_free_list cp) i) as [l Hl]; [lia|].
  assert (Eal : alter (cons a) i (cp_free_list cp2) = <[i := a :: l]> (cp_free_list cp)).
  { rewrite F4; apply list_eq; intros k; destruct (decide (k = i)) as [->|Hne].
    - rewrite list_lookup_alter_eq, list_lookup_insert_eq, Hl by lia; done.
    - rewrite list_lookup_alter_ne, list_lookup_insert_ne by done; done. }
  pose proof (pool_size_nonneg i) as Hsz; pose proof (free_sum_nonneg 0 (cp_free_list cp)).
  pose proof (free_sum_insert 0 _ i _ (a :: l) Hl) as Hsum; simpl length in Hsum; simpl Nat.add in Hsum.
  replace (Z.of_nat (S (length l)) - Z.of_nat (length l)) with 1 in Hsum by lia.
  assert (Ecap : u64 (cp_capacity cp2 + pj_pool_get_capacity pool') = cp_capacity cp + pool_size_at i).
  { unfold pj_pool_get_capacity; rewrite F1, Hc', Hfs.
    unfold u64; rewrite Z.mod_small; [done|]; unfold addr_limit in *; lia. }
  assert (Hall : list_erase a (cp_used_list cp) ++ concat (<[i := a :: l]> (cp_free_list cp))
                 ≡ₚ cp_used_list cp ++ concat (cp_free_list cp)).
  { rewrite Hperm, (concat_cons_perm _ i a l Hl); symmetry; apply Permutation_middle. }
  constructor; simpl; rewrite ?Eal, ?Ecap, ?F2, ?F3, ?F5, ?F6.
  - rewrite length_insert; done.
  - rewrite Hall; done.
  - intros x; rewrite Hall, Hst; destruct (decide (x = a)) as [->|Hne].
    + rewrite lookup_insert_eq, Hp; split; intros _; eexists; done.
    + rewrite lookup_insert_ne by done; done.
  - intros x q; destruct (decide (x = a)) as [->|Hne].
    + rewrite lookup_insert_eq; intros [= <-]; split; [exact W'|]; split; [congruence|].
      exists i; rewrite Hf', Hd'; split; [done|by left].
    + rewrite lookup_insert_ne by done; apply Hwf.
  - intros k m x Hm Hx; destruct (decide (x = a)) as [->|Hne].
    + apply list_lookup_insert_Some in Hm as [(<- & _ & _)|[_ Hm]].
      * exists pool'; rewrite lookup_insert_eq, Hc', Hd', Hdata, Hfs; done.
      * destruct Hna; apply elem_of_app; right; exact (in_free cp k m a Hm Hx).
    + rewrite lookup_insert_ne by done.
      apply list_lookup_insert_Some in Hm as [(<- & <- & _)|[_ Hm]]; [|apply (Hfr k m x Hm Hx)].
      apply (Hfr i l x Hl); apply elem_of_cons in Hx as [|]; done.
  - exact Hcount.
  - lia.
  - lia.
  - rewrite F8 by (rewrite Hus, u64_u64; done); rewrite F7, Hus, (pools_sum_update _ _ pool) by done.
    unfold u64; rewrite Zminus_mod_idemp_l; f_equal; lia.
Qed.

Lemma release_inv cp a :
  cp_inv cp -> a ∈ cp_used_list cp -> cp_inv (cpool_release_pool cp a).
Proof.
  intros I Ha.
  destruct (proj1 (ci_store _ I a)) as [pool Hp]; [apply elem_of_app; by left|].
  destruct (ci_wf _ I a pool Hp) as (W & _ & (i & Hi & Hcls)).
  unfold cpool_release_pool; rewrite Hp.
  destruct (_ || _) eqn:E; [apply release_destroys; done|].
  apply orb_false_iff in E as [E1 E2]; rewrite Z.gtb_ltb in E1, E2; bool_hyps.
  change (pool_size_at (PJ_CACHING_POOL_ARRAY_SIZE - 1)) with 65536 in E1.
  pose proof (first_size_le pool W) as Hfl; unfold pj_pool_get_capacity in *; simpl in E2.
  assert (Hi16 : (i < 16)%nat /\ first_size pool = pool_size_at i)
    by (destruct Hcls as [|[? ?]]; [done|lia]).
  pose proof (ci_max _ I) as Hmax; pose proof (ci_capacity _ I) as Hcap.
  pose proof (free_sum_nonneg 0 (cp_free_list cp)); pose proof (pool_size_nonneg i).
  unfold u64 in E2; rewrite Z.mod_small in E2 by (unfold addr_limit in *; lia).
  pose proof (release_keeps cp a pool i I Ha Hp Hi (proj1 Hi16) E2) as Hk.
  destruct (reset_clean pool W) as (_ & _ & Hd & _ & _ & _).
  destruct (pj_pool_reset pool) as [freed pool']; simpl in Hd.
  replace (PJ_CACHING_POOL_ARRAY_SIZE <=? Z.to_nat (pool_factory_data pool'))%nat with false
    by (rewrite Hd, Hi, Nat2Z.id; symmetry; apply Nat.leb_gt; exact (proj1 Hi16)).
  replace (Z.to_nat (pool_factory_data pool')) with i by (rewrite Hd, Hi, Nat2Z.id; done).
  exact Hk.
Qed.

(** *** Allocation from a pool in use *)

Lemma cp_alloc_inv cp a n malloc pool :
  cp_inv cp -> a ∈ cp_used_list cp -> cp_pools cp !! a = Some pool ->
  size_ok n -> grant_ok pool n malloc ->
  cp_inv (snd (cp_pool_alloc cp a n malloc)).
Proof.
  intros I Ha Hp Hn Hg; pose proof I as [Hlen Hnd Hst Hwf Hfr Hcnt Hcap Hmax Hus].
  destruct (Hwf a pool Hp) as (W & Haddr & Hcls).
  destruct (alloc_identity pool n malloc W Hn Hg) as (W' & Ea & Ed & Es).
  pose proof (alloc_capacity pool n malloc W Hn Hg) as Ec; unfold grant_size in Ec.
  unfold cp_pool_alloc; rewrite Hp.
  destruct (pj_pool_alloc pool n malloc) as [r pool']; simpl in W', Ea, Ed, Es, Ec.
  assert (Hu : cp_used_size cp = u64 (cp_used_size cp)) by (rewrite Hus, u64_u64; done).
  set (cp1 := match block_request pool n with None => cp | Some sz => _ end).
  assert (F : cp_capacity cp1 = cp_capacity cp /\ cp_max_capacity cp1 = cp_max_capacity cp
    /\ cp_used_count cp1 = cp_used_count cp /\ cp_free_list cp1 = cp_free_list cp
    /\ cp_used_list cp1 = cp_used_list cp /\ cp_pools cp1 = cp_pools cp
    /\ cp_used_size cp1 = u64 (cp_used_size cp + (pool_capacity pool' - pool_capacity pool))).
  { unfold cp1; destruct (block_request pool n) as [sz|].
    - pose proof (block_alloc_fields sz malloc cp) as Hf.
      destruct (default_block_alloc sz malloc cp) as [p c]; simpl.
      destruct Hf as (_ & -> & -> & -> & -> & -> & -> & Hf); rewrite (Hf Hu), Ec.
      repeat split; f_equal; destruct malloc; lia.
    - repeat split; rewrite Ec; rewrite Hu at 1; f_equal; lia. }
  clearbody cp1; destruct F as (E1 & E2 & E3 & E4 & E5 & E6 & E7); simpl.
  assert (Hna : a ∉ concat (cp_free_list cp)) by (apply NoDup_app in Hnd as (_ & Hdis & _); exact (Hdis a Ha)).
  constructor; simpl; rewrite ?E1, ?E2, ?E3, ?E4, ?E5, ?E6; try done.
  - intros x; rewrite Hst; destruct (decide (x = a)) as [->|Hne].
    + rewrite lookup_insert_eq, Hp; split; intros _; eexists; done.
    + rewrite lookup_insert_ne by done; done.
  - intros x q; destruct (decide (x = a)) as [->|Hne].
    + rewrite lookup_insert_eq; intros [= <-]; split; [exact W'|]; split; [congruence|].
      destruct Hcls as (i & ? & ?); exists i; rewrite Ed, Es; done.
    + rewrite lookup_insert_ne by done; apply Hwf.
  - intros i l x Hl Hx; rewrite lookup_insert_ne; [apply (Hfr i l x Hl Hx)|].
    intros <-; apply Hna; exact (in_free cp i l _ Hl Hx).
  - rewrite E7, Hus, (pools_sum_update _ _ pool) by done.
    unfold u64; rewrite Zplus_mod_idemp_l; f_equal; lia.
Qed.

(** ** Runs *)

Inductive cp_op :=
| CCreate (initial_size increment : Z) (malloc : option Z)
| CRelease (a : Z)
| CAlloc (a n : Z) (malloc : option Z).

Definition cp_step (op : cp_op) (cp : pj_caching_pool) : pj_caching_pool :=
  match op with
  | CCreate n inc malloc => snd (cpool_create_pool cp n inc malloc)
  | CRelease a => cpool_release_pool cp a
  | CAlloc a n malloc => snd (cp_pool_alloc cp a n malloc)
  end.

(** The application releases and uses only pools it holds. *)
Definition cp_op_ok (cp : pj_caching_pool) (op : cp_op) : Prop :=
  match op with
  | CCreate n inc malloc => size_ok inc /\ malloc_ok cp (class_size n) malloc
  | CRelease a => a ∈ cp_used_list cp
  | CAlloc a n malloc =>
      a ∈ cp_used_list cp /\ size_ok n
      /\ forall pool, cp_pools cp !! a = Some pool -> grant_ok pool n malloc
  end.

Inductive cp_reachable : pj_caching_pool -> Prop :=
| cpreach_init max : 0 <= max < addr_limit -> cp_reachable (pj_caching_pool_init max)
| cpreach_step cp op : cp_reachable cp -> cp_op_ok cp op -> cp_reachable (cp_step op cp).

Lemma cp_reachable_inv cp : cp_reachable cp -> cp_inv cp.
Proof.
  induction 1 as [max Hm|cp op _ I Hok]; [apply init_inv; done|].
  destruct op as [n inc malloc|a|a n malloc]; simpl in Hok |- *.
  - destruct Hok as [Hi Hm]; destruct (cpool_create_pool cp n inc malloc) as [r cp'] eqn:E.
    apply (create_pool_spec cp n inc malloc r cp'); done.
  - apply release_inv; done.
  - destruct Hok as (Ha & Hn & Hg).
    destruct (proj1 (ci_store _ I a)) as [pool Hp]; [apply elem_of_app; by left|].
    apply (cp_alloc_inv cp a n malloc pool); auto.
Qed.

(** However the application creates, uses and releases pools: no pool is held
    twice or held and free at once; the free capacity is the sum of the free
    pools and never above the maximum; the count of used pools and the memory in
    use are what the lists and the pools say. *)
Theorem caching_pool_accounts cp :
  cp_reachable cp ->
  NoDup (cp_used_list cp ++ concat (cp_free_list cp))
  /\ (forall a, a ∈ cp_used_list cp ++ concat (cp_free_list cp) <-> is_Some (cp_pools cp !! a))
  /\ cp_used_count cp = u64 (Z.of_nat (length (cp_used_list cp)))
  /\ cp_capacity cp = free_sum 0 (cp_free_list cp) /\ cp_capacity cp <= cp_max_capacity cp
  /\ cp_used_size cp = u64 (pools_sum (cp_pools cp)).
Proof.
  intros [Hlen Hnd Hst Hwf Hfr Hcnt Hcap Hmax Hus]%cp_reachable_inv.
  split; [done|]; split; [done|]; split; [done|]; split; [done|]; split; [lia|done].
Qed.

(** A pool that the factory gives out, new or from its cache, is not held by
    anybody, has at least the size asked for, has nothing allocated in it and
    grows by the increment asked for; and it joins the pools in use. *)
Theorem caching_pool_gives_fresh cp n inc malloc a cp' :
  cp_reachable cp -> size_ok inc -> malloc_ok cp (class_size n) malloc ->
  cpool_create_pool cp n inc malloc = (Some a, cp') -> fresh_pool cp n inc a cp'.
Proof.
  intros I%cp_reachable_inv Hi Hm E.
  exact (proj2 (create_pool_spec cp n inc malloc (Some a) cp' I Hi Hm E)).
Qed.

(** A pool of 300 bytes, created, used, released and created again for 500. *)
Definition demo_cp : pj_caching_pool :=
  cp_step (CRelease 4096) (cp_step (CAlloc 4096 100 None)
    (cp_step (CCreate 300 128 (Some 4096)) (pj_caching_pool_init 100000))).

Lemma demo_cp_reachable : cp_reachable demo_cp.
Proof.
  unfold demo_cp; apply cpreach_step; [apply cpreach_step; [apply cpreach_step|]|].
  - apply cpreach_init; unfold addr_limit; lia.
  - split; [unfold size_ok; lia|]; intros p [= <-].
    split; [lia|]; split; [reflexivity|]; split; [vm_compute; discriminate|reflexivity].
  - split; [apply list_elem_of_here|]; split; [unfold size_ok; lia|intros pool _ ? [=]].
  - apply list_elem_of_here.
Qed.

Lemma caching_pool_accounts_witness : cp_capacity demo_cp = 512 /\ cp_capacity demo_cp <= cp_max_capacity demo_cp.
Proof.
  destruct (caching_pool_accounts demo_cp demo_cp_reachable) as (_ & _ & _ & _ & Hc & _).
  exact (conj eq_refl Hc).
Defined.

Lemma caching_pool_gives_fresh_witness :
  exists cp', cpool_create_pool demo_cp 500 64 None = (Some 4096, cp')
    /\ fresh_pool demo_cp 500 64 4096 cp'.
Proof.
  eexists; split; [reflexivity|].
  apply (caching_pool_gives_fresh demo_cp 500 64 None 4096 _ demo_cp_reachable).
  - unfold size_ok; lia.
  - intros ? [=].
  - reflexivity.
Defined.

(** ** A defect *)

(** Releasing a pool twice is not noticed: the cache counts the pool twice, and
    the count of used pools wraps. *)
Theorem double_release_miscounts :
  let cp := cpool_release_pool demo_cp 4096 in
  cp_capacity cp = 1024 /\ concat (cp_free_list cp) = [4096] /\ cp_used_count cp = 18446744073709551615.
Proof. split; [|split]; vm_compute; reflexivity. Qed.
