(* ===== verification/G711.v ===== *)
(** * G.711: A-law and mu-law companding

    The computed conversions of [pjmedia/src/pjmedia/alaw_ulaw.c] and the
    table look-ups of [pjmedia/include/pjmedia/alaw_ulaw.h], one of which the
    build selects with [PJMEDIA_HAS_ALAW_ULAW_TABLE].  The theorems bound the
    quantisation error of both, relate the tables to the computed conversions
    sample by sample, and show which codes survive a conversion to linear
    samples and back. *)

From Stdlib Require Import ZArith Lia Bool.
From stdpp Require Import base list numbers.
From S2P Require Import Prelude.
From S2P Require Import G711Tables.
Local Open Scope Z_scope.

(** ** The computed conversions *)

Definition SIGN_BIT : Z := 0x80.
Definition QUANT_MASK : Z := 0xf.
Definition SEG_SHIFT : Z := 4.
Definition SEG_MASK : Z := 0x70.
Definition BIAS : Z := 0x84.

Definition seg_end : list Z :=
  [0xFF; 0x1FF; 0x3FF; 0x7FF; 0xFFF; 0x1FFF; 0x3FFF; 0x7FFF].

(** The loop stops at the first of [size] bounds that reaches [val]. *)
Fixpoint search_from (i val : Z) (table : list Z) (size : nat) : Z :=
  match size, table with
  | S size, e :: table =>
      if val <=? e then i else search_from (i + 1) val table size
  | _, _ => i
  end.

Definition search (val : Z) (table : list Z) (size : nat) : Z :=
  search_from 0 val table size.

(** Sign, segment and quantisation bits of a magnitude. *)
Definition alaw_combine (mask pcm_val : Z) : Z :=
  let seg := search pcm_val seg_end 8 in
  if seg >=? 8 then u8 (Z.lxor 0x7F mask)
  else
    let aval := u8 (Z.shiftl seg SEG_SHIFT) in
    let aval :=
      if seg <? 2 then u8 (Z.lor aval (Z.land (Z.shiftr pcm_val 4) QUANT_MASK))
      else u8 (Z.lor aval (Z.land (Z.shiftr pcm_val (seg + 3)) QUANT_MASK)) in
    u8 (Z.lxor aval mask).

Definition pjmedia_linear2alaw (pcm_val : Z) : Z :=
  if pcm_val >=? 0 then alaw_combine 0xD5 pcm_val
  else
    let pcm_val := - pcm_val - 8 in
    alaw_combine 0x55 (if pcm_val <? 0 then 0 else pcm_val).

Definition pjmedia_alaw2linear (a_val : Z) : Z :=
  let a_val := Z.lxor a_val 0x55 in
  let t := Z.shiftl (Z.land a_val QUANT_MASK) 4 in
  let seg := Z.shiftr (Z.land a_val SEG_MASK) SEG_SHIFT in
  let t :=
    match seg with
    | 0 => t + 8
    | 1 => t + 0x108
    | _ => Z.shiftl (t + 0x108) (seg - 1)
    end in
  if Z.land a_val SIGN_BIT =? 0 then - t else t.

Definition ulaw_combine (mask pcm_val : Z) : Z :=
  let seg := search pcm_val seg_end 8 in
  if seg >=? 8 then u8 (Z.lxor 0x7F mask)
  else
    let uval :=
      u8 (Z.lor (Z.shiftl seg 4) (Z.land (Z.shiftr pcm_val (seg + 3)) 0xF)) in
    u8 (Z.lxor uval mask).

Definition pjmedia_linear2ulaw (pcm_val : Z) : Z :=
  if pcm_val <? 0 then ulaw_combine 0x7F (BIAS - pcm_val)
  else ulaw_combine 0xFF (pcm_val + BIAS).

Definition pjmedia_ulaw2linear (u_val : Z) : Z :=
  if u_val =? 0 then 0
  else
    let u_val := u8 (Z.lnot u_val) in
    let t := Z.shiftl (Z.land u_val QUANT_MASK) 3 + BIAS in
    let t := Z.shiftl t (Z.shiftr (Z.land u_val SEG_MASK) SEG_SHIFT) in
    if Z.land u_val SIGN_BIT =? 0 then t - BIAS else BIAS - t.

Definition _u2a : list Z := [
  1; 1; 2; 2; 3; 3; 4; 4;
  5; 5; 6; 6; 7; 7; 8; 8;
  9; 10; 11; 12; 13; 14; 15; 16;
  17; 18; 19; 20; 21; 22; 23; 24;
  25; 27; 29; 31; 33; 34; 35; 36;
  37; 38; 39; 40; 41; 42; 43; 44;
  46; 48; 49; 50; 51; 52; 53; 54;
  55; 56; 57; 58; 59; 60; 61; 62;
  64; 65; 66; 67; 68; 69; 70; 71;
  72; 73; 74; 75; 76; 77; 78; 79;
  81; 82; 83; 84; 85; 86; 87; 88;
  89; 90; 91; 92; 93; 94; 95; 96;
  97; 98; 99; 100; 101; 102; 103; 104;
  105; 106; 107; 108; 109; 110; 111; 112;
  113; 114; 115; 116; 117; 118; 119; 120;
  121; 122; 123; 124; 125; 126; 127; 128].

Definition _a2u : list Z := [
  1; 3; 5; 7; 9; 11; 13; 15;
  16; 17; 18; 19; 20; 21; 22; 23;
  24; 25; 26; 27; 28; 29; 30; 31;
  32; 32; 33; 33; 34; 34; 35; 35;
  36; 37; 38; 39; 40; 41; 42; 43;
  44; 45; 46; 47; 48; 48; 49; 49;
  50; 51; 52; 53; 54; 55; 56; 57;
  58; 59; 60; 61; 62; 63; 64; 64;
  65; 66; 67; 68; 69; 70; 71; 72;
  73; 74; 75; 76; 77; 78; 79; 79;
  80; 81; 82; 83; 84; 85; 86; 87;
  88; 89; 90; 91; 92; 93; 94; 95;
  96; 97; 98; 99; 100; 101; 102; 103;
  104; 105; 106; 107; 108; 109; 110; 111;
  112; 113; 114; 115; 116; 117; 118; 119;
  120; 121; 122; 123; 124; 125; 126; 127].

(** [tab[i]] of a constant array, inside its bounds. *)
Definition tab_at (tab : list Z) (i : Z) : Z := default 0 (tab !! Z.to_nat i).

Definition pjmedia_alaw2ulaw (aval : Z) : Z :=
  let aval := Z.land aval 0xff in
  if Z.land aval 0x80 =? 0 then u8 (Z.lxor 0x7F (tab_at _a2u (Z.lxor aval 0x55)))
  else u8 (Z.lxor 0xFF (tab_at _a2u (Z.lxor aval 0xD5))).

Definition pjmedia_ulaw2alaw (uval : Z) : Z :=
  let uval := Z.land uval 0xff in
  if Z.land uval 0x80 =? 0
  then u8 (Z.lxor 0x55 (tab_at _u2a (Z.lxor 0x7F uval) - 1))
  else u8 (Z.lxor 0xD5 (tab_at _u2a (Z.lxor 0xFF uval) - 1)).

(** ** The table look-ups

    The macros of the same names, selected by default. *)

Definition linear2alaw_table (pcm_val : Z) : Z :=
  tab_at pjmedia_linear2alaw_tab (Z.land (Z.shiftr (s16 pcm_val) 2) 0x3fff).
Definition alaw2linear_table (chara_val : Z) : Z :=
  tab_at pjmedia_alaw2linear_tab chara_val.
Definition linear2ulaw_table (pcm_val : Z) : Z :=
  tab_at pjmedia_linear2ulaw_tab (Z.land (Z.shiftr (s16 pcm_val) 2) 0x3fff).
Definition ulaw2linear_table (u_val : Z) : Z :=
  tab_at pjmedia_ulaw2linear_tab u_val.
Definition alaw2ulaw_table (aval : Z) : Z :=
  linear2ulaw_table (alaw2linear_table aval).
Definition ulaw2alaw_table (uval : Z) : Z :=
  linear2alaw_table (ulaw2linear_table uval).

(** ** Segments *)

Lemma search_spec val :
  0 <= val ->
  let s := search val seg_end 8 in
  (s = 0 /\ val <= 255) \/
  (1 <= s < 8 /\ 2 ^ (s + 7) <= val < 2 ^ (s + 8)) \/ (s = 8 /\ 32768 <= val).
Proof.
  intros Hv. unfold search, seg_end. cbn [search_from].
  repeat (case_if; bool_hyps; [solve [first [left; lia | right; left; cbn; lia]]|]).
  right; right. lia.
Qed.

(** The linear value in the middle of a quantisation interval. *)
Definition alaw_level (s q : Z) : Z :=
  if s =? 0 then 16 * q + 8 else (16 * q + 0x108) * 2 ^ (s - 1).
Definition ulaw_level (s q : Z) : Z := (8 * q + BIAS) * 2 ^ s - BIAS.

(** The code of an interval, with the mask that carries its sign. *)
Definition alaw_code (mask s q : Z) : Z :=
  u8 (Z.lxor (u8 (Z.lor (u8 (Z.shiftl s SEG_SHIFT)) q)) mask).
Definition ulaw_code (mask s q : Z) : Z :=
  u8 (Z.lxor (u8 (Z.lor (Z.shiftl s 4) q)) mask).

Lemma alaw_decode s q :
  0 <= s < 8 -> 0 <= q < 16 ->
  pjmedia_alaw2linear (alaw_code 0xD5 s q) = alaw_level s q /\
  pjmedia_alaw2linear (alaw_code 0x55 s q) = - alaw_level s q.
Proof.
  intros Hs Hq.
  pose proof (range_check2 8 16 (fun s q =>
    (pjmedia_alaw2linear (alaw_code 0xD5 s q) =? alaw_level s q) &&
    (pjmedia_alaw2linear (alaw_code 0x55 s q) =? - alaw_level s q))
    ltac:(vm_compute; reflexivity) s q Hs Hq) as H.
  cbv beta in H. bool_hyps. done.
Qed.

(** mu-law code 0, the largest negative value, is not decoded to its level. *)
Lemma ulaw_decode s q :
  0 <= s < 8 -> 0 <= q < 16 ->
  pjmedia_ulaw2linear (ulaw_code 0xFF s q) = ulaw_level s q /\
  pjmedia_ulaw2linear (ulaw_code 0x7F s q) =
    if (s =? 7) && (q =? 15) then 0 else - ulaw_level s q.
Proof.
  intros Hs Hq.
  pose proof (range_check2 8 16 (fun s q =>
    (pjmedia_ulaw2linear (ulaw_code 0xFF s q) =? ulaw_level s q) &&
    (pjmedia_ulaw2linear (ulaw_code 0x7F s q) =?
       if (s =? 7) && (q =? 15) then 0 else - ulaw_level s q))
    ltac:(vm_compute; reflexivity) s q Hs Hq) as H.
  cbv beta in H. bool_hyps. done.
Qed.

(** ** Quantisation *)

Lemma quant_bits m k : 0 <= k -> Z.land (Z.shiftr m k) 15 = (m / 2 ^ k) mod 16.
Proof.
  intros Hk. rewrite Z.shiftr_div_pow2 by done. exact (Z.land_ones (m / 2 ^ k) 4 ltac:(lia)).
Qed.

(** Split of a segment number into its values. *)
Ltac seg_split s :=
  let H := fresh in
  assert (s = 1 \/ s = 2 \/ s = 3 \/ s = 4 \/ s = 5 \/ s = 6 \/ s = 7) as H by lia;
  destruct H as [->|[->|[->|[->|[->|[->| ->]]]]]].

(** The magnitudes of an interval; the last one takes the clipped ones. *)
Definition alaw_lo (s q : Z) : Z :=
  if s =? 0 then 16 * q else 2 ^ (s + 3) * (16 + q).
Definition alaw_hi (s q : Z) : Z :=
  if (s =? 7) && (q =? 15) then 32772
  else alaw_lo s q + (if s =? 0 then 16 else 2 ^ (s + 3)).
Definition ulaw_lo (s q : Z) : Z := 2 ^ (s + 3) * (16 + q) - BIAS.
Definition ulaw_hi (s q : Z) : Z :=
  if (s =? 7) && (q =? 15) then 32772 else ulaw_lo s q + 2 ^ (s + 3).

Lemma alaw_quantise m :
  0 <= m <= 32768 ->
  exists s q, 0 <= s < 8 /\ 0 <= q < 16 /\ alaw_lo s q <= m < alaw_hi s q /\
    (forall mask, alaw_combine mask m = alaw_code mask s q) /\
    - 7 - m / 32 <= alaw_level s q - m <= 8 + m / 32.
Proof.
  intros Hm. unfold alaw_combine, QUANT_MASK, alaw_code.
  destruct (search_spec m ltac:(lia)) as [[-> Hs]|[[Hr Hs]|[-> Hs]]]; cbv zeta.
  - exists 0, ((m / 16) mod 16). cbn [Z.geb Z.ltb Z.compare].
    rewrite quant_bits by lia. unfold alaw_level, alaw_hi, alaw_lo. cbn [Z.eqb andb].
    split_and!; try int_lia. done.
  - set (s := search m seg_end 8) in *. clearbody s.
    exists s, ((m / 2 ^ (if s <? 2 then 4 else s + 3)) mod 16).
    rewrite !quant_bits by lia. unfold alaw_level, alaw_hi, alaw_lo.
    seg_split s; cbn in *;
      (split_and!; [lia|lia|int_lia|int_lia|int_lia|try case_if; int_lia|done|int_lia|int_lia]).
  - exists 7, 15. assert (m = 32768) as -> by lia. split_and!; done.
Qed.

Lemma ulaw_quantise m :
  0 <= m <= 32768 ->
  exists s q, 0 <= s < 8 /\ 0 <= q < 16 /\
    (forall mask, ulaw_combine mask (m + BIAS) = ulaw_code mask s q) /\
    ulaw_lo s q <= m < ulaw_hi s q /\
    Z.abs (ulaw_level s q - m) <= 5 + m / 32.
Proof.
  intros Hm. unfold ulaw_combine, ulaw_code, ulaw_hi, ulaw_lo, ulaw_level, BIAS.
  destruct (search_spec (m + 132) ltac:(lia)) as [[-> Hs]|[[Hr Hs]|[-> Hs]]]; cbv zeta.
  - exists 0, (((m + 132) / 8) mod 16). cbn [Z.geb Z.compare Z.eqb andb].
    rewrite quant_bits by lia. split_and!; try int_lia. done.
  - set (s := search (m + 132) seg_end 8) in *. clearbody s.
    exists s, (((m + 132) / 2 ^ (s + 3)) mod 16).
    rewrite !quant_bits by lia.
    seg_split s; cbn in *;
      (split_and!; [lia|lia|int_lia|int_lia|done|int_lia|try case_if; int_lia|int_lia]).
  - exists 7, 15. cbn. split_and!; try done; int_lia.
Qed.

(** The computed codecs: A-law at every sample, mu-law at every sample above
    the interval of code 0. *)
Lemma alaw_error x :
  is_s16 x ->
  Z.abs (pjmedia_alaw2linear (pjmedia_linear2alaw x) - x) <=
    (if x <? 0 then 15 else 8) + Z.abs x / 32.
Proof.
  unfold is_s16, pjmedia_linear2alaw. rewrite Z.geb_leb. intros Hx.
  destruct (Z.leb_spec 0 x).
  - destruct (alaw_quantise x ltac:(lia)) as (s & q & Hs & Hq & _ & -> & He).
    rewrite (proj1 (alaw_decode s q Hs Hq)). case_if; bool_hyps; int_lia.
  - set (m := if - x - 8 <? 0 then 0 else - x - 8).
    assert (0 <= m <= 32768 /\ - x - 8 <= m <= Z.max 0 (- x - 8)) as [Hm Hr]
      by (subst m; case_if; bool_hyps; lia).
    destruct (alaw_quantise m Hm) as (s & q & Hs & Hq & _ & -> & He).
    rewrite (proj2 (alaw_decode s q Hs Hq)). case_if; bool_hyps; int_lia.
Qed.

Lemma ulaw_error x :
  is_s16 x -> -31612 < x ->
  Z.abs (pjmedia_ulaw2linear (pjmedia_linear2ulaw x) - x) <= 5 + Z.abs x / 32.
Proof.
  unfold is_s16, pjmedia_linear2ulaw. intros Hx Hl. destruct (Z.ltb_spec x 0).
  - destruct (ulaw_quantise (- x) ltac:(lia)) as (s & q & Hs & Hq & Hc & H7 & He).
    replace (BIAS - x) with (- x + BIAS) by lia. rewrite Hc.
    rewrite (proj2 (ulaw_decode s q Hs Hq)).
    destruct ((s =? 7) && (q =? 15)) eqn:E; bool_hyps; [|int_lia].
    exfalso. subst. unfold ulaw_lo, BIAS in H7. cbn in H7. lia.
  - destruct (ulaw_quantise x ltac:(lia)) as (s & q & Hs & Hq & -> & _ & He).
    rewrite (proj1 (ulaw_decode s q Hs Hq)). int_lia.
Qed.

(** ** The tables against the computed conversions

    A table is checked one interval at a time: all entries of the interval hold
    its code. *)

Definition check_run (tab : list Z) (a b c : Z) : bool :=
  forallb (Z.eqb c) (take (Z.to_nat (b - Z.max 0 a)) (drop (Z.to_nat a) tab)).

Lemma check_run_spec tab a b c i :
  check_run tab a b c = true -> 0 <= i < Z.of_nat (length tab) -> a <= i < b ->
  tab_at tab i = c.
Proof.
  unfold check_run, tab_at. rewrite forallb_forall. intros H Hl Hi.
  destruct (lookup_lt_is_Some_2 tab (Z.to_nat i)) as [v Hv]; [lia|]. rewrite Hv.
  symmetry. apply Z.eqb_eq, H, list_elem_of_In, list_elem_of_lookup.
  exists (Z.to_nat i - Z.to_nat a)%nat.
  rewrite lookup_take_lt by lia. rewrite lookup_drop.
  replace (Z.to_nat a + (Z.to_nat i - Z.to_nat a))%nat with (Z.to_nat i) by lia. done.
Qed.

(** The entries of an interval for the samples at and above 0, and for those
    below, which the index counts down from the end of the table. *)
Definition check_table (tab : list Z) (lo hi : Z -> Z -> Z) (code : Z -> Z -> Z -> Z)
    (pos neg : Z) : bool :=
  forallb (fun s => forallb (fun q =>
    check_run tab (lo s q / 4) (Z.min 8192 (hi s q / 4)) (code pos s q) &&
    check_run tab (Z.max 8192 (16385 - hi s q / 4)) (16385 - lo s q / 4) (code neg s q))
    (seqZ 0 16)) (seqZ 0 8).

Lemma alaw_table_ok : check_table pjmedia_linear2alaw_tab alaw_lo alaw_hi alaw_code 0xD5 0x55 = true.
Proof. vm_cast_no_check (eq_refl true). Qed.
Lemma ulaw_table_ok : check_table pjmedia_linear2ulaw_tab ulaw_lo ulaw_hi ulaw_code 0xFF 0x7F = true.
Proof. vm_cast_no_check (eq_refl true). Qed.
Lemma table_lengths :
  length pjmedia_linear2alaw_tab = Z.to_nat 16384 /\ length pjmedia_linear2ulaw_tab = Z.to_nat 16384.
Proof. split; vm_cast_no_check (eq_refl (Z.to_nat 16384)). Qed.

Lemma table_index x :
  is_s16 x ->
  Z.land (Z.shiftr (s16 x) 2) 0x3fff = if x <? 0 then 16384 + x / 4 else x / 4.
Proof.
  unfold is_s16. intros Hx. replace (s16 x) with x by (unfold s16; int_lia).
  rewrite Z.shiftr_div_pow2 by lia. change (2 ^ 2) with 4.
  change 0x3fff with (Z.ones 14). rewrite Z.land_ones by lia. change (2 ^ 14) with 16384.
  case_if; bool_hyps; int_lia.
Qed.

(** A checked table holds, at the entry of a sample, the code of the interval
    of the sample's magnitude, the magnitude of a negative sample being that of
    the multiple of four below it. *)
Lemma check_table_spec tab lo hi code pos neg x s q :
  check_table tab lo hi code pos neg = true -> length tab = Z.to_nat 16384 ->
  0 <= s < 8 -> 0 <= q < 16 -> lo s q mod 4 = 0 -> hi s q mod 4 = 0 ->
  is_s16 x -> lo s q <= Z.max x (- (4 * (x / 4))) < hi s q ->
  tab_at tab (if x <? 0 then 16384 + x / 4 else x / 4) =
    code (if x <? 0 then neg else pos) s q.
Proof.
  unfold is_s16. intros Hc Hl Hs Hq Hlo Hhi Hx Hm.
  apply (range_check2 8 16 _) with (z := s) (w := q) in Hc; [|done..].
  apply andb_prop in Hc as [H1 H2]. destruct (Z.ltb_spec x 0).
  - apply (check_run_spec _ _ _ _ _ H2); [rewrite Hl; int_lia|int_lia].
  - apply (check_run_spec _ _ _ _ _ H1); [rewrite Hl; int_lia|int_lia].
Qed.

Lemma interval_mod s q :
  0 <= s < 8 -> 0 <= q < 16 ->
  alaw_lo s q mod 4 = 0 /\ alaw_hi s q mod 4 = 0 /\
  ulaw_lo s q mod 4 = 0 /\ ulaw_hi s q mod 4 = 0.
Proof.
  intros Hs Hq.
  pose proof (range_check2 8 16 (fun s q =>
    (alaw_lo s q mod 4 =? 0) && (alaw_hi s q mod 4 =? 0) &&
    (ulaw_lo s q mod 4 =? 0) && (ulaw_hi s q mod 4 =? 0))
    ltac:(vm_compute; reflexivity) s q Hs Hq) as H.
  cbv beta in H. bool_hyps. done.
Qed.

Lemma alaw_code_sign s q :
  0 <= s < 8 -> 0 <= q < 16 -> alaw_code 0x55 s q = Z.lxor (alaw_code 0xD5 s q) 0x80.
Proof.
  intros Hs Hq. apply Z.eqb_eq.
  exact (range_check2 8 16 (fun s q => alaw_code 0x55 s q =? Z.lxor (alaw_code 0xD5 s q) 0x80)
    ltac:(vm_compute; reflexivity) s q Hs Hq).
Qed.

Lemma alaw_table_spec x :
  is_s16 x ->
  linear2alaw_table x =
    if x <? 0 then Z.lxor (pjmedia_linear2alaw (- (4 * (x / 4)))) 0x80
    else pjmedia_linear2alaw x.
Proof.
  intros Hx. unfold linear2alaw_table. rewrite table_index by done.
  set (m := Z.max x (- (4 * (x / 4)))).
  assert (0 <= m <= 32768 /\ m = if x <? 0 then - (4 * (x / 4)) else x) as [Hm Hmx]
    by (unfold is_s16 in Hx; subst m; case_if; bool_hyps; int_lia).
  destruct (alaw_quantise m Hm) as (s & q & Hs & Hq & Hi & Hc & _).
  destruct (interval_mod s q Hs Hq) as (H1 & H2 & _).
  rewrite (check_table_spec _ _ _ _ _ _ x s q alaw_table_ok (proj1 table_lengths)) by done.
  unfold pjmedia_linear2alaw. destruct (x <? 0) eqn:E; rewrite <- Hmx, Z.geb_leb.
  - rewrite (proj2 (Z.leb_le 0 m)), Hc, alaw_code_sign by lia. done.
  - rewrite (proj2 (Z.leb_le 0 m)), Hc by lia. done.
Qed.

Lemma ulaw_table_spec x :
  is_s16 x ->
  linear2ulaw_table x = pjmedia_linear2ulaw (if x <? 0 then 4 * (x / 4) else x).
Proof.
  intros Hx. unfold linear2ulaw_table. rewrite table_index by done.
  set (m := Z.max x (- (4 * (x / 4)))).
  assert (0 <= m <= 32768 /\ m = if x <? 0 then - (4 * (x / 4)) else x) as [Hm Hmx]
    by (unfold is_s16 in Hx; subst m; case_if; bool_hyps; int_lia).
  destruct (ulaw_quantise m Hm) as (s & q & Hs & Hq & Hc & Hi & _).
  destruct (interval_mod s q Hs Hq) as (_ & _ & H1 & H2).
  rewrite (check_table_spec _ _ _ _ _ _ x s q ulaw_table_ok (proj2 table_lengths)) by done.
  unfold pjmedia_linear2ulaw. destruct (Z.ltb_spec x 0).
  - rewrite (proj2 (Z.ltb_lt (4 * (x / 4)) 0)) by int_lia. rewrite <- Hc. f_equal. lia.
  - rewrite (proj2 (Z.ltb_ge x 0)) by lia. rewrite <- Hc. f_equal. lia.
Qed.

Lemma decode_tables c :
  is_u8 c ->
  alaw2linear_table c = pjmedia_alaw2linear c /\
  ulaw2linear_table c = (if c =? 0 then -32124 else pjmedia_ulaw2linear c) /\
  pjmedia_alaw2linear (Z.lxor c 0x80) = - pjmedia_alaw2linear c.
Proof.
  intros Hc.
  pose proof (range_check 256 (fun c =>
    (alaw2linear_table c =? pjmedia_alaw2linear c) &&
    (ulaw2linear_table c =? if c =? 0 then -32124 else pjmedia_ulaw2linear c) &&
    (pjmedia_alaw2linear (Z.lxor c 0x80) =? - pjmedia_alaw2linear c))
    ltac:(vm_compute; reflexivity) c Hc) as H.
  cbv beta in H. bool_hyps. done.
Qed.

Lemma alaw_combine_range mask m : is_u8 (alaw_combine mask m).
Proof. unfold alaw_combine. cbv zeta. repeat case_if; apply u8_range. Qed.
Lemma linear2alaw_range x : is_u8 (pjmedia_linear2alaw x).
Proof. unfold pjmedia_linear2alaw. case_if; apply alaw_combine_range. Qed.

Lemma alaw_table_error x :
  is_s16 x ->
  Z.abs (alaw2linear_table (linear2alaw_table x) - x) <= 12 + Z.abs x / 32.
Proof.
  intros Hx. rewrite alaw_table_spec by done. unfold is_s16 in Hx.
  destruct (Z.ltb_spec x 0).
  - assert (0 <= - (4 * (x / 4)) <= 32768) as Hm by int_lia.
    destruct (alaw_quantise _ Hm) as (s & q & Hs & Hq & _ & Hc & He).
    unfold pjmedia_linear2alaw. rewrite Z.geb_leb, (proj2 (Z.leb_le 0 _)) by lia.
    rewrite Hc, <- alaw_code_sign by done.
    rewrite (proj1 (decode_tables (alaw_code 0x55 s q) (u8_range _))).
    rewrite (proj2 (alaw_decode s q Hs Hq)).
    int_lia.
  - rewrite (proj1 (decode_tables _ (linear2alaw_range x))).
    pose proof (alaw_error x Hx) as He. rewrite (proj2 (Z.ltb_ge x 0)) in He by lia. lia.
Qed.

Lemma ulaw_table_decode s q :
  0 <= s < 8 -> 0 <= q < 16 ->
  ulaw2linear_table (ulaw_code 0xFF s q) = ulaw_level s q /\
  ulaw2linear_table (ulaw_code 0x7F s q) = - ulaw_level s q.
Proof.
  intros Hs Hq.
  pose proof (range_check2 8 16 (fun s q =>
    (ulaw2linear_table (ulaw_code 0xFF s q) =? ulaw_level s q) &&
    (ulaw2linear_table (ulaw_code 0x7F s q) =? - ulaw_level s q))
    ltac:(vm_compute; reflexivity) s q Hs Hq) as H.
  cbv beta in H. bool_hyps. done.
Qed.

Lemma ulaw_table_error x :
  is_s16 x ->
  Z.abs (ulaw2linear_table (linear2ulaw_table x) - x) <= 9 + Z.abs x / 32.
Proof.
  intros Hx. rewrite ulaw_table_spec by done. unfold is_s16 in Hx.
  unfold pjmedia_linear2ulaw. destruct (Z.ltb_spec x 0).
  - rewrite (proj2 (Z.ltb_lt (4 * (x / 4)) 0)) by int_lia.
    destruct (ulaw_quantise (- (4 * (x / 4))) ltac:(int_lia)) as (s & q & Hs & Hq & Hc & _ & He).
    replace (BIAS - 4 * (x / 4)) with (- (4 * (x / 4)) + BIAS) by lia. rewrite Hc.
    rewrite (proj2 (ulaw_table_decode s q Hs Hq)). int_lia.
  - rewrite (proj2 (Z.ltb_ge x 0)) by lia.
    destruct (ulaw_quantise x ltac:(lia)) as (s & q & Hs & Hq & -> & _ & He).
    rewrite (proj1 (ulaw_table_decode s q Hs Hq)). int_lia.
Qed.

(** ** Claims *)

(** C32. The table look-ups agree with the computed conversions at every 16-bit
    sample at and above 0 and at every code but one: below 0 a table rounds the
    sample down to a multiple of four first, the A-law table mirrors the code of
    the magnitude, and mu-law code 0 decodes to -32124 instead of 0. *)
Theorem g711_tables_agree x c :
  is_s16 x -> is_u8 c ->
  linear2alaw_table x =
    (if x <? 0 then Z.lxor (pjmedia_linear2alaw (- (4 * (x / 4)))) 0x80
     else pjmedia_linear2alaw x) /\
  linear2ulaw_table x = pjmedia_linear2ulaw (if x <? 0 then 4 * (x / 4) else x) /\
  alaw2linear_table c = pjmedia_alaw2linear c /\
  ulaw2linear_table c = (if c =? 0 then -32124 else pjmedia_ulaw2linear c).
Proof.
  intros Hx Hc. destruct (decode_tables c Hc) as (Ha & Hu & _).
  split_and!; [exact (alaw_table_spec x Hx)|exact (ulaw_table_spec x Hx)|done|done].
Qed.

Lemma g711_tables_agree_witness :
  linear2alaw_table (-31744) = Z.lxor (pjmedia_linear2alaw 31744) 0x80 /\
  linear2alaw_table (-31744) <> pjmedia_linear2alaw (-31744).
Proof.
  split.
  - refine (proj1 (g711_tables_agree (-31744) 0 _ _)); unfold is_s16, is_u8; lia.
  - vm_compute. discriminate.
Defined.

(** C33. Encoding a 16-bit sample and decoding the code gives back the sample up
    to a relative error of 1/32 and a constant: 8 (15 below 0) for the computed
    A-law, 5 for the computed mu-law, 12 and 9 for the tables.  The computed
    mu-law keeps the bound above -31612 only. *)
Theorem g711_quantisation_error x :
  is_s16 x ->
  Z.abs (pjmedia_alaw2linear (pjmedia_linear2alaw x) - x) <=
    (if x <? 0 then 15 else 8) + Z.abs x / 32 /\
  (-31612 < x ->
   Z.abs (pjmedia_ulaw2linear (pjmedia_linear2ulaw x) - x) <= 5 + Z.abs x / 32) /\
  Z.abs (alaw2linear_table (linear2alaw_table x) - x) <= 12 + Z.abs x / 32 /\
  Z.abs (ulaw2linear_table (linear2ulaw_table x) - x) <= 9 + Z.abs x / 32.
Proof.
  intros Hx. split_and!; [by apply alaw_error|by apply ulaw_error|
    by apply alaw_table_error|by apply ulaw_table_error].
Qed.

Lemma g711_quantisation_error_witness :
  Z.abs (pjmedia_alaw2linear (pjmedia_linear2alaw (-20000)) - -20000) <= 15 + 20000 / 32.
Proof.
  exact (proj1 (g711_quantisation_error (-20000) ltac:(unfold is_s16; lia))).
Defined.

(** A code converted to a sample and back is unchanged: every A-law code,
    and every mu-law code but 127, the negative zero, and, in the computed
    conversion, 0.  Both implementations give the same codes. *)
Theorem g711_codes_round_trip c :
  is_u8 c ->
  pjmedia_linear2alaw (pjmedia_alaw2linear c) = c /\
  linear2alaw_table (alaw2linear_table c) = c /\
  pjmedia_linear2ulaw (pjmedia_ulaw2linear c) =
    (if (c =? 127) || (c =? 0) then 255 else c) /\
  linear2ulaw_table (ulaw2linear_table c) = (if c =? 127 then 255 else c).
Proof.
  intros Hc.
  pose proof (range_check 256 (fun c =>
    (pjmedia_linear2alaw (pjmedia_alaw2linear c) =? c) &&
    (linear2alaw_table (alaw2linear_table c) =? c) &&
    (pjmedia_linear2ulaw (pjmedia_ulaw2linear c) =?
       if (c =? 127) || (c =? 0) then 255 else c) &&
    (linear2ulaw_table (ulaw2linear_table c) =? if c =? 127 then 255 else c))
    ltac:(vm_cast_no_check (eq_refl true)) c Hc) as H.
  cbv beta in H. bool_hyps. done.
Qed.

Lemma g711_codes_round_trip_witness :
  pjmedia_linear2alaw (pjmedia_alaw2linear 42) = 42.
Proof. exact (proj1 (g711_codes_round_trip 42 ltac:(unfold is_u8; lia))). Defined.

(** The largest negative samples are encoded with mu-law code 0, which the
    computed decoder takes for silence. *)
Theorem ulaw_silences_peaks x :
  is_s16 x -> x <= -31612 -> pjmedia_ulaw2linear (pjmedia_linear2ulaw x) = 0.
Proof.
  unfold is_s16, pjmedia_linear2ulaw. intros Hx Hl.
  rewrite (proj2 (Z.ltb_lt x 0)) by lia.
  destruct (ulaw_quantise (- x) ltac:(lia)) as (s & q & Hs & Hq & Hc & Hi & He).
  replace (BIAS - x) with (- x + BIAS) by lia. rewrite Hc, (proj2 (ulaw_decode s q Hs Hq)).
  destruct ((s =? 7) && (q =? 15)) eqn:E; [done|].
  pose proof (range_check2 8 16 (fun s q => (s =? 7) && (q =? 15) || (ulaw_hi s q <=? 31612))
    ltac:(vm_compute; reflexivity) s q Hs Hq) as H.
  cbv beta in H. rewrite E in H. cbn [orb] in H. bool_hyps. lia.
Qed.

(** The direct conversions between the two laws stay within the same relative
    error, in the computed form and through the tables. *)
Theorem g711_transcoding_error c :
  is_u8 c ->
  Z.abs (ulaw2linear_table (pjmedia_alaw2ulaw c) - pjmedia_alaw2linear c) <=
    8 + Z.abs (pjmedia_alaw2linear c) / 32 /\
  Z.abs (pjmedia_alaw2linear (pjmedia_ulaw2alaw c) - ulaw2linear_table c) <=
    8 + Z.abs (ulaw2linear_table c) / 32 /\
  Z.abs (ulaw2linear_table (alaw2ulaw_table c) - pjmedia_alaw2linear c) <=
    8 + Z.abs (pjmedia_alaw2linear c) / 32 /\
  Z.abs (pjmedia_alaw2linear (ulaw2alaw_table c) - ulaw2linear_table c) <=
    8 + Z.abs (ulaw2linear_table c) / 32.
Proof.
  intros Hc.
  pose proof (range_check 256 (fun c =>
    (Z.abs (ulaw2linear_table (pjmedia_alaw2ulaw c) - pjmedia_alaw2linear c) <=?
       8 + Z.abs (pjmedia_alaw2linear c) / 32) &&
    (Z.abs (pjmedia_alaw2linear (pjmedia_ulaw2alaw c) - ulaw2linear_table c) <=?
       8 + Z.abs (ulaw2linear_table c) / 32) &&
    (Z.abs (ulaw2linear_table (alaw2ulaw_table c) - pjmedia_alaw2linear c) <=?
       8 + Z.abs (pjmedia_alaw2linear c) / 32) &&
    (Z.abs (pjmedia_alaw2linear (ulaw2alaw_table c) - ulaw2linear_table c) <=?
       8 + Z.abs (ulaw2linear_table c) / 32))
    ltac:(vm_cast_no_check (eq_refl true)) c Hc) as H.
  cbv beta in H. bool_hyps. done.
Qed.
