(* ===== verification/Rtp.v ===== *)
(** * RTP sessions: headers, packet decoding and sequence-number control

    Model of pjmedia/src/pjmedia/rtp.c.  The 16-bit sequence numbers, the
    32-bit cycle counter and the timestamps keep their width; header fields
    that the program stores in network byte order are stored so here. *)

From Stdlib Require Import ZArith Lia Bool.
From stdpp Require Import base list numbers option.
From S2P Require Import Prelude.
Local Open Scope Z_scope.

Definition RTP_VERSION : Z := 2.
Definition RTP_SEQ_MOD : Z := 65536.
Definition MAX_DROPOUT : Z := 3000.
Definition MAX_MISORDER : Z := 100.
Definition MIN_SEQUENTIAL : Z := 2.
Definition PJMEDIA_RTP_EINVER : pj_status_t := 220122.
Definition PJMEDIA_RTP_EINLEN : pj_status_t := 220125.

(** ** Data *)

(** [struct pjmedia_rtp_hdr]: bit fields by value; [seq], [ts] and [ssrc] in
    network byte order. *)
Record rtp_hdr := mk_hdr {
  h_v : Z; h_p : Z; h_x : Z; h_cc : Z; h_m : Z; h_pt : Z;
  h_seq : Z; h_ts : Z; h_ssrc : Z }.

(** [struct pjmedia_rtp_seq_session] *)
Record seq_session := mk_seq {
  max_seq : Z; cycles : Z; base_seq : Z; bad_seq : Z; probation : Z }.

(** [struct pjmedia_rtp_session] *)
Record rtp_session := mk_ses {
  out_hdr : rtp_hdr; seq_ctrl : seq_session; out_pt : Z;
  out_extseq : Z; peer_ssrc : Z; received : Z }.

(** [struct pjmedia_rtp_status]: the flag union and the sequence difference. *)
Record rtp_status := mk_st {
  bad : bool; badpt : bool; badssrc : bool; dup : bool;
  outorder : bool; st_probation : bool; restart : bool; diff : Z }.

Definition st0 : rtp_status := mk_st false false false false false false false 0.

(** [struct pjmedia_rtp_session_setting] *)
Record session_setting := mk_setting {
  set_flags : Z; set_default_pt : Z; set_sender_ssrc : Z; set_seq : Z; set_ts : Z }.

(** ** Sequence control *)

Definition pjmedia_rtp_seq_restart (s : seq_session) (seq : Z) : seq_session :=
  mk_seq seq 0 seq (RTP_SEQ_MOD + 1) (probation s).

Definition pjmedia_rtp_seq_init (s : seq_session) (seq : Z) : seq_session :=
  let s := pjmedia_rtp_seq_restart s seq in
  mk_seq (u16 (seq - 1)) (cycles s) (base_seq s) (bad_seq s) MIN_SEQUENTIAL.

(** The comparison [seq == max_seq + 1] is made on promoted integers, so the
    successor of 65535 is 65536 there. *)
Definition pjmedia_rtp_seq_update (s : seq_session) (seq : Z)
  : seq_session * rtp_status :=
  let udelta := u16 (seq - max_seq s) in
  if negb (probation s =? 0) then
    if seq =? max_seq s + 1 then
      let pr := u32 (probation s - 1) in
      (s <| probation := pr |> <| max_seq := seq |>,
       st0 <| st_probation := negb (pr =? 0) |> <| diff := 1 |>)
    else
      let st := st0 <| st_probation := true |> <| bad := true |> in
      (s <| probation := MIN_SEQUENTIAL - 1 |> <| max_seq := seq |>,
       if seq =? max_seq s then st <| dup := true |> else st <| outorder := true |>)
  else if udelta =? 0 then (s, st0 <| dup := true |>)
  else if udelta <? MAX_DROPOUT then
    let s := if seq <? max_seq s
             then s <| cycles := u32 (cycles s + RTP_SEQ_MOD) |> else s in
    (s <| max_seq := seq |>, st0 <| diff := udelta |>)
  else if udelta <=? RTP_SEQ_MOD - MAX_MISORDER then
    if seq =? bad_seq s then
      (pjmedia_rtp_seq_restart s seq,
       st0 <| restart := true |> <| st_probation := true |> <| diff := 1 |>)
    else
      (s <| bad_seq := Z.land (seq + 1) (RTP_SEQ_MOD - 1) |>,
       st0 <| bad := true |> <| outorder := true |>)
  else (s, st0 <| outorder := true |>).

(** ** Session set-up *)

(** [rnd1] and [rnd2] are the values the two calls of [pj_rand()] return. *)
Definition pjmedia_rtp_session_init (rnd1 rnd2 default_pt sender_ssrc : Z)
  : pj_status_t * rtp_session :=
  let sender_ssrc :=
    if (sender_ssrc =? 0) || (sender_ssrc =? 4294967295)
    then pj_htonl (u32 rnd1) else pj_htonl sender_ssrc in
  let extseq := Z.land rnd2 32767 in
  (PJ_SUCCESS,
   {| out_hdr := {| h_v := RTP_VERSION; h_p := 0; h_x := 0; h_cc := 0; h_m := 0;
                    h_pt := default_pt mod 128;
                    h_seq := pj_htons (u16 extseq); h_ts := 0;
                    h_ssrc := sender_ssrc |};
      seq_ctrl := mk_seq 0 0 0 0 0;
      out_pt := u16 default_pt; out_extseq := extseq;
      peer_ssrc := 0; received := 0 |}).

Definition pjmedia_rtp_session_init2 (rnd1 rnd2 : Z) (st : session_setting)
  : pj_status_t * rtp_session :=
  let pt := if negb (Z.land (set_flags st) 1 =? 0) then set_default_pt st else 0 in
  let ssrc := if negb (Z.land (set_flags st) 2 =? 0) then set_sender_ssrc st else 0 in
  let '(status, ses) := pjmedia_rtp_session_init rnd1 rnd2 pt ssrc in
  if negb (status =? PJ_SUCCESS) then (status, ses)
  else
    let ses := if negb (Z.land (set_flags st) 4 =? 0)
               then ses <| out_extseq := set_seq st |>
                        <| out_hdr ::= (fun h => h <| h_seq := pj_htons (u16 (set_seq st)) |>) |>
               else ses in
    let ses := if negb (Z.land (set_flags st) 8 =? 0)
               then ses <| out_hdr ::= (fun h => h <| h_ts := pj_htonl (set_ts st) |>) |>
               else ses in
    (PJ_SUCCESS, ses).

(** ** Sending *)

(** Returns the session and, unless the frame is a clock frame, the header to
    send and its length. *)
Definition pjmedia_rtp_encode_rtp (ses : rtp_session) (pt m payload_len ts_len : Z)
  : rtp_session * pj_status_t * option (rtp_hdr * Z) :=
  let ses := ses <| out_hdr ::= (fun h =>
               h <| h_ts := pj_htonl (u32 (pj_ntohl (h_ts h) + ts_len)) |>) |> in
  if payload_len =? 0 then (ses, PJ_SUCCESS, None)
  else
    let ses := ses <| out_extseq := u32 (out_extseq ses + 1) |> in
    let ses := ses <| out_hdr ::= (fun h =>
                 h <| h_pt := (if pt =? -1 then out_pt ses else pt) mod 128 |>
                   <| h_m := m mod 2 |>
                   <| h_seq := pj_htons (u16 (out_extseq ses)) |>) |> in
    (ses, PJ_SUCCESS, Some (out_hdr ses, 12)).

(** ** Receiving *)

(** The twelve bytes of the packed header in memory, little-endian host. *)
Definition hdr_bytes (h : rtp_hdr) : list Z :=
  [ h_v h * 64 + h_p h * 32 + h_x h * 16 + h_cc h;
    h_m h * 128 + h_pt h;
    h_seq h mod 256; h_seq h / 256;
    h_ts h mod 256; h_ts h / 256 mod 256; h_ts h / 65536 mod 256; h_ts h / 16777216;
    h_ssrc h mod 256; h_ssrc h / 256 mod 256; h_ssrc h / 65536 mod 256; h_ssrc h / 16777216 ].

(** The header overlaid on the first twelve bytes of a buffer; [None] when the
    buffer has fewer. *)
Definition hdr_of_bytes (pkt : list Z) : option rtp_hdr :=
  match pkt with
  | b0 :: b1 :: b2 :: b3 :: b4 :: b5 :: b6 :: b7 :: b8 :: b9 :: b10 :: b11 :: _ =>
      Some {| h_v := b0 / 64; h_p := b0 / 32 mod 2; h_x := b0 / 16 mod 2;
              h_cc := b0 mod 16; h_m := b1 / 128; h_pt := b1 mod 128;
              h_seq := b2 + b3 * 256;
              h_ts := b4 + b5 * 256 + b6 * 65536 + b7 * 16777216;
              h_ssrc := b8 + b9 * 256 + b10 * 65536 + b11 * 16777216 |}
  | _ => None
  end.

(** Outcome of decoding: header, offset and length of the payload; an error
    status; or a read outside the packet. *)
Inductive dec_res :=
| DecOk (h : rtp_hdr) (off len : Z)
| DecErr (st : pj_status_t)
| DecOob.

(** The part of the decoder after the offset is known: the length test, the
    payload's position and the removal of padding. *)
Definition decode_payload (pkt : list Z) (padded : bool) (offset : Z) : dec_res :=
  let pkt_len := Z.of_nat (length pkt) in
  if pkt_len <? offset then DecErr PJMEDIA_RTP_EINLEN
  else
    match hdr_of_bytes pkt with
    | None => DecOob
    | Some h =>
        let len := pkt_len - offset in
        if padded && (0 <? len) then
          match pkt !! Z.to_nat (offset + len - 1) with
          | None => DecOob
          | Some pad_len => DecOk h offset (if pad_len <=? len then len - pad_len else len)
          end
        else DecOk h offset len
    end.

(** [pkt] holds exactly the [pkt_len] bytes received.  The bit fields of the
    first byte are read before any length test, as in the source. *)
Definition pjmedia_rtp_decode_rtp (pkt : list Z) : dec_res :=
  match pkt !! 0%nat with
  | None => DecOob
  | Some b0 =>
      if negb (b0 / 64 =? RTP_VERSION) then DecErr PJMEDIA_RTP_EINVER
      else
        let offset := 12 + (b0 mod 16) * 4 in
        let padded := negb (b0 / 32 mod 2 =? 0) in
        if b0 / 16 mod 2 =? 0 then decode_payload pkt padded offset
        else match pkt !! Z.to_nat (offset + 2), pkt !! Z.to_nat (offset + 3) with
             | Some l0, Some l1 =>
                 decode_payload pkt padded (offset + (pj_ntohs (l0 + l1 * 256) + 1) * 4)
             | _, _ => DecOob
             end
  end.

(** [p_seq_st] is the caller's status structure, [None] for a null pointer;
    the result carries its value afterwards. *)
Definition pjmedia_rtp_session_update2 (ses : rtp_session) (hdr : rtp_hdr)
    (p_seq_st : option rtp_status) (check_pt : bool)
  : rtp_session * option rtp_status :=
  let ssrc := pj_ntohl (h_ssrc hdr) in
  let ses := if peer_ssrc ses =? 0 then ses <| peer_ssrc := ssrc |> else ses in
  let '(ses, seq_st) :=
    if negb (ssrc =? peer_ssrc ses)
    then (ses <| peer_ssrc := ssrc |>, st0 <| badssrc := true |>)
    else (ses, st0) in
  if check_pt && negb (h_pt hdr =? out_pt ses) then
    (ses, match p_seq_st with
          | Some p => Some (seq_st <| diff := diff p |> <| bad := true |> <| badpt := true |>)
          | None => None
          end)
  else
    let seq := pj_ntohs (h_seq hdr) in
    let ses := if received ses =? 0
               then ses <| seq_ctrl ::= (fun s => pjmedia_rtp_seq_init s seq) |> else ses in
    let '(sc, seq_st) := pjmedia_rtp_seq_update (seq_ctrl ses) seq in
    let ses := ses <| seq_ctrl := sc |> in
    let ses :=
      if restart seq_st then ses <| received := u32 (received ses + 1) |>
      else if negb (bad seq_st) then ses <| received := u32 (received ses + 1) |>
      else ses in
    (ses, match p_seq_st with Some _ => Some seq_st | None => None end).

Definition pjmedia_rtp_session_update (ses : rtp_session) (hdr : rtp_hdr)
    (p_seq_st : option rtp_status) : rtp_session * option rtp_status :=
  pjmedia_rtp_session_update2 ses hdr p_seq_st true.

(** * Properties *)

(** ** Well-formedness of the sequence state *)

Record seq_wf (s : seq_session) : Prop := {
  wf_max : is_u16 (max_seq s);
  wf_cycles : is_u32 (cycles s);
  wf_base : is_u16 (base_seq s);
  wf_bad : 0 <= bad_seq s <= RTP_SEQ_MOD + 1;
  wf_prob : 0 <= probation s <= MIN_SEQUENTIAL }.

Lemma seq_init_wf s seq : is_u16 seq -> seq_wf (pjmedia_rtp_seq_init s seq).
Proof.
  intros H; split; cbn; unfold RTP_SEQ_MOD, MIN_SEQUENTIAL;
    try apply u16_range; int_lia.
Qed.

Lemma land_seq_mod x : Z.land x (RTP_SEQ_MOD - 1) = u16 x.
Proof. change (RTP_SEQ_MOD - 1) with (Z.ones 16). by rewrite Z.land_ones by lia. Qed.

Lemma seq_update_wf s seq :
  seq_wf s -> is_u16 seq -> seq_wf (pjmedia_rtp_seq_update s seq).1.
Proof.
  intros [] Hs; unfold pjmedia_rtp_seq_update, pjmedia_rtp_seq_restart.
  destruct s; cbn in *; rewrite land_seq_mod.
  repeat case_if; bool_hyps; split; cbn;
    unfold RTP_SEQ_MOD, MIN_SEQUENTIAL in *; try assumption; int_lia.
Qed.

(** ** Extended sequence numbers

    The extended highest sequence number of RFC 3550 is the cycle count plus
    the highest sequence number seen. *)
Definition ext_seq (s : seq_session) : Z := u32 (cycles s + max_seq s).

(** The reference view: a sender counts packets with an unbounded integer and
    puts its low 16 bits on the wire. *)
Fixpoint run_seq (s : seq_session) (ns : list Z) : seq_session * list rtp_status :=
  match ns with
  | [] => (s, [])
  | n :: ns =>
      let '(s1, st) := pjmedia_rtp_seq_update s (u16 n) in
      let '(s2, sts) := run_seq s1 ns in (s2, st :: sts)
  end.

(** Consecutive true sequence numbers, each less than [MAX_DROPOUT] ahead. *)
Fixpoint ahead (n : Z) (ns : list Z) : Prop :=
  match ns with
  | [] => True
  | m :: ns => n < m < n + MAX_DROPOUT /\ ahead m ns
  end.

(** [s] tracks the true sequence number [n]. *)
Definition tracks (s : seq_session) (n : Z) : Prop :=
  probation s = 0 /\ is_u32 (cycles s) /\ cycles s mod RTP_SEQ_MOD = 0 /\
  max_seq s = u16 n /\ ext_seq s = u32 n.

Lemma ext_seq_split s n :
  is_u32 (cycles s) -> cycles s mod RTP_SEQ_MOD = 0 -> max_seq s = u16 n ->
  ext_seq s = u32 n -> cycles s = u32 (n - u16 n).
Proof.
  unfold ext_seq, RTP_SEQ_MOD; intros Hc Hd Hm He.
  assert (is_u16 (max_seq s)) by (rewrite Hm; apply u16_range).
  rewrite u32_small in He by int_lia. rewrite Hm in He. int_lia.
Qed.

Lemma seq_update_tracks s n m :
  tracks s n -> n < m < n + MAX_DROPOUT ->
  let '(s', st) := pjmedia_rtp_seq_update s (u16 m) in
  tracks s' m /\ st = st0 <| diff := m - n |>.
Proof.
  intros (Hp & Hc & Hd & Hm & He) Hr.
  pose proof (ext_seq_split s n Hc Hd Hm He) as Hcy.
  unfold pjmedia_rtp_seq_update; rewrite Hp; cbn [Z.eqb negb].
  assert (Hu : u16 (u16 m - max_seq s) = m - n)
    by (rewrite Hm; unfold MAX_DROPOUT in *; int_lia).
  rewrite Hu.
  destruct (m - n =? 0) eqn:E0; bool_hyps; [lia|].
  destruct (m - n <? MAX_DROPOUT) eqn:E1; bool_hyps; [|lia].
  split; [|done].
  unfold tracks, ext_seq, MAX_DROPOUT, RTP_SEQ_MOD in *.
  destruct s as [mx cy ba bd pr]; cbn in *; subst mx pr.
  destruct (u16 m <? u16 n) eqn:E2; bool_hyps; cbn; clear He Hu;
    repeat split; int_lia.
Qed.

Lemma last_cons_indep {A} (l : list A) a d d' : List.last (a :: l) d = List.last (a :: l) d'.
Proof. revert a; induction l as [|b l IH]; intros a; [done|]. cbn in *; apply IH. Qed.

Lemma last_shift {A} (l : list A) a d : List.last (a :: l) d = List.last l a.
Proof. destruct l; [done|]. cbn [List.last]. apply last_cons_indep. Qed.

(** The differences the receiver reports for a run starting at [n]. *)
Fixpoint gaps (n : Z) (ns : list Z) : list Z :=
  match ns with [] => [] | m :: ns => (m - n) :: gaps m ns end.

(** C30. For a validated source (its probation is over), receiving the low 16
    bits of any run of true sequence numbers that advance by less than
    [MAX_DROPOUT] per packet, however often they wrap, leaves the extended highest sequence number equal to the last true number
    modulo 2^32, reports each true gap in [diff] and raises no flag. *)
Theorem run_seq_extends s n ns :
  tracks s n -> ahead n ns ->
  ext_seq (run_seq s ns).1 = u32 (List.last ns n) /\
  (run_seq s ns).2 = map (fun d => st0 <| diff := d |>) (gaps n ns).
Proof.
  intros Ht Ha; assert (tracks (run_seq s ns).1 (List.last ns n) /\
    (run_seq s ns).2 = map (fun d => st0 <| diff := d |>) (gaps n ns)) as [H1 H2];
    [|split; [apply H1|exact H2]].
  revert s n Ht Ha; induction ns as [|m ns IH]; intros s n Ht Ha; [done|].
  destruct Ha as [Hr Ha]; pose proof (seq_update_tracks s n m Ht Hr) as Hu.
  cbn [run_seq gaps map]; destruct (pjmedia_rtp_seq_update s (u16 m)) as [s1 st].
  destruct Hu as [Ht1 ->]; specialize (IH s1 m Ht1 Ha).
  rewrite last_shift; destruct (run_seq s1 ns); cbn in *.
  destruct IH as [? ->]; done.
Qed.

(** A run across two wraps of the 16-bit counter. *)
Lemma run_seq_extends_witness :
  ext_seq (run_seq (mk_seq 65530 0 65530 65537 0) [65535; 65540; 68000; 70900]).1 = 70900 /\
  (run_seq (mk_seq 65530 0 65530 65537 0) [65535; 65540; 68000; 70900]).2
  = map (fun d => st0 <| diff := d |>) [5; 5; 2460; 2900].
Proof.
  apply (run_seq_extends (mk_seq 65530 0 65530 65537 0) 65530 [65535; 65540; 68000; 70900]);
    unfold tracks, is_u32, MAX_DROPOUT; cbn; repeat split; unfold MAX_DROPOUT; lia.
Defined.

(** ** Validation, restart and stray packets *)

(** The status the program documents for a packet of a validated source, by
    its distance [d] (modulo 2^16) ahead of the highest sequence number. *)
Inductive seq_class := CDup | CNext | CJump | COld.

Definition classify (d : Z) : seq_class :=
  if d =? 0 then CDup
  else if d <? MAX_DROPOUT then CNext
  else if d <=? RTP_SEQ_MOD - MAX_MISORDER then CJump
  else COld.

(** For a validated source, a duplicate, a late packet (up to 99 behind)
    and a first packet after a large jump never move the highest sequence
    number or the cycle count, only the last is flagged [bad]; and the packet
    that directly follows a jump resynchronises the session on itself. *)
Theorem seq_update_classes s seq :
  seq_wf s -> probation s = 0 -> is_u16 seq ->
  let '(s', st) := pjmedia_rtp_seq_update s seq in
  match classify (u16 (seq - max_seq s)) with
  | CDup => s' = s /\ st = st0 <| dup := true |>
  | CNext => max_seq s' = seq /\ bad st = false /\ diff st = u16 (seq - max_seq s)
  | COld => s' = s /\ st = st0 <| outorder := true |>
  | CJump =>
      if seq =? bad_seq s
      then max_seq s' = seq /\ base_seq s' = seq /\ cycles s' = 0 /\
           bad_seq s' = RTP_SEQ_MOD + 1 /\ restart st = true /\ bad st = false
      else ext_seq s' = ext_seq s /\ base_seq s' = base_seq s /\ bad st = true /\
           bad_seq s' = u16 (seq + 1)
  end.
Proof.
  intros Hw Hp Hs; unfold pjmedia_rtp_seq_update, classify; rewrite Hp; cbn [Z.eqb negb].
  destruct (u16 (seq - max_seq s) =? 0); [done|].
  destruct (u16 (seq - max_seq s) <? MAX_DROPOUT); [destruct (seq <? max_seq s); done|].
  destruct (u16 (seq - max_seq s) <=? RTP_SEQ_MOD - MAX_MISORDER); [|done].
  destruct (seq =? bad_seq s); [done|].
  rewrite land_seq_mod; done.
Qed.

Lemma seq_update_classes_witness :
  seq_wf (mk_seq 1000 65536 10 65537 0) /\
  let '(s', st) := pjmedia_rtp_seq_update (mk_seq 1000 65536 10 65537 0) 9000 in
  ext_seq s' = 66536 /\ base_seq s' = 10 /\ bad st = true /\ bad_seq s' = 9001.
Proof.
  assert (W : seq_wf (mk_seq 1000 65536 10 65537 0))
    by (split; unfold is_u16, is_u32, RTP_SEQ_MOD, MIN_SEQUENTIAL; cbn; lia).
  split; [exact W|].
  apply (seq_update_classes (mk_seq 1000 65536 10 65537 0) 9000 W eq_refl).
  unfold is_u16; lia.
Defined.

(** A fresh session is on probation: [MIN_SEQUENTIAL] packets with consecutive
    numbers validate it, unless the first number is 0. *)
Definition validates (seq : Z) : Prop :=
  let s0 := pjmedia_rtp_seq_init (mk_seq 0 0 0 0 0) seq in
  let '(s1, st1) := pjmedia_rtp_seq_update s0 seq in
  let '(s2, st2) := pjmedia_rtp_seq_update s1 (u16 (seq + 1)) in
  bad st1 = false /\ bad st2 = false /\ probation s2 = 0.

(** Two consecutive packets validate a new source exactly when neither
    the first number is 0 nor the second one wraps to 0: in the remaining two
    cases the successor test, made on promoted integers, fails at the wrap. *)
Theorem validates_iff seq : is_u16 seq -> validates seq <-> seq <> 0 /\ seq <> 65535.
Proof.
  intros Hs; unfold validates, pjmedia_rtp_seq_init, pjmedia_rtp_seq_restart,
    pjmedia_rtp_seq_update, MIN_SEQUENTIAL; cbn.
  destruct (seq =? u16 (seq - 1) + 1) eqn:E1; bool_hyps; cbn.
  - destruct (u16 (seq + 1) =? seq + 1) eqn:E2; bool_hyps; cbn.
    + split; [intros _|done]. int_lia.
    + destruct (u16 (seq + 1) =? seq); cbn; split; try (intros (_ & ? & _); done);
        intros [? ?]; exfalso; apply E2; int_lia.
  - split; [|intros [? ?]; exfalso; apply E1; int_lia].
    repeat case_if; cbn; intros (? & ? & ?); done.
Qed.

Lemma validates_witness : validates 7 /\ ~ validates 0.
Proof.
  split; [apply (validates_iff 7); unfold is_u16; lia|].
  intros H; apply (validates_iff 0) in H; unfold is_u16; lia.
Defined.

(** When the payload type is accepted, the bad-SSRC flag is never
    reported: the status of the sequence check overwrites it, even for a
    packet whose SSRC differs from the peer's. *)
Theorem badssrc_lost ses hdr p check_pt :
  check_pt = false \/ h_pt hdr = out_pt ses ->
  exists st, (pjmedia_rtp_session_update2 ses hdr (Some p) check_pt).2 = Some st /\
    badssrc st = false.
Proof.
  intros Hpt; unfold pjmedia_rtp_session_update2.
  set (ses1 := if peer_ssrc ses =? 0 then _ else ses).
  set (r := if negb _ then _ else _).
  assert (Hp1 : out_pt r.1 = out_pt ses)
    by (unfold r, ses1; repeat case_if; cbn [fst]; upd; done).
  assert (Hb : forall s q, badssrc (pjmedia_rtp_seq_update s q).2 = false)
    by (intros; unfold pjmedia_rtp_seq_update; repeat case_if; done).
  destruct r as [ses2 seq_st]; cbn [fst] in Hp1; rewrite Hp1.
  replace (check_pt && negb (h_pt hdr =? out_pt ses))%bool with false
    by (destruct Hpt as [->| ->]; [done|]; rewrite Z.eqb_refl; by destruct check_pt).
  match goal with |- context [pjmedia_rtp_seq_update ?s ?q] =>
    specialize (Hb s q); destruct (pjmedia_rtp_seq_update s q) as [sc st] end.
  exists st; done.
Qed.

Lemma badssrc_lost_witness :
  let ses := (pjmedia_rtp_session_init 5 9 8 77).2 <| peer_ssrc := 1 |> in
  exists st, (pjmedia_rtp_session_update2 ses (mk_hdr 2 0 0 0 0 8 256 0 0) (Some st0) true).2
    = Some st /\ badssrc st = false.
Proof. apply badssrc_lost; right; reflexivity. Defined.

(** ** Decoding stays inside the packet *)

Definition pkt_ext (pkt : list Z) : Prop :=
  exists b0, pkt !! 0%nat = Some b0 /\ b0 / 64 = RTP_VERSION /\ b0 / 16 mod 2 <> 0 /\
    Z.of_nat (length pkt) < 16 + (b0 mod 16) * 4.

Lemma hdr_of_bytes_some pkt : (12 <= length pkt)%nat -> is_Some (hdr_of_bytes pkt).
Proof. intros H; do 12 (destruct pkt as [|? pkt]; [cbn in H; lia|]); by eexists. Qed.

Lemma lookup_lt_Z (l : list Z) i :
  0 <= i < Z.of_nat (length l) -> exists x, l !! Z.to_nat i = Some x.
Proof. intros H; apply lookup_lt_is_Some; lia. Qed.

Lemma lookup_ge_Z (l : list Z) i :
  Z.of_nat (length l) <= i -> l !! Z.to_nat i = None.
Proof. intros H; apply lookup_ge_None; lia. Qed.

Lemma ntohs_bytes_pos l0 l1 : is_u8 l0 -> is_u8 l1 -> 0 <= pj_ntohs (l0 + l1 * 256).
Proof. unfold pj_ntohs, pj_htons; int_lia. Qed.

(** Once the offset is known the decoder stays inside the packet. *)
Lemma decode_payload_safe pkt padded off :
  Forall is_u8 pkt -> 12 <= off ->
  decode_payload pkt padded off = DecErr PJMEDIA_RTP_EINLEN \/
  exists h len, decode_payload pkt padded off = DecOk h off len /\
    0 <= len /\ off + len <= Z.of_nat (length pkt).
Proof.
  intros Hb Ho; unfold decode_payload; case_if; bool_hyps; [by left|right].
  destruct (hdr_of_bytes_some pkt) as [h ->]; [lia|].
  case_if; bool_hyps; [|do 2 eexists; split; [done|lia]].
  destruct (lookup_lt_Z pkt (off + (Z.of_nat (length pkt) - off) - 1)) as [x Hx]; [lia|].
  pose proof (Forall_lookup_1 _ _ _ _ Hb Hx) as Hx8; unfold is_u8 in Hx8.
  rewrite Hx; do 2 eexists; split; [done|]; case_if; bool_hyps; lia.
Qed.

(** The decoder reads outside the packet exactly for an empty packet and
    for a version-2 packet that announces a header extension but ends before
    its four bytes: the extension length is read before any length test. *)
Theorem decode_oob_iff pkt :
  Forall is_u8 pkt ->
  pjmedia_rtp_decode_rtp pkt = DecOob <-> pkt = [] \/ pkt_ext pkt.
Proof.
  intros Hb; unfold pjmedia_rtp_decode_rtp, pkt_ext.
  destruct pkt as [|b0 rest] eqn:Epkt; [by split; auto|].
  change ((b0 :: rest) !! 0%nat) with (Some b0); rewrite <- Epkt in *.
  assert (Hcc : 0 <= b0 mod 16) by (apply Z.mod_pos_bound; lia).
  assert (Hgo : forall p off, 12 <= off -> decode_payload pkt p off <> DecOob)
    by (intros p off Ho H; destruct (decode_payload_safe pkt p off Hb Ho)
          as [E|(? & ? & E & _)]; congruence).
  destruct (b0 / 64 =? RTP_VERSION) eqn:Ev; bool_hyps; cbn [negb];
    [|split; [done|intros [?|(b & [= <-] & ? & _)]; [by subst|done]]].
  destruct (b0 / 16 mod 2 =? 0) eqn:Ex; bool_hyps.
  - split; [intros H; by apply Hgo in H; [|lia]|].
    intros [?|(b & [= <-] & _ & ? & _)]; [by subst|lia].
  - destruct (decide (Z.of_nat (length pkt) < 16 + b0 mod 16 * 4)) as [Hs|Hs].
    + rewrite (lookup_ge_Z _ (12 + b0 mod 16 * 4 + 3)) by lia.
      split; [intros _; right; by exists b0|]; intros _; by destruct (pkt !! _).
    + destruct (lookup_lt_Z pkt (12 + b0 mod 16 * 4 + 2)) as [l0 E0]; [lia|].
      destruct (lookup_lt_Z pkt (12 + b0 mod 16 * 4 + 3)) as [l1 E1]; [lia|].
      pose proof (ntohs_bytes_pos l0 l1 (Forall_lookup_1 _ _ _ _ Hb E0)
                    (Forall_lookup_1 _ _ _ _ Hb E1)).
      rewrite E0, E1; split; [intros H'; apply Hgo in H'; [done|lia]|].
      intros [?|(b & [= <-] & _ & _ & ?)]; [by subst|lia].
Qed.

Lemma decode_oob_witness :
  pjmedia_rtp_decode_rtp [144; 0; 0; 1; 0; 0; 0; 0; 0; 0; 0; 0] = DecOob /\
  pjmedia_rtp_decode_rtp [128; 0; 0; 1; 0; 0; 0; 0; 0; 0; 0; 0] <> DecOob.
Proof.
  split.
  - apply decode_oob_iff; [repeat constructor; unfold is_u8; lia|].
    right; exists 144; repeat split; done.
  - intros H; apply decode_oob_iff in H; [|repeat constructor; unfold is_u8; lia].
    destruct H as [?|(b & [= <-] & _ & H & _)]; [done|by apply H].
Defined.

(** ** Sending and receiving *)

(** The state of a sender between packets. *)
Record ses_wf (ses : rtp_session) : Prop := {
  sw_v : h_v (out_hdr ses) = RTP_VERSION;
  sw_p : h_p (out_hdr ses) = 0; sw_x : h_x (out_hdr ses) = 0;
  sw_cc : h_cc (out_hdr ses) = 0;
  sw_ts : is_u32 (h_ts (out_hdr ses)); sw_ssrc : is_u32 (h_ssrc (out_hdr ses));
  sw_ext : is_u32 (out_extseq ses) }.

(** Header values a 12-byte RTP header can carry. *)
Record hdr_wf (h : rtp_hdr) : Prop := {
  hw_v : 0 <= h_v h < 4; hw_p : 0 <= h_p h < 2; hw_x : 0 <= h_x h < 2;
  hw_cc : 0 <= h_cc h < 16; hw_m : 0 <= h_m h < 2; hw_pt : 0 <= h_pt h < 128;
  hw_seq : is_u16 (h_seq h); hw_ts : is_u32 (h_ts h); hw_ssrc : is_u32 (h_ssrc h) }.

Lemma word_bytes x : is_u32 x ->
  x mod 256 + x / 256 mod 256 * 256 + x / 65536 mod 256 * 65536
  + x / 16777216 * 16777216 = x.
Proof. int_lia. Qed.

(** The packed header is read back as it was written. *)
Lemma hdr_of_bytes_hdr_bytes h rest :
  hdr_wf h -> hdr_of_bytes (hdr_bytes h ++ rest) = Some h.
Proof.
  intros []; destruct h as [v p x cc m pt sq ts sr]; cbn in *.
  rewrite !word_bytes by done; repeat f_equal; int_lia.
Qed.

Lemma hdr_bytes_first h : hdr_wf h ->
  (h_v h * 64 + h_p h * 32 + h_x h * 16 + h_cc h) / 64 = h_v h /\
  (h_v h * 64 + h_p h * 32 + h_x h * 16 + h_cc h) / 32 mod 2 = h_p h /\
  (h_v h * 64 + h_p h * 32 + h_x h * 16 + h_cc h) / 16 mod 2 = h_x h /\
  (h_v h * 64 + h_p h * 32 + h_x h * 16 + h_cc h) mod 16 = h_cc h.
Proof. intros []; repeat split; int_lia. Qed.

Lemma encode_hdr_wf ses pt m payload_len ts_len :
  ses_wf ses -> payload_len <> 0 ->
  exists ses' h,
    pjmedia_rtp_encode_rtp ses pt m payload_len ts_len = (ses', PJ_SUCCESS, Some (h, 12)) /\
    ses_wf ses' /\ hdr_wf h /\ h_v h = RTP_VERSION /\ h_p h = 0 /\ h_x h = 0 /\ h_cc h = 0 /\
    out_extseq ses' = u32 (out_extseq ses + 1) /\
    h_seq h = pj_htons (u16 (out_extseq ses')) /\
    h_ts h = pj_htonl (u32 (pj_ntohl (h_ts (out_hdr ses)) + ts_len)) /\
    h_pt h = (if pt =? -1 then out_pt ses else pt) mod 128 /\ h_m h = m mod 2.
Proof.
  intros [Hv Hp Hx Hcc Hts Hss Hext] Hl; unfold pjmedia_rtp_encode_rtp.
  destruct (payload_len =? 0) eqn:E; bool_hyps; [done|].
  do 2 eexists; split; [reflexivity|].
  pose proof (pj_htonl_range _ (u32_range (pj_ntohl (h_ts (out_hdr ses)) + ts_len))).
  pose proof (pj_htons_range _ (u16_range (u32 (out_extseq ses + 1)))).
  repeat split; upd; rewrite ?Hv, ?Hp, ?Hx, ?Hcc; unfold RTP_VERSION; try lia;
    try apply u32_range; try apply H; try apply H0; try apply Hss; try done;
    apply Z.mod_pos_bound; lia.
Qed.

(** A non-empty payload framed by the encoder is decoded to the same
    header and exactly the payload's bytes; the header carries the next
    sequence number modulo 2^16 and the timestamp advanced by the frame's
    duration modulo 2^32; and the sender's state stays well formed. *)
Theorem rtp_roundtrip ses pt m ts_len payload :
  ses_wf ses -> payload <> [] ->
  exists ses' h,
    pjmedia_rtp_encode_rtp ses pt m (Z.of_nat (length payload)) ts_len
      = (ses', PJ_SUCCESS, Some (h, 12)) /\
    ses_wf ses' /\
    pjmedia_rtp_decode_rtp (hdr_bytes h ++ payload)
      = DecOk h 12 (Z.of_nat (length payload)) /\
    pj_ntohs (h_seq h) = u16 (out_extseq ses + 1) /\
    pj_ntohl (h_ts h) = u32 (pj_ntohl (h_ts (out_hdr ses)) + ts_len) /\
    h_pt h = (if pt =? -1 then out_pt ses else pt) mod 128.
Proof.
  intros Hw Hp.
  destruct (encode_hdr_wf ses pt m (Z.of_nat (length payload)) ts_len Hw)
    as (ses' & h & He & Hw' & Hh & Hv & Hpad & Hx & Hcc & Hext & Hseq & Hts & Hpt & _);
    [destruct payload; [done|cbn; lia]|].
  exists ses', h; split; [done|]; split; [done|].
  rewrite Hseq, Hts, pj_ntohs_htons, pj_ntohl_htonl by auto with pj.
  split; [|split; [rewrite Hext; int_lia|done]].
  unfold pjmedia_rtp_decode_rtp.
  change ((hdr_bytes h ++ payload) !! 0%nat)
    with (Some (h_v h * 64 + h_p h * 32 + h_x h * 16 + h_cc h)); cbv iota beta.
  destruct (hdr_bytes_first h Hh) as (-> & -> & -> & ->).
  rewrite Hv, Hx, Hcc, Hpad, Z.eqb_refl; cbn [negb Z.eqb].
  unfold decode_payload; rewrite hdr_of_bytes_hdr_bytes, length_app by done.
  case_if; bool_hyps; [cbn in *; lia|]; cbn [andb]; f_equal; cbn; lia.
Qed.

Lemma rtp_roundtrip_witness :
  let ses := (pjmedia_rtp_session_init 5 65535 8 77).2 in
  exists ses' h,
    pjmedia_rtp_encode_rtp ses (-1) 1 3 160 = (ses', PJ_SUCCESS, Some (h, 12)) /\
    ses_wf ses' /\
    pjmedia_rtp_decode_rtp (hdr_bytes h ++ [1; 2; 3]) = DecOk h 12 3 /\
    pj_ntohs (h_seq h) = 32768 /\ pj_ntohl (h_ts h) = 160 /\ h_pt h = 8.
Proof.
  apply (rtp_roundtrip (pjmedia_rtp_session_init 5 65535 8 77).2 (-1) 1 160 [1; 2; 3]);
    [|done].
  split; vm_compute; done.
Defined.
