(* ===== verification/Jbuf.v ===== *)
(** * The jitter buffer of pjmedia (pjmedia/src/pjmedia/jbuf.c)

    A ring of frame slots, kept as parallel arrays, that holds the frames with
    the sequence numbers [origin .. origin + size - 1]; on top of it the
    jitter buffer proper, which watches the bursts of PUT and GET operations to
    set its prefetch level and drops frames when its latency is too high.

    Arithmetic is at the width of the code: [u32] for [unsigned], [s32] for
    [int].  A slot of the content array is the list of its [frame_size] bytes.
    A pointer argument that may be NULL is not modelled: every output is
    returned, [None] where the code leaves the caller's variable as it is.
    Loops run on fuel; [None] as the result of an operation means that the loop
    was still running, and the theorems show that this does not happen. *)

From Stdlib Require Import ZArith Lia Bool.
From stdpp Require Import base list numbers option.
From S2P Require Import Prelude.
Local Open Scope Z_scope.

(** ** Statistics (pjlib/include/pj/math.h)

    The fixed-point variant, compiled when [PJ_HAS_FLOATING_POINT] is 0. *)

Record pj_math_stat := mk_stat {
  st_n : Z; st_max : Z; st_min : Z; st_last : Z; st_mean : Z; st_mean_res : Z; st_m2 : Z }.

Definition pj_math_stat_init : pj_math_stat := mk_stat 0 0 0 0 0 0 0.

(** The variant of [math.h] for builds without floating point ([PJ_HAS_FLOATING_POINT]
    is 0); no theorem depends on the values, which are statistics only. *)
Definition pj_math_stat_update (stat : pj_math_stat) (val : Z) : pj_math_stat :=
  let n := st_n stat + 1 in
  let min := if st_n stat =? 0 then val
             else if st_min stat >? val then val else st_min stat in
  let max := if st_n stat =? 0 then val
             else if st_max stat <? val then val else st_max stat in
  let delta := val - st_mean stat in
  let mean := st_mean stat + Z.quot delta n in
  let res := st_mean_res stat + Z.rem delta n in
  let '(mean, res) :=
    if res >=? n then (mean + 1, res - n)
    else if res <=? - n then (mean - 1, res + n)
    else (mean, res) in
  mk_stat n max min val mean res (st_m2 stat + delta * (val - mean)).

(** ** Constants (jbuf.c, jbuf.h, config.h) *)

Definition INVALID_OFFSET : Z := -9999.
Definition MAX_BURST_MSEC : Z := 1000.
Definition INIT_CYCLE : Z := 10.
Definition STA_DISC_SAFE_SHRINKING_DIFF : Z := 1.
Definition JB_STATUS_INITIALIZING : Z := 0.
Definition JB_STATUS_PROCESSING : Z := 1.
Definition PJMEDIA_JB_MISSING_FRAME : Z := 0.
Definition PJMEDIA_JB_NORMAL_FRAME : Z := 1.
Definition PJMEDIA_JB_ZERO_PREFETCH_FRAME : Z := 2.
Definition PJMEDIA_JB_ZERO_EMPTY_FRAME : Z := 3.
Definition PJMEDIA_JB_DISCARDED_FRAME : Z := 1024.
Definition PJMEDIA_JB_DEFAULT_INIT_DELAY : Z := 15.
Definition PJMEDIA_JBUF_DISC_MIN_GAP : Z := 200.
Definition PJMEDIA_JBUF_PRO_DISC_MIN_BURST : Z := 1.
Definition PJMEDIA_JBUF_PRO_DISC_MAX_BURST : Z := 100.
Definition PJMEDIA_JBUF_PRO_DISC_T1 : Z := 2000.
Definition PJMEDIA_JBUF_PRO_DISC_T2 : Z := 10000.
Definition MAX_MISORDER : Z := 100.
Definition MAX_DROPOUT : Z := 3000.
Definition STABLE_HISTORY_LIMIT : Z := 20.

Definition PJ_ETOOMANY : pj_status_t := 70010.
Definition PJ_ETOOSMALL : pj_status_t := 70019.

(** ** The frame list *)

Record jb_framelist_t := mk_fl {
  fl_frame_size : Z;
  fl_max_count : Z;
  fl_content : list (list Z);
  fl_frame_type : list Z;
  fl_content_len : list Z;
  fl_bit_info : list Z;
  fl_ts : list Z;
  fl_head : Z;
  fl_size : Z;
  fl_discarded_num : Z;
  fl_origin : Z }.

(** [a[p]] and [a[p] = v]. *)
Definition arr {A} `{Inhabited A} (a : list A) (p : Z) : A := a !!! Z.to_nat p.
Definition arr_set {A} (a : list A) (p : Z) (v : A) : list A := <[Z.to_nat p := v]> a.

(** [pj_memset] of [n] elements from position [p]. *)
Definition arr_fill {A} (a : list A) (p n : Z) (v : A) : list A :=
  take (Z.to_nat p) a ++ replicate (Z.to_nat n) v ++ drop (Z.to_nat p + Z.to_nat n) a.

(** [pj_memcpy] of the first [n] bytes of [src] to the start of [dst]. *)
Definition mem_copy (dst src : list Z) (n : Z) : list Z :=
  take (Z.to_nat n) src ++ drop (Z.to_nat n) dst.

Definition jb_framelist_reset (fl : jb_framelist_t) : jb_framelist_t :=
  mk_fl (fl_frame_size fl) (fl_max_count fl) (fl_content fl)
    (arr_fill (fl_frame_type fl) 0 (fl_max_count fl) PJMEDIA_JB_MISSING_FRAME)
    (arr_fill (fl_content_len fl) 0 (fl_max_count fl) 0)
    (fl_bit_info fl) (fl_ts fl) 0 0 0 INVALID_OFFSET.

(** The arrays come from [pj_pool_alloc], which leaves them uninitialised:
    what they hold at first is an argument. *)
Definition jb_framelist_init (content : list (list Z)) (types lens bits tss : list Z)
    (frame_size max_count : Z) : jb_framelist_t :=
  jb_framelist_reset (mk_fl frame_size max_count content types lens bits tss 0 0 0 0).

Definition jb_framelist_size (fl : jb_framelist_t) : Z := fl_size fl.
Definition jb_framelist_eff_size (fl : jb_framelist_t) : Z :=
  u32 (fl_size fl - fl_discarded_num fl).
Definition jb_framelist_origin (fl : jb_framelist_t) : Z := fl_origin fl.

(** The loop that takes the discarded slots among the [n] from [i] off
    [discarded_num]. *)
Fixpoint uncount_discarded (types : list Z) (i : Z) (n : nat) (num : Z) : Z :=
  match n with
  | O => num
  | S n' => uncount_discarded types (i + 1) n'
              (if arr types i =? PJMEDIA_JB_DISCARDED_FRAME then u32 (num - 1) else num)
  end.

Definition jb_framelist_remove_head (fl : jb_framelist_t) (count0 : Z)
    : Z * jb_framelist_t :=
  let count := if count0 >? fl_size fl then fl_size fl else count0 in
  if count =? 0 then (0, fl)
  else
    let tmp := u32 (fl_head fl + count) in
    let '(step1, step2) :=
      if tmp >? fl_max_count fl
      then (u32 (fl_max_count fl - fl_head fl),
            u32 (count - u32 (fl_max_count fl - fl_head fl)))
      else (count, 0) in
    let num1 := uncount_discarded (fl_frame_type fl) (fl_head fl) (Z.to_nat step1)
                  (fl_discarded_num fl) in
    let types1 := arr_fill (fl_frame_type fl) (fl_head fl) step1 PJMEDIA_JB_MISSING_FRAME in
    let lens1 := arr_fill (fl_content_len fl) (fl_head fl) step1 0 in
    let '(num2, types2, lens2) :=
      if negb (step2 =? 0)
      then (uncount_discarded types1 0 (Z.to_nat step2) num1,
            arr_fill types1 0 step2 PJMEDIA_JB_MISSING_FRAME,
            arr_fill lens1 0 step2 0)
      else (num1, types1, lens1) in
    (count,
     mk_fl (fl_frame_size fl) (fl_max_count fl) (fl_content fl) types2 lens2
       (fl_bit_info fl) (fl_ts fl)
       (u32 (fl_head fl + count) mod fl_max_count fl)
       (u32 (fl_size fl - count)) num2 (s32 (fl_origin fl + count))).

(** The outputs of a GET or a peek. *)
Record jb_out := mk_out {
  out_frame : option (list Z);
  out_size : option Z;
  out_type : Z;
  out_bit_info : option Z;
  out_ts : option Z;
  out_seq : option Z }.

(** Skip discarded frames. *)
Fixpoint skip_discarded (fuel : nat) (prev_discarded : bool) (fl : jb_framelist_t)
    : option (bool * jb_framelist_t) :=
  if arr (fl_frame_type fl) (fl_head fl) =? PJMEDIA_JB_DISCARDED_FRAME
  then match fuel with
       | O => None
       | S fuel' => skip_discarded fuel' true (snd (jb_framelist_remove_head fl 1))
       end
  else Some (prev_discarded, fl).

(** The result is the frame returned, [None] when there is none and the
    caller's buffer is zeroed. *)
Definition jb_framelist_get (fl0 : jb_framelist_t) : option (option jb_out * jb_framelist_t) :=
  if fl_size fl0 =? 0 then Some (None, fl0)
  else
    '(prev_discarded, fl) ← skip_discarded (Z.to_nat (fl_size fl0)) false fl0;
    if fl_size fl =? 0 then Some (None, fl)
    else
      let h := fl_head fl in
      let out :=
        if (prev_discarded : bool)
        then mk_out None (Some 0) PJMEDIA_JB_MISSING_FRAME (Some 0)
               (Some (arr (fl_ts fl) h)) (Some (fl_origin fl))
        else mk_out (Some (arr (fl_content fl) h)) (Some (arr (fl_content_len fl) h))
               (arr (fl_frame_type fl) h) (Some (arr (fl_bit_info fl) h))
               (Some (arr (fl_ts fl) h)) (Some (fl_origin fl)) in
      Some (Some out,
        mk_fl (fl_frame_size fl) (fl_max_count fl) (fl_content fl)
          (arr_set (fl_frame_type fl) h PJMEDIA_JB_MISSING_FRAME)
          (arr_set (fl_content_len fl) h 0)
          (arr_set (fl_bit_info fl) h 0) (arr_set (fl_ts fl) h 0)
          (u32 (h + 1) mod fl_max_count fl) (u32 (fl_size fl - 1))
          (fl_discarded_num fl) (s32 (fl_origin fl + 1))).

(** The position of the [idx]-th frame from [pos] that is not discarded. *)
Fixpoint peek_pos (fuel : nat) (fl : jb_framelist_t) (pos idx : Z) : option Z :=
  match fuel with
  | O => None
  | S fuel' =>
      if negb (arr (fl_frame_type fl) pos =? PJMEDIA_JB_DISCARDED_FRAME)
      then if idx =? 0 then Some pos
           else peek_pos fuel' fl (u32 (pos + 1) mod fl_max_count fl) (idx - 1)
      else peek_pos fuel' fl (u32 (pos + 1) mod fl_max_count fl) idx
  end.

(** In [fl_max_count * (offset + 1)] rounds the loop has gone round the ring
    once for each frame it looks for. *)
Definition jb_framelist_peek (fl : jb_framelist_t) (offset : Z) : option (option jb_out) :=
  if offset >=? jb_framelist_eff_size fl then Some None
  else
    pos ← peek_pos (Z.to_nat (fl_max_count fl * (offset + 1))) fl (fl_head fl) offset;
    Some (Some (mk_out (Some (arr (fl_content fl) pos)) (Some (arr (fl_content_len fl) pos))
                  (arr (fl_frame_type fl) pos) (Some (arr (fl_bit_info fl) pos))
                  (Some (arr (fl_ts fl) pos)) (Some (s32 (fl_origin fl + offset))))).

Definition with_origin (o : Z) (fl : jb_framelist_t) : jb_framelist_t :=
  mk_fl (fl_frame_size fl) (fl_max_count fl) (fl_content fl) (fl_frame_type fl)
    (fl_content_len fl) (fl_bit_info fl) (fl_ts fl) (fl_head fl) (fl_size fl)
    (fl_discarded_num fl) o.

(** The second half of [jb_framelist_put_at]: store at a known distance. *)
Definition put_slot (fl : jb_framelist_t) (index distance : Z) (frame : list Z)
    (frame_size bit_info ts frame_type : Z) : pj_status_t * jb_framelist_t :=
  let pos := u32 (fl_head fl + distance) mod fl_max_count fl in
  if negb (arr (fl_frame_type fl) pos =? PJMEDIA_JB_MISSING_FRAME) then (PJ_EEXISTS, fl)
  else
    (PJ_SUCCESS,
     mk_fl (fl_frame_size fl) (fl_max_count fl)
       (if frame_type =? PJMEDIA_JB_NORMAL_FRAME
        then arr_set (fl_content fl) pos (mem_copy (arr (fl_content fl) pos) frame frame_size)
        else fl_content fl)
       (arr_set (fl_frame_type fl) pos frame_type)
       (arr_set (fl_content_len fl) pos frame_size)
       (arr_set (fl_bit_info fl) pos bit_info)
       (arr_set (fl_ts fl) pos ts)
       (fl_head fl)
       (if s32 (fl_origin fl + s32 (fl_size fl)) <=? index
        then u32 (distance + 1) else fl_size fl)
       (fl_discarded_num fl) (fl_origin fl)).

Definition jb_framelist_put_at (fl0 : jb_framelist_t) (index : Z) (frame : list Z)
    (frame_size bit_info ts frame_type : Z) : pj_status_t * jb_framelist_t :=
  if frame_size >? fl_frame_size fl0 then (PJ_EINVAL, fl0)
  else if (index <? fl_origin fl0) && (s32 (fl_origin fl0 - index) <? MAX_MISORDER)
  then (PJ_ETOOSMALL, fl0)
  else
    let fl1 := if index <? fl_origin fl0
               then with_origin (s32 (index - fl_size fl0)) fl0 else fl0 in
    let fl2 := if fl_size fl1 =? 0 then with_origin index fl1 else fl1 in
    let distance := s32 (index - fl_origin fl2) in
    if distance >=? s32 (fl_max_count fl2)
    then if distance >? MAX_DROPOUT
         then put_slot (with_origin index (jb_framelist_reset fl2)) index 0
                frame frame_size bit_info ts frame_type
         else (PJ_ETOOMANY, fl2)
    else put_slot fl2 index distance frame frame_size bit_info ts frame_type.

Definition jb_framelist_discard (fl : jb_framelist_t) (index : Z)
    : pj_status_t * jb_framelist_t :=
  if negb ((index >=? fl_origin fl) && (index <? s32 (fl_origin fl + s32 (fl_size fl))))
  then (PJ_EINVAL, fl)
  else
    let pos := u32 (fl_head fl + s32 (index - fl_origin fl)) mod fl_max_count fl in
    (PJ_SUCCESS,
     mk_fl (fl_frame_size fl) (fl_max_count fl) (fl_content fl)
       (arr_set (fl_frame_type fl) pos PJMEDIA_JB_DISCARDED_FRAME)
       (fl_content_len fl) (fl_bit_info fl) (fl_ts fl) (fl_head fl) (fl_size fl)
       (u32 (fl_discarded_num fl + 1)) (fl_origin fl)).

(** ** The jitter buffer *)

Inductive pjmedia_jb_op := JB_OP_INIT | JB_OP_PUT | JB_OP_GET.
#[export] Instance pjmedia_jb_op_eq_dec : EqDecision pjmedia_jb_op.
Proof. solve_decision. Defined.

(** [jb_discard_algo], a pointer to one of two functions or NULL. *)
Inductive pjmedia_jb_discard_algo :=
| PJMEDIA_JB_DISCARD_NONE | PJMEDIA_JB_DISCARD_STATIC | PJMEDIA_JB_DISCARD_PROGRESSIVE.

(** [struct pjmedia_jbuf] less its name. *)
Record pjmedia_jbuf := mk_jb {
  jb_frame_size : Z; jb_frame_ptime : Z; jb_max_count : Z;
  jb_init_prefetch : Z; jb_min_prefetch : Z; jb_max_prefetch : Z;
  jb_max_burst : Z; jb_min_shrink_gap : Z;
  jb_discard_algo : pjmedia_jb_discard_algo;
  jb_framelist : jb_framelist_t;
  jb_level : Z; jb_max_hist_level : Z; jb_stable_hist : Z;
  jb_last_op : pjmedia_jb_op; jb_eff_level : Z;
  jb_prefetch : Z; jb_prefetching : bool; jb_status : Z; jb_init_cycle_cnt : Z;
  jb_discard_ref : Z; jb_discard_dist : Z;
  jb_delay : pj_math_stat; jb_burst : pj_math_stat;
  jb_lost : Z; jb_discard : Z; jb_empty : Z }.

Definition pjmedia_jbuf_set_discard (jb : pjmedia_jbuf) (algo : pjmedia_jb_discard_algo)
    : pjmedia_jbuf := jb <| jb_discard_algo := algo |>.

Definition pjmedia_jbuf_reset (jb : pjmedia_jbuf) : pjmedia_jbuf :=
  jb <| jb_level := 0 |>
     <| jb_last_op := JB_OP_INIT |>
     <| jb_stable_hist := 0 |>
     <| jb_status := JB_STATUS_INITIALIZING |>
     <| jb_init_cycle_cnt := 0 |>
     <| jb_max_hist_level := 0 |>
     <| jb_prefetching := negb (jb_prefetch jb =? 0) |>
     <| jb_discard_dist := 0 |>
     <| jb_framelist := jb_framelist_reset (jb_framelist jb) |>.

(** The structure is zeroed on allocation; [jb_init_prefetch], [jb_eff_level]
    and [jb_discard_ref] are not set by the function and stay zero. *)
Definition pjmedia_jbuf_create (content : list (list Z)) (types lens bits tss : list Z)
    (frame_size ptime max_count : Z) : pjmedia_jbuf :=
  let fl := jb_framelist_init content types lens bits tss frame_size max_count in
  let four_fifths := u32 (max_count * 4) / 5 in
  let jb := {|
    jb_frame_size := frame_size; jb_frame_ptime := ptime; jb_max_count := max_count;
    jb_init_prefetch := 0; jb_min_prefetch := 0; jb_max_prefetch := four_fifths;
    jb_max_burst := Z.max (MAX_BURST_MSEC / ptime) (u32 (max_count * 3) / 4);
    jb_min_shrink_gap := PJMEDIA_JBUF_DISC_MIN_GAP / ptime;
    jb_discard_algo := PJMEDIA_JB_DISCARD_NONE;
    jb_framelist := fl;
    jb_level := 0; jb_max_hist_level := 0; jb_stable_hist := 0;
    jb_last_op := JB_OP_INIT; jb_eff_level := 0;
    jb_prefetch := Z.min PJMEDIA_JB_DEFAULT_INIT_DELAY four_fifths;
    jb_prefetching := false; jb_status := JB_STATUS_INITIALIZING; jb_init_cycle_cnt := 0;
    jb_discard_ref := 0; jb_discard_dist := 0;
    jb_delay := pj_math_stat_init; jb_burst := pj_math_stat_init;
    jb_lost := 0; jb_discard := 0; jb_empty := 0 |} in
  pjmedia_jbuf_reset (pjmedia_jbuf_set_discard jb PJMEDIA_JB_DISCARD_PROGRESSIVE).

Definition pjmedia_jbuf_set_fixed (jb : pjmedia_jbuf) (prefetch : Z)
    : pj_status_t * pjmedia_jbuf :=
  if prefetch >? jb_max_count jb then (PJ_EINVAL, jb)
  else (PJ_SUCCESS,
        pjmedia_jbuf_set_discard
          (jb <| jb_init_prefetch := prefetch |> <| jb_prefetch := prefetch |>
              <| jb_max_prefetch := prefetch |> <| jb_min_prefetch := prefetch |>)
          PJMEDIA_JB_DISCARD_NONE).

Definition pjmedia_jbuf_set_adaptive (jb : pjmedia_jbuf)
    (prefetch min_prefetch max_prefetch : Z) : pj_status_t * pjmedia_jbuf :=
  if negb ((min_prefetch <=? max_prefetch) && (prefetch <=? max_prefetch)
           && (max_prefetch <=? jb_max_count jb))
  then (PJ_EINVAL, jb)
  else (PJ_SUCCESS,
        jb <| jb_init_prefetch := prefetch |> <| jb_prefetch := prefetch |>
           <| jb_min_prefetch := min_prefetch |> <| jb_max_prefetch := max_prefetch |>).

Definition pjmedia_jbuf_is_full (jb : pjmedia_jbuf) : bool :=
  fl_size (jb_framelist jb) =? fl_max_count (jb_framelist jb).

(** The two ways [jbuf_calculate_jitter] clamps the prefetch level. *)
Definition prefetch_decreasing (jb : pjmedia_jbuf) (level : Z) : Z :=
  let p := if level <? jb_min_prefetch jb then jb_min_prefetch jb else level in
  if p >? jb_max_prefetch jb then jb_max_prefetch jb else p.
Definition prefetch_increasing (jb : pjmedia_jbuf) (level : Z) : Z :=
  let p := if level >? jb_max_prefetch jb then jb_max_prefetch jb else level in
  if p <? jb_min_prefetch jb then jb_min_prefetch jb else p.

Definition jbuf_calculate_jitter (jb0 : pjmedia_jbuf) : pjmedia_jbuf :=
  let jb := jb0 <| jb_burst := pj_math_stat_update (jb_burst jb0) (jb_level jb0) |>
                <| jb_max_hist_level := Z.max (jb_max_hist_level jb0) (jb_level jb0) |> in
  if jb_level jb <? jb_eff_level jb then
    (* burst level is decreasing *)
    let stable := jb_stable_hist jb + 1 in
    if stable >? STABLE_HISTORY_LIMIT then
      let diff0 := Z.quot (jb_eff_level jb - jb_max_hist_level jb) 3 in
      let diff := if diff0 <? 1 then 1 else diff0 in
      let level := jb_eff_level jb - diff in
      jb <| jb_eff_level := level |>
         <| jb_prefetch := if jb_init_prefetch jb =? 0 then jb_prefetch jb
                           else prefetch_decreasing jb level |>
         <| jb_max_hist_level := 0 |>
         <| jb_stable_hist := 0 |>
    else jb <| jb_stable_hist := stable |>
  else if jb_level jb >? jb_eff_level jb then
    (* burst level is increasing *)
    let level := Z.min (jb_max_hist_level jb) (s32 (jb_max_count jb * 4 / 5)) in
    jb <| jb_eff_level := level |>
       <| jb_prefetch := if jb_init_prefetch jb =? 0 then jb_prefetch jb
                         else prefetch_increasing jb level |>
       <| jb_stable_hist := 0 |>
  else jb <| jb_stable_hist := 0 |>.

Definition jbuf_discard_static (jb : pjmedia_jbuf) : pjmedia_jbuf :=
  let burst_level := Z.max (jb_eff_level jb) (jb_level jb) in
  let diff := s32 (jb_framelist_eff_size (jb_framelist jb) - burst_level * 2) in
  if diff >=? STA_DISC_SAFE_SHRINKING_DIFF then
    let seq_origin := jb_framelist_origin (jb_framelist jb) in
    let ref := if seq_origin <? jb_discard_ref jb then seq_origin else jb_discard_ref jb in
    if seq_origin - ref >=? jb_min_shrink_gap jb then
      let '(removed, fl) := jb_framelist_remove_head (jb_framelist jb) 1 in
      jb <| jb_framelist := fl |>
         <| jb_discard_ref := jb_framelist_origin fl |>
         <| jb_discard := u32 (jb_discard jb + removed) |>
    else jb <| jb_discard_ref := ref |>
  else jb.

(** The time, in milliseconds, in which one excess frame is discarded. *)
Definition discard_duration (burst_level : Z) : Z :=
  if burst_level <=? PJMEDIA_JBUF_PRO_DISC_MIN_BURST then PJMEDIA_JBUF_PRO_DISC_T1
  else if burst_level >=? PJMEDIA_JBUF_PRO_DISC_MAX_BURST then PJMEDIA_JBUF_PRO_DISC_T2
  else PJMEDIA_JBUF_PRO_DISC_T1
       + u32 ((PJMEDIA_JBUF_PRO_DISC_T2 - PJMEDIA_JBUF_PRO_DISC_T1)
              * (burst_level - PJMEDIA_JBUF_PRO_DISC_MIN_BURST))
         / (PJMEDIA_JBUF_PRO_DISC_MAX_BURST - PJMEDIA_JBUF_PRO_DISC_MIN_BURST).

Definition jbuf_discard_progressive (jb : pjmedia_jbuf) : pjmedia_jbuf :=
  if negb (bool_decide (jb_last_op jb = JB_OP_PUT)) then jb
  else
    let cur_size := jb_framelist_eff_size (jb_framelist jb) in
    let burst_level := u32 (Z.max (jb_eff_level jb) (jb_level jb)) in
    if cur_size <=? burst_level then jb <| jb_discard_dist := 0 |>
    else
      let T := discard_duration burst_level in
      let overflow := cur_size - burst_level in
      let discard_dist := T / overflow / jb_frame_ptime jb in
      let last_seq := s32 (jb_framelist_origin (jb_framelist jb)
                           + jb_framelist_size (jb_framelist jb) - 1) in
      let ref := if jb_discard_dist jb =? 0 then last_seq
                 else if last_seq <? jb_discard_ref jb then last_seq
                 else jb_discard_ref jb in
      let dist := Z.max (jb_min_shrink_gap jb) (s32 discard_dist) in
      let jb1 := jb <| jb_discard_ref := ref |> <| jb_discard_dist := dist |> in
      if last_seq >=? ref + dist then
        let origin := jb_framelist_origin (jb_framelist jb) in
        let discard_seq0 := s32 (ref + dist) in
        let discard_seq := if discard_seq0 <? origin then origin else discard_seq0 in
        jb1 <| jb_framelist := snd (jb_framelist_discard (jb_framelist jb) discard_seq) |>
            <| jb_discard_ref := discard_seq |>
      else jb1.

(** [if (jb_status == JB_STATUS_PROCESSING && jb_discard_algo) ...] *)
Definition run_discard_algo (jb : pjmedia_jbuf) : pjmedia_jbuf :=
  if jb_status jb =? JB_STATUS_PROCESSING then
    match jb_discard_algo jb with
    | PJMEDIA_JB_DISCARD_NONE => jb
    | PJMEDIA_JB_DISCARD_STATIC => jbuf_discard_static jb
    | PJMEDIA_JB_DISCARD_PROGRESSIVE => jbuf_discard_progressive jb
    end
  else jb.

(** Perform the jitter calculation after a switch to GET, then reset the
    burst level. *)
Definition measure_burst (oper : pjmedia_jb_op) (jb : pjmedia_jbuf) : pjmedia_jbuf :=
  (if bool_decide (oper = JB_OP_GET) && (jb_level jb <=? jb_max_burst jb)
   then jbuf_calculate_jitter jb else jb) <| jb_level := 0 |>.

Definition jbuf_update (jb0 : pjmedia_jbuf) (oper : pjmedia_jb_op) : pjmedia_jbuf :=
  if bool_decide (jb_last_op jb0 = oper) then run_discard_algo jb0
  else
    let jb := jb0 <| jb_last_op := oper |> in
    if jb_status jb =? JB_STATUS_INITIALIZING then
      let cnt := jb_init_cycle_cnt jb + 1 in
      if (cnt >=? INIT_CYCLE) && bool_decide (oper = JB_OP_GET)
      then run_discard_algo (measure_burst oper
             (jb <| jb_init_cycle_cnt := cnt |>
                 <| jb_status := JB_STATUS_PROCESSING |>
                 <| jb_level := Z.min (jb_level jb) (jb_max_burst jb) |>))
      else jb <| jb_init_cycle_cnt := cnt |> <| jb_level := 0 |>
    else run_discard_algo (measure_burst oper jb).

(** Remove older frames while the frame list is full.  One round is enough. *)
Fixpoint make_room (fuel : nat) (max_count : Z) (status : pj_status_t)
    (fl : jb_framelist_t) (discard : Z) (frame : list Z) (size bit_info seq ts : Z)
    : option (pj_status_t * jb_framelist_t * Z) :=
  if status =? PJ_ETOOMANY then
    match fuel with
    | O => None
    | S fuel' =>
        let distance := s32 (seq - jb_framelist_origin fl) - s32 max_count + 1 in
        let '(removed, fl1) := jb_framelist_remove_head fl (u32 distance) in
        let '(status', fl2) :=
          jb_framelist_put_at fl1 seq frame size bit_info ts PJMEDIA_JB_NORMAL_FRAME in
        make_room fuel' max_count status' fl2 (u32 (discard + removed))
          frame size bit_info seq ts
    end
  else Some (status, fl, discard).

Definition pjmedia_jbuf_put_frame3 (jb : pjmedia_jbuf) (frame : list Z)
    (frame_size bit_info frame_seq ts : Z) : option (bool * pjmedia_jbuf) :=
  let cur_size := s32 (jb_framelist_eff_size (jb_framelist jb)) in
  let min_frame_size := u32 (Z.min frame_size (jb_frame_size jb)) in
  let '(status0, fl0) := jb_framelist_put_at (jb_framelist jb) frame_seq frame
                           min_frame_size bit_info ts PJMEDIA_JB_NORMAL_FRAME in
  '(status, fl, discard) ← make_room 2 (jb_max_count jb) status0 fl0 (jb_discard jb)
                             frame min_frame_size bit_info frame_seq ts;
  let new_size := s32 (jb_framelist_eff_size fl) in
  let jb1 := jb <| jb_framelist := fl |> <| jb_discard := discard |> in
  if status =? PJ_SUCCESS then
    let prefetching := jb_prefetching jb && negb (new_size >=? jb_prefetch jb) in
    let level := s32 (jb_level jb + (if new_size >? cur_size then new_size - cur_size else 1)) in
    Some (false, jbuf_update (jb1 <| jb_prefetching := prefetching |>
                                  <| jb_level := level |>) JB_OP_PUT)
  else Some (true, jb1 <| jb_discard := u32 (discard + 1) |>).

Definition pjmedia_jbuf_put_frame (jb : pjmedia_jbuf) (frame : list Z)
    (frame_size frame_seq : Z) : option (bool * pjmedia_jbuf) :=
  pjmedia_jbuf_put_frame3 jb frame frame_size 0 frame_seq 0.

Definition pjmedia_jbuf_put_frame2 (jb : pjmedia_jbuf) (frame : list Z)
    (frame_size bit_info frame_seq : Z) : option (bool * pjmedia_jbuf) :=
  pjmedia_jbuf_put_frame3 jb frame frame_size bit_info frame_seq 0.

(** The type is returned through a [char]; the values fit. *)
Definition pjmedia_jbuf_get_frame3 (jb : pjmedia_jbuf) : option (jb_out * pjmedia_jbuf) :=
  '(out, jb1) ←
    (if jb_prefetching jb
     then Some (mk_out None (Some 0) PJMEDIA_JB_ZERO_PREFETCH_FRAME None None None,
                jb <| jb_empty := u32 (jb_empty jb + 1) |>)
     else
       '(res, fl) ← jb_framelist_get (jb_framelist jb);
       let jb' := jb <| jb_framelist := fl |> in
       match res with
       | Some o =>
           let normal := out_type o =? PJMEDIA_JB_NORMAL_FRAME in
           let out := mk_out (out_frame o) (out_size o)
                        (if normal then PJMEDIA_JB_NORMAL_FRAME else PJMEDIA_JB_MISSING_FRAME)
                        (out_bit_info o) (out_ts o) (out_seq o) in
           let jb'' := if normal then jb' else jb' <| jb_lost := u32 (jb_lost jb' + 1) |> in
           Some (out,
             if bool_decide (jb_last_op jb'' = JB_OP_PUT)
             then jb'' <| jb_delay := pj_math_stat_update (jb_delay jb'')
                            (s32 (u32 (jb_framelist_eff_size fl + 1) * jb_frame_ptime jb'')) |>
             else jb'')
       | None =>
           Some (mk_out (Some (replicate (Z.to_nat (fl_frame_size fl)) 0)) (Some 0)
                   PJMEDIA_JB_ZERO_EMPTY_FRAME None None None,
                 jb' <| jb_prefetching := if jb_prefetch jb' =? 0
                                          then jb_prefetching jb' else true |>
                     <| jb_empty := u32 (jb_empty jb' + 1) |>)
       end);
  Some (out, jbuf_update (jb1 <| jb_level := s32 (jb_level jb1 + 1) |>) JB_OP_GET).

(** The shorter forms pass NULL for the outputs they have no argument for. *)
Definition pjmedia_jbuf_get_frame2 (jb : pjmedia_jbuf) : option (jb_out * pjmedia_jbuf) :=
  '(o, jb') ← pjmedia_jbuf_get_frame3 jb;
  Some (mk_out (out_frame o) (out_size o) (out_type o) (out_bit_info o) None None, jb').
Definition pjmedia_jbuf_get_frame (jb : pjmedia_jbuf) : option (jb_out * pjmedia_jbuf) :=
  '(o, jb') ← pjmedia_jbuf_get_frame3 jb;
  Some (mk_out (out_frame o) None (out_type o) None None None, jb').

Definition pjmedia_jbuf_peek_frame (jb : pjmedia_jbuf) (offset : Z) : option jb_out :=
  res ← jb_framelist_peek (jb_framelist jb) offset;
  Some match res with
       | None => mk_out None None PJMEDIA_JB_ZERO_EMPTY_FRAME None None None
       | Some o =>
           mk_out (out_frame o) (out_size o)
             (if out_type o =? PJMEDIA_JB_NORMAL_FRAME
              then PJMEDIA_JB_NORMAL_FRAME else PJMEDIA_JB_MISSING_FRAME)
             (out_bit_info o) (out_ts o) (out_seq o)
       end.

(** Remove some more when there were discarded frames included. *)
Fixpoint remove_more (fuel : nat) (fl : jb_framelist_t) (last_discard_num count : Z)
    : option (Z * jb_framelist_t) :=
  if fl_discarded_num fl <? last_discard_num then
    match fuel with
    | O => None
    | S fuel' =>
        let frame_cnt := last_discard_num - fl_discarded_num fl in
        let '(removed, fl') := jb_framelist_remove_head fl frame_cnt in
        remove_more fuel' fl' (fl_discarded_num fl) (u32 (u32 (count - frame_cnt) + removed))
    end
  else Some (count, fl).

Definition pjmedia_jbuf_remove_frame (jb : pjmedia_jbuf) (frame_cnt : Z)
    : option (Z * pjmedia_jbuf) :=
  let last_discard_num := fl_discarded_num (jb_framelist jb) in
  let '(count, fl) := jb_framelist_remove_head (jb_framelist jb) frame_cnt in
  '(total, fl') ← remove_more (S (Z.to_nat last_discard_num)) fl last_discard_num count;
  Some (total, jb <| jb_framelist := fl' |>).
