(* ===== verification/JbufRing.v ===== *)
(** * The frame list of the jitter buffer as a window of numbered slots

    The ring of [Jbuf] holds a window: the sequence number of its first slot
    and the list of its slots.  This file has the abstraction ([fl_window]),
    the invariant of the ring ([fl_wf]) and, for every operation of the frame
    list, the theorem that it keeps the invariant and what it does to the
    window. *)

From Stdlib Require Import ZArith Lia Bool.
From stdpp Require Import base list numbers option.
From S2P Require Import Prelude Jbuf.
Local Open Scope Z_scope.

(** ** Arrays *)

Section Arrays.
Context {A : Type} `{Inhabited A}.
Implicit Types (a : list A) (p q n : Z) (v : A).

Lemma arr_set_length a p v : length (arr_set a p v) = length a.
Proof. apply length_insert. Qed.

Lemma arr_set_arr a p q v :
  0 <= p < Z.of_nat (length a) -> 0 <= q ->
  arr (arr_set a p v) q = if q =? p then v else arr a q.
Proof.
  intros Hp Hq; unfold arr, arr_set; destruct (q =? p) eqn:E; bool_hyps.
  - subst q; apply list_lookup_total_insert_eq; lia.
  - apply list_lookup_total_insert_ne; lia.
Qed.

Lemma arr_fill_length a p n v :
  0 <= p -> 0 <= n -> p + n <= Z.of_nat (length a) ->
  length (arr_fill a p n v) = length a.
Proof.
  intros ???; unfold arr_fill.
  rewrite !length_app, length_take, length_replicate, length_drop; lia.
Qed.

Lemma arr_fill_arr a p n q v :
  0 <= p -> 0 <= n -> p + n <= Z.of_nat (length a) -> 0 <= q ->
  arr (arr_fill a p n v) q = if (p <=? q) && (q <? p + n) then v else arr a q.
Proof.
  intros ????; unfold arr, arr_fill.
  rewrite !list_lookup_total_alt.
  destruct ((p <=? q) && (q <? p + n)) eqn:E.
  - bool_hyps; rewrite lookup_app_r by (rewrite length_take; lia).
    rewrite length_take, lookup_app_l by (rewrite length_replicate; lia).
    rewrite lookup_replicate_2; [done|lia].
  - apply andb_false_iff in E as [E|E]; bool_hyps.
    + rewrite lookup_app_l by (rewrite length_take; lia).
      rewrite lookup_take_lt; [done|lia].
    + rewrite lookup_app_r by (rewrite length_take; lia).
      rewrite lookup_app_r by (rewrite length_take, length_replicate; lia).
      rewrite length_take, length_replicate, lookup_drop; do 2 f_equal; lia.
Qed.
End Arrays.

(** ** Positions in a ring of [m] slots with its first at [h] *)

Definition ring_pos (m h i : Z) : Z := (h + i) mod m.

Section Ring.
Context (m h : Z) (Hm : 0 < m) (Hh : 0 <= h < m).

Lemma ring_pos_range i : 0 <= ring_pos m h i < m.
Proof. unfold ring_pos; apply Z.mod_pos_bound; lia. Qed.

Lemma ring_pos_cases i : 0 <= i < m ->
  ring_pos m h i = if h + i <? m then h + i else h + i - m.
Proof.
  intros Hi; unfold ring_pos; destruct (h + i <? m) eqn:E; bool_hyps.
  - apply Z.mod_small; lia.
  - symmetry; apply Z.mod_unique with 1; lia.
Qed.

Lemma ring_pos_eqb i j : 0 <= i < m -> 0 <= j < m ->
  (ring_pos m h i =? ring_pos m h j) = (i =? j).
Proof.
  intros Hi Hj; rewrite !ring_pos_cases by lia.
  destruct (h + i <? m) eqn:E1, (h + j <? m) eqn:E2, (i =? j) eqn:E3;
    bool_hyps; rewrite ?Z.eqb_eq, ?Z.eqb_neq; lia.
Qed.

Lemma ring_pos_shift n i : ring_pos m (ring_pos m h n) i = ring_pos m h (n + i).
Proof. unfold ring_pos; rewrite Zplus_mod_idemp_l; f_equal; lia. Qed.
End Ring.

(** Clearing [n] slots of the ring from its first, in two steps where the
    range wraps round the end of the array. *)
Section FillRing.
Context {A : Type} `{Inhabited A}.

Definition fill_ring (a : list A) (m h n : Z) (v : A) : list A :=
  if h + n >? m then arr_fill (arr_fill a h (m - h) v) 0 (n - (m - h)) v
  else arr_fill a h n v.

Lemma fill_ring_arr a m h n v i :
  0 < m -> 0 <= h < m -> 0 <= n <= m -> Z.of_nat (length a) = m -> 0 <= i < m ->
  arr (fill_ring a m h n v) (ring_pos m h i) = if i <? n then v else arr a (ring_pos m h i).
Proof.
  intros Hm Hh Hn Hl Hi; unfold fill_ring.
  pose proof (ring_pos_range m h Hm i) as Hr; rewrite (ring_pos_cases m h) in * by lia.
  destruct (h + n >? m) eqn:E; rewrite Z.gtb_ltb in E; bool_hyps.
  - rewrite arr_fill_arr by (rewrite ?arr_fill_length by lia; destruct (h + i <? m); lia).
    rewrite arr_fill_arr by (destruct (h + i <? m); lia).
    destruct (h + i <? m) eqn:E1, (i <? n) eqn:E2; bool_hyps; repeat case_if;
      bool_hyps; rewrite ?andb_false_iff in *; rewrite ?Z.leb_gt, ?Z.ltb_ge in *; try done; lia.
  - rewrite arr_fill_arr by (destruct (h + i <? m); lia).
    destruct (h + i <? m) eqn:E1, (i <? n) eqn:E2; bool_hyps; repeat case_if;
      bool_hyps; rewrite ?andb_false_iff in *; rewrite ?Z.leb_gt, ?Z.ltb_ge in *; try done; lia.
Qed.

Lemma fill_ring_length a m h n v :
  0 < m -> 0 <= h < m -> 0 <= n <= m -> Z.of_nat (length a) = m ->
  length (fill_ring a m h n v) = length a.
Proof.
  intros; unfold fill_ring; destruct (h + n >? m) eqn:E; rewrite Z.gtb_ltb in E; bool_hyps;
    rewrite ?arr_fill_length; rewrite ?arr_fill_length; lia.
Qed.
End FillRing.

(** ** The window *)

(** A slot: empty, to be skipped, or a frame with its bytes, bit info and
    timestamp. *)
Inductive slot := Missing | Discarded | Frame (bytes : list Z) (bits ts : Z).
#[export] Instance slot_eq_dec : EqDecision slot.
Proof. solve_decision. Defined.

Record window := Win { w_origin : Z; w_slots : list slot }.

Definition w_len (w : window) : Z := Z.of_nat (length (w_slots w)).

Definition fl_slot (fl : jb_framelist_t) (p : Z) : slot :=
  if arr (fl_frame_type fl) p =? PJMEDIA_JB_MISSING_FRAME then Missing
  else if arr (fl_frame_type fl) p =? PJMEDIA_JB_DISCARDED_FRAME then Discarded
  else Frame (take (Z.to_nat (arr (fl_content_len fl) p)) (arr (fl_content fl) p))
         (arr (fl_bit_info fl) p) (arr (fl_ts fl) p).

Definition fl_pos (fl : jb_framelist_t) (i : Z) : Z := ring_pos (fl_max_count fl) (fl_head fl) i.

Definition win (fl : jb_framelist_t) : list slot :=
  (fun i => fl_slot fl (fl_pos fl i)) <$> seqZ 0 (fl_size fl).

Definition fl_window (fl : jb_framelist_t) : window := Win (fl_origin fl) (win fl).

(** The number of discarded slots. *)
Definition n_disc (l : list slot) : Z := Z.of_nat (length (filter (.= Discarded) l)).

(** Sequence numbers, and so the differences the code computes, stay clear of
    the limits of [int]. *)
Definition seq_bound : Z := 536870912.
Definition seq_ok (s : Z) : Prop := - seq_bound <= s <= seq_bound.

Record fl_wf (fl : jb_framelist_t) : Prop := {
  wf_max : 0 < fl_max_count fl <= seq_bound;
  wf_frame_size : 0 <= fl_frame_size fl < 4294967296;
  wf_types : Z.of_nat (length (fl_frame_type fl)) = fl_max_count fl;
  wf_lens : Z.of_nat (length (fl_content_len fl)) = fl_max_count fl;
  wf_bits : Z.of_nat (length (fl_bit_info fl)) = fl_max_count fl;
  wf_tss : Z.of_nat (length (fl_ts fl)) = fl_max_count fl;
  wf_content : Z.of_nat (length (fl_content fl)) = fl_max_count fl;
  wf_slots : forall p, 0 <= p < fl_max_count fl ->
    Z.of_nat (length (arr (fl_content fl) p)) = fl_frame_size fl;
  wf_head : 0 <= fl_head fl < fl_max_count fl;
  wf_size : 0 <= fl_size fl <= fl_max_count fl;
  wf_outside : forall i, fl_size fl <= i < fl_max_count fl ->
    arr (fl_frame_type fl) (fl_pos fl i) = PJMEDIA_JB_MISSING_FRAME;
  wf_kinds : forall p, 0 <= p < fl_max_count fl ->
    arr (fl_frame_type fl) p = PJMEDIA_JB_MISSING_FRAME
    \/ arr (fl_frame_type fl) p = PJMEDIA_JB_NORMAL_FRAME
    \/ arr (fl_frame_type fl) p = PJMEDIA_JB_DISCARDED_FRAME;
  wf_empty : forall p, 0 <= p < fl_max_count fl ->
    arr (fl_frame_type fl) p = PJMEDIA_JB_MISSING_FRAME -> arr (fl_content_len fl) p = 0;
  wf_disc : fl_discarded_num fl = n_disc (win fl);
  wf_low : - seq_bound - fl_max_count fl <= fl_origin fl;
  wf_high : fl_origin fl + fl_size fl <= seq_bound + 1 }.

(** *** Reading the window *)

Lemma win_length fl : length (win fl) = Z.to_nat (fl_size fl).
Proof. unfold win; rewrite length_fmap, length_seqZ; done. Qed.

Lemma w_len_window fl : 0 <= fl_size fl -> w_len (fl_window fl) = fl_size fl.
Proof. intros; unfold w_len; simpl; rewrite win_length; lia. Qed.

Lemma win_lookup fl (i : nat) :
  Z.of_nat i < fl_size fl -> win fl !! i = Some (fl_slot fl (fl_pos fl (Z.of_nat i))).
Proof.
  intros Hi; unfold win; rewrite list_lookup_fmap.
  rewrite lookup_seqZ_lt by lia; simpl; do 3 f_equal; lia.
Qed.

(** Two ways to say what a window is. *)
Lemma win_intro fl l :
  Z.of_nat (length l) = fl_size fl ->
  (forall i : nat, Z.of_nat i < fl_size fl ->
    l !! i = Some (fl_slot fl (fl_pos fl (Z.of_nat i)))) ->
  win fl = l.
Proof.
  intros Hl Hs; apply list_eq; intros i.
  destruct (decide (Z.of_nat i < fl_size fl)) as [Hi|Hi].
  - rewrite win_lookup, Hs by done; done.
  - rewrite !lookup_ge_None_2; [done| |rewrite win_length]; lia.
Qed.

Lemma n_disc_app l k : n_disc (l ++ k) = n_disc l + n_disc k.
Proof. unfold n_disc; rewrite list.filter_app, length_app; lia. Qed.

Lemma n_disc_range l : 0 <= n_disc l <= Z.of_nat (length l).
Proof. unfold n_disc; pose proof (length_filter (.= Discarded) l); lia. Qed.

Lemma n_disc_cons s l : n_disc (s :: l) = (if bool_decide (s = Discarded) then 1 else 0) + n_disc l.
Proof.
  unfold n_disc; rewrite list.filter_cons; case_decide.
  - rewrite bool_decide_eq_true_2 by done; simpl length; lia.
  - rewrite bool_decide_eq_false_2 by done; lia.
Qed.

Lemma n_disc_take_drop n l : n_disc l = n_disc (take n l) + n_disc (drop n l).
Proof. rewrite <- n_disc_app, take_drop; done. Qed.

Lemma n_disc_missing n : n_disc (replicate n Missing) = 0.
Proof. induction n as [|n IH]; [done|]; simpl; rewrite n_disc_cons, IH; done. Qed.

Lemma n_disc_insert l (i : nat) s t :
  l !! i = Some s ->
  n_disc (<[i := t]> l) = n_disc l - (if bool_decide (s = Discarded) then 1 else 0)
                          + (if bool_decide (t = Discarded) then 1 else 0).
Proof.
  revert i; induction l as [|x l IH]; intros [|i] Hi; simpl in *; try done.
  - injection Hi as ->; rewrite !n_disc_cons; lia.
  - rewrite !n_disc_cons, (IH i) by done; lia.
Qed.

(** A slot is discarded, or missing, exactly when its type says so. *)
Lemma fl_slot_discarded fl p :
  fl_slot fl p = Discarded <-> arr (fl_frame_type fl) p = PJMEDIA_JB_DISCARDED_FRAME.
Proof.
  unfold fl_slot; split.
  - repeat case_if; bool_hyps; done.
  - intros ->; done.
Qed.

Lemma fl_slot_missing fl p :
  fl_slot fl p = Missing <-> arr (fl_frame_type fl) p = PJMEDIA_JB_MISSING_FRAME.
Proof.
  unfold fl_slot; split.
  - repeat case_if; bool_hyps; done.
  - intros ->; done.
Qed.

Lemma fl_pos_range fl i : 0 < fl_max_count fl -> 0 <= fl_pos fl i < fl_max_count fl.
Proof. intros; apply ring_pos_range; done. Qed.

(** The counting loop, on consecutive positions. *)
Lemma uncount_discarded_spec fl i n num :
  is_u32 num ->
  uncount_discarded (fl_frame_type fl) i n num
  = u32 (num - n_disc (fl_slot fl <$> seqZ i (Z.of_nat n))).
Proof.
  revert i num; induction n as [|n IH]; intros i num Hn; simpl uncount_discarded.
  - simpl; unfold n_disc; simpl; rewrite u32_small by (rewrite Z.sub_0_r; done); lia.
  - rewrite seqZ_cons, fmap_cons, n_disc_cons by lia.
    replace (Z.pred (Z.of_nat (S n))) with (Z.of_nat n) by lia.
    replace (Z.succ i) with (i + 1) by lia.
    rewrite IH by (destruct (_ =? _); auto with pj).
    destruct (arr (fl_frame_type fl) i =? PJMEDIA_JB_DISCARDED_FRAME) eqn:E; bool_hyps.
    + rewrite bool_decide_eq_true_2 by (apply fl_slot_discarded; done).
      unfold u32; rewrite Zminus_mod_idemp_l; f_equal; lia.
    + rewrite bool_decide_eq_false_2 by (rewrite fl_slot_discarded; done); f_equal; lia.
Qed.

(** ** Removing from the head *)

(** The slots on [n] consecutive positions of the array. *)
Lemma win_take_flat fl n :
  fl_wf fl -> 0 <= n <= fl_size fl ->
  take (Z.to_nat n) (win fl)
  = if fl_head fl + n >? fl_max_count fl
    then (fl_slot fl <$> seqZ (fl_head fl) (fl_max_count fl - fl_head fl))
         ++ (fl_slot fl <$> seqZ 0 (n - (fl_max_count fl - fl_head fl)))
    else fl_slot fl <$> seqZ (fl_head fl) n.
Proof.
  intros W Hn; pose proof (wf_max _ W); pose proof (wf_head _ W); pose proof (wf_size _ W).
  apply list_eq; intros i.
  destruct (decide (Z.of_nat i < n)) as [Hi|Hi].
  - rewrite lookup_take_lt, win_lookup by lia; unfold fl_pos; rewrite ring_pos_cases by lia.
    destruct (fl_head fl + n >? fl_max_count fl) eqn:E; rewrite Z.gtb_ltb in E;
      destruct (fl_head fl + Z.of_nat i <? fl_max_count fl) eqn:E2; bool_hyps; try lia.
    + rewrite lookup_app_l by (rewrite length_fmap, length_seqZ; lia).
      rewrite list_lookup_fmap, lookup_seqZ_lt by lia; done.
    + rewrite lookup_app_r by (rewrite length_fmap, length_seqZ; lia).
      rewrite length_fmap, length_seqZ, list_lookup_fmap, lookup_seqZ_lt by lia.
      simpl; do 2 f_equal; lia.
    + rewrite list_lookup_fmap, lookup_seqZ_lt by lia; done.
  - rewrite lookup_take_ge by lia; symmetry; apply lookup_ge_None_2.
    destruct (fl_head fl + n >? fl_max_count fl) eqn:E; rewrite Z.gtb_ltb in E; bool_hyps;
      rewrite ?length_app, !length_fmap, !length_seqZ; lia.
Qed.

(** The frame list with its first [n] slots cleared. *)
Definition cleared (fl : jb_framelist_t) (n : Z) : jb_framelist_t :=
  mk_fl (fl_frame_size fl) (fl_max_count fl) (fl_content fl)
    (fill_ring (fl_frame_type fl) (fl_max_count fl) (fl_head fl) n PJMEDIA_JB_MISSING_FRAME)
    (fill_ring (fl_content_len fl) (fl_max_count fl) (fl_head fl) n 0)
    (fl_bit_info fl) (fl_ts fl) (fl_pos fl n) (fl_size fl - n)
    (n_disc (drop (Z.to_nat n) (win fl))) (fl_origin fl + n).

Lemma n_disc_win_range fl : fl_wf fl -> 0 <= n_disc (win fl) <= fl_size fl.
Proof.
  intros W; pose proof (n_disc_range (win fl)) as H; rewrite win_length in H.
  pose proof (wf_size _ W); lia.
Qed.

Ltac wf_facts W :=
  pose proof (wf_max _ W); pose proof (wf_head _ W); pose proof (wf_size _ W);
  pose proof (wf_low _ W); pose proof (wf_high _ W); pose proof (wf_disc _ W);
  pose proof (n_disc_win_range _ W); unfold seq_bound in *.

Lemma remove_head_cleared fl c :
  fl_wf fl -> 0 <= c < 4294967296 -> 0 < Z.min c (fl_size fl) ->
  jb_framelist_remove_head fl c = (Z.min c (fl_size fl), cleared fl (Z.min c (fl_size fl))).
Proof.
  intros W Hc Hpos; wf_facts W.
  assert (Hn : (if c >? fl_size fl then fl_size fl else c) = Z.min c (fl_size fl))
    by (rewrite Z.gtb_ltb; case_if; bool_hyps; lia).
  unfold jb_framelist_remove_head; rewrite Hn; clear Hn.
  set (n := Z.min c (fl_size fl)) in *.
  destruct (n =? 0) eqn:E0; bool_hyps; [lia|]; clear E0.
  rewrite (u32_small (fl_head fl + n)) by (unfold is_u32; lia).
  rewrite (u32_small (fl_max_count fl - fl_head fl)) by (unfold is_u32; lia).
  rewrite (u32_small (fl_size fl - n)) by (unfold is_u32; lia).
  replace (s32 (fl_origin fl + n)) with (fl_origin fl + n) by int_lia.
  pose proof (n_disc_take_drop (Z.to_nat n) (win fl)) as Hcount.
  pose proof (n_disc_range (take (Z.to_nat n) (win fl))) as Ht.
  pose proof (n_disc_range (drop (Z.to_nat n) (win fl))) as Hd.
  pose proof (win_take_flat fl n W ltac:(lia)) as Hflat.
  unfold cleared, fill_ring.
  destruct (fl_head fl + n >? fl_max_count fl) eqn:E; rewrite Z.gtb_ltb in E; bool_hyps.
  - rewrite (u32_small (n - _)) by (unfold is_u32; lia).
    destruct (n - (fl_max_count fl - fl_head fl) =? 0) eqn:E2; bool_hyps; [lia|].
    simpl negb; cbv iota beta.
    (* the second loop reads slots the first fill has not touched *)
    set (fl1 := mk_fl (fl_frame_size fl) (fl_max_count fl) (fl_content fl)
      (arr_fill (fl_frame_type fl) (fl_head fl) (fl_max_count fl - fl_head fl)
         PJMEDIA_JB_MISSING_FRAME) (fl_content_len fl) (fl_bit_info fl) (fl_ts fl)
      (fl_head fl) (fl_size fl) (fl_discarded_num fl) (fl_origin fl)).
    change (arr_fill (fl_frame_type fl) (fl_head fl) (fl_max_count fl - fl_head fl)
      PJMEDIA_JB_MISSING_FRAME) with (fl_frame_type fl1) at 1.
    rewrite (uncount_discarded_spec fl (fl_head fl)) by int_lia.
    rewrite (uncount_discarded_spec fl1) by apply u32_range.
    assert (Es : fl_slot fl1 <$> seqZ 0 (Z.of_nat (Z.to_nat (n - (fl_max_count fl - fl_head fl))))
                 = fl_slot fl <$> seqZ 0 (n - (fl_max_count fl - fl_head fl))).
    { rewrite Z2Nat.id by lia; apply list_fmap_ext; intros i x [-> Hi]%lookup_seqZ.
      unfold fl_slot; simpl fl_frame_type; rewrite arr_fill_arr
        by (rewrite ?(wf_types _ W); lia).
      destruct (fl_head fl <=? 0 + Z.of_nat i) eqn:E3; bool_hyps; [lia|done]. }
    rewrite Es, !Z2Nat.id by lia.
    rewrite Hflat, n_disc_app in Hcount.
    do 2 f_equal; unfold u32; rewrite Zminus_mod_idemp_l.
    rewrite Z.mod_small; [lia|]; rewrite Hflat, n_disc_app in Ht; lia.
  - change (negb (0 =? 0)) with false; cbv iota beta.
    rewrite (uncount_discarded_spec fl), Z2Nat.id by int_lia.
    rewrite Hflat in Hcount, Ht.
    do 2 f_equal; rewrite u32_small; unfold is_u32; lia.
Qed.

Section Cleared.
Context (fl : jb_framelist_t) (W : fl_wf fl) (n : Z) (Hn : 0 <= n <= fl_size fl).

Lemma cleared_pos i : fl_pos (cleared fl n) i = fl_pos fl (n + i).
Proof. unfold fl_pos; simpl; apply ring_pos_shift. Qed.

Lemma cleared_type i : 0 <= i < fl_max_count fl ->
  arr (fl_frame_type (cleared fl n)) (fl_pos fl i)
  = if i <? n then PJMEDIA_JB_MISSING_FRAME else arr (fl_frame_type fl) (fl_pos fl i).
Proof. wf_facts W; apply fill_ring_arr; rewrite ?(wf_types _ W); lia. Qed.

Lemma cleared_len i : 0 <= i < fl_max_count fl ->
  arr (fl_content_len (cleared fl n)) (fl_pos fl i)
  = if i <? n then 0 else arr (fl_content_len fl) (fl_pos fl i).
Proof. wf_facts W; apply fill_ring_arr; rewrite ?(wf_lens _ W); lia. Qed.

Lemma cleared_slot i : n <= i < fl_max_count fl ->
  fl_slot (cleared fl n) (fl_pos fl i) = fl_slot fl (fl_pos fl i).
Proof.
  intros Hi; unfold fl_slot; rewrite cleared_type, cleared_len by lia.
  destruct (i <? n) eqn:E; bool_hyps; [lia|done].
Qed.

Lemma cleared_win : win (cleared fl n) = drop (Z.to_nat n) (win fl).
Proof.
  wf_facts W; apply win_intro; change (fl_size (cleared fl n)) with (fl_size fl - n).
  - rewrite length_drop, win_length; lia.
  - intros i Hi; rewrite lookup_drop, win_lookup, cleared_pos, cleared_slot by lia.
    do 3 f_equal; lia.
Qed.

(** Every position of the array is a position of the ring. *)
Lemma pos_of p : 0 <= p < fl_max_count fl -> exists i, 0 <= i < fl_max_count fl /\ p = fl_pos fl i.
Proof.
  wf_facts W; intros Hp; exists (if p <? fl_head fl then p - fl_head fl + fl_max_count fl
                                 else p - fl_head fl).
  unfold fl_pos; destruct (p <? fl_head fl) eqn:E; bool_hyps; (split; [lia|]);
    rewrite ring_pos_cases by lia; case_if; bool_hyps; lia.
Qed.

Lemma cleared_wf : fl_wf (cleared fl n).
Proof.
  pose proof W as [Hmax Hfs Ht Hl Hb Hts Hc Hs Hh Hsz Ho Hk He Hd Hlo Hhi].
  constructor; simpl fl_max_count; simpl fl_frame_size; simpl fl_bit_info; simpl fl_ts;
    simpl fl_content; simpl fl_head; simpl fl_size; simpl fl_origin; try done; try lia.
  - change (fl_frame_type (cleared fl n)) with (fill_ring (fl_frame_type fl)
      (fl_max_count fl) (fl_head fl) n PJMEDIA_JB_MISSING_FRAME).
    rewrite fill_ring_length; lia.
  - change (fl_content_len (cleared fl n)) with (fill_ring (fl_content_len fl)
      (fl_max_count fl) (fl_head fl) n 0).
    rewrite fill_ring_length; lia.
  - apply fl_pos_range; lia.
  - intros i Hi; rewrite cleared_pos.
    destruct (decide (n + i < fl_max_count fl)).
    + rewrite cleared_type by lia; destruct (n + i <? n) eqn:E; bool_hyps; [lia|].
      apply Ho; lia.
    + replace (fl_pos fl (n + i)) with (fl_pos fl (n + i - fl_max_count fl)).
      * rewrite cleared_type by lia; destruct (_ <? n) eqn:E; bool_hyps; [done|lia].
      * unfold fl_pos, ring_pos.
        replace (fl_head fl + (n + i - fl_max_count fl))
          with (fl_head fl + (n + i) + (-1) * fl_max_count fl) by lia.
        apply Z.mod_add; lia.
  - intros p (i & Hi & ->)%pos_of; rewrite cleared_type by lia.
    case_if; [by left|]; apply Hk, fl_pos_range; lia.
  - intros p (i & Hi & ->)%pos_of; rewrite cleared_type, cleared_len by lia.
    case_if; [done|]; apply He, fl_pos_range; lia.
  - rewrite cleared_win; done.
Qed.
End Cleared.

(** Removing [c] frames drops the first [min c size] slots of the window. *)
Lemma remove_head_spec fl c :
  fl_wf fl -> 0 <= c < 4294967296 ->
  exists fl', jb_framelist_remove_head fl c = (Z.min c (fl_size fl), fl')
    /\ fl_wf fl'
    /\ fl_max_count fl' = fl_max_count fl /\ fl_frame_size fl' = fl_frame_size fl
    /\ fl_window fl' = Win (fl_origin fl + Z.min c (fl_size fl))
                         (drop (Z.to_nat (Z.min c (fl_size fl))) (win fl)).
Proof.
  intros W Hc; wf_facts W.
  destruct (decide (0 < Z.min c (fl_size fl))) as [Hp|Hp].
  - exists (cleared fl (Z.min c (fl_size fl))).
    rewrite remove_head_cleared by done; split; [done|].
    split; [apply cleared_wf; [done|lia]|]; split; [done|]; split; [done|].
    unfold fl_window; rewrite cleared_win by (done || lia); done.
  - replace (Z.min c (fl_size fl)) with 0 by lia.
    exists fl; unfold jb_framelist_remove_head.
    replace (if c >? fl_size fl then fl_size fl else c) with 0
      by (rewrite Z.gtb_ltb; case_if; bool_hyps; lia).
    split; [done|]; split; [done|]; split; [done|]; split; [done|].
    unfold fl_window; rewrite Z.add_0_r; done.
Qed.

(** ** Reset *)

(** What holds of the arrays whatever the state is. *)
Record fl_shape (fl : jb_framelist_t) : Prop := {
  sh_max : 0 < fl_max_count fl <= seq_bound;
  sh_frame_size : 0 <= fl_frame_size fl < 4294967296;
  sh_types : Z.of_nat (length (fl_frame_type fl)) = fl_max_count fl;
  sh_lens : Z.of_nat (length (fl_content_len fl)) = fl_max_count fl;
  sh_bits : Z.of_nat (length (fl_bit_info fl)) = fl_max_count fl;
  sh_tss : Z.of_nat (length (fl_ts fl)) = fl_max_count fl;
  sh_content : Z.of_nat (length (fl_content fl)) = fl_max_count fl;
  sh_slots : forall p, 0 <= p < fl_max_count fl ->
    Z.of_nat (length (arr (fl_content fl) p)) = fl_frame_size fl }.

Lemma wf_shape fl : fl_wf fl -> fl_shape fl.
Proof. intros []; constructor; done. Qed.

Lemma reset_spec fl o :
  fl_shape fl -> seq_ok o ->
  fl_wf (with_origin o (jb_framelist_reset fl))
  /\ fl_window (with_origin o (jb_framelist_reset fl)) = Win o [].
Proof.
  intros [Hmax Hfs Ht Hl Hb Hts Hc Hs] Ho; unfold seq_ok, seq_bound in *.
  split; [|done].
  assert (Hfill : forall p, 0 <= p < fl_max_count fl ->
    arr (arr_fill (fl_frame_type fl) 0 (fl_max_count fl) PJMEDIA_JB_MISSING_FRAME) p
    = PJMEDIA_JB_MISSING_FRAME).
  { intros p Hp; rewrite arr_fill_arr by lia; case_if; [done|].
    apply andb_false_iff in E as [E|E]; bool_hyps; lia. }
  constructor; simpl; unfold seq_bound; try done; try lia.
  - rewrite arr_fill_length; lia.
  - rewrite arr_fill_length; lia.
  - intros i Hi; apply Hfill.
    exact (fl_pos_range (with_origin o (jb_framelist_reset fl)) i ltac:(simpl; lia)).
  - intros p Hp; left; auto.
  - intros p Hp _; rewrite arr_fill_arr by lia; case_if; [done|].
    apply andb_false_iff in E as [E|E]; bool_hyps; lia.
Qed.

(** ** Getting a frame *)

(** The number of discarded slots at the front. *)
Fixpoint lead_disc (l : list slot) : nat :=
  match l with Discarded :: l' => S (lead_disc l') | _ => O end.

Lemma lead_disc_length l : (lead_disc l <= length l)%nat.
Proof. induction l as [|[] l IH]; simpl; lia. Qed.

Lemma win_head fl : fl_wf fl ->
  win fl !! O = if fl_size fl =? 0 then None else Some (fl_slot fl (fl_head fl)).
Proof.
  intros W; wf_facts W; destruct (fl_size fl =? 0) eqn:E; bool_hyps.
  - apply lookup_ge_None_2; rewrite win_length; lia.
  - rewrite win_lookup by lia; unfold fl_pos; rewrite ring_pos_cases by lia.
    case_if; bool_hyps; [do 2 f_equal; lia|lia].
Qed.

(** At the head of an empty window is a missing slot. *)
Lemma head_missing fl : fl_wf fl -> fl_size fl = 0 ->
  arr (fl_frame_type fl) (fl_head fl) = PJMEDIA_JB_MISSING_FRAME.
Proof.
  intros W Hs; wf_facts W; pose proof (wf_outside _ W 0 ltac:(lia)) as H'.
  unfold fl_pos, ring_pos in H'; rewrite Z.add_0_r, Z.mod_small in H' by lia; done.
Qed.

Lemma skip_discarded_spec fuel b fl :
  fl_wf fl -> (length (win fl) <= fuel)%nat ->
  exists fl', skip_discarded fuel b fl = Some (b || bool_decide (0 < lead_disc (win fl))%nat, fl')
    /\ fl_wf fl'
    /\ fl_max_count fl' = fl_max_count fl /\ fl_frame_size fl' = fl_frame_size fl
    /\ fl_window fl' = Win (fl_origin fl + Z.of_nat (lead_disc (win fl)))
                         (drop (lead_disc (win fl)) (win fl)).
Proof.
  revert b fl; induction fuel as [|fuel IH]; intros b fl W Hfuel; wf_facts W;
    pose proof (win_head fl W) as Hh; unfold skip_discarded; fold skip_discarded;
    destruct (arr (fl_frame_type fl) (fl_head fl) =? PJMEDIA_JB_DISCARDED_FRAME) eqn:E; bool_hyps.
  - destruct (decide (fl_size fl = 0)) as [Hz|Hz].
    + rewrite (head_missing fl W Hz) in E; done.
    + rewrite win_length in Hfuel; lia.
  - exists fl; destruct (win fl) eqn:El; [|simpl in Hfuel; lia].
    simpl; rewrite orb_false_r, Z.add_0_r; unfold fl_window; rewrite El; done.
  - destruct (decide (fl_size fl = 0)) as [Hz|Hz];
      [rewrite (head_missing fl W Hz) in E; done|].
    destruct (fl_size fl =? 0) eqn:E0; bool_hyps; [done|].
    destruct (win fl) as [|s l] eqn:El; [done|]; injection Hh as ->.
    apply fl_slot_discarded in E; rewrite E in *.
    destruct (remove_head_spec fl 1 W ltac:(lia)) as (fl1 & Er & W1 & Hm1 & Hf1 & Ew1).
    rewrite Er; simpl snd; replace (Z.min 1 (fl_size fl)) with 1 in * by lia.
    change (Z.to_nat 1) with 1%nat in Ew1; rewrite El in Ew1; injection Ew1 as Eo1 Ew1; rewrite drop_0 in Ew1.
    destruct (IH true fl1 W1) as (fl2 & Es & W2 & Hm2 & Hf2 & Ew2);
      [rewrite Ew1; simpl in *; lia|].
    exists fl2; rewrite Es, Ew2, Ew1, Eo1; simpl; rewrite orb_true_r.
    split; [done|]; split; [done|]; split; [congruence|]; split; [congruence|].
    f_equal; lia.
  - exists fl; destruct (fl_size fl =? 0) eqn:E0.
    + destruct (win fl) eqn:El; [|done].
      simpl; rewrite orb_false_r, Z.add_0_r; unfold fl_window; rewrite El; done.
    + destruct (win fl) as [|s l] eqn:El; [done|]; injection Hh as ->.
      rewrite <- fl_slot_discarded in E.
      assert (Hz : lead_disc (fl_slot fl (fl_head fl) :: l) = O)
        by (simpl; destruct (fl_slot fl (fl_head fl)); done).
      rewrite Hz; simpl; rewrite orb_false_r, Z.add_0_r; unfold fl_window; rewrite El; done.
Qed.

(** Bit info and timestamp of a missing slot are not part of the window. *)
Lemma scrub_spec fl p b t :
  fl_wf fl -> 0 <= p < fl_max_count fl ->
  arr (fl_frame_type fl) p = PJMEDIA_JB_MISSING_FRAME ->
  let fl' := mk_fl (fl_frame_size fl) (fl_max_count fl) (fl_content fl) (fl_frame_type fl)
    (fl_content_len fl) (arr_set (fl_bit_info fl) p b) (arr_set (fl_ts fl) p t)
    (fl_head fl) (fl_size fl) (fl_discarded_num fl) (fl_origin fl) in
  fl_wf fl' /\ fl_window fl' = fl_window fl.
Proof.
  intros W Hp Hm fl'.
  assert (Hs : forall q, 0 <= q < fl_max_count fl -> fl_slot fl' q = fl_slot fl q).
  { intros q Hq; unfold fl_slot; simpl.
    rewrite !arr_set_arr by (rewrite ?(wf_bits _ W), ?(wf_tss _ W); lia).
    destruct (q =? p) eqn:E; bool_hyps; [subst q; rewrite Hm|]; done. }
  assert (Hw : win fl' = win fl).
  { apply win_intro; [rewrite win_length; pose proof (wf_size _ W); simpl; lia|].
    intros i Hi; rewrite win_lookup by done.
    change (fl_pos fl' (Z.of_nat i)) with (fl_pos fl (Z.of_nat i)).
    rewrite Hs; [done|apply fl_pos_range; pose proof (wf_max _ W); lia]. }
  split; [|unfold fl_window; rewrite Hw; done].
  pose proof W as [Hmax Hfs Ht Hl Hb Hts Hc Hsl Hh Hsz Ho Hk He Hd Hlo Hhi].
  constructor; try done; unfold fl'; simpl fl_bit_info; simpl fl_ts.
  - rewrite arr_set_length; done.
  - rewrite arr_set_length; done.
  - fold fl'; rewrite Hw; done.
Qed.

Lemma fill_ring_one {A} `{Inhabited A} (a : list A) m h v :
  0 <= h < m -> Z.of_nat (length a) = m -> fill_ring a m h 1 v = arr_set a h v.
Proof.
  intros Hh Hl; unfold fill_ring.
  destruct (h + 1 >? m) eqn:E; rewrite Z.gtb_ltb in E; bool_hyps; [lia|].
  unfold arr_fill, arr_set; rewrite insert_take_drop by lia; simpl.
  do 3 f_equal; lia.
Qed.

(** The slot an output shows. *)
Definition out_slot (o : jb_out) : slot :=
  if out_type o =? PJMEDIA_JB_NORMAL_FRAME
  then Frame (take (Z.to_nat (default 0 (out_size o))) (default [] (out_frame o)))
         (default 0 (out_bit_info o)) (default 0 (out_ts o))
  else Missing.

(** A GET on a window: skip what is discarded and take the next slot; after a
    skip the frame is reported missing. *)
Definition w_get (w : window) : option (Z * slot) * window :=
  let k := lead_disc (w_slots w) in
  match drop k (w_slots w) with
  | [] => (None, Win (w_origin w + Z.of_nat k) [])
  | s :: rest =>
      (Some (w_origin w + Z.of_nat k, if decide (k = O) then s else Missing),
       Win (w_origin w + Z.of_nat k + 1) rest)
  end.

Lemma head_not_discarded l s rest : drop (lead_disc l) l = s :: rest -> s <> Discarded.
Proof. induction l as [|[] l IH]; simpl; intros E; try done; try congruence; auto. Qed.

(** Taking the head slot, not discarded, off the ring. *)
Lemma pop_spec fl s rest :
  fl_wf fl -> win fl = s :: rest -> s <> Discarded ->
  let h := fl_head fl in
  let fl' := mk_fl (fl_frame_size fl) (fl_max_count fl) (fl_content fl)
    (arr_set (fl_frame_type fl) h PJMEDIA_JB_MISSING_FRAME) (arr_set (fl_content_len fl) h 0)
    (arr_set (fl_bit_info fl) h 0) (arr_set (fl_ts fl) h 0)
    (u32 (h + 1) mod fl_max_count fl) (u32 (fl_size fl - 1))
    (fl_discarded_num fl) (s32 (fl_origin fl + 1)) in
  fl_wf fl' /\ fl_window fl' = Win (fl_origin fl + 1) rest.
Proof.
  intros W El Hnd h fl'; wf_facts W.
  assert (Hsz : 0 < fl_size fl).
  { pose proof (f_equal length El) as Hl; rewrite win_length in Hl; simpl in Hl; lia. }
  assert (Hc : cleared fl 1 = mk_fl (fl_frame_size fl) (fl_max_count fl) (fl_content fl)
    (arr_set (fl_frame_type fl) h PJMEDIA_JB_MISSING_FRAME) (arr_set (fl_content_len fl) h 0)
    (fl_bit_info fl) (fl_ts fl) (u32 (h + 1) mod fl_max_count fl)
    (u32 (fl_size fl - 1)) (fl_discarded_num fl) (s32 (fl_origin fl + 1))).
  { unfold h; rewrite (u32_small (fl_head fl + 1)), (u32_small (fl_size fl - 1))
      by (unfold is_u32; lia).
    replace (s32 (fl_origin fl + 1)) with (fl_origin fl + 1) by int_lia.
    rewrite <- (fill_ring_one (fl_frame_type fl) (fl_max_count fl)),
            <- (fill_ring_one (fl_content_len fl) (fl_max_count fl))
      by (rewrite ?(wf_types _ W), ?(wf_lens _ W); lia).
    unfold cleared; f_equal; change (Z.to_nat 1) with 1%nat; rewrite El; simpl.
    rewrite drop_0, (wf_disc _ W), El, n_disc_cons, bool_decide_eq_false_2 by done; lia. }
  pose proof (cleared_wf fl W 1 ltac:(lia)) as W2.
  assert (Hpos : fl_pos fl 0 = fl_head fl)
    by (unfold fl_pos, ring_pos; rewrite Z.add_0_r, Z.mod_small; lia).
  destruct (scrub_spec (cleared fl 1) h 0 0 W2) as [W3 Ew3]; [done| |].
  { unfold h; rewrite <- Hpos, cleared_type by (done || lia); done. }
  rewrite Hc in W3, Ew3; split; [exact W3|].
  change (fl_window fl') with (fl_window (mk_fl (fl_frame_size (cleared fl 1))
    (fl_max_count fl) (fl_content fl)
    (arr_set (fl_frame_type fl) h PJMEDIA_JB_MISSING_FRAME) (arr_set (fl_content_len fl) h 0)
    (arr_set (fl_bit_info fl) h 0) (arr_set (fl_ts fl) h 0)
    (u32 (h + 1) mod fl_max_count fl) (u32 (fl_size fl - 1))
    (fl_discarded_num fl) (s32 (fl_origin fl + 1)))).
  etransitivity; [exact Ew3|]; rewrite <- Hc; unfold fl_window.
  rewrite cleared_win, El by (done || lia); change (Z.to_nat 1) with 1%nat; simpl.
  rewrite drop_0; done.
Qed.

(** What the head slot of a well-formed ring shows when it is returned. *)
Lemma head_out fl bs :
  fl_wf fl -> fl_slot fl (fl_head fl) <> Discarded ->
  let h := fl_head fl in
  let o := mk_out bs (Some (arr (fl_content_len fl) h)) (arr (fl_frame_type fl) h)
    (Some (arr (fl_bit_info fl) h)) (Some (arr (fl_ts fl) h)) (Some (fl_origin fl)) in
  (bs = Some (arr (fl_content fl) h) -> out_slot o = fl_slot fl h)
  /\ (out_slot o = Missing -> out_size o = Some 0 /\ out_type o = PJMEDIA_JB_MISSING_FRAME).
Proof.
  intros W Hnd h o; unfold out_slot, o; simpl; unfold fl_slot in *; fold h in Hnd.
  destruct (wf_kinds _ W h (wf_head _ W)) as [E|[E|E]]; rewrite E in *; split; try done.
  - intros _; rewrite (wf_empty _ W) by (done || apply wf_head, W); done.
  - intros ->; done.
Qed.

Lemma get_spec fl :
  fl_wf fl ->
  exists res fl', jb_framelist_get fl = Some (res, fl')
    /\ fl_wf fl'
    /\ fl_max_count fl' = fl_max_count fl /\ fl_frame_size fl' = fl_frame_size fl
    /\ w_get (fl_window fl)
       = ((fun o => (default 0 (out_seq o), out_slot o)) <$> res, fl_window fl')
    /\ (forall o, res = Some o -> is_Some (out_seq o) /\ (out_slot o = Missing ->
          out_size o = Some 0 /\ out_type o = PJMEDIA_JB_MISSING_FRAME)).
Proof.
  intros W; wf_facts W; unfold jb_framelist_get.
  destruct (fl_size fl =? 0) eqn:E0; bool_hyps.
  { exists None, fl; split; [done|]; split; [done|]; split; [done|]; split; [done|].
    split; [|done].
    unfold fl_window, w_get; simpl; assert (El : win fl = [])
      by (apply nil_length_inv; rewrite win_length; lia).
    rewrite El; simpl; rewrite Z.add_0_r; done. }
  destruct (skip_discarded_spec (Z.to_nat (fl_size fl)) false fl W) as (fl1 & Es & W1 & Hm1 & Hf1 & Ew1);
    [rewrite win_length; lia|].
  rewrite Es; cbn [mbind option_bind]; injection Ew1 as Eo Ew.
  unfold w_get; simpl w_slots; simpl w_origin; rewrite <- Ew, <- Eo.
  pose proof (win_head fl1 W1) as Hh1.
  destruct (fl_size fl1 =? 0) eqn:E1.
  { exists None, fl1; destruct (win fl1) eqn:El; [|done].
    unfold fl_window; rewrite El; done. }
  destruct (win fl1) as [|s rest] eqn:El; [done|]; injection Hh1 as Hs.
  pose proof (head_not_discarded (win fl) s rest) as Hnd; rewrite <- Ew in Hnd.
  specialize (Hnd eq_refl).
  destruct (pop_spec fl1 s rest W1 El Hnd) as [W2 Ew2].
  pose proof Hnd as Hnd'; rewrite Hs in Hnd'.
  destruct (head_out fl1 (Some (arr (fl_content fl1) (fl_head fl1))) W1 Hnd') as [Ho1 Ho2].
  eexists _, _; split; [reflexivity|]; split; [exact W2|]; split; [done|]; split; [done|]; split.
  - rewrite Ew2; simpl; f_equal; f_equal.
    destruct (decide (lead_disc (win fl) = 0%nat)) as [Hz|Hz].
    + rewrite Hz, bool_decide_eq_false_2, Hs, Ho1 by (done || lia); done.
    + rewrite bool_decide_eq_true_2 by lia; done.
  - intros o [= <-]; destruct (decide (lead_disc (win fl) = 0%nat)) as [Hz|Hz].
    + rewrite bool_decide_eq_false_2 by lia; split; [eexists; done|exact Ho2].
    + rewrite bool_decide_eq_true_2 by lia; split; [eexists; done|done].
Qed.

(** ** Storing a frame *)

(** Store [s] at offset [d], with empty slots up to it where [d] is past the
    end. *)
Definition w_store (d : nat) (s : slot) (l : list slot) : list slot :=
  if decide (d < length l)%nat then <[d := s]> l
  else l ++ replicate (d - length l) Missing ++ [s].

Lemma w_store_length d s l : length (w_store d s l) = Nat.max (length l) (S d).
Proof.
  unfold w_store; case_decide; rewrite ?length_insert, ?length_app, ?length_replicate;
    simpl; lia.
Qed.

Lemma w_store_lookup d s l i :
  (i < Nat.max (length l) (S d))%nat ->
  w_store d s l !! i = if decide (i = d) then Some s
                       else if decide (i < length l)%nat then l !! i else Some Missing.
Proof.
  intros Hi; unfold w_store; repeat case_decide; subst; try lia.
  - apply list_lookup_insert_eq; lia.
  - apply list_lookup_insert_ne; lia.
  - rewrite !lookup_app_r by (rewrite ?length_replicate; lia).
    rewrite length_replicate; replace (d - length l - (d - length l))%nat with O by lia; done.
  - apply lookup_app_l; lia.
  - rewrite lookup_app_r, lookup_app_l by (rewrite ?length_replicate; lia).
    apply lookup_replicate_2; lia.
Qed.

Lemma w_store_n_disc d s l :
  s <> Discarded -> (forall t, l !! d = Some t -> t = Missing) ->
  n_disc (w_store d s l) = n_disc l.
Proof.
  intros Hs Hd; unfold w_store; case_decide as Hlt.
  - apply lookup_lt_is_Some_2 in Hlt as [t Ht]; rewrite (n_disc_insert _ _ t) by done.
    rewrite (Hd t) by done; rewrite (bool_decide_eq_false_2 (s = Discarded)) by done.
    rewrite bool_decide_eq_false_2 by done; lia.
  - rewrite !n_disc_app, n_disc_missing, n_disc_cons, bool_decide_eq_false_2 by done.
    unfold n_disc; simpl; lia.
Qed.

Lemma fl_pos_eqb fl i j :
  fl_wf fl -> 0 <= i < fl_max_count fl -> 0 <= j < fl_max_count fl ->
  (fl_pos fl i =? fl_pos fl j) = (i =? j).
Proof. intros W; wf_facts W; apply ring_pos_eqb; lia. Qed.

Lemma win_at_missing fl d s :
  fl_wf fl -> 0 <= d -> arr (fl_frame_type fl) (fl_pos fl d) = PJMEDIA_JB_MISSING_FRAME ->
  win fl !! Z.to_nat d = Some s -> s = Missing.
Proof.
  intros W Hd Hmiss Hs; pose proof (lookup_lt_Some _ _ _ Hs) as Hlt.
  rewrite win_length in Hlt; rewrite win_lookup in Hs by lia; injection Hs as <-.
  rewrite Z2Nat.id by lia; apply fl_slot_missing; done.
Qed.

(** The frame list after a frame is stored [d] slots from the head. *)
Definition stored (fl : jb_framelist_t) (d : Z) (frame : list Z) (n b t : Z) : jb_framelist_t :=
  mk_fl (fl_frame_size fl) (fl_max_count fl)
    (arr_set (fl_content fl) (fl_pos fl d)
       (mem_copy (arr (fl_content fl) (fl_pos fl d)) frame n))
    (arr_set (fl_frame_type fl) (fl_pos fl d) PJMEDIA_JB_NORMAL_FRAME)
    (arr_set (fl_content_len fl) (fl_pos fl d) n)
    (arr_set (fl_bit_info fl) (fl_pos fl d) b)
    (arr_set (fl_ts fl) (fl_pos fl d) t)
    (fl_head fl) (Z.max (fl_size fl) (d + 1)) (fl_discarded_num fl) (fl_origin fl).

Section Stored.
Context (fl : jb_framelist_t) (W : fl_wf fl).
Context (d : Z) (Hd : 0 <= d < fl_max_count fl).
Context (frame : list Z) (n b t : Z) (Hn : 0 <= n <= Z.of_nat (length frame)).
Context (Hmiss : arr (fl_frame_type fl) (fl_pos fl d) = PJMEDIA_JB_MISSING_FRAME).

Let fl' := stored fl d frame n b t.
Let Hpos := fl_pos_range fl d (proj1 (wf_max _ W)).

Lemma stored_type i : 0 <= i < fl_max_count fl ->
  arr (fl_frame_type fl') (fl_pos fl i)
  = if i =? d then PJMEDIA_JB_NORMAL_FRAME else arr (fl_frame_type fl) (fl_pos fl i).
Proof.
  wf_facts W; intros Hi; pose proof (fl_pos_range fl i ltac:(lia)); simpl.
  rewrite arr_set_arr by (rewrite ?(wf_types _ W); lia).
  rewrite fl_pos_eqb by done; done.
Qed.

Lemma stored_slot i : 0 <= i < fl_max_count fl ->
  fl_slot fl' (fl_pos fl i)
  = if i =? d then Frame (take (Z.to_nat n) frame) b t else fl_slot fl (fl_pos fl i).
Proof.
  wf_facts W; intros Hi; pose proof (fl_pos_range fl i ltac:(lia)).
  unfold fl_slot; rewrite stored_type by done; simpl.
  rewrite !arr_set_arr by (rewrite ?(wf_content _ W), ?(wf_lens _ W), ?(wf_bits _ W),
    ?(wf_tss _ W); lia).
  rewrite !fl_pos_eqb by done.
  destruct (i =? d) eqn:E; [|done]; simpl; f_equal.
  unfold mem_copy; rewrite take_app_le, take_take by (rewrite length_take; lia).
  f_equal; lia.
Qed.

Lemma stored_win : win fl' = w_store (Z.to_nat d) (Frame (take (Z.to_nat n) frame) b t) (win fl).
Proof.
  wf_facts W; apply win_intro; change (fl_size fl') with (Z.max (fl_size fl) (d + 1)).
  - rewrite w_store_length, win_length; lia.
  - intros i Hi; rewrite w_store_lookup by (rewrite win_length; lia).
    change (fl_pos fl' (Z.of_nat i)) with (fl_pos fl (Z.of_nat i)).
    rewrite stored_slot by lia; rewrite win_length.
    destruct (Z.of_nat i =? d) eqn:E; bool_hyps; repeat case_decide; try lia; try done.
    + rewrite win_lookup by lia; done.
    + f_equal; symmetry; apply fl_slot_missing, (wf_outside _ W); lia.
Qed.

Lemma stored_wf : n <= fl_frame_size fl -> fl_origin fl + d <= seq_bound -> fl_wf fl'.
Proof.
  intros Hfit Hhigh; pose proof W as [Hmax Hfs Ht Hl Hb Hts Hc Hsl Hh Hsz Ho Hk He Hdc Hlo Hhi].
  constructor; simpl fl_max_count; simpl fl_frame_size; simpl fl_head; simpl fl_size;
    simpl fl_origin; simpl fl_bit_info; simpl fl_ts; simpl fl_content; try done; try lia;
    try (simpl; rewrite arr_set_length; done).
  - intros p Hp; rewrite arr_set_arr by lia.
    case_if; [|auto]; unfold mem_copy; rewrite length_app, length_take, length_drop.
    pose proof (Hsl _ Hpos); lia.
  - intros i Hi; change (fl_pos fl' i) with (fl_pos fl i); rewrite stored_type by lia.
    destruct (i =? d) eqn:E; bool_hyps; [lia|]; apply Ho; lia.
  - intros p Hp; destruct (pos_of fl W p Hp) as (i & Hi & ->); rewrite stored_type by lia.
    case_if; [by right; left|]; auto.
  - intros p Hp; destruct (pos_of fl W p Hp) as (i & Hi & ->); rewrite stored_type by lia.
    simpl; rewrite arr_set_arr by lia.
    rewrite fl_pos_eqb by done; destruct (i =? d) eqn:E; [done|]; auto.
  - change (fl_discarded_num fl') with (fl_discarded_num fl).
    rewrite stored_win, w_store_n_disc; [done|done|].
    intros x; apply (win_at_missing fl d); (done || lia).
Qed.
End Stored.

(** ** The window operation behind a PUT *)

(** Late and duplicate frames are refused.  A number far below the window is a
    restart of the sequence: the slots are renumbered to end just before it.  A
    frame past the capacity pushes out the oldest slots, one far past it
    empties the window. *)
Definition w_insert (d : Z) (s : slot) (w : window) : option window :=
  match w_slots w !! Z.to_nat d with
  | None | Some Missing => Some (Win (w_origin w) (w_store (Z.to_nat d) s (w_slots w)))
  | _ => None
  end.

Definition w_late (idx : Z) (w : window) : bool :=
  (idx <? w_origin w) && (w_origin w - idx <? MAX_MISORDER).

Definition w_place (idx : Z) (w : window) : window :=
  if w_len w =? 0 then Win idx []
  else if idx <? w_origin w then Win (idx - w_len w) (w_slots w) else w.

Definition w_put (max idx : Z) (s : slot) (w : window) : option window :=
  if w_late idx w then None
  else
    let w1 := w_place idx w in
    let d := idx - w_origin w1 in
    if d <? max then w_insert d s w1
    else if d >? MAX_DROPOUT then Some (Win idx [s])
    else let k := d - max + 1 in
         if k <? w_len w1
         then w_insert (max - 1) s (Win (w_origin w1 + k) (drop (Z.to_nat k) (w_slots w1)))
         else Some (Win idx [s]).

Lemma with_origin_spec fl o :
  fl_wf fl -> - seq_bound - fl_max_count fl <= o -> o + fl_size fl <= seq_bound + 1 ->
  fl_wf (with_origin o fl) /\ fl_window (with_origin o fl) = Win o (win fl).
Proof. intros [] ??; split; [constructor; done|done]. Qed.

Section Put.
Context (frame : list Z) (n b t : Z) (Hn : 0 <= n <= Z.of_nat (length frame)).
Let s := Frame (take (Z.to_nat n) frame) b t.

Lemma put_slot_spec fl idx d :
  fl_wf fl -> 0 <= d < fl_max_count fl -> idx = fl_origin fl + d -> seq_ok idx ->
  n <= fl_frame_size fl ->
  exists st fl', put_slot fl idx d frame n b t PJMEDIA_JB_NORMAL_FRAME = (st, fl')
    /\ fl_wf fl'
    /\ fl_max_count fl' = fl_max_count fl /\ fl_frame_size fl' = fl_frame_size fl
    /\ (st = PJ_SUCCESS /\ w_insert d s (fl_window fl) = Some (fl_window fl')
        \/ st = PJ_EEXISTS /\ w_insert d s (fl_window fl) = None /\ fl' = fl).
Proof.
  intros W Hd -> Hidx Hfit; wf_facts W; unfold seq_ok, seq_bound in *; unfold put_slot.
  rewrite (u32_small (fl_head fl + d)), (u32_small (d + 1)) by (unfold is_u32; lia).
  replace (s32 (fl_origin fl + s32 (fl_size fl))) with (fl_origin fl + fl_size fl) by int_lia.
  change ((fl_head fl + d) mod fl_max_count fl) with (fl_pos fl d).
  destruct (arr (fl_frame_type fl) (fl_pos fl d) =? PJMEDIA_JB_MISSING_FRAME) eqn:E;
    simpl negb; cbv iota; bool_hyps.
  - exists PJ_SUCCESS, (stored fl d frame n b t).
    split; [|split; [apply stored_wf; unfold seq_bound; (done || lia)|]].
    + unfold stored; do 2 f_equal; simpl; case_if; bool_hyps; lia.
    + split; [done|]; split; [done|]; left; split; [done|].
      unfold w_insert; simpl w_slots.
      pose proof (fun x => win_at_missing fl d x W (proj1 Hd) E) as Hm.
      unfold fl_window; rewrite stored_win by done; simpl.
      destruct (win fl !! Z.to_nat d) as [x|] eqn:Ex; [rewrite (Hm x) by done|]; done.
  - exists PJ_EEXISTS, fl; split; [done|]; split; [done|]; split; [done|]; split; [done|].
    right; split; [done|]; split; [|done].
    unfold w_insert; simpl w_slots.
    destruct (decide (d < fl_size fl)) as [Hlt|Hge].
    + rewrite win_lookup by lia; rewrite Z2Nat.id by lia.
      rewrite <- fl_slot_missing in E; destruct (fl_slot fl (fl_pos fl d)); done.
    + destruct E; apply (wf_outside _ W); lia.
Qed.

(** [put_at] before it knows the distance. *)
Lemma place_spec fl idx :
  fl_wf fl -> seq_ok idx -> w_late idx (fl_window fl) = false ->
  let fl1 := if idx <? fl_origin fl then with_origin (s32 (idx - fl_size fl)) fl else fl in
  let fl2 := if fl_size fl1 =? 0 then with_origin idx fl1 else fl1 in
  fl_wf fl2 /\ fl_window fl2 = w_place idx (fl_window fl)
  /\ fl_max_count fl2 = fl_max_count fl /\ fl_frame_size fl2 = fl_frame_size fl
  /\ fl_size fl2 = fl_size fl /\ 0 <= idx - fl_origin fl2
  /\ - seq_bound - fl_max_count fl <= fl_origin fl2.
Proof.
  intros W Hidx Hlate fl1 fl2; wf_facts W; unfold seq_ok, seq_bound in *.
  assert (Hp1 : fl_wf fl1 /\ fl_window fl1
    = (if idx <? fl_origin fl then Win (idx - fl_size fl) (win fl) else fl_window fl)
    /\ fl_size fl1 = fl_size fl /\ fl_max_count fl1 = fl_max_count fl
    /\ fl_frame_size fl1 = fl_frame_size fl
    /\ fl_origin fl1 = if idx <? fl_origin fl then idx - fl_size fl else fl_origin fl).
  { unfold fl1; destruct (idx <? fl_origin fl) eqn:E; bool_hyps; [|done].
    replace (s32 (idx - fl_size fl)) with (idx - fl_size fl) by int_lia.
    destruct (with_origin_spec fl (idx - fl_size fl) W) as [W1 E1];
      unfold seq_bound; try lia; done. }
  destruct Hp1 as (W1 & Ew1 & Es1 & Em1 & Ef1 & Eo1).
  unfold fl2, w_place; rewrite w_len_window by lia; rewrite Es1.
  destruct (fl_size fl =? 0) eqn:E0; bool_hyps.
  - destruct (with_origin_spec fl1 idx W1) as [W2 E2]; unfold seq_bound; try lia.
    split; [done|]; split; [|simpl; repeat split; lia].
    rewrite E2; f_equal; apply nil_length_inv; rewrite win_length; lia.
  - split; [done|]; split; [rewrite Ew1; done|].
    rewrite Eo1; destruct (idx <? fl_origin fl) eqn:E; bool_hyps; repeat split; lia.
Qed.

(** What [jb_framelist_put_at] answers. *)
Lemma put_at_spec fl idx :
  fl_wf fl -> seq_ok idx -> n <= fl_frame_size fl ->
  let w1 := w_place idx (fl_window fl) in
  let d := idx - w_origin w1 in
  exists st fl', jb_framelist_put_at fl idx frame n b t PJMEDIA_JB_NORMAL_FRAME = (st, fl')
    /\ fl_wf fl'
    /\ fl_max_count fl' = fl_max_count fl /\ fl_frame_size fl' = fl_frame_size fl
    /\ (if w_late idx (fl_window fl) then st = PJ_ETOOSMALL /\ fl' = fl
        else if d <? fl_max_count fl then
          st = PJ_SUCCESS /\ w_insert d s w1 = Some (fl_window fl')
          \/ st = PJ_EEXISTS /\ w_insert d s w1 = None /\ fl_window fl' = w1
        else if d >? MAX_DROPOUT then st = PJ_SUCCESS /\ fl_window fl' = Win idx [s]
        else st = PJ_ETOOMANY /\ fl_window fl' = w1).
Proof.
  intros W Hidx Hfit w1 d; pose proof Hidx as Hseq; wf_facts W; unfold seq_ok, seq_bound in Hidx.
  unfold jb_framelist_put_at; rewrite Z.gtb_ltb.
  destruct (fl_frame_size fl <? n) eqn:Ef; bool_hyps; [lia|].
  replace (s32 (fl_origin fl - idx)) with (fl_origin fl - idx) by int_lia.
  change ((idx <? fl_origin fl) && (fl_origin fl - idx <? MAX_MISORDER))
    with (w_late idx (fl_window fl)).
  destruct (w_late idx (fl_window fl)) eqn:El;
    [exists PJ_ETOOSMALL, fl; done|].
  destruct (place_spec fl idx W Hseq El) as (W2 & Ew2 & Em2 & Ef2 & Es2 & Hd & Hlow).
  set (fl2 := if fl_size (if idx <? fl_origin fl then _ else fl) =? 0 then _ else _) in *.
  unfold seq_bound in *.
  assert (Eo : w_origin w1 = fl_origin fl2) by (unfold w1; rewrite <- Ew2; done).
  unfold d; rewrite Eo.
  replace (s32 (idx - fl_origin fl2)) with (idx - fl_origin fl2) by int_lia.
  replace (s32 (fl_max_count fl2)) with (fl_max_count fl) by int_lia.
  destruct (idx - fl_origin fl2 <? fl_max_count fl) eqn:E1; bool_hyps.
  - replace (idx - fl_origin fl2 >=? fl_max_count fl) with false by lia.
    destruct (put_slot_spec fl2 idx (idx - fl_origin fl2) W2 ltac:(lia) ltac:(lia) Hseq
      ltac:(lia)) as (st & fl' & Ep & W3 & Em3 & Ef3 & Hres).
    exists st, fl'; rewrite Em2, Ef2, Ew2 in *; split; [done|]; split; [done|].
    split; [done|]; split; [done|].
    destruct Hres as [[-> ?]|(-> & ? & ->)]; [by left|right; done].
  - replace (idx - fl_origin fl2 >=? fl_max_count fl) with true by lia.
    destruct (idx - fl_origin fl2 >? MAX_DROPOUT) eqn:E2; [|exists PJ_ETOOMANY, fl2; done].
    destruct (reset_spec fl2 idx (wf_shape _ W2) Hseq) as [W3 E3].
    set (fl3 := with_origin idx (jb_framelist_reset fl2)) in *.
    destruct (put_slot_spec fl3 idx 0 W3) as (st & fl' & Ep & W4 & Em4 & Ef4 & Hres);
      simpl; try done; try lia.
    exists st, fl'; rewrite Ep; split; [done|]; split; [done|].
    split; [rewrite Em4; exact Em2|]; split; [rewrite Ef4; exact Ef2|].
    rewrite E3 in Hres; change (w_insert 0 s (Win idx [])) with (Some (Win idx [s])) in Hres.
    destruct Hres as [[-> Hw]|(_ & Hw & _)]; [|done]; split; [done|congruence].
Qed.
End Put.
