(* ===== verification/JbufWindow.v ===== *)
(** * The jitter buffer implements a window of frames

    The operations of [Jbuf] that change the frames, against the operations of
    [JbufRing] on windows: the loop that makes room for a frame, the discard of
    a slot, peeking and removal.  Then the whole jitter buffer: its invariant,
    and that every PUT and GET is a PUT and GET of the window followed by at
    most one discard. *)

From Stdlib Require Import ZArith Lia Bool.
From stdpp Require Import base list numbers option.
From S2P Require Import Prelude Jbuf JbufRing.
Local Open Scope Z_scope.

(** ** Making room *)

Lemma w_place_nonempty idx w : w_len w <> 0 -> w_len (w_place idx w) = w_len w.
Proof.
  intros H; unfold w_place; destruct (w_len w =? 0) eqn:E; bool_hyps; [done|].
  case_if; done.
Qed.

Lemma w_place_origin idx w : w_late idx w = false -> w_origin (w_place idx w) <= idx.
Proof.
  intros H; unfold w_place, w_len; destruct (_ =? 0); simpl; [lia|].
  destruct (idx <? w_origin w) eqn:E; bool_hyps; simpl; lia.
Qed.

(** Inserting past the last slot never meets a frame. *)
Lemma w_insert_past d s w : w_len w <= d ->
  w_insert d s w = Some (Win (w_origin w) (w_store (Z.to_nat d) s (w_slots w))).
Proof.
  intros Hd; unfold w_insert, w_len in *.
  rewrite lookup_ge_None_2 by lia; done.
Qed.

Section PutLoop.
Context (frame : list Z) (n b t : Z) (Hn : 0 <= n <= Z.of_nat (length frame)).
Let s := Frame (take (Z.to_nat n) frame) b t.

(** One round of the loop makes the frame fit. *)
Lemma make_room_round fl idx :
  fl_wf fl -> seq_ok idx -> n <= fl_frame_size fl ->
  fl_max_count fl <= idx - fl_origin fl <= MAX_DROPOUT -> 0 < fl_size fl ->
  let k := idx - fl_origin fl - fl_max_count fl + 1 in
  exists removed fl1 fl2,
    jb_framelist_remove_head fl (u32 (s32 (idx - fl_origin fl) - s32 (fl_max_count fl) + 1))
    = (removed, fl1)
    /\ jb_framelist_put_at fl1 idx frame n b t PJMEDIA_JB_NORMAL_FRAME = (PJ_SUCCESS, fl2)
    /\ fl_wf fl2
    /\ fl_max_count fl2 = fl_max_count fl /\ fl_frame_size fl2 = fl_frame_size fl
    /\ (if k <? fl_size fl
        then w_insert (fl_max_count fl - 1) s
               (Win (fl_origin fl + k) (drop (Z.to_nat k) (win fl))) = Some (fl_window fl2)
        else fl_window fl2 = Win idx [s]).
Proof.
  intros W Hidx Hfit Hd Hsz k; wf_facts W; unfold MAX_DROPOUT in *.
  replace (u32 (s32 (idx - fl_origin fl) - s32 (fl_max_count fl) + 1)) with k by int_lia.
  destruct (remove_head_spec fl k W ltac:(lia)) as (fl1 & Er & W1 & Em1 & Ef1 & Ew1).
  destruct (put_at_spec frame n b t Hn fl1 idx W1 Hidx ltac:(lia))
    as (st & fl2 & Ep & W2 & Em2 & Ef2 & Hres).
  exists (Z.min k (fl_size fl)), fl1, fl2; split; [done|].
  assert (Hlate : w_late idx (fl_window fl1) = false).
  { rewrite Ew1; unfold w_late; simpl.
    destruct (idx <? fl_origin fl + Z.min k (fl_size fl)) eqn:E; bool_hyps; [lia|done]. }
  rewrite Hlate, Em1 in Hres; rewrite Em1 in Em2; rewrite Ef1 in Ef2; clear Hlate.
  set (w1 := fl_window fl1) in *.
  assert (Hlen : w_len w1 = fl_size fl - Z.min k (fl_size fl)).
  { rewrite Ew1; unfold w_len; simpl; rewrite length_drop, win_length; lia. }
  destruct (k <? fl_size fl) eqn:Ek; bool_hyps.
  - rewrite Z.min_l in * by lia.
    assert (Ew : w_place idx w1 = w1).
    { unfold w_place; destruct (w_len w1 =? 0) eqn:E; bool_hyps; [lia|].
      rewrite Ew1; simpl; case_if; bool_hyps; [lia|done]. }
    assert (Eo : w_origin w1 = fl_origin fl + k) by (rewrite Ew1; done).
    rewrite Ew, Eo in Hres; rewrite <- Ew1; replace (idx - (fl_origin fl + k)) with (fl_max_count fl - 1) in Hres by lia.
    destruct (fl_max_count fl - 1 <? fl_max_count fl) eqn:E; bool_hyps; [|lia].
    destruct Hres as [[-> Hw]|(-> & Hw & _)]; [done|].
    rewrite w_insert_past in Hw; [done|]; lia.
  - rewrite Z.min_r in * by lia.
    assert (Ew : w_place idx w1 = Win idx [])
      by (unfold w_place; rewrite Hlen; replace (_ - _) with 0 by lia; done).
    rewrite Ew in Hres; simpl w_origin in Hres; replace (idx - idx) with 0 in Hres by lia.
    destruct (0 <? fl_max_count fl) eqn:E; bool_hyps; [|lia].
    change (w_insert 0 _ (Win idx [])) with (Some (Win idx [s])) in Hres.
    destruct Hres as [[-> Hw]|(_ & Hw & _)]; [|done].
    split; [done|]; split; [done|]; split; [done|]; split; [done|]; congruence.
Qed.

(** The attempt to store a frame, with the loop that follows it. *)
Lemma put_loop_spec fl idx discard :
  fl_wf fl -> seq_ok idx -> n <= fl_frame_size fl ->
  exists st0 fl0 st fl' discard',
    jb_framelist_put_at fl idx frame n b t PJMEDIA_JB_NORMAL_FRAME = (st0, fl0)
    /\ make_room 2 (fl_max_count fl) st0 fl0 discard frame n b idx t = Some (st, fl', discard')
    /\ fl_wf fl'
    /\ fl_max_count fl' = fl_max_count fl /\ fl_frame_size fl' = fl_frame_size fl
    /\ match w_put (fl_max_count fl) idx s (fl_window fl) with
       | Some w => st = PJ_SUCCESS /\ fl_window fl' = w
       | None => st <> PJ_SUCCESS /\ fl_window fl' = fl_window fl
       end.
Proof.
  intros W Hidx Hfit; wf_facts W.
  destruct (put_at_spec frame n b t Hn fl idx W Hidx Hfit)
    as (st & fl1 & Ep & W1 & Em1 & Ef1 & Hres).
  exists st, fl1; unfold w_put; fold s in Hres.
  pose proof (w_place_origin idx (fl_window fl)) as Ho.
  destruct (w_late idx (fl_window fl)) eqn:El.
  { destruct Hres as [-> ->]; exists PJ_ETOOSMALL, fl, discard; done. }
  specialize (Ho eq_refl); set (w1 := w_place idx (fl_window fl)) in *.
  destruct (idx - w_origin w1 <? fl_max_count fl) eqn:Ed.
  { destruct Hres as [[-> Hw]|(-> & Hw & Ew)].
    - exists PJ_SUCCESS, fl1, discard; rewrite Hw; done.
    - exists PJ_EEXISTS, fl1, discard; rewrite Hw.
      assert (Hsame : w1 = fl_window fl); [|rewrite <- Hsame; done].
      unfold w1, w_place in *; rewrite w_len_window in * by lia.
      destruct (fl_size fl =? 0) eqn:E0; [done|].
      destruct (idx <? w_origin (fl_window fl)) eqn:E1; [|done].
      rewrite w_insert_past in Hw; [done|]; simpl in Hw |- *; unfold w_len; simpl.
      rewrite win_length; lia. }
  destruct (idx - w_origin w1 >? MAX_DROPOUT) eqn:Ef.
  { destruct Hres as [-> Hw]; exists PJ_SUCCESS, fl1, discard; done. }
  destruct Hres as [-> Ew]; bool_hyps.
  assert (Eo : w_origin w1 = fl_origin fl1) by (rewrite <- Ew; done); rewrite Eo in *.
  assert (Hz : 0 < fl_size fl1).
  { rewrite <- (w_len_window fl1), Ew by apply wf_size, W1.
    destruct (decide (w_len (fl_window fl) = 0)) as [Hz|Hz].
    - revert Eo; unfold w1, w_place; rewrite Hz; simpl; lia.
    - unfold w1; rewrite w_place_nonempty by done.
      rewrite w_len_window in Hz |- * by lia; lia. }
  rewrite Z.gtb_ltb in Ef; bool_hyps.
  destruct (make_room_round fl1 idx W1 Hidx) as (removed & fl2 & fl3 & Er & Ep2 & W3 & Em3 & Ef3 & Hw);
    [lia|lia|done|].
  exists PJ_SUCCESS, fl3, (u32 (discard + removed)); split; [done|].
  split; [unfold make_room; simpl; unfold jb_framelist_origin; rewrite <- Em1, Er, Ep2; done|].
  split; [done|]; split; [congruence|]; split; [congruence|].
  rewrite <- Ew, w_len_window, <- Em1 by apply wf_size, W1.
  destruct (_ <? fl_size fl1).
  - change (w_origin (fl_window fl1)) with (fl_origin fl1) in *; simpl w_slots; rewrite Hw; done.
  - done.
Qed.
End PutLoop.

(** ** Discarding a slot *)

Definition w_discard (idx : Z) (w : window) : window :=
  Win (w_origin w) (<[Z.to_nat (idx - w_origin w) := Discarded]> (w_slots w)).

(** A slot that is not discarded yet can be: the slot is skipped by later
    operations and counted once. *)
Lemma discard_spec fl idx :
  fl_wf fl -> fl_origin fl <= idx < fl_origin fl + fl_size fl ->
  win fl !! Z.to_nat (idx - fl_origin fl) <> Some Discarded ->
  exists fl', jb_framelist_discard fl idx = (PJ_SUCCESS, fl')
    /\ fl_wf fl'
    /\ fl_max_count fl' = fl_max_count fl /\ fl_frame_size fl' = fl_frame_size fl
    /\ fl_window fl' = w_discard idx (fl_window fl).
Proof.
  intros W Hidx Hnd; wf_facts W; unfold jb_framelist_discard.
  replace (s32 (fl_origin fl + s32 (fl_size fl))) with (fl_origin fl + fl_size fl) by int_lia.
  replace (s32 (idx - fl_origin fl)) with (idx - fl_origin fl) by int_lia.
  replace ((idx >=? fl_origin fl) && (idx <? fl_origin fl + fl_size fl)) with true by lia.
  simpl negb; cbv iota.
  set (d := idx - fl_origin fl) in *.
  rewrite (u32_small (fl_head fl + d)), (u32_small (fl_discarded_num fl + 1))
    by (unfold is_u32; lia).
  change ((fl_head fl + d) mod fl_max_count fl) with (fl_pos fl d).
  eexists; split; [reflexivity|].
  set (fl' := mk_fl _ _ _ _ _ _ _ _ _ _ _).
  assert (Ht : forall i, 0 <= i < fl_max_count fl ->
    arr (fl_frame_type fl') (fl_pos fl i)
    = if i =? d then PJMEDIA_JB_DISCARDED_FRAME else arr (fl_frame_type fl) (fl_pos fl i)).
  { intros i Hi; simpl; pose proof (fl_pos_range fl i); pose proof (fl_pos_range fl d).
    rewrite arr_set_arr by (rewrite ?(wf_types _ W); lia).
    rewrite fl_pos_eqb by (done || lia); done. }
  assert (Hw : win fl' = <[Z.to_nat d := Discarded]> (win fl)).
  { apply win_intro; [rewrite length_insert, win_length; simpl; lia|].
    intros i Hi; simpl in Hi; change (fl_pos fl' (Z.of_nat i)) with (fl_pos fl (Z.of_nat i)).
    assert (Hs : fl_slot fl' (fl_pos fl (Z.of_nat i))
      = if Z.of_nat i =? d then Discarded else fl_slot fl (fl_pos fl (Z.of_nat i))).
    { unfold fl_slot; rewrite Ht by lia; destruct (_ =? d); done. }
    rewrite Hs; destruct (Z.of_nat i =? d) eqn:E; bool_hyps.
    - rewrite <- E, Nat2Z.id; apply list_lookup_insert_eq; rewrite win_length; lia.
    - rewrite list_lookup_insert_ne, win_lookup by lia; done. }
  split; [|split; [done|]; split; [done|]; unfold fl_window, w_discard; rewrite Hw; done].
  pose proof W as [Hmax Hfs Htl Hl Hb Hts Hc Hsl Hh Hsz Ho Hk He Hd Hlo Hhi].
  constructor; try done.
  - simpl; rewrite arr_set_length; done.
  - intros i Hi; change (fl_pos fl' i) with (fl_pos fl i); change (fl_size fl') with (fl_size fl) in Hi;
      change (fl_max_count fl') with (fl_max_count fl) in Hi; rewrite Ht by lia.
    destruct (i =? d) eqn:E; bool_hyps; [lia|auto].
  - intros p Hp; destruct (pos_of fl W p Hp) as (i & Hi & ->); rewrite Ht by lia.
    case_if; [by right; right|auto].
  - intros p Hp; destruct (pos_of fl W p Hp) as (i & Hi & ->); rewrite Ht by lia.
    case_if; [done|apply He; done].
  - simpl fl_discarded_num; rewrite Hw.
    destruct (lookup_lt_is_Some_2 (win fl) (Z.to_nat d)) as [s Es]; [rewrite win_length; lia|].
    rewrite (n_disc_insert _ _ s) by done; rewrite Es in Hnd.
    rewrite (bool_decide_eq_false_2 (s = Discarded)) by congruence.
    rewrite bool_decide_eq_true_2 by done; lia.
Qed.

(** ** Removing frames *)

(** The number of slots from the head that hold [c] frames, discarded slots not
    counted. *)
Fixpoint w_cut (c : nat) (l : list slot) : nat :=
  match l with
  | [] => O
  | s :: l' =>
      match c with
      | O => O
      | S c' => S (w_cut (if decide (s = Discarded) then c else c') l')
      end
  end.

Lemma w_cut_0 l : w_cut 0 l = O.
Proof. destruct l; done. Qed.

(** Removing in batches: first [c] slots, then one more for each discarded slot
    among them. *)
Lemma w_cut_batch c e l :
  w_cut (c + e) l
  = (Nat.min c (length l)
     + w_cut (Z.to_nat (n_disc (take c l)) + e) (drop c l))%nat.
Proof.
  revert c e; induction l as [|s l IH]; intros [|c] e; try done.
  simpl; rewrite n_disc_cons; pose proof (n_disc_range (take c l)).
  destruct (decide (s = Discarded)) as [->|Hs].
  - rewrite bool_decide_eq_true_2 by done.
    replace (S (c + e)) with (c + S e)%nat by lia; rewrite IH.
    do 3 f_equal; lia.
  - rewrite bool_decide_eq_false_2 by done; rewrite IH; do 3 f_equal; lia.
Qed.

(** The frames among the first [k] slots. *)
Definition n_kept (l : list slot) : Z := Z.of_nat (length l) - n_disc l.

Lemma n_kept_app l k : n_kept (l ++ k) = n_kept l + n_kept k.
Proof. unfold n_kept; rewrite n_disc_app, length_app; lia. Qed.

Lemma n_kept_cons s l : n_kept (s :: l) = n_kept [s] + n_kept l.
Proof. apply (n_kept_app [s] l). Qed.

Lemma n_kept_cut c l : n_kept (take (w_cut c l) l) = Z.min (Z.of_nat c) (n_kept l).
Proof.
  revert c; induction l as [|s l IH]; intros [|c]; try done.
  - simpl; unfold n_kept; rewrite n_disc_cons; pose proof (n_disc_range l).
    simpl length; unfold n_disc at 1; simpl; case_bool_decide; lia.
  - simpl; rewrite (n_kept_cons s (take _ l)), (n_kept_cons s l), IH.
    destruct (decide (s = Discarded)) as [->|Hs].
    + change (n_kept [Discarded]) with 0; lia.
    + assert (Hk : n_kept [s] = 1)
        by (unfold n_kept; rewrite n_disc_cons, bool_decide_eq_false_2 by done; done).
      rewrite Hk; lia.
Qed.

Lemma w_cut_length c l : (w_cut c l <= length l)%nat.
Proof. revert c; induction l as [|s l IH]; intros [|c]; simpl; try lia; apply le_n_S, IH. Qed.

(** One batch, and what is left for the next. *)
Lemma remove_batch fl c :
  fl_wf fl -> 0 <= c < 4294967296 ->
  let l := win fl in
  let d := n_disc (take (Z.to_nat c) l) in
  exists fl1, jb_framelist_remove_head fl c = (Z.min c (fl_size fl), fl1)
    /\ fl_wf fl1
    /\ fl_max_count fl1 = fl_max_count fl /\ fl_frame_size fl1 = fl_frame_size fl
    /\ fl_origin fl1 = fl_origin fl + Z.min c (fl_size fl)
    /\ fl_discarded_num fl = fl_discarded_num fl1 + d
    /\ 0 <= d <= Z.min c (fl_size fl)
    /\ let k := w_cut (Z.to_nat c) l in
       let k1 := w_cut (Z.to_nat d) (win fl1) in
       Z.of_nat k = Z.min c (fl_size fl) + Z.of_nat k1
       /\ drop k l = drop k1 (win fl1)
       /\ n_kept (take k l) = Z.min c (fl_size fl) - d + n_kept (take k1 (win fl1)).
Proof.
  intros W Hc l d; wf_facts W; set (n := Z.to_nat c).
  destruct (remove_head_spec fl c W ltac:(lia)) as (fl1 & Er & W1 & Em1 & Ef1 & Ew1).
  exists fl1; injection Ew1 as Eo1 Ew1.
  assert (Hmin : Nat.min n (length l) = Z.to_nat (Z.min c (fl_size fl)))
    by (unfold l; rewrite win_length; lia).
  assert (Hdrop : win fl1 = drop n l).
  { rewrite Ew1, <- Hmin; destruct (decide (n <= length l)%nat);
      [rewrite Nat.min_l by lia; done|].
    rewrite Nat.min_r, !drop_ge by (fold l; lia); done. }
  assert (Hcut : w_cut n l = (Nat.min n (length l) + w_cut (Z.to_nat d) (win fl1))%nat).
  { pose proof (w_cut_batch n 0 l) as Hb; rewrite !Nat.add_0_r in Hb; rewrite Hb, Hdrop; done. }
  pose proof (n_disc_take_drop n l) as Hsum.
  pose proof (n_disc_range (take n l)) as Hr; rewrite length_take in Hr.
  split; [done|]; split; [done|]; split; [done|]; split; [done|]; split; [done|].
  split; [rewrite (wf_disc _ W1), (wf_disc _ W), Hdrop; unfold d; fold n l; lia|].
  split; [unfold d; fold n; lia|].
  assert (Htake : take (w_cut n l) l = take n l ++ take (w_cut (Z.to_nat d) (win fl1)) (win fl1)).
  { rewrite Hcut; destruct (decide (n <= length l)%nat).
    - rewrite Nat.min_l, Hdrop, <- take_take_drop by lia; done.
    - rewrite Nat.min_r, Hdrop, (drop_ge l n), take_nil, app_nil_r, !take_ge by lia; done. }
  split; [rewrite Hcut; lia|]; split.
  - rewrite Hcut; destruct (decide (n <= length l)%nat).
    + rewrite Nat.min_l, Hdrop, drop_drop by lia; done.
    + rewrite Hdrop, (drop_ge l n), drop_nil by lia; apply drop_ge; lia.
  - rewrite Htake, n_kept_app; unfold n_kept at 1; rewrite length_take; change d with (n_disc (take n l)); lia.
Qed.

(** The loop of [pjmedia_jbuf_remove_frame]: [d] is the number of discarded
    slots in the batch before. *)
Lemma remove_more_spec fuel fl d count :
  fl_wf fl -> is_u32 count -> 0 <= d < 4294967296 ->
  (0 < d -> fl_discarded_num fl < Z.of_nat fuel) ->
  let k := w_cut (Z.to_nat d) (win fl) in
  exists fl', remove_more fuel fl (fl_discarded_num fl + d) count
              = Some (u32 (count - d + n_kept (take k (win fl))), fl')
    /\ fl_wf fl'
    /\ fl_max_count fl' = fl_max_count fl /\ fl_frame_size fl' = fl_frame_size fl
    /\ fl_window fl' = Win (fl_origin fl + Z.of_nat k) (drop k (win fl)).
Proof.
  revert fl d count; induction fuel as [|fuel IH]; intros fl d count W Hc Hd Hf k;
    (destruct (decide (d = 0)) as [->|Hpos];
     [exists fl; unfold k; rewrite w_cut_0, take_0, drop_0; change (n_kept []) with 0;
      rewrite Z.add_0_r, Z.sub_0_r, Z.add_0_r, u32_small by done;
      split; [|unfold fl_window; rewrite Z.add_0_r; done];
      simpl; rewrite Z.ltb_irrefl; done|]).
  { wf_facts W; lia. }
  simpl; replace (fl_discarded_num fl <? fl_discarded_num fl + d) with true by lia.
  replace (fl_discarded_num fl + d - fl_discarded_num fl) with d by lia.
  wf_facts W; specialize (Hf ltac:(lia)).
  destruct (remove_batch fl d W ltac:(lia))
    as (fl1 & Er & W1 & Em1 & Ef1 & Eo1 & Hnum & Hdisc & Hk & Hdrop & Hkept).
  rewrite Er; set (d1 := n_disc (take (Z.to_nat d) (win fl))) in *; pose proof (n_disc_win_range _ W1); pose proof (wf_disc _ W1).
  destruct (IH fl1 d1 (u32 (u32 (count - d) + Z.min d (fl_size fl))) W1 (u32_range _))
    as (fl2 & E2 & W2 & Em2 & Ef2 & Ew2); [lia|intros; lia|].
  exists fl2; rewrite Hnum, E2; split; [unfold k; rewrite Hkept; do 2 f_equal; int_lia|].
  split; [done|]; split; [congruence|]; split; [congruence|].
  rewrite Ew2, Eo1; unfold k; rewrite Hdrop, Hk; f_equal; lia.
Qed.

(** Removing [c] frames takes the oldest [c] that are not discarded, with the
    discarded slots between them, and reports how many there were. *)
Lemma remove_frame_window jb c :
  fl_wf (jb_framelist jb) -> 0 <= c < 4294967296 ->
  let l := win (jb_framelist jb) in
  let k := w_cut (Z.to_nat c) l in
  exists fl', pjmedia_jbuf_remove_frame jb c
              = Some (Z.min c (n_kept l), jb <| jb_framelist := fl' |>)
    /\ fl_wf fl'
    /\ fl_max_count fl' = fl_max_count (jb_framelist jb)
    /\ fl_frame_size fl' = fl_frame_size (jb_framelist jb)
    /\ fl_window fl' = Win (fl_origin (jb_framelist jb) + Z.of_nat k) (drop k l).
Proof.
  intros W Hc l k; unfold pjmedia_jbuf_remove_frame; wf_facts W.
  destruct (remove_batch _ c W Hc)
    as (fl1 & Er & W1 & Em1 & Ef1 & Eo1 & Hnum & Hdisc & Hk & Hdrop & Hkept).
  rewrite Er; fold l in Hnum, Hdisc, Hk, Hdrop, Hkept; fold k in Hk, Hdrop, Hkept.
  pose proof (n_disc_win_range _ W1); pose proof (wf_disc _ W1).
  destruct (remove_more_spec (S (Z.to_nat (fl_discarded_num (jb_framelist jb)))) fl1
    (n_disc (take (Z.to_nat c) l)) (Z.min c (fl_size (jb_framelist jb))) W1)
    as (fl2 & E2 & W2 & Em2 & Ef2 & Ew2); [unfold is_u32; lia|lia|intros; lia|].
  exists fl2; rewrite Hnum in E2 |- *; rewrite E2.
  pose proof (n_kept_cut (Z.to_nat c) l) as Hcut; fold k in Hcut; rewrite Hkept in Hcut.
  assert (Hl : 0 <= n_kept l <= fl_size (jb_framelist jb)).
  { unfold n_kept; pose proof (n_disc_range l); unfold l in *; rewrite win_length in *; lia. }
  rewrite Hcut, Z2Nat.id, u32_small by (unfold is_u32; lia).
  split; [done|]; split; [done|]; split; [congruence|]; split; [congruence|].
  rewrite Ew2, Eo1, Hdrop, Hk; f_equal; lia.
Qed.

(** ** Peeking *)

(** The frames a reader will meet: the slots that are not discarded. *)
Definition w_live (l : list slot) : list slot := filter (fun s => s <> Discarded) l.

Lemma w_live_length l : Z.of_nat (length (w_live l)) = n_kept l.
Proof.
  unfold n_kept; induction l as [|s l IH]; [done|].
  unfold w_live in *; rewrite list.filter_cons, n_disc_cons; simpl.
  case_decide; case_bool_decide; simpl; lia || done.
Qed.

Lemma peek_pos_spec fuel fl (j idx : nat) s :
  fl_wf fl -> w_live (drop j (win fl)) !! idx = Some s ->
  (length (win fl) <= fuel + j)%nat ->
  exists i : nat, peek_pos fuel fl (fl_pos fl (Z.of_nat j)) (Z.of_nat idx)
                  = Some (fl_pos fl (Z.of_nat i))
    /\ win fl !! i = Some s.
Proof.
  revert j idx; induction fuel as [|fuel IH]; intros j idx W Hs Hf.
  { rewrite drop_ge in Hs by lia; done. }
  wf_facts W; destruct (win fl !! j) as [x|] eqn:Ex;
    [|rewrite drop_ge in Hs by (apply lookup_ge_None_1; done); done].
  rewrite (drop_S _ x) in Hs by done.
  pose proof (lookup_lt_Some _ _ _ Ex) as Hj; rewrite win_length in Hj.
  assert (Hx : x = fl_slot fl (fl_pos fl (Z.of_nat j)))
    by (rewrite win_lookup in Ex by lia; congruence).
  pose proof (fl_pos_range fl (Z.of_nat j) ltac:(lia)) as Hp.
  assert (Hn : u32 (fl_pos fl (Z.of_nat j) + 1) mod fl_max_count fl = fl_pos fl (Z.of_nat (S j))).
  { rewrite u32_small by (unfold is_u32; lia); unfold fl_pos.
    change ((ring_pos ?m ?h ?i + 1) mod ?m') with (ring_pos m' (ring_pos m h i) 1).
    rewrite ring_pos_shift; f_equal; lia. }
  unfold peek_pos; fold peek_pos; rewrite Hn; unfold w_live in Hs; rewrite list.filter_cons in Hs.
  destruct (arr (fl_frame_type fl) (fl_pos fl (Z.of_nat j)) =? PJMEDIA_JB_DISCARDED_FRAME) eqn:E;
    simpl negb; cbv iota; bool_hyps.
  - apply fl_slot_discarded in E; rewrite <- Hx in E.
    rewrite decide_False in Hs by (intros []; done).
    apply (IH (S j) idx); first [done | lia].
  - rewrite <- fl_slot_discarded, <- Hx in E; rewrite decide_True in Hs by done.
    destruct idx as [|idx]; simpl in Hs.
    + injection Hs as ->; exists j; done.
    + destruct (Z.of_nat (S idx) =? 0) eqn:Ez; bool_hyps; [lia|].
      replace (Z.of_nat (S idx) - 1) with (Z.of_nat idx) by lia.
      apply (IH (S j) idx); first [done | lia].
Qed.

(** Peeking at [offset] shows the frame the reader meets after [offset] others;
    its sequence number is computed as if no slot had been discarded. *)
Lemma peek_spec fl offset :
  fl_wf fl -> 0 <= offset < 4294967296 ->
  match w_live (win fl) !! Z.to_nat offset with
  | None => jb_framelist_peek fl offset = Some None
  | Some s => exists o, jb_framelist_peek fl offset = Some (Some o)
                /\ out_slot o = s /\ out_seq o = Some (fl_origin fl + offset)
  end.
Proof.
  intros W Ho; wf_facts W; unfold jb_framelist_peek, jb_framelist_eff_size.
  pose proof (w_live_length (win fl)) as Hl; unfold n_kept in Hl; rewrite win_length in Hl.
  rewrite (wf_disc _ W), u32_small by (unfold is_u32; lia).
  destruct (w_live (win fl) !! Z.to_nat offset) as [s|] eqn:Es.
  - pose proof (lookup_lt_Some _ _ _ Es).
    replace (offset >=? fl_size fl - n_disc (win fl)) with false by lia.
    destruct (peek_pos_spec (Z.to_nat (fl_max_count fl * (offset + 1))) fl 0 (Z.to_nat offset) s W)
      as (i & Ep & Ei); [done|rewrite win_length; nia|].
    rewrite Z2Nat.id in Ep by lia.
    replace (fl_pos fl (Z.of_nat 0)) with (fl_head fl) in Ep
      by (unfold fl_pos, ring_pos; simpl; rewrite Z.add_0_r, Z.mod_small; lia).
    rewrite Ep; simpl; eexists; split; [reflexivity|]; split; [|simpl; f_equal; int_lia].
    pose proof (lookup_lt_Some _ _ _ Ei) as Hi; rewrite win_length in Hi.
    rewrite win_lookup in Ei by lia; injection Ei as <-.
    apply list_elem_of_lookup_2, list_elem_of_filter in Es as [Hnd _].
    unfold out_slot; simpl; unfold fl_slot in *.
    destruct (wf_kinds _ W (fl_pos fl (Z.of_nat i)) (fl_pos_range fl (Z.of_nat i) ltac:(lia)))
      as [E|[E|E]]; rewrite E in *; done.
  - apply lookup_ge_None_1 in Es.
    replace (offset >=? fl_size fl - n_disc (win fl)) with true by lia; done.
Qed.
