(* ===== verification/JbufSpec.v ===== *)
(** * What the jitter buffer promises

    The invariant of the whole jitter buffer and the refinement of its PUT and
    GET to the window operations of [JbufRing]; sequences of operations and
    what a reader gets from them. *)

From Stdlib Require Import ZArith Lia Bool Sorted.
From stdpp Require Import base list numbers option sorting.
From S2P Require Import Prelude Jbuf JbufRing JbufWindow.
Local Open Scope Z_scope.

(** ** Slots by sequence number *)

Definition at_seq (w : window) (x : Z) (s : slot) : Prop :=
  exists i : nat, w_slots w !! i = Some s /\ x = w_origin w + Z.of_nat i.

Definition w_last (w : window) : Z := w_origin w + w_len w - 1.

Lemma at_seq_range w x s : at_seq w x s -> w_origin w <= x <= w_last w.
Proof.
  intros (i & Hi & ->); pose proof (lookup_lt_Some _ _ _ Hi); unfold w_last, w_len; lia.
Qed.

Lemma at_drop o l (k : nat) x s :
  at_seq (Win (o + Z.of_nat k) (drop k l)) x s -> at_seq (Win o l) x s.
Proof.
  intros (i & Hi & ->); simpl in *; rewrite lookup_drop in Hi.
  exists (k + i)%nat; simpl; split; [done|lia].
Qed.

Lemma at_store o l (d : nat) t x s :
  at_seq (Win o (w_store d t l)) x s ->
  s = Missing \/ x = o + Z.of_nat d /\ s = t \/ at_seq (Win o l) x s.
Proof.
  intros (i & Hi & ->); simpl in *; pose proof (lookup_lt_Some _ _ _ Hi) as Hlt.
  rewrite w_store_length in Hlt; rewrite w_store_lookup in Hi by lia.
  repeat case_decide; simplify_eq; [by right; left| |by left].
  right; right; exists i; done.
Qed.

Lemma at_nil o x s : ~ at_seq (Win o []) x s.
Proof. intros (i & Hi & _); done. Qed.

Lemma at_single o t x s : at_seq (Win o [t]) x s -> x = o /\ s = t.
Proof. intros ([|i] & Hi & ->); simpl in *; simplify_eq; split; [lia|done]. Qed.

(** *** A PUT *)

Lemma w_insert_inv d s w w' : w_insert d s w = Some w' ->
  w' = Win (w_origin w) (w_store (Z.to_nat d) s (w_slots w)).
Proof. unfold w_insert; destruct (_ !! _) as [[]|]; intros; simplify_eq; done. Qed.

Lemma w_insert_at d s w w' x t :
  0 <= d -> w_insert d s w = Some w' -> at_seq w' x t ->
  t = Missing \/ x = w_origin w + d /\ t = s \/ at_seq w x t.
Proof.
  intros Hd ->%w_insert_inv Ht.
  destruct (at_store _ _ _ _ _ _ Ht) as [|[[-> ->]|Ht']]; auto.
  right; left; split; [lia|done].
Qed.

(** Where the slots of the window after a PUT come from: only a restart of the
    sequence renumbers them, downwards. *)
Lemma w_put_at max idx s w w' x t :
  w_put max idx s w = Some w' -> at_seq w' x t -> 0 < max ->
  t = Missing \/ x = idx /\ t = s
  \/ exists y, at_seq w y t /\ x <= y /\ (w_origin w <= idx -> y = x).
Proof.
  unfold w_put; intros Hput Ht Hmax.
  destruct (w_late idx w) eqn:El; [done|].
  pose proof (w_place_origin idx w El) as Ho.
  assert (Hplace : forall y u, at_seq (w_place idx w) y u ->
    exists z, at_seq w z u /\ y <= z /\ (w_origin w <= idx -> z = y)).
  { intros y u; unfold w_place; destruct (w_len w =? 0); [intros []%at_nil|].
    destruct (idx <? w_origin w) eqn:E; bool_hyps; [|intros Hu; exists y; repeat split; auto; lia].
    intros (i & Hi & ->); exists (w_origin w + Z.of_nat i); simpl in *.
    split; [exists i; done|]; unfold w_len; split; lia. }
  set (w1 := w_place idx w) in *; destruct (_ <? max) eqn:Ed; bool_hyps.
  { destruct (w_insert_at (idx - w_origin w1) s w1 w' x t) as [?|[[? ?]|?]]; auto; [lia|].
    right; left; split; [lia|done]. }
  destruct (_ >? MAX_DROPOUT) eqn:Ef.
  { injection Hput as <-; apply at_single in Ht; auto. }
  destruct (_ <? w_len w1) eqn:Ek; bool_hyps;
    [|injection Hput as <-; apply at_single in Ht; auto].
  set (k := idx - w_origin w1 - max + 1) in *.
  destruct (w_insert_at (max - 1) s (Win (w_origin w1 + k) (drop (Z.to_nat k) (w_slots w1))) w' x t)
    as [?|[[Hx ?]|Hd]]; auto; [lia|right; left; simpl in Hx; split; [lia|done]|].
  right; right; apply Hplace.
  replace (w_origin w1 + k) with (w_origin w1 + Z.of_nat (Z.to_nat k)) in Hd by lia.
  apply at_drop in Hd; destruct w1; done.
Qed.

Lemma w_len_store o l d s : 0 <= d ->
  w_len (Win o (w_store (Z.to_nat d) s l)) = Z.max (Z.of_nat (length l)) (d + 1).
Proof. intros; unfold w_len; simpl; rewrite w_store_length; lia. Qed.

(** Without a restart the window only moves up. *)
Lemma w_put_moves max idx s w w' :
  w_put max idx s w = Some w' -> w_origin w <= idx -> 0 < max -> w_len w <= max ->
  w_origin w <= w_origin w' /\ w_last w' = Z.max (w_last w) idx.
Proof.
  unfold w_put; intros Hput Ho Hmax Hlen.
  assert (Hw1 : w_place idx w = if w_len w =? 0 then Win idx [] else w).
  { unfold w_place; destruct (w_len w =? 0); [done|]; case_if; bool_hyps; [lia|done]. }
  destruct (w_late idx w); [done|]; rewrite Hw1 in Hput; clear Hw1.
  assert (Hl0 : 0 <= w_len w) by (unfold w_len; lia).
  unfold w_last; destruct (w_len w =? 0) eqn:E0; bool_hyps.
  { simpl in Hput; replace (idx - idx) with 0 in Hput by lia.
    destruct (0 <? max) eqn:E; bool_hyps; [|lia].
    change (w_insert 0 s (Win idx [])) with (Some (Win idx [s])) in Hput.
    injection Hput as <-; unfold w_len in *; simpl; lia. }
  destruct (idx - w_origin w <? max) eqn:Ed; bool_hyps.
  { apply w_insert_inv in Hput as ->; rewrite w_len_store by lia; simpl.
    unfold w_len in *; lia. }
  destruct (_ >? MAX_DROPOUT); [injection Hput as <-; unfold w_len in *; simpl; lia|].
  destruct (_ <? w_len w) eqn:Ek; bool_hyps;
    [|injection Hput as <-; unfold w_len in *; simpl; lia].
  apply w_insert_inv in Hput as ->; simpl w_slots; rewrite w_len_store by lia; simpl.
  unfold w_len in *; rewrite length_drop; lia.
Qed.

(** *** A GET *)

Lemma w_get_at w x t : at_seq (snd (w_get w)) x t -> at_seq w x t.
Proof.
  unfold w_get; destruct (drop (lead_disc (w_slots w)) (w_slots w)) as [|s rest] eqn:E; simpl;
    [intros []%at_nil|]; intros (i & Hi & ->).
  exists (lead_disc (w_slots w) + S i)%nat; rewrite <- lookup_drop, E; split; [done|simpl; lia].
Qed.

(** The frame returned is the one with its number, which the window has left
    behind. *)
Lemma w_get_out w x s w' : w_get w = (Some (x, s), w') ->
  w_origin w <= x < w_origin w' /\ (s = Missing \/ at_seq w x s).
Proof.
  unfold w_get; destruct (drop (lead_disc (w_slots w)) (w_slots w)) as [|u rest] eqn:E; [done|].
  intros [= <- <- <-]; simpl; split; [lia|].
  case_decide; [|by left]; right; exists (lead_disc (w_slots w)); split; [|done].
  rewrite <- (Nat.add_0_r (lead_disc (w_slots w))), <- lookup_drop, E; done.
Qed.

Lemma w_get_last w : w_origin w <= w_origin (snd (w_get w)) /\ w_last (snd (w_get w)) = w_last w.
Proof.
  unfold w_get, w_last, w_len.
  pose proof (lead_disc_length (w_slots w)).
  pose proof (f_equal length (take_drop (lead_disc (w_slots w)) (w_slots w))) as Hl.
  rewrite length_app, length_take in Hl.
  destruct (drop (lead_disc (w_slots w)) (w_slots w)) as [|u rest]; simpl in *; lia.
Qed.

(** *** The discard that may follow *)

(** After an operation the buffer may drop its first slot, or mark one slot
    that is not discarded yet. *)
Inductive w_trim (w : window) : window -> Prop :=
| trim_none : w_trim w w
| trim_head : w_slots w <> [] -> w_trim w (Win (w_origin w + 1) (drop 1 (w_slots w)))
| trim_slot idx s : at_seq w idx s -> s <> Discarded -> w_trim w (w_discard idx w).

Lemma w_trim_at w w' x t : w_trim w w' -> at_seq w' x t -> t = Discarded \/ at_seq w x t.
Proof.
  intros [|?|idx s (i & Hi & ->) ?] Ht; auto.
  - right; change (w_origin w + 1) with (w_origin w + Z.of_nat 1) in Ht.
    apply at_drop in Ht; destruct w; done.
  - unfold w_discard in Ht; destruct Ht as (j & Hj & ->); simpl in *.
    replace (Z.to_nat (w_origin w + Z.of_nat i - w_origin w)) with i in Hj by lia.
    apply list_lookup_insert_Some in Hj as [(-> & <- & _)|[_ Hj]]; [by left|].
    right; exists j; done.
Qed.

Lemma w_trim_last w w' : w_trim w w' -> w_origin w <= w_origin w' /\ w_last w' = w_last w.
Proof.
  intros [|Hne|]; unfold w_discard, w_last, w_len; simpl; rewrite ?length_insert, ?length_drop; try lia.
  destruct (w_slots w); [done|simpl; lia].
Qed.

(** ** The invariant *)

Definition jb_window (jb : pjmedia_jbuf) : window := fl_window (jb_framelist jb).

(** No discarded slot has a number above [r]. *)
Definition disc_le (r : Z) (w : window) : Prop := forall x, at_seq w x Discarded -> x <= r.

Record jb_inv (jb : pjmedia_jbuf) : Prop := {
  ji_fl : fl_wf (jb_framelist jb);
  ji_max : jb_max_count jb = fl_max_count (jb_framelist jb);
  ji_frame_size : jb_frame_size jb = fl_frame_size (jb_framelist jb);
  ji_ptime : 0 < jb_frame_ptime jb;
  ji_gap : 1 <= jb_min_shrink_gap jb <= PJMEDIA_JBUF_DISC_MIN_GAP;
  ji_disc : jb_discard_algo jb = PJMEDIA_JB_DISCARD_PROGRESSIVE ->
    disc_le (jb_discard_ref jb) (jb_window jb);
  ji_ref : - 3 * seq_bound <= jb_discard_ref jb <= seq_bound + 1;
  ji_min : 0 <= jb_min_prefetch jb <= jb_max_prefetch jb;
  ji_prefetch : 0 <= jb_prefetch jb <= jb_max_prefetch jb;
  ji_max_prefetch : jb_max_prefetch jb <= jb_max_count jb }.

(** The fields the invariant is about. *)
Definition jb_core (jb : pjmedia_jbuf) :=
  (jb_framelist jb, jb_max_count jb, jb_frame_size jb, jb_frame_ptime jb,
   jb_min_shrink_gap jb, jb_discard_algo jb, jb_discard_ref jb,
   (jb_min_prefetch jb, jb_max_prefetch jb, jb_prefetch jb)).

Lemma jb_inv_core jb jb' : jb_core jb' = jb_core jb -> jb_inv jb -> jb_inv jb'.
Proof.
  unfold jb_core; intros [= E1 E2 E3 E4 E5 E6 E7 E8 E9 E10] [].
  constructor; unfold jb_window in *; rewrite ?E1, ?E2, ?E3, ?E4, ?E5, ?E6, ?E7, ?E8, ?E9, ?E10; done.
Qed.

(** Replacing the frame list, and the discard reference with it. *)
Lemma jb_inv_framelist jb fl r :
  jb_inv jb -> fl_wf fl ->
  fl_max_count fl = fl_max_count (jb_framelist jb) ->
  fl_frame_size fl = fl_frame_size (jb_framelist jb) ->
  (jb_discard_algo jb = PJMEDIA_JB_DISCARD_PROGRESSIVE -> disc_le r (fl_window fl)) ->
  - 3 * seq_bound <= r <= seq_bound + 1 ->
  jb_inv (jb <| jb_framelist := fl |> <| jb_discard_ref := r |>).
Proof. intros [] ? Em Ef ??; constructor; unfold jb_window; upd; rewrite ?Em, ?Ef; done. Qed.

Lemma eff_size_eq fl : fl_wf fl -> jb_framelist_eff_size fl = n_kept (win fl).
Proof.
  intros W; wf_facts W; unfold jb_framelist_eff_size, n_kept; rewrite win_length, (wf_disc _ W).
  rewrite u32_small; [lia|unfold is_u32; lia].
Qed.

Lemma disc_le_trim_slot w idx s r :
  at_seq w idx s -> disc_le r w -> r <= idx -> disc_le idx (w_discard idx w).
Proof.
  intros (i & Hi & ->) Hr Hle x (j & Hj & ->); unfold w_discard in *; simpl in *.
  replace (Z.to_nat (w_origin w + Z.of_nat i - w_origin w)) with i in Hj by lia.
  apply list_lookup_insert_Some in Hj as [(-> & _ & _)|[_ Hj]]; [lia|].
  enough (w_origin w + Z.of_nat j <= r) by lia; apply Hr; exists j; done.
Qed.

(** ** The discard algorithms *)

Lemma static_spec jb :
  jb_inv jb -> jb_discard_algo jb = PJMEDIA_JB_DISCARD_STATIC ->
  jb_inv (jbuf_discard_static jb) /\ w_trim (jb_window jb) (jb_window (jbuf_discard_static jb)).
Proof.
  intros I Ha; pose proof (ji_fl _ I) as W; wf_facts W; pose proof (ji_ref _ I) as Hrr.
  unfold jbuf_discard_static, jb_framelist_origin.
  destruct (_ >=? STA_DISC_SAFE_SHRINKING_DIFF); [|split; [done|constructor]].
  set (ref := if _ <? jb_discard_ref jb then _ else _).
  assert (Href : - 3 * seq_bound <= ref <= seq_bound + 1)
    by (unfold ref, seq_bound in *; case_if; bool_hyps; lia).
  destruct (_ >=? jb_min_shrink_gap jb).
  - destruct (remove_head_spec (jb_framelist jb) 1 W ltac:(lia)) as (fl1 & Er & W1 & Em1 & Ef1 & Ew1).
    rewrite Er; set (m := Z.min 1 (fl_size (jb_framelist jb))) in *.
    injection Ew1 as Eo1 Ew1; split.
    + eapply (jb_inv_core (jb <| jb_framelist := fl1 |> <| jb_discard_ref := fl_origin fl1 |>));
        [done|].
      apply jb_inv_framelist; auto; [rewrite Ha; done|rewrite Eo1; unfold seq_bound; lia].
    + unfold jb_window; upd; unfold fl_window; rewrite Eo1, Ew1; unfold m.
      destruct (decide (fl_size (jb_framelist jb) = 0)) as [Hz|Hz].
      * rewrite Hz; simpl; rewrite Z.add_0_r, drop_0; constructor.
      * replace (Z.min 1 (fl_size (jb_framelist jb))) with 1 by lia.
        apply (trim_head (jb_window jb)); simpl; intros E.
        apply (f_equal length) in E; rewrite win_length in E; simpl in E; lia.
  - split; [|constructor].
    eapply (jb_inv_core (jb <| jb_framelist := jb_framelist jb |> <| jb_discard_ref := ref |>));
      [destruct jb; done|].
    apply jb_inv_framelist; auto; rewrite Ha; done.
Qed.

Lemma discard_duration_range b : 0 <= b -> 0 <= discard_duration b <= 10000.
Proof.
  intros Hb; unfold discard_duration, PJMEDIA_JBUF_PRO_DISC_T1, PJMEDIA_JBUF_PRO_DISC_T2,
    PJMEDIA_JBUF_PRO_DISC_MIN_BURST, PJMEDIA_JBUF_PRO_DISC_MAX_BURST.
  destruct (b <=? 1) eqn:E1; [lia|]; destruct (b >=? 100) eqn:E2; [lia|].
  rewrite Z.geb_leb in E2; bool_hyps; rewrite u32_small by (unfold is_u32; lia).
  assert (0 <= (10000 - 2000) * (b - 1) / (100 - 1) <= 8000); [|lia].
  split; [apply Z.div_pos; lia|apply Z.div_le_upper_bound; lia].
Qed.

(** The reference the progressive algorithm works with. *)
Definition pro_ref (jb : pjmedia_jbuf) (last_seq : Z) : Z :=
  if jb_discard_dist jb =? 0 then last_seq
  else if last_seq <? jb_discard_ref jb then last_seq else jb_discard_ref jb.

Lemma pro_ref_spec jb :
  jb_inv jb -> jb_discard_algo jb = PJMEDIA_JB_DISCARD_PROGRESSIVE ->
  let last := fl_origin (jb_framelist jb) + fl_size (jb_framelist jb) - 1 in
  disc_le (pro_ref jb last) (jb_window jb)
  /\ - 3 * seq_bound <= pro_ref jb last <= seq_bound + 1 /\ pro_ref jb last <= Z.max last (jb_discard_ref jb).
Proof.
  intros I Ha last; pose proof (ji_fl _ I) as W; wf_facts W; pose proof (ji_ref _ I) as Hr.
  assert (Hl : disc_le last (jb_window jb)).
  { intros x Hx; apply at_seq_range in Hx; unfold w_last in Hx.
    unfold jb_window in Hx; rewrite w_len_window in Hx by lia; simpl in Hx; unfold last; lia. }
  unfold pro_ref, seq_bound in *.
  assert (- 3 * 536870912 <= last <= 536870912) by (unfold last; lia).
  destruct (jb_discard_dist jb =? 0); [split; [done|lia]|].
  destruct (last <? jb_discard_ref jb) eqn:E; bool_hyps; [split; [done|lia]|].
  split; [by apply I|lia].
Qed.

(** A discard by the progressive algorithm hits a slot that is in the window
    and not discarded yet. *)
Lemma progressive_spec jb :
  jb_inv jb -> jb_discard_algo jb = PJMEDIA_JB_DISCARD_PROGRESSIVE ->
  jb_inv (jbuf_discard_progressive jb)
  /\ w_trim (jb_window jb) (jb_window (jbuf_discard_progressive jb)).
Proof.
  intros I Ha; pose proof (ji_fl _ I) as W; wf_facts W; pose proof (ji_gap _ I) as Hg.
  unfold jbuf_discard_progressive, jb_framelist_origin, jb_framelist_size.
  destruct (negb _); [split; [done|constructor]|].
  rewrite (eff_size_eq _ W); set (burst := u32 _).
  destruct (_ <=? burst) eqn:Eb; bool_hyps.
  { split; [apply (jb_inv_core jb); done|constructor]. }
  pose proof (u32_range (Z.max (jb_eff_level jb) (jb_level jb))) as Hbr.
  fold burst in Hbr; unfold is_u32 in Hbr.
  assert (Hsz : 0 < fl_size (jb_framelist jb)).
  { unfold n_kept in Eb; rewrite win_length in Eb; lia. }
  replace (s32 (fl_origin (jb_framelist jb) + fl_size (jb_framelist jb) - 1))
    with (fl_origin (jb_framelist jb) + fl_size (jb_framelist jb) - 1) by int_lia.
  set (last := fl_origin (jb_framelist jb) + fl_size (jb_framelist jb) - 1).
  destruct (pro_ref_spec jb I Ha) as (Hdisc & Hrange & _); fold last in Hdisc, Hrange.
  fold (pro_ref jb last); set (ref := pro_ref jb last) in *.
  set (dist := Z.max (jb_min_shrink_gap jb) _).
  assert (Hdist : 1 <= dist <= 10000).
  { unfold dist, PJMEDIA_JBUF_DISC_MIN_GAP in *.
    pose proof (discard_duration_range burst ltac:(lia)) as Hdd; pose proof (ji_ptime _ I).
    set (o := n_kept _ - burst) in *; assert (0 < o) by (unfold o; lia).
    assert (0 <= discard_duration burst / o <= 10000)
      by (split; [apply Z.div_pos|apply Z.div_le_upper_bound]; nia).
    assert (0 <= discard_duration burst / o / jb_frame_ptime jb <= 10000)
      by (split; [apply Z.div_pos|apply Z.div_le_upper_bound]; nia).
    int_lia. }
  clearbody dist.
  assert (I1 : jb_inv (jb <| jb_discard_ref := ref |> <| jb_discard_dist := dist |>)).
  { apply (jb_inv_core (jb <| jb_framelist := jb_framelist jb |> <| jb_discard_ref := ref |>));
      [destruct jb; done|].
    apply jb_inv_framelist; auto. }
  destruct (_ >=? ref + dist) eqn:El; [|split; [done|constructor]].
  rewrite Z.geb_leb in El; bool_hyps; unfold seq_bound in *.
  replace (s32 (ref + dist)) with (ref + dist) by int_lia.
  set (ds := if _ <? fl_origin _ then _ else _).
  assert (Hds : fl_origin (jb_framelist jb) <= ds <= last /\ ref < ds)
    by (unfold ds; case_if; bool_hyps; lia).
  destruct (lookup_lt_is_Some_2 (win (jb_framelist jb)) (Z.to_nat (ds - fl_origin (jb_framelist jb))))
    as [s Hs]; [rewrite win_length; lia|].
  assert (Hat : at_seq (jb_window jb) ds s)
    by (exists (Z.to_nat (ds - fl_origin (jb_framelist jb))); simpl; split; [done|lia]).
  assert (Hnd : s <> Discarded) by (intros ->; specialize (Hdisc ds Hat); lia).
  destruct (discard_spec (jb_framelist jb) ds W ltac:(lia)) as (fl' & Ed & W' & Em & Ef & Ew);
    [rewrite Hs; congruence|].
  rewrite Ed; simpl snd; split.
  - apply (jb_inv_core ((jb <| jb_discard_ref := ref |> <| jb_discard_dist := dist |>)
      <| jb_framelist := fl' |> <| jb_discard_ref := ds |>)); [done|].
    apply jb_inv_framelist; auto; unfold seq_bound; [intros _|lia].
    rewrite Ew; eapply disc_le_trim_slot; [done|exact Hdisc|lia].
  - unfold jb_window; upd; rewrite Ew; econstructor; done.
Qed.

Lemma run_discard_algo_spec jb :
  jb_inv jb -> jb_inv (run_discard_algo jb)
               /\ w_trim (jb_window jb) (jb_window (run_discard_algo jb)).
Proof.
  intros I; unfold run_discard_algo; destruct (_ =? _); [|split; [done|constructor]].
  destruct (jb_discard_algo jb) eqn:Ha;
    [split; [done|constructor]|apply static_spec|apply progressive_spec]; done.
Qed.

(** ** Measuring the bursts *)

(** The jitter calculation touches nothing but levels and the prefetch. *)
Lemma calculate_jitter_spec jb :
  jb_inv jb -> jb_inv (jbuf_calculate_jitter jb)
               /\ jb_framelist (jbuf_calculate_jitter jb) = jb_framelist jb.
Proof.
  intros I; pose proof (ji_min _ I); pose proof (ji_prefetch _ I); pose proof (ji_max_prefetch _ I).
  assert (Hset : forall jb' p, jb_core (jb' <| jb_prefetch := 0 |>) = jb_core (jb <| jb_prefetch := 0 |>) ->
    p = jb_prefetch jb' -> 0 <= p <= jb_max_prefetch jb -> jb_inv jb').
  { intros jb' p Hc -> Hp; unfold jb_core in Hc; upd in Hc.
    injection Hc as E1 E2 E3 E4 E5 E6 E7 E8 E9; destruct I.
    constructor; unfold jb_window in *; rewrite ?E1, ?E2, ?E3, ?E4, ?E5, ?E6, ?E7, ?E8, ?E9; done. }
  unfold jbuf_calculate_jitter; upd.
  destruct (_ <? jb_eff_level jb).
  - destruct (_ >? STABLE_HISTORY_LIMIT); split; try done.
    + eapply Hset; [done|done|]; upd.
      destruct (_ =? 0); [done|]; unfold prefetch_decreasing; upd.
      repeat case_if; rewrite ?Z.gtb_ltb in *; bool_hyps; lia.
    + eapply Hset; [done|done|]; upd; done.
  - destruct (_ >? jb_eff_level jb); split; try done.
    + eapply Hset; [done|done|]; upd.
      destruct (_ =? 0); [done|]; unfold prefetch_increasing; upd.
      repeat case_if; rewrite ?Z.gtb_ltb in *; bool_hyps; lia.
    + eapply Hset; [done|done|]; upd; done.
Qed.

Lemma jbuf_update_spec jb oper :
  jb_inv jb -> jb_inv (jbuf_update jb oper)
               /\ w_trim (jb_window jb) (jb_window (jbuf_update jb oper)).
Proof.
  intros I; unfold jbuf_update; case_bool_decide; [apply run_discard_algo_spec; done|].
  assert (Hm : forall jb1, jb_core jb1 = jb_core jb ->
    jb_inv (run_discard_algo (measure_burst oper jb1))
    /\ w_trim (jb_window jb) (jb_window (run_discard_algo (measure_burst oper jb1)))).
  { intros jb1 Hc; pose proof (jb_inv_core _ _ Hc I) as I1.
    assert (Hf : jb_framelist jb1 = jb_framelist jb) by (injection Hc; done).
    assert (H2 : jb_inv (measure_burst oper jb1)
                 /\ jb_framelist (measure_burst oper jb1) = jb_framelist jb).
    { unfold measure_burst; destruct (_ && _); upd; rewrite <- Hf.
      - destruct (calculate_jitter_spec jb1 I1) as [I2 E2]; split; [|done].
        eapply jb_inv_core; [|exact I2]; done.
      - split; [|done]; eapply jb_inv_core; [|exact I1]; done. }
    destruct H2 as [I2 E2]; unfold jb_window at 1; rewrite <- E2.
    apply run_discard_algo_spec; done. }
  destruct (_ =? JB_STATUS_INITIALIZING); [|apply Hm; done].
  destruct (_ && _); [apply Hm; done|].
  split; [apply (jb_inv_core jb); done|constructor].
Qed.

(** *** What an update leaves alone *)

Lemma discard_algo_flags jb :
  jb_prefetching (run_discard_algo jb) = jb_prefetching jb
  /\ jb_prefetch (run_discard_algo jb) = jb_prefetch jb.
Proof.
  unfold run_discard_algo, jbuf_discard_static, jbuf_discard_progressive.
  destruct (_ =? _); [|done]; destruct (jb_discard_algo jb).
  - done.
  - destruct (_ >=? STA_DISC_SAFE_SHRINKING_DIFF); [|done].
    destruct (_ >=? jb_min_shrink_gap jb); [|done]; destruct (jb_framelist_remove_head _ _); done.
  - destruct (negb _); [done|]; destruct (_ <=? u32 _); [done|].
    destruct (_ >=? _ + _); done.
Qed.

Lemma measure_burst_flags oper jb :
  jb_prefetching (measure_burst oper jb) = jb_prefetching jb
  /\ (oper = JB_OP_PUT -> jb_prefetch (measure_burst oper jb) = jb_prefetch jb)
  /\ jb_framelist (measure_burst oper jb) = jb_framelist jb
  /\ jb_discard_algo (measure_burst oper jb) = jb_discard_algo jb.
Proof.
  unfold measure_burst; destruct oper; simpl; try done.
  destruct (_ <=? _); [|done]; unfold jbuf_calculate_jitter; upd.
  destruct (_ <? _); [destruct (_ >? _); done|destruct (_ >? _); done].
Qed.

Lemma update_flags jb oper :
  jb_prefetching (jbuf_update jb oper) = jb_prefetching jb
  /\ (oper = JB_OP_PUT -> jb_prefetch (jbuf_update jb oper) = jb_prefetch jb)
  /\ (jb_discard_algo jb = PJMEDIA_JB_DISCARD_NONE ->
      jb_window (jbuf_update jb oper) = jb_window jb).
Proof.
  assert (Hn : forall j, jb_discard_algo j = PJMEDIA_JB_DISCARD_NONE -> run_discard_algo j = j)
    by (intros j Hj; unfold run_discard_algo; rewrite Hj; destruct (_ =? _); done).
  assert (Hm : forall j, jb_prefetching j = jb_prefetching jb -> jb_prefetch j = jb_prefetch jb ->
    jb_framelist j = jb_framelist jb -> jb_discard_algo j = jb_discard_algo jb ->
    let j' := run_discard_algo (measure_burst oper j) in
    jb_prefetching j' = jb_prefetching jb
    /\ (oper = JB_OP_PUT -> jb_prefetch j' = jb_prefetch jb)
    /\ (jb_discard_algo jb = PJMEDIA_JB_DISCARD_NONE -> jb_window j' = jb_window jb)).
  { intros j E1 E2 E3 E4 j'; unfold j'; destruct (measure_burst_flags oper j) as (M1 & M2 & M3 & M4).
    destruct (discard_algo_flags (measure_burst oper j)) as [D1 D2].
    split; [congruence|]; split; [intros Ho; rewrite D2, M2 by done; done|].
    intros Ha; rewrite Hn by congruence; unfold jb_window; congruence. }
  unfold jbuf_update; case_bool_decide.
  - destruct (discard_algo_flags jb) as [D1 D2].
    split; [done|]; split; [done|]; intros Ha; rewrite Hn by done; done.
  - destruct (_ =? JB_STATUS_INITIALIZING); [|apply Hm; done].
    destruct (_ && _); [apply Hm; done|done].
Qed.

(** ** PUT and GET *)

(** The frame that a PUT stores: the bytes that fit a slot. *)
Definition put_slot_of (jb : pjmedia_jbuf) (frame : list Z) (frame_size bits ts : Z) : slot :=
  Frame (take (Z.to_nat (Z.min frame_size (jb_frame_size jb))) frame) bits ts.

(** Slots only disappear, move down or become missing in a PUT and a GET, so the
    discarded ones stay below the discard reference. *)
Lemma disc_le_put max idx b bits ts w w' r :
  w_put max idx (Frame b bits ts) w = Some w' -> 0 < max -> disc_le r w -> disc_le r w'.
Proof.
  intros Hp Hmax Hr x Hx.
  destruct (w_put_at _ _ _ _ _ _ _ Hp Hx Hmax) as [|[[_ ?]|(y & Hy & Hle & _)]]; [done|done|].
  specialize (Hr y Hy); lia.
Qed.

Lemma disc_le_get w r : disc_le r w -> disc_le r (snd (w_get w)).
Proof. intros Hr x Hx; apply Hr, w_get_at; done. Qed.

Lemma jb_inv_same_window jb fl :
  jb_inv jb -> fl_wf fl ->
  fl_max_count fl = fl_max_count (jb_framelist jb) ->
  fl_frame_size fl = fl_frame_size (jb_framelist jb) ->
  (forall r, disc_le r (jb_window jb) -> disc_le r (fl_window fl)) ->
  jb_inv (jb <| jb_framelist := fl |>).
Proof.
  intros I W Em Ef Hd.
  apply (jb_inv_core (jb <| jb_framelist := fl |> <| jb_discard_ref := jb_discard_ref jb |>));
    [destruct jb; done|].
  apply jb_inv_framelist; auto; [intros Ha; apply Hd, I; done|apply I].
Qed.

Lemma put_frame_window jb frame frame_size bits seq ts :
  jb_inv jb -> seq_ok seq -> 0 <= frame_size <= Z.of_nat (length frame) ->
  exists discarded jb',
    pjmedia_jbuf_put_frame3 jb frame frame_size bits seq ts = Some (discarded, jb')
    /\ jb_inv jb'
    /\ match w_put (jb_max_count jb) seq (put_slot_of jb frame frame_size bits ts) (jb_window jb) with
       | Some w =>
           discarded = false /\ w_trim w (jb_window jb')
           /\ (jb_discard_algo jb = PJMEDIA_JB_DISCARD_NONE -> jb_window jb' = w)
           /\ jb_prefetch jb' = jb_prefetch jb
           /\ jb_prefetching jb'
              = jb_prefetching jb && negb (n_kept (w_slots w) >=? jb_prefetch jb)
       | None => discarded = true /\ jb_window jb' = jb_window jb
       end.
Proof.
  intros I Hseq Hfs; pose proof (ji_fl _ I) as W; pose proof (wf_frame_size _ W) as Hwf.
  pose proof (wf_max _ W).
  unfold pjmedia_jbuf_put_frame3, put_slot_of; rewrite (ji_max _ I), (ji_frame_size _ I).
  rewrite u32_small by (unfold is_u32; lia).
  set (n := Z.min frame_size (fl_frame_size (jb_framelist jb))).
  destruct (put_loop_spec frame n bits ts ltac:(lia) (jb_framelist jb) seq (jb_discard jb) W Hseq
    ltac:(lia)) as (st0 & fl0 & st & fl & dis & E0 & Er & W' & Em & Ef & Hres).
  rewrite E0, Er; cbn [mbind option_bind]; fold (jb_window jb) in Hres.
  destruct (w_put _ seq _ (jb_window jb)) as [w|] eqn:Ep.
  - destruct Hres as [-> Hw]; rewrite Z.eqb_refl.
    match goal with |- context [jbuf_update ?j JB_OP_PUT] =>
      destruct (jbuf_update_spec j JB_OP_PUT) as [I2 T2];
      [|destruct (update_flags j JB_OP_PUT) as (F1 & F2 & F3)] end.
    { eapply jb_inv_core; [|apply (jb_inv_same_window jb fl I W' Em Ef)]; [done|].
      intros r Hr; rewrite Hw; eapply disc_le_put; [exact Ep|lia|done]. }
    eexists _, _; split; [reflexivity|]; split; [done|]; split; [done|].
    rewrite <- Hw; split; [exact T2|]; split; [exact F3|].
    split; [rewrite F2 by done; done|]; rewrite F1; upd.
    rewrite (eff_size_eq fl W').
    assert (Hk : 0 <= n_kept (win fl) < 2147483648).
    { wf_facts W'; unfold n_kept; rewrite win_length; lia. }
    replace (s32 (n_kept (win fl))) with (n_kept (win fl)) by int_lia; done.
  - destruct Hres as [Hst Hw].
    destruct (st =? PJ_SUCCESS) eqn:Es; bool_hyps; [done|].
    eexists _, _; split; [reflexivity|]; split; [|split; [done|exact Hw]].
    eapply jb_inv_core; [|apply (jb_inv_same_window jb fl I W' Em Ef)]; [done|].
    intros r Hr; rewrite Hw; done.
Qed.

(** What a GET shows to its caller. *)
Definition shows (o : jb_out) (r : option (Z * slot)) : Prop :=
  match r with
  | None => out_type o = PJMEDIA_JB_ZERO_EMPTY_FRAME /\ out_size o = Some 0 /\ out_seq o = None
  | Some (x, Frame b bits ts) =>
      out_type o = PJMEDIA_JB_NORMAL_FRAME /\ out_seq o = Some x
      /\ out_slot o = Frame b bits ts
  | Some (x, _) =>
      out_type o = PJMEDIA_JB_MISSING_FRAME /\ out_seq o = Some x /\ out_size o = Some 0
  end.

Lemma get_frame_window jb :
  jb_inv jb ->
  exists o jb', pjmedia_jbuf_get_frame3 jb = Some (o, jb')
    /\ jb_inv jb'
    /\ if jb_prefetching jb
       then out_type o = PJMEDIA_JB_ZERO_PREFETCH_FRAME /\ out_seq o = None
            /\ w_trim (jb_window jb) (jb_window jb')
       else shows o (fst (w_get (jb_window jb))) /\ w_trim (snd (w_get (jb_window jb))) (jb_window jb')
            /\ (jb_discard_algo jb = PJMEDIA_JB_DISCARD_NONE ->
                jb_window jb' = snd (w_get (jb_window jb)))
            /\ (is_Some (fst (w_get (jb_window jb))) -> jb_prefetching jb' = false).
Proof.
  intros I; pose proof (ji_fl _ I) as W; unfold pjmedia_jbuf_get_frame3.
  destruct (jb_prefetching jb) eqn:Epre; cbn [mbind option_bind].
  { match goal with |- context [jbuf_update ?j JB_OP_GET] =>
      destruct (jbuf_update_spec j JB_OP_GET) as [I2 T2]; [apply (jb_inv_core jb); done|] end.
    eexists _, _; split; [reflexivity|]; done. }
  destruct (get_spec (jb_framelist jb) W) as (res & fl & Eg & W1 & Em & Ef & Ew & Hmiss).
  rewrite Eg; cbn [mbind option_bind].
  assert (I1 : jb_inv (jb <| jb_framelist := fl |>)).
  { apply jb_inv_same_window; auto; intros r Hr.
    replace (fl_window fl) with (snd (w_get (jb_window jb))) by (unfold jb_window; rewrite Ew; done).
    apply disc_le_get; done. }
  change (jb_window jb) with (fl_window (jb_framelist jb)); rewrite Ew; cbn [fst snd].
  assert (Hfin : forall jb2, jb_core jb2 = jb_core (jb <| jb_framelist := fl |>) ->
    jb_inv (jbuf_update (jb2 <| jb_level := s32 (jb_level jb2 + 1) |>) JB_OP_GET)
    /\ w_trim (fl_window fl)
         (jb_window (jbuf_update (jb2 <| jb_level := s32 (jb_level jb2 + 1) |>) JB_OP_GET))
    /\ (jb_discard_algo jb = PJMEDIA_JB_DISCARD_NONE ->
        jb_window (jbuf_update (jb2 <| jb_level := s32 (jb_level jb2 + 1) |>) JB_OP_GET) = fl_window fl)
    /\ jb_prefetching (jbuf_update (jb2 <| jb_level := s32 (jb_level jb2 + 1) |>) JB_OP_GET)
       = jb_prefetching jb2).
  { intros jb2 Hc; replace (fl_window fl) with (jb_window jb2)
      by (injection Hc as E1; unfold jb_window; rewrite E1; done).
    change (jb_window jb2) with (jb_window (jb2 <| jb_level := s32 (jb_level jb2 + 1) |>)).
    destruct (update_flags (jb2 <| jb_level := s32 (jb_level jb2 + 1) |>) JB_OP_GET) as (F1 & _ & F3).
    destruct (jbuf_update_spec (jb2 <| jb_level := s32 (jb_level jb2 + 1) |>) JB_OP_GET) as [I2 T2];
      [eapply jb_inv_core; [|exact I1]; done|].
    split; [done|]; split; [done|]; split; [|done].
    intros Ha; apply F3; injection Hc as _ _ _ _ _ Ea; rewrite <- Ha; exact Ea. }
  destruct res as [o|]; cbn [mbind option_bind].
  - match goal with |- context [jbuf_update (?j <| jb_level := _ |>) JB_OP_GET] =>
      destruct (Hfin j) as (I2 & T2 & N2 & P2); [case_bool_decide; destruct (_ =? _); done|] end.
    eexists _, _; split; [reflexivity|]; split; [exact I2|].
    split; [|split; [exact T2|]; split; [exact N2|];
      intros _; rewrite P2, <- Epre; case_bool_decide; destruct (_ =? _); done].
    destruct (Hmiss o eq_refl) as [[x Hx] Hm]; simpl; rewrite Hx; simpl.
    unfold shows; simpl.
    destruct (out_slot o) eqn:Eo; unfold out_slot in Eo.
    + destruct (Hm eq_refl) as [-> ->]; done.
    + case_if; done.
    + case_if; [|done]; injection Eo as <- <- <-; unfold out_slot; simpl; done.
  - match goal with |- context [jbuf_update (?j <| jb_level := _ |>) JB_OP_GET] =>
      destruct (Hfin j) as (I2 & T2 & N2 & P2); [done|] end.
    eexists _, _; split; [reflexivity|]; split; [exact I2|]; split; [done|].
    split; [exact T2|]; split; [exact N2|]; intros [? ?]; done.
Qed.

(** ** Operations and runs *)

Inductive jb_operation :=
| OpPut (frame : list Z) (frame_size bits seq ts : Z)
| OpGet
| OpRemove (frame_cnt : Z)
| OpReset
| OpFixed (prefetch : Z)
| OpAdaptive (prefetch min_prefetch max_prefetch : Z)
| OpDiscard (algo : pjmedia_jb_discard_algo).

Definition jb_apply (op : jb_operation) (jb : pjmedia_jbuf) : option (option jb_out * pjmedia_jbuf) :=
  match op with
  | OpPut frame size bits seq ts =>
      '(_, jb') ← pjmedia_jbuf_put_frame3 jb frame size bits seq ts; Some (None, jb')
  | OpGet => '(o, jb') ← pjmedia_jbuf_get_frame3 jb; Some (Some o, jb')
  | OpRemove c => '(_, jb') ← pjmedia_jbuf_remove_frame jb c; Some (None, jb')
  | OpReset => Some (None, pjmedia_jbuf_reset jb)
  | OpFixed p => Some (None, snd (pjmedia_jbuf_set_fixed jb p))
  | OpAdaptive p mn mx => Some (None, snd (pjmedia_jbuf_set_adaptive jb p mn mx))
  | OpDiscard a => Some (None, pjmedia_jbuf_set_discard jb a)
  end.

(** Arguments of their C types, sequence numbers in range, a frame as long as
    it is said to be; the progressive algorithm is chosen only while no marked
    slot lies behind its reference, as when it has just been replaced by no
    algorithm (the static one moves the reference in front of slots that the
    progressive one has marked). *)
Definition jb_op_ok (jb : pjmedia_jbuf) (op : jb_operation) : Prop :=
  match op with
  | OpPut frame size _ seq _ => seq_ok seq /\ 0 <= size <= Z.of_nat (length frame)
  | OpRemove c => is_u32 c
  | OpFixed p => 0 <= p
  | OpAdaptive p mn _ => 0 <= p /\ 0 <= mn
  | OpDiscard PJMEDIA_JB_DISCARD_PROGRESSIVE => disc_le (jb_discard_ref jb) (jb_window jb)
  | _ => True
  end.

(** A newly created buffer: what the allocated arrays hold is arbitrary. *)
Inductive jb_created : pjmedia_jbuf -> Prop :=
| created content types lens bits tss frame_size ptime max_count :
    fl_shape (mk_fl frame_size max_count content types lens bits tss 0 0 0 0) ->
    0 < ptime <= PJMEDIA_JBUF_DISC_MIN_GAP ->
    jb_created (pjmedia_jbuf_create content types lens bits tss frame_size ptime max_count).

Inductive jb_reachable : pjmedia_jbuf -> Prop :=
| reach_create jb : jb_created jb -> jb_reachable jb
| reach_op jb op o jb' :
    jb_reachable jb -> jb_op_ok jb op -> jb_apply op jb = Some (o, jb') -> jb_reachable jb'.

Lemma reset_window fl : fl_shape fl ->
  fl_wf (jb_framelist_reset fl) /\ fl_window (jb_framelist_reset fl) = Win INVALID_OFFSET [].
Proof.
  intros Hs; apply (reset_spec fl INVALID_OFFSET Hs).
  unfold seq_ok, seq_bound, INVALID_OFFSET; lia.
Qed.

Lemma disc_le_nil r o : disc_le r (Win o []).
Proof. intros x []%at_nil. Qed.

Lemma jb_inv_created jb : jb_created jb -> jb_inv jb /\ jb_window jb = Win INVALID_OFFSET [].
Proof.
  intros [content types lens bits tss fs ptime mc Hs Hp].
  pose proof Hs as [Hmax Hfs _ _ _ _ _ _]; simpl in Hmax, Hfs.
  destruct (reset_window _ Hs) as [W1 _].
  destruct (reset_window _ (wf_shape _ W1)) as [W2 Ew2].
  split; [|exact Ew2].
  assert (Hq : 0 <= u32 (mc * 4) / 5 <= mc) by (unfold seq_bound in *; int_lia).
  assert (Hg : 1 <= PJMEDIA_JBUF_DISC_MIN_GAP / ptime <= PJMEDIA_JBUF_DISC_MIN_GAP).
  { unfold PJMEDIA_JBUF_DISC_MIN_GAP in *; split;
      [apply Z.div_le_lower_bound; lia|apply Z.div_le_upper_bound; nia]. }
  constructor; [exact W2|done|done|simpl; lia|exact Hg| |simpl; unfold seq_bound; lia
    |simpl; lia|simpl; unfold PJMEDIA_JB_DEFAULT_INIT_DELAY; lia|simpl; lia].
  intros _; change (disc_le 0 (fl_window (jb_framelist_reset (jb_framelist_reset
    (mk_fl fs mc content types lens bits tss 0 0 0 0))))).
  rewrite Ew2; apply disc_le_nil.
Qed.

Lemma jb_inv_reset jb : jb_inv jb ->
  jb_inv (pjmedia_jbuf_reset jb) /\ jb_window (pjmedia_jbuf_reset jb) = Win INVALID_OFFSET [].
Proof.
  intros I; destruct (reset_window _ (wf_shape _ (ji_fl _ I))) as [W Ew].
  split; [|exact Ew].
  eapply jb_inv_core; [|apply (jb_inv_same_window jb (jb_framelist_reset (jb_framelist jb)) I W)];
    try done.
  intros r _; rewrite Ew; apply disc_le_nil.
Qed.

(** Changing the prefetch settings within the capacity. *)
Lemma jb_inv_prefetch jb jb' :
  jb_inv jb ->
  jb_core (jb' <| jb_prefetch := 0 |> <| jb_min_prefetch := 0 |> <| jb_max_prefetch := 0 |>)
  = jb_core (jb <| jb_prefetch := 0 |> <| jb_min_prefetch := 0 |> <| jb_max_prefetch := 0 |>) ->
  0 <= jb_min_prefetch jb' <= jb_max_prefetch jb' ->
  0 <= jb_prefetch jb' <= jb_max_prefetch jb' ->
  jb_max_prefetch jb' <= jb_max_count jb ->
  jb_inv jb'.
Proof.
  intros I Hc ???; unfold jb_core in Hc; upd in Hc.
  injection Hc as E1 E2 E3 E4 E5 E6 E7; destruct I.
  constructor; unfold jb_window in *; rewrite ?E1, ?E2, ?E3, ?E4, ?E5, ?E6, ?E7; done.
Qed.

Lemma jb_inv_algo jb a :
  jb_inv jb -> jb_op_ok jb (OpDiscard a) -> jb_inv (pjmedia_jbuf_set_discard jb a).
Proof. intros [] Ha; constructor; try done; simpl; intros ->; exact Ha. Qed.

Lemma jb_remove_spec jb c :
  jb_inv jb -> is_u32 c ->
  exists n jb', pjmedia_jbuf_remove_frame jb c = Some (n, jb') /\ jb_inv jb'
    /\ n = Z.min c (n_kept (w_slots (jb_window jb)))
    /\ let k := w_cut (Z.to_nat c) (w_slots (jb_window jb)) in
       jb_window jb' = Win (w_origin (jb_window jb) + Z.of_nat k) (drop k (w_slots (jb_window jb))).
Proof.
  intros I Hc; destruct (remove_frame_window jb c (ji_fl _ I) Hc) as (fl & Er & W & Em & Ef & Ew).
  eexists _, _; split; [exact Er|]; split; [|split; [done|exact Ew]].
  apply jb_inv_same_window; auto; intros r Hr x Hx; rewrite Ew in Hx.
  apply Hr; exact (at_drop _ _ _ _ _ Hx).
Qed.

Lemma jb_apply_inv jb op :
  jb_inv jb -> jb_op_ok jb op -> exists o jb', jb_apply op jb = Some (o, jb') /\ jb_inv jb'.
Proof.
  intros I Hok; destruct op as [frame size bits seq ts| |c| |p|p mn mx|a]; simpl in Hok |- *.
  - destruct Hok as [Hs Hf].
    destruct (put_frame_window jb frame size bits seq ts I Hs Hf) as (d & jb' & -> & I' & _).
    eexists _, _; split; [reflexivity|done].
  - destruct (get_frame_window jb I) as (o & jb' & -> & I' & _).
    eexists _, _; split; [reflexivity|done].
  - destruct (jb_remove_spec jb c I Hok) as (n & jb' & -> & I' & _).
    eexists _, _; split; [reflexivity|done].
  - eexists _, _; split; [reflexivity|]; apply jb_inv_reset; done.
  - eexists _, _; split; [reflexivity|]; unfold pjmedia_jbuf_set_fixed.
    destruct (p >? jb_max_count jb) eqn:E; simpl snd; [done|]; rewrite Z.gtb_ltb in E; bool_hyps.
    apply jb_inv_algo; [|done]; apply (jb_inv_prefetch jb); [done|done|simpl; lia|simpl; lia|simpl; lia].
  - eexists _, _; split; [reflexivity|]; unfold pjmedia_jbuf_set_adaptive.
    destruct (negb _) eqn:E; simpl snd; [done|]; bool_hyps.
    apply (jb_inv_prefetch jb); [done|done|simpl; lia|simpl; lia|simpl; lia].
  - eexists _, _; split; [reflexivity|]; apply jb_inv_algo; done.
Qed.

Lemma jb_reachable_inv jb : jb_reachable jb -> jb_inv jb.
Proof.
  induction 1 as [jb Hc|jb op o jb' _ I Hok Ha]; [apply jb_inv_created; done|].
  destruct (jb_apply_inv jb op I Hok) as (o' & jb2 & E & I'); congruence.
Qed.

(** ** The settings that no media operation changes *)

Definition jb_settings (jb : pjmedia_jbuf) :=
  (jb_frame_size jb, jb_max_count jb, jb_discard_algo jb, jb_init_prefetch jb).

Lemma discard_algo_settings jb : jb_settings (run_discard_algo jb) = jb_settings jb.
Proof.
  unfold run_discard_algo, jbuf_discard_static, jbuf_discard_progressive.
  destruct (_ =? _); [|done]; destruct (jb_discard_algo jb) eqn:E; unfold jb_settings.
  - done.
  - destruct (_ >=? STA_DISC_SAFE_SHRINKING_DIFF); [|done].
    destruct (_ >=? jb_min_shrink_gap jb); [|done]; destruct (jb_framelist_remove_head _ _); done.
  - destruct (negb _); [done|]; destruct (_ <=? u32 _); [done|].
    destruct (_ >=? _ + _); done.
Qed.

Lemma measure_burst_settings oper jb : jb_settings (measure_burst oper jb) = jb_settings jb.
Proof.
  unfold measure_burst; destruct (_ && _); [|done]; unfold jbuf_calculate_jitter, jb_settings; upd.
  destruct (_ <? _); [destruct (_ >? _); done|destruct (_ >? _); done].
Qed.

Lemma update_settings jb oper : jb_settings (jbuf_update jb oper) = jb_settings jb.
Proof.
  unfold jbuf_update; case_bool_decide; [apply discard_algo_settings|].
  destruct (_ =? _); [destruct (_ && _); [|done]|];
    rewrite discard_algo_settings, measure_burst_settings; done.
Qed.

Lemma put_settings jb frame size bits seq ts d jb' :
  pjmedia_jbuf_put_frame3 jb frame size bits seq ts = Some (d, jb') ->
  jb_settings jb' = jb_settings jb.
Proof.
  unfold pjmedia_jbuf_put_frame3; destruct (jb_framelist_put_at _ _ _ _ _ _ _).
  destruct (make_room _ _ _ _ _ _ _ _ _ _) as [[[st fl] dis]|]; simpl; [|done].
  destruct (st =? PJ_SUCCESS); intros [= <- <-]; [rewrite update_settings|]; done.
Qed.

Lemma get_settings jb o jb' :
  pjmedia_jbuf_get_frame3 jb = Some (o, jb') -> jb_settings jb' = jb_settings jb.
Proof.
  unfold pjmedia_jbuf_get_frame3; destruct (jb_prefetching jb); simpl.
  { intros [= <- <-]; rewrite update_settings; done. }
  destruct (jb_framelist_get _) as [[[out|] fl]|]; simpl; [| |done]; intros [= <- <-];
    rewrite update_settings; [|done].
  case_bool_decide; destruct (_ =? _); done.
Qed.

(** ** Delivery in order *)

Fixpoint jb_run (ops : list jb_operation) (jb : pjmedia_jbuf) : option (list jb_out * pjmedia_jbuf) :=
  match ops with
  | [] => Some ([], jb)
  | op :: ops' =>
      '(o, jb1) ← jb_apply op jb;
      '(outs, jb2) ← jb_run ops' jb1;
      Some (match o with Some out => out :: outs | None => outs end, jb2)
  end.

(** PUT, GET and removal, with valid arguments. *)
Definition media_op (op : jb_operation) : Prop :=
  match op with
  | OpPut frame size _ seq _ => seq_ok seq /\ 0 <= size <= Z.of_nat (length frame)
  | OpGet => True
  | OpRemove c => is_u32 c
  | _ => False
  end.

Definition put_seqs (ops : list jb_operation) : list Z :=
  omap (fun op => match op with OpPut _ _ _ seq _ => Some seq | _ => None end) ops.

(** No frame arrives 99 or more behind one that arrived before it. *)
Definition bounded_misorder (seqs : list Z) : Prop :=
  ForallOrdPairs (fun s' s => s' - s < MAX_MISORDER - 1) seqs.

Section Delivery.
(** What is known of the frames stored: [P x s] for a frame [s] put at [x]. *)
Context (P : Z -> slot -> Prop).

Definition known (w : window) : Prop :=
  forall x b bits ts, at_seq w x (Frame b bits ts) -> P x (Frame b bits ts).

Lemma known_trim w w' : w_trim w w' -> known w -> known w'.
Proof. intros Ht Hk x b bits ts Hx; destruct (w_trim_at _ _ _ _ Ht Hx); [done|auto]. Qed.

(** One operation: the window moves up, keeps only known frames, and what it
    returns is a known frame from below the new window. *)
Definition delivers (op : jb_operation) (jb : pjmedia_jbuf) : Prop :=
  exists o jb', jb_apply op jb = Some (o, jb') /\ jb_inv jb' /\ jb_settings jb' = jb_settings jb
    /\ known (jb_window jb')
    /\ w_origin (jb_window jb) <= w_origin (jb_window jb')
    /\ (w_last (jb_window jb') = w_last (jb_window jb)
        \/ exists seq, seq ∈ put_seqs [op] /\ w_last (jb_window jb') = Z.max (w_last (jb_window jb)) seq)
    /\ (forall out, o = Some out ->
          (forall x, out_seq out = Some x -> w_origin (jb_window jb) <= x < w_origin (jb_window jb'))
          /\ (out_type out = PJMEDIA_JB_NORMAL_FRAME ->
              exists x, out_seq out = Some x /\ P x (out_slot out))).

Lemma delivers_put jb frame size bits seq ts :
  jb_inv jb -> media_op (OpPut frame size bits seq ts) -> known (jb_window jb) ->
  w_last (jb_window jb) - seq < MAX_MISORDER - 1 ->
  P seq (put_slot_of jb frame size bits ts) ->
  delivers (OpPut frame size bits seq ts) jb.
Proof.
  intros I Hop Hk Hlast HP.
  destruct Hop as [Hs Hf].
  destruct (put_frame_window jb frame size bits seq ts I Hs Hf) as (d & jb' & E & I' & Hres).
  exists None, jb'; split; [simpl; rewrite E; done|]; split; [done|].
  split; [eapply put_settings; exact E|].
  destruct (w_put _ _ _ _) as [w|] eqn:Ew.
  + destruct Hres as (_ & Ht & _); destruct (w_trim_last _ _ Ht) as [To Tl].
    pose proof (wf_max _ (ji_fl _ I)) as Hm; rewrite <- (ji_max _ I) in Hm.
    pose proof (wf_size _ (ji_fl _ I)) as Hsz; rewrite <- (ji_max _ I) in Hsz.
    assert (Ho : w_origin (jb_window jb) <= seq).
    { unfold w_put in Ew; destruct (w_late seq (jb_window jb)) eqn:El; [done|].
      unfold w_late in El; apply andb_false_iff in El as [El|El]; bool_hyps; [lia|].
      unfold w_last, w_len, MAX_MISORDER in *; lia. }
    destruct (w_put_moves _ _ _ _ _ Ew Ho) as [Mo Ml];
      [lia|unfold jb_window; rewrite w_len_window; lia|].
    split; [|split; [lia|split; [|done]]].
    * eapply known_trim; [exact Ht|]; intros x b bs tt Hx.
      destruct (w_put_at _ _ _ _ _ _ _ Ew Hx ltac:(lia)) as [|[[-> ->]|(y & Hy & _ & Hyx)]];
        [done|done|rewrite <- (Hyx Ho); apply Hk; done].
    * right; exists seq; split; [apply list_elem_of_here|lia].
  + destruct Hres as [_ Hw]; rewrite Hw; split; [done|]; split; [lia|]; split; [by left|done].
Qed.

Lemma delivers_get jb : jb_inv jb -> known (jb_window jb) -> delivers OpGet jb.
Proof.
  intros I Hk.
  destruct (get_frame_window jb I) as (out & jb' & E & I' & Hres).
  exists (Some out), jb'; split; [simpl; rewrite E; done|]; split; [done|].
  split; [eapply get_settings; exact E|].
  destruct (jb_prefetching jb).
  { destruct Hres as (Hty & Hsq & Ht); destruct (w_trim_last _ _ Ht) as [To Tl].
    split; [eapply known_trim; done|]; split; [lia|]; split; [by left|].
    intros ? [= <-]; rewrite Hsq, Hty; done. }
  destruct Hres as (Hsh & Ht & _); destruct (w_trim_last _ _ Ht) as [To Tl].
  destruct (w_get_last (jb_window jb)) as [Go Gl].
  split; [eapply known_trim; [exact Ht|]; intros x b bs tt Hx; apply Hk, w_get_at; done|].
  split; [lia|]; split; [left; lia|].
  intros ? [= <-]; destruct (w_get (jb_window jb)) as [[[x s]|] w] eqn:Eg; cbn [fst snd] in *.
  + destruct (w_get_out _ _ _ _ Eg) as [Hx Hs]; unfold shows in Hsh.
    destruct s as [| |b bs tt]; destruct Hsh as (Hty & Hsq & Hslot);
      (split; [intros ? Hx'; assert (x0 = x) by congruence; subst; lia|]);
      rewrite ?Hty; try done.
    intros _; exists x; rewrite Hslot; split; [done|].
    destruct Hs as [|Hs]; [done|]; apply Hk; done.
  + destruct Hsh as (-> & _ & ->); done.
Qed.

Lemma delivers_remove jb c :
  jb_inv jb -> is_u32 c -> known (jb_window jb) -> delivers (OpRemove c) jb.
Proof.
  intros I Hop Hk.
  destruct (jb_remove_spec jb c I Hop) as (n & jb' & E & I' & _ & Ew).
  exists None, jb'; split; [simpl; rewrite E; done|]; split; [done|].
  assert (Hset : jb_settings jb' = jb_settings jb).
  { unfold pjmedia_jbuf_remove_frame in E; destruct (jb_framelist_remove_head _ _).
    destruct (remove_more _ _ _ _) as [[]|]; [|done]; injection E as _ <-; done. }
  split; [done|]; rewrite Ew; pose proof (w_cut_length (Z.to_nat c) (w_slots (jb_window jb))).
  split; [intros x b bs tt Hx%at_drop; apply Hk; destruct (jb_window jb); done|].
  split; [simpl; lia|]; split; [left|done].
  unfold w_last, w_len; cbn [w_slots w_origin]; rewrite length_drop; lia.
Qed.

Lemma delivers_media op jb :
  jb_inv jb -> media_op op -> known (jb_window jb) ->
  (forall frame size bits seq ts, op = OpPut frame size bits seq ts ->
     w_last (jb_window jb) - seq < MAX_MISORDER - 1
     /\ P seq (put_slot_of jb frame size bits ts)) ->
  delivers op jb.
Proof.
  intros I Hop Hk Hput; destruct op as [frame size bits seq ts| |c| | | |]; try done.
  - destruct (Hput _ _ _ _ _ eq_refl); apply delivers_put; done.
  - apply delivers_get; done.
  - apply delivers_remove; done.
Qed.

Lemma deliver_run ops jb :
  jb_inv jb -> Forall media_op ops -> known (jb_window jb) ->
  Forall (fun s => w_last (jb_window jb) - s < MAX_MISORDER - 1) (put_seqs ops) ->
  bounded_misorder (put_seqs ops) ->
  (forall frame size bits seq ts, OpPut frame size bits seq ts ∈ ops ->
     P seq (put_slot_of jb frame size bits ts)) ->
  exists outs jb', jb_run ops jb = Some (outs, jb') /\ jb_inv jb'
    /\ StronglySorted Z.lt (omap out_seq outs)
    /\ Forall (fun x => w_origin (jb_window jb) <= x) (omap out_seq outs)
    /\ (forall o, o ∈ outs -> out_type o = PJMEDIA_JB_NORMAL_FRAME ->
          exists x, out_seq o = Some x /\ P x (out_slot o)).
Proof.
  revert jb; induction ops as [|op ops IH]; intros jb I Hops Hk Hlast Hmis HP.
  { exists [], jb; split; [done|]; split; [done|]; split; [constructor|]; split; [constructor|].
    intros o []%not_elem_of_nil. }
  apply Forall_cons_1 in Hops as [Hop Hops].
  destruct (delivers_media op jb I Hop Hk) as (o & jb1 & E & I1 & Hset & K1 & O1 & L1 & Hout).
  { intros frame size bits seq ts ->; simpl in Hlast; apply Forall_cons_1 in Hlast as [? _].
    split; [done|]; apply HP, list_elem_of_here. }
  assert (Hsplit : Forall (fun s => w_last (jb_window jb1) - s < MAX_MISORDER - 1) (put_seqs ops)
                   /\ bounded_misorder (put_seqs ops)).
  { destruct op; simpl in Hlast, Hmis, L1;
      try (destruct L1 as [->|(? & []%not_elem_of_nil & _)]; done).
    apply Forall_cons_1 in Hlast as [_ Hlast]; inversion Hmis as [|? ? Hfirst Hrest]; subst.
    split; [|done]; destruct L1 as [->|(x & Hx%list_elem_of_singleton & ->)]; [done|subst x].
    rewrite Forall_forall in *; intros s Hs; specialize (Hlast s Hs); specialize (Hfirst s Hs); lia. }
  destruct (IH jb1 I1 Hops K1 (proj1 Hsplit) (proj2 Hsplit)) as (outs & jb2 & E2 & I2 & Hsort & Hge & Hfr).
  { intros frame size bits seq ts Hin.
    replace (put_slot_of jb1 frame size bits ts) with (put_slot_of jb frame size bits ts)
      by (unfold put_slot_of; injection Hset as ->; done).
    apply HP, list_elem_of_further; done. }
  exists (match o with Some out => out :: outs | None => outs end), jb2.
  split; [simpl; rewrite E; simpl; rewrite E2; done|]; split; [done|].
  assert (Hge' : Forall (fun x => w_origin (jb_window jb) <= x) (omap out_seq outs))
    by (eapply Forall_impl; [exact Hge|]; cbv beta; intros; lia).
  destruct o as [out|]; [|done].
  destruct (Hout out eq_refl) as [Hseq Hnorm]; cbn [omap list_omap].
  split; [|split].
  - destruct (out_seq out) as [x|] eqn:Ex; [|done]; constructor; [done|].
    rewrite Forall_forall in *; intros y Hy; specialize (Hge y Hy); specialize (Hseq x eq_refl); lia.
  - destruct (out_seq out) as [x|] eqn:Ex; [|done]; constructor; [|done].
    specialize (Hseq x eq_refl); lia.
  - intros o' [->|Hin]%elem_of_cons; auto.
Qed.
End Delivery.
