(* ===== verification/JbufProps.v ===== *)
(** * Properties of the jitter buffer

    The theorems about [jbuf.c] in terms of its entry points, each with a
    concrete instance, and the defects found on the way. *)

From Stdlib Require Import ZArith Lia Bool Sorted.
From stdpp Require Import base list numbers option sorting.
From S2P Require Import Prelude Jbuf JbufRing JbufWindow JbufSpec.
Local Open Scope Z_scope.

(** ** A small buffer *)

(** Four slots of two bytes, 20 ms frames; the fresh arrays hold junk. *)
Definition demo_buf : pjmedia_jbuf :=
  pjmedia_jbuf_create (replicate 4 [170; 187]) (replicate 4 7) (replicate 4 9)
    (replicate 4 5) (replicate 4 6) 2 20 4.

Lemma demo_created : jb_created demo_buf.
Proof.
  constructor; [|unfold PJMEDIA_JBUF_DISC_MIN_GAP; lia].
  constructor; simpl; unfold seq_bound; try lia.
  intros p Hp; assert (p = 0 \/ p = 1 \/ p = 2 \/ p = 3) as [->|[->|[->| ->]]] by lia; done.
Qed.

(** The same buffer set to fixed mode without prefetch, and restarted. *)
Definition fixed_buf : pjmedia_jbuf :=
  pjmedia_jbuf_reset (snd (pjmedia_jbuf_set_fixed demo_buf 0)).

Lemma fixed_reachable : jb_reachable fixed_buf.
Proof.
  eapply (reach_op _ OpReset); [|done|reflexivity].
  eapply (reach_op demo_buf (OpFixed 0)); [apply reach_create, demo_created|simpl; lia|reflexivity].
Qed.

(** ** Refinement *)

(** C4. Every operation of a reachable jitter buffer is an operation on its window of
    numbered frames.  A PUT stores the frame as [w_put] says (late and duplicate
    frames refused, a restart renumbers, an overfull window loses its oldest
    slots) and reports a frame as discarded exactly when the window refuses it;
    a GET gives what [w_get] gives unless the buffer is prefetching; a removal
    takes the oldest frames and reports their number.  After a PUT or a GET at
    most one more slot is dropped or marked by the discard algorithm. *)
Theorem jbuf_refines_window jb :
  jb_reachable jb ->
  (forall frame size bits seq ts,
     seq_ok seq -> 0 <= size <= Z.of_nat (length frame) ->
     exists discarded jb',
       pjmedia_jbuf_put_frame3 jb frame size bits seq ts = Some (discarded, jb')
       /\ match w_put (jb_max_count jb) seq (put_slot_of jb frame size bits ts) (jb_window jb) with
          | Some w => discarded = false /\ w_trim w (jb_window jb')
          | None => discarded = true /\ jb_window jb' = jb_window jb
          end)
  /\ (exists o jb', pjmedia_jbuf_get_frame3 jb = Some (o, jb')
      /\ if jb_prefetching jb
         then out_type o = PJMEDIA_JB_ZERO_PREFETCH_FRAME /\ w_trim (jb_window jb) (jb_window jb')
         else shows o (fst (w_get (jb_window jb)))
              /\ w_trim (snd (w_get (jb_window jb))) (jb_window jb'))
  /\ (forall c, is_u32 c -> exists jb',
        pjmedia_jbuf_remove_frame jb c
        = Some (Z.min c (n_kept (w_slots (jb_window jb))), jb')
        /\ let k := w_cut (Z.to_nat c) (w_slots (jb_window jb)) in
           jb_window jb' = Win (w_origin (jb_window jb) + Z.of_nat k)
                             (drop k (w_slots (jb_window jb)))).
Proof.
  intros I%jb_reachable_inv; split; [|split].
  - intros frame size bits seq ts Hs Hf.
    destruct (put_frame_window jb frame size bits seq ts I Hs Hf) as (d & jb' & E & _ & Hres).
    exists d, jb'; split; [done|]; destruct (w_put _ _ _ _); [|done].
    destruct Hres as (? & ? & _); done.
  - destruct (get_frame_window jb I) as (o & jb' & E & _ & Hres).
    exists o, jb'; split; [done|]; destruct (jb_prefetching jb).
    + destruct Hres as (? & _ & ?); done.
    + destruct Hres as (? & ? & _); done.
  - intros c Hc; destruct (jb_remove_spec jb c I Hc) as (n & jb' & E & _ & -> & Ew).
    exists jb'; done.
Qed.

Lemma jbuf_refines_window_witness :
  exists jb', pjmedia_jbuf_get_frame3 fixed_buf = Some (mk_out (Some [0; 0]) (Some 0) 3 None None None, jb')
    /\ w_trim (snd (w_get (jb_window fixed_buf))) (jb_window jb').
Proof.
  destruct (jbuf_refines_window fixed_buf fixed_reachable) as (_ & (o & jb' & E & H) & _).
  exists jb'; split; [|exact (proj2 H)].
  rewrite E; vm_compute in E; injection E as <- <-; reflexivity.
Defined.

(** ** Safety *)

(** C38. Take a jitter buffer created for frames of at most 200 ms (the least
    gap between discards), and any sequence of operations on it whose arguments
    are in range: sequence numbers within 2^29, sizes within the frame passed,
    non-negative prefetches; and the progressive discard algorithm chosen again
    only when no marked slot lies behind its reference.  In every state so
    reached no operation runs for ever: the loops that skip discarded slots, make
    room, look for a frame to peek at and remove frames all end.  The ring stays
    within its arrays, its count of discarded frames is exact, and the prefetch
    stays within the capacity.  ([long_frames_miscount] shows that longer frames
    spoil the count.) *)
Theorem jbuf_always_answers jb :
  jb_reachable jb ->
  (forall op, jb_op_ok jb op -> is_Some (jb_apply op jb))
  /\ (forall offset, is_u32 offset -> is_Some (pjmedia_jbuf_peek_frame jb offset))
  /\ let fl := jb_framelist jb in
     0 <= fl_head fl < fl_max_count fl /\ 0 <= fl_size fl <= fl_max_count fl
     /\ fl_discarded_num fl = n_disc (win fl)
     /\ jb_framelist_eff_size fl = n_kept (win fl)
     /\ 0 <= jb_prefetch jb <= jb_max_count jb.
Proof.
  intros I%jb_reachable_inv; pose proof (ji_fl _ I) as W; split; [|split].
  - intros op Hok; destruct (jb_apply_inv jb op I Hok) as (o & jb' & -> & _); eexists; done.
  - intros offset Ho; pose proof (peek_spec (jb_framelist jb) offset W Ho) as Hp.
    unfold pjmedia_jbuf_peek_frame; destruct (w_live _ !! _).
    + destruct Hp as (o & -> & _); eexists; done.
    + rewrite Hp; eexists; done.
  - intros fl; pose proof (ji_prefetch _ I); pose proof (ji_max_prefetch _ I).
    split; [apply W|]; split; [apply W|]; split; [apply W|].
    split; [apply eff_size_eq; done|lia].
Qed.

Lemma jbuf_always_answers_witness :
  is_Some (jb_apply OpGet fixed_buf) /\ is_Some (pjmedia_jbuf_peek_frame fixed_buf 3).
Proof.
  destruct (jbuf_always_answers fixed_buf fixed_reachable) as (Hop & Hpeek & _).
  split; [exact (Hop OpGet I)|apply Hpeek; unfold is_u32; lia].
Defined.

(** C5. On a fresh jitter buffer run any sequence of PUTs, GETs and removals in
    which no frame arrives 99 or more behind an earlier one.  Then the sequence
    numbers that the GETs return are strictly increasing, so no frame is
    delivered twice or out of order, and every frame delivered is one that was
    put with that number: same bit info and timestamp, and the bytes that fit a
    slot. *)
Theorem jbuf_delivers_in_order jb ops :
  jb_created jb -> Forall media_op ops -> Forall (fun s => 0 <= s) (put_seqs ops) ->
  bounded_misorder (put_seqs ops) ->
  exists outs jb', jb_run ops jb = Some (outs, jb')
    /\ StronglySorted Z.lt (omap out_seq outs)
    /\ forall o, o ∈ outs -> out_type o = PJMEDIA_JB_NORMAL_FRAME ->
         exists frame size bits seq ts,
           OpPut frame size bits seq ts ∈ ops /\ out_seq o = Some seq
           /\ out_slot o = put_slot_of jb frame size bits ts.
Proof.
  intros Hc Hops Hpos Hmis; destruct (jb_inv_created jb Hc) as [I Ew].
  pose (P := fun x s => exists frame size bits ts,
    OpPut frame size bits x ts ∈ ops /\ s = put_slot_of jb frame size bits ts).
  destruct (deliver_run P ops jb I Hops) as (outs & jb' & E & _ & Hsort & _ & Hfr).
  - rewrite Ew; intros x b bits ts []%at_nil.
  - rewrite Ew; unfold w_last, w_len; simpl.
    eapply Forall_impl; [exact Hpos|]; intros s Hs; unfold INVALID_OFFSET, MAX_MISORDER; simpl in *; lia.
  - done.
  - intros frame size bits seq ts Hin; exists frame, size, bits, ts; done.
  - exists outs, jb'; split; [done|]; split; [done|].
    intros o Ho Hn; destruct (Hfr o Ho Hn) as (x & Hx & frame & size & bits & ts & Hin & Hs).
    exists frame, size, bits, x, ts; done.
Qed.

Definition demo_ops : list jb_operation :=
  [OpPut [1; 2] 2 0 7 70; OpPut [3; 4] 2 0 9 90; OpPut [5; 6] 2 0 8 80; OpGet; OpGet; OpGet].

Lemma jbuf_delivers_in_order_witness :
  exists outs jb', jb_run demo_ops demo_buf = Some (outs, jb')
    /\ StronglySorted Z.lt (omap out_seq outs).
Proof.
  destruct (jbuf_delivers_in_order demo_buf demo_ops demo_created) as (outs & jb' & E & Hs & _).
  - repeat constructor; unfold seq_bound; simpl; lia.
  - repeat constructor; lia.
  - repeat constructor; unfold MAX_MISORDER; lia.
  - exists outs, jb'; exact (conj E Hs).
Defined.

(** ** Reordering *)

(** A frame with its bit info and timestamp. *)
Definition media_frame : Type := (list Z * Z * Z)%type.
Definition mf_put (s : Z) (fr : list media_frame) (i : nat) : jb_operation :=
  let '(bytes, bits, ts) := default ([], 0, 0) (fr !! i) in
  OpPut bytes (Z.of_nat (length bytes)) bits (s + Z.of_nat i) ts.
Definition mf_slot (f : media_frame) : slot := let '(bytes, bits, ts) := f in Frame bytes bits ts.

Lemma mf_put_eq s fr i bytes bits ts : fr !! i = Some (bytes, bits, ts) ->
  mf_put s fr i = OpPut bytes (Z.of_nat (length bytes)) bits (s + Z.of_nat i) ts.
Proof. intros Hf; unfold mf_put; rewrite Hf; done. Qed.

(** The slots when the frames [done] of [fr] have arrived. *)
Record filled (fr : list media_frame) (done : list nat) (l : list slot) : Prop := {
  fi_length : (length l <= length fr)%nat;
  fi_in : forall i, i ∈ done -> (i < length l)%nat;
  fi_slot : forall i s, l !! i = Some s ->
    if decide (i ∈ done) then mf_slot <$> fr !! i = Some s else s = Missing }.

Lemma filled_put max s fr done l i f :
  filled fr done l -> l <> [] -> (i ∉ done) -> fr !! i = Some f ->
  Z.of_nat (length fr) <= max ->
  exists l', w_put max (s + Z.of_nat i) (mf_slot f) (Win s l) = Some (Win s l')
    /\ filled fr (i :: done) l' /\ l' <> [].
Proof.
  intros [Hlen Hin Hslot] Hne Hi Hf Hmax.
  pose proof (lookup_lt_Some _ _ _ Hf) as Hlt.
  exists (w_store i (mf_slot f) l).
  assert (Hpos : 0 < w_len (Win s l)) by (unfold w_len; destruct l; [done|simpl; lia]).
  assert (Hd : s + Z.of_nat i - s = Z.of_nat i) by lia.
  split; [|split; [constructor|]].
  - unfold w_put, w_late, w_place.
    replace (s + Z.of_nat i <? w_origin (Win s l)) with false by (simpl; lia).
    replace (w_len (Win s l) =? 0) with false by lia; simpl w_origin; rewrite Hd; simpl andb; cbv iota.
    replace (Z.of_nat i <? max) with true by lia.
    unfold w_insert; rewrite Nat2Z.id; simpl w_slots.
    destruct (l !! i) as [x|] eqn:Ex; [|done].
    specialize (Hslot i x Ex); rewrite decide_False in Hslot by done; subst x; done.
  - rewrite w_store_length; lia.
  - intros j [->|Hj]%elem_of_cons; rewrite w_store_length; [lia|]; specialize (Hin j Hj); lia.
  - intros j x Hx; pose proof (lookup_lt_Some _ _ _ Hx) as Hj; rewrite w_store_length in Hj.
    rewrite w_store_lookup in Hx by done.
    destruct (decide (j = i)) as [->|Hne'].
    + rewrite decide_True by apply list_elem_of_here; rewrite Hf; done.
    + destruct (decide (j < length l)%nat) as [Hjl|Hjl].
      * specialize (Hslot j x Hx); destruct (decide (j ∈ done)) as [Hd'|Hd'].
        -- rewrite decide_True by (apply list_elem_of_further; done); done.
        -- rewrite decide_False by (rewrite elem_of_cons; tauto); done.
      * injection Hx as <-; rewrite decide_False; [done|].
        rewrite elem_of_cons; intros [|Hd']; [done|]; specialize (Hin j Hd'); lia.
  - intros E; apply (f_equal length) in E; rewrite w_store_length in E; simpl in E; lia.
Qed.

Section Reorder.
Context (s : Z) (fr : list media_frame).

(** In fixed mode a buffer that is ready to deliver holds exactly what the
    frames put so far say. *)
Record holding (done : list nat) (jb : pjmedia_jbuf) : Prop := {
  ho_inv : jb_inv jb;
  ho_none : jb_discard_algo jb = PJMEDIA_JB_DISCARD_NONE;
  ho_fit : Forall (fun f : media_frame => Z.of_nat (length f.1.1) <= jb_frame_size jb) fr;
  ho_cap : Z.of_nat (length fr) <= jb_max_count jb;
  ho_range : forall i, (i < length fr)%nat -> seq_ok (s + Z.of_nat i);
  ho_prefetch : jb_prefetching jb = true -> n_kept (w_slots (jb_window jb)) < jb_prefetch jb;
  ho_window : exists l, jb_window jb = Win s l /\ filled fr done l /\ l <> [] }.

Lemma put_slot_fits jb bytes bits ts :
  Z.of_nat (length bytes) <= jb_frame_size jb ->
  put_slot_of jb bytes (Z.of_nat (length bytes)) bits ts = Frame bytes bits ts.
Proof.
  intros; unfold put_slot_of; rewrite Z.min_l, Nat2Z.id, take_ge by lia; done.
Qed.

(** The result of putting frame [i], given what the window makes of it. *)
Lemma put_step jb done i f l' :
  jb_inv jb -> jb_discard_algo jb = PJMEDIA_JB_DISCARD_NONE ->
  Forall (fun f : media_frame => Z.of_nat (length f.1.1) <= jb_frame_size jb) fr ->
  Z.of_nat (length fr) <= jb_max_count jb ->
  (forall i, (i < length fr)%nat -> seq_ok (s + Z.of_nat i)) ->
  fr !! i = Some f ->
  w_put (jb_max_count jb) (s + Z.of_nat i) (mf_slot f) (jb_window jb) = Some (Win s l') ->
  filled fr done l' -> l' <> [] ->
  exists jb', jb_apply (mf_put s fr i) jb = Some (None, jb') /\ holding done jb'
    /\ jb_prefetch jb' = jb_prefetch jb.
Proof.
  intros I Hn Hfit Hcap Hr Hf Hput Hfill Hne.
  destruct f as [[bytes bits] ts]; simpl mf_slot in Hput; rewrite (mf_put_eq _ _ _ _ _ _ Hf).
  pose proof (proj1 (Forall_lookup _ _) Hfit i _ Hf) as Hfits; simpl in Hfits.
  destruct (put_frame_window jb bytes (Z.of_nat (length bytes)) bits (s + Z.of_nat i) ts I)
    as (d & jb' & E & I' & Hres); [apply Hr, (lookup_lt_Some _ _ _ Hf)|lia|].
  rewrite put_slot_fits, Hput in Hres by done; destruct Hres as (_ & _ & Hw & Hp & Hpre).
  exists jb'; split; [simpl; rewrite E; done|]; split; [|done].
  pose proof (put_settings _ _ _ _ _ _ _ _ E) as Hset; injection Hset as S1 S2 S3 S4.
  constructor; rewrite ?S1, ?S2, ?S3; try done.
  - rewrite Hpre, Hp, (Hw Hn); simpl; intros [_ Hlt]%andb_true_iff.
    apply negb_true_iff in Hlt; rewrite Z.geb_leb in Hlt; bool_hyps; lia.
  - exists l'; rewrite (Hw Hn); done.
Qed.

Lemma put_all order done jb :
  holding done jb -> NoDup order -> (forall i, i ∈ order -> (i ∉ done) /\ (i < length fr)%nat) ->
  exists jb', jb_run (mf_put s fr <$> order) jb = Some ([], jb')
    /\ holding (rev order ++ done) jb' /\ jb_prefetch jb' = jb_prefetch jb.
Proof.
  revert done jb; induction order as [|i order IH]; intros done jb H Hnd Hin.
  { exists jb; done. }
  apply NoDup_cons in Hnd as [Hi Hnd].
  destruct (Hin i (list_elem_of_here _ _)) as [Hid Hlt].
  destruct (lookup_lt_is_Some_2 _ _ Hlt) as [f Hf].
  pose proof H as [I Hn Hfit Hcap Hr Hpre (l & Ew & Hfill & Hne)].
  destruct (filled_put (jb_max_count jb) s fr done l i f Hfill Hne Hid Hf Hcap)
    as (l' & Hput & Hfill' & Hne').
  rewrite <- Ew in Hput.
  destruct (put_step jb (i :: done) i f l' I Hn Hfit Hcap Hr Hf Hput Hfill' Hne')
    as (jb1 & E1 & H1 & P1).
  destruct (IH (i :: done) jb1 H1 Hnd) as (jb2 & E2 & H2 & P2).
  { intros j Hj; destruct (Hin j (list_elem_of_further _ _ _ Hj)); split; [|done].
    rewrite elem_of_cons; intros [->|]; done. }
  exists jb2; split; [rewrite fmap_cons; simpl jb_run; rewrite E1; simpl; rewrite E2; done|].
  simpl; rewrite <- app_assoc; split; [done|congruence].
Qed.

(** Then the frames come out in order. *)
Lemma get_all (m k : nat) jb :
  jb_inv jb -> jb_discard_algo jb = PJMEDIA_JB_DISCARD_NONE -> jb_prefetching jb = false ->
  jb_window jb = Win (s + Z.of_nat k) (drop k (mf_slot <$> fr)) -> (k + m <= length fr)%nat ->
  exists outs jb', jb_run (replicate m OpGet) jb = Some (outs, jb')
    /\ length outs = m
    /\ forall j o, outs !! j = Some o ->
         exists f, fr !! (k + j)%nat = Some f
           /\ out_type o = PJMEDIA_JB_NORMAL_FRAME /\ out_seq o = Some (s + Z.of_nat (k + j))
           /\ out_slot o = mf_slot f.
Proof.
  revert k jb; induction m as [|m IH]; intros k jb I Hn Hp Ew Hk.
  { exists [], jb; split; [done|]; split; [done|]; intros j o Hj; done. }
  destruct (lookup_lt_is_Some_2 fr k ltac:(lia)) as [f Hf].
  destruct (get_frame_window jb I) as (o & jb1 & E & I1 & Hres); rewrite Hp in Hres.
  assert (Hd : drop k (mf_slot <$> fr) = mf_slot f :: drop (S k) (mf_slot <$> fr))
    by (apply drop_S; rewrite list_lookup_fmap, Hf; done).
  assert (Hg : w_get (jb_window jb)
    = (Some (s + Z.of_nat k, mf_slot f), Win (s + Z.of_nat (S k)) (drop (S k) (mf_slot <$> fr)))).
  { replace (s + Z.of_nat (S k)) with (s + Z.of_nat k + 1) by lia.
    rewrite Ew, Hd; unfold w_get; simpl w_slots; destruct f as [[bytes bits] ts]; simpl.
    rewrite Z.add_0_r; done. }
  rewrite Hg in Hres; destruct Hres as (Hsh & _ & Hw & Hpre).
  pose proof (get_settings _ _ _ E) as Hset; injection Hset as S1 S2 S3 S4.
  destruct (IH (S k) jb1 I1) as (outs & jb2 & E2 & Hl & Hall); try done.
  { rewrite S3; done. }
  { apply Hpre; eexists; done. }
  { apply Hw; done. }
  { lia. }
  exists (o :: outs), jb2; split; [simpl; rewrite E; simpl; rewrite E2; done|].
  split; [simpl; lia|]; intros [|j] o' Hj; simpl in Hj.
  - injection Hj as <-; exists f; rewrite Nat.add_0_r; split; [done|].
    destruct f as [[bytes bits] ts]; exact Hsh.
  - destruct (Hall j o' Hj) as (f' & Hf' & Hrest); exists f'.
    replace (k + S j)%nat with (S k + j)%nat by lia; done.
Qed.
End Reorder.

Lemma filled_all fr done l :
  filled fr done l -> (forall i, (i < length fr)%nat -> i ∈ done) -> l = mf_slot <$> fr.
Proof.
  intros [Hlen Hin Hslot] Hall; apply list_eq; intros i; rewrite list_lookup_fmap.
  destruct (decide (i < length fr)%nat) as [Hi|Hi].
  - pose proof (Hin i (Hall i Hi)) as Hl; apply lookup_lt_is_Some_2 in Hl as [x Hx].
    specialize (Hslot i x Hx); rewrite decide_True in Hslot by auto; rewrite Hslot, Hx; done.
  - rewrite !lookup_ge_None_2; [done|lia|lia].
Qed.

Lemma n_disc_frames (fr : list media_frame) : n_disc (mf_slot <$> fr) = 0.
Proof.
  induction fr as [|[[b bits] ts] fr IH]; [done|].
  rewrite fmap_cons, n_disc_cons, IH, bool_decide_eq_false_2; done.
Qed.

Lemma jb_run_app a b j o1 j1 : jb_run a j = Some (o1, j1) ->
  jb_run (a ++ b) j = ('(o2, j2) ← jb_run b j1; Some (o1 ++ o2, j2)).
Proof.
  revert j o1; induction a as [|op a IH]; intros j o1 E; simpl in *.
  - injection E as <- <-; destruct (jb_run b j) as [[]|]; done.
  - destruct (jb_apply op j) as [[o j']|]; simpl in *; [|done].
    destruct (jb_run a j') as [[oa ja]|] eqn:Ea; simpl in *; [|done].
    injection E as <- <-; rewrite (IH j' oa Ea).
    destruct (jb_run b ja) as [[]|]; simpl; destruct o; done.
Qed.

(** The jitter buffer undoes jitter.  Take an empty buffer in fixed mode
    whose prefetch is at most [n] frames.  Put frame [s] and then the frames
    [s+1 .. s+n-1] in any order, each no longer than a slot and [n] within the
    capacity.  Then [n] GETs return the frames [s, s+1, ..] in order, each
    complete with its bit info and timestamp, none lost. *)
Theorem jbuf_reorders jb s fr order :
  jb_reachable jb -> jb_discard_algo jb = PJMEDIA_JB_DISCARD_NONE ->
  w_slots (jb_window jb) = [] -> w_late s (jb_window jb) = false ->
  fr <> [] -> Z.of_nat (length fr) <= jb_max_count jb -> jb_prefetch jb <= Z.of_nat (length fr) ->
  Forall (fun f : media_frame => Z.of_nat (length f.1.1) <= jb_frame_size jb) fr ->
  seq_ok s -> seq_ok (s + Z.of_nat (length fr)) ->
  order ≡ₚ seq 1 (length fr - 1) ->
  exists outs jb',
    jb_run ((mf_put s fr <$> 0%nat :: order) ++ replicate (length fr) OpGet) jb = Some (outs, jb')
    /\ length outs = length fr
    /\ forall i o, outs !! i = Some o ->
         exists f, fr !! i = Some f
           /\ out_type o = PJMEDIA_JB_NORMAL_FRAME /\ out_seq o = Some (s + Z.of_nat i)
           /\ out_slot o = mf_slot f.
Proof.
  intros I%jb_reachable_inv Hn Hempty Hlate Hne Hcap Hpf Hfit Hs Hs' Hord.
  assert (Hrange : forall i, (i < length fr)%nat -> seq_ok (s + Z.of_nat i))
    by (unfold seq_ok in *; intros; lia).
  pose proof (wf_max _ (ji_fl _ I)) as Hmax; rewrite <- (ji_max _ I) in Hmax.
  destruct fr as [|f0 fr'] eqn:Efr; [done|]; rewrite <- Efr in *.
  assert (Hf0 : fr !! 0%nat = Some f0) by (rewrite Efr; done).
  assert (Hlen : length fr = S (length fr')) by (rewrite Efr; done).
  assert (Hput : w_put (jb_max_count jb) (s + Z.of_nat 0) (mf_slot f0) (jb_window jb)
                 = Some (Win s [mf_slot f0])).
  { rewrite Z.add_0_r; unfold w_put; rewrite Hlate; unfold w_place, w_len; rewrite Hempty; simpl.
    replace (s - s <? jb_max_count jb) with true by lia; replace (s - s) with 0 by lia; done. }
  destruct (put_step s fr jb [0%nat] 0 f0 [mf_slot f0] I Hn Hfit Hcap Hrange Hf0 Hput)
    as (jb1 & E1 & H1 & P1); [|done|].
  { constructor; [simpl; lia|intros i ->%list_elem_of_singleton; simpl; lia|].
    intros [|i] x Hx; [|done]; injection Hx as <-.
    rewrite decide_True by apply list_elem_of_here; rewrite Hf0; done. }
  assert (Hin : forall i, i ∈ order <-> (1 <= i < length fr)%nat)
    by (intros i; rewrite Hord, elem_of_seq; lia).
  destruct (put_all s fr order [0%nat] jb1 H1) as (jb2 & E2 & H2 & P2).
  { rewrite Hord; apply NoDup_seq. }
  { intros i Hi%Hin; split; [rewrite list_elem_of_singleton; lia|lia]. }
  destruct H2 as [I2 Hn2 _ _ _ Hpre2 (l & Ew & Hfill & _)].
  assert (Hl : l = mf_slot <$> fr).
  { apply (filled_all _ _ _ Hfill); intros i Hi; rewrite elem_of_app.
    destruct i as [|i]; [right; apply list_elem_of_here|left].
    rewrite list_elem_of_In, <- in_rev, <- list_elem_of_In; apply Hin; lia. }
  destruct (get_all s fr (length fr) 0 jb2 I2 Hn2) as (outs & jb3 & E3 & Ho & Hall).
  { destruct (jb_prefetching jb2); [|done]; specialize (Hpre2 eq_refl).
    rewrite Ew, Hl in Hpre2; simpl in Hpre2; unfold n_kept in Hpre2.
    rewrite length_fmap, n_disc_frames in Hpre2; lia. }
  { rewrite Ew, Hl, Z.add_0_r, drop_0; done. }
  { lia. }
  exists outs, jb3; split; [|split; [done|exact Hall]].
  rewrite (jb_run_app _ _ jb [] jb2); [rewrite E3; done|].
  rewrite fmap_cons; simpl jb_run; rewrite E1; simpl; rewrite E2; done.
Qed.

Definition demo_frames : list media_frame := [([1; 2], 0, 70); ([3], 1, 80); ([5; 6], 0, 90)].

Lemma jbuf_reorders_witness :
  exists outs jb',
    jb_run ((mf_put 7 demo_frames <$> [0; 2; 1]%nat) ++ replicate 3 OpGet) fixed_buf = Some (outs, jb')
    /\ (out_slot <$> outs) = (mf_slot <$> demo_frames).
Proof.
  destruct (jbuf_reorders fixed_buf 7 demo_frames [2; 1]%nat fixed_reachable)
    as (outs & jb' & E & _ & _).
  - reflexivity.
  - reflexivity.
  - reflexivity.
  - discriminate.
  - vm_compute; discriminate.
  - vm_compute; discriminate.
  - repeat constructor; vm_compute; discriminate.
  - unfold seq_ok, seq_bound; lia.
  - unfold seq_ok, seq_bound; simpl length; lia.
  - apply Permutation_swap.
  - exists outs, jb'; split; [exact E|]; vm_compute in E; injection E as <- _; reflexivity.
Defined.

(** ** Defects *)

(** The discard distance can be zero when a frame lasts longer than the least
    gap of 200 ms.  A frame that fills a hole then makes the progressive
    algorithm discard its last slot a second time; the slot is counted twice, and
    the emptied buffer has an effective size of 2^32 - 1. *)
Definition long_buf : pjmedia_jbuf :=
  pjmedia_jbuf_create (replicate 40 [0]) (replicate 40 0) (replicate 40 0)
    (replicate 40 0) (replicate 40 0) 1 1000 40.
Definition long_ops : list jb_operation :=
  mjoin ((fun i => [OpPut [i] 1 0 i 0; OpGet]) <$> seqZ 0 12)
  ++ [OpGet; OpPut [13] 1 0 13 0; OpGet; OpPut [12] 1 0 12 0; OpRemove 100].

Theorem long_frames_miscount :
  (fun '(_, jb) => (w_slots (jb_window jb), fl_discarded_num (jb_framelist jb),
                    jb_framelist_eff_size (jb_framelist jb)))
    <$> jb_run long_ops long_buf = Some ([], 1, 4294967295).
Proof. vm_compute; reflexivity. Qed.

(** A GET of a missing frame copies what the slot held before to the caller,
    where the header says that no frame is copied. *)
Theorem missing_frame_is_copied :
  (fun '((outs, _) : list jb_out * pjmedia_jbuf) => (fun o => (out_type o, out_frame o)) <$> outs)
    <$> jb_run [OpPut [1; 2] 2 0 7 70; OpPut [3; 4] 2 0 9 90; OpGet; OpGet] fixed_buf
  = Some [(PJMEDIA_JB_NORMAL_FRAME, Some [1; 2]); (PJMEDIA_JB_MISSING_FRAME, Some [170; 187])].
Proof. vm_compute; reflexivity. Qed.

(** Behind a discarded slot, a peek shows the right frame with the wrong
    sequence number. *)
Theorem peek_counts_from_origin fl bytes bits ts l :
  fl_wf fl -> win fl = Discarded :: Frame bytes bits ts :: l ->
  exists o, jb_framelist_peek fl 0 = Some (Some o)
    /\ out_slot o = Frame bytes bits ts
    /\ at_seq (fl_window fl) (fl_origin fl + 1) (Frame bytes bits ts)
    /\ out_seq o = Some (fl_origin fl).
Proof.
  intros W Ew; pose proof (peek_spec fl 0 W ltac:(lia)) as Hp; rewrite Ew in Hp; simpl in Hp.
  destruct Hp as (o & E & Hs & Hq); rewrite Z.add_0_r in Hq.
  exists o; split; [done|]; split; [done|]; split; [|done].
  exists 1%nat; simpl; rewrite Ew; done.
Qed.

(** A buffer whose initial prefetch was never configured keeps its prefetch
    through every calculation. *)
Lemma update_prefetch_0 jb oper :
  jb_init_prefetch jb = 0 -> jb_prefetch (jbuf_update jb oper) = jb_prefetch jb.
Proof.
  intros H0.
  assert (Hm : forall j, jb_init_prefetch j = 0 -> jb_prefetch j = jb_prefetch jb ->
    jb_prefetch (run_discard_algo (measure_burst oper j)) = jb_prefetch jb).
  { intros j Hj Hp; rewrite (proj2 (discard_algo_flags _)); unfold measure_burst.
    destruct (_ && _); [|done]; unfold jbuf_calculate_jitter.
    destruct (_ <? _); [destruct (_ >? _); [|done]|destruct (_ >? _); [|done]];
      destruct j; simpl in *; rewrite Hj; done. }
  unfold jbuf_update; case_bool_decide; [apply discard_algo_flags|].
  destruct (_ =? _); [destruct (_ && _); [|done]|]; apply Hm; done.
Qed.

Lemma media_prefetch_0 jb op o jb' :
  jb_init_prefetch jb = 0 -> media_op op -> jb_apply op jb = Some (o, jb') ->
  jb_prefetch jb' = jb_prefetch jb /\ jb_init_prefetch jb' = 0.
Proof.
  intros H0 Hop Ha; destruct op as [frame size bits seq ts| |c| | | |]; try done; simpl in Ha.
  - destruct (pjmedia_jbuf_put_frame3 _ _ _ _ _ _) as [[d j]|] eqn:E; [|done]; injection Ha as <- <-.
    pose proof (put_settings _ _ _ _ _ _ _ _ E) as Hs; injection Hs as _ _ _ Hi.
    split; [|congruence]; revert E; unfold pjmedia_jbuf_put_frame3.
    destruct (jb_framelist_put_at _ _ _ _ _ _ _).
    destruct (make_room _ _ _ _ _ _ _ _ _ _) as [[[st fl] dis]|]; simpl; [|done].
    destruct (st =? PJ_SUCCESS); intros [= <- <-]; [rewrite update_prefetch_0|]; done.
  - destruct (pjmedia_jbuf_get_frame3 _) as [[d j]|] eqn:E; [|done]; injection Ha as <- <-.
    pose proof (get_settings _ _ _ E) as Hs; injection Hs as _ _ _ Hi.
    split; [|congruence]; revert E; unfold pjmedia_jbuf_get_frame3.
    destruct (jb_prefetching jb); cbn [mbind option_bind].
    { intros [= <- <-]; rewrite update_prefetch_0; done. }
    destruct (jb_framelist_get _) as [[[out|] fl]|]; cbn [mbind option_bind]; [| |done];
      intros [= <- <-].
    + case_bool_decide; destruct (_ =? _); rewrite update_prefetch_0; done.
    + rewrite update_prefetch_0; done.
  - unfold pjmedia_jbuf_remove_frame in Ha; destruct (jb_framelist_remove_head _ _).
    destruct (remove_more _ _ _ _) as [[]|]; [|done]; injection Ha as <- <-; done.
Qed.

(** A created buffer is documented as adaptive, but until the application calls
    [pjmedia_jbuf_set_adaptive] or [pjmedia_jbuf_set_fixed] its prefetch never
    changes, whatever the jitter. *)
Theorem default_prefetch_is_fixed jb ops outs jb' :
  jb_created jb -> Forall media_op ops -> jb_run ops jb = Some (outs, jb') ->
  jb_prefetch jb' = jb_prefetch jb.
Proof.
  intros Hc; assert (H0 : jb_init_prefetch jb = 0) by (destruct Hc; done); clear Hc.
  revert jb outs H0; induction ops as [|op ops IH]; intros jb outs H0 Hops E; simpl in E.
  - injection E as _ <-; done.
  - apply Forall_cons_1 in Hops as [Hop Hops].
    destruct (jb_apply op jb) as [[o j]|] eqn:Ea; simpl in E; [|done].
    destruct (media_prefetch_0 jb op o j H0 Hop Ea) as [Hp Hi].
    destruct (jb_run ops j) as [[os j']|] eqn:Er; simpl in E; [|done]; injection E as _ <-.
    rewrite (IH j os Hi Hops Er); done.
Qed.
