(* ===== verification/Scanner.v ===== *)
(** * The text scanner

    Model of [pjlib-util/src/pjlib-util/scanner.c], the scanner under the SDP
    parser.  Its state is the text from [curptr] to [end], behind which the
    buffer has a NUL; a syntax error, which calls the error callback and
    throws, is [None].  The option [PJ_SCAN_AUTOSKIP_WS] is the argument [ws];
    the options that skip newlines, and the line counter of the error
    messages, are not modelled. *)

From Stdlib Require Import ZArith Lia Bool.
From stdpp Require Import base list numbers option.
From S2P Require Import Prelude.
From S2P Require Import PjString.
Local Open Scope Z_scope.

(** [*scanner->curptr], the NUL at the end of the text. *)
Definition first_char (s : pj_str) : Z := default 0 (head s).
(** [*(scanner->curptr + n)] *)
Definition char_at (s : pj_str) (n : nat) : Z := default 0 (s !! n).

Definition skip_ws_char (c : Z) : bool := (c =? 32) || (c =? 9).
Definition PJ_SCAN_IS_NEWLINE (c : Z) : bool := (c =? 13) || (c =? 10).

Fixpoint pj_scan_skip_whitespace (s : pj_str) : pj_str :=
  match s with
  | c :: s' => if skip_ws_char c then pj_scan_skip_whitespace s' else s
  | [] => []
  end.

(** The test at the end of the functions that move the pointer. *)
Definition scan_autoskip (ws : bool) (s : pj_str) : pj_str :=
  if (first_char s <=? 32) && ws then pj_scan_skip_whitespace s else s.

(** [strchr] for a newline: it stops at a NUL as well. *)
Fixpoint pj_scan_skip_line (s : pj_str) : pj_str :=
  match s with
  | c :: s => if c =? 10 then s else if c =? 0 then [] else pj_scan_skip_line s
  | [] => []
  end.

Fixpoint scan_span (spec : Z -> bool) (s : pj_str) : pj_str * pj_str :=
  match s with
  | c :: s' => if spec c then let '(t, r) := scan_span spec s' in (c :: t, r) else ([], s)
  | [] => ([], [])
  end.

Definition pj_scan_peek (spec : Z -> bool) (s : pj_str) : option pj_str :=
  if (length s =? 0)%nat then None else Some (scan_span spec s).1.

Definition pj_scan_get (ws : bool) (spec : Z -> bool) (s : pj_str) : option (pj_str * pj_str) :=
  if spec (first_char s) then
    let '(t, r) := scan_span spec s in Some (t, scan_autoskip ws r)
  else None.

Definition pj_scan_get_char (ws : bool) (s : pj_str) : option (Z * pj_str) :=
  match s with
  | c :: s' => if c =? 0 then None else Some (c, scan_autoskip ws s')
  | [] => None
  end.

(** [pj_scan_get_until]; with a set of one character
    [pj_scan_get_until_ch]. *)
Definition pj_scan_get_until (ws : bool) (spec : Z -> bool) (s : pj_str) : option (pj_str * pj_str) :=
  if (length s =? 0)%nat then None
  else let '(t, r) := scan_span (fun c => negb (spec c)) s in Some (t, scan_autoskip ws r).
Definition pj_scan_get_until_ch (ws : bool) (until : Z) : pj_str -> option (pj_str * pj_str) :=
  pj_scan_get_until ws (Z.eqb until).
Definition pj_scan_get_until_chr (ws : bool) (until_spec : list Z) : pj_str -> option (pj_str * pj_str) :=
  pj_scan_get_until ws (fun c => existsb (Z.eqb c) until_spec).

Definition pj_scan_get_n (ws : bool) (n : nat) (s : pj_str) : option (pj_str * pj_str) :=
  if (length s <? n)%nat then None else Some (take n s, scan_autoskip ws (drop n s)).

Definition pj_scan_advance_n (n : nat) (skip_ws : bool) (s : pj_str) : option pj_str :=
  if (length s <? n)%nat then None else Some (scan_autoskip skip_ws (drop n s)).

Definition pj_scan_get_newline (s : pj_str) : option pj_str :=
  if negb (PJ_SCAN_IS_NEWLINE (first_char s)) then None
  else
    let s := if first_char s =? 13 then drop 1 s else s in
    Some (if first_char s =? 10 then drop 1 s else s).

Definition pj_scan_is_eof (s : pj_str) : bool := (length s =? 0)%nat.

(** * Properties *)

Lemma autoskip_off s : scan_autoskip false s = s.
Proof. unfold scan_autoskip. by rewrite andb_false_r. Qed.

(** What the scanner leaves is an end of what it had. *)
Lemma skip_whitespace_suffix s : pj_scan_skip_whitespace s `suffix_of` s.
Proof. induction s as [|c s IH]; cbn; [done|]. destruct (skip_ws_char c); [by apply suffix_cons_r|done]. Qed.
Lemma autoskip_suffix ws s : scan_autoskip ws s `suffix_of` s.
Proof. unfold scan_autoskip. destruct (_ && _); [apply skip_whitespace_suffix|done]. Qed.
Lemma skip_line_suffix s : pj_scan_skip_line s `suffix_of` s.
Proof.
  induction s as [|c s IH]; cbn; [done|].
  destruct (c =? 10); [by apply suffix_cons_r|]. destruct (c =? 0); [apply suffix_nil|by apply suffix_cons_r].
Qed.
Lemma skip_line_progress c s : pj_scan_skip_line (c :: s) `suffix_of` s.
Proof.
  cbn. destruct (c =? 10); [done|]. destruct (c =? 0); [apply suffix_nil|apply skip_line_suffix].
Qed.

Lemma scan_span_eq spec s : (scan_span spec s).1 ++ (scan_span spec s).2 = s.
Proof.
  induction s as [|c s IH]; cbn; [done|]. destruct (spec c); [|done].
  destruct (scan_span spec s). cbn in *. by rewrite IH.
Qed.
Lemma scan_span_all spec s : Forall (fun c => spec c = true) (scan_span spec s).1.
Proof.
  induction s as [|c s IH]; cbn; [constructor|]. destruct (spec c) eqn:E; [|constructor].
  destruct (scan_span spec s). by constructor.
Qed.
Lemma scan_span_suffix spec s : (scan_span spec s).2 `suffix_of` s.
Proof. exists (scan_span spec s).1. by rewrite scan_span_eq. Qed.

Lemma scan_span_app spec s r :
  Forall (fun c => spec c = true) s -> (r <> [] -> spec (first_char r) = false) ->
  scan_span spec (s ++ r) = (s, r).
Proof.
  intros Hs Hr. induction Hs as [|c s Hc _ IH]; cbn.
  - destruct r as [|c r]; [done|]. cbn in *. by rewrite Hr.
  - by rewrite Hc, IH.
Qed.

Lemma scan_get_app ws spec s r :
  s <> [] -> Forall (fun c => spec c = true) s -> spec (first_char r) = false ->
  pj_scan_get ws spec (s ++ r) = Some (s, scan_autoskip ws r).
Proof.
  intros Hn Hs Hr. unfold pj_scan_get. rewrite scan_span_app by done.
  destruct Hs as [|c s Hc]; [done|]. cbn. by rewrite Hc.
Qed.

Lemma scan_until_app ws spec s r :
  Forall (fun c => spec c = false) s -> r <> [] -> spec (first_char r) = true ->
  pj_scan_get_until ws spec (s ++ r) = Some (s, scan_autoskip ws r).
Proof.
  intros Hs Hn Hr. unfold pj_scan_get_until.
  rewrite (proj2 (Nat.eqb_neq _ 0)) by (rewrite length_app; destruct r; cbn in *; [done|lia]).
  rewrite scan_span_app; [done| |by rewrite Hr].
  eapply list.Forall_impl; [exact Hs|]. intros c Hc. cbv beta in *. by rewrite Hc.
Qed.

Lemma scan_get_suffix ws spec s t r : pj_scan_get ws spec s = Some (t, r) -> r `suffix_of` s.
Proof.
  unfold pj_scan_get. destruct (spec (first_char s)); [|done].
  pose proof (scan_span_suffix spec s) as H. destruct (scan_span spec s) as [t0 r0].
  intros [= <- <-]. etrans; [apply autoskip_suffix|done].
Qed.
Lemma scan_get_char_suffix ws s c r :
  pj_scan_get_char ws s = Some (c, r) -> exists s', s = c :: s' /\ r `suffix_of` s'.
Proof.
  destruct s as [|d s]; cbn; [done|]. destruct (d =? 0); [done|]. intros [= <- <-].
  exists s. split; [done|apply autoskip_suffix].
Qed.
Lemma scan_until_suffix ws spec s t r : pj_scan_get_until ws spec s = Some (t, r) -> r `suffix_of` s.
Proof.
  unfold pj_scan_get_until. destruct (_ =? _)%nat; [done|].
  pose proof (scan_span_suffix (fun c => negb (spec c)) s) as H. destruct (scan_span _ s) as [t0 r0].
  intros [= <- <-]. etrans; [apply autoskip_suffix|done].
Qed.
Lemma scan_advance_suffix n ws s r : pj_scan_advance_n n ws s = Some r -> r `suffix_of` drop n s.
Proof.
  unfold pj_scan_advance_n. destruct (_ <? _)%nat; [done|]. intros [= <-]. apply autoskip_suffix.
Qed.
Lemma scan_newline_suffix s r : pj_scan_get_newline s = Some r -> r `suffix_of` s.
Proof.
  unfold pj_scan_get_newline. destruct (negb _); [done|]. intros [= <-].
  assert (Hd : forall l : pj_str, drop 1 l `suffix_of` l) by (intros l; exists (take 1 l); by rewrite take_drop).
  destruct (_ =? 10), (_ =? 13); try done; try apply Hd. etrans; apply Hd.
Qed.

Lemma autoskip_visible ws s : (s <> [] -> 32 < first_char s) -> scan_autoskip ws s = s.
Proof.
  unfold scan_autoskip. intros H. destruct s as [|c s]; [by destruct (_ && _)|].
  specialize (H ltac:(done)). destruct (Z.leb_spec (first_char (c :: s)) 32); [lia|done].
Qed.

Lemma skip_ws_visible s : 32 < first_char s -> pj_scan_skip_whitespace s = s.
Proof.
  destruct s as [|c s]; [done|]. change (first_char (c :: s)) with c.
  cbn. unfold skip_ws_char. intros Hc.
  destruct (Z.eqb_spec c 32); [lia|]. destruct (Z.eqb_spec c 9); [lia|]. done.
Qed.

Lemma autoskip_space s : 32 < first_char s -> scan_autoskip true (32 :: s) = s.
Proof. intros H. cbn. by apply skip_ws_visible. Qed.
