(* ===== verification/Sdp.v ===== *)
(** * Session descriptions

    Model of the SDP data structures of [pjmedia/include/pjmedia/sdp.h] and of
    the functions of [pjmedia/src/pjmedia/sdp.c] the negotiator uses:
    attributes, [rtpmap] and [fmtp] values, validation, transport comparison
    and deactivation.  The comparison of sessions is in [SdpCmp].

    An array with its count is the list of the elements in use; a description
    is a value, because the negotiator works on clones, and cloning
    ([pjmedia_sdp_session_clone] and the functions it calls) gives an equal
    description.  An attribute found in an array is named by its position.
    Strings are NUL-terminated behind their last byte, as the clones are. *)

From Stdlib Require Import ZArith Lia Bool String.
From stdpp Require Import base list numbers option.
From S2P Require Import Prelude.
From S2P Require Import PjString.
From S2P Require Import Scanner.
Local Open Scope Z_scope.

(** ** Data *)

Definition PJMEDIA_MAX_SDP_FMT : nat := 32.
Definition PJMEDIA_MAX_SDP_ATTR : nat := PJMEDIA_MAX_SDP_FMT * 2 + 4.
Definition PJMEDIA_MAX_SDP_MEDIA : nat := 16.

Record pjmedia_sdp_attr := mk_attr {
  attr_name : pj_str;
  attr_value : pj_str;
}.

Record pjmedia_sdp_rtpmap := mk_rtpmap {
  rm_pt : pj_str;
  rm_enc_name : pj_str;
  rm_clock_rate : Z;
  rm_param : pj_str;
}.

Record pjmedia_sdp_fmtp := mk_fmtp {
  fp_fmt : pj_str;
  fp_fmt_param : pj_str;
}.

Record pjmedia_sdp_conn := mk_conn {
  conn_net_type : pj_str;
  conn_addr_type : pj_str;
  conn_addr : pj_str;
}.

Record pjmedia_sdp_bandw := mk_bandw {
  bandw_modifier : pj_str;
  bandw_value : Z;
}.

Record pjmedia_sdp_media := mk_media {
  m_media : pj_str;
  m_port : Z;
  m_port_count : Z;
  m_transport : pj_str;
  m_fmt : list pj_str;
  m_conn : option pjmedia_sdp_conn;
  m_bandw : list pjmedia_sdp_bandw;
  m_attr : list pjmedia_sdp_attr;
}.

Record sdp_origin := mk_origin {
  o_user : pj_str;
  o_id : Z;
  o_version : Z;
  o_net_type : pj_str;
  o_addr_type : pj_str;
  o_addr : pj_str;
}.

Record pjmedia_sdp_session := mk_session {
  s_origin : sdp_origin;
  s_name : pj_str;
  s_conn : option pjmedia_sdp_conn;
  s_bandw : list pjmedia_sdp_bandw;
  s_time_start : Z;
  s_time_stop : Z;
  s_attr : list pjmedia_sdp_attr;
  s_media : list pjmedia_sdp_media;
}.

Definition with_port (m : pjmedia_sdp_media) (port : Z) : pjmedia_sdp_media :=
  mk_media (m_media m) port (m_port_count m) (m_transport m) (m_fmt m) (m_conn m)
    (m_bandw m) (m_attr m).
Definition with_fmt (m : pjmedia_sdp_media) (fmt : list pj_str) : pjmedia_sdp_media :=
  mk_media (m_media m) (m_port m) (m_port_count m) (m_transport m) fmt (m_conn m)
    (m_bandw m) (m_attr m).
Definition with_conn (m : pjmedia_sdp_media) (conn : option pjmedia_sdp_conn) : pjmedia_sdp_media :=
  mk_media (m_media m) (m_port m) (m_port_count m) (m_transport m) (m_fmt m) conn
    (m_bandw m) (m_attr m).
Definition with_attr (m : pjmedia_sdp_media) (attr : list pjmedia_sdp_attr) : pjmedia_sdp_media :=
  mk_media (m_media m) (m_port m) (m_port_count m) (m_transport m) (m_fmt m) (m_conn m)
    (m_bandw m) attr.

Definition with_version (o : sdp_origin) (version : Z) : sdp_origin :=
  mk_origin (o_user o) (o_id o) version (o_net_type o) (o_addr_type o) (o_addr o).
Definition with_id (o : sdp_origin) (id : Z) : sdp_origin :=
  mk_origin (o_user o) id (o_version o) (o_net_type o) (o_addr_type o) (o_addr o).
Definition with_origin (s : pjmedia_sdp_session) (o : sdp_origin) : pjmedia_sdp_session :=
  mk_session o (s_name s) (s_conn s) (s_bandw s) (s_time_start s) (s_time_stop s)
    (s_attr s) (s_media s).
Definition with_media (s : pjmedia_sdp_session) (media : list pjmedia_sdp_media) : pjmedia_sdp_session :=
  mk_session (s_origin s) (s_name s) (s_conn s) (s_bandw s) (s_time_start s) (s_time_stop s)
    (s_attr s) media.

(** ** Error codes ([pjmedia/include/pjmedia/errno.h]) *)

Definition PJMEDIA_SDP_EINORIGIN : pj_status_t := 220022.
Definition PJMEDIA_SDP_EINNAME : pj_status_t := 220024.
Definition PJMEDIA_SDP_EINCONN : pj_status_t := 220025.
Definition PJMEDIA_SDP_EMISSINGCONN : pj_status_t := 220026.
Definition PJMEDIA_SDP_EINATTR : pj_status_t := 220027.
Definition PJMEDIA_SDP_EINRTPMAP : pj_status_t := 220028.
Definition PJMEDIA_SDP_ERTPMAPTOOLONG : pj_status_t := 220029.
Definition PJMEDIA_SDP_EMISSINGRTPMAP : pj_status_t := 220030.
Definition PJMEDIA_SDP_EINMEDIA : pj_status_t := 220031.
Definition PJMEDIA_SDP_ENOFMT : pj_status_t := 220032.
Definition PJMEDIA_SDP_EINPT : pj_status_t := 220033.
Definition PJMEDIA_SDP_EINFMTP : pj_status_t := 220034.
Definition PJMEDIA_SDP_EMEDIANOTEQUAL : pj_status_t := 220060.
Definition PJMEDIA_SDP_EPORTNOTEQUAL : pj_status_t := 220061.
Definition PJMEDIA_SDP_ETPORTNOTEQUAL : pj_status_t := 220062.
Definition PJMEDIA_SDP_EFORMATNOTEQUAL : pj_status_t := 220063.
Definition PJMEDIA_SDP_ECONNNOTEQUAL : pj_status_t := 220064.
Definition PJMEDIA_SDP_EDIRNOTEQUAL : pj_status_t := 220066.
Definition PJMEDIA_SDP_EFMTPNOTEQUAL : pj_status_t := 220067.
Definition PJMEDIA_SDP_ERTPMAPNOTEQUAL : pj_status_t := 220068.
Definition PJMEDIA_SDP_EORIGINNOTEQUAL : pj_status_t := 220070.
Definition PJMEDIA_SDP_ENAMENOTEQUAL : pj_status_t := 220071.
Definition PJMEDIA_SDP_ETIMENOTEQUAL : pj_status_t := 220072.

(** ** Attributes *)

(** String tests of the code: [pj_strcmp(..) == 0], [!pj_stricmp(..)]. *)
Definition str_eq (a b : pj_str) : bool := pj_strcmp a b =? 0.
Definition str_ieq (a b : pj_str) : bool := pj_stricmp a b =? 0.

(** [unsigned] payload number of a format. *)
Definition fmt_pt (fmt : pj_str) : Z := u32 (pj_strtoul fmt).

Definition attr_matches (name : pj_str) (c_fmt : option pj_str) (a : pjmedia_sdp_attr) : bool :=
  str_eq (attr_name a) name &&
  match c_fmt with
  | Some fmt => u32 (pj_strtoul2 (attr_value a) 10).1 =? fmt_pt fmt
  | None => true
  end.

(** The position of the first match. *)
Fixpoint pjmedia_sdp_attr_find (attrs : list pjmedia_sdp_attr) (name : pj_str)
    (c_fmt : option pj_str) : option nat :=
  match attrs with
  | [] => None
  | a :: attrs =>
      if attr_matches name c_fmt a then Some O
      else S <$> pjmedia_sdp_attr_find attrs name c_fmt
  end.

Definition pjmedia_sdp_media_find_attr2 (m : pjmedia_sdp_media) (name : String.string)
    (c_fmt : option pj_str) : option nat :=
  pjmedia_sdp_attr_find (m_attr m) (cstr name) c_fmt.
Arguments pjmedia_sdp_media_find_attr2 m name%_string_scope c_fmt.

(** The attribute at a position returned by the search. *)
Definition attr_at (m : pjmedia_sdp_media) (i : nat) : pjmedia_sdp_attr :=
  default (mk_attr [] []) (m_attr m !! i).

Definition has_attr (m : pjmedia_sdp_media) (name : String.string) : bool :=
  match pjmedia_sdp_media_find_attr2 m name None with Some _ => true | None => false end.
Arguments has_attr m name%_string_scope.

Definition pjmedia_sdp_attr_create (name : String.string) (value : option pj_str) : pjmedia_sdp_attr :=
  mk_attr (cstr name) (default [] value).
Arguments pjmedia_sdp_attr_create name%_string_scope value.

Definition pjmedia_sdp_attr_add (attrs : list pjmedia_sdp_attr) (a : pjmedia_sdp_attr) :
    pj_status_t * list pjmedia_sdp_attr :=
  if (length attrs <? PJMEDIA_MAX_SDP_ATTR)%nat then (PJ_SUCCESS, attrs ++ [a])
  else (PJ_ETOOMANY, attrs).

(** The number removed and the attributes left. *)
Fixpoint pjmedia_sdp_attr_remove_all (attrs : list pjmedia_sdp_attr) (name : pj_str) :
    nat * list pjmedia_sdp_attr :=
  match attrs with
  | [] => (O, [])
  | a :: attrs =>
      let '(n, rest) := pjmedia_sdp_attr_remove_all attrs name in
      if str_eq (attr_name a) name then (S n, rest) else (n, a :: rest)
  end.

(** Removal of the attribute at a position; the pointers of an array are
    distinct. *)
Definition pjmedia_sdp_attr_remove (attrs : list pjmedia_sdp_attr) (i : nat) :
    pj_status_t * list pjmedia_sdp_attr :=
  if (i <? length attrs)%nat then (PJ_SUCCESS, delete i attrs) else (PJ_ENOTFOUND, attrs).

Definition pjmedia_sdp_media_add_attr (m : pjmedia_sdp_media) (a : pjmedia_sdp_attr) : pjmedia_sdp_media :=
  with_attr m (pjmedia_sdp_attr_add (m_attr m) a).2.
Definition pjmedia_sdp_media_remove_all_attr (m : pjmedia_sdp_media) (name : String.string) : pjmedia_sdp_media :=
  with_attr m (pjmedia_sdp_attr_remove_all (m_attr m) (cstr name)).2.
Arguments pjmedia_sdp_media_remove_all_attr m name%_string_scope.
Definition pjmedia_sdp_media_remove_attr (m : pjmedia_sdp_media) (i : nat) : pjmedia_sdp_media :=
  with_attr m (pjmedia_sdp_attr_remove (m_attr m) i).2.

(** ** Character sets of the SDP parser *)

Definition TOKEN : pj_str := cstr "!#$%&'*+-.^_`{|}~".
Definition cs_digit (c : Z) : bool := pj_isdigit c.
Definition cs_token (c : Z) : bool :=
  ((97 <=? c) && (c <=? 122)) || ((65 <=? c) && (c <=? 90)) || pj_isdigit c ||
  existsb (Z.eqb c) TOKEN.

(** ** [rtpmap] and [fmtp]

    [r0] is the content of the structure before the call, which an early
    return leaves alone. *)

Definition pjmedia_sdp_attr_get_rtpmap (attr : pjmedia_sdp_attr) (r0 : pjmedia_sdp_rtpmap) :
    pj_status_t * pjmedia_sdp_rtpmap :=
  if negb (str_eq (attr_name attr) (cstr "rtpmap")) then (PJ_EINVALIDOP, r0)
  else if (length (attr_value attr) =? 0)%nat then (PJMEDIA_SDP_EINATTR, r0)
  else
    let s := pj_scan_skip_whitespace (attr_value attr) in
    match pj_scan_get true cs_token s with
    | None => (PJMEDIA_SDP_EINRTPMAP, mk_rtpmap [] [] 0 [])
    | Some (pt, s) =>
    match pj_scan_get true cs_token s with
    | None => (PJMEDIA_SDP_EINRTPMAP, mk_rtpmap pt [] 0 [])
    | Some (enc_name, s) =>
    match pj_scan_get_char true s with
    | None => (PJMEDIA_SDP_EINRTPMAP, mk_rtpmap pt enc_name 0 [])
    | Some (c, s) =>
      if negb (c =? 47) then (PJMEDIA_SDP_EINRTPMAP, mk_rtpmap pt enc_name 0 [])
      else
        match pj_scan_get true cs_digit s with
        | None => (PJMEDIA_SDP_EINRTPMAP, mk_rtpmap pt enc_name 0 [])
        | Some (token, s) =>
            let clock_rate := u32 (pj_strtoul token) in
            let param :=
              if first_char s =? 47 then
                match pj_scan_get_char true s with Some (_, s) => s | None => [] end
              else [] in
            (PJ_SUCCESS, mk_rtpmap pt enc_name clock_rate param)
        end
    end end end.

Definition pjmedia_sdp_rtpmap_to_attr (r : pjmedia_sdp_rtpmap) : pj_status_t * option pjmedia_sdp_attr :=
  if (length (rm_enc_name r) =? 0)%nat || (rm_clock_rate r =? 0)
  then (PJMEDIA_SDP_EINRTPMAP, None)
  else
    let value := rm_pt r ++ [32] ++ rm_enc_name r ++ [47] ++ pj_utoa (rm_clock_rate r) ++
                 (if (length (rm_param r) =? 0)%nat then [] else [47]) ++ rm_param r in
    if (length value <? 1)%nat || (128 <=? length value)%nat
    then (PJMEDIA_SDP_ERTPMAPTOOLONG, None)
    else (PJ_SUCCESS, Some (mk_attr (cstr "rtpmap") value)).

Definition pjmedia_sdp_attr_get_fmtp (attr : pjmedia_sdp_attr) : pj_status_t * option pjmedia_sdp_fmtp :=
  if negb (str_eq (attr_name attr) (cstr "fmtp")) then (PJ_EINVALIDOP, None)
  else
    let '(token, p) := scan_span pj_isdigit (attr_value attr) in
    if (length token =? 0)%nat then (PJMEDIA_SDP_EINFMTP, None)
    else match p with
         | c :: p => if c =? 32 then (PJ_SUCCESS, Some (mk_fmtp token p))
                     else (PJMEDIA_SDP_EINFMTP, None)
         | [] => (PJMEDIA_SDP_EINFMTP, None)
         end.

(** ** Validation *)

Definition validate_sdp_conn (c : pjmedia_sdp_conn) : pj_status_t :=
  if negb (str_eq (conn_net_type c) (cstr "IN")) then PJMEDIA_SDP_EINCONN
  else if negb (str_eq (conn_addr_type c) (cstr "IP4") || str_eq (conn_addr_type c) (cstr "IP6"))
  then PJMEDIA_SDP_EINCONN
  else if (length (conn_addr c) =? 0)%nat then PJMEDIA_SDP_EINCONN
  else PJ_SUCCESS.

(** The formats of one media. *)
Fixpoint validate_fmts (m : pjmedia_sdp_media) (fmts : list pj_str) : pj_status_t :=
  match fmts with
  | [] => PJ_SUCCESS
  | fmt :: fmts =>
      if pj_isdigit (first_char fmt) then
        let pt := fmt_pt fmt in
        if 127 <? pt then PJMEDIA_SDP_EINPT
        else if negb (m_port m =? 0) && (96 <=? pt) then
          match pjmedia_sdp_media_find_attr2 m "rtpmap" (Some fmt) with
          | None => PJMEDIA_SDP_EMISSINGRTPMAP
          | Some _ => validate_fmts m fmts
          end
        else validate_fmts m fmts
      else validate_fmts m fmts
  end.

Definition validate_media (sess_conn : option pjmedia_sdp_conn) (strict : bool)
    (m : pjmedia_sdp_media) : pj_status_t :=
  if (length (m_media m) =? 0)%nat then PJMEDIA_SDP_EINMEDIA
  else if (length (m_transport m) =? 0)%nat then PJMEDIA_SDP_EINMEDIA
  else if (length (m_fmt m) =? 0)%nat && negb (m_port m =? 0) then PJMEDIA_SDP_ENOFMT
  else
    let status := match m_conn m with Some c => validate_sdp_conn c | None => PJ_SUCCESS end in
    if negb (status =? PJ_SUCCESS) then status
    else match m_conn m, sess_conn with
         | None, None =>
             if strict || negb (m_port m =? 0) then PJMEDIA_SDP_EMISSINGCONN
             else validate_fmts m (m_fmt m)
         | _, _ => validate_fmts m (m_fmt m)
         end.

Fixpoint validate_medias (sess_conn : option pjmedia_sdp_conn) (strict : bool)
    (media : list pjmedia_sdp_media) : pj_status_t :=
  match media with
  | [] => PJ_SUCCESS
  | m :: media =>
      let status := validate_media sess_conn strict m in
      if negb (status =? PJ_SUCCESS) then status else validate_medias sess_conn strict media
  end.

Definition pjmedia_sdp_validate2 (sdp : pjmedia_sdp_session) (strict : bool) : pj_status_t :=
  let o := s_origin sdp in
  if (length (o_user o) =? 0)%nat then PJMEDIA_SDP_EINORIGIN
  else if negb (str_eq (o_net_type o) (cstr "IN")) then PJMEDIA_SDP_EINORIGIN
  else if negb (str_eq (o_addr_type o) (cstr "IP4") || str_eq (o_addr_type o) (cstr "IP6"))
  then PJMEDIA_SDP_EINORIGIN
  else if (length (o_addr o) =? 0)%nat then PJMEDIA_SDP_EINORIGIN
  else if (length (s_name sdp) =? 0)%nat then PJMEDIA_SDP_EINNAME
  else
    let status := match s_conn sdp with Some c => validate_sdp_conn c | None => PJ_SUCCESS end in
    if negb (status =? PJ_SUCCESS) then status
    else validate_medias (s_conn sdp) strict (s_media sdp).

Definition pjmedia_sdp_validate (sdp : pjmedia_sdp_session) : pj_status_t :=
  pjmedia_sdp_validate2 sdp true.

(** ** Transports and deactivation *)

Definition is_rtp_profile (t : pj_str) : bool :=
  str_ieq t (cstr "RTP/AVP") || str_ieq t (cstr "RTP/SAVP").

Definition pjmedia_sdp_transport_cmp (t1 t2 : pj_str) : pj_status_t :=
  if str_ieq t1 t2 then PJ_SUCCESS
  else if is_rtp_profile t1 && is_rtp_profile t2 then PJ_SUCCESS
  else PJMEDIA_SDP_ETPORTNOTEQUAL.

Definition pjmedia_sdp_media_deactivate (m : pjmedia_sdp_media) : pjmedia_sdp_media :=
  with_attr (with_port m 0) [].

Definition pjmedia_sdp_media_clone_deactivate (rhs : pjmedia_sdp_media) : pjmedia_sdp_media :=
  pjmedia_sdp_media_deactivate rhs.

(** * Properties *)

(** ** String tests *)

Lemma str_eq_true a b : str_eq a b = true <-> a = b.
Proof. unfold str_eq. rewrite Z.eqb_eq. apply pj_strcmp_0. Qed.
Lemma str_eq_false a b : str_eq a b = false <-> a <> b.
Proof. rewrite <- str_eq_true. by destruct (str_eq a b). Qed.
Lemma str_eq_refl a : str_eq a a = true.
Proof. by apply str_eq_true. Qed.

Lemma str_ieq_true a b : str_ieq a b = true <-> length a = length b /\ icase a = icase b.
Proof. unfold str_ieq. rewrite Z.eqb_eq. apply pj_stricmp_0. Qed.
Lemma str_ieq_refl a : str_ieq a a = true.
Proof. by apply str_ieq_true. Qed.
Lemma str_ieq_sym a b : str_ieq a b = str_ieq b a.
Proof.
  apply eq_true_iff_eq. rewrite !str_ieq_true. split; intros [H1 H2]; split; congruence.
Qed.
Lemma str_ieq_trans a b c : str_ieq a b = true -> str_ieq a c = str_ieq b c.
Proof.
  intros H. apply eq_true_iff_eq. rewrite !str_ieq_true in *. destruct H as [H1 H2].
  split; intros [H3 H4]; split; congruence.
Qed.

(** ** Attribute arrays *)

Lemma attr_find_Some attrs name c_fmt i :
  pjmedia_sdp_attr_find attrs name c_fmt = Some i <->
  exists a, attrs !! i = Some a /\ attr_matches name c_fmt a = true /\
    forall k b, (k < i)%nat -> attrs !! k = Some b -> attr_matches name c_fmt b = false.
Proof.
  revert i. induction attrs as [|a attrs IH]; intros i; cbn;
    [split; [done|]; intros (a & Ha & _); done|].
  destruct (attr_matches name c_fmt a) eqn:E.
  - split.
    + intros [= <-]. exists a. split_and!; [done|done|lia].
    + intros (b & Hb & Hm & Hk). destruct i as [|i]; [done|].
      specialize (Hk O a ltac:(lia) eq_refl). congruence.
  - destruct (pjmedia_sdp_attr_find attrs name c_fmt) as [k|] eqn:Ef; cbn.
    + split.
      * intros [= <-]. destruct (proj1 (IH k) eq_refl) as (b & Hb & Hm & Hk).
        exists b. split_and!; [done|done|]. intros [|j] c Hj Hc; cbn in Hc; [congruence|].
        apply (Hk j); [lia|done].
      * intros (b & Hb & Hm & Hk). destruct i as [|i]; [cbn in Hb; congruence|].
        f_equal. enough (Some k = Some i) as [= ->] by done. apply IH. exists b.
        split_and!; [done|done|]. intros j c Hj Hc. apply (Hk (S j)); [lia|done].
    + split; [done|]. intros (b & Hb & Hm & Hk). destruct i as [|i]; [cbn in Hb; congruence|].
      exfalso. enough (None = Some i) by done. apply IH. exists b.
      split_and!; [done|done|]. intros j c Hj Hc. apply (Hk (S j)); [lia|done].
Qed.

Lemma attr_find_None attrs name c_fmt :
  pjmedia_sdp_attr_find attrs name c_fmt = None <->
  forall a, a ∈ attrs -> attr_matches name c_fmt a = false.
Proof.
  induction attrs as [|a attrs IH]; cbn.
  - split; [|done]. intros _ a Ha. by apply not_elem_of_nil in Ha.
  - destruct (attr_matches name c_fmt a) eqn:E.
    + split; [done|]. intros H. rewrite H in E; [done|]. by left.
    + rewrite fmap_None, IH. split.
      * intros H b [->|Hb]%elem_of_cons; [done|]. by apply H.
      * intros H b Hb. apply H. by right.
Qed.

Lemma attr_remove_all_spec attrs name :
  (pjmedia_sdp_attr_remove_all attrs name).2 = filter (fun a => attr_name a <> name) attrs.
Proof.
  induction attrs as [|a attrs IH]; [done|]. cbn [pjmedia_sdp_attr_remove_all].
  rewrite list.filter_cons. destruct (pjmedia_sdp_attr_remove_all attrs name) as [n rest]; cbn in IH.
  destruct (str_eq (attr_name a) name) eqn:E.
  - apply str_eq_true in E. rewrite decide_False by (intros H; done). done.
  - apply str_eq_false in E. rewrite decide_True by done. by rewrite <- IH.
Qed.

(** ** [rtpmap] values *)

Definition is_token (s : pj_str) : Prop := s <> [] /\ Forall (fun c => cs_token c = true) s.

Lemma cs_token_visible c : cs_token c = true -> 32 < c.
Proof.
  unfold cs_token, pj_isdigit. intros H. apply orb_prop in H as [H|H].
  - repeat (apply orb_prop in H as [H|H]); bool_hyps; lia.
  - apply existsb_exists in H as (d & Hd & ->%Z.eqb_eq).
    revert Hd. vm_compute. intuition (subst; done).
Qed.

Lemma token_visible s r : is_token s -> 32 < first_char (s ++ r).
Proof.
  intros [Hn Hs]. destruct Hs as [|c s Hc]; [done|]. cbn. by apply cs_token_visible.
Qed.

(** Printing an [rtpmap] and parsing the attribute gives the same payload
    type, encoding name, clock rate and parameter. *)
Theorem rtpmap_roundtrip r attr r0 :
  is_token (rm_pt r) -> is_token (rm_enc_name r) -> is_u32 (rm_clock_rate r) ->
  (rm_param r <> [] -> 32 < first_char (rm_param r)) ->
  pjmedia_sdp_rtpmap_to_attr r = (PJ_SUCCESS, Some attr) ->
  pjmedia_sdp_attr_get_rtpmap attr r0 = (PJ_SUCCESS, r).
Proof.
  intros Hpt Henc Hclk Hpar. unfold pjmedia_sdp_rtpmap_to_attr.
  set (tail := (if (length (rm_param r) =? 0)%nat then [] else [47]) ++ rm_param r).
  assert (Ht : tail = [] /\ rm_param r = [] \/ tail = 47 :: rm_param r /\ rm_param r <> []).
  { subst tail. destruct (rm_param r); [left|right]; done. }
  clearbody tail. cbv zeta.
  destruct (_ || _); [intros [=]|]. destruct (_ || _); [intros [=]|]. intros [= <-].
  unfold pjmedia_sdp_attr_get_rtpmap. cbn [attr_name attr_value].
  rewrite str_eq_refl. cbn [negb].
  pose proof (pj_utoa_digits (rm_clock_rate r) ltac:(int_lia)) as Hd.
  assert (Hdig : Forall (fun c => cs_digit c = true) (pj_utoa (rm_clock_rate r))).
  { eapply list.Forall_impl; [exact Hd|]. intros c Hc. unfold cs_digit, pj_isdigit.
    cbv beta in Hc. apply andb_true_intro. split; apply Z.leb_le; lia. }
  rewrite (proj2 (Nat.eqb_neq _ 0)) by (rewrite length_app; cbn; lia).
  rewrite skip_ws_visible by (by apply token_visible).
  rewrite scan_get_app; [|apply Hpt|apply Hpt|done].
  rewrite autoskip_space by (by apply token_visible).
  rewrite scan_get_app; [|apply Henc|apply Henc|done].
  rewrite autoskip_visible by (intros _; cbn; lia). cbn [pj_scan_get_char Z.eqb Pos.eqb negb].
  assert (Hf : cs_digit (first_char tail) = false).
  { destruct Ht as [[-> _]|[-> _]]; done. }
  assert (Hne : pj_utoa (rm_clock_rate r) <> []) by apply pj_utoa_nonempty.
  rewrite autoskip_visible.
  2: { intros _. destruct Hd as [|c ds Hc]; [done|]. cbn. lia. }
  rewrite scan_get_app by done. cbv zeta.
  rewrite strtoul_of_utoa, u32_small by int_lia.
  destruct Ht as [[-> Hp]|[-> Hp]].
  - cbn. rewrite <- Hp. by destruct r.
  - rewrite autoskip_visible by (intros _; cbn; lia). cbn [first_char head default from_option].
    change (first_char (47 :: rm_param r) =? 47) with true. cbn match.
    cbn [pj_scan_get_char Z.eqb Pos.eqb]. rewrite autoskip_visible by done. by destruct r.
Qed.

Lemma rtpmap_roundtrip_witness :
  pjmedia_sdp_attr_get_rtpmap (mk_attr (cstr "rtpmap") (cstr "98 L16/16000/2")) (mk_rtpmap [] [] 0 []) =
  (PJ_SUCCESS, mk_rtpmap (cstr "98") (cstr "L16") 16000 (cstr "2")).
Proof.
  refine (rtpmap_roundtrip (mk_rtpmap (cstr "98") (cstr "L16") 16000 (cstr "2")) _ _ _ _ _ _ _).
  - split; [done|]. repeat constructor.
  - split; [done|]. repeat constructor.
  - vm_compute. split; [discriminate|reflexivity].
  - intros _. vm_compute. reflexivity.
  - vm_compute. reflexivity.
Defined.
