(* ===== verification/SdpCmp.v ===== *)
(** * Comparison of session descriptions

    Model of [pjmedia/src/pjmedia/sdp_cmp.c].  The theorems show when two
    descriptions compare equal, and that the connection line of a media is not
    looked at. *)

From Stdlib Require Import ZArith Lia Bool String.
From stdpp Require Import base list numbers option.
From S2P Require Import Prelude.
From S2P Require Import PjString.
From S2P Require Import Scanner.
From S2P Require Import Sdp.
Local Open Scope Z_scope.

Definition compare_conn (c1 c2 : pjmedia_sdp_conn) : pj_status_t :=
  if negb (str_eq (conn_net_type c1) (conn_net_type c2)) then PJMEDIA_SDP_ECONNNOTEQUAL
  else if negb (str_eq (conn_addr_type c1) (conn_addr_type c2)) then PJMEDIA_SDP_ECONNNOTEQUAL
  else if negb (str_eq (conn_addr c1) (conn_addr c2)) then PJMEDIA_SDP_ECONNNOTEQUAL
  else PJ_SUCCESS.

Definition is_direction (name : pj_str) : bool :=
  str_eq name (cstr "inactive") || str_eq name (cstr "sendrecv") ||
  str_eq name (cstr "sendonly") || str_eq name (cstr "recvonly").

Definition no_rtpmap : pjmedia_sdp_rtpmap := mk_rtpmap [] [] 0 [].

(** The test of one attribute of the first array against the second. *)
Definition compare_fmtp (a1 : pjmedia_sdp_attr) (attr2 : list pjmedia_sdp_attr) : pj_status_t :=
  match pjmedia_sdp_attr_get_fmtp a1 with
  | (_, None) => PJMEDIA_SDP_EFMTPNOTEQUAL
  | (_, Some fmtp1) =>
      match pjmedia_sdp_attr_find attr2 (attr_name a1) (Some (fp_fmt fmtp1)) with
      | None => PJMEDIA_SDP_EFMTPNOTEQUAL
      | Some i =>
          match pjmedia_sdp_attr_get_fmtp (default a1 (attr2 !! i)) with
          | (_, None) => PJMEDIA_SDP_EFMTPNOTEQUAL
          | (_, Some fmtp2) =>
              if str_eq (fp_fmt_param fmtp1) (fp_fmt_param fmtp2) then PJ_SUCCESS
              else PJMEDIA_SDP_EFMTPNOTEQUAL
          end
      end
  end.

Definition rtpmap_same (r1 r2 : pjmedia_sdp_rtpmap) : bool :=
  str_eq (rm_pt r1) (rm_pt r2) && str_eq (rm_enc_name r1) (rm_enc_name r2) &&
  (rm_clock_rate r1 =? rm_clock_rate r2) && str_eq (rm_param r1) (rm_param r2).

Definition compare_rtpmap (a1 : pjmedia_sdp_attr) (attr2 : list pjmedia_sdp_attr) : pj_status_t :=
  let '(status, r1) := pjmedia_sdp_attr_get_rtpmap a1 no_rtpmap in
  if negb (status =? PJ_SUCCESS) then PJMEDIA_SDP_ERTPMAPNOTEQUAL
  else match pjmedia_sdp_attr_find attr2 (attr_name a1) (Some (rm_pt r1)) with
       | None => PJMEDIA_SDP_ERTPMAPNOTEQUAL
       | Some i =>
           let '(status, r2) := pjmedia_sdp_attr_get_rtpmap (default a1 (attr2 !! i)) no_rtpmap in
           if negb (status =? PJ_SUCCESS) then PJMEDIA_SDP_ERTPMAPNOTEQUAL
           else if rtpmap_same r1 r2 then PJ_SUCCESS else PJMEDIA_SDP_ERTPMAPNOTEQUAL
       end.

Definition compare_one (a1 : pjmedia_sdp_attr) (attr2 : list pjmedia_sdp_attr) : pj_status_t :=
  if is_direction (attr_name a1) then
    match pjmedia_sdp_attr_find attr2 (attr_name a1) None with
    | None => PJMEDIA_SDP_EDIRNOTEQUAL
    | Some _ => PJ_SUCCESS
    end
  else if str_eq (attr_name a1) (cstr "fmtp") then compare_fmtp a1 attr2
  else if str_eq (attr_name a1) (cstr "rtpmap") then compare_rtpmap a1 attr2
  else PJ_SUCCESS.

Fixpoint compare_attr_imp (attr1 attr2 : list pjmedia_sdp_attr) : pj_status_t :=
  match attr1 with
  | [] => PJ_SUCCESS
  | a1 :: attr1 =>
      let status := compare_one a1 attr2 in
      if negb (status =? PJ_SUCCESS) then status else compare_attr_imp attr1 attr2
  end.

Definition compare_attr (attr1 attr2 : list pjmedia_sdp_attr) : pj_status_t :=
  let status := compare_attr_imp attr1 attr2 in
  if negb (status =? PJ_SUCCESS) then status else compare_attr_imp attr2 attr1.

(** Formats, in order; the arrays have the same length. *)
Fixpoint compare_fmts (f1 f2 : list pj_str) : pj_status_t :=
  match f1, f2 with
  | a :: f1, b :: f2 => if str_eq a b then compare_fmts f1 f2 else PJMEDIA_SDP_EFORMATNOTEQUAL
  | _, _ => PJ_SUCCESS
  end.

(** The status of [compare_conn] is overwritten by the comparison of the
    attributes that follows. *)
Definition pjmedia_sdp_media_cmp (sd1 sd2 : pjmedia_sdp_media) : pj_status_t :=
  if negb (str_eq (m_media sd1) (m_media sd2)) then PJMEDIA_SDP_EMEDIANOTEQUAL
  else if negb (m_port sd1 =? m_port sd2) then PJMEDIA_SDP_EPORTNOTEQUAL
  else if negb (m_port_count sd1 =? m_port_count sd2) then PJMEDIA_SDP_EPORTNOTEQUAL
  else if negb (str_eq (m_transport sd1) (m_transport sd2)) then PJMEDIA_SDP_ETPORTNOTEQUAL
  else if m_port sd1 =? 0 then PJ_SUCCESS
  else if negb (length (m_fmt sd1) =? length (m_fmt sd2))%nat then PJMEDIA_SDP_EFORMATNOTEQUAL
  else
    let status := compare_fmts (m_fmt sd1) (m_fmt sd2) in
    if negb (status =? PJ_SUCCESS) then status
    else match m_conn sd1, m_conn sd2 with
         | Some c1, Some c2 =>
             let status := compare_conn c1 c2 in
             let status := compare_attr (m_attr sd1) (m_attr sd2) in status
         | None, None => compare_attr (m_attr sd1) (m_attr sd2)
         | _, _ => PJMEDIA_SDP_EMEDIANOTEQUAL
         end.

Fixpoint compare_medias (m1 m2 : list pjmedia_sdp_media) : pj_status_t :=
  match m1, m2 with
  | a :: m1, b :: m2 =>
      let status := pjmedia_sdp_media_cmp a b in
      if negb (status =? PJ_SUCCESS) then status else compare_medias m1 m2
  | _, _ => PJ_SUCCESS
  end.

Definition compare_origin (o1 o2 : sdp_origin) : bool :=
  str_eq (o_user o1) (o_user o2) && (o_id o1 =? o_id o2) && (o_version o1 =? o_version o2) &&
  str_eq (o_net_type o1) (o_net_type o2) && str_eq (o_addr_type o1) (o_addr_type o2) &&
  str_eq (o_addr o1) (o_addr o2).

Definition pjmedia_sdp_session_cmp (sd1 sd2 : pjmedia_sdp_session) : pj_status_t :=
  if negb (compare_origin (s_origin sd1) (s_origin sd2)) then PJMEDIA_SDP_EORIGINNOTEQUAL
  else if negb (str_eq (s_name sd1) (s_name sd2)) then PJMEDIA_SDP_ENAMENOTEQUAL
  else
    let status := match s_conn sd1, s_conn sd2 with
                  | Some c1, Some c2 => compare_conn c1 c2
                  | None, None => PJ_SUCCESS
                  | _, _ => PJMEDIA_SDP_ECONNNOTEQUAL
                  end in
    if negb (status =? PJ_SUCCESS) then status
    else if negb (s_time_start sd1 =? s_time_start sd2) then PJMEDIA_SDP_ETIMENOTEQUAL
    else if negb (s_time_stop sd1 =? s_time_stop sd2) then PJMEDIA_SDP_ETIMENOTEQUAL
    else
      let status := compare_attr (s_attr sd1) (s_attr sd2) in
      if negb (status =? PJ_SUCCESS) then status
      else if negb (length (s_media sd1) =? length (s_media sd2))%nat
      then PJMEDIA_SDP_EMEDIANOTEQUAL
      else compare_medias (s_media sd1) (s_media sd2).

(** * Properties *)

(** One step of a chain of tests that ends in success. *)
Lemma test_success (b : bool) err rest :
  (if negb b then err else rest) = PJ_SUCCESS -> err <> PJ_SUCCESS -> b = true /\ rest = PJ_SUCCESS.
Proof. destruct b; cbn; [done|]. intros H Hn. by contradict Hn. Qed.

Lemma status_success (status rest : pj_status_t) :
  (if negb (status =? PJ_SUCCESS) then status else rest) = PJ_SUCCESS ->
  status = PJ_SUCCESS /\ rest = PJ_SUCCESS.
Proof. destruct (Z.eqb_spec status PJ_SUCCESS); cbn; intros; done. Qed.

(** Takes a chain of tests in [H] apart. *)
Ltac tests H :=
  repeat first
    [ apply status_success in H as [? H]
    | let E := fresh "E" in apply test_success in H as [E H]; [|vm_compute; discriminate] ].

Lemma compare_conn_success c1 c2 : compare_conn c1 c2 = PJ_SUCCESS <-> c1 = c2.
Proof.
  unfold compare_conn. split.
  - intros H. tests H. destruct c1, c2; cbn in *. rewrite !str_eq_true in *. congruence.
  - intros ->. by rewrite !str_eq_refl.
Qed.

Lemma compare_fmts_success f1 : forall f2,
  length f1 = length f2 -> compare_fmts f1 f2 = PJ_SUCCESS <-> f1 = f2.
Proof.
  induction f1 as [|a f1 IH]; intros [|b f2] Hl; try done. cbn in *.
  destruct (str_eq a b) eqn:E.
  - apply str_eq_true in E as ->. rewrite IH by lia. split; congruence.
  - apply str_eq_false in E. split; [intros H; vm_compute in H; discriminate|congruence].
Qed.

Lemma compare_origin_true o1 o2 : compare_origin o1 o2 = true <-> o1 = o2.
Proof.
  unfold compare_origin. split.
  - intros H. bool_hyps. rewrite !str_eq_true in *. destruct o1, o2; cbn in *. congruence.
  - intros ->. by rewrite !str_eq_refl, !Z.eqb_refl.
Qed.

(** What equal media have in common: the whole [m=] line and, unless they are
    disabled, the presence of a connection line and the attributes compared. *)
Definition media_alike (m1 m2 : pjmedia_sdp_media) : Prop :=
  m_media m1 = m_media m2 /\ m_port m1 = m_port m2 /\ m_port_count m1 = m_port_count m2 /\
  m_transport m1 = m_transport m2 /\
  (m_port m1 <> 0 ->
   m_fmt m1 = m_fmt m2 /\ (m_conn m1 = None <-> m_conn m2 = None) /\
   compare_attr (m_attr m1) (m_attr m2) = PJ_SUCCESS).

Lemma media_cmp_success m1 m2 : pjmedia_sdp_media_cmp m1 m2 = PJ_SUCCESS <-> media_alike m1 m2.
Proof.
  unfold pjmedia_sdp_media_cmp, media_alike. split.
  - intros H. do 4 (let E := fresh "E" in apply test_success in H as [E H]; [|vm_compute; discriminate]).
    rewrite !str_eq_true, !Z.eqb_eq in *. split_and!; try done. intros Hp.
    rewrite (proj2 (Z.eqb_neq _ _) Hp) in H. tests H.
    apply Nat.eqb_eq in E3. apply (compare_fmts_success _ _ E3) in H0.
    destruct (m_conn m1), (m_conn m2); try discriminate H; done.
  - intros (-> & Hp & -> & -> & H). rewrite !str_eq_refl, Hp, !Z.eqb_refl. cbn [negb].
    destruct (Z.eqb_spec (m_port m2) 0) as [E|E]; [done|]. rewrite Hp in H.
    destruct (H E) as (-> & Hc & Ha). rewrite Nat.eqb_refl. cbn [negb].
    rewrite (proj2 (compare_fmts_success _ _ eq_refl) eq_refl). cbn [negb Z.eqb PJ_SUCCESS].
    destruct Hc as [H1 H2]. destruct (m_conn m1), (m_conn m2); try done; exfalso;
      first [discriminate (H2 eq_refl) | discriminate (H1 eq_refl)].
Qed.

Lemma compare_medias_success l1 : forall l2,
  length l1 = length l2 -> compare_medias l1 l2 = PJ_SUCCESS <-> Forall2 media_alike l1 l2.
Proof.
  induction l1 as [|a l1 IH]; intros [|b l2] Hl; [|discriminate Hl|discriminate Hl|].
  { split; [intros _; apply Forall2_nil; done|intros _; reflexivity]. }
  cbn in *. split.
  - intros H. tests H. constructor; [by apply media_cmp_success|]. apply IH; [lia|done].
  - inversion_clear 1 as [|? ? ? ? Ha Hb]. apply media_cmp_success in Ha as ->.
    cbn. apply IH; [lia|done].
Qed.

(** Two sessions compare equal exactly when they have the same origin with
    the same version, name, connection, times, the same directions, [rtpmap]s
    and [fmtp]s at session level, and media that agree one by one. *)
Theorem session_cmp_success s1 s2 :
  pjmedia_sdp_session_cmp s1 s2 = PJ_SUCCESS <->
  s_origin s1 = s_origin s2 /\ s_name s1 = s_name s2 /\ s_conn s1 = s_conn s2 /\
  s_time_start s1 = s_time_start s2 /\ s_time_stop s1 = s_time_stop s2 /\
  compare_attr (s_attr s1) (s_attr s2) = PJ_SUCCESS /\
  Forall2 media_alike (s_media s1) (s_media s2).
Proof.
  unfold pjmedia_sdp_session_cmp. split.
  - intros H. cbv zeta in H. tests H.
    apply compare_origin_true in E. rewrite str_eq_true, !Z.eqb_eq, Nat.eqb_eq in *.
    apply compare_medias_success in H; [|done]. split_and!; try done.
    destruct (s_conn s1), (s_conn s2); try done; try discriminate H0.
    apply compare_conn_success in H0. congruence.
  - intros (-> & -> & -> & -> & -> & -> & Hm).
    rewrite (proj2 (compare_origin_true _ _) eq_refl), str_eq_refl, !Z.eqb_refl. cbn [negb].
    assert (match s_conn s2 with Some c => compare_conn c c | None => PJ_SUCCESS end = PJ_SUCCESS) as Hc.
    { destruct (s_conn s2); [by apply compare_conn_success|done]. }
    replace (match s_conn s2 with Some c1 => match s_conn s2 with Some c2 => compare_conn c1 c2 | None => PJMEDIA_SDP_ECONNNOTEQUAL end | None => match s_conn s2 with Some _ => PJMEDIA_SDP_ECONNNOTEQUAL | None => PJ_SUCCESS end end)
      with PJ_SUCCESS by (destruct (s_conn s2); done).
    cbn [negb Z.eqb PJ_SUCCESS].
    pose proof (Forall2_length Hm) as Hl. rewrite Hl, Nat.eqb_refl. cbn [negb].
    by apply compare_medias_success.
Qed.

(** A description with a [fmtp] for a format that is no number differs from
    itself. *)
Definition red_session : pjmedia_sdp_session :=
  mk_session (mk_origin (cstr "-") 1 1 (cstr "IN") (cstr "IP4") (cstr "h")) (cstr "s")
    None [] 0 0 []
    [mk_media (cstr "text") 4000 0 (cstr "RTP/AVP") [cstr "t140"] None []
       [mk_attr (cstr "fmtp") (cstr "t140 cps=30")]].

Theorem session_cmp_not_reflexive :
  pjmedia_sdp_session_cmp red_session red_session = PJMEDIA_SDP_EFMTPNOTEQUAL.
Proof. vm_compute. reflexivity. Qed.

(** The addresses two media give in their connection lines do not matter. *)
Theorem media_cmp_ignores_conn m1 m2 c1 c2 c :
  m_conn m1 = Some c1 -> m_conn m2 = Some c2 ->
  pjmedia_sdp_media_cmp m1 (with_conn m2 (Some c)) = pjmedia_sdp_media_cmp m1 m2.
Proof. intros H1 H2. unfold pjmedia_sdp_media_cmp. cbn. by rewrite H1, H2. Qed.
