(* ===== verification/SdpNeg.v ===== *)
(** * The SDP negotiator

    Model of [pjmedia/src/pjmedia/sdp_neg.c]: the offer/answer state machine of
    RFC 3264 and the matching of media and formats.

    A negotiator is a value; its descriptions are clones that share nothing,
    and [None] is a null pointer.  An operation gives [None] when the code
    would dereference a null pointer, write behind an array or fail an
    assertion it relies on.

    The callbacks that match the parameters of a format are registered by the
    codecs at run time.  A callback gets the two media and the positions of the
    formats; it returns a status and, when it is allowed to modify the answer,
    the attributes of the answer after the call, which are all it may change.
    [uninit] is the content of a [pjmedia_sdp_rtpmap] variable on the stack. *)

From Stdlib Require Import ZArith Lia Bool String.
From stdpp Require Import base list numbers option.
From S2P Require Import Prelude.
From S2P Require Import PjString.
From S2P Require Import Scanner.
From S2P Require Import Sdp.
Local Open Scope Z_scope.

(** ** Data *)

Inductive pjmedia_sdp_neg_state :=
| STATE_NULL | STATE_LOCAL_OFFER | STATE_REMOTE_OFFER | STATE_WAIT_NEGO | STATE_DONE.

#[export] Instance sdp_neg_state_eq_dec : EqDecision pjmedia_sdp_neg_state.
Proof. solve_decision. Defined.

Record pjmedia_sdp_neg := mk_neg {
  neg_state : pjmedia_sdp_neg_state;
  prefer_remote_codec_order : bool;
  answer_with_multiple_codecs : bool;
  has_remote_answer : bool;
  answer_was_remote : bool;
  initial_sdp : option pjmedia_sdp_session;
  active_local_sdp : option pjmedia_sdp_session;
  active_remote_sdp : option pjmedia_sdp_session;
  neg_local_sdp : option pjmedia_sdp_session;
  neg_remote_sdp : option pjmedia_sdp_session;
}.

Definition PJMEDIA_SDP_NEG_PREFER_REMOTE_CODEC_ORDER : bool := true.
Definition PJMEDIA_SDP_NEG_ANSWER_MULTIPLE_CODECS : bool := false.
Definition PJMEDIA_SDP_NEG_MAX_CUSTOM_FMT_NEG_CB : nat := 8.
Definition PJMEDIA_SDP_NEG_ALLOW_MEDIA_CHANGE : Z := 1.
Definition ALLOW_MODIFY_ANSWER : Z := 1.

Definition PJMEDIA_SDPNEG_EINSTATE : pj_status_t := 220040.
Definition PJMEDIA_SDPNEG_ENOACTIVE : pj_status_t := 220042.
Definition PJMEDIA_SDPNEG_ENONEG : pj_status_t := 220043.
Definition PJMEDIA_SDPNEG_EINVANSMEDIA : pj_status_t := 220045.
Definition PJMEDIA_SDPNEG_EINVANSTP : pj_status_t := 220046.
Definition PJMEDIA_SDPNEG_EANSNOMEDIA : pj_status_t := 220047.
Definition PJMEDIA_SDPNEG_ENOMEDIA : pj_status_t := 220048.
Definition PJMEDIA_SDPNEG_NOANSCODEC : pj_status_t := 220049.
Definition PJMEDIA_SDPNEG_NOANSUNKNOWN : pj_status_t := 220051.

(** ** Registered callbacks

    [C] is the type of function pointers, compared for equality. *)

Definition fmt_match_fn : Type :=
  pjmedia_sdp_media -> nat -> pjmedia_sdp_media -> nat -> Z ->
  pj_status_t * list pjmedia_sdp_attr.

Record fmt_match_cb_t := mk_cb {
  cb_fmt_name : pj_str;
  cb_id : nat;
}.

Fixpoint find_cb (cbs : list fmt_match_cb_t) (fmt_name : pj_str) : option nat :=
  match cbs with
  | [] => None
  | c :: cbs => if str_ieq fmt_name (cb_fmt_name c) then Some O else S <$> find_cb cbs fmt_name
  end.

(** Registration; a null callback removes the entry. *)
Definition pjmedia_sdp_neg_register_fmt_match_cb (cbs : list fmt_match_cb_t)
    (fmt_name : pj_str) (cb : option nat) : pj_status_t * list fmt_match_cb_t :=
  match cb, find_cb cbs fmt_name with
  | None, None => (PJ_ENOTFOUND, cbs)
  | None, Some i => (PJ_SUCCESS, delete i cbs)
  | Some cb, Some i =>
      if decide (cb_id <$> cbs !! i = Some cb) then (PJ_SUCCESS, cbs) else (PJ_EEXISTS, cbs)
  | Some cb, None =>
      if (PJMEDIA_SDP_NEG_MAX_CUSTOM_FMT_NEG_CB <=? length cbs)%nat then (PJ_ETOOMANY, cbs)
      else (PJ_SUCCESS, cbs ++ [mk_cb fmt_name cb])
  end.

Section Negotiator.
Context (cbs : list fmt_match_cb_t) (cb_call : nat -> fmt_match_fn).
Context (uninit : pjmedia_sdp_rtpmap).

(** Status and attributes of the answer. *)
Definition custom_fmt_match (fmt_name : pj_str) (offer : pjmedia_sdp_media) (o_fmt_idx : nat)
    (answer : pjmedia_sdp_media) (a_fmt_idx : nat) (option : Z) :
    pj_status_t * list pjmedia_sdp_attr :=
  match find_cb cbs fmt_name with
  | Some i =>
      match cbs !! i with
      | Some c =>
          let '(status, attrs) := cb_call (cb_id c) offer o_fmt_idx answer a_fmt_idx option in
          (status, if option =? ALLOW_MODIFY_ANSWER then attrs else m_attr answer)
      | None => (PJ_SUCCESS, m_attr answer)
      end
  | None => (PJ_SUCCESS, m_attr answer)
  end.

(** ** Media directions *)

Inductive pjmedia_dir := DIR_NONE | DIR_ENCODING | DIR_DECODING | DIR_ENCODING_DECODING.

#[global] Instance pjmedia_dir_eq_dec : EqDecision pjmedia_dir.
Proof. solve_decision. Defined.

Definition remove_all_media_directions (m : pjmedia_sdp_media) : pjmedia_sdp_media :=
  let m := pjmedia_sdp_media_remove_all_attr m "inactive" in
  let m := pjmedia_sdp_media_remove_all_attr m "sendrecv" in
  let m := pjmedia_sdp_media_remove_all_attr m "sendonly" in
  pjmedia_sdp_media_remove_all_attr m "recvonly".

(** The direction of the local media before the update. *)
Definition local_dir (local : pjmedia_sdp_media) : pjmedia_dir :=
  if has_attr local "sendonly" then DIR_ENCODING
  else if has_attr local "recvonly" then DIR_DECODING
  else if has_attr local "inactive" then DIR_NONE
  else DIR_ENCODING_DECODING.

Definition adjust_dir (remote : pjmedia_sdp_media) (old_dir : pjmedia_dir) : pjmedia_dir :=
  if has_attr remote "inactive" then DIR_NONE
  else if has_attr remote "sendonly" then
    match old_dir with
    | DIR_ENCODING_DECODING => DIR_DECODING
    | DIR_DECODING => old_dir
    | _ => DIR_NONE
    end
  else if has_attr remote "recvonly" then
    match old_dir with
    | DIR_ENCODING_DECODING => DIR_ENCODING
    | DIR_ENCODING => old_dir
    | _ => DIR_NONE
    end
  else old_dir.

Definition update_media_direction (remote local : pjmedia_sdp_media) : pjmedia_sdp_media :=
  let old_dir := local_dir local in
  let new_dir := adjust_dir remote old_dir in
  if decide (new_dir = old_dir) then local
  else
    let local := remove_all_media_directions local in
    match new_dir with
    | DIR_NONE => pjmedia_sdp_media_add_attr local (pjmedia_sdp_attr_create "inactive" None)
    | DIR_ENCODING => pjmedia_sdp_media_add_attr local (pjmedia_sdp_attr_create "sendonly" None)
    | DIR_DECODING => pjmedia_sdp_media_add_attr local (pjmedia_sdp_attr_create "recvonly" None)
    | DIR_ENCODING_DECODING => local
    end.

(** ** Helpers *)

Definition sdp_media_clone_deactivate (rem_med : pjmedia_sdp_media)
    (local_med : pjmedia_sdp_media) (local_sess : pjmedia_sdp_session) : pjmedia_sdp_media :=
  let res := pjmedia_sdp_media_clone_deactivate rem_med in
  match m_conn res, s_conn local_sess with
  | None, None =>
      match m_conn local_med with
      | Some c => with_conn res (Some c)
      | None => with_conn res (Some (mk_conn (cstr "IN") (cstr "IP4") (cstr "127.0.0.1")))
      end
  | _, _ => res
  end.

(** Removal of the [rtpmap] and [fmtp] of a format. *)
Definition remove_named (m : pjmedia_sdp_media) (name : String.string) (fmt : pj_str) : pjmedia_sdp_media :=
  match pjmedia_sdp_media_find_attr2 m name (Some fmt) with
  | Some i => pjmedia_sdp_media_remove_attr m i
  | None => m
  end.
Definition remove_fmt_attrs (m : pjmedia_sdp_media) (fmt : pj_str) : pjmedia_sdp_media :=
  remove_named (remove_named m "rtpmap" fmt) "fmtp" fmt.

(** The [rtpmap] of a format, if the attribute is there. *)
Definition rtpmap_of (m : pjmedia_sdp_media) (fmt : pj_str) : option pjmedia_sdp_rtpmap :=
  match pjmedia_sdp_media_find_attr2 m "rtpmap" (Some fmt) with
  | Some i => Some (pjmedia_sdp_attr_get_rtpmap (attr_at m i) uninit).2
  | None => None
  end.

(** ** The remote answer to a local offer *)

Fixpoint find_str (fmts : list pj_str) (fmt : pj_str) : option nat :=
  match fmts with
  | [] => None
  | f :: fmts => if str_eq fmt f then Some O else S <$> find_str fmts fmt
  end.

Definition answer_rtpmap_matches (or_ ar : pjmedia_sdp_rtpmap) : bool :=
  str_ieq (rm_enc_name or_) (rm_enc_name ar) && (rm_clock_rate or_ =? rm_clock_rate ar) &&
  (str_ieq (rm_param or_) (rm_param ar) ||
   ((length (rm_param ar) =? 1)%nat && (first_char (rm_param ar) =? 49))).

(** The loop over the formats of the answer for a dynamic payload type; [fmts]
    are the formats from position [j] on. *)
Fixpoint find_answer_dynamic (or_ : pjmedia_sdp_rtpmap) (offer : pjmedia_sdp_media) (i : nat)
    (answer : pjmedia_sdp_media) (fmts : list pj_str) (j : nat) : option nat :=
  match fmts with
  | [] => None
  | f :: fmts =>
      match rtpmap_of answer f with
      | Some ar =>
          if answer_rtpmap_matches or_ ar &&
             ((custom_fmt_match (rm_enc_name or_) offer i answer j 0).1 =? PJ_SUCCESS)
          then Some j
          else find_answer_dynamic or_ offer i answer fmts (S j)
      | None => find_answer_dynamic or_ offer i answer fmts (S j)
      end
  end.

(** The position in the answer of the match of the format at [i], or an error
    status. *)
Definition find_answer_fmt (offer : pjmedia_sdp_media) (i : nat) (fmt : pj_str)
    (answer : pjmedia_sdp_media) : pj_status_t + option nat :=
  if fmt_pt fmt <? 96 then inr (find_str (m_fmt answer) fmt)
  else match rtpmap_of offer fmt with
       | None => inl PJ_EBUG
       | Some or_ => inr (find_answer_dynamic or_ offer i answer (m_fmt answer) 0)
       end.

(** Removal of the offered formats without a match; [todo] are the formats of
    the offer from position [i] on, [prior] the priorities of those before. *)
Fixpoint match_formats (todo : list pj_str) (i : nat) (prior : list nat)
    (offer answer : pjmedia_sdp_media) : pj_status_t + (list nat * pjmedia_sdp_media) :=
  match todo with
  | [] => inr (prior, offer)
  | fmt :: todo =>
      match find_answer_fmt offer i fmt answer with
      | inl status => inl status
      | inr None =>
          let offer := remove_fmt_attrs offer fmt in
          let offer := with_fmt offer (delete i (m_fmt offer)) in
          match_formats todo i prior offer answer
      | inr (Some j) => match_formats todo (S i) (prior ++ [j]) offer answer
      end
  end.

(** The exchange sort on the priorities, which carries the formats along: one
    pass over the positions behind the first, then the rest. *)
Fixpoint sort_pass (x : nat * pj_str) (l : list (nat * pj_str)) : (nat * pj_str) * list (nat * pj_str) :=
  match l with
  | [] => (x, [])
  | y :: l =>
      if (y.1 <? x.1)%nat then let '(z, l) := sort_pass y l in (z, x :: l)
      else let '(z, l) := sort_pass x l in (z, y :: l)
  end.
Fixpoint sort_formats (n : nat) (l : list (nat * pj_str)) : list (nat * pj_str) :=
  match n, l with
  | S n, x :: l => let '(z, l) := sort_pass x l in z :: sort_formats n l
  | _, _ => l
  end.

(** Removal of the formats of the answer that are no match; [prior[i] - del_cnt]
    is an [unsigned] difference. *)
Fixpoint prune_answer (todo : list pj_str) (i : nat) (del_cnt : Z) (prior : list nat)
    (answer : pjmedia_sdp_media) : pjmedia_sdp_media :=
  match todo with
  | [] => answer
  | fmt :: todo =>
      let keep := match prior !! i with
                  | Some p => u32 (Z.of_nat p - del_cnt) =? Z.of_nat i
                  | None => false
                  end in
      if keep then prune_answer todo (S i) del_cnt prior answer
      else
        let answer := remove_fmt_attrs answer fmt in
        let answer := with_fmt answer (delete i (m_fmt answer)) in
        prune_answer todo i (del_cnt + 1) prior answer
  end.

Definition common_codec (offer answer : pjmedia_sdp_media) : bool :=
  existsb (fun rem_fmt => existsb (str_eq rem_fmt) (take (length (m_fmt offer)) (m_fmt answer)))
    (m_fmt answer).

(** Status, local offer and remote answer. *)
Definition process_m_answer (offer answer : pjmedia_sdp_media) (allow_asym : bool) :
    pj_status_t * pjmedia_sdp_media * pjmedia_sdp_media :=
  if negb (str_eq (m_media answer) (m_media offer)) then
    (PJMEDIA_SDPNEG_EINVANSMEDIA, offer, answer)
  else if negb (pjmedia_sdp_transport_cmp (m_transport answer) (m_transport offer) =? PJ_SUCCESS)
  then (PJMEDIA_SDPNEG_EINVANSTP, offer, answer)
  else if m_port answer =? 0 then (PJ_SUCCESS, pjmedia_sdp_media_deactivate offer, answer)
  else if m_port offer =? 0 then (PJ_SUCCESS, offer, answer)
  else
    let offer := update_media_direction answer offer in
    if allow_asym then
      if common_codec offer answer then (PJ_SUCCESS, offer, answer)
      else (PJMEDIA_SDPNEG_EANSNOMEDIA, offer, answer)
    else
      match match_formats (m_fmt offer) 0 [] offer answer with
      | inl status => (status, offer, answer)
      | inr (prior, offer) =>
          if (length (m_fmt offer) =? 0)%nat then (PJMEDIA_SDPNEG_EANSNOMEDIA, offer, answer)
          else
            let sorted := sort_formats (length (m_fmt offer)) (zip prior (m_fmt offer)) in
            let offer := with_fmt offer sorted.*2 in
            let answer := prune_answer (m_fmt answer) 0 0 sorted.*1 answer in
            (PJ_SUCCESS, offer, answer)
      end.

(** The loop over the media of the offer, from position [omi] on; [done] are
    the media before.  Gives the offer, the answer and [has_active], or the
    status of an early return. *)
Fixpoint process_medias (offer : pjmedia_sdp_session) (done todo : list pjmedia_sdp_media)
    (ami : nat) (answer : list pjmedia_sdp_media) (has_active allow_asym : bool) :
    pj_status_t + (list pjmedia_sdp_media * list pjmedia_sdp_media * bool) :=
  match todo with
  | [] => inr (done, answer, has_active)
  | om :: todo =>
      match answer !! ami with
      | None =>
          let am := sdp_media_clone_deactivate om om (with_media offer (done ++ om :: todo)) in
          process_medias offer (done ++ [pjmedia_sdp_media_deactivate om]) todo (S ami)
            (answer ++ [am]) has_active allow_asym
      | Some am =>
          let '(status, om, am) := process_m_answer om am allow_asym in
          if status =? PJMEDIA_SDPNEG_EINVANSMEDIA then
            process_medias offer (done ++ [pjmedia_sdp_media_deactivate om]) todo ami
              (<[ami := am]> answer) has_active allow_asym
          else if status =? PJMEDIA_SDPNEG_EANSNOMEDIA then
            process_medias offer (done ++ [pjmedia_sdp_media_deactivate om]) todo (S ami)
              (<[ami := pjmedia_sdp_media_deactivate am]> answer) has_active allow_asym
          else if negb (status =? PJ_SUCCESS) then inl status
          else
            process_medias offer (done ++ [om]) todo (S ami) (<[ami := am]> answer)
              (has_active || negb (m_port om =? 0)) allow_asym
      end
  end.

(** Status, the active local description and the remote one. *)
Definition process_answer (offer answer : pjmedia_sdp_session) (allow_asym : bool) :
    pj_status_t * option (pjmedia_sdp_session * pjmedia_sdp_session) :=
  match process_medias offer [] (s_media offer) 0 (s_media answer) false allow_asym with
  | inl status => (status, None)
  | inr (om, am, has_active) =>
      (if has_active then PJ_SUCCESS else PJMEDIA_SDPNEG_ENOMEDIA,
       Some (with_media offer om, with_media answer am))
  end.

(** ** The local answer to a remote offer *)

Definition rewrite_pt (attr_val old_pt new_pt : pj_str) : pj_str :=
  new_pt ++ drop (length old_pt) attr_val.

(** One of the two attributes of a format whose payload type changes: rewritten,
    taken out of the media and kept aside in [tmp]. *)
Definition set_aside (m : pjmedia_sdp_media) (tmp : list pjmedia_sdp_attr) (name : String.string)
    (pt_answer pt_offer : pj_str) : pjmedia_sdp_media * list pjmedia_sdp_attr :=
  match pjmedia_sdp_media_find_attr2 m name (Some pt_answer) with
  | Some i =>
      let a := attr_at m i in
      (pjmedia_sdp_media_remove_attr m i,
       tmp ++ [mk_attr (attr_name a) (rewrite_pt (attr_value a) pt_answer pt_offer)])
  | None => (m, tmp)
  end.

(** The loop over the pairs of payload types, from position [i] on. *)
Fixpoint symmetric_loop (pts : list (pj_str * pj_str)) (i : nat) (answer : pjmedia_sdp_media)
    (tmp : list pjmedia_sdp_attr) : pjmedia_sdp_media * list pjmedia_sdp_attr :=
  match pts with
  | [] => (answer, tmp)
  | (pt_offer, pt_answer) :: pts =>
      if str_eq pt_answer pt_offer then symmetric_loop pts (S i) answer tmp
      else
        let answer := with_fmt answer (<[i := pt_offer]> (m_fmt answer)) in
        let '(answer, tmp) := set_aside answer tmp "rtpmap" pt_answer pt_offer in
        let '(answer, tmp) := set_aside answer tmp "fmtp" pt_answer pt_offer in
        symmetric_loop pts (S i) answer tmp
  end.

Definition apply_answer_symmetric_pt (answer : pjmedia_sdp_media) (pts : list (pj_str * pj_str)) :
    pjmedia_sdp_media :=
  let '(answer, tmp) := symmetric_loop pts 0 answer [] in
  foldl pjmedia_sdp_media_add_attr answer tmp.

(** The variables of the matching loop: the flags, the pairs of payload types
    ([pt_offer[k]], [pt_answer[k]]) and the preanswer, whose attributes a
    callback may adjust. *)
Record match_state := mk_match {
  master_has_codec : bool;
  master_has_other : bool;
  found_matching_codec : bool;
  found_matching_telephone_event : bool;
  found_matching_other : bool;
  pt_pairs : list (pj_str * pj_str);
  ms_preanswer : pjmedia_sdp_media;
}.

Definition with_codec (st : match_state) : match_state :=
  mk_match true (master_has_other st) (found_matching_codec st)
    (found_matching_telephone_event st) (found_matching_other st) (pt_pairs st) (ms_preanswer st).
Definition with_other (st : match_state) : match_state :=
  mk_match (master_has_codec st) true (found_matching_codec st)
    (found_matching_telephone_event st) (found_matching_other st) (pt_pairs st) (ms_preanswer st).
Definition with_preanswer (st : match_state) (m : pjmedia_sdp_media) : match_state :=
  mk_match (master_has_codec st) (master_has_other st) (found_matching_codec st)
    (found_matching_telephone_event st) (found_matching_other st) (pt_pairs st) m.
Definition codec_found (st : match_state) (pair : pj_str * pj_str) : match_state :=
  mk_match (master_has_codec st) (master_has_other st) true
    (found_matching_telephone_event st) (found_matching_other st) (pt_pairs st ++ [pair]) (ms_preanswer st).
Definition event_found (st : match_state) (pair : pj_str * pj_str) : match_state :=
  mk_match (master_has_codec st) (master_has_other st) (found_matching_codec st)
    true (found_matching_other st) (pt_pairs st ++ [pair]) (ms_preanswer st).
Definition other_found (st : match_state) (pair : pj_str * pj_str) : match_state :=
  mk_match (master_has_codec st) (master_has_other st) (found_matching_codec st)
    (found_matching_telephone_event st) true (pt_pairs st ++ [pair]) (ms_preanswer st).

Definition offer_rtpmap_matches (or_ lr : pjmedia_sdp_rtpmap) : bool :=
  str_ieq (rm_enc_name or_) (rm_enc_name lr) && (rm_clock_rate or_ =? rm_clock_rate lr) &&
  (str_ieq (rm_param or_) (rm_param lr) ||
   ((length (rm_param lr) =? 0)%nat && (length (rm_param or_) =? 1)%nat &&
    (first_char (rm_param or_) =? 49)) ||
   ((length (rm_param or_) =? 0)%nat && (length (rm_param lr) =? 1)%nat &&
    (first_char (rm_param lr) =? 49))).

Definition slave_of (prefer_remote : bool) (offer preanswer : pjmedia_sdp_media) : pjmedia_sdp_media :=
  if prefer_remote then preanswer else offer.
Definition master_of (prefer_remote : bool) (offer preanswer : pjmedia_sdp_media) : pjmedia_sdp_media :=
  if prefer_remote then offer else preanswer.

(** [pt_offer[k]] and [pt_answer[k]] for a format of the master and its match
    in the slave. *)
Definition pt_pair (prefer_remote : bool) (master_fmt slave_fmt : pj_str) : pj_str * pj_str :=
  if prefer_remote then (master_fmt, slave_fmt) else (slave_fmt, master_fmt).

Fixpoint find_static (fmts : list pj_str) (pt : Z) : option pj_str :=
  match fmts with
  | [] => None
  | f :: fmts => if (fmt_pt f =? pt) && pj_isdigit (first_char f) then Some f else find_static fmts pt
  end.

(** The loop over the formats of the slave for a dynamic payload type, [fmts]
    being those from position [j] on: the matching format and the preanswer
    after the callbacks. *)
Fixpoint find_dynamic (prefer_remote is_codec : bool) (or_ : pjmedia_sdp_rtpmap)
    (offer : pjmedia_sdp_media) (i : nat) (preanswer : pjmedia_sdp_media)
    (fmts : list pj_str) (j : nat) : option pj_str * pjmedia_sdp_media :=
  match fmts with
  | [] => (None, preanswer)
  | f :: fmts =>
      match rtpmap_of (slave_of prefer_remote offer preanswer) f with
      | Some lr =>
          if offer_rtpmap_matches or_ lr then
            if is_codec then
              let o_fmt_idx := if prefer_remote then i else j in
              let a_fmt_idx := if prefer_remote then j else i in
              let '(status, attrs) :=
                custom_fmt_match (rm_enc_name or_) offer o_fmt_idx preanswer a_fmt_idx
                  ALLOW_MODIFY_ANSWER in
              let preanswer := with_attr preanswer attrs in
              if status =? PJ_SUCCESS then (Some f, preanswer)
              else find_dynamic prefer_remote is_codec or_ offer i preanswer fmts (S j)
            else (Some f, preanswer)
          else find_dynamic prefer_remote is_codec or_ offer i preanswer fmts (S j)
      | None => find_dynamic prefer_remote is_codec or_ offer i preanswer fmts (S j)
      end
  end.

(** One format of the master: the static and the dynamic payload types and the
    formats that are no number. *)
Definition match_static (prefer_remote multiple : bool) (offer : pjmedia_sdp_media)
    (fmt : pj_str) (st : match_state) : match_state :=
  let st := with_codec st in
  if negb multiple && found_matching_codec st then st
  else match find_static (m_fmt (slave_of prefer_remote offer (ms_preanswer st))) (fmt_pt fmt) with
       | Some f => codec_found st (f, f)
       | None => st
       end.

Definition match_dynamic (prefer_remote multiple : bool) (offer : pjmedia_sdp_media) (i : nat)
    (fmt : pj_str) (st : match_state) : (pj_status_t * pjmedia_sdp_media) + match_state :=
  match rtpmap_of (master_of prefer_remote offer (ms_preanswer st)) fmt with
  | None => inl (PJMEDIA_SDP_EMISSINGRTPMAP, ms_preanswer st)
  | Some or_ =>
      let is_codec := negb (str_ieq (rm_enc_name or_) (cstr "telephone-event")) in
      let st := if is_codec then with_codec st else st in
      if (if is_codec then negb multiple && found_matching_codec st
          else found_matching_telephone_event st)
      then inr st
      else
        let '(found, preanswer) :=
          find_dynamic prefer_remote is_codec or_ offer i (ms_preanswer st)
            (m_fmt (slave_of prefer_remote offer (ms_preanswer st))) 0 in
        let st := with_preanswer st preanswer in
        inr match found with
            | Some f =>
                if is_codec then codec_found st (pt_pair prefer_remote fmt f)
                else event_found st (pt_pair prefer_remote fmt f)
            | None => st
            end
  end.

Definition match_other (prefer_remote : bool) (offer : pjmedia_sdp_media)
    (fmt : pj_str) (st : match_state) : match_state :=
  let st := with_other st in
  if found_matching_other st then st
  else match find_str (m_fmt (slave_of prefer_remote offer (ms_preanswer st))) fmt with
       | Some j =>
           other_found st (pt_pair prefer_remote fmt
             (default [] (m_fmt (slave_of prefer_remote offer (ms_preanswer st)) !! j)))
       | None => st
       end.

(** The loop over the formats of the master, [fmts] being those from position
    [i] on. *)
Fixpoint match_loop (prefer_remote multiple : bool) (offer : pjmedia_sdp_media)
    (fmts : list pj_str) (i : nat) (st : match_state) :
    (pj_status_t * pjmedia_sdp_media) + match_state :=
  match fmts with
  | [] => inr st
  | fmt :: fmts =>
      if pj_isdigit (first_char fmt) then
        if fmt_pt fmt <? 96 then
          match_loop prefer_remote multiple offer fmts (S i)
            (match_static prefer_remote multiple offer fmt st)
        else
          match match_dynamic prefer_remote multiple offer i fmt st with
          | inl e => inl e
          | inr st => match_loop prefer_remote multiple offer fmts (S i) st
          end
      else
        match_loop prefer_remote multiple offer fmts (S i) (match_other prefer_remote offer fmt st)
  end.

(** The formats of the answer, moved to the front in the order of [pts]; the
    search of each starts at its own position [i] and must succeed. *)
Fixpoint reorder_loop (pts : list pj_str) (i : nat) (fmt : list pj_str) : option (list pj_str) :=
  match pts with
  | [] => Some fmt
  | pt :: pts =>
      match find_str (drop i fmt) pt with
      | Some k =>
          let j := (i + k)%nat in
          match fmt !! i, fmt !! j with
          | Some a, Some b => reorder_loop pts (S i) (<[i := b]> (<[j := a]> fmt))
          | _, _ => None
          end
      | None => None
      end
  end.

(** Status, preanswer and, on success, the answer; [None] when the assertion of
    the reordering fails. *)
Definition match_offer (prefer_remote multiple : bool) (offer preanswer : pjmedia_sdp_media)
    (preanswer_sdp : pjmedia_sdp_session) :
    option (pj_status_t * pjmedia_sdp_media * option pjmedia_sdp_media) :=
  if m_port offer =? 0 then
    Some (PJ_SUCCESS, preanswer, Some (sdp_media_clone_deactivate offer preanswer preanswer_sdp))
  else if m_port preanswer =? 0 then Some (PJ_SUCCESS, preanswer, Some preanswer)
  else
    let st0 := mk_match false false false false false [] preanswer in
    match match_loop prefer_remote multiple offer
            (m_fmt (master_of prefer_remote offer preanswer)) 0 st0 with
    | inl (status, preanswer) => Some (status, preanswer, None)
    | inr st =>
        if master_has_codec st && negb (found_matching_codec st) then
          Some (PJMEDIA_SDPNEG_NOANSCODEC, ms_preanswer st, None)
        else if master_has_other st && negb (found_matching_other st) then
          Some (PJMEDIA_SDPNEG_NOANSUNKNOWN, ms_preanswer st, None)
        else
          let answer := ms_preanswer st in
          let count := length (pt_pairs st) in
          match reorder_loop (pt_pairs st).*2 0 (m_fmt answer) with
          | None => None
          | Some fmt =>
              let answer := with_fmt answer fmt in
              let answer := foldl remove_fmt_attrs answer (drop count fmt) in
              let answer := with_fmt answer (take count fmt) in
              let answer := apply_answer_symmetric_pt answer (pt_pairs st) in
              Some (PJ_SUCCESS, ms_preanswer st, Some (update_media_direction offer answer))
          end
    end.

(** The search of a local media for an offered one; [before] are the media
    tried so far, each with its [media_used] flag.  Gives the status of the last
    failure, the local media and the answer. *)
Fixpoint try_medias (prefer_remote multiple : bool) (initial : pjmedia_sdp_session)
    (om : pjmedia_sdp_media) (before todo : list (bool * pjmedia_sdp_media)) (status : pj_status_t) :
    option (pj_status_t * list (bool * pjmedia_sdp_media) * option pjmedia_sdp_media) :=
  match todo with
  | [] => Some (status, before, None)
  | (used, im) :: todo =>
      if str_eq (m_media om) (m_media im) && str_eq (m_transport om) (m_transport im) && negb used
      then
        match match_offer prefer_remote multiple om im initial with
        | None => None
        | Some (status2, im, am) =>
            if status2 =? PJ_SUCCESS then Some (status, before ++ (true, im) :: todo, am)
            else try_medias prefer_remote multiple initial om (before ++ [(used, im)]) todo status2
        end
      else try_medias prefer_remote multiple initial om (before ++ [(used, im)]) todo status
  end.

(** The loop over the media of the offer: status, media of the answer. *)
Fixpoint answer_medias (prefer_remote multiple : bool) (initial : pjmedia_sdp_session)
    (offer : list pjmedia_sdp_media) (local : list (bool * pjmedia_sdp_media))
    (status : pj_status_t) : option (pj_status_t * list pjmedia_sdp_media) :=
  match offer with
  | [] => Some (status, [])
  | om :: offer =>
      match try_medias prefer_remote multiple initial om [] local status with
      | None => None
      | Some (status, local, am) =>
          let am := match am with
                    | Some am => am
                    | None => sdp_media_clone_deactivate om om initial
                    end in
          match answer_medias prefer_remote multiple initial offer local status with
          | None => None
          | Some (status, ams) => Some (status, am :: ams)
          end
      end
  end.

Definition has_active_media (media : list pjmedia_sdp_media) : bool :=
  existsb (fun m => negb (m_port m =? 0)) media.

(** The status starts as that of the validation. *)
Definition create_answer (prefer_remote multiple : bool) (initial offer : pjmedia_sdp_session) :
    option (pj_status_t * option pjmedia_sdp_session) :=
  let status := pjmedia_sdp_validate offer in
  if negb (status =? PJ_SUCCESS) then Some (status, None)
  else
    match answer_medias prefer_remote multiple initial (s_media offer)
            (map (pair false) (s_media initial)) status with
    | None => None
    | Some (status, ams) =>
        Some (if has_active_media ams then PJ_SUCCESS else status,
              Some (with_media initial ams))
    end.

(** ** The negotiator *)

Definition pjmedia_sdp_neg_create_w_local_offer (local : pjmedia_sdp_session) :
    pj_status_t * option pjmedia_sdp_neg :=
  let status := pjmedia_sdp_validate local in
  if negb (status =? PJ_SUCCESS) then (status, None)
  else
    (PJ_SUCCESS,
     Some (mk_neg STATE_LOCAL_OFFER PJMEDIA_SDP_NEG_PREFER_REMOTE_CODEC_ORDER
             PJMEDIA_SDP_NEG_ANSWER_MULTIPLE_CODECS false false (Some local) None None
             (Some local) None)).

(** [answer_with_multiple_codecs] keeps the zero of the allocation. *)
Definition pjmedia_sdp_neg_create_w_remote_offer (initial : option pjmedia_sdp_session)
    (remote : pjmedia_sdp_session) : pj_status_t * option pjmedia_sdp_neg :=
  let status := pjmedia_sdp_validate2 remote false in
  if negb (status =? PJ_SUCCESS) then (status, None)
  else
    match initial with
    | Some local =>
        let status := pjmedia_sdp_validate local in
        if negb (status =? PJ_SUCCESS) then (status, None)
        else
          (PJ_SUCCESS,
           Some (mk_neg STATE_WAIT_NEGO PJMEDIA_SDP_NEG_PREFER_REMOTE_CODEC_ORDER
                   false false false (Some local) None None (Some local) (Some remote)))
    | None =>
        (PJ_SUCCESS,
         Some (mk_neg STATE_REMOTE_OFFER PJMEDIA_SDP_NEG_PREFER_REMOTE_CODEC_ORDER
                 false false false None None None None (Some remote)))
    end.

Definition pjmedia_sdp_neg_set_prefer_remote_codec_order (neg : pjmedia_sdp_neg) (b : bool) :
    pj_status_t * pjmedia_sdp_neg :=
  (PJ_SUCCESS,
   mk_neg (neg_state neg) b (answer_with_multiple_codecs neg) (has_remote_answer neg)
     (answer_was_remote neg) (initial_sdp neg) (active_local_sdp neg) (active_remote_sdp neg)
     (neg_local_sdp neg) (neg_remote_sdp neg)).

Definition pjmedia_sdp_neg_set_answer_multiple_codecs (neg : pjmedia_sdp_neg) (b : bool) :
    pj_status_t * pjmedia_sdp_neg :=
  (PJ_SUCCESS,
   mk_neg (neg_state neg) (prefer_remote_codec_order neg) b (has_remote_answer neg)
     (answer_was_remote neg) (initial_sdp neg) (active_local_sdp neg) (active_remote_sdp neg)
     (neg_local_sdp neg) (neg_remote_sdp neg)).

(** A pointer field read with an error for null. *)
Definition get_sdp (err : pj_status_t) (sdp : option pjmedia_sdp_session) :
    pj_status_t * option pjmedia_sdp_session :=
  match sdp with Some s => (PJ_SUCCESS, Some s) | None => (err, None) end.

Definition pjmedia_sdp_neg_get_state (neg : pjmedia_sdp_neg) : pjmedia_sdp_neg_state :=
  neg_state neg.
Definition pjmedia_sdp_neg_get_active_local (neg : pjmedia_sdp_neg) :=
  get_sdp PJMEDIA_SDPNEG_ENOACTIVE (active_local_sdp neg).
Definition pjmedia_sdp_neg_get_active_remote (neg : pjmedia_sdp_neg) :=
  get_sdp PJMEDIA_SDPNEG_ENOACTIVE (active_remote_sdp neg).
Definition pjmedia_sdp_neg_was_answer_remote (neg : pjmedia_sdp_neg) : bool :=
  answer_was_remote neg.
Definition pjmedia_sdp_neg_get_neg_remote (neg : pjmedia_sdp_neg) :=
  get_sdp PJMEDIA_SDPNEG_ENONEG (neg_remote_sdp neg).
Definition pjmedia_sdp_neg_get_neg_local (neg : pjmedia_sdp_neg) :=
  get_sdp PJMEDIA_SDPNEG_ENONEG (neg_local_sdp neg).
Definition pjmedia_sdp_neg_has_local_answer (neg : pjmedia_sdp_neg) : bool :=
  negb (has_remote_answer neg).

(** *** A new local offer *)

Fixpoint find_media (media : list pjmedia_sdp_media) (om : pjmedia_sdp_media) : option nat :=
  match media with
  | [] => None
  | nm :: media => if str_eq (m_media nm) (m_media om) then Some O else S <$> find_media media om
  end.

(** [pj_array_insert] with room for the element at [pos]: the elements from
    [pos] to [count - 1] move up by one. *)
Definition pj_array_insert {A} (array : list A) (count pos : nat) (value : A) : list A :=
  take pos array ++ value :: take (count - pos) (drop pos array) ++ drop (S count) array.

(** The media [om] at position [oi] of the old offer is brought to the same
    position of the new one, or added there, disabled. *)
Definition place_media (local : pjmedia_sdp_session) (new : list pjmedia_sdp_media)
    (oi : nat) (om : pjmedia_sdp_media) : option (list pjmedia_sdp_media) :=
  match find_media (drop oi new) om with
  | Some O => Some new
  | Some k =>
      match new !! (oi + k)%nat with
      | Some nm => Some (pj_array_insert new (oi + k) oi nm)
      | None => None
      end
  | None =>
      if (length new <? PJMEDIA_MAX_SDP_MEDIA)%nat then
        Some (pj_array_insert new (length new) oi (sdp_media_clone_deactivate om om local))
      else None
  end.

Fixpoint place_medias (local : pjmedia_sdp_session) (old : list pjmedia_sdp_media) (oi : nat)
    (new : list pjmedia_sdp_media) : option (list pjmedia_sdp_media) :=
  match old with
  | [] => Some new
  | om :: old =>
      match place_media local new oi om with
      | Some new => place_medias local old (S oi) new
      | None => None
      end
  end.

(** With media changes allowed only the missing media are added. *)
Definition add_missing (local : pjmedia_sdp_session) (old new : list pjmedia_sdp_media) :
    list pjmedia_sdp_media :=
  new ++ map (fun om => sdp_media_clone_deactivate om om local) (drop (length new) old).

Definition pjmedia_sdp_neg_modify_local_offer2 (neg : pjmedia_sdp_neg) (flags : Z)
    (local : pjmedia_sdp_session) : option (pj_status_t * pjmedia_sdp_neg) :=
  if negb (bool_decide (neg_state neg = STATE_DONE)) then Some (PJMEDIA_SDPNEG_EINSTATE, neg)
  else
    let status := pjmedia_sdp_validate local in
    if negb (status =? PJ_SUCCESS) then Some (status, neg)
    else
      match active_local_sdp neg with
      | None => None
      | Some old_offer =>
          let o := s_origin old_offer in
          let origin := with_version o (u32 (o_version o + 1)) in
          let media :=
            if Z.land flags PJMEDIA_SDP_NEG_ALLOW_MEDIA_CHANGE =? 0
            then place_medias local (s_media old_offer) 0 (s_media local)
            else Some (add_missing local (s_media old_offer) (s_media local)) in
          match media with
          | None => None
          | Some media =>
              let new_offer := with_media (with_origin local origin) media in
              Some (PJ_SUCCESS,
                    mk_neg STATE_LOCAL_OFFER (prefer_remote_codec_order neg)
                      (answer_with_multiple_codecs neg) (has_remote_answer neg)
                      (answer_was_remote neg) (Some new_offer) (active_local_sdp neg)
                      (active_remote_sdp neg) (Some new_offer) (neg_remote_sdp neg))
          end
      end.

Definition pjmedia_sdp_neg_modify_local_offer (neg : pjmedia_sdp_neg) (local : pjmedia_sdp_session) :=
  pjmedia_sdp_neg_modify_local_offer2 neg 0 local.

(** Status, offer to send and negotiator. *)
Definition pjmedia_sdp_neg_send_local_offer (neg : pjmedia_sdp_neg) :
    pj_status_t * option pjmedia_sdp_session * pjmedia_sdp_neg :=
  match neg_state neg with
  | STATE_DONE =>
      match active_local_sdp neg with
      | None => (PJMEDIA_SDPNEG_ENOACTIVE, None, neg)
      | Some active =>
          (PJ_SUCCESS, Some active,
           mk_neg STATE_LOCAL_OFFER (prefer_remote_codec_order neg)
             (answer_with_multiple_codecs neg) (has_remote_answer neg) (answer_was_remote neg)
             (Some active) (active_local_sdp neg) (active_remote_sdp neg) (Some active)
             (neg_remote_sdp neg))
      end
  | STATE_LOCAL_OFFER => (PJ_SUCCESS, neg_local_sdp neg, neg)
  | _ => (PJMEDIA_SDPNEG_EINSTATE, None, neg)
  end.

Definition pjmedia_sdp_neg_set_remote_answer (neg : pjmedia_sdp_neg) (remote : pjmedia_sdp_session) :
    pj_status_t * pjmedia_sdp_neg :=
  if negb (bool_decide (neg_state neg = STATE_LOCAL_OFFER)) then (PJMEDIA_SDPNEG_EINSTATE, neg)
  else
    (PJ_SUCCESS,
     mk_neg STATE_WAIT_NEGO (prefer_remote_codec_order neg) (answer_with_multiple_codecs neg)
       true (answer_was_remote neg) (initial_sdp neg) (active_local_sdp neg)
       (active_remote_sdp neg) (neg_local_sdp neg) (Some remote)).

Definition pjmedia_sdp_neg_set_remote_offer (neg : pjmedia_sdp_neg) (remote : pjmedia_sdp_session) :
    pj_status_t * pjmedia_sdp_neg :=
  if negb (bool_decide (neg_state neg = STATE_DONE)) then (PJMEDIA_SDPNEG_EINSTATE, neg)
  else
    (PJ_SUCCESS,
     mk_neg STATE_REMOTE_OFFER (prefer_remote_codec_order neg) (answer_with_multiple_codecs neg)
       (has_remote_answer neg) (answer_was_remote neg) (initial_sdp neg) (active_local_sdp neg)
       (active_remote_sdp neg) (neg_local_sdp neg) (Some remote)).

Definition pjmedia_sdp_neg_set_local_answer (neg : pjmedia_sdp_neg) (local : pjmedia_sdp_session) :
    pj_status_t * pjmedia_sdp_neg :=
  if negb (bool_decide (neg_state neg = STATE_REMOTE_OFFER)) then (PJMEDIA_SDPNEG_EINSTATE, neg)
  else
    let '(initial, neg_local) :=
      match initial_sdp neg with
      | Some initial =>
          (initial, with_origin local (with_id (s_origin local) (o_id (s_origin initial))))
      | None => (local, local)
      end in
    (PJ_SUCCESS,
     mk_neg STATE_WAIT_NEGO (prefer_remote_codec_order neg) (answer_with_multiple_codecs neg)
       (has_remote_answer neg) (answer_was_remote neg) (Some initial) (active_local_sdp neg)
       (active_remote_sdp neg) (Some neg_local) (neg_remote_sdp neg)).

Definition bump_version (sdp : pjmedia_sdp_session) : pjmedia_sdp_session :=
  let o := s_origin sdp in with_origin sdp (with_version o (u32 (o_version o + 1))).

Definition pjmedia_sdp_neg_cancel_offer (neg : pjmedia_sdp_neg) : pj_status_t * pjmedia_sdp_neg :=
  match neg_state neg with
  | STATE_LOCAL_OFFER | STATE_REMOTE_OFFER =>
      let active :=
        if bool_decide (neg_state neg = STATE_LOCAL_OFFER) then bump_version <$> active_local_sdp neg
        else active_local_sdp neg in
      (PJ_SUCCESS,
       mk_neg STATE_DONE (prefer_remote_codec_order neg) (answer_with_multiple_codecs neg)
         false (answer_was_remote neg) (initial_sdp neg) active (active_remote_sdp neg) None None)
  | _ => (PJMEDIA_SDPNEG_EINSTATE, neg)
  end.

(** The end of a negotiation, with the active descriptions. *)
Definition neg_done (neg : pjmedia_sdp_neg) (active_local active_remote : option pjmedia_sdp_session) :
    pjmedia_sdp_neg :=
  mk_neg STATE_DONE (prefer_remote_codec_order neg) (answer_with_multiple_codecs neg)
    false (has_remote_answer neg) (initial_sdp neg) active_local active_remote None None.

Definition negotiate_answer (neg : pjmedia_sdp_neg) (local remote : pjmedia_sdp_session)
    (allow_asym : bool) : pj_status_t * pjmedia_sdp_neg :=
  match process_answer local remote allow_asym with
  | (status, Some (active, remote)) =>
      if status =? PJ_SUCCESS then (status, neg_done neg (Some active) (Some remote))
      else (status, neg_done neg (active_local_sdp neg) (active_remote_sdp neg))
  | (status, None) => (status, neg_done neg (active_local_sdp neg) (active_remote_sdp neg))
  end.

Definition negotiate_offer (neg : pjmedia_sdp_neg) (local remote : pjmedia_sdp_session) :
    option (pj_status_t * pjmedia_sdp_neg) :=
  match create_answer (prefer_remote_codec_order neg) (answer_with_multiple_codecs neg) local remote with
  | None => None
  | Some (status, answer) =>
      if status =? PJ_SUCCESS then
        match answer, (match active_local_sdp neg with Some a => Some a | None => initial_sdp neg end) with
        | Some answer, Some previous =>
            let active_ver := o_version (s_origin previous) in
            let active := with_origin answer (with_version (s_origin answer) (u32 (active_ver + 1))) in
            Some (status, neg_done neg (Some active) (Some remote))
        | _, _ => None
        end
      else Some (status, neg_done neg (active_local_sdp neg) (active_remote_sdp neg))
  end.

Definition pjmedia_sdp_neg_negotiate (neg : pjmedia_sdp_neg) (allow_asym : bool) :
    option (pj_status_t * pjmedia_sdp_neg) :=
  if negb (bool_decide (neg_state neg = STATE_WAIT_NEGO)) then Some (PJMEDIA_SDPNEG_EINSTATE, neg)
  else
    match neg_remote_sdp neg, neg_local_sdp neg with
    | None, _ => Some (PJ_EBUG, neg)
    | _, None => None
    | Some remote, Some local =>
        if has_remote_answer neg then Some (negotiate_answer neg local remote allow_asym)
        else negotiate_offer neg local remote
    end.

(** Comparison of two formats, for the users of the negotiator. *)
Definition pjmedia_sdp_neg_fmt_match (offer : pjmedia_sdp_media) (o_fmt_idx : nat)
    (answer : pjmedia_sdp_media) (a_fmt_idx : nat) (option : Z) :
    pj_status_t * list pjmedia_sdp_attr :=
  let o_fmt := default [] (m_fmt offer !! o_fmt_idx) in
  let a_fmt := default [] (m_fmt answer !! a_fmt_idx) in
  let o_pt := fmt_pt o_fmt in
  let a_pt := fmt_pt a_fmt in
  if (o_pt <? 96) || (a_pt <? 96) then
    (if o_pt =? a_pt then PJ_SUCCESS else PJMEDIA_SDP_EFORMATNOTEQUAL, m_attr answer)
  else
    match rtpmap_of offer o_fmt, rtpmap_of answer a_fmt with
    | None, _ | _, None => (PJ_EBUG, m_attr answer)
    | Some o_rtpmap, Some a_rtpmap =>
        if negb (str_ieq (rm_enc_name o_rtpmap) (rm_enc_name a_rtpmap)) ||
           negb (rm_clock_rate o_rtpmap =? rm_clock_rate a_rtpmap)
        then (PJMEDIA_SDP_EFORMATNOTEQUAL, m_attr answer)
        else custom_fmt_match (rm_enc_name o_rtpmap) offer o_fmt_idx answer a_fmt_idx option
    end.

End Negotiator.
