(* ===== verification/SdpNegState.v ===== *)
(** * The offer/answer state machine

    The operations of a negotiator as steps, runs of them, the automaton of
    RFC 3264 (one offer outstanding at a time, every offer answered or
    withdrawn) and the invariant that ties the state to the descriptions held. *)

From Stdlib Require Import ZArith Lia Bool String.
From stdpp Require Import base list numbers option.
From S2P Require Import Prelude.
From S2P Require Import PjString.
From S2P Require Import Scanner.
From S2P Require Import Sdp.
From S2P Require Import SdpNeg.
Local Open Scope Z_scope.

Section State.
Context (cbs : list fmt_match_cb_t) (cb_call : nat -> fmt_match_fn).
Context (uninit : pjmedia_sdp_rtpmap).

(** ** Operations and runs *)

Inductive neg_op :=
| OpModify (flags : Z) (local : pjmedia_sdp_session)
| OpSend
| OpRemoteAnswer (remote : pjmedia_sdp_session)
| OpRemoteOffer (remote : pjmedia_sdp_session)
| OpLocalAnswer (local : pjmedia_sdp_session)
| OpCancel
| OpNegotiate (allow_asym : bool)
| OpPrefer (b : bool)
| OpMultiple (b : bool).

Definition run_neg_op (neg : pjmedia_sdp_neg) (op : neg_op) : option (pj_status_t * pjmedia_sdp_neg) :=
  match op with
  | OpModify flags local => pjmedia_sdp_neg_modify_local_offer2 neg flags local
  | OpSend => let '(status, _, neg) := pjmedia_sdp_neg_send_local_offer neg in Some (status, neg)
  | OpRemoteAnswer remote => Some (pjmedia_sdp_neg_set_remote_answer neg remote)
  | OpRemoteOffer remote => Some (pjmedia_sdp_neg_set_remote_offer neg remote)
  | OpLocalAnswer local => Some (pjmedia_sdp_neg_set_local_answer neg local)
  | OpCancel => Some (pjmedia_sdp_neg_cancel_offer neg)
  | OpNegotiate asym => pjmedia_sdp_neg_negotiate cbs cb_call uninit neg asym
  | OpPrefer b => Some (pjmedia_sdp_neg_set_prefer_remote_codec_order neg b)
  | OpMultiple b => Some (pjmedia_sdp_neg_set_answer_multiple_codecs neg b)
  end.

Inductive neg_reachable : pjmedia_sdp_neg -> Prop :=
| reach_local local neg :
    pjmedia_sdp_neg_create_w_local_offer local = (PJ_SUCCESS, Some neg) -> neg_reachable neg
| reach_remote initial remote neg :
    pjmedia_sdp_neg_create_w_remote_offer initial remote = (PJ_SUCCESS, Some neg) ->
    neg_reachable neg
| reach_op neg op status neg' :
    neg_reachable neg -> run_neg_op neg op = Some (status, neg') -> neg_reachable neg'.

(** ** The automaton of RFC 3264 *)

Inductive offer_answer_step : pjmedia_sdp_neg_state -> neg_op -> pjmedia_sdp_neg_state -> Prop :=
| oa_modify flags local : offer_answer_step STATE_DONE (OpModify flags local) STATE_LOCAL_OFFER
| oa_offer_again : offer_answer_step STATE_DONE OpSend STATE_LOCAL_OFFER
| oa_resend : offer_answer_step STATE_LOCAL_OFFER OpSend STATE_LOCAL_OFFER
| oa_answered remote : offer_answer_step STATE_LOCAL_OFFER (OpRemoteAnswer remote) STATE_WAIT_NEGO
| oa_offered remote : offer_answer_step STATE_DONE (OpRemoteOffer remote) STATE_REMOTE_OFFER
| oa_answer local : offer_answer_step STATE_REMOTE_OFFER (OpLocalAnswer local) STATE_WAIT_NEGO
| oa_withdraw : offer_answer_step STATE_LOCAL_OFFER OpCancel STATE_DONE
| oa_reject : offer_answer_step STATE_REMOTE_OFFER OpCancel STATE_DONE
| oa_negotiated asym : offer_answer_step STATE_WAIT_NEGO (OpNegotiate asym) STATE_DONE.

(** Settings are not part of the automaton. *)
Definition is_setting (op : neg_op) : Prop :=
  match op with OpPrefer _ | OpMultiple _ => True | _ => False end.

(** ** The invariant *)

Definition neg_inv (neg : pjmedia_sdp_neg) : Prop :=
  (active_local_sdp neg = None <-> active_remote_sdp neg = None) /\
  (has_remote_answer neg = true -> neg_state neg = STATE_WAIT_NEGO) /\
  match neg_state neg with
  | STATE_NULL => False
  | STATE_LOCAL_OFFER => is_Some (neg_local_sdp neg) /\ is_Some (initial_sdp neg)
  | STATE_REMOTE_OFFER => is_Some (neg_remote_sdp neg)
  | STATE_WAIT_NEGO =>
      is_Some (neg_local_sdp neg) /\ is_Some (neg_remote_sdp neg) /\ is_Some (initial_sdp neg)
  | STATE_DONE =>
      neg_local_sdp neg = None /\ neg_remote_sdp neg = None
  end.

(** A step moves along an edge of the automaton, or it is refused and changes
    nothing, or it is a setting. *)
Definition step_allowed (neg : pjmedia_sdp_neg) (op : neg_op) (status : pj_status_t)
    (neg' : pjmedia_sdp_neg) : Prop :=
  offer_answer_step (neg_state neg) op (neg_state neg') \/
  (neg' = neg /\ status <> PJ_SUCCESS) \/
  (is_setting op /\ neg_state neg' = neg_state neg).

Ltac inv_fields := unfold neg_inv; cbn; split_and!; try done; eauto.
Ltac status_ne := vm_compute; discriminate.

Lemma create_local_inv local neg :
  pjmedia_sdp_neg_create_w_local_offer local = (PJ_SUCCESS, Some neg) -> neg_inv neg.
Proof.
  unfold pjmedia_sdp_neg_create_w_local_offer. destruct (negb _); [intros [=]|].
  intros [= <-]. inv_fields.
Qed.

Lemma create_remote_inv initial remote neg :
  pjmedia_sdp_neg_create_w_remote_offer initial remote = (PJ_SUCCESS, Some neg) -> neg_inv neg.
Proof.
  unfold pjmedia_sdp_neg_create_w_remote_offer. destruct (negb _); [intros [=]|].
  destruct initial; [destruct (negb _); [intros [=]|]|]; intros [= <-]; inv_fields.
Qed.

Lemma step_modify neg flags local status neg' :
  neg_inv neg -> pjmedia_sdp_neg_modify_local_offer2 neg flags local = Some (status, neg') ->
  step_allowed neg (OpModify flags local) status neg' /\ neg_inv neg'.
Proof.
  intros Hi. unfold pjmedia_sdp_neg_modify_local_offer2.
  destruct (bool_decide_reflect (neg_state neg = STATE_DONE)) as [E|E]; cbn [negb].
  2: { intros [= <- <-]. split; [|done]. right; left. split; [done|status_ne]. }
  destruct (Z.eqb_spec (pjmedia_sdp_validate local) PJ_SUCCESS) as [Ev|Ev]; cbn [negb].
  2: { intros [= <- <-]. split; [|done]. right; left. done. }
  destruct (active_local_sdp neg) as [old|] eqn:Ea; [|done].
  cbv zeta.
  destruct (if Z.land flags PJMEDIA_SDP_NEG_ALLOW_MEDIA_CHANGE =? 0 then _ else _) as [media|]; [|done]. intros [= <- <-]. split.
  - left. rewrite E. constructor.
  - destruct Hi as (Hact & Hra & Hst). rewrite E in *.
    inv_fields; rewrite ?Ea in *; try done. intros H; by apply Hra in H.
Qed.

Lemma step_send neg status sdp neg' :
  neg_inv neg -> pjmedia_sdp_neg_send_local_offer neg = (status, sdp, neg') ->
  step_allowed neg OpSend status neg' /\ neg_inv neg'.
Proof.
  intros Hi. unfold pjmedia_sdp_neg_send_local_offer.
  destruct (neg_state neg) eqn:E.
  1,3,4: intros [= <- <- <-]; split; [|done]; right; left; split; [done|status_ne].
  - intros [= <- <- <-]. split; [|done]. left. rewrite E. constructor.
  - destruct (active_local_sdp neg) as [a|] eqn:Ea; intros [= <- <- <-].
    + split; [left; rewrite E; constructor|].
      destruct Hi as (Hact & Hra & Hst). rewrite E in *.
      inv_fields; rewrite ?Ea in *; try done. intros H; by apply Hra in H.
    + split; [|done]. right; left. split; [done|status_ne].
Qed.

(** The operations that test the state and set fields. *)
Lemma step_remote_answer neg remote status neg' :
  neg_inv neg -> pjmedia_sdp_neg_set_remote_answer neg remote = (status, neg') ->
  step_allowed neg (OpRemoteAnswer remote) status neg' /\ neg_inv neg'.
Proof.
  intros Hi. unfold pjmedia_sdp_neg_set_remote_answer.
  destruct (bool_decide_reflect (neg_state neg = STATE_LOCAL_OFFER)) as [E|E]; cbn [negb];
    intros [= <- <-].
  - split; [left; rewrite E; constructor|].
    destruct Hi as (Hact & Hra & Hst). rewrite E in Hst. destruct Hst. inv_fields.
  - split; [|done]. right; left. split; [done|status_ne].
Qed.

Lemma step_remote_offer neg remote status neg' :
  neg_inv neg -> pjmedia_sdp_neg_set_remote_offer neg remote = (status, neg') ->
  step_allowed neg (OpRemoteOffer remote) status neg' /\ neg_inv neg'.
Proof.
  intros Hi. unfold pjmedia_sdp_neg_set_remote_offer.
  destruct (bool_decide_reflect (neg_state neg = STATE_DONE)) as [E|E]; cbn [negb];
    intros [= <- <-].
  - split; [left; rewrite E; constructor|].
    destruct Hi as (Hact & Hra & Hst). rewrite E in Hra. inv_fields.
    intros H. by apply Hra in H.
  - split; [|done]. right; left. split; [done|status_ne].
Qed.

Lemma step_local_answer neg local status neg' :
  neg_inv neg -> pjmedia_sdp_neg_set_local_answer neg local = (status, neg') ->
  step_allowed neg (OpLocalAnswer local) status neg' /\ neg_inv neg'.
Proof.
  intros Hi. unfold pjmedia_sdp_neg_set_local_answer.
  destruct (bool_decide_reflect (neg_state neg = STATE_REMOTE_OFFER)) as [E|E]; cbn [negb].
  - destruct Hi as (Hact & Hra & Hst). rewrite E in Hst.
    destruct (initial_sdp neg); intros [= <- <-]; (split; [left; rewrite E; constructor|inv_fields]).
  - intros [= <- <-]. split; [|done]. right; left. split; [done|status_ne].
Qed.

Lemma step_cancel neg status neg' :
  neg_inv neg -> pjmedia_sdp_neg_cancel_offer neg = (status, neg') ->
  step_allowed neg OpCancel status neg' /\ neg_inv neg'.
Proof.
  intros Hi. unfold pjmedia_sdp_neg_cancel_offer. destruct (neg_state neg) eqn:E.
  1,4,5: intros [= <- <-]; split; [|done]; right; left; split; [done|status_ne].
  all: intros [= <- <-]; split; [left; rewrite E; constructor|];
    destruct Hi as (Hact & Hra & Hst); inv_fields.
  rewrite fmap_None. done.
Qed.

Lemma step_negotiate neg asym status neg' :
  neg_inv neg -> pjmedia_sdp_neg_negotiate cbs cb_call uninit neg asym = Some (status, neg') ->
  step_allowed neg (OpNegotiate asym) status neg' /\ neg_inv neg'.
Proof.
  intros Hi. unfold pjmedia_sdp_neg_negotiate.
  destruct (bool_decide_reflect (neg_state neg = STATE_WAIT_NEGO)) as [E|E]; cbn [negb].
  2: { intros [= <- <-]. split; [|done]. right; left. split; [done|status_ne]. }
  destruct Hi as (Hact & Hra & Hst). rewrite E in Hst. destruct Hst as ([l ->] & [r ->] & _).
  assert (Hd : forall al ar, (al = None <-> ar = None) ->
    step_allowed neg (OpNegotiate asym) status (neg_done neg al ar) /\ neg_inv (neg_done neg al ar)).
  { intros al ar Ha. split; [left; rewrite E; constructor|]. inv_fields. }
  destruct (has_remote_answer neg).
  - unfold negotiate_answer. destruct (process_answer _ _ _ _ _ _) as [st [[a b]|]];
      [destruct (st =? PJ_SUCCESS)|]; intros [= <- <-]; by apply Hd.
  - unfold negotiate_offer.
    destruct (create_answer _ _ _ _ _ _ _) as [[st ans]|]; [|done].
    destruct (st =? PJ_SUCCESS); [|intros [= <- <-]; by apply Hd].
    destruct ans as [ans|]; [|done].
    destruct (match active_local_sdp neg with Some _ => _ | None => _ end); [|done].
    intros [= <- <-]. by apply Hd.
Qed.

Lemma step_ok neg op status neg' :
  neg_inv neg -> run_neg_op neg op = Some (status, neg') ->
  step_allowed neg op status neg' /\ neg_inv neg'.
Proof.
  intros Hi. destruct op; cbn [run_neg_op].
  - by apply step_modify.
  - destruct (pjmedia_sdp_neg_send_local_offer neg) as [[st sdp] n] eqn:E.
    intros [= <- <-]. by eapply step_send.
  - intros [= H]. by apply step_remote_answer.
  - intros [= H]. by apply step_remote_offer.
  - intros [= H]. by apply step_local_answer.
  - intros [= H]. by apply step_cancel.
  - by apply step_negotiate.
  - intros [= <- <-]. split; [by right; right|exact Hi].
  - intros [= <- <-]. split; [by right; right|exact Hi].
Qed.

Lemma neg_reachable_inv neg : neg_reachable neg -> neg_inv neg.
Proof.
  induction 1 as [local neg H|initial remote neg H|neg op status neg' _ IH H].
  - by eapply create_local_inv.
  - by eapply create_remote_inv.
  - by eapply step_ok.
Qed.

(** ** Operations that are not allowed *)

Definition edge_exists (s : pjmedia_sdp_neg_state) (op : neg_op) : Prop :=
  exists s', offer_answer_step s op s'.

Lemma refused neg op :
  neg_inv neg -> ~ edge_exists (neg_state neg) op -> ~ is_setting op ->
  run_neg_op neg op = Some (PJMEDIA_SDPNEG_EINSTATE, neg).
Proof.
  intros Hi He Hs.
  assert (Hne : forall s s', offer_answer_step s op s' -> neg_state neg <> s).
  { intros s s' Hst E. apply He. exists s'. by rewrite E. }
  destruct op; try (by exfalso; apply Hs); cbn [run_neg_op].
  - unfold pjmedia_sdp_neg_modify_local_offer2.
    rewrite bool_decide_eq_false_2; [done|]. eapply Hne; constructor.
  - unfold pjmedia_sdp_neg_send_local_offer.
    destruct (neg_state neg) eqn:E; try done; exfalso; by eapply Hne; [constructor|].
  - unfold pjmedia_sdp_neg_set_remote_answer.
    rewrite bool_decide_eq_false_2; [done|]. eapply Hne; constructor.
  - unfold pjmedia_sdp_neg_set_remote_offer.
    rewrite bool_decide_eq_false_2; [done|]. eapply Hne; constructor.
  - unfold pjmedia_sdp_neg_set_local_answer.
    rewrite bool_decide_eq_false_2; [done|]. eapply Hne; constructor.
  - unfold pjmedia_sdp_neg_cancel_offer.
    destruct (neg_state neg) eqn:E; try done; exfalso; by eapply Hne; [constructor|].
  - unfold pjmedia_sdp_neg_negotiate.
    rewrite bool_decide_eq_false_2; [done|]. eapply Hne; constructor.
Qed.

(** C6. Every operation of a negotiator moves along an edge of the offer/answer
    automaton, or is refused without any effect, or is a setting; an operation
    the automaton has no edge for in the current state is refused with
    [PJMEDIA_SDPNEG_EINSTATE]. *)
Theorem neg_refines_offer_answer neg op :
  neg_reachable neg ->
  (forall status neg', run_neg_op neg op = Some (status, neg') -> step_allowed neg op status neg') /\
  (~ edge_exists (neg_state neg) op -> ~ is_setting op ->
   run_neg_op neg op = Some (PJMEDIA_SDPNEG_EINSTATE, neg)).
Proof.
  intros Hr. apply neg_reachable_inv in Hr. split.
  - intros status neg' H. by apply step_ok.
  - by apply refused.
Qed.

(** ** Operations that answer *)

Lemma length_array_insert {A} (l : list A) count pos (v : A) :
  (pos <= count)%nat -> (count <= length l)%nat ->
  length (pj_array_insert l count pos v) = Nat.max (length l) (S count).
Proof.
  intros H1 H2. unfold pj_array_insert.
  rewrite length_app, length_take. cbn. rewrite length_app, length_take, !length_drop. lia.
Qed.

Lemma find_media_lt l om k : find_media l om = Some k -> (k < length l)%nat.
Proof.
  revert k. induction l as [|m l IH]; intros k; cbn; [done|]. case_if; [intros [= <-]; lia|].
  destruct (find_media l om) as [j|]; cbn; [|done]. intros [= <-]. specialize (IH j eq_refl). lia.
Qed.

Lemma place_media_room local new oi om :
  (oi <= length new)%nat -> (length new < PJMEDIA_MAX_SDP_MEDIA)%nat ->
  exists new', place_media local new oi om = Some new' /\
    (length new <= length new' <= S (length new))%nat /\ (oi < length new')%nat.
Proof.
  intros Ho Hl. unfold place_media.
  destruct (find_media (drop oi new) om) as [[|k]|] eqn:E.
  - apply find_media_lt in E. rewrite length_drop in E. exists new. split_and!; done || lia.
  - apply find_media_lt in E. rewrite length_drop in E.
    destruct (lookup_lt_is_Some_2 new (oi + S k)) as [nm ->]; [lia|].
    eexists. split; [done|]. rewrite length_array_insert by lia. lia.
  - rewrite (proj2 (Nat.ltb_lt _ _)) by done.
    eexists. split; [done|]. rewrite length_array_insert by lia. lia.
Qed.

Lemma place_medias_room local old : forall oi new,
  (oi <= length new)%nat -> (length new + length old <= PJMEDIA_MAX_SDP_MEDIA)%nat ->
  is_Some (place_medias local old oi new).
Proof.
  induction old as [|om old IH]; intros oi new Ho Hl; cbn [place_medias]; [eauto|].
  cbn [length] in Hl.
  destruct (place_media_room local new oi om Ho ltac:(lia)) as (new' & -> & Hn & Hn').
  apply IH; lia.
Qed.

(** What an operation needs of the descriptions: a new local offer an active
    description and room for its media, a local answer one that can be
    created. *)
Definition op_ready (neg : pjmedia_sdp_neg) (op : neg_op) : Prop :=
  match op with
  | OpModify flags local =>
      exists old, active_local_sdp neg = Some old /\
        (length (s_media local) + length (s_media old) <= PJMEDIA_MAX_SDP_MEDIA)%nat
  | OpNegotiate _ =>
      has_remote_answer neg = true \/
      forall local remote, neg_local_sdp neg = Some local -> neg_remote_sdp neg = Some remote ->
        is_Some (create_answer cbs cb_call uninit (prefer_remote_codec_order neg)
                   (answer_with_multiple_codecs neg) local remote)
  | _ => True
  end.

(** [create_answer] succeeds only with an answer. *)
Lemma create_answer_success prefer multiple initial offer ans :
  create_answer cbs cb_call uninit prefer multiple initial offer = Some (PJ_SUCCESS, ans) ->
  is_Some ans.
Proof.
  unfold create_answer. destruct (Z.eqb_spec (pjmedia_sdp_validate offer) PJ_SUCCESS) as [E|E];
    cbn [negb]; [|intros [= ? _]; done].
  destruct (answer_medias _ _ _ _ _ _ _ _ _) as [[st ams]|]; [|done]. intros [= _ <-]. eauto.
Qed.

(** In every reachable state the negotiator holds the descriptions its state
    calls for (both active ones or none; the ones under negotiation exactly
    while an offer is open), and an operation that finds what it needs completes
    without touching a null pointer or leaving an array. *)
Theorem neg_operations_complete neg op :
  neg_reachable neg -> op_ready neg op ->
  neg_inv neg /\ exists status neg', run_neg_op neg op = Some (status, neg').
Proof.
  intros Hr Hop. apply neg_reachable_inv in Hr. split; [done|].
  destruct op; cbn [run_neg_op op_ready] in *; try (eexists _, _; done).
  - destruct Hop as (old & Ha & Hm). unfold pjmedia_sdp_neg_modify_local_offer2. rewrite Ha.
    destruct (negb _); [by eexists _, _|]. cbv zeta. destruct (negb _); [by eexists _, _|].
    destruct (_ =? 0); [|by eexists _, _].
    destruct (place_medias_room local (s_media old) 0 (s_media local)) as [ms ->]; [lia|lia|].
    by eexists _, _.
  - destruct (pjmedia_sdp_neg_send_local_offer neg) as [[st sdp] n]. by eexists _, _.
  - by destruct (pjmedia_sdp_neg_set_remote_answer _ _); eexists _, _.
  - by destruct (pjmedia_sdp_neg_set_remote_offer _ _); eexists _, _.
  - by destruct (pjmedia_sdp_neg_set_local_answer _ _); eexists _, _.
  - by destruct (pjmedia_sdp_neg_cancel_offer _); eexists _, _.
  - unfold pjmedia_sdp_neg_negotiate.
    destruct (bool_decide_reflect (neg_state neg = STATE_WAIT_NEGO)) as [E|E]; cbn [negb];
      [|by eexists _, _].
    destruct Hr as (_ & _ & Hst). rewrite E in Hst. destruct Hst as ([l El] & [r Er] & [i Ei]).
    rewrite El, Er. destruct (has_remote_answer neg) eqn:Eh.
    { destruct (negotiate_answer _ _ _ _ _ _ _) as [st n]. by eexists _, _. }
    destruct Hop as [Hop|Hop]; [done|]. destruct (Hop l r El Er) as [[st ans] Hc].
    unfold negotiate_offer. rewrite Hc. destruct (Z.eqb_spec st PJ_SUCCESS) as [->|Hs];
      [|by eexists _, _].
    destruct (create_answer_success _ _ _ _ _ Hc) as [a ->]. rewrite Ei.
    destruct (active_local_sdp neg); by eexists _, _.
Qed.

Lemma process_medias_error offer todo : forall done ami answer has_active asym status,
  process_medias cbs cb_call uninit offer done todo ami answer has_active asym = inl status ->
  status <> PJ_SUCCESS.
Proof.
  induction todo as [|om todo IH]; intros done ami answer has_active asym status;
    cbn [process_medias]; [intros [=]|].
  destruct (answer !! ami) as [am|]; [|apply IH].
  destruct (process_m_answer _ _ _ _ _ _) as [[st om'] am'].
  destruct (st =? PJMEDIA_SDPNEG_EINVANSMEDIA); [apply IH|].
  destruct (st =? PJMEDIA_SDPNEG_EANSNOMEDIA); [apply IH|].
  destruct (Z.eqb_spec st PJ_SUCCESS); cbn [negb]; [apply IH|]. by intros [= <-].
Qed.

(** The version of the description a local answer follows. *)
Definition previous_version (neg : pjmedia_sdp_neg) : option Z :=
  (fun s => o_version (s_origin s)) <$>
  match active_local_sdp neg with Some a => Some a | None => initial_sdp neg end.

(** C40. A negotiation ends in [STATE_DONE] with nothing left under negotiation.
    When it fails the active descriptions stay as they were; when it succeeds
    both are replaced: after a local answer the remote one is the offer and the
    local one carries the version after the previous one, after a remote answer
    the local one keeps the origin of the offer. *)
Theorem negotiate_outcome neg asym status neg' :
  neg_reachable neg -> neg_state neg = STATE_WAIT_NEGO ->
  run_neg_op neg (OpNegotiate asym) = Some (status, neg') ->
  neg_state neg' = STATE_DONE /\ neg_local_sdp neg' = None /\ neg_remote_sdp neg' = None /\
  answer_was_remote neg' = has_remote_answer neg /\
  (status <> PJ_SUCCESS ->
   active_local_sdp neg' = active_local_sdp neg /\ active_remote_sdp neg' = active_remote_sdp neg) /\
  (status = PJ_SUCCESS ->
   exists local remote, active_local_sdp neg' = Some local /\ active_remote_sdp neg' = Some remote /\
     if has_remote_answer neg then
       s_origin <$> neg_local_sdp neg = Some (s_origin local)
     else
       neg_remote_sdp neg = Some remote /\
       exists v, previous_version neg = Some v /\ o_version (s_origin local) = u32 (v + 1)).
Proof.
  intros Hr Hs. apply neg_reachable_inv in Hr as (_ & _ & Hst). rewrite Hs in Hst.
  destruct Hst as ([l El] & [r Er] & _). cbn [run_neg_op]. unfold pjmedia_sdp_neg_negotiate.
  rewrite Hs, El, Er. cbn [negb bool_decide decide_rel sdp_neg_state_eq_dec].
  rewrite bool_decide_eq_true_2 by done. cbn [negb]. destruct (has_remote_answer neg) eqn:Eh.
  - unfold negotiate_answer.
    destruct (process_answer cbs cb_call uninit l r asym) as [st [[a b]|]] eqn:Ep.
    + assert (s_origin a = s_origin l) as Ho.
      { revert Ep. unfold process_answer. destruct (process_medias _ _ _ _ _ _ _ _ _ _) as [?|[[om am] h]];
          [done|]. intros [= _ <- _]. done. }
      destruct (Z.eqb_spec st PJ_SUCCESS) as [->|Hn]; intros [= <- <-]; cbn;
        split_and!; try done.
      intros _. exists a, b. cbn. by rewrite Ho.
    + assert (st <> PJ_SUCCESS) as Hn.
      { revert Ep. unfold process_answer.
        destruct (process_medias _ _ _ _ _ _ _ _ _ _) as [e|[[om am] h]] eqn:Em; [|done].
        intros [= <-]. by eapply process_medias_error. }
      intros [= <- <-]; cbn; split_and!; done.
  - unfold negotiate_offer.
    destruct (create_answer _ _ _ _ _ _ _) as [[st ans]|] eqn:Ec; [|done].
    destruct (Z.eqb_spec st PJ_SUCCESS) as [->|Hn].
    2: { intros [= <- <-]; cbn; split_and!; done. }
    destruct ans as [ans|]; [|done]. unfold previous_version.
    destruct (match active_local_sdp neg with Some a => Some a | None => initial_sdp neg end)
      as [p|] eqn:Epr; [|done].
    intros [= <- <-]; cbn. split_and!; try done. intros _. eexists _, _. split_and!; try done.
    exists (o_version (s_origin p)). done.
Qed.

End State.

(** ** Sample descriptions *)

Module Sample.

Definition attr (name value : String.string) : pjmedia_sdp_attr := mk_attr (cstr name) (cstr value).
Arguments attr (name value)%_string_scope.

Definition media (kind : String.string) (port : Z) (fmts : list String.string)
    (attrs : list pjmedia_sdp_attr) : pjmedia_sdp_media :=
  mk_media (cstr kind) port 0 (cstr "RTP/AVP") (map cstr fmts) None [] attrs.
Arguments media kind%_string_scope port fmts attrs.

Definition session (version : Z) (medias : list pjmedia_sdp_media) : pjmedia_sdp_session :=
  mk_session (mk_origin (cstr "-") 1 version (cstr "IN") (cstr "IP4") (cstr "10.0.0.1")) (cstr "pjmedia")
    (Some (mk_conn (cstr "IN") (cstr "IP4") (cstr "10.0.0.1"))) [] 0 0 [] medias.

Definition no_rtpmap : pjmedia_sdp_rtpmap := mk_rtpmap [] [] 0 [].
Definition no_call : nat -> fmt_match_fn := fun _ _ _ answer _ _ => (PJ_SUCCESS, m_attr answer).

Definition local_audio : pjmedia_sdp_session :=
  session 5 [media "audio" 4000 ["0"; "98"; "101"]%string
    [attr "rtpmap" "98 iLBC/8000"; attr "fmtp" "98 mode=20";
     attr "rtpmap" "101 telephone-event/8000"; attr "fmtp" "101 0-15"]].
Definition remote_audio : pjmedia_sdp_session :=
  session 9 [media "audio" 5000 ["97"; "8"; "0"; "96"]%string
    [attr "rtpmap" "97 ilbc/8000"; attr "rtpmap" "96 telephone-event/8000"; attr "sendonly" ""]].

(** A negotiator with a remote offer and a local answer. *)
Definition answering : pjmedia_sdp_neg :=
  default (mk_neg STATE_NULL false false false false None None None None None)
    (pjmedia_sdp_neg_create_w_remote_offer (Some local_audio) remote_audio).2.

Lemma answering_reachable : neg_reachable [] no_call no_rtpmap answering.
Proof. apply (reach_remote _ _ _ (Some local_audio) remote_audio). vm_compute. reflexivity. Qed.

End Sample.
Import Sample.

Lemma neg_refines_offer_answer_witness :
  run_neg_op [] no_call no_rtpmap answering OpCancel = Some (PJMEDIA_SDPNEG_EINSTATE, answering).
Proof.
  refine (proj2 (neg_refines_offer_answer [] no_call no_rtpmap answering OpCancel
    answering_reachable) _ _).
  - intros [s' H]. inversion H.
  - intros [].
Defined.

Lemma neg_operations_complete_witness :
  neg_inv answering /\
  exists status neg', run_neg_op [] no_call no_rtpmap answering (OpNegotiate false) = Some (status, neg').
Proof.
  apply (neg_operations_complete [] no_call no_rtpmap answering (OpNegotiate false)).
  - exact answering_reachable.
  - right. intros local remote Hl Hr.
    change (Some local_audio = Some local) in Hl. change (Some remote_audio = Some remote) in Hr.
    injection Hl as <-. injection Hr as <-. eexists. vm_compute. reflexivity.
Defined.

(** The previous version was 5. *)
Lemma negotiate_outcome_witness :
  exists neg', run_neg_op [] no_call no_rtpmap answering (OpNegotiate false) = Some (PJ_SUCCESS, neg') /\
    exists local, active_local_sdp neg' = Some local /\ o_version (s_origin local) = 6.
Proof.
  assert (Hs : fst <$> run_neg_op [] no_call no_rtpmap answering (OpNegotiate false) = Some PJ_SUCCESS)
    by (vm_compute; reflexivity).
  destruct (run_neg_op [] no_call no_rtpmap answering (OpNegotiate false)) as [[st neg']|] eqn:E;
    [|discriminate Hs].
  injection Hs as ->.
  exists neg'. split; [reflexivity|].
  destruct (negotiate_outcome [] no_call no_rtpmap answering false PJ_SUCCESS neg'
    answering_reachable eq_refl E) as (_ & _ & _ & _ & _ & H).
  destruct (H eq_refl) as (local & remote & Hl & _ & _ & v & Hv & Hver).
  exists local. split; [exact Hl|]. rewrite Hver.
  assert (Hp : previous_version answering = Some 5) by (vm_compute; reflexivity).
  rewrite Hp in Hv. injection Hv as <-. reflexivity.
Defined.

(** ** Defects *)

(** The operations of a run, from a created negotiator. *)
Fixpoint run_neg (neg : pjmedia_sdp_neg) (ops : list neg_op) : option pjmedia_sdp_neg :=
  match ops with
  | [] => Some neg
  | op :: ops =>
      match run_neg_op [] no_call no_rtpmap neg op with
      | Some (_, neg) => run_neg neg ops
      | None => None
      end
  end.

(** After an initial offer is withdrawn, or a first negotiation fails, the state
    is [STATE_DONE] without an active description; a new local offer reads
    the origin of the missing one. *)
Theorem modify_after_cancel_crashes :
  (match (pjmedia_sdp_neg_create_w_local_offer local_audio).2 with
   | Some neg => run_neg neg [OpCancel; OpModify 0 local_audio]
   | None => Some answering
   end) = None.
Proof. vm_compute. reflexivity. Qed.

(** Sixteen video lines were negotiated; an offer of sixteen audio lines gets the
    video lines added and leaves the array of sixteen media. *)
Definition many (kind : String.string) : pjmedia_sdp_session :=
  session 1 (replicate 16 (media kind 4000 ["0"%string] [])).
Arguments many kind%_string_scope.

Theorem modify_overflows_media :
  (match (pjmedia_sdp_neg_create_w_local_offer (many "video")).2 with
   | Some neg => run_neg neg [OpRemoteAnswer (many "video"); OpNegotiate false; OpModify 0 (many "audio")]
   | None => Some answering
   end) = None /\
  (match (pjmedia_sdp_neg_create_w_local_offer (many "video")).2 with
   | Some neg => neg_state <$> run_neg neg [OpRemoteAnswer (many "video"); OpNegotiate false]
   | None => None
   end) = Some STATE_DONE.
Proof. vm_compute. split; reflexivity. Qed.
