(* ===== verification/SdpAnswer.v ===== *)
(** * Local answers

    What [update_media_direction], [match_offer] and [create_answer] of
    [sdp_neg.c] compute: the direction of a media, the formats of an answer and
    the media lines of an answer. *)

From Stdlib Require Import ZArith Lia Bool String.
From stdpp Require Import base list numbers option sorting.
From S2P Require Import Prelude.
From S2P Require Import PjString.
From S2P Require Import Scanner.
From S2P Require Import Sdp.
From S2P Require Import SdpNeg.
From S2P Require Import SdpNegState.
Local Open Scope Z_scope.

(** ** What the operations on formats and attributes leave alone *)

(** The [m=] line less the formats, with the connection and bandwidth lines. *)
Definition m_line (m : pjmedia_sdp_media) :=
  (m_media m, m_port m, m_port_count m, m_transport m, m_conn m, m_bandw m).

Lemma remove_fmt_attrs_frame m fmt :
  m_line (remove_fmt_attrs m fmt) = m_line m /\ m_fmt (remove_fmt_attrs m fmt) = m_fmt m.
Proof. unfold remove_fmt_attrs, remove_named. repeat case_match; done. Qed.

Lemma remove_fmts_frame fmts : forall m,
  m_line (foldl remove_fmt_attrs m fmts) = m_line m /\
  m_fmt (foldl remove_fmt_attrs m fmts) = m_fmt m.
Proof.
  induction fmts as [|f fmts IH]; intros m; cbn; [done|].
  destruct (IH (remove_fmt_attrs m f)) as [-> ->]. apply remove_fmt_attrs_frame.
Qed.

Lemma add_attrs_frame tmp : forall m,
  m_line (foldl pjmedia_sdp_media_add_attr m tmp) = m_line m /\
  m_fmt (foldl pjmedia_sdp_media_add_attr m tmp) = m_fmt m.
Proof. induction tmp as [|a tmp IH]; intros m; cbn; [done|]. by destruct (IH (pjmedia_sdp_media_add_attr m a)) as [-> ->]. Qed.

Lemma set_aside_frame m tmp name pa po :
  m_line (set_aside m tmp name pa po).1 = m_line m /\
  m_fmt (set_aside m tmp name pa po).1 = m_fmt m.
Proof. unfold set_aside. case_match; done. Qed.

Lemma update_direction_frame remote local :
  m_line (update_media_direction remote local) = m_line local /\
  m_fmt (update_media_direction remote local) = m_fmt local.
Proof. unfold update_media_direction. repeat case_match; done. Qed.

(** The formats after the loop over the pairs: position by position the payload
    type of the offer. *)
Lemma symmetric_loop_spec pts : forall i m tmp,
  take i (m_fmt m) ++ pts.*2 = m_fmt m -> (i <= length (m_fmt m))%nat ->
  m_line (symmetric_loop pts i m tmp).1 = m_line m /\
  m_fmt (symmetric_loop pts i m tmp).1 = take i (m_fmt m) ++ pts.*1.
Proof.
  induction pts as [|[o a] pts IH]; intros i m tmp Hm Hi; cbn [symmetric_loop fmap list_fmap fst snd] in *.
  { by rewrite Hm, app_nil_r in *. }
  assert (Ha : m_fmt m !! i = Some a).
  { rewrite <- Hm, lookup_app_r, length_take, Nat.min_l, Nat.sub_diag by (rewrite ?length_take; lia). done. }
  assert (Hs : take (S i) (m_fmt m) = take i (m_fmt m) ++ [a]) by (by apply take_S_r).
  assert (Hl : (S i <= length (m_fmt m))%nat) by (apply lookup_lt_Some in Ha; lia).
  destruct (str_eq a o) eqn:E.
  - apply str_eq_true in E as <-.
    destruct (IH (S i) m tmp) as [-> ->]; [by rewrite Hs, <- app_assoc|done|].
    by rewrite Hs, <- app_assoc.
  - destruct (set_aside _ tmp _ a o) as [m1 tmp1] eqn:E1.
    destruct (set_aside m1 tmp1 _ a o) as [m2 tmp2] eqn:E2.
    pose proof (set_aside_frame (with_fmt m (<[i:=o]> (m_fmt m))) tmp "rtpmap" a o) as [L1 F1].
    pose proof (set_aside_frame m1 tmp1 "fmtp" a o) as [L2 F2].
    rewrite E1 in L1, F1. rewrite E2 in L2, F2. cbn [fst] in *.
    change (m_fmt (with_fmt m (<[i:=o]> (m_fmt m)))) with (<[i:=o]> (m_fmt m)) in F1.
    assert (Hf : m_fmt m2 = take i (m_fmt m) ++ o :: pts.*2).
    { rewrite F2, F1, <- Hm at 1. rewrite insert_app_r_alt by (rewrite length_take; lia).
      rewrite length_take, Nat.min_l, Nat.sub_diag by lia. done. }
    assert (Hk : take (S i) (m_fmt m2) = take i (m_fmt m) ++ [o]).
    { rewrite Hf, take_app_ge by (rewrite length_take; lia).
      rewrite length_take, Nat.min_l by lia. by replace (S i - i)%nat with 1%nat by lia. }
    destruct (IH (S i) m2 tmp2) as [-> ->].
    + rewrite Hk, <- app_assoc. by rewrite Hf.
    + rewrite Hf, length_app, length_take. cbn. lia.
    + rewrite Hk, <- app_assoc. split; [|done]. by rewrite L2, L1.
Qed.

Lemma symmetric_pt_spec m pts :
  m_fmt m = pts.*2 ->
  m_line (apply_answer_symmetric_pt m pts) = m_line m /\
  m_fmt (apply_answer_symmetric_pt m pts) = pts.*1.
Proof.
  intros Hm. unfold apply_answer_symmetric_pt.
  destruct (symmetric_loop_spec pts 0 m []) as [H1 H2]; [done|lia|].
  destruct (symmetric_loop pts 0 m []) as [m' tmp]. cbn in *.
  destruct (add_attrs_frame tmp m') as [-> ->]. done.
Qed.

(** ** The reordering of the formats *)

Lemma find_str_Some fmts fmt k : find_str fmts fmt = Some k -> fmts !! k = Some fmt.
Proof.
  revert k. induction fmts as [|f fmts IH]; intros k; cbn; [done|].
  destruct (str_eq fmt f) eqn:E; [intros [= <-]; by apply str_eq_true in E as ->|].
  destruct (find_str fmts fmt) as [j|]; cbn; [|done]. intros [= <-]. by apply IH.
Qed.

Lemma find_str_elem fmts fmt : fmt ∈ fmts -> is_Some (find_str fmts fmt).
Proof.
  induction 1 as [f fmts|f g fmts _ IH]; cbn; [rewrite str_eq_refl; eauto|].
  destruct (str_eq f g); [eauto|]. destruct IH as [k ->]. cbn. eauto.
Qed.

Lemma swap_take (l : list pj_str) (i j : nat) (a b : pj_str) :
  l !! i = Some a -> l !! j = Some b -> (i <= j)%nat ->
  take (S i) (<[i := b]> (<[j := a]> l)) = take i l ++ [b].
Proof.
  intros Hi Hj Hij. apply lookup_lt_Some in Hi as Hl. rewrite (take_S_r _ i b).
  - rewrite take_insert_ge, take_insert_ge by lia. done.
  - apply list_lookup_insert_eq. by rewrite length_insert.
Qed.

(** The formats asked for come first, in order; nothing is lost. *)
Lemma reorder_loop_spec pts : forall i fmt fmt',
  reorder_loop pts i fmt = Some fmt' -> (i <= length fmt)%nat ->
  fmt' ≡ₚ fmt /\ take (i + length pts) fmt' = take i fmt ++ pts.
Proof.
  induction pts as [|pt pts IH]; intros i fmt fmt'; cbn [reorder_loop length].
  { intros [= <-] _. by rewrite Nat.add_0_r, app_nil_r. }
  destruct (find_str (drop i fmt) pt) as [k|] eqn:Ef; [|done].
  apply find_str_Some in Ef. rewrite lookup_drop in Ef. rewrite Ef.
  destruct (fmt !! i) as [a|] eqn:Ea; [|done]. intros H Hi.
  destruct (IH _ _ _ H) as [Hp Ht].
  { rewrite !length_insert. apply lookup_lt_Some in Ea. lia. }
  split.
  - rewrite Hp. by apply Permutation_insert_swap.
  - rewrite <- Nat.add_succ_comm, Ht, (swap_take _ _ _ _ _ Ea Ef) by lia.
    by rewrite <- app_assoc.
Qed.

Section Answer.
Context (cbs : list fmt_match_cb_t) (cb_call : nat -> fmt_match_fn).
Context (uninit : pjmedia_sdp_rtpmap).

(** ** Matching

    A callback that may modify the answer changes the format parameters only:
    the [rtpmap] of every format stays the same. *)
Definition cb_keeps_rtpmap : Prop :=
  forall id offer i answer j option fmt,
    rtpmap_of uninit (with_attr answer (cb_call id offer i answer j option).2) fmt =
    rtpmap_of uninit answer fmt.

(** Preanswers that differ in format parameters only. *)
Definition pre_eq (p q : pjmedia_sdp_media) : Prop :=
  m_line p = m_line q /\ m_fmt p = m_fmt q /\
  forall fmt, rtpmap_of uninit p fmt = rtpmap_of uninit q fmt.

#[local] Instance pre_eq_preorder : PreOrder pre_eq.
Proof.
  split; [intros p; split_and!; done|].
  intros p q r (H1 & H2 & H3) (H4 & H5 & H6).
  split_and!; [congruence|congruence|]. intros f. by rewrite H3.
Qed.

Context (prefer : bool) (offer : pjmedia_sdp_media).

Lemma slave_pre_eq p q :
  pre_eq p q ->
  m_fmt (slave_of prefer offer p) = m_fmt (slave_of prefer offer q) /\
  forall fmt, rtpmap_of uninit (slave_of prefer offer p) fmt = rtpmap_of uninit (slave_of prefer offer q) fmt.
Proof. intros (_ & H2 & H3). by destruct prefer. Qed.

Lemma master_pre_eq p q fmt :
  pre_eq p q ->
  rtpmap_of uninit (master_of prefer offer p) fmt = rtpmap_of uninit (master_of prefer offer q) fmt.
Proof. intros (_ & H2 & H3). by destruct prefer. Qed.

(** A format [mf] of the master and one [sf] of the slave that go together: the
    same static payload type, matching [rtpmap]s, or the same word. *)
Inductive fmt_matches (pre : pjmedia_sdp_media) (mf sf : pj_str) : Prop :=
| match_by_number :
    pj_isdigit (first_char mf) = true -> fmt_pt mf < 96 ->
    pj_isdigit (first_char sf) = true -> fmt_pt sf = fmt_pt mf -> fmt_matches pre mf sf
| match_by_rtpmap or_ lr :
    pj_isdigit (first_char mf) = true -> 96 <= fmt_pt mf ->
    rtpmap_of uninit (master_of prefer offer pre) mf = Some or_ ->
    rtpmap_of uninit (slave_of prefer offer pre) sf = Some lr ->
    offer_rtpmap_matches or_ lr = true -> fmt_matches pre mf sf
| match_by_name :
    pj_isdigit (first_char mf) = false -> sf = mf -> fmt_matches pre mf sf.

Lemma fmt_matches_pre p q mf sf : pre_eq p q -> fmt_matches p mf sf -> fmt_matches q mf sf.
Proof.
  intros Hpq [? ? ? ?|or_ lr ? ? Hm Hs ?|? ?].
  - by apply match_by_number.
  - apply (match_by_rtpmap _ _ _ or_ lr); try done.
    + by rewrite <- (master_pre_eq p q).
    + by rewrite <- (proj2 (slave_pre_eq p q Hpq)).
  - by apply match_by_name.
Qed.

(** The payload types noted for a match. *)
Definition pair_of (m : pj_str * pj_str) : pj_str * pj_str :=
  if pj_isdigit (first_char m.1) && (fmt_pt m.1 <? 96) then (m.2, m.2)
  else pt_pair prefer m.1 m.2.

Context (Hcb : cb_keeps_rtpmap).

Lemma custom_match_pre name i pre j option :
  pre_eq (with_attr pre (custom_fmt_match cbs cb_call name offer i pre j option).2) pre.
Proof.
  unfold custom_fmt_match. destruct (find_cb cbs name) as [k|]; [|by destruct pre].
  destruct (cbs !! k) as [c|]; [|by destruct pre].
  destruct (cb_call (cb_id c) offer i pre j option) as [st attrs] eqn:E. cbn [snd].
  case_if; [|by destruct pre]. split_and!; [done|done|]. intros fmt.
  pose proof (Hcb (cb_id c) offer i pre j option fmt) as H. by rewrite E in H.
Qed.

Lemma find_dynamic_spec is_codec or_ i fmts : forall pre j found pre',
  find_dynamic cbs cb_call uninit prefer is_codec or_ offer i pre fmts j = (found, pre') ->
  pre_eq pre' pre /\
  forall f, found = Some f -> f ∈ fmts /\
    exists lr, rtpmap_of uninit (slave_of prefer offer pre) f = Some lr /\
      offer_rtpmap_matches or_ lr = true.
Proof.
  induction fmts as [|f fmts IH]; intros pre j found pre'; cbn [find_dynamic].
  { intros [= <- <-]. split; [done|]. intros f [=]. }
  assert (Hskip : forall p, pre_eq p pre ->
    find_dynamic cbs cb_call uninit prefer is_codec or_ offer i p fmts (S j) = (found, pre') ->
    pre_eq pre' pre /\ forall g, found = Some g -> g ∈ f :: fmts /\
      exists lr, rtpmap_of uninit (slave_of prefer offer pre) g = Some lr /\
        offer_rtpmap_matches or_ lr = true).
  { intros p Hp H. destruct (IH _ _ _ _ H) as [H1 H2]. split; [by etrans|].
    intros g Hg. destruct (H2 g Hg) as (Hin & lr & Hr & Hm). split; [by right|].
    exists lr. by rewrite <- (proj2 (slave_pre_eq p pre Hp)). }
  destruct (rtpmap_of uninit (slave_of prefer offer pre) f) as [lr|] eqn:Er; [|by apply Hskip].
  destruct (offer_rtpmap_matches or_ lr) eqn:Em; [|by apply Hskip].
  assert (Hhit : forall p, pre_eq p pre -> (Some f, p) = (found, pre') ->
    pre_eq pre' pre /\ forall g, found = Some g -> g ∈ f :: fmts /\
      exists lr, rtpmap_of uninit (slave_of prefer offer pre) g = Some lr /\
        offer_rtpmap_matches or_ lr = true).
  { intros p Hp [= <- <-]. split; [done|]. intros g [= <-]. split; [by left|]. by exists lr. }
  destruct is_codec; [|by apply Hhit].
  set (oi := if prefer then i else j). set (ai := if prefer then j else i).
  pose proof (custom_match_pre (rm_enc_name or_) oi pre ai ALLOW_MODIFY_ANSWER) as Hp.
  destruct (custom_fmt_match cbs cb_call (rm_enc_name or_) offer oi pre ai ALLOW_MODIFY_ANSWER)
    as [st attrs]. cbn [snd] in Hp.
  destruct (st =? PJ_SUCCESS); [by apply Hhit|by apply Hskip].
Qed.

(** One round of the matching loop notes at most one match. *)
Definition noted (st st' : match_state) (fmt : pj_str) : Prop :=
  pre_eq (ms_preanswer st') (ms_preanswer st) /\
  (pt_pairs st' = pt_pairs st \/
   exists sf, sf ∈ m_fmt (slave_of prefer offer (ms_preanswer st)) /\
     fmt_matches (ms_preanswer st) fmt sf /\ pt_pairs st' = pt_pairs st ++ [pair_of (fmt, sf)]).

Lemma find_static_spec fmts pt f :
  find_static fmts pt = Some f -> f ∈ fmts /\ fmt_pt f = pt /\ pj_isdigit (first_char f) = true.
Proof.
  induction fmts as [|g fmts IH]; cbn; [done|].
  destruct (_ && _) eqn:E; [|intros H; destruct (IH H) as (? & ? & ?); split_and!; [by right|done..]].
  intros [= <-]. bool_hyps. split_and!; [by left|done|done].
Qed.

Lemma match_static_noted multiple fmt st :
  pj_isdigit (first_char fmt) = true -> fmt_pt fmt < 96 ->
  noted st (match_static prefer multiple offer fmt st) fmt.
Proof.
  intros Hd Hp. unfold match_static. cbn [ms_preanswer with_codec].
  destruct (_ && _); [split; [done|by left]|].
  destruct (find_static _ (fmt_pt fmt)) as [f|] eqn:E; [|split; [done|by left]].
  apply find_static_spec in E as (Hin & Hpt & Hfd). split; [done|]. right. exists f.
  split_and!; [done|by apply match_by_number|]. unfold pair_of. cbn [fst snd].
  rewrite Hd, (proj2 (Z.ltb_lt _ _) Hp). done.
Qed.

Lemma match_dynamic_noted multiple i fmt st st' :
  pj_isdigit (first_char fmt) = true -> 96 <= fmt_pt fmt ->
  match_dynamic cbs cb_call uninit prefer multiple offer i fmt st = inr st' ->
  noted st st' fmt.
Proof.
  intros Hd Hp. unfold match_dynamic.
  destruct (rtpmap_of uninit (master_of prefer offer (ms_preanswer st)) fmt) as [or_|] eqn:Eo; [|done].
  set (is_codec := negb (str_ieq (rm_enc_name or_) (cstr "telephone-event"))).
  set (st1 := if is_codec then with_codec st else st).
  assert (ms_preanswer st1 = ms_preanswer st /\ pt_pairs st1 = pt_pairs st) as [E1 E2]
    by (subst st1; by destruct is_codec).
  clearbody st1 is_codec. destruct (if is_codec then _ else found_matching_telephone_event st1).
  { intros [= <-]. split; [by rewrite E1|by left]. }
  destruct (find_dynamic _ _ _ _ _ _ _ _ _ _ _) as [found pre'] eqn:Ef.
  apply find_dynamic_spec in Ef as [Hpre Hf]. rewrite E1 in *.
  destruct found as [f|]; intros [= <-].
  - destruct (Hf f eq_refl) as (Hin & lr & Hr & Hm).
    assert (Hpair : pair_of (fmt, f) = pt_pair prefer fmt f).
    { unfold pair_of. cbn [fst snd]. by rewrite (proj2 (Z.ltb_ge _ _) Hp), andb_false_r. }
    destruct is_codec; (split; [done|]; right; exists f; split_and!;
      [done|by apply (match_by_rtpmap _ _ _ or_ lr)|cbn; by rewrite E2, Hpair]).
  - split; [done|]. by left.
Qed.

Lemma match_other_noted fmt st :
  pj_isdigit (first_char fmt) = false -> noted st (match_other prefer offer fmt st) fmt.
Proof.
  intros Hd. unfold match_other. cbn [ms_preanswer with_other].
  destruct (found_matching_other _); [split; [done|by left]|].
  destruct (find_str _ fmt) as [j|] eqn:E; [|split; [done|by left]].
  apply find_str_Some in E. rewrite E. split; [done|]. right. exists fmt.
  split_and!; [by eapply list_elem_of_lookup_2|by apply match_by_name|].
  unfold pair_of. cbn. by rewrite Hd.
Qed.

(** The matches of the whole loop, in the order of the master. *)
Definition match_ok (pre : pjmedia_sdp_media) (m : pj_str * pj_str) : Prop :=
  m.2 ∈ m_fmt (slave_of prefer offer pre) /\ fmt_matches pre m.1 m.2.

Lemma match_loop_spec multiple fmts : forall i st st',
  match_loop cbs cb_call uninit prefer multiple offer fmts i st = inr st' ->
  pre_eq (ms_preanswer st') (ms_preanswer st) /\
  exists ms, ms.*1 `sublist_of` fmts /\ Forall (match_ok (ms_preanswer st)) ms /\
    pt_pairs st' = pt_pairs st ++ map pair_of ms.
Proof.
  induction fmts as [|fmt fmts IH]; intros i st st'; cbn [match_loop].
  { intros [= <-]. split; [done|]. exists []. split_and!; [done|constructor|]. by rewrite app_nil_r. }
  assert (Hstep : forall st1, noted st st1 fmt ->
    match_loop cbs cb_call uninit prefer multiple offer fmts (S i) st1 = inr st' ->
    pre_eq (ms_preanswer st') (ms_preanswer st) /\
    exists ms, ms.*1 `sublist_of` fmt :: fmts /\ Forall (match_ok (ms_preanswer st)) ms /\
      pt_pairs st' = pt_pairs st ++ map pair_of ms).
  { intros st1 [Hpre Hn] H. destruct (IH _ _ _ H) as [Hp (ms & Hs & Hok & Hpt)].
    split; [by etrans|].
    assert (Hok' : Forall (match_ok (ms_preanswer st)) ms).
    { eapply list.Forall_impl; [exact Hok|]. intros m [H1 H2]. split.
      - by rewrite <- (proj1 (slave_pre_eq _ _ Hpre)).
      - by eapply fmt_matches_pre. }
    destruct Hn as [Hn|(sf & Hin & Hm & Hn)].
    - exists ms. split_and!; [by apply sublist_cons|done|]. by rewrite Hpt, Hn.
    - exists ((fmt, sf) :: ms). split_and!; [by apply sublist_skip|by constructor|].
      rewrite Hpt, Hn, <- app_assoc. done. }
  destruct (pj_isdigit (first_char fmt)) eqn:Ed.
  - destruct (Z.ltb_spec (fmt_pt fmt) 96).
    + apply Hstep. by apply match_static_noted.
    + destruct (match_dynamic _ _ _ _ _ _ _ _ _) as [?|st1] eqn:Em; [done|].
      apply Hstep. by eapply match_dynamic_noted.
  - apply Hstep. by apply match_other_noted.
Qed.

Lemma match_loop_error multiple fmts : forall i st status p,
  match_loop cbs cb_call uninit prefer multiple offer fmts i st = inl (status, p) ->
  pre_eq p (ms_preanswer st) /\ (status = PJ_SUCCESS <-> is_Some (@None pjmedia_sdp_media)).
Proof.
  induction fmts as [|fmt fmts IH]; intros i st status p; cbn [match_loop]; [intros [=]|].
  assert (Hstep : forall st1, noted st st1 fmt ->
    match_loop cbs cb_call uninit prefer multiple offer fmts (S i) st1 = inl (status, p) ->
    pre_eq p (ms_preanswer st) /\ (status = PJ_SUCCESS <-> is_Some (@None pjmedia_sdp_media))).
  { intros st1 [Hpre _] H. destruct (IH _ _ _ _ H) as [Hp Hs]. split; [by etrans|done]. }
  destruct (pj_isdigit (first_char fmt)) eqn:Ed.
  - destruct (Z.ltb_spec (fmt_pt fmt) 96).
    + apply Hstep. by apply match_static_noted.
    + destruct (match_dynamic _ _ _ _ _ _ _ _ _) as [e|st1] eqn:Em.
      * intros [= ->]. revert Em. unfold match_dynamic.
        destruct (rtpmap_of _ _ _); [cbv zeta; destruct (if negb _ then _ else _); [done|];
          by destruct (find_dynamic _ _ _ _ _ _ _ _ _ _ _)|].
        intros [= <- <-]. split; [done|]. split; [by intros [=]|by intros [? ?]].
      * apply Hstep. by eapply match_dynamic_noted.
  - apply Hstep. by apply match_other_noted.
Qed.

Lemma match_offer_success multiple pre sdp pre' am :
  m_port offer <> 0 -> m_port pre <> 0 ->
  match_offer cbs cb_call uninit prefer multiple offer pre sdp = Some (PJ_SUCCESS, pre', Some am) ->
  pre_eq pre' pre /\ m_line am = m_line pre /\
  exists ms, ms.*1 `sublist_of` m_fmt (master_of prefer offer pre) /\ Forall (match_ok pre) ms /\
    m_fmt am = (map pair_of ms).*1.
Proof.
  intros Ho Hp. unfold match_offer.
  rewrite (proj2 (Z.eqb_neq _ _) Ho), (proj2 (Z.eqb_neq _ _) Hp). cbv zeta.
  destruct (match_loop _ _ _ _ _ _ _ _ _) as [[? ?]|st] eqn:El; [intros [= _ _]|].
  apply match_loop_spec in El as [Hpre (ms & Hs & Hok & Hpt)]. cbn [ms_preanswer pt_pairs] in *.
  destruct (_ && _); [intros [= ? _]|]. destruct (_ && _); [intros [= ? _]|].
  destruct (reorder_loop _ 0 _) as [fmt|] eqn:Er; [|done]. intros [= <- <-].
  apply reorder_loop_spec in Er as [_ Ht]; [|lia]. cbn [plus] in Ht.
  rewrite take_0, length_fmap in Ht. cbn [app] in Ht.
  split; [done|].
  set (m1 := foldl _ _ _).
  assert (m_line m1 = m_line pre) as Hl1.
  { subst m1. destruct (remove_fmts_frame (drop (length (pt_pairs st)) fmt)
      (with_fmt (ms_preanswer st) fmt)) as [-> _]. apply Hpre. }
  set (m2 := with_fmt m1 _).
  destruct (symmetric_pt_spec m2 (pt_pairs st)) as [Hl2 Hf2]; [exact Ht|].
  destruct (update_direction_frame offer (apply_answer_symmetric_pt m2 (pt_pairs st))) as [Hl3 Hf3].
  rewrite Hl3, Hl2, Hf3, Hf2. split; [exact Hl1|]. exists ms. rewrite Hpt. done.
Qed.

Lemma match_offer_pre multiple pre sdp status pre' am :
  match_offer cbs cb_call uninit prefer multiple offer pre sdp = Some (status, pre', am) ->
  pre_eq pre' pre /\ (status = PJ_SUCCESS <-> is_Some am).
Proof.
  unfold match_offer. destruct (m_port offer =? 0).
  { intros [= <- <- <-]. split; [done|]. split; eauto. }
  destruct (m_port pre =? 0).
  { intros [= <- <- <-]. split; [done|]. split; eauto. }
  cbv zeta. destruct (match_loop _ _ _ _ _ _ _ _ _) as [[st p]|st] eqn:El.
  { intros [= <- <- <-]. by apply match_loop_error in El as [Hp Hst]. }
  apply match_loop_spec in El as [Hpre _]. cbn [ms_preanswer] in Hpre.
  destruct (_ && _); [intros [= <- <- <-]; split; [done|]; split; [done|by intros [? ?]]|].
  destruct (_ && _); [intros [= <- <- <-]; split; [done|]; split; [done|by intros [? ?]]|].
  destruct (reorder_loop _ 0 _); [|done]. intros [= <- <- <-]. split; [done|]. split; eauto.
Qed.

(** The media line of an answer. *)
Lemma match_offer_line multiple pre sdp pre' am :
  m_media offer = m_media pre -> m_transport offer = m_transport pre ->
  match_offer cbs cb_call uninit prefer multiple offer pre sdp = Some (PJ_SUCCESS, pre', Some am) ->
  m_media am = m_media offer /\ m_transport am = m_transport offer /\
  (m_port offer = 0 -> m_port am = 0) /\ (m_port am <> 0 -> m_line am = m_line pre).
Proof.
  intros Hm Ht H. destruct (Z.eq_dec (m_port offer) 0) as [Ho|Ho].
  { unfold match_offer in H. rewrite Ho in H. cbn in H. injection H as <- <-.
    unfold sdp_media_clone_deactivate.
    repeat case_match; cbn; split_and!; done. }
  destruct (Z.eq_dec (m_port pre) 0) as [Hp|Hp].
  { unfold match_offer in H. rewrite (proj2 (Z.eqb_neq _ _) Ho), Hp in H. cbn in H.
    injection H as <- <-. done. }
  apply match_offer_success in H as (_ & Hl & _); [|done..].
  unfold m_line in Hl. injection Hl as H1 H2 H3 H4 H5 H6. split_and!; [congruence..|done|].
  intros _. unfold m_line. congruence.
Qed.

End Answer.

(** ** The media of an answer *)

(** An answered media: the type and transport of the offered one, and disabled
    when the offered one is. *)
Definition line_answers (om am : pjmedia_sdp_media) : Prop :=
  m_media am = m_media om /\ m_transport am = m_transport om /\ (m_port om = 0 -> m_port am = 0).

Lemma clone_deactivate_line om lm sess :
  line_answers om (sdp_media_clone_deactivate om lm sess) /\
  m_port (sdp_media_clone_deactivate om lm sess) = 0.
Proof. unfold sdp_media_clone_deactivate, line_answers. repeat case_match; done. Qed.

Section Lines.
Context (cbs : list fmt_match_cb_t) (cb_call : nat -> fmt_match_fn).
Context (uninit : pjmedia_sdp_rtpmap) (Hcb : cb_keeps_rtpmap cb_call uninit).
Context (prefer multiple : bool) (initial : pjmedia_sdp_session).

#[local] Existing Instance pre_eq_preorder.

(** Local media that differ in format parameters only, with the same flags. *)
Definition same_use (x y : bool * pjmedia_sdp_media) : Prop := x.1 = y.1 /\ pre_eq uninit x.2 y.2.

#[local] Instance same_use_preorder : PreOrder same_use.
Proof.
  split; [intros x; by split|]. intros x y z [H1 H2] [H3 H4]. split; [congruence|by etrans].
Qed.

(** The outcome of the search among the local media [l] for an answer to [om]:
    at most one media is marked, one that was free and has the line of the
    answer. *)
Definition tried (om : pjmedia_sdp_media) (l local : list (bool * pjmedia_sdp_media))
    (am : option pjmedia_sdp_media) : Prop :=
  match am with
  | None => Forall2 same_use local l
  | Some a => exists j im im', l !! j = Some (false, im) /\ pre_eq uninit im' im /\
      Forall2 same_use local (<[j := (true, im')]> l) /\ line_answers om a /\
      (m_port a <> 0 -> m_line a = m_line im)
  end.

Lemma tried_same om l1 l2 local am :
  Forall2 same_use l1 l2 -> tried om l1 local am -> tried om l2 local am.
Proof.
  intros Hl. destruct am as [a|]; cbn; [|intros H; by etrans].
  intros (j & im & im' & Hj & Him & Hloc & Hline & Hport).
  destruct (Forall2_lookup_l _ _ _ _ _ Hl Hj) as ([u im2] & Hj2 & [Hu Hp]).
  cbn in Hu, Hp. subst u. exists j, im2, im'. split_and!; try done.
  - by etrans.
  - etrans; [exact Hloc|]. apply Forall2_insert; [done|]. by split.
  - intros Hne. rewrite Hport by done. apply Hp.
Qed.

Lemma try_medias_spec om todo : forall before status status' local am,
  try_medias cbs cb_call uninit prefer multiple initial om before todo status =
    Some (status', local, am) ->
  tried om (before ++ todo) local am.
Proof.
  induction todo as [|[used im] todo IH]; intros before status status' local am; cbn [try_medias].
  { intros [= _ <- <-]. rewrite app_nil_r. cbn. reflexivity. }
  assert (Hskip : forall im' st, pre_eq uninit im' im ->
    try_medias cbs cb_call uninit prefer multiple initial om (before ++ [(used, im')]) todo st =
      Some (status', local, am) -> tried om (before ++ (used, im) :: todo) local am).
  { intros im' st Him H. apply IH in H. rewrite <- app_assoc in H. eapply tried_same; [|exact H].
    apply Forall2_app; [reflexivity|]. constructor; [by split|reflexivity]. }
  destruct (_ && _) eqn:E; [|by apply Hskip]. bool_hyps. rewrite !str_eq_true in *. subst used.
  destruct (match_offer _ _ _ _ _ _ _ _) as [[[st im'] a]|] eqn:Em; [|done].
  destruct (match_offer_pre _ _ _ _ _ Hcb _ _ _ _ _ _ Em) as [Hpre Hst].
  destruct (Z.eqb_spec st PJ_SUCCESS) as [->|Hn]; [|by apply Hskip].
  destruct (proj1 Hst eq_refl) as [a' ->]. intros [= _ <- <-].
  apply (match_offer_line _ _ _ _ _ Hcb) in Em as (Hm & Ht & Hp0 & Hl); [|done..].
  exists (length before), im, im'. split_and!; [by rewrite list_lookup_middle|done| |done|done].
  rewrite insert_app_r_alt, Nat.sub_diag by done. reflexivity.
Qed.

(** The media of the answer and, for each, the position of the local media it
    comes from. *)
Definition assigned (local : list pjmedia_sdp_media) (am : pjmedia_sdp_media) (j : option nat) : Prop :=
  m_port am <> 0 -> exists i im, j = Some i /\ local !! i = Some im /\ m_line am = m_line im.

Lemma answer_medias_spec offer : forall local status status' ams L0,
  answer_medias cbs cb_call uninit prefer multiple initial offer local status = Some (status', ams) ->
  Forall2 (pre_eq uninit) local.*2 L0 ->
  Forall2 line_answers offer ams /\
  exists js, Forall2 (assigned L0) ams js /\ NoDup (omap id js) /\
    forall j, Some j ∈ js -> local.*1 !! j = Some false.
Proof.
  induction offer as [|om offer IH]; intros local status status' ams L0; cbn [answer_medias].
  { intros [= _ <-] _. split; [constructor|]. exists [].
    split_and!; [constructor|constructor|]. intros j H. by apply not_elem_of_nil in H. }
  destruct (try_medias _ _ _ _ _ _ _ _ _ _) as [[[st local'] am]|] eqn:Et; [|done].
  apply try_medias_spec in Et. cbn [app] in Et.
  destruct (answer_medias _ _ _ _ _ _ _ _ _) as [[st2 ams']|] eqn:Ea; [|done].
  intros [= _ <-] HL. destruct am as [a|]; cbn in Et.
  - destruct Et as (j & im & im' & Hj & Him & Hloc & Hline & Hport).
    assert (H1 : local'.*1 = <[j := true]> local.*1).
    { trans (<[j := (true, im')]> local).*1; [|by rewrite list_fmap_insert].
      clear -Hloc. induction Hloc as [|x y l k [Hx _] _ IH']; [done|]. cbn. by rewrite Hx, IH'. }
    assert (H2 : Forall2 (pre_eq uninit) local'.*2 L0).
    { etrans; [|exact HL].
      assert (Hi : Forall2 (pre_eq uninit) (<[j := (true, im')]> local).*2 local.*2).
      { rewrite (list_fmap_insert snd). cbn.
        rewrite <- (list_insert_id local.*2 j im) at 2; [|by rewrite list_lookup_fmap, Hj].
        apply Forall2_insert; [reflexivity|done]. }
      etrans; [|exact Hi]. clear -Hloc. induction Hloc as [|x y l k [_ Hx] _ IH']; [constructor|].
      cbn. by constructor. }
    destruct (IH _ _ _ _ _ Ea H2) as (Hl & js & Has & Hnd & Hfree).
    split; [by constructor|]. exists (Some j :: js). split_and!.
    + constructor; [|done]. intros Hne. apply Hport in Hne as Hm.
      assert (Hs : local.*2 !! j = Some im) by (by rewrite list_lookup_fmap, Hj).
      destruct (Forall2_lookup_l _ _ _ _ _ HL Hs) as (m0 & Hm0 & (Hl0 & _)).
      exists j, m0. split_and!; [done|done|congruence].
    + cbn. apply NoDup_cons. split; [|done]. intros Hin.
      apply list_elem_of_omap in Hin as (x & Hx & Hxe). cbn in Hxe. subst x.
      apply Hfree in Hx. rewrite H1, list_lookup_insert_eq in Hx; [done|].
      rewrite length_fmap. by eapply lookup_lt_Some.
    + intros k [[= ->]|Hk]%elem_of_cons; [by rewrite list_lookup_fmap, Hj|].
      apply Hfree in Hk. rewrite H1 in Hk. apply list_lookup_insert_Some in Hk as [(_ & [=] & _)|[_ Hk]]. done.
  - assert (H1 : local'.*1 = local.*1).
    { clear -Et. induction Et as [|x y l k [Hx _] _ IH']; [done|]. cbn. by rewrite Hx, IH'. }
    assert (H2 : Forall2 (pre_eq uninit) local'.*2 L0).
    { etrans; [|exact HL]. clear -Et. induction Et as [|x y l k [_ Hx] _ IH']; [constructor|].
      cbn. by constructor. }
    destruct (IH _ _ _ _ _ Ea H2) as (Hl & js & Has & Hnd & Hfree).
    destruct (clone_deactivate_line om om initial) as [Hline Hport].
    split; [by constructor|]. exists (None :: js). split_and!; [|done|].
    + constructor; [|done]. intros Hne. by contradict Hne.
    + intros k [[=]|Hk]%elem_of_cons. apply Hfree in Hk. by rewrite H1 in Hk.
Qed.

Lemma unused_refl l : Forall2 (pre_eq uninit) (map (pair false) l).*2 l.
Proof. induction l as [|m l IH]; [reflexivity|]. cbn. by constructor. Qed.

End Lines.

(** C8. The local answer to a valid offer has one media line per offered line,
    in the same order, of the same type and transport, disabled where the
    offered one is disabled; an enabled line is one of the local description's,
    no local line answers two offered ones, and the rest of the answer is the
    local description. *)
Theorem answer_lines_match cbs cb_call uninit prefer multiple initial offer status answer :
  cb_keeps_rtpmap cb_call uninit ->
  create_answer cbs cb_call uninit prefer multiple initial offer = Some (status, Some answer) ->
  Forall2 line_answers (s_media offer) (s_media answer) /\
  (exists js, Forall2 (assigned (s_media initial)) (s_media answer) js /\ NoDup (omap id js)) /\
  answer = with_media initial (s_media answer).
Proof.
  intros Hcb. unfold create_answer. destruct (negb _); [intros [=]|].
  destruct (answer_medias _ _ _ _ _ _ _ _ _) as [[st ams]|] eqn:Ea; [|done].
  intros [= _ <-]. apply (answer_medias_spec _ _ _ Hcb) with (L0 := s_media initial) in Ea.
  - destruct Ea as (Hl & js & Has & Hnd & _). split_and!; [done|by exists js|by destruct initial].
  - apply unused_refl.
Qed.

(** C7. An answer to an enabled media with an enabled local media lists, in the
    order of the preferred side, formats that both sides have: each is the
    payload type of the offer for a match by static payload type, by [rtpmap]
    or by name.  Apart from formats and attributes the media is the local one. *)
Theorem answer_formats_match cbs cb_call uninit prefer multiple offer pre sdp pre' am :
  cb_keeps_rtpmap cb_call uninit -> m_port offer <> 0 -> m_port pre <> 0 ->
  match_offer cbs cb_call uninit prefer multiple offer pre sdp = Some (PJ_SUCCESS, pre', Some am) ->
  m_line am = m_line pre /\
  Forall (fun f => exists g, g ∈ m_fmt offer /\ fmt_pt g = fmt_pt f) (m_fmt am) /\
  exists ms, ms.*1 `sublist_of` m_fmt (master_of prefer offer pre) /\
    Forall (match_ok uninit prefer offer pre) ms /\ m_fmt am = (map (pair_of prefer) ms).*1.
Proof.
  intros Hcb Ho Hp H.
  destruct (match_offer_success _ _ _ _ _ Hcb _ _ _ _ _ Ho Hp H) as (_ & Hl & ms & Hs & Hok & Hf).
  split_and!; [done| |by exists ms]. rewrite Hf.
  apply Forall_forall. intros f Hin. apply list_elem_of_fmap in Hin as (pr & -> & Hin).
  apply list_elem_of_fmap in Hin as ([mf sf] & -> & Hin).
  rewrite list.Forall_forall in Hok. destruct (Hok _ Hin) as [Hsf Hm]. cbn [fst snd] in *.
  assert (Hmf : mf ∈ m_fmt (master_of prefer offer pre)).
  { eapply elem_of_submseteq; [|by apply sublist_submseteq].
    apply list_elem_of_fmap. by exists (mf, sf). }
  unfold pair_of. cbn [fst snd]. destruct (_ && _) eqn:E.
  - bool_hyps. destruct Hm as [? ? ? Hpt|? ? ? ? ? ? ?|? ?]; [|lia|congruence].
    cbn [fst]. destruct prefer; [by exists mf|by exists sf].
  - destruct prefer; [by exists mf|by exists sf].
Qed.

(** ** Directions *)

Definition can_send (d : pjmedia_dir) : bool :=
  match d with DIR_ENCODING | DIR_ENCODING_DECODING => true | _ => false end.
Definition can_recv (d : pjmedia_dir) : bool :=
  match d with DIR_DECODING | DIR_ENCODING_DECODING => true | _ => false end.

(** The direction the remote side announces. *)
Definition remote_dir (m : pjmedia_sdp_media) : pjmedia_dir :=
  if has_attr m "inactive" then DIR_NONE
  else if has_attr m "sendonly" then DIR_ENCODING
  else if has_attr m "recvonly" then DIR_DECODING
  else DIR_ENCODING_DECODING.

Definition is_direction (a : pjmedia_sdp_attr) : bool :=
  str_eq (attr_name a) (cstr "inactive") || str_eq (attr_name a) (cstr "sendrecv") ||
  str_eq (attr_name a) (cstr "sendonly") || str_eq (attr_name a) (cstr "recvonly").

Lemma has_attr_spec m name :
  has_attr m name = true <-> exists a, a ∈ m_attr m /\ attr_name a = cstr name.
Proof.
  unfold has_attr, pjmedia_sdp_media_find_attr2.
  destruct (pjmedia_sdp_attr_find (m_attr m) (cstr name) None) as [i|] eqn:E.
  - apply attr_find_Some in E as (a & Ha & Hm & _). split; [intros _|done].
    exists a. split; [by eapply list_elem_of_lookup_2|].
    unfold attr_matches in Hm. bool_hyps. by apply str_eq_true.
  - split; [done|]. intros (a & Ha & Hn). exfalso.
    pose proof (proj1 (attr_find_None _ _ _) E a Ha) as Hm. unfold attr_matches in Hm.
    rewrite andb_true_r in Hm. by apply str_eq_false in Hm.
Qed.

Lemma remove_directions_spec m :
  m_attr (remove_all_media_directions m) = filter (fun a => is_direction a = false) (m_attr m).
Proof.
  unfold remove_all_media_directions, pjmedia_sdp_media_remove_all_attr. cbn [m_attr with_attr].
  rewrite !attr_remove_all_spec, !list_filter_filter. apply list_filter_iff. intros a.
  unfold is_direction. rewrite !orb_false_iff, !str_eq_false. tauto.
Qed.

(** A media that lost its direction attributes has those added later. *)
Lemma has_attr_after m extra name :
  is_direction (mk_attr (cstr name) []) = true ->
  has_attr (with_attr (remove_all_media_directions m)
    (m_attr (remove_all_media_directions m) ++ extra)) name =
  existsb (fun a => str_eq (attr_name a) (cstr name)) extra.
Proof.
  intros Hd. apply eq_true_iff_eq. rewrite has_attr_spec, existsb_exists.
  cbn [m_attr with_attr]. rewrite remove_directions_spec. split.
  - intros (a & Ha & Hn). apply elem_of_app in Ha as [Ha|Ha].
    + apply list_elem_of_filter in Ha as [Ha _].
      assert (is_direction a = is_direction (mk_attr (cstr name) [])) as Hi.
      { unfold is_direction. cbn [attr_name]. by rewrite Hn. }
      congruence.
    + exists a. split; [by apply list_elem_of_In|by apply str_eq_true].
  - intros (a & Ha & Hn). exists a. split; [apply elem_of_app; right; by apply list_elem_of_In|].
    by apply str_eq_true.
Qed.

Lemma local_dir_after m extra :
  local_dir (with_attr (remove_all_media_directions m)
    (m_attr (remove_all_media_directions m) ++ extra)) =
  if existsb (fun a => str_eq (attr_name a) (cstr "sendonly")) extra then DIR_ENCODING
  else if existsb (fun a => str_eq (attr_name a) (cstr "recvonly")) extra then DIR_DECODING
  else if existsb (fun a => str_eq (attr_name a) (cstr "inactive")) extra then DIR_NONE
  else DIR_ENCODING_DECODING.
Proof. unfold local_dir. rewrite !has_attr_after by (vm_compute; reflexivity). done. Qed.

(** Adding an attribute to a media with room. *)
Lemma add_attr_room m a :
  (length (m_attr m) < PJMEDIA_MAX_SDP_ATTR)%nat ->
  pjmedia_sdp_media_add_attr m a = with_attr m (m_attr m ++ [a]).
Proof.
  intros H. unfold pjmedia_sdp_media_add_attr, pjmedia_sdp_attr_add.
  by rewrite (proj2 (Nat.ltb_lt _ _) H).
Qed.

Lemma remove_directions_length m :
  (length (m_attr (remove_all_media_directions m)) <= length (m_attr m))%nat.
Proof. rewrite remove_directions_spec. apply length_filter. Qed.

Lemma adjust_dir_spec remote d :
  can_send (adjust_dir remote d) = can_send d && can_recv (remote_dir remote) /\
  can_recv (adjust_dir remote d) = can_recv d && can_send (remote_dir remote).
Proof.
  unfold adjust_dir, remote_dir.
  destruct (has_attr remote "inactive"), (has_attr remote "sendonly"), (has_attr remote "recvonly");
    destruct d; done.
Qed.

Lemma update_direction_spec remote local :
  (length (m_attr local) < PJMEDIA_MAX_SDP_ATTR)%nat ->
  local_dir (update_media_direction remote local) = adjust_dir remote (local_dir local) /\
  filter (fun a => is_direction a = false) (m_attr (update_media_direction remote local)) =
    filter (fun a => is_direction a = false) (m_attr local).
Proof.
  intros Hl. unfold update_media_direction. cbv zeta.
  destruct (decide (adjust_dir remote (local_dir local) = local_dir local)) as [E|E]; [by rewrite E|].
  pose proof (remove_directions_length local) as Hr.
  assert (Hadd : forall name d, is_direction (pjmedia_sdp_attr_create name None) = true ->
    local_dir (with_attr (remove_all_media_directions local)
      (m_attr (remove_all_media_directions local) ++ [pjmedia_sdp_attr_create name None])) = d ->
    local_dir (pjmedia_sdp_media_add_attr (remove_all_media_directions local)
      (pjmedia_sdp_attr_create name None)) = d /\
    filter (fun a => is_direction a = false)
      (m_attr (pjmedia_sdp_media_add_attr (remove_all_media_directions local)
        (pjmedia_sdp_attr_create name None))) =
    filter (fun a => is_direction a = false) (m_attr local)).
  { intros name d Hd Hdir. rewrite add_attr_room by lia. split; [done|].
    cbn [m_attr with_attr]. rewrite remove_directions_spec, list.filter_app, list_filter_filter_l.
    - rewrite list.filter_cons, decide_False by (rewrite Hd; done). by rewrite app_nil_r.
    - done. }
  destruct (adjust_dir remote (local_dir local)) eqn:Ea.
  - apply Hadd; [vm_compute; reflexivity|]. rewrite local_dir_after. vm_compute. reflexivity.
  - apply Hadd; [vm_compute; reflexivity|]. rewrite local_dir_after. vm_compute. reflexivity.
  - apply Hadd; [vm_compute; reflexivity|]. rewrite local_dir_after. vm_compute. reflexivity.
  - split.
    + pose proof (local_dir_after local []) as H. rewrite app_nil_r in H. exact H.
    + rewrite remove_directions_spec. by apply list_filter_filter_l.
Qed.

(** After the directions are negotiated the local media sends only what it
    did before and the remote side receives, and receives only what it did
    before and the remote side sends; attributes that are no direction stay. *)
Theorem directions_negotiated remote local :
  (length (m_attr local) < PJMEDIA_MAX_SDP_ATTR)%nat ->
  let local' := update_media_direction remote local in
  can_send (local_dir local') = can_send (local_dir local) && can_recv (remote_dir remote) /\
  can_recv (local_dir local') = can_recv (local_dir local) && can_send (remote_dir remote) /\
  filter (fun a => is_direction a = false) (m_attr local') =
    filter (fun a => is_direction a = false) (m_attr local).
Proof.
  intros Hl local'. destruct (update_direction_spec remote local Hl) as [Hd Hf].
  subst local'. rewrite Hd. destruct (adjust_dir_spec remote (local_dir local)) as [H1 H2]. done.
Qed.

(** ** Witnesses *)

Import Sample.

Lemma no_call_keeps_rtpmap : cb_keeps_rtpmap no_call no_rtpmap.
Proof. intros id offer i answer j option fmt. by destruct answer. Qed.

(** The sample answer has one line, that of the local audio. *)
Lemma answer_lines_match_witness :
  exists answer, create_answer [] no_call no_rtpmap true false local_audio remote_audio =
    Some (PJ_SUCCESS, Some answer) /\
  Forall2 line_answers (s_media remote_audio) (s_media answer).
Proof.
  eexists. split; [vm_compute; reflexivity|].
  refine (proj1 (answer_lines_match [] no_call no_rtpmap true false local_audio remote_audio
    PJ_SUCCESS _ no_call_keeps_rtpmap _)).
  vm_compute. reflexivity.
Defined.

Definition local_line : pjmedia_sdp_media := default (media "" 0 [] []) (head (s_media local_audio)).
Definition remote_line : pjmedia_sdp_media := default (media "" 0 [] []) (head (s_media remote_audio)).

Lemma answer_formats_match_witness :
  exists pre' am, match_offer [] no_call no_rtpmap true false remote_line local_line local_audio =
    Some (PJ_SUCCESS, pre', Some am) /\
  m_fmt am = [cstr "97"; cstr "96"] /\ m_line am = m_line local_line.
Proof.
  eexists _, _. split; [vm_compute; reflexivity|]. split; [vm_compute; reflexivity|].
  refine (proj1 (answer_formats_match [] no_call no_rtpmap true false remote_line local_line
    local_audio _ _ no_call_keeps_rtpmap _ _ _)).
  - vm_compute. discriminate.
  - vm_compute. discriminate.
  - vm_compute. reflexivity.
Defined.

Lemma directions_negotiated_witness :
  can_send (local_dir (update_media_direction remote_line local_line)) = false.
Proof.
  rewrite (proj1 (directions_negotiated remote_line local_line ltac:(vm_compute; lia))).
  vm_compute. reflexivity.
Defined.
