(* ===== verification/SdpOffer.v ===== *)
(** * Local offers

    What [process_m_answer] of [sdp_neg.c] makes of an offered media and the
    remote answer to it, and how [pjmedia_sdp_neg_modify_local_offer] lays out
    the media of a new offer. *)

From Stdlib Require Import ZArith Lia Bool String.
From stdpp Require Import base list numbers option sorting.
From S2P Require Import Prelude.
From S2P Require Import PjString.
From S2P Require Import Scanner.
From S2P Require Import Sdp.
From S2P Require Import SdpNeg.
From S2P Require Import SdpNegState.
From S2P Require Import SdpAnswer.
Local Open Scope Z_scope.

(** ** The attribute found for a format *)

Lemma head_filter_delete {A} (P : A -> Prop) `{!forall x, Decision (P x)} (l : list A) i a :
  l !! i = Some a -> ~ P a -> filter P (delete i l) = filter P l.
Proof.
  intros Hi Ha. rewrite <- (take_drop_middle l i a Hi) at 2. rewrite delete_take_drop.
  rewrite !list.filter_app, list.filter_cons, decide_False by done. done.
Qed.

Lemma attr_find_head attrs name c_fmt :
  (fun i => default (mk_attr [] []) (attrs !! i)) <$> pjmedia_sdp_attr_find attrs name c_fmt =
  head (filter (fun a => attr_matches name c_fmt a = true) attrs).
Proof.
  induction attrs as [|a attrs IH]; [done|]. cbn [pjmedia_sdp_attr_find].
  rewrite list.filter_cons. destruct (attr_matches name c_fmt a) eqn:E.
  - by rewrite decide_True.
  - rewrite decide_False by done. rewrite <- IH.
    by destruct (pjmedia_sdp_attr_find attrs name c_fmt).
Qed.

Lemma rtpmap_of_head uninit m fmt :
  rtpmap_of uninit m fmt =
  (fun a => (pjmedia_sdp_attr_get_rtpmap a uninit).2) <$>
    head (filter (fun a => attr_matches (cstr "rtpmap") (Some fmt) a = true) (m_attr m)).
Proof.
  rewrite <- attr_find_head. unfold rtpmap_of, pjmedia_sdp_media_find_attr2, attr_at.
  by destruct (pjmedia_sdp_attr_find _ _ _).
Qed.

(** Removing what belongs to one format keeps the [rtpmap] of another. *)
Lemma remove_named_rtpmap uninit m name fmt g :
  (name = "rtpmap"%string \/ name = "fmtp"%string) -> fmt_pt g <> fmt_pt fmt ->
  rtpmap_of uninit (remove_named m name fmt) g = rtpmap_of uninit m g.
Proof.
  intros Hn Hg. unfold remove_named.
  destruct (pjmedia_sdp_media_find_attr2 m name (Some fmt)) as [i|] eqn:E; [|done].
  unfold pjmedia_sdp_media_find_attr2 in E. apply attr_find_Some in E as (a & Ha & Hm & _).
  rewrite !rtpmap_of_head. unfold pjmedia_sdp_media_remove_attr, pjmedia_sdp_attr_remove.
  rewrite (proj2 (Nat.ltb_lt _ _)) by (by eapply lookup_lt_Some). cbn [m_attr with_attr snd].
  do 2 f_equal. apply (head_filter_delete _ _ _ a Ha). intros Hg'.
  unfold attr_matches in Hm, Hg'. bool_hyps. lia.
Qed.

Lemma remove_fmt_attrs_rtpmap uninit m fmt g :
  fmt_pt g <> fmt_pt fmt -> rtpmap_of uninit (remove_fmt_attrs m fmt) g = rtpmap_of uninit m g.
Proof.
  intros Hg. unfold remove_fmt_attrs. rewrite !remove_named_rtpmap; [done| |done| |done]; tauto.
Qed.

Lemma matches_rtpmap_not_direction fmt a :
  attr_matches (cstr "rtpmap") (Some fmt) a = true -> is_direction a = false.
Proof.
  unfold attr_matches. intros H. bool_hyps. rewrite str_eq_true in H.
  unfold is_direction. rewrite H. vm_compute. reflexivity.
Qed.

Lemma update_direction_rtpmap uninit remote local fmt :
  (length (m_attr local) < PJMEDIA_MAX_SDP_ATTR)%nat ->
  rtpmap_of uninit (update_media_direction remote local) fmt = rtpmap_of uninit local fmt.
Proof.
  intros Hl. rewrite !rtpmap_of_head. do 2 f_equal.
  destruct (update_direction_spec remote local Hl) as [_ Hf].
  assert (Hff : forall l : list pjmedia_sdp_attr, filter (fun a => attr_matches (cstr "rtpmap") (Some fmt) a = true) l =
    filter (fun a => attr_matches (cstr "rtpmap") (Some fmt) a = true)
      (filter (fun a => is_direction a = false) l)).
  { intros l. symmetry. apply list_filter_filter_l. intros a. apply matches_rtpmap_not_direction. }
  rewrite Hff, Hf, <- Hff. done.
Qed.

(** ** The exchange sort *)

Definition by_prior (x y : nat * pj_str) : Prop := (x.1 <= y.1)%nat.

Lemma sort_pass_spec l : forall x z l',
  sort_pass x l = (z, l') -> z :: l' ≡ₚ x :: l /\ Forall (by_prior z) l' /\ by_prior z x.
Proof.
  induction l as [|y l IH]; intros x z l'; cbn [sort_pass].
  { intros [= <- <-]. split_and!; [done|constructor|by red]. }
  destruct (Nat.ltb_spec y.1 x.1) as [Hyx|Hyx].
  - destruct (sort_pass y l) as [z1 l1] eqn:E. intros [= <- <-].
    destruct (IH _ _ _ E) as (Hp & Hf & Hz). unfold by_prior in *. split_and!.
    + etrans; [apply perm_swap|]. by rewrite Hp.
    + constructor; [lia|done].
    + lia.
  - destruct (sort_pass x l) as [z1 l1] eqn:E. intros [= <- <-].
    destruct (IH _ _ _ E) as (Hp & Hf & Hz). unfold by_prior in *. split_and!.
    + etrans; [apply perm_swap|]. rewrite Hp. apply perm_swap.
    + constructor; [lia|done].
    + lia.
Qed.

Lemma sort_formats_spec n : forall l,
  (length l <= n)%nat ->
  sort_formats n l ≡ₚ l /\ StronglySorted by_prior (sort_formats n l).
Proof.
  induction n as [|n IH]; intros [|x l] Hn; cbn [sort_formats length] in *;
    [split; [done|constructor]|lia|split; [done|constructor]|].
  destruct (sort_pass x l) as [z l'] eqn:E. apply sort_pass_spec in E as (Hp & Hf & Hz).
  pose proof (Permutation_length Hp) as Hlen. cbn in Hlen.
  destruct (IH l' ltac:(lia)) as [Hp' Hs]. split; [by rewrite Hp'|].
  constructor; [done|]. by rewrite Hp'.
Qed.

(** ** The match of an offered format in an answer *)

Section Offer.
Context (cbs : list fmt_match_cb_t) (cb_call : nat -> fmt_match_fn).
Context (uninit : pjmedia_sdp_rtpmap).

(** Format parameters are accepted: no callback, or callbacks that agree. *)
Definition cb_accepts : Prop :=
  forall name offer i answer j, (custom_fmt_match cbs cb_call name offer i answer j 0).1 = PJ_SUCCESS.

Context (Hcb : cb_accepts).

Fixpoint first_index {A} (P : A -> bool) (l : list A) : option nat :=
  match l with
  | [] => None
  | x :: l => if P x then Some O else S <$> first_index P l
  end.

Lemma first_index_Some {A} (P : A -> bool) l k :
  first_index P l = Some k -> exists x, l !! k = Some x /\ P x = true.
Proof.
  revert k. induction l as [|y l IH]; intros k; cbn; [done|].
  destruct (P y) eqn:E; [intros [= <-]; by exists y|].
  destruct (first_index P l) as [j|]; cbn; [|done]. intros [= <-]. by apply IH.
Qed.

(** The position in the answer of the format that stands for [fmt]: the same
    static payload type, or the first with a matching [rtpmap]. *)
Definition answer_match (offer answer : pjmedia_sdp_media) (fmt : pj_str) : option nat :=
  if fmt_pt fmt <? 96 then first_index (str_eq fmt) (m_fmt answer)
  else
    or_ ← rtpmap_of uninit offer fmt;
    first_index (fun g => match rtpmap_of uninit answer g with
                          | Some ar => answer_rtpmap_matches or_ ar
                          | None => false
                          end) (m_fmt answer).

Lemma find_str_index fmts fmt : find_str fmts fmt = first_index (str_eq fmt) fmts.
Proof. induction fmts as [|f fmts IH]; [done|]. cbn. by rewrite IH. Qed.

Lemma find_answer_dynamic_index or_ offer i answer fmts : forall j,
  find_answer_dynamic cbs cb_call uninit or_ offer i answer fmts j =
  (fun k => (j + k)%nat) <$>
    first_index (fun g => match rtpmap_of uninit answer g with
                          | Some ar => answer_rtpmap_matches or_ ar
                          | None => false
                          end) fmts.
Proof.
  induction fmts as [|f fmts IH]; intros j; [done|]. cbn [find_answer_dynamic first_index].
  assert (Hnext : find_answer_dynamic cbs cb_call uninit or_ offer i answer fmts (S j) =
    (fun k => (j + k)%nat) <$> (S <$> first_index (fun g => match rtpmap_of uninit answer g with
      | Some ar => answer_rtpmap_matches or_ ar | None => false end) fmts)).
  { rewrite IH. destruct (first_index _ fmts); cbn; [|done]. by rewrite Nat.add_succ_r. }
  destruct (rtpmap_of uninit answer f) as [ar|]; [|done].
  destruct (answer_rtpmap_matches or_ ar); cbn [andb]; [|done].
  rewrite Hcb. cbn. by rewrite Nat.add_0_r.
Qed.

Lemma find_answer_fmt_match offer i fmt answer :
  (96 <= fmt_pt fmt -> is_Some (rtpmap_of uninit offer fmt)) ->
  find_answer_fmt cbs cb_call uninit offer i fmt answer = inr (answer_match offer answer fmt).
Proof.
  intros Hv. unfold find_answer_fmt, answer_match. rewrite find_str_index.
  destruct (Z.ltb_spec (fmt_pt fmt) 96); [done|].
  destruct (Hv ltac:(lia)) as [or_ ->]. rewrite find_answer_dynamic_index. cbn.
  by destruct (first_index _ _).
Qed.

(** The matched formats of the offer, each with its position in the answer. *)
Definition matched (offer answer : pjmedia_sdp_media) (fmts : list pj_str) : list (nat * pj_str) :=
  omap (fun f => (fun j => (j, f)) <$> answer_match offer answer f) fmts.

(** Offers the loop may meet: those that differ by the attributes of formats
    already dropped. *)
Definition same_rtpmaps (todo : list pj_str) (m m0 : pjmedia_sdp_media) : Prop :=
  forall f, f ∈ todo -> rtpmap_of uninit m f = rtpmap_of uninit m0 f.

Lemma answer_match_same todo m m0 answer f :
  same_rtpmaps todo m m0 -> f ∈ todo -> answer_match m answer f = answer_match m0 answer f.
Proof. intros H Hf. unfold answer_match. by rewrite (H f Hf). Qed.

Lemma match_formats_spec offer0 answer todo : forall i prior offer kept,
  m_fmt offer = kept ++ todo -> i = length kept -> same_rtpmaps todo offer offer0 ->
  NoDup (fmt_pt <$> todo) ->
  (forall f, f ∈ todo -> 96 <= fmt_pt f -> is_Some (rtpmap_of uninit offer0 f)) ->
  exists offer', match_formats cbs cb_call uninit todo i prior offer answer =
      inr (prior ++ (matched offer0 answer todo).*1, offer') /\
    m_fmt offer' = kept ++ (matched offer0 answer todo).*2 /\ m_line offer' = m_line offer.
Proof.
  induction todo as [|f todo IH]; intros i prior offer kept Hm Hi Hs Hnd Hv; cbn [match_formats].
  { exists offer. cbn. by rewrite !app_nil_r in *. }
  rewrite (find_answer_fmt_match offer i f answer) by
    (rewrite (Hs f) by (by left); apply Hv; by left).
  rewrite (answer_match_same _ _ _ _ _ Hs) by (by left).
  unfold matched. cbn [omap list_omap]. fold (matched offer0 answer todo).
  cbn in Hnd. apply NoDup_cons in Hnd as [Hf Hnd].
  assert (Hv' : forall g, g ∈ todo -> 96 <= fmt_pt g -> is_Some (rtpmap_of uninit offer0 g)).
  { intros g Hg. apply Hv. by right. }
  destruct (answer_match offer0 answer f) as [j|] eqn:Ej; cbn [fmap option_fmap option_map].
  - destruct (IH (S i) (prior ++ [j]) offer (kept ++ [f])) as (offer' & H1 & H2 & H3); try done.
    + by rewrite <- app_assoc.
    + rewrite length_app. cbn. lia.
    + intros g Hg. apply Hs. by right.
    + exists offer'. rewrite H1, H2. rewrite <- !app_assoc. done.
  - destruct (remove_fmt_attrs_frame offer f) as [Hl Hff].
    destruct (IH i prior (with_fmt (remove_fmt_attrs offer f) (delete i (m_fmt (remove_fmt_attrs offer f)))) kept)
      as (offer' & H1 & H2 & H3); try done.
    + cbn [m_fmt with_fmt]. rewrite Hff, Hm, Hi. by rewrite delete_middle.
    + intros g Hg. change (rtpmap_of uninit (with_fmt (remove_fmt_attrs offer f) _) g)
        with (rtpmap_of uninit (remove_fmt_attrs offer f) g).
      rewrite remove_fmt_attrs_rtpmap; [apply Hs; by right|].
      intros He. apply Hf. rewrite <- He. by apply list_elem_of_fmap_2.
    + exists offer'. rewrite H1, H2, H3. split_and!; done.
Qed.

(** ** Removal of the unmatched formats of the answer *)

Lemma prune_frame prior todo : forall i del answer,
  m_line (prune_answer todo i del prior answer) = m_line answer.
Proof.
  induction todo as [|f todo IH]; intros i del answer; [done|]. cbn [prune_answer].
  destruct (remove_fmt_attrs_frame answer f) as [Hl _].
  destruct (match prior !! i with Some p => _ | None => false end); rewrite IH; done.
Qed.

(** [l0] are the formats of the answer before the loop, of which [todo] are not
    yet visited; [del] have been removed, and the positions in [drop i prior]
    are still to be kept. *)
Lemma prune_spec l0 prior todo : forall i del answer kept,
  m_fmt answer = kept ++ todo -> i = length kept -> drop (i + del) l0 = todo ->
  (i <= length prior)%nat -> StronglySorted lt (drop i prior) ->
  Forall (fun p => i + del <= p < length l0)%nat (drop i prior) ->
  (length l0 <= PJMEDIA_MAX_SDP_FMT)%nat ->
  let answer' := prune_answer todo i (Z.of_nat del) prior answer in
  m_line answer' = m_line answer /\ m_fmt answer' = kept ++ omap (fun p => l0 !! p) (drop i prior).
Proof.
  induction todo as [|f todo IH]; intros i del answer kept Hm Hi Hd Hip Hs Hr Hmax; cbn [prune_answer].
  { split; [done|]. rewrite Hm. f_equal. destruct (drop i prior) as [|p rest]; [done|].
    apply Forall_cons in Hr as [Hp _]. assert (length (drop (i + del) l0) = 0)%nat as Hz by (by rewrite Hd).
    rewrite length_drop in Hz. lia. }
  assert (Hf : l0 !! (i + del)%nat = Some f) by (rewrite <- (Nat.add_0_r (i + del)), <- lookup_drop, Hd; done).
  assert (Hd' : drop (S (i + del)) l0 = todo) by (rewrite (drop_S _ f) in Hd by done; by injection Hd).
  assert (Hlt : (i + del < length l0)%nat) by (by eapply lookup_lt_Some).
  assert (Hremove : Forall (fun p => i + S del <= p < length l0)%nat (drop i prior) ->
    let answer' := prune_answer todo i (Z.of_nat del + 1) prior
      (with_fmt (remove_fmt_attrs answer f) (delete i (m_fmt (remove_fmt_attrs answer f)))) in
    m_line answer' = m_line answer /\ m_fmt answer' = kept ++ omap (fun p => l0 !! p) (drop i prior)).
  { intros Hr'. destruct (remove_fmt_attrs_frame answer f) as [Hl Hff].
    replace (Z.of_nat del + 1) with (Z.of_nat (S del)) by lia.
    destruct (IH i (S del) (with_fmt (remove_fmt_attrs answer f)
      (delete i (m_fmt (remove_fmt_attrs answer f)))) kept) as [H1 H2]; try done.
    - cbn [m_fmt with_fmt]. rewrite Hff, Hm, Hi. by rewrite delete_middle.
    - by rewrite Nat.add_succ_r.
    - split; [|done]. rewrite H1. exact Hl. }
  destruct (prior !! i) as [p|] eqn:Ep.
  2:{ apply Hremove. apply lookup_ge_None in Ep. rewrite drop_ge by done. constructor. }
  rewrite (drop_S _ p) in * by done. apply Forall_cons in Hr as [Hp Hr].
  apply StronglySorted_inv in Hs as [Hs Hps].
  unfold PJMEDIA_MAX_SDP_FMT in Hmax. rewrite u32_small by (red; lia).
  destruct (Z.eqb_spec (Z.of_nat p - Z.of_nat del) (Z.of_nat i)) as [He|He].
  - assert (p = i + del)%nat as -> by lia. cbn [omap list_omap]. rewrite Hf.
    destruct (IH (S i) del answer (kept ++ [f])) as [H1 H2]; try done.
    + by rewrite <- app_assoc.
    + rewrite length_app. cbn. lia.
    + apply lookup_lt_Some in Ep. lia.
    + rewrite Forall_forall in *. intros q Hq. specialize (Hr q Hq). specialize (Hps q Hq). lia.
    + split; [done|]. rewrite H2, <- app_assoc. done.
  - apply Hremove. constructor; [lia|].
    rewrite Forall_forall in *. intros q Hq. specialize (Hr q Hq). specialize (Hps q Hq). lia.
Qed.

Lemma strictly_sorted l : StronglySorted by_prior l -> NoDup l.*1 -> StronglySorted lt l.*1.
Proof.
  induction 1 as [|x l Hs IH Hx]; cbn; [constructor|]. intros [Hn Hnd]%NoDup_cons.
  constructor; [by apply IH|]. rewrite Forall_fmap, Forall_forall in *. intros y Hy.
  specialize (Hx y Hy). unfold by_prior in Hx.
  assert (x.1 <> y.1) by (intros He; apply Hn; rewrite He; by apply list_elem_of_fmap_2). cbn. lia.
Qed.

Lemma answer_match_lt offer answer f j :
  answer_match offer answer f = Some j -> (j < length (m_fmt answer))%nat.
Proof.
  unfold answer_match. destruct (fmt_pt f <? 96).
  - intros H. apply first_index_Some in H as (x & Hx & _). by eapply lookup_lt_Some.
  - destruct (rtpmap_of uninit offer f); cbn; [|done].
    intros H. apply first_index_Some in H as (x & Hx & _). by eapply lookup_lt_Some.
Qed.

End Offer.

(** An offered media of a valid description and an answer to it: the same type,
    a compatible transport, both enabled, distinct payload types in the offer,
    and every dynamic one with an [rtpmap]; both within the bounds of the
    arrays. *)
Record answered (uninit : pjmedia_sdp_rtpmap) (offer answer : pjmedia_sdp_media) : Prop := {
  an_media : m_media answer = m_media offer;
  an_transport : pjmedia_sdp_transport_cmp (m_transport answer) (m_transport offer) = PJ_SUCCESS;
  an_answer_port : m_port answer <> 0;
  an_offer_port : m_port offer <> 0;
  an_pts : NoDup (fmt_pt <$> m_fmt offer);
  an_rtpmaps : forall f, f ∈ m_fmt offer -> 96 <= fmt_pt f -> is_Some (rtpmap_of uninit offer f);
  an_attrs : (length (m_attr offer) < PJMEDIA_MAX_SDP_ATTR)%nat;
  an_fmts : (length (m_fmt answer) <= PJMEDIA_MAX_SDP_FMT)%nat;
}.

(** C9. Take an enabled media with valid, distinct payload types and an enabled
    answer to it, symmetric payload types (asymmetric ones not allowed), and
    format callbacks that accept.  The remote answer leaves in the local offer
    exactly the formats that the answer has too, in the order of the answer; no
    common format is the error [EANSNOMEDIA].  If moreover no two offered formats
    match the same format of the answer, the answer keeps exactly the formats
    they match ([answer_prunes_matched] shows what happens otherwise).  Apart
    from formats and attributes both media stay as they are. *)
Theorem answer_applied cbs cb_call uninit offer answer :
  cb_accepts cbs cb_call -> answered uninit offer answer ->
  let common := matched uninit offer answer (m_fmt offer) in
  let '(status, offer', answer') := process_m_answer cbs cb_call uninit offer answer false in
  m_line offer' = m_line offer /\ m_line answer' = m_line answer /\
  (common = [] -> status = PJMEDIA_SDPNEG_EANSNOMEDIA) /\
  (common <> [] -> status = PJ_SUCCESS /\
    exists sorted, sorted ≡ₚ common /\ StronglySorted by_prior sorted /\
      m_fmt offer' = sorted.*2 /\
      (NoDup common.*1 -> m_fmt answer' = omap (fun j => m_fmt answer !! j) sorted.*1)).
Proof.
  intros Hcb [Hmed Htp Hap Hop Hnd Hv Hattr Hfmt] common. unfold process_m_answer.
  rewrite Hmed, str_eq_refl, Htp. cbn [negb].
  rewrite (proj2 (Z.eqb_neq _ _) Hap), (proj2 (Z.eqb_neq _ _) Hop). cbn [Z.eqb PJ_SUCCESS negb].
  destruct (update_direction_frame answer offer) as [Hl1 Hf1].
  set (offer1 := update_media_direction answer offer) in *.
  destruct (match_formats_spec _ _ uninit Hcb offer answer (m_fmt offer1) 0 [] offer1 [])
    as (offer2 & -> & Hf2 & Hl2); [done|done| | | |].
  { intros f _. by apply update_direction_rtpmap. }
  { by rewrite Hf1. }
  { rewrite Hf1. exact Hv. }
  rewrite Hf1 in *. fold common in Hf2. fold common. cbn [app] in *. rewrite Hf2.
  destruct (decide (common = [])) as [Hc|Hc].
  { rewrite Hc. cbn. split_and!; [congruence|done|done|done]. }
  rewrite length_fmap. destruct (Nat.eqb_spec (length common) 0) as [Hz|_].
  { by apply nil_length_inv in Hz. }
  rewrite zip_fst_snd.
  destruct (sort_formats_spec (length common) common ltac:(lia)) as [Hp Hs].
  set (sorted := sort_formats (length common) common) in *. cbn [m_fmt with_fmt].
  assert (Hb : Forall (fun p => 0 + 0 <= p < length (m_fmt answer))%nat sorted.*1).
  { rewrite Hp. apply Forall_fmap, Forall_forall. intros [j f] Hin. unfold common, matched in Hin.
    apply list_elem_of_omap in Hin as (g & _ & Hg).
    destruct (answer_match uninit offer answer g) as [k|] eqn:Ek; [|done].
    injection Hg as -> ->. apply answer_match_lt in Ek. cbn. lia. }
  split_and!; [by rewrite <- Hl1, <- Hl2| |done|].
  - apply prune_frame.
  - intros _. split; [done|]. exists sorted. split_and!; [done|done|done|]. intros Hn.
    refine (proj2 (prune_spec _ _ (m_fmt answer) 0 0 answer [] _ _ _ _ _ _ _)); try done; try lia.
    apply strictly_sorted; [done|]. by rewrite Hp.
Qed.

(** ** The media of a new offer *)

Lemma find_media_Some l om k :
  find_media l om = Some k -> exists nm, l !! k = Some nm /\ m_media nm = m_media om.
Proof.
  revert k. induction l as [|m l IH]; intros k; cbn; [done|].
  destruct (str_eq (m_media m) (m_media om)) eqn:E.
  - intros [= <-]. exists m. split; [done|]. by apply str_eq_true.
  - destruct (find_media l om) as [j|]; cbn; [|done]. intros [= <-]. by apply IH.
Qed.

Lemma array_insert_front {A} (l : list A) count pos (v : A) :
  (pos <= length l)%nat ->
  take pos (pj_array_insert l count pos v) = take pos l /\
  pj_array_insert l count pos v !! pos = Some v.
Proof.
  intros Hp. unfold pj_array_insert. split.
  - rewrite take_app_le by (rewrite length_take; lia). rewrite take_take. f_equal. lia.
  - by rewrite lookup_app_r, length_take, Nat.min_l, Nat.sub_diag by (rewrite ?length_take; lia).
Qed.

Lemma array_insert_move {A} (l : list A) pos k (v : A) :
  l !! (pos + k)%nat = Some v -> pj_array_insert l (pos + k) pos v ≡ₚ l.
Proof.
  intros Hv. unfold pj_array_insert. replace (pos + k - pos)%nat with k by lia.
  rewrite <- (take_drop pos l) at 4. apply Permutation_app_head.
  rewrite <- lookup_drop in Hv. rewrite <- (take_drop_middle _ _ _ Hv) at 2.
  rewrite drop_drop, <- Nat.add_succ_r. apply Permutation_middle.
Qed.

Lemma array_insert_end {A} (l : list A) pos (v : A) :
  pj_array_insert l (length l) pos v ≡ₚ v :: l.
Proof.
  unfold pj_array_insert. rewrite (drop_ge l (S (length l))), app_nil_r by lia.
  rewrite (take_ge (drop pos l)) by (rewrite length_drop; lia).
  rewrite <- (take_drop pos l) at 3. symmetry. apply Permutation_middle.
Qed.

Lemma place_media_spec local new oi om new' :
  place_media local new oi om = Some new' -> (oi <= length new)%nat ->
  take oi new' = take oi new /\
  (exists nm, new' !! oi = Some nm /\ m_media nm = m_media om) /\
  (new' ≡ₚ new \/ new' ≡ₚ sdp_media_clone_deactivate om om local :: new).
Proof.
  intros H Ho. unfold place_media in H.
  destruct (find_media (drop oi new) om) as [[|k]|] eqn:E.
  - injection H as <-. apply find_media_Some in E as (nm & Hn & Hm).
    rewrite lookup_drop, Nat.add_0_r in Hn. split_and!; [done|by exists nm|by left].
  - apply find_media_Some in E as (nm & Hn & Hm). rewrite lookup_drop in Hn. rewrite Hn in H.
    injection H as <-. destruct (array_insert_front new (oi + S k) oi nm Ho) as [H1 H2].
    split_and!; [done|by exists nm|left]. by apply array_insert_move.
  - destruct (_ <? _)%nat; [|done]. injection H as <-.
    destruct (array_insert_front new (length new) oi (sdp_media_clone_deactivate om om local) Ho) as [H1 H2].
    split_and!; [done| |right; apply array_insert_end].
    eexists. split; [exact H2|]. apply (clone_deactivate_line om om local).
Qed.

(** [added] are disabled copies of old media. *)
Definition disabled_copies (local : pjmedia_sdp_session) (old added : list pjmedia_sdp_media) : Prop :=
  Forall (fun m => m_port m = 0 /\ exists om, om ∈ old /\ m = sdp_media_clone_deactivate om om local) added.

Lemma place_medias_spec local old : forall oi new new',
  place_medias local old oi new = Some new' -> (oi <= length new)%nat ->
  take oi new' = take oi new /\
  (forall i om, old !! i = Some om -> exists nm, new' !! (oi + i)%nat = Some nm /\ m_media nm = m_media om) /\
  exists added, new' ≡ₚ new ++ added /\ disabled_copies local old added.
Proof.
  induction old as [|om old IH]; intros oi new new' H Ho; cbn [place_medias] in H.
  { injection H as <-. split_and!; [done|done|]. exists []. rewrite app_nil_r. by split; [|constructor]. }
  destruct (place_media local new oi om) as [new1|] eqn:E; [|done].
  apply place_media_spec in E as (Ht & (nm & Hn & Hm) & Hp); [|done].
  destruct (IH _ _ _ H) as (Ht' & Hall & added & Hp' & Hadd); [by apply lookup_lt_Some in Hn|].
  split_and!.
  - rewrite <- Ht. apply (f_equal (take oi)) in Ht'. rewrite !take_take in Ht'.
    by rewrite !Nat.min_l in Ht' by lia.
  - intros [|i] om' Ho'.
    + injection Ho' as <-. exists nm. split; [|done]. rewrite Nat.add_0_r.
      rewrite <- (lookup_take_lt new' (S oi)), Ht', lookup_take_lt by lia. done.
    + rewrite Nat.add_succ_r. by apply (Hall i).
  - assert (Hmono : disabled_copies local (om :: old) added).
    { eapply list.Forall_impl; [exact Hadd|]. intros m (Hm0 & o & Ho' & He). split; [done|].
      exists o. split; [by right|done]. }
    destruct Hp as [Hp|Hp].
    + exists added. split; [by rewrite Hp', Hp|done].
    + exists (sdp_media_clone_deactivate om om local :: added). split.
      * rewrite Hp', Hp. apply Permutation_middle.
      * constructor; [|done]. split; [apply (clone_deactivate_line om om local)|].
        exists om. split; [by left|done].
Qed.

(** A new local offer has, at every position of the active description, a
    media of the same type; its media are those asked for and disabled copies
    of active ones, nothing else; its origin is that of the active description
    with the version raised by one; the active descriptions stay. *)
Theorem modified_offer_layout neg local neg' old :
  active_local_sdp neg = Some old ->
  pjmedia_sdp_neg_modify_local_offer neg local = Some (PJ_SUCCESS, neg') ->
  exists offer, neg_local_sdp neg' = Some offer /\ initial_sdp neg' = Some offer /\
    neg_state neg' = STATE_LOCAL_OFFER /\ active_local_sdp neg' = Some old /\
    active_remote_sdp neg' = active_remote_sdp neg /\
    s_origin offer = with_version (s_origin old) (u32 (o_version (s_origin old) + 1)) /\
    (forall i om, s_media old !! i = Some om ->
      exists nm, s_media offer !! i = Some nm /\ m_media nm = m_media om) /\
    exists added, s_media offer ≡ₚ s_media local ++ added /\
      disabled_copies local (s_media old) added.
Proof.
  intros Ha. unfold pjmedia_sdp_neg_modify_local_offer, pjmedia_sdp_neg_modify_local_offer2.
  destruct (negb (bool_decide _)); [by intros [= ? _]|].
  destruct (negb _) eqn:Ev; [intros [= Hv _]; by rewrite Hv in Ev|].
  rewrite Ha. cbn [Z.land Z.eqb].
  destruct (place_medias local (s_media old) 0 (s_media local)) as [media|] eqn:Ep; [|done].
  intros [= <-]. apply place_medias_spec in Ep as (_ & Hall & Hadd); [|lia].
  eexists. split_and!; [done|done|done|done|done|done|done|done].
Qed.

(** ** Witnesses *)

Import Sample.

Definition two_codecs (kind : String.string) (fmts : list String.string) : pjmedia_sdp_media :=
  media kind 4000 fmts [attr "rtpmap" "96 iLBC/8000"; attr "rtpmap" "97 speex/16000"].
Arguments two_codecs kind%_string_scope fmts.

Lemma no_cb_accepts : cb_accepts [] no_call.
Proof. done. Qed.

Lemma two_codecs_answered :
  answered no_rtpmap (two_codecs "audio" ["0"; "96"; "97"]%string) (two_codecs "audio" ["97"; "8"; "0"]%string).
Proof.
  constructor; [reflexivity|vm_compute; reflexivity|discriminate|discriminate| | |vm_compute; lia|vm_compute; lia].
  - apply (bool_decide_unpack _). vm_compute. reflexivity.
  - intros f Hf Hpt. apply elem_of_cons in Hf as [->|Hf]; [vm_compute in Hpt; by destruct Hpt|].
    repeat (apply elem_of_cons in Hf as [->|Hf]; [vm_compute; eauto|]).
    by apply not_elem_of_nil in Hf.
Qed.

(** Of PCMU, iLBC and speex the answer keeps speex and PCMU, in its order. *)
Lemma answer_applied_witness :
  (process_m_answer [] no_call no_rtpmap (two_codecs "audio" ["0"; "96"; "97"]%string)
    (two_codecs "audio" ["97"; "8"; "0"]%string) false).1.1 = PJ_SUCCESS.
Proof.
  pose proof (answer_applied [] no_call no_rtpmap _ _ no_cb_accepts two_codecs_answered) as H.
  cbv zeta in H.
  destruct (process_m_answer [] no_call no_rtpmap (two_codecs "audio" ["0"; "96"; "97"]%string)
    (two_codecs "audio" ["97"; "8"; "0"]%string) false) as [[st o] a].
  cbn [fst]. destruct H as (_ & _ & _ & H). apply H. vm_compute. discriminate.
Defined.

(** A session of one audio line, negotiated; the next offer has video first and
    keeps the audio line in its place. *)
Definition settled : pjmedia_sdp_neg :=
  mk_neg STATE_DONE true false false true None (Some (session 3 [media "audio" 4000 ["0"]%string []]))
    (Some (session 4 [media "audio" 5000 ["0"]%string []])) None None.
Definition video_first : pjmedia_sdp_session :=
  session 1 [media "video" 4002 ["34"]%string []; media "audio" 4000 ["0"]%string []].

Lemma modified_offer_layout_witness :
  exists neg' offer, pjmedia_sdp_neg_modify_local_offer settled video_first = Some (PJ_SUCCESS, neg') /\
    neg_local_sdp neg' = Some offer /\ o_version (s_origin offer) = 4 /\
    exists nm, s_media offer !! 0%nat = Some nm /\ m_media nm = cstr "audio".
Proof.
  destruct (pjmedia_sdp_neg_modify_local_offer settled video_first) as [[st neg']|] eqn:E;
    [|vm_compute in E; discriminate].
  assert (Hst : st = PJ_SUCCESS) by (vm_compute in E; by injection E as <- _). subst st.
  destruct (modified_offer_layout settled video_first neg' _ eq_refl E)
    as (offer & Hl & _ & _ & _ & _ & Ho & Hall & _).
  exists neg', offer. split_and!; [done|done|rewrite Ho; reflexivity|].
  apply (Hall 0%nat (media "audio" 4000 ["0"]%string [])). reflexivity.
Defined.

(** ** Defects *)

(** With asymmetric codecs allowed, the formats of the answer are compared with
    those of the answer: an answer without a common format is accepted. *)
Theorem asymmetric_accepts_disjoint :
  let offer := media "audio" 4000 ["0"]%string [] in
  let answer := media "audio" 5000 ["8"]%string [] in
  process_m_answer [] no_call no_rtpmap offer answer true = (PJ_SUCCESS, offer, answer) /\
  (process_m_answer [] no_call no_rtpmap offer answer false).1.1 = PJMEDIA_SDPNEG_EANSNOMEDIA.
Proof. vm_compute. split; reflexivity. Qed.

(** When two offered formats match the same format of the answer, the loop that
    removes the unmatched formats of the answer removes a matched one: speex is
    kept in the offer and dropped from the answer. *)
Theorem answer_prunes_matched :
  let offer := media "audio" 4000 ["96"; "97"; "98"]%string
    [attr "rtpmap" "96 iLBC/8000"; attr "rtpmap" "97 iLBC/8000"; attr "rtpmap" "98 speex/8000"]%string in
  let answer := media "audio" 5000 ["96"; "98"]%string [attr "rtpmap" "96 iLBC/8000"; attr "rtpmap" "98 speex/8000"]%string in
  let '(status, offer', answer') := process_m_answer [] no_call no_rtpmap offer answer false in
  status = PJ_SUCCESS /\ m_fmt offer' = map cstr ["96"; "97"; "98"]%string /\ m_fmt answer' = map cstr ["96"]%string.
Proof. vm_compute. repeat split; reflexivity. Qed.

(** An answer with one channel matches an offer with two, but not the reverse. *)
Theorem answer_mono_matches_stereo :
  let m fmt := media "audio" 4000 ["96"]%string [attr "rtpmap" fmt] in
  (process_m_answer [] no_call no_rtpmap (m "96 L16/44100/2"%string) (m "96 L16/44100/1"%string) false).1.1 = PJ_SUCCESS /\
  (process_m_answer [] no_call no_rtpmap (m "96 L16/44100/1"%string) (m "96 L16/44100/2"%string) false).1.1 =
    PJMEDIA_SDPNEG_EANSNOMEDIA.
Proof. vm_compute. split; reflexivity. Qed.

(** An answer in which every media is refused for want of a media of its type is
    reported as a success. *)
Theorem answer_without_media_succeeds :
  exists answer, create_answer [] no_call no_rtpmap true false
    (session 1 [media "audio" 4000 ["0"]%string []])
    (session 2 [media "video" 5000 ["34"]%string []]) = Some (PJ_SUCCESS, Some answer) /\
  has_active_media (s_media answer) = false.
Proof. eexists. split; [vm_compute; reflexivity|]. vm_compute. reflexivity. Qed.

(** An offer of telephone events alone, unknown to the local side, is answered
    by an enabled media without formats, which is no valid media. *)
Theorem answer_without_formats :
  exists answer, create_answer [] no_call no_rtpmap true false
    (session 1 [media "audio" 4000 ["0"]%string []])
    (session 2 [media "audio" 5000 ["101"]%string [attr "rtpmap" "101 telephone-event/8000"]]) =
      Some (PJ_SUCCESS, Some answer) /\
  m_fmt <$> s_media answer = [[]] /\ pjmedia_sdp_validate answer = PJMEDIA_SDP_ENOFMT.
Proof. eexists. split; [vm_compute; reflexivity|]. split; vm_compute; reflexivity. Qed.

(** Two offered payload types for one local codec, with several codecs in the
    answer: the local format is looked for a second time and not found. *)
Theorem two_payloads_one_codec_asserts :
  create_answer [] no_call no_rtpmap true true
    (session 1 [media "audio" 4000 ["98"]%string [attr "rtpmap" "98 iLBC/8000"]])
    (session 2 [media "audio" 5000 ["96"; "97"]%string
       [attr "rtpmap" "96 iLBC/8000"; attr "rtpmap" "97 iLBC/8000"]]) = None.
Proof. vm_compute. reflexivity. Qed.

(** An offer with a disabled media and no connection line is accepted when the
    negotiator is created, and then refused by the negotiation. *)
Theorem accepted_offer_refused :
  let offer := mk_session (s_origin (session 2 [])) (cstr "pjmedia") None [] 0 0 []
                 [media "audio" 0 ["0"]%string []] in
  exists neg neg',
    pjmedia_sdp_neg_create_w_remote_offer (Some (session 1 [media "audio" 4000 ["0"]%string []])) offer =
      (PJ_SUCCESS, Some neg) /\
    pjmedia_sdp_neg_negotiate [] no_call no_rtpmap neg false = Some (PJMEDIA_SDP_EMISSINGCONN, neg').
Proof. eexists _, _. split; [vm_compute; reflexivity|]. vm_compute. reflexivity. Qed.
