(* ===== verification/SdpParse.v ===== *)
(** * Parsing session descriptions

    Model of [pjmedia_sdp_parse] of [pjmedia/src/pjmedia/sdp.c], with the line
    parsers and [apply_media_direction].

    A line parser works on the text from the pointer of the scanner on; a throw
    is [None], and the status reported for it is the [last_error] its parser
    set at its start.  The text has a NUL behind its end, as the function
    asks. *)

From Stdlib Require Import ZArith Lia Bool String.
From stdpp Require Import base list numbers option.
From S2P Require Import Prelude.
From S2P Require Import PjString.
From S2P Require Import Scanner.
From S2P Require Import Sdp.
Local Open Scope Z_scope.

Definition PJMEDIA_MAX_SDP_BANDW : nat := 4.
Definition PJMEDIA_SDP_EINSDP : pj_status_t := 220020.
Definition PJMEDIA_SDP_EINVER : pj_status_t := 220021.
Definition PJMEDIA_SDP_EINTIME : pj_status_t := 220023.
Definition PJMEDIA_SDP_EINRTCP : pj_status_t := 220035.
Definition PJMEDIA_SDP_EINBANDW : pj_status_t := 220037.

(** ** Lines *)

(** [*(scanner->curptr + 1) != '='] *)
Definition has_equal (s : pj_str) : bool := char_at s 1 =? 61.

Definition get_until_ch := pj_scan_get_until_ch false.
Definition get_until_chr := pj_scan_get_until_chr false.
Definition get_char := pj_scan_get_char false.
Definition LINE_END : list Z := [32; 9; 13; 10].

Definition parse_version (s : pj_str) : option pj_str :=
  if negb (has_equal s) then None
  else if negb (char_at s 2 =? 48) then None
  else Some (pj_scan_skip_line s).

Definition parse_origin (s : pj_str) : option (sdp_origin * pj_str) :=
  if negb (has_equal s) then None
  else
    s ← pj_scan_advance_n 2 false s;
    '(user, s) ← get_until_ch 32 s;
    '(_, s) ← get_char s;
    '(id, s) ← get_until_ch 32 s;
    '(_, s) ← get_char s;
    '(version, s) ← get_until_ch 32 s;
    '(_, s) ← get_char s;
    '(net_type, s) ← get_until_ch 32 s;
    '(_, s) ← get_char s;
    '(addr_type, s) ← get_until_ch 32 s;
    '(_, s) ← get_char s;
    '(addr, s) ← get_until_chr LINE_END s;
    Some (mk_origin user (u32 (pj_strtoul id)) (u32 (pj_strtoul version)) net_type addr_type addr,
          pj_scan_skip_line s).

Definition parse_time (s : pj_str) : option (Z * Z * pj_str) :=
  if negb (has_equal s) then None
  else
    s ← pj_scan_advance_n 2 false s;
    '(start, s) ← get_until_ch 32 s;
    '(_, s) ← get_char s;
    '(stop, s) ← get_until_chr LINE_END s;
    Some (u32 (pj_strtoul start), u32 (pj_strtoul stop), pj_scan_skip_line s).

Definition parse_generic_line (s : pj_str) : option (pj_str * pj_str) :=
  if negb (has_equal s) then None
  else
    s ← pj_scan_advance_n 2 false s;
    '(str, s) ← get_until_chr [13; 10] s;
    s ← pj_scan_get_newline s;
    Some (str, s).

Definition parse_connection_info (s : pj_str) : option (pjmedia_sdp_conn * pj_str) :=
  s ← pj_scan_advance_n 2 false s;
  '(net_type, s) ← get_until_ch 32 s;
  '(_, s) ← get_char s;
  '(addr_type, s) ← get_until_ch 32 s;
  '(_, s) ← get_char s;
  '(addr, s) ← get_until_chr (47 :: LINE_END) s;
  Some (mk_conn net_type addr_type addr, pj_scan_skip_line s).

Definition parse_bandwidth_info (s : pj_str) : option (pjmedia_sdp_bandw * pj_str) :=
  s ← pj_scan_advance_n 2 false s;
  '(modifier, s) ← get_until_ch 58 s;
  '(_, s) ← get_char s;
  '(value, s) ← get_until_chr LINE_END s;
  Some (mk_bandw modifier (u32 (pj_strtoul value)), pj_scan_skip_line s).

(** The port count, if there is one. *)
Definition parse_port_count (s : pj_str) : option (Z * pj_str) :=
  if first_char s =? 47 then
    '(_, s) ← get_char s;
    '(str, s) ← pj_scan_get false cs_token s;
    Some (u32 (pj_strtoul str), s)
  else Some (0, s).

(** The loop over the formats; a format beyond the array is ignored. *)
Fixpoint parse_fmts (fuel : nat) (fmts : list pj_str) (s : pj_str) : option (list pj_str * pj_str) :=
  match fuel with
  | O => None
  | S fuel =>
      if first_char s =? 32 then
        '(_, s) ← get_char s;
        if PJ_SCAN_IS_NEWLINE (first_char s) then Some (fmts, s)
        else
          '(fmt, s) ← pj_scan_get false cs_token s;
          parse_fmts fuel
            (if (length fmts <? PJMEDIA_MAX_SDP_FMT)%nat then fmts ++ [fmt] else fmts) s
      else Some (fmts, s)
  end.

Definition parse_media (s : pj_str) : option (pjmedia_sdp_media * pj_str) :=
  if negb (has_equal s) then None
  else
    s ← pj_scan_advance_n 2 false s;
    '(media, s) ← get_until_ch 32 s;
    '(_, s) ← get_char s;
    '(port, s) ← pj_scan_get false cs_token s;
    '(port_count, s) ← parse_port_count s;
    '(c, s) ← get_char s;
    if negb (c =? 32) then None
    else
      '(transport, s) ← get_until_chr LINE_END s;
      '(fmts, s) ← parse_fmts (S (length s)) [] s;
      Some (mk_media media (u16 (pj_strtoul port)) port_count transport fmts None [] [],
            pj_scan_skip_line s).

(** The value of an attribute, behind its name. *)
Definition parse_attr_value (s : pj_str) : option (pj_str * pj_str) :=
  if negb (first_char s =? 0) && negb (PJ_SCAN_IS_NEWLINE (first_char s)) then
    s ← (if first_char s =? 58 then snd <$> get_char s else Some s);
    if negb (PJ_SCAN_IS_NEWLINE (first_char s)) then get_until_chr [13; 10] s
    else Some ([], s)
  else Some ([], s).

Definition parse_attr (s : pj_str) : option (pjmedia_sdp_attr * pj_str) :=
  if negb (has_equal s) then None
  else
    s ← pj_scan_advance_n 2 false s;
    '(name, s) ← pj_scan_get false cs_token s;
    '(value, s) ← parse_attr_value s;
    Some (mk_attr name value, pj_scan_skip_line s).

(** ** The description under construction

    [ps_session] has the media that are complete; [ps_media] is the media the
    variable [media] points to, with whether it got a place in the array. *)

Record parse_state := mk_parse {
  ps_session : pjmedia_sdp_session;
  ps_media : option (bool * pjmedia_sdp_media);
}.

Definition finished (st : parse_state) : list pjmedia_sdp_media :=
  s_media (ps_session st) ++ match ps_media st with Some (true, m) => [m] | _ => [] end.

Definition with_session_attr (s : pjmedia_sdp_session) (attr : list pjmedia_sdp_attr) : pjmedia_sdp_session :=
  mk_session (s_origin s) (s_name s) (s_conn s) (s_bandw s) (s_time_start s) (s_time_stop s) attr (s_media s).
Definition with_session_conn (s : pjmedia_sdp_session) (conn : pjmedia_sdp_conn) : pjmedia_sdp_session :=
  mk_session (s_origin s) (s_name s) (Some conn) (s_bandw s) (s_time_start s) (s_time_stop s) (s_attr s) (s_media s).
Definition with_session_bandw (s : pjmedia_sdp_session) (bandw : list pjmedia_sdp_bandw) : pjmedia_sdp_session :=
  mk_session (s_origin s) (s_name s) (s_conn s) bandw (s_time_start s) (s_time_stop s) (s_attr s) (s_media s).
Definition with_name (s : pjmedia_sdp_session) (name : pj_str) : pjmedia_sdp_session :=
  mk_session (s_origin s) name (s_conn s) (s_bandw s) (s_time_start s) (s_time_stop s) (s_attr s) (s_media s).
Definition with_time (s : pjmedia_sdp_session) (start stop : Z) : pjmedia_sdp_session :=
  mk_session (s_origin s) (s_name s) (s_conn s) (s_bandw s) start stop (s_attr s) (s_media s).
Definition with_bandw (m : pjmedia_sdp_media) (bandw : list pjmedia_sdp_bandw) : pjmedia_sdp_media :=
  mk_media (m_media m) (m_port m) (m_port_count m) (m_transport m) (m_fmt m) (m_conn m) bandw (m_attr m).

Definition pjmedia_sdp_session_add_attr (s : pjmedia_sdp_session) (a : pjmedia_sdp_attr) : pjmedia_sdp_session :=
  with_session_attr s (pjmedia_sdp_attr_add (s_attr s) a).2.

(** What belongs to the media if there is one, else to the session. *)
Definition on_current (st : parse_state) (on_media : pjmedia_sdp_media -> pjmedia_sdp_media)
    (on_session : pjmedia_sdp_session -> pjmedia_sdp_session) : parse_state :=
  match ps_media st with
  | Some (stored, m) => mk_parse (ps_session st) (Some (stored, on_media m))
  | None => mk_parse (on_session (ps_session st)) None
  end.
Definition on_session (st : parse_state) (f : pjmedia_sdp_session -> pjmedia_sdp_session) : parse_state :=
  mk_parse (f (ps_session st)) (ps_media st).

Definition add_media (st : parse_state) (m : pjmedia_sdp_media) : parse_state :=
  mk_parse (with_media (ps_session st) (finished st))
    (Some ((length (finished st) <? PJMEDIA_MAX_SDP_MEDIA)%nat, m)).

Definition current_bandw (st : parse_state) : list pjmedia_sdp_bandw :=
  match ps_media st with Some (_, m) => m_bandw m | None => s_bandw (ps_session st) end.

(** ** The loop over the lines *)

(** One round: the next state and text, the error of a throw, or a write behind
    the array of bandwidth lines. *)
Inductive line_result :=
| Next (st : parse_state) (s : pj_str)
| Throw (last_error : pj_status_t)
| Overrun.

Definition line_of {A} (last_error : pj_status_t) (r : option (A * pj_str)) (k : A -> parse_state) :
    line_result :=
  match r with Some (x, s) => Next (k x) s | None => Throw last_error end.

Definition parse_line (st : parse_state) (s : pj_str) : line_result :=
  let c := first_char s in
  if c =? 97 then
    line_of PJMEDIA_SDP_EINATTR (parse_attr s)
      (fun a => on_current st (fun m => pjmedia_sdp_media_add_attr m a)
                  (fun ses => pjmedia_sdp_session_add_attr ses a))
  else if c =? 111 then
    line_of PJMEDIA_SDP_EINORIGIN (parse_origin s) (fun o => on_session st (fun ses => with_origin ses o))
  else if c =? 115 then
    line_of PJMEDIA_SDP_EINSDP (parse_generic_line s) (fun n => on_session st (fun ses => with_name ses n))
  else if c =? 99 then
    line_of PJMEDIA_SDP_EINCONN (parse_connection_info s)
      (fun conn => on_current st (fun m => with_conn m (Some conn)) (fun ses => with_session_conn ses conn))
  else if c =? 116 then
    line_of PJMEDIA_SDP_EINTIME (parse_time s)
      (fun t => on_session st (fun ses => with_time ses t.1 t.2))
  else if c =? 109 then
    line_of PJMEDIA_SDP_EINMEDIA (parse_media s) (add_media st)
  else if c =? 118 then
    line_of PJMEDIA_SDP_EINVER ((fun s => ((), s)) <$> parse_version s) (fun _ => st)
  else if PJ_SCAN_IS_NEWLINE c then
    if forallb PJ_SCAN_IS_NEWLINE (drop 1 s) then Next st [] else Throw PJMEDIA_SDP_EINSDP
  else if c =? 98 then
    match parse_bandwidth_info s with
    | None => Throw PJMEDIA_SDP_EINBANDW
    | Some (b, s) =>
        if (length (current_bandw st) <? PJMEDIA_MAX_SDP_BANDW)%nat then
          Next (on_current st (fun m => with_bandw m (m_bandw m ++ [b]))
                  (fun ses => with_session_bandw ses (s_bandw ses ++ [b]))) s
        else Overrun
    end
  else if (97 <=? c) && (c <=? 122) then
    line_of PJMEDIA_SDP_EINSDP (parse_generic_line s) (fun _ => st)
  else Throw PJMEDIA_SDP_EINSDP.

Inductive parse_result :=
| Parsed (sdp : pjmedia_sdp_session)
| ParseError (last_error : pj_status_t)
| ParseOverrun
| OutOfFuel.

Fixpoint parse_lines (fuel : nat) (st : parse_state) (s : pj_str) : parse_result :=
  if pj_scan_is_eof s then Parsed (with_media (ps_session st) (finished st))
  else
    match fuel with
    | O => OutOfFuel
    | S fuel =>
        match parse_line st s with
        | Next st s => parse_lines fuel st s
        | Throw e => ParseError e
        | Overrun => ParseOverrun
        end
    end.

(** The zero-filled session of the allocation. *)
Definition empty_session : pjmedia_sdp_session :=
  mk_session (mk_origin [] 0 0 [] [] []) [] None [] 0 0 [] [].

Fixpoint skip_newlines (s : pj_str) : pj_str :=
  match s with
  | c :: s' => if PJ_SCAN_IS_NEWLINE c then skip_newlines s' else s
  | [] => []
  end.

(** ** Session directions *)

Definition session_dir (a : pjmedia_sdp_attr) : bool :=
  str_eq (attr_name a) (cstr "sendonly") || str_eq (attr_name a) (cstr "recvonly") ||
  str_eq (attr_name a) (cstr "inactive").
Definition media_dir (a : pjmedia_sdp_attr) : bool :=
  str_eq (attr_name a) (cstr "sendrecv") || str_eq (attr_name a) (cstr "sendonly") ||
  str_eq (attr_name a) (cstr "recvonly") || str_eq (attr_name a) (cstr "inactive").

Fixpoint find_session_dir (attrs : list pjmedia_sdp_attr) : option (nat * pjmedia_sdp_attr) :=
  match attrs with
  | [] => None
  | a :: attrs =>
      if session_dir a then Some (O, a)
      else (fun p => (S p.1, p.2)) <$> find_session_dir attrs
  end.

Definition apply_media_direction (sdp : pjmedia_sdp_session) : pjmedia_sdp_session :=
  match find_session_dir (s_attr sdp) with
  | Some (i, dir_attr) =>
      let sdp := with_session_attr sdp (pjmedia_sdp_attr_remove (s_attr sdp) i).2 in
      with_media sdp
        (map (fun m => if existsb media_dir (m_attr m) then m else pjmedia_sdp_media_add_attr m dir_attr)
           (s_media sdp))
  | None => sdp
  end.

(** Status and description; [None] for the write behind an array. *)
Definition pjmedia_sdp_parse (buf : pj_str) : option (pj_status_t * option pjmedia_sdp_session) :=
  let s := skip_newlines buf in
  match parse_lines (length s) (mk_parse empty_session None) s with
  | Parsed sdp => Some (PJ_SUCCESS, Some (apply_media_direction sdp))
  | ParseError e => Some (e, None)
  | ParseOverrun | OutOfFuel => None
  end.

(** ** The [rtcp] attribute *)

Record pjmedia_sdp_rtcp_attr := mk_rtcp {
  rtcp_port : Z;
  rtcp_net_type : pj_str;
  rtcp_addr_type : pj_str;
  rtcp_addr : pj_str;
}.

(** [r0] is the structure before the call. *)
Definition pjmedia_sdp_attr_get_rtcp (attr : pjmedia_sdp_attr) (r0 : pjmedia_sdp_rtcp_attr) :
    pj_status_t * pjmedia_sdp_rtcp_attr :=
  if negb (str_eq (attr_name attr) (cstr "rtcp")) then (PJ_EINVALIDOP, r0)
  else
    match pj_scan_get true cs_token (pj_scan_skip_whitespace (attr_value attr)) with
    | None => (PJMEDIA_SDP_EINRTCP, mk_rtcp (rtcp_port r0) [] [] [])
    | Some (token, s) =>
        let port := u32 (pj_strtoul token) in
        if pj_scan_is_eof s then (PJ_SUCCESS, mk_rtcp port [] [] [])
        else
          match pj_scan_get true cs_token s with
          | None => (PJMEDIA_SDP_EINRTCP, mk_rtcp port [] [] [])
          | Some (net_type, s) =>
          match pj_scan_get true cs_token s with
          | None => (PJMEDIA_SDP_EINRTCP, mk_rtcp port net_type [] [])
          | Some (addr_type, s) =>
          match pj_scan_get true cs_token s with
          | None => (PJMEDIA_SDP_EINRTCP, mk_rtcp port net_type addr_type [])
          | Some (addr, s) => (PJ_SUCCESS, mk_rtcp port net_type addr_type addr)
          end end end
    end.

(** The address is given as the text [pj_inet_ntoa] or [pj_sockaddr_print] makes
    of it. *)
Definition pjmedia_sdp_attr_create_rtcp (ipv6 : bool) (port : Z) (addr : pj_str) : pjmedia_sdp_attr :=
  mk_attr (cstr "rtcp") (pj_utoa port ++ (if ipv6 then cstr " IN IP6 " else cstr " IN IP4 ") ++ addr).

(** * Properties *)

(** ** The parsers move forward *)

Lemma get_char_suffix s c r : get_char s = Some (c, r) -> r `suffix_of` s.
Proof.
  intros H. apply scan_get_char_suffix in H as (s' & -> & H). by apply suffix_cons_r.
Qed.

(** Splits the steps of a parser that returned and turns each into a fact about
    the text it left. *)
Ltac parse_inv :=
  repeat match goal with
  | H : (_ ≫= _) = Some _ |- _ => apply bind_Some in H as (? & ? & H)
  | x : (_ * _)%type |- _ => destruct x
  | H : (if negb ?b then None else _) = Some _ |- _ => destruct b eqn:?; [cbn [negb] in H|discriminate H]
  | H : Some _ = Some _ |- _ => injection H as ?
  end; subst.
Ltac suffix_facts :=
  repeat match goal with
  | H : pj_scan_get _ _ _ = Some _ |- _ => apply scan_get_suffix in H
  | H : get_char _ = Some _ |- _ => apply get_char_suffix in H
  | H : get_until_ch _ _ = Some _ |- _ => apply scan_until_suffix in H
  | H : get_until_chr _ _ = Some _ |- _ => apply scan_until_suffix in H
  | H : pj_scan_advance_n _ _ _ = Some _ |- _ => apply scan_advance_suffix in H
  | H : pj_scan_get_newline _ = Some _ |- _ => apply scan_newline_suffix in H
  end.
Ltac suffix_chain :=
  suffix_facts; repeat (etrans; [first [apply skip_line_suffix | eassumption]|]); first [done | eassumption].

Lemma parse_fmts_suffix fuel : forall fmts s fmts' r,
  parse_fmts fuel fmts s = Some (fmts', r) -> r `suffix_of` s.
Proof.
  induction fuel as [|fuel IH]; intros fmts s fmts' r; [done|]. cbn [parse_fmts].
  destruct (first_char s =? 32); [|by intros [= _ <-]].
  intros H. parse_inv. suffix_facts. destruct (PJ_SCAN_IS_NEWLINE _); parse_inv; [done|].
  apply IH in H. suffix_chain.
Qed.

(** The fuel of the loop over the formats is enough. *)
Lemma parse_fmts_fuel fuel : forall fuel' fmts s,
  (length s < fuel)%nat -> (length s < fuel')%nat -> parse_fmts fuel fmts s = parse_fmts fuel' fmts s.
Proof.
  induction fuel as [|fuel IH]; intros [|fuel'] fmts s H1 H2; [lia..|]. cbn [parse_fmts].
  destruct (first_char s =? 32); [|done].
  destruct (get_char s) as [[c r]|] eqn:E1; [|done]. cbn.
  apply scan_get_char_suffix in E1 as (s' & -> & Hs').
  destruct (PJ_SCAN_IS_NEWLINE _); [done|].
  destruct (pj_scan_get false cs_token r) as [[f r']|] eqn:E2; [|done]. cbn.
  apply scan_get_suffix, suffix_length in E2. apply suffix_length in Hs'. cbn in *. apply IH; lia.
Qed.

Lemma drop_2_suffix (s : pj_str) : drop 2 s `suffix_of` drop 1 s.
Proof. exists (take 1 (drop 1 s)). by rewrite <- (take_drop 1 (drop 1 s)) at 1; rewrite drop_drop. Qed.

(** A line parser that returns leaves an end of the text behind its first
    character. *)
Definition moves {A} (p : pj_str -> option (A * pj_str)) : Prop :=
  forall s x r, p s = Some (x, r) -> r `suffix_of` drop 1 s.

Ltac moves_by f := intros s x r H; unfold f in H; parse_inv; (etrans; [|apply drop_2_suffix]); suffix_chain.

Lemma parse_origin_moves : moves parse_origin.
Proof. moves_by parse_origin. Qed.
Lemma parse_time_moves : moves parse_time.
Proof. moves_by parse_time. Qed.
Lemma parse_generic_line_moves : moves parse_generic_line.
Proof. moves_by parse_generic_line. Qed.
Lemma parse_connection_info_moves : moves parse_connection_info.
Proof. moves_by parse_connection_info. Qed.
Lemma parse_bandwidth_info_moves : moves parse_bandwidth_info.
Proof. moves_by parse_bandwidth_info. Qed.
Lemma parse_port_count_suffix s n r : parse_port_count s = Some (n, r) -> r `suffix_of` s.
Proof.
  unfold parse_port_count. destruct (_ =? 47); intros H; parse_inv; [suffix_chain|done].
Qed.
Lemma parse_media_moves : moves parse_media.
Proof.
  intros s x r H. unfold parse_media in H. parse_inv.
  repeat match goal with
  | H : parse_port_count _ = Some _ |- _ => apply parse_port_count_suffix in H
  | H : parse_fmts _ _ _ = Some _ |- _ => apply parse_fmts_suffix in H
  end. etrans; [|apply drop_2_suffix]. suffix_chain.
Qed.
Lemma parse_attr_value_suffix s v r : parse_attr_value s = Some (v, r) -> r `suffix_of` s.
Proof.
  unfold parse_attr_value. destruct (_ && _); [|by intros [= _ <-]]. intros H.
  apply bind_Some in H as (s1 & H1 & H).
  assert (Hs1 : s1 `suffix_of` s).
  { destruct (_ =? 58); [|by injection H1 as ->]. destruct (get_char s) as [[c s2]|] eqn:E; [|done].
    injection H1 as ->. suffix_chain. }
  destruct (negb _); [|by injection H as _ <-]. suffix_facts. by etrans.
Qed.
Lemma parse_attr_moves : moves parse_attr.
Proof.
  intros s x r H. unfold parse_attr in H. parse_inv.
  repeat match goal with H : parse_attr_value _ = Some _ |- _ => apply parse_attr_value_suffix in H end.
  etrans; [|apply drop_2_suffix]. suffix_chain.
Qed.
Lemma parse_version_moves s r : parse_version s = Some r -> r `suffix_of` drop 1 s.
Proof.
  unfold parse_version. intros H. parse_inv. destruct s as [|c s]; [done|]. apply skip_line_progress.
Qed.

Lemma line_of_Next {A} (p : pj_str -> option (A * pj_str)) e s k st' s' :
  moves p -> line_of e (p s) k = Next st' s' -> s' `suffix_of` drop 1 s /\ exists x, p s = Some (x, s') /\ st' = k x.
Proof.
  intros Hm. unfold line_of. destruct (p s) as [[x r]|] eqn:E; [|done].
  intros [= <- <-]. split; [by eapply Hm|]. by exists x.
Qed.
Create HintDb sdp_moves.
#[export] Hint Resolve parse_origin_moves parse_time_moves parse_generic_line_moves
  parse_connection_info_moves parse_bandwidth_info_moves parse_media_moves parse_attr_moves : sdp_moves.

(** ** What a line does to the description *)

(** The cases of a round that goes on. *)
Inductive line_step (st : parse_state) (s : pj_str) : parse_state -> Prop :=
| step_attr a : line_step st s (on_current st (fun m => pjmedia_sdp_media_add_attr m a)
                    (fun ses => pjmedia_sdp_session_add_attr ses a))
| step_origin o : is_u32 (o_id o) -> is_u32 (o_version o) ->
    line_step st s (on_session st (fun ses => with_origin ses o))
| step_name n : line_step st s (on_session st (fun ses => with_name ses n))
| step_conn c : line_step st s (on_current st (fun m => with_conn m (Some c)) (fun ses => with_session_conn ses c))
| step_time t1 t2 : is_u32 t1 -> is_u32 t2 -> line_step st s (on_session st (fun ses => with_time ses t1 t2))
| step_media m : is_u16 (m_port m) -> is_u32 (m_port_count m) ->
    (length (m_fmt m) <= PJMEDIA_MAX_SDP_FMT)%nat -> m_bandw m = [] -> m_attr m = [] ->
    line_step st s (add_media st m)
| step_bandw b : is_u32 (bandw_value b) -> first_char s = 98 ->
    (length (current_bandw st) < PJMEDIA_MAX_SDP_BANDW)%nat ->
    line_step st s (on_current st (fun m => with_bandw m (m_bandw m ++ [b]))
                      (fun ses => with_session_bandw ses (s_bandw ses ++ [b])))
| step_none : line_step st s st.

Lemma parse_fmts_bound fuel : forall fmts s fmts' r,
  parse_fmts fuel fmts s = Some (fmts', r) -> (length fmts <= PJMEDIA_MAX_SDP_FMT)%nat ->
  (length fmts' <= PJMEDIA_MAX_SDP_FMT)%nat.
Proof.
  induction fuel as [|fuel IH]; intros fmts s fmts' r; [done|]. cbn [parse_fmts].
  destruct (first_char s =? 32); [|by intros [= <- _]].
  intros H Hl. parse_inv. destruct (PJ_SCAN_IS_NEWLINE _); parse_inv; [done|].
  apply IH in H; [done|]. destruct (Nat.ltb_spec (length fmts) PJMEDIA_MAX_SDP_FMT); [|done].
  rewrite length_app. cbn. lia.
Qed.

Lemma parse_port_count_range s n r : parse_port_count s = Some (n, r) -> is_u32 n.
Proof.
  unfold parse_port_count. destruct (_ =? 47); intros H; parse_inv; [apply u32_range|]. red. lia.
Qed.

Ltac line_case :=
  match goal with
  | |- (if ?c =? ?k then _ else _) = _ -> _ =>
      destruct (Z.eqb_spec c k) as [?|?];
      [intros H; apply line_of_Next in H as (Hm & x & Hx & ->); [split; [exact Hm|]|eauto with sdp_moves]|]
  end.

Lemma parse_line_step st s st' s' :
  s <> [] -> parse_line st s = Next st' s' -> s' `suffix_of` drop 1 s /\ line_step st s st'.
Proof.
  intros Hs. unfold parse_line. cbv zeta.
  line_case; [by apply step_attr|].
  line_case.
  { unfold parse_origin in Hx. parse_inv. apply step_origin; apply u32_range. }
  line_case; [by apply step_name|].
  line_case; [by apply step_conn|].
  line_case.
  { unfold parse_time in Hx. parse_inv. apply step_time; apply u32_range. }
  line_case.
  { unfold parse_media in Hx. parse_inv. apply step_media; [apply u16_range| | |done|done].
    - by eapply parse_port_count_range.
    - eapply parse_fmts_bound; [done|cbn; lia]. }
  destruct (Z.eqb_spec (first_char s) 118) as [?|?].
  { destruct (parse_version s) as [r|] eqn:E; cbn; [|done]. intros [= <- <-].
    split; [by apply parse_version_moves|constructor]. }
  destruct (PJ_SCAN_IS_NEWLINE (first_char s)).
  { destruct (forallb _ _); [|done]. intros [= <- <-]. split; [apply suffix_nil|constructor]. }
  destruct (Z.eqb_spec (first_char s) 98) as [Hb|_].
  { destruct (parse_bandwidth_info s) as [[b r]|] eqn:E; [|done].
    destruct (Nat.ltb_spec (length (current_bandw st)) PJMEDIA_MAX_SDP_BANDW); [|done].
    intros [= <- <-]. split; [by eapply parse_bandwidth_info_moves|].
    apply step_bandw; [|done|done]. unfold parse_bandwidth_info in E. parse_inv. apply u32_range. }
  destruct (_ && _); [|done]. intros H. apply line_of_Next in H as (Hm & x & Hx & ->);
    [|eauto with sdp_moves]. split; [done|constructor].
Qed.

(** ** The bounds of the structures *)

Definition bandw_ok (l : list pjmedia_sdp_bandw) : Prop :=
  (length l <= PJMEDIA_MAX_SDP_BANDW)%nat /\ Forall (fun b => is_u32 (bandw_value b)) l.
Definition attrs_ok (l : list pjmedia_sdp_attr) : Prop := (length l <= PJMEDIA_MAX_SDP_ATTR)%nat.

Record media_ok (m : pjmedia_sdp_media) : Prop := {
  mo_port : is_u16 (m_port m);
  mo_count : is_u32 (m_port_count m);
  mo_fmt : (length (m_fmt m) <= PJMEDIA_MAX_SDP_FMT)%nat;
  mo_bandw : bandw_ok (m_bandw m);
  mo_attr : attrs_ok (m_attr m);
}.

Record session_ok (s : pjmedia_sdp_session) : Prop := {
  so_id : is_u32 (o_id (s_origin s));
  so_version : is_u32 (o_version (s_origin s));
  so_start : is_u32 (s_time_start s);
  so_stop : is_u32 (s_time_stop s);
  so_bandw : bandw_ok (s_bandw s);
  so_attr : attrs_ok (s_attr s);
  so_media : (length (s_media s) <= PJMEDIA_MAX_SDP_MEDIA)%nat /\ Forall media_ok (s_media s);
}.

(** The media complete so far leave room for the one under construction. *)
Definition state_ok (st : parse_state) : Prop :=
  session_ok (with_media (ps_session st) (finished st)) /\
  match ps_media st with Some (_, m) => media_ok m | None => True end.

Lemma attr_add_ok l a : attrs_ok l -> attrs_ok (pjmedia_sdp_attr_add l a).2.
Proof.
  unfold attrs_ok, pjmedia_sdp_attr_add. intros H.
  destruct (Nat.ltb_spec (length l) PJMEDIA_MAX_SDP_ATTR); cbn [snd]; [|done]. rewrite length_app; cbn [length]; lia.
Qed.
Lemma bandw_add_ok l b :
  bandw_ok l -> is_u32 (bandw_value b) -> (length l < PJMEDIA_MAX_SDP_BANDW)%nat -> bandw_ok (l ++ [b]).
Proof.
  intros [H1 H2] Hb Hl. split; [rewrite length_app; cbn [length]; lia|]. by apply Forall_app_2; [|constructor].
Qed.
Lemma add_attr_ok m a : media_ok m -> media_ok (pjmedia_sdp_media_add_attr m a).
Proof. intros []. constructor; try done. by apply attr_add_ok. Qed.

(** A change of the media under construction, or of the session when there is
    none, that respects the bounds. *)
Lemma on_current_ok st f g :
  state_ok st -> (forall m, ps_media st <> None -> media_ok m -> current_bandw st = m_bandw m -> media_ok (f m)) ->
  (forall s, current_bandw st = s_bandw s -> session_ok s -> session_ok (g s)) ->
  (forall s l, with_media (g s) l = g (with_media s l) /\ s_media (g s) = s_media s) ->
  state_ok (on_current st f g).
Proof.
  intros [Hs Hm] Hf Hg Hgm. unfold state_ok, on_current, finished, current_bandw in *.
  destruct st as [ses [[stored m]|]]; cbn in *.
  - specialize (Hf m ltac:(done) Hm eq_refl). split; [|done]. destruct stored; [|done].
    destruct Hs as [? ? ? ? ? ? [Hl HF]]. cbn in *. constructor; try done.
    cbn. split; [by rewrite length_app in *|]. apply Forall_app in HF as [HF _].
    by apply Forall_app_2; [|constructor].
  - split; [|done]. destruct (Hgm ses (s_media ses ++ [])) as [H1 H2]. rewrite H2, H1. by apply Hg.
Qed.

Lemma finished_add st m :
  finished (add_media st m) =
  finished st ++ (if (length (finished st) <? PJMEDIA_MAX_SDP_MEDIA)%nat then [m] else []).
Proof.
  unfold add_media. unfold finished at 1. cbn [ps_session ps_media s_media with_media].
  by destruct (_ <? _)%nat.
Qed.

Lemma line_step_ok st s st' : state_ok st -> line_step st s st' -> state_ok st'.
Proof.
  intros Hst Hstep. destruct Hstep as [a|o ? ?|n|c|t1 t2 ? ?|m ? ? ? Hb Ha|b ? _ Hl|].
  - apply on_current_ok; [done|intros m _ Hm _; by apply add_attr_ok| |by intros [] l].
    intros ses _ []. constructor; try done. by apply attr_add_ok.
  - destruct Hst as [[] Hm]. split; [|done]. by constructor.
  - destruct Hst as [[] Hm]. split; [|done]. by constructor.
  - apply on_current_ok; [done|by intros m _ [] _|by intros ses _ []|by intros [] l].
  - destruct Hst as [[] Hm]. split; [|done]. by constructor.
  - destruct Hst as [Hs Hm].
    assert (Hmo : media_ok m).
    { constructor; try done; [rewrite Hb|rewrite Ha]; [split; [cbn; lia|constructor]|].
      red. cbn. lia. }
    split; [|done]. rewrite finished_add. destruct Hs as [? ? ? ? ? ? [Hlen HF]].
    change (s_media (with_media (ps_session st) (finished st))) with (finished st) in *.
    constructor; try done. cbn [s_media with_media].
    destruct (Nat.ltb_spec (length (finished st)) PJMEDIA_MAX_SDP_MEDIA); [|by rewrite app_nil_r].
    split; [rewrite length_app; cbn [length]; lia|]. by apply Forall_app_2; [|constructor].
  - apply on_current_ok; [done| | |by intros [] l].
    + intros m _ [] He. rewrite He in Hl. constructor; try done. by apply bandw_add_ok.
    + intros ses He []. rewrite He in Hl. constructor; try done. by apply bandw_add_ok.
  - done.
Qed.

Lemma parse_lines_ok fuel : forall st s sdp,
  state_ok st -> parse_lines fuel st s = Parsed sdp -> session_ok sdp.
Proof.
  induction fuel as [|fuel IH]; intros st s sdp Hst; cbn [parse_lines].
  - destruct (pj_scan_is_eof s); [|done]. intros [= <-]. apply Hst.
  - destruct (pj_scan_is_eof s) eqn:Ee; [intros [= <-]; apply Hst|].
    destruct (parse_line st s) as [st' s'| |] eqn:El; [|done|done].
    apply parse_line_step in El as [_ Hstep]; [|by intros ->]. apply IH. by eapply line_step_ok.
Qed.

Lemma apply_direction_ok sdp : session_ok sdp -> session_ok (apply_media_direction sdp).
Proof.
  intros Hs. unfold apply_media_direction. destruct (find_session_dir (s_attr sdp)) as [[i a]|]; [|done].
  destruct Hs as [? ? ? ? ? Ha [Hl HF]]. constructor; try done; cbn.
  - unfold attrs_ok, pjmedia_sdp_attr_remove in *. destruct (Nat.ltb_spec i (length (s_attr sdp))) as [Hi|]; cbn [snd]; [|done].
    etrans; [|exact Ha]. rewrite length_delete by (by apply lookup_lt_is_Some_2). lia.
  - split; [by rewrite length_fmap|]. apply Forall_fmap. eapply list.Forall_impl; [exact HF|].
    intros m Hm. cbn. destruct (existsb _ _); [done|]. by apply add_attr_ok.
Qed.

Lemma empty_ok : state_ok (mk_parse empty_session None).
Proof.
  split; [|done]. constructor; cbn; try (red; cbn; lia).
  - split; [cbn; lia|constructor].
  - split; [cbn; lia|constructor].
Qed.

(** A description that the parser returns is within the bounds of its
    structures: at most 16 media, 32 formats, 68 attributes and 4 bandwidth
    lines, ports of 16 bits and numbers of 32 bits, whatever the text. *)
Theorem parsed_session_ok buf sdp :
  pjmedia_sdp_parse buf = Some (PJ_SUCCESS, Some sdp) -> session_ok sdp.
Proof.
  unfold pjmedia_sdp_parse.
  destruct (parse_lines _ _ _) as [s|e| |] eqn:E; [|done..]. intros [= <-].
  apply apply_direction_ok. by eapply parse_lines_ok; [apply empty_ok|].
Qed.

(** ** The parser returns *)

(** The places where a bandwidth line could start. *)
Definition count_b (s : pj_str) : nat := length (filter (fun c => c = 98) s).

Lemma count_b_suffix s r : r `suffix_of` s -> (count_b r <= count_b s)%nat.
Proof. intros [t ->]. unfold count_b. rewrite list.filter_app, length_app. lia. Qed.

Lemma count_b_cons s : count_b (98 :: s) = S (count_b s).
Proof. unfold count_b. by rewrite list.filter_cons, decide_True. Qed.

Lemma line_step_current st s st' :
  line_step st s st' ->
  current_bandw st' = [] \/ current_bandw st' = current_bandw st \/
  first_char s = 98 /\ exists b, current_bandw st' = current_bandw st ++ [b].
Proof.
  unfold current_bandw. destruct 1 as [a|o ? ?|n|k|t1 t2 ? ?|m ? ? ? Hb Ha|b ? Hf Hl|];
    unfold on_current; [| | | | |by left| |by right; left];
    try (destruct (ps_media st) as [[? ?]|] eqn:E; cbn [ps_media on_session]; rewrite ?E; by right; left).
  destruct (ps_media st) as [[? ?]|]; right; right; eauto.
Qed.

Lemma line_step_bandw st s st' s' :
  s <> [] -> s' `suffix_of` drop 1 s -> line_step st s st' ->
  (length (current_bandw st) + count_b s <= PJMEDIA_MAX_SDP_BANDW)%nat ->
  (length (current_bandw st') + count_b s' <= PJMEDIA_MAX_SDP_BANDW)%nat.
Proof.
  intros Hs Hsuf Hstep Hc. destruct s as [|c s]; [done|]. apply count_b_suffix in Hsuf. change (drop 1 (c :: s)) with s in Hsuf.
  assert (Hle : (count_b s <= count_b (c :: s))%nat) by (apply count_b_suffix; by apply suffix_cons_r).
  apply line_step_current in Hstep as [->|[->|(Hf & b & ->)]]; [cbn [length]; lia|lia|].
  change (c = 98) in Hf. subst c. rewrite count_b_cons in Hc. rewrite length_app. cbn [length]. lia.
Qed.

Lemma parse_line_overrun st s :
  parse_line st s = Overrun ->
  first_char s = 98 /\ (PJMEDIA_MAX_SDP_BANDW <= length (current_bandw st))%nat.
Proof.
  assert (Hno : forall A e (r : option (A * pj_str)) k, line_of e r k <> Overrun).
  { intros A e [[x r]|] k; done. }
  unfold parse_line. cbv zeta. do 7 (destruct (_ =? _); [by intros H%Hno|]).
  destruct (PJ_SCAN_IS_NEWLINE _); [by destruct (forallb _ _)|].
  destruct (Z.eqb_spec (first_char s) 98) as [Hf|_].
  - destruct (parse_bandwidth_info s) as [[b r]|]; [|done].
    destruct (Nat.ltb_spec (length (current_bandw st)) PJMEDIA_MAX_SDP_BANDW); done.
  - destruct (_ && _); [by intros H%Hno|done].
Qed.

Lemma parse_line_throw st s e : parse_line st s = Throw e -> e <> PJ_SUCCESS.
Proof.
  assert (Hno : forall A e' (r : option (A * pj_str)) k, e' <> PJ_SUCCESS -> line_of e' r k = Throw e -> e <> PJ_SUCCESS).
  { intros A e' [[x r]|] k He'; [done|]. by intros [= <-]. }
  unfold parse_line. cbv zeta. do 7 (destruct (_ =? _); [by apply Hno|]).
  destruct (PJ_SCAN_IS_NEWLINE _); [destruct (forallb _ _); [done|by intros [= <-]]|].
  destruct (_ =? 98); [|destruct (_ && _); [by apply Hno|by intros [= <-]]].
  destruct (parse_bandwidth_info s) as [[b r]|]; [|by intros [= <-]]. by destruct (_ <? _)%nat.
Qed.

Lemma parse_lines_returns fuel : forall st s,
  (length s <= fuel)%nat -> (length (current_bandw st) + count_b s <= PJMEDIA_MAX_SDP_BANDW)%nat ->
  (exists sdp, parse_lines fuel st s = Parsed sdp) \/
  (exists e, parse_lines fuel st s = ParseError e /\ e <> PJ_SUCCESS).
Proof.
  induction fuel as [|fuel IH]; intros st s Hl Hc; cbn [parse_lines].
  - destruct s; [|cbn in Hl; lia]. left. by eexists.
  - destruct (pj_scan_is_eof s) eqn:Ee; [left; by eexists|].
    assert (Hs : s <> []) by (by intros ->).
    destruct (parse_line st s) as [st' s'|e|] eqn:El.
    + apply parse_line_step in El as [Hsuf Hstep]; [|done]. apply IH.
      * apply suffix_length in Hsuf. rewrite length_drop in Hsuf. lia.
      * by eapply line_step_bandw.
    + right. exists e. split; [done|]. by eapply parse_line_throw.
    + apply parse_line_overrun in El as [Hf Hb]. exfalso.
      destruct s as [|c s]; [done|]. change (c = 98) in Hf. subst c. rewrite count_b_cons in Hc. lia.
Qed.

(** The parser returns for every text, within one round per character: with a
    description, or with an error and none; it stays within the arrays of
    bandwidth lines when the text has at most four of them. *)
Theorem sdp_parse_returns buf :
  (count_b buf <= PJMEDIA_MAX_SDP_BANDW)%nat ->
  exists status sdp, pjmedia_sdp_parse buf = Some (status, sdp) /\ (status = PJ_SUCCESS <-> is_Some sdp).
Proof.
  intros Hb. unfold pjmedia_sdp_parse.
  assert (Hs : skip_newlines buf `suffix_of` buf).
  { clear. induction buf as [|c s IH]; cbn; [done|]. destruct (PJ_SCAN_IS_NEWLINE c); [|done].
    by apply suffix_cons_r. }
  destruct (parse_lines_returns (length (skip_newlines buf)) (mk_parse empty_session None) (skip_newlines buf))
    as [[sdp ->]|(e & -> & He)]; [lia| | |].
  - apply count_b_suffix in Hs. cbn in *. lia.
  - by eexists _, _.
  - eexists _, _. split; [done|]. split; [done|]. by intros [? ?].
Qed.
