(* ===== verification/SdpPrint.v ===== *)
(** * Printing session descriptions

    Model of [pjmedia_sdp_print] of [pjmedia/src/pjmedia/sdp.c], and the round
    trip with [pjmedia_sdp_parse].

    A printer gets the room left in the buffer and gives the bytes it wrote, or
    [Refused] for the result -1, or [PrintOverrun] when the code stores a byte
    behind the end of the buffer: the checks of the code estimate the room a
    line needs. *)

From Stdlib Require Import ZArith Lia Bool String.
From stdpp Require Import base list numbers option.
From S2P Require Import Prelude.
From S2P Require Import PjString.
From S2P Require Import Scanner.
From S2P Require Import Sdp.
From S2P Require Import SdpParse.
Local Open Scope Z_scope.

Inductive printed :=
| Printed (s : pj_str)
| Refused
| PrintOverrun.

Definition printer : Type := Z -> printed.

(** Stores of the bytes [s]; a test of the room; one printer after another. *)
Definition put (s : pj_str) : printer :=
  fun len => if Z.of_nat (length s) <=? len then Printed s else PrintOverrun.
Definition require (n : Z) : printer := fun len => if len <? n then Refused else Printed [].
Definition andthen (p q : printer) : printer :=
  fun len =>
    match p len with
    | Printed s =>
        match q (len - Z.of_nat (length s)) with
        | Printed t => Printed (s ++ t)
        | e => e
        end
    | e => e
    end.
Declare Scope printer_scope.
Notation "p >+> q" := (andthen p q) (at level 60, right associativity) : printer_scope.
Local Open Scope printer_scope.

Fixpoint print_each {A} (f : A -> printer) (l : list A) : printer :=
  match l with
  | [] => require 0
  | x :: l => f x >+> print_each f l
  end.

Definition slen (s : pj_str) : Z := Z.of_nat (length s).
Definition CRLF : pj_str := [13; 10].

(** [%.*s] stops at a NUL. *)
Fixpoint until_nul (s : pj_str) : pj_str :=
  match s with
  | c :: s => if c =? 0 then [] else c :: until_nul s
  | [] => []
  end.

(** ** The lines *)

Definition conn_text (c : pjmedia_sdp_conn) : pj_str :=
  [99; 61] ++ until_nul (conn_net_type c) ++ [32] ++ until_nul (conn_addr_type c) ++ [32] ++
  until_nul (conn_addr c) ++ CRLF.
Definition print_connection_info (c : pjmedia_sdp_conn) : printer :=
  fun len => if len <=? slen (conn_text c) then Refused else Printed (conn_text c).

Definition bandw_text (b : pjmedia_sdp_bandw) : pj_str :=
  [98; 61] ++ bandw_modifier b ++ [58] ++ pj_utoa (bandw_value b) ++ CRLF.
Definition print_bandw (b : pjmedia_sdp_bandw) : printer :=
  require (slen (bandw_modifier b) + 10 + 5) >+> put (bandw_text b).

Definition attr_text (a : pjmedia_sdp_attr) : pj_str :=
  [97; 61] ++ attr_name a ++
  (if (length (attr_value a) =? 0)%nat then [] else 58 :: attr_value a) ++ CRLF.
Definition print_attr (a : pjmedia_sdp_attr) : printer :=
  require (slen (attr_name a) + slen (attr_value a) + 10) >+> put (attr_text a).

Definition media_line_text (m : pjmedia_sdp_media) : pj_str :=
  [109; 61] ++ m_media m ++ [32] ++ pj_utoa (m_port m) ++
  (if 1 <? m_port_count m then 47 :: pj_utoa (m_port_count m) else []) ++
  [32] ++ m_transport m ++ concat (map (fun f => 32 :: f) (m_fmt m)) ++ CRLF.
Definition print_media_desc (m : pjmedia_sdp_media) : printer :=
  require (slen (m_media m) + slen (m_transport m) + 12 + 24) >+>
  put (media_line_text m) >+>
  match m_conn m with Some c => print_connection_info c | None => require 0 end >+>
  print_each print_bandw (m_bandw m) >+>
  print_each print_attr (m_attr m).

Definition version_line : pj_str := cstr "v=0" ++ CRLF.
Definition origin_text (o : sdp_origin) : pj_str :=
  [111; 61] ++ o_user o ++ [32] ++ pj_utoa (o_id o) ++ [32] ++ pj_utoa (o_version o) ++ [32] ++
  o_net_type o ++ [32] ++ o_addr_type o ++ [32] ++ o_addr o ++ CRLF.
Definition name_text (n : pj_str) : pj_str := [115; 61] ++ n ++ CRLF.
Definition time_text (start stop : Z) : pj_str :=
  [116; 61] ++ pj_utoa start ++ [32] ++ pj_utoa stop ++ CRLF.

Definition print_session (ses : pjmedia_sdp_session) : printer :=
  let o := s_origin ses in
  require (5 + 2 + slen (o_user o) + 18 + slen (o_net_type o) + slen (o_addr o) + 2) >+>
  put version_line >+>
  put (origin_text o) >+>
  require (8 + slen (s_name ses)) >+>
  put (name_text (s_name ses)) >+>
  match s_conn ses with Some c => print_connection_info c | None => require 0 end >+>
  print_each print_bandw (s_bandw ses) >+>
  require 24 >+>
  put (time_text (s_time_start ses) (s_time_stop ses)) >+>
  print_each print_attr (s_attr ses) >+>
  print_each print_media_desc (s_media ses).

Definition pjmedia_sdp_print (desc : pjmedia_sdp_session) (size : Z) : printed :=
  print_session desc size.

(** * The text of a description *)

Definition opt_text {A} (f : A -> pj_str) (x : option A) : pj_str :=
  match x with Some x => f x | None => [] end.
Definition each_text {A} (f : A -> pj_str) (l : list A) : pj_str := concat (map f l).

Definition media_text (m : pjmedia_sdp_media) : pj_str :=
  media_line_text m ++ opt_text conn_text (m_conn m) ++ each_text bandw_text (m_bandw m) ++
  each_text attr_text (m_attr m).
Definition sdp_text (ses : pjmedia_sdp_session) : pj_str :=
  version_line ++ origin_text (s_origin ses) ++ name_text (s_name ses) ++
  opt_text conn_text (s_conn ses) ++ each_text bandw_text (s_bandw ses) ++
  time_text (s_time_start ses) (s_time_stop ses) ++ each_text attr_text (s_attr ses) ++
  each_text media_text (s_media ses).

(** [p] writes [s] wherever there is room for it and [k] bytes more. *)
Definition prints (k : Z) (p : printer) (s : pj_str) : Prop :=
  forall len, slen s + k <= len -> p len = Printed s.

Lemma slen_app s t : slen (s ++ t) = slen s + slen t.
Proof. unfold slen. rewrite length_app. lia. Qed.
Lemma slen_cons c s : slen (c :: s) = 1 + slen s.
Proof. unfold slen. cbn [length]. lia. Qed.
Lemma slen_nil : slen [] = 0.
Proof. done. Qed.
Lemma slen_nonneg s : 0 <= slen s.
Proof. unfold slen. lia. Qed.
Create Rewrite HintDb slen.
#[local] Hint Rewrite slen_app slen_cons slen_nil : slen.

Lemma prints_put k s : 0 <= k -> prints k (put s) s.
Proof. intros Hk len Hl. unfold put. fold (slen s). by rewrite (proj2 (Z.leb_le _ _)) by lia. Qed.
Lemma prints_andthen k p q s t : prints k p s -> prints k q t -> prints k (p >+> q) (s ++ t).
Proof.
  intros Hp Hq len Hl. unfold andthen. rewrite slen_app in Hl. pose proof (slen_nonneg t).
  rewrite Hp, Hq by (fold (slen s); lia). done.
Qed.
Lemma prints_require k n p s : n <= slen s + k -> prints k p s -> prints k (require n >+> p) s.
Proof.
  intros Hn Hp len Hl. unfold andthen, require. destruct (Z.ltb_spec len n); [lia|].
  cbn [length Z.of_nat]. rewrite Z.sub_0_r, Hp by done. done.
Qed.
Lemma prints_nothing k : 0 <= k -> prints k (require 0) [].
Proof. intros Hk len Hl. unfold require. rewrite slen_nil in Hl. by destruct (Z.ltb_spec len 0); [lia|]. Qed.
Lemma prints_each {A} k (f : A -> printer) (g : A -> pj_str) l :
  0 <= k -> (forall x, x ∈ l -> prints k (f x) (g x)) -> prints k (print_each f l) (each_text g l).
Proof.
  intros Hk. induction l as [|x l IH]; intros H; cbn; [by apply prints_nothing|].
  apply prints_andthen; [apply H; by left|]. apply IH. intros y Hy. apply H. by right.
Qed.

(** The largest of the margins the code asks for: that of a media line. *)
Definition MARGIN : Z := 36.

Lemma conn_prints c : prints MARGIN (print_connection_info c) (conn_text c).
Proof.
  intros len Hl. unfold print_connection_info, MARGIN in *. by destruct (Z.leb_spec len (slen (conn_text c))); [lia|].
Qed.
Lemma opt_conn_prints c :
  prints MARGIN match c with Some c => print_connection_info c | None => require 0 end (opt_text conn_text c).
Proof. destruct c as [c|]; [apply conn_prints|by apply prints_nothing]. Qed.

Ltac print_room :=
  unfold MARGIN; autorewrite with slen;
  repeat match goal with |- context [slen ?s] => lazymatch goal with H : 0 <= slen s |- _ => fail | _ => pose proof (slen_nonneg s) end end;
  lia.

Lemma bandw_prints b : prints MARGIN (print_bandw b) (bandw_text b).
Proof. apply prints_require; [unfold bandw_text, CRLF; print_room|by apply prints_put]. Qed.
Lemma attr_prints a : prints MARGIN (print_attr a) (attr_text a).
Proof.
  apply prints_require; [|by apply prints_put].
  unfold attr_text, CRLF. destruct (attr_value a) as [|c v]; cbn [length Nat.eqb]; print_room.
Qed.
Lemma media_prints m : prints MARGIN (print_media_desc m) (media_text m).
Proof.
  unfold print_media_desc, media_text. apply prints_require.
  - unfold media_line_text, CRLF. print_room.
  - apply prints_andthen; [by apply prints_put|]. apply prints_andthen; [apply opt_conn_prints|].
    apply prints_andthen; apply prints_each; intros; [done|apply bandw_prints|done|apply attr_prints].
Qed.

(** Printed into a buffer with 36 bytes to spare, a description gives its
    text, whatever it holds: no line is refused and nothing is written behind
    the buffer. *)
Theorem sdp_print_complete ses size :
  slen (sdp_text ses) + MARGIN <= size -> pjmedia_sdp_print ses size = Printed (sdp_text ses).
Proof.
  intros Hl. revert size Hl. change (prints MARGIN (print_session ses) (sdp_text ses)).
  unfold print_session, sdp_text. cbv zeta. apply prints_require.
  { unfold version_line, origin_text, CRLF. print_room. }
  apply prints_andthen; [by apply prints_put|]. apply prints_andthen; [by apply prints_put|].
  apply prints_require; [unfold name_text, CRLF; print_room|].
  apply prints_andthen; [by apply prints_put|]. apply prints_andthen; [apply opt_conn_prints|].
  apply prints_andthen; [by apply prints_each; [|intros; apply bandw_prints]|].
  apply prints_require; [unfold time_text, CRLF; print_room|].
  apply prints_andthen; [by apply prints_put|].
  apply prints_andthen; [by apply prints_each; [|intros; apply attr_prints]|].
  by apply prints_each; [|intros; apply media_prints].
Qed.

(** * Reading a printed description back *)

(** Words have no white space or control character; lines no line break. *)
Definition is_word (s : pj_str) : Prop := Forall (fun c => 32 < c) s.
Definition is_line (s : pj_str) : Prop := Forall (fun c => c <> 13 /\ c <> 10) s.

Definition conn_wf (c : pjmedia_sdp_conn) : Prop :=
  is_word (conn_net_type c) /\ is_word (conn_addr_type c) /\ is_word (conn_addr c) /\ 47 ∉ conn_addr c.
Definition bandw_wf (b : pjmedia_sdp_bandw) : Prop :=
  is_word (bandw_modifier b) /\ (58 ∉ bandw_modifier b) /\ is_u32 (bandw_value b).
Definition attr_wf (a : pjmedia_sdp_attr) : Prop := is_token (attr_name a) /\ is_line (attr_value a).

(** A port count of one is printed as none. *)
Record media_wf (m : pjmedia_sdp_media) : Prop := {
  mw_media : is_word (m_media m);
  mw_port : is_u16 (m_port m);
  mw_count : is_u32 (m_port_count m) /\ m_port_count m <> 1;
  mw_transport : is_word (m_transport m);
  mw_fmt : (length (m_fmt m) <= PJMEDIA_MAX_SDP_FMT)%nat /\ Forall is_token (m_fmt m);
  mw_conn : forall c, m_conn m = Some c -> conn_wf c;
  mw_bandw : (length (m_bandw m) <= PJMEDIA_MAX_SDP_BANDW)%nat /\ Forall bandw_wf (m_bandw m);
  mw_attr : (length (m_attr m) <= PJMEDIA_MAX_SDP_ATTR)%nat /\ Forall attr_wf (m_attr m);
}.

Record session_wf (s : pjmedia_sdp_session) : Prop := {
  sw_user : is_word (o_user (s_origin s));
  sw_id : is_u32 (o_id (s_origin s)) /\ is_u32 (o_version (s_origin s));
  sw_type : is_word (o_net_type (s_origin s)) /\ is_word (o_addr_type (s_origin s));
  sw_addr : is_word (o_addr (s_origin s));
  sw_name : is_line (s_name s);
  sw_conn : forall c, s_conn s = Some c -> conn_wf c;
  sw_bandw : (length (s_bandw s) <= PJMEDIA_MAX_SDP_BANDW)%nat /\ Forall bandw_wf (s_bandw s);
  sw_time : is_u32 (s_time_start s) /\ is_u32 (s_time_stop s);
  sw_attr : (length (s_attr s) <= PJMEDIA_MAX_SDP_ATTR)%nat /\ Forall attr_wf (s_attr s);
  sw_media : (length (s_media s) <= PJMEDIA_MAX_SDP_MEDIA)%nat /\ Forall media_wf (s_media s);
}.

(** ** Fields of a line *)

Lemma until_app spec s c r :
  Forall (fun d => spec d = false) s -> spec c = true ->
  pj_scan_get_until false spec (s ++ c :: r) = Some (s, c :: r).
Proof. intros Hs Hc. rewrite scan_until_app by done. by rewrite autoskip_off. Qed.

(** A field that ends at a blank. *)
Lemma until_blank s r : is_word s -> get_until_ch 32 (s ++ 32 :: r) = Some (s, 32 :: r).
Proof.
  intros Hs. apply until_app; [|done]. eapply list.Forall_impl; [exact Hs|]. intros c Hc. cbv beta in *.
  apply Z.eqb_neq. lia.
Qed.

(** A field that ends at a line break, or at another character of the set. *)
Lemma until_break extra s r :
  is_word s -> Forall (fun c => c ∉ extra) s -> get_until_chr (extra ++ LINE_END) (s ++ 13 :: r) = Some (s, 13 :: r).
Proof.
  intros Hs He. apply until_app.
  - apply Forall_forall. intros c Hc. pose proof (proj1 (Forall_forall _ _) Hs c Hc) as H1.
    pose proof (proj1 (Forall_forall _ _) He c Hc) as H2. cbv beta in *.
    apply not_true_is_false. intros [d [Hd ->%Z.eqb_eq]]%existsb_exists.
    apply in_app_or in Hd as [Hd|Hd]; [by apply H2, list_elem_of_In|].
    cbn in Hd. intuition lia.
  - apply existsb_exists. exists 13. split; [|done]. apply in_or_app. right. cbn. tauto.
Qed.

Lemma until_eol s r : is_line s -> get_until_chr [13; 10] (s ++ 13 :: r) = Some (s, 13 :: r).
Proof.
  intros Hs. apply until_app; [|done]. eapply list.Forall_impl; [exact Hs|]. intros c [H1 H2]. cbn.
  destruct (Z.eqb_spec c 13), (Z.eqb_spec c 10); done.
Qed.

Lemma get_char_cons c r : c <> 0 -> get_char (c :: r) = Some (c, r).
Proof.
  intros Hc. unfold get_char, pj_scan_get_char. rewrite (proj2 (Z.eqb_neq _ _) Hc). by rewrite autoskip_off.
Qed.

Lemma get_token s r : is_token s -> cs_token (first_char r) = false -> pj_scan_get false cs_token (s ++ r) = Some (s, r).
Proof. intros [H1 H2] Hr. rewrite scan_get_app by done. by rewrite autoskip_off. Qed.

Lemma skip_break r : pj_scan_skip_line (13 :: 10 :: r) = r.
Proof. done. Qed.

Lemma digits_word n : 0 <= n < 2 ^ 64 -> is_word (pj_utoa n).
Proof. intros H. eapply list.Forall_impl; [by apply pj_utoa_digits|]. cbn. intros. lia. Qed.
Lemma digits_token n : 0 <= n < 2 ^ 64 -> is_token (pj_utoa n).
Proof.
  intros H. split; [apply pj_utoa_nonempty|]. eapply list.Forall_impl; [by apply pj_utoa_digits|].
  intros c Hc. cbn in Hc. unfold cs_token, pj_isdigit.
  rewrite (proj2 (Z.leb_le 48 c)), (proj2 (Z.leb_le c 57)) by lia. by rewrite !orb_true_r.
Qed.
Lemma u32_utoa n : is_u32 n -> u32 (pj_strtoul (pj_utoa n)) = n.
Proof. intros H. rewrite strtoul_of_utoa, u32_small by int_lia. done. Qed.
Lemma u32_64 n : is_u32 n -> 0 <= n < 2 ^ 64.
Proof. int_lia. Qed.
Lemma u16_64 n : is_u16 n -> 0 <= n < 2 ^ 64.
Proof. int_lia. Qed.

Lemma until_nul_word s : is_word s -> until_nul s = s.
Proof. induction 1 as [|c s Hc _ IH]; cbn; [done|]. rewrite (proj2 (Z.eqb_neq c 0)) by lia. by rewrite IH. Qed.

Lemma advance_2 a b r : pj_scan_advance_n 2 false (a :: b :: r) = Some r.
Proof. unfold pj_scan_advance_n. cbn [length Nat.ltb Nat.leb drop]. by rewrite autoskip_off. Qed.

Lemma until_break_word s r : is_word s -> get_until_chr LINE_END (s ++ 13 :: r) = Some (s, 13 :: r).
Proof.
  intros Hs. apply (until_break []); [done|]. apply Forall_forall. intros c _. apply not_elem_of_nil.
Qed.

(** One field, then the rest of the line. *)
Ltac read :=
  unfold CRLF; rewrite ?advance_2; cbn [mbind option_bind]; rewrite <- ?app_assoc; cbn [app];
  first
  [ rewrite until_blank by eauto using digits_word, u32_64
  | rewrite get_char_cons by done
  | rewrite get_token by (done || eauto using digits_token, u32_64, u16_64)
  | rewrite until_break_word by eauto using digits_word, u32_64 ];
  cbn [mbind option_bind].

(** The second character of a printed line. *)
Ltac equal_sign := match goal with |- context [has_equal (?c :: 61 :: ?r)] => change (has_equal (c :: 61 :: r)) with true; cbn [negb] end.

Lemma read_origin o r :
  is_word (o_user o) -> is_u32 (o_id o) -> is_u32 (o_version o) -> is_word (o_net_type o) ->
  is_word (o_addr_type o) -> is_word (o_addr o) ->
  parse_origin (origin_text o ++ r) = Some (o, r).
Proof.
  intros H1 H2 H3 H4 H5 H6. unfold parse_origin, origin_text. cbn [app]. equal_sign.
  do 11 read. rewrite !u32_utoa by done. by destruct o.
Qed.

Lemma read_time start stop r :
  is_u32 start -> is_u32 stop -> parse_time (time_text start stop ++ r) = Some (start, stop, r).
Proof.
  intros H1 H2. unfold parse_time, time_text. cbn [app]. equal_sign.
  do 3 read. by rewrite !u32_utoa.
Qed.

Lemma read_name n r : is_line n -> parse_generic_line (name_text n ++ r) = Some (n, r).
Proof.
  intros H. unfold parse_generic_line, name_text. cbn [app]. equal_sign.
  rewrite advance_2. cbn [mbind option_bind]. unfold CRLF. rewrite <- app_assoc. cbn [app].
  rewrite until_eol by done. done.
Qed.

Lemma read_conn c r : conn_wf c -> parse_connection_info (conn_text c ++ r) = Some (c, r).
Proof.
  intros (H1 & H2 & H3 & H4). unfold parse_connection_info, conn_text.
  rewrite !until_nul_word by done. cbn [app]. do 4 read.
  rewrite <- ?app_assoc. cbn [app]. rewrite (until_break [47]).
  - by destruct c.
  - done.
  - apply Forall_forall. intros d Hd Hin%list_elem_of_singleton. subst d. apply H4. by apply list_elem_of_In.
Qed.

Lemma read_bandw b r : bandw_wf b -> parse_bandwidth_info (bandw_text b ++ r) = Some (b, r).
Proof.
  intros (H1 & H2 & H3). unfold parse_bandwidth_info, bandw_text. cbn [app].
  rewrite advance_2. cbn [mbind option_bind]. rewrite <- app_assoc. cbn [app].
  unfold get_until_ch, pj_scan_get_until_ch. rewrite until_app; [|  |done].
  2:{ apply Forall_forall. intros c Hc. apply Z.eqb_neq. intros <-. apply H2. by apply list_elem_of_In. }
  cbn [mbind option_bind]. do 2 read. rewrite u32_utoa by done. by destruct b.
Qed.

Lemma read_attr a r : attr_wf a -> parse_attr (attr_text a ++ r) = Some (a, r).
Proof.
  intros [H1 H2]. unfold parse_attr, attr_text. cbn [app]. equal_sign.
  destruct a as [name value]. cbn [attr_name attr_value] in *.
  rewrite advance_2. cbn [mbind option_bind]. rewrite <- !app_assoc.
  destruct value as [|c v]; cbn [length Nat.eqb app CRLF].
  - rewrite get_token by done. done.
  - rewrite get_token by done. cbn [mbind option_bind]. unfold parse_attr_value.
    change (first_char (58 :: _)) with 58. cbn [Z.eqb PJ_SCAN_IS_NEWLINE orb negb andb Pos.eqb].
    rewrite get_char_cons by done. cbn [fmap option_fmap option_map snd mbind option_bind].
    inversion H2 as [|? ? [Hc1 Hc2] Hv]; subst.
    unfold PJ_SCAN_IS_NEWLINE. change (first_char (c :: _)) with c.
    rewrite (proj2 (Z.eqb_neq c 13)), (proj2 (Z.eqb_neq c 10)) by done. cbn [orb negb].
    unfold CRLF. cbn [app]. change (c :: v ++ 13 :: 10 :: r) with ((c :: v) ++ 13 :: 10 :: r).
    rewrite until_eol by done. done.
Qed.

(** ** The media line *)

Lemma read_fmts todo : forall fuel fmts r,
  (length (concat (map (fun f => 32%Z :: f) todo)) < fuel)%nat ->
  Forall is_token todo -> (length fmts + length todo <= PJMEDIA_MAX_SDP_FMT)%nat ->
  parse_fmts fuel fmts (concat (map (fun f => 32 :: f) todo) ++ 13 :: r) = Some (fmts ++ todo, 13 :: r).
Proof.
  induction todo as [|f todo IH]; intros [|fuel] fmts r Hf Hw Hl; [cbn in Hf; lia| |cbn in Hf; lia|].
  { cbn. by rewrite app_nil_r. }
  apply list.Forall_cons in Hw as [Hw1 Hw]. cbn [map concat parse_fmts app].
  change (first_char (32 :: _)) with 32. cbn [Z.eqb Pos.eqb].
  rewrite get_char_cons by done. cbn [mbind option_bind]. rewrite <- app_assoc.
  pose proof (token_visible f (concat (map (fun f => 32 :: f) todo) ++ 13 :: r) Hw1) as Hv.
  unfold PJ_SCAN_IS_NEWLINE at 1.
  rewrite (proj2 (Z.eqb_neq _ 13)), (proj2 (Z.eqb_neq _ 10)) by lia. cbn [orb].
  rewrite get_token; [|done|by destruct todo].
  cbn [mbind option_bind]. cbn [length] in Hl.
  rewrite (proj2 (Nat.ltb_lt _ _)) by lia. rewrite IH.
  - by rewrite <- app_assoc.
  - cbn in Hf. rewrite length_app in Hf. lia.
  - done.
  - rewrite length_app. cbn [length]. lia.
Qed.

Lemma read_media_line m r :
  media_wf m ->
  parse_media (media_line_text m ++ r) =
    Some (mk_media (m_media m) (m_port m) (m_port_count m) (m_transport m) (m_fmt m) None [] [], r).
Proof.
  intros [H1 H2 [H3 H4] H5 [H6 H7] _ _ _]. unfold parse_media, media_line_text. cbn [app]. equal_sign.
  do 2 read.
  assert (Hport : u16 (pj_strtoul (pj_utoa (m_port m))) = m_port m).
  { rewrite strtoul_of_utoa, u16_small by int_lia. done. }
  assert (Hend : forall s, get_until_chr LINE_END (m_transport m ++
      (concat (map (fun f => 32 :: f) (m_fmt m)) ++ 13 :: s)) =
      Some (m_transport m, concat (map (fun f => 32 :: f) (m_fmt m)) ++ 13 :: s)).
  { intros s. destruct (m_fmt m); [by apply until_break_word|]. cbn. apply until_app; [|done].
    eapply list.Forall_impl; [exact H5|]. intros c Hc. cbv beta in Hc. cbn.
    destruct (Z.eqb_spec c 32), (Z.eqb_spec c 9), (Z.eqb_spec c 13), (Z.eqb_spec c 10); lia || done. }
  set (rest := concat (map (fun f => 32 :: f) (m_fmt m)) ++ 13 :: 10 :: r).
  assert (Htail : ('(transport, s) ← get_until_chr LINE_END (m_transport m ++ rest);
      '(fmts, s) ← parse_fmts (S (length s)) [] s;
      Some (mk_media (m_media m) (u16 (pj_strtoul (pj_utoa (m_port m)))) (m_port_count m) transport fmts None [] [],
            pj_scan_skip_line s)) =
      Some (mk_media (m_media m) (m_port m) (m_port_count m) (m_transport m) (m_fmt m) None [] [], r)).
  { subst rest. rewrite Hend. cbn [mbind option_bind]. rewrite read_fmts.
    - cbn [mbind option_bind app]. by rewrite Hport.
    - rewrite length_app. lia.
    - done.
    - cbn [length]. lia. }
  destruct (Z.ltb_spec 1 (m_port_count m)) as [Hc|Hc]; cbn [app].
  - read. cbn [app]. unfold parse_port_count. change (first_char (47 :: _)) with 47. cbn [Z.eqb Pos.eqb].
    do 2 read. rewrite u32_utoa by done. do 1 read. exact Htail.
  - read. unfold parse_port_count. change (first_char (32 :: _)) with 32. cbn [Z.eqb Pos.eqb mbind option_bind].
    read. replace (m_port_count m) with 0 in * by (unfold is_u32 in *; lia). exact Htail.
Qed.

(** ** Lines in sequence *)

Lemma parse_lines_fuel f1 : forall f2 st s,
  (length s <= f1)%nat -> (length s <= f2)%nat -> parse_lines f1 st s = parse_lines f2 st s.
Proof.
  induction f1 as [|f1 IH]; intros f2 st s H1 H2.
  { destruct s; [|cbn in H1; lia]. by destruct f2. }
  destruct s as [|c s]; [by destruct f2|]. destruct f2 as [|f2]; [cbn in H2; lia|].
  cbn [parse_lines pj_scan_is_eof length Nat.eqb].
  destruct (parse_line st (c :: s)) as [st' s'| |] eqn:El; [|done|done].
  apply parse_line_step in El as [Hsuf _]; [|done].
  apply suffix_length in Hsuf. change (drop 1 (c :: s)) with s in Hsuf. cbn [length] in *. apply IH; lia.
Qed.

(** The rest of the parse from a state. *)
Definition parse_from (st : parse_state) (s : pj_str) : parse_result := parse_lines (length s) st s.

Lemma parse_from_line st st' l r :
  l <> [] -> parse_line st (l ++ r) = Next st' r -> parse_from st (l ++ r) = parse_from st' r.
Proof.
  intros Hl H. unfold parse_from. destruct l as [|c l]; [done|].
  cbn [app length parse_lines pj_scan_is_eof Nat.eqb]. cbn [app] in H. rewrite H.
  apply parse_lines_fuel; rewrite ?length_app; lia.
Qed.

Lemma from_attrs st l r :
  Forall attr_wf l ->
  parse_from st (each_text attr_text l ++ r) =
  parse_from (foldl (fun st a => on_current st (fun m => pjmedia_sdp_media_add_attr m a)
    (fun ses => pjmedia_sdp_session_add_attr ses a)) st l) r.
Proof.
  intros Hl. revert st. induction Hl as [|a l Ha _ IH]; intros st; [done|].
  unfold each_text in *. cbn [map concat foldl]. rewrite <- app_assoc.
  rewrite parse_from_line with (st' := on_current st (fun m => pjmedia_sdp_media_add_attr m a)
    (fun ses => pjmedia_sdp_session_add_attr ses a)); [apply IH|done|].
  unfold parse_line. change (first_char (attr_text a ++ _)) with 97. cbn [Z.eqb Pos.eqb].
  by rewrite read_attr.
Qed.

Lemma from_bandws st l r :
  Forall bandw_wf l -> (length (current_bandw st) + length l <= PJMEDIA_MAX_SDP_BANDW)%nat ->
  parse_from st (each_text bandw_text l ++ r) =
  parse_from (on_current st (fun m => with_bandw m (m_bandw m ++ l))
                (fun ses => with_session_bandw ses (s_bandw ses ++ l))) r.
Proof.
  intros Hl. revert st. induction Hl as [|b l Hb _ IH]; intros st Hc.
  - unfold each_text. cbn. f_equal. unfold on_current.
    destruct st as [[] [[? []]|]]; cbn; by rewrite app_nil_r.
  - unfold each_text in *. cbn [map concat length] in *. rewrite <- app_assoc.
    set (st1 := on_current st (fun m => with_bandw m (m_bandw m ++ [b]))
                (fun ses => with_session_bandw ses (s_bandw ses ++ [b]))).
    assert (Hcur : current_bandw st1 = current_bandw st ++ [b]).
    { subst st1. unfold current_bandw, on_current. by destruct (ps_media st) as [[? ?]|]. }
    rewrite parse_from_line with (st' := st1).
    + rewrite IH by (rewrite Hcur, length_app; cbn [length]; lia). f_equal. subst st1. unfold on_current.
      destruct st as [[] [[? []]|]]; cbn; by rewrite <- app_assoc.
    + done.
    + unfold parse_line. change (first_char (bandw_text b ++ _)) with 98.
      cbn [Z.eqb Pos.eqb PJ_SCAN_IS_NEWLINE orb]. rewrite read_bandw by done.
      by rewrite (proj2 (Nat.ltb_lt _ _)) by lia.
Qed.

Lemma from_conn st c r :
  (forall x, c = Some x -> conn_wf x) ->
  parse_from st (opt_text conn_text c ++ r) =
  parse_from match c with
             | Some c => on_current st (fun m => with_conn m (Some c)) (fun ses => with_session_conn ses c)
             | None => st
             end r.
Proof.
  intros Hc. destruct c as [c|]; [|done]. cbn [opt_text].
  apply parse_from_line; [done|]. unfold parse_line. change (first_char (conn_text c ++ _)) with 99.
  cbn [Z.eqb Pos.eqb]. rewrite read_conn by (by apply Hc). done.
Qed.

(** The attributes added one by one are added. *)
Lemma add_attrs_media m l :
  (length (m_attr m) + length l <= PJMEDIA_MAX_SDP_ATTR)%nat ->
  foldl pjmedia_sdp_media_add_attr m l = with_attr m (m_attr m ++ l).
Proof.
  revert m. induction l as [|a l IH]; intros m Hl; cbn [foldl length] in *.
  { rewrite app_nil_r. by destruct m. }
  rewrite IH; unfold pjmedia_sdp_media_add_attr, pjmedia_sdp_attr_add;
    rewrite (proj2 (Nat.ltb_lt (length (m_attr m)) _)) by lia; cbn [m_attr with_attr snd].
  - by rewrite <- app_assoc.
  - rewrite length_app. cbn [length]. lia.
Qed.
Lemma add_attrs_session s l :
  (length (s_attr s) + length l <= PJMEDIA_MAX_SDP_ATTR)%nat ->
  foldl pjmedia_sdp_session_add_attr s l = with_session_attr s (s_attr s ++ l).
Proof.
  revert s. induction l as [|a l IH]; intros s Hl; cbn [foldl length] in *.
  { rewrite app_nil_r. by destruct s. }
  rewrite IH; unfold pjmedia_sdp_session_add_attr, pjmedia_sdp_attr_add;
    rewrite (proj2 (Nat.ltb_lt (length (s_attr s)) _)) by lia; cbn [s_attr with_session_attr snd].
  - by rewrite <- app_assoc.
  - rewrite length_app. cbn [length]. lia.
Qed.

Lemma fold_on_current st l :
  foldl (fun st a => on_current st (fun m => pjmedia_sdp_media_add_attr m a)
    (fun ses => pjmedia_sdp_session_add_attr ses a)) st l =
  on_current st (fun m => foldl pjmedia_sdp_media_add_attr m l)
    (fun ses => foldl pjmedia_sdp_session_add_attr ses l).
Proof.
  revert st. induction l as [|a l IH]; intros st; cbn [foldl].
  - unfold on_current. by destruct st as [? [[? ?]|]].
  - rewrite IH. unfold on_current. by destruct (ps_media st) as [[? ?]|].
Qed.

Lemma from_media st m r :
  media_wf m -> (length (finished st) < PJMEDIA_MAX_SDP_MEDIA)%nat ->
  parse_from st (media_text m ++ r) =
  parse_from (mk_parse (with_media (ps_session st) (finished st)) (Some (true, m))) r.
Proof.
  intros Hm Hl. unfold media_text. rewrite <- !app_assoc.
  set (m0 := mk_media (m_media m) (m_port m) (m_port_count m) (m_transport m) (m_fmt m) None [] []).
  rewrite parse_from_line with (st' := add_media st m0); [|done|].
  2:{ unfold parse_line. change (first_char (media_line_text m ++ _)) with 109. cbn [Z.eqb Pos.eqb].
      by rewrite read_media_line. }
  destruct Hm as [_ _ _ _ _ Hc [Hb1 Hb2] [Ha1 Ha2]].
  rewrite from_conn by done. unfold add_media. rewrite (proj2 (Nat.ltb_lt _ _)) by done.
  set (ses := with_media (ps_session st) (finished st)).
  set (m1 := with_conn m0 (m_conn m)).
  replace (match m_conn m with Some c => _ | None => _ end) with (mk_parse ses (Some (true, m1)))
    by (subst m1; by destruct (m_conn m)).
  rewrite from_bandws by done. cbn [on_current ps_media ps_session].
  rewrite from_attrs by done. rewrite fold_on_current. cbn [on_current ps_media ps_session].
  rewrite add_attrs_media by done. f_equal. by destruct m.
Qed.

Lemma from_medias l : forall st,
  Forall media_wf l -> (length (finished st) + length l <= PJMEDIA_MAX_SDP_MEDIA)%nat ->
  parse_from st (each_text media_text l) = Parsed (with_media (ps_session st) (finished st ++ l)).
Proof.
  induction l as [|m l IH]; intros st Hw Hl.
  { unfold each_text. cbn. by rewrite app_nil_r. }
  apply list.Forall_cons in Hw as [Hm Hw]. unfold each_text in *. cbn [map concat length] in *.
  rewrite from_media by (done || lia). rewrite IH; [|done|].
  - unfold finished at 1. cbn. by rewrite <- app_assoc.
  - unfold finished at 1. cbn [ps_media ps_session s_media with_media]. rewrite length_app. cbn [length]. lia.
Qed.

Lemma parse_text ses :
  session_wf ses -> parse_from (mk_parse empty_session None) (sdp_text ses) = Parsed ses.
Proof.
  intros [Hu [Hi Hv] [Hn Ha] Haddr Hname Hc [Hb1 Hb2] [Ht1 Ht2] [Hat1 Hat2] [Hm1 Hm2]]. unfold sdp_text.
  rewrite parse_from_line with (st' := mk_parse empty_session None); [|done|done].
  rewrite parse_from_line with (st' := mk_parse (with_origin empty_session (s_origin ses)) None); [|done|].
  2:{ unfold parse_line. change (first_char (origin_text _ ++ _)) with 111. cbn [Z.eqb Pos.eqb].
      by rewrite read_origin. }
  rewrite parse_from_line with (st' := mk_parse (with_name (with_origin empty_session (s_origin ses)) (s_name ses)) None);
    [|done|].
  2:{ unfold parse_line. change (first_char (name_text _ ++ _)) with 115. cbn [Z.eqb Pos.eqb].
      by rewrite read_name. }
  rewrite from_conn by done.
  set (s1 := mk_session (s_origin ses) (s_name ses) (s_conn ses) [] 0 0 [] []).
  replace (match s_conn ses with Some c => _ | None => _ end) with (mk_parse s1 None)
    by (subst s1; by destruct (s_conn ses)).
  rewrite from_bandws by done. cbn [on_current ps_media ps_session].
  rewrite parse_from_line with (st' := mk_parse (with_time (with_session_bandw s1 (s_bandw ses))
    (s_time_start ses) (s_time_stop ses)) None); [|done|].
  2:{ unfold parse_line. change (first_char (time_text _ _ ++ _)) with 116. cbn [Z.eqb Pos.eqb].
      by rewrite read_time. }
  rewrite from_attrs, fold_on_current by done. cbn [on_current ps_media ps_session].
  rewrite add_attrs_session by done. rewrite from_medias by done.
  unfold finished. cbn. by destruct ses.
Qed.

Lemma no_session_dir l : existsb session_dir l = false -> find_session_dir l = None.
Proof.
  induction l as [|a l IH]; cbn; [done|]. destruct (session_dir a); [done|].
  intros H. by rewrite (IH H).
Qed.

(** C10. A well-formed description, printed into a buffer that has room for it and
    parsed again, is the description itself, with a session-level direction
    moved to the media as the parser does; without one, it is unchanged. *)
Theorem sdp_roundtrip ses size :
  session_wf ses -> slen (sdp_text ses) + MARGIN <= size ->
  exists text, pjmedia_sdp_print ses size = Printed text /\
    pjmedia_sdp_parse text = Some (PJ_SUCCESS, Some (apply_media_direction ses)) /\
    (existsb session_dir (s_attr ses) = false -> apply_media_direction ses = ses).
Proof.
  intros Hw Hl. exists (sdp_text ses). split; [by apply sdp_print_complete|]. split.
  - unfold pjmedia_sdp_parse. change (skip_newlines (sdp_text ses)) with (sdp_text ses).
    change (parse_lines (length (sdp_text ses)) _ (sdp_text ses))
      with (parse_from (mk_parse empty_session None) (sdp_text ses)). by rewrite parse_text.
  - intros H. unfold apply_media_direction. by rewrite no_session_dir.
Qed.

(** ** The [rtcp] attribute *)

(** An IPv4 address, made of digits and dots, is read back. *)
Theorem rtcp_roundtrip port addr r0 :
  is_u16 port -> is_token addr ->
  pjmedia_sdp_attr_get_rtcp (pjmedia_sdp_attr_create_rtcp false port addr) r0 =
  (PJ_SUCCESS, mk_rtcp port (cstr "IN") (cstr "IP4") addr).
Proof.
  intros Hp Ha. unfold pjmedia_sdp_attr_get_rtcp, pjmedia_sdp_attr_create_rtcp. cbn [attr_name attr_value].
  rewrite str_eq_refl. cbn [negb].
  pose proof (digits_token port (u16_64 _ Hp)) as Ht. pose proof (token_visible (pj_utoa port)) as Hv.
  rewrite skip_ws_visible by (by apply Hv). rewrite scan_get_app; [|apply Ht|apply Ht|done].
  change (cstr " IN IP4 " ++ addr) with (32 :: (cstr "IN" ++ 32 :: (cstr "IP4" ++ 32 :: addr))).
  assert (Hin : forall s r, is_token s -> scan_autoskip true (32 :: s ++ r) = s ++ r).
  { intros s r Hs. apply autoskip_space. by apply token_visible. }
  rewrite Hin by (split; [done|repeat constructor]). cbv zeta.
  change (pj_scan_is_eof (cstr "IN" ++ _)) with false. cbn match.
  rewrite scan_get_app; [|done|repeat constructor|done].
  rewrite Hin by (split; [done|repeat constructor]).
  rewrite scan_get_app; [|done|repeat constructor|done].
  rewrite <- (app_nil_r addr) at 1. rewrite Hin by done.
  rewrite scan_get_app; [|apply Ha|apply Ha|done].
  rewrite strtoul_of_utoa, u32_small by int_lia. done.
Qed.

(** ** Witnesses *)

Definition sample_media : pjmedia_sdp_media :=
  mk_media (cstr "audio") 4000 0 (cstr "RTP/AVP") [cstr "0"; cstr "96"] None [mk_bandw (cstr "AS") 64]
    [mk_attr (cstr "rtpmap") (cstr "96 iLBC/8000"); mk_attr (cstr "sendrecv") []].
Definition sample_session : pjmedia_sdp_session :=
  mk_session (mk_origin (cstr "-") 3414953978 3414953979 (cstr "IN") (cstr "IP4") (cstr "10.0.0.1"))
    (cstr "a session") (Some (mk_conn (cstr "IN") (cstr "IP4") (cstr "10.0.0.1"))) [] 0 0
    [mk_attr (cstr "tool") (cstr "pj 2.4")] [sample_media].

Ltac check_field :=
  unfold is_word, is_line, is_token, attr_wf, bandw_wf, conn_wf, is_u32, is_u16;
  apply (bool_decide_unpack _); vm_compute; reflexivity.

Lemma sample_media_wf : media_wf sample_media.
Proof. constructor; try check_field. done. Qed.

Lemma sample_wf : session_wf sample_session.
Proof.
  constructor; try check_field.
  - intros c [= <-]. check_field.
  - split; [vm_compute; lia|]. constructor; [apply sample_media_wf|constructor].
Qed.

Lemma sdp_roundtrip_witness :
  exists text, pjmedia_sdp_print sample_session 300 = Printed text /\
    pjmedia_sdp_parse text = Some (PJ_SUCCESS, Some sample_session).
Proof.
  destruct (sdp_roundtrip sample_session 300 sample_wf) as (text & H1 & H2 & H3).
  - vm_compute. discriminate.
  - exists text. split; [exact H1|]. rewrite H2, H3 by (vm_compute; reflexivity). reflexivity.
Defined.

Lemma sdp_print_complete_witness :
  pjmedia_sdp_print sample_session 300 = Printed (sdp_text sample_session).
Proof. apply (sdp_print_complete sample_session 300). vm_compute. discriminate. Defined.

Definition cat_lines (l : list String.string) : pj_str := concat (map (fun x => cstr x ++ CRLF) l).

Definition small_text : pj_str :=
  cat_lines ["v=0"; "o=- 1 2 IN IP4 10.0.0.1"; "s=x"; "t=0 0"; "a=sendonly"; "m=audio 70000 RTP/AVP 0"]%string.

Lemma parsed_session_ok_witness :
  exists sdp, pjmedia_sdp_parse small_text = Some (PJ_SUCCESS, Some sdp) /\ session_ok sdp.
Proof.
  assert (H : exists sdp, pjmedia_sdp_parse small_text = Some (PJ_SUCCESS, Some sdp))
    by (eexists; vm_compute; reflexivity).
  destruct H as [sdp H]. exists sdp. split; [exact H|]. exact (parsed_session_ok small_text sdp H).
Defined.

Lemma sdp_parse_returns_witness :
  exists status sdp, pjmedia_sdp_parse (cstr "o=broken") = Some (status, sdp) /\ (status = PJ_SUCCESS <-> is_Some sdp).
Proof. apply (sdp_parse_returns (cstr "o=broken")). vm_compute. lia. Defined.

(** ** Defects *)

(** The fifth bandwidth line is stored behind the array. *)
Theorem fifth_bandwidth_overruns :
  pjmedia_sdp_parse (cat_lines ["v=0"; "b=AS:1"; "b=AS:2"; "b=AS:3"; "b=AS:4"; "b=AS:5"]%string) = None.
Proof. vm_compute. reflexivity. Qed.

(** The [t=] line needs up to 25 bytes; the check asks for 24. *)
Theorem time_line_overruns :
  let ses := mk_session (mk_origin (cstr "-") 1 1 (cstr "IN") (cstr "IP4") (cstr "h")) (cstr "s") None []
               3414953978 3414953979 [] [] in
  slen (sdp_text ses) = 53 /\ pjmedia_sdp_print ses 52 = PrintOverrun.
Proof. vm_compute. split; reflexivity. Qed.

(** The formats of a media line are not counted. *)
Theorem formats_overrun :
  let m := mk_media (cstr "audio") 4000 0 (cstr "RTP/AVP") (repeat (cstr "100") 20) None [] [] in
  print_media_desc m 64 = PrintOverrun.
Proof. vm_compute. reflexivity. Qed.

(** A port of more than 16 bits is cut off without an error. *)
Theorem large_port_truncated :
  (fun r => m_port <$> default [] (s_media <$> r.2)) <$> pjmedia_sdp_parse small_text = Some [4464].
Proof. vm_compute. reflexivity. Qed.

(** An [rtcp] attribute made for an IPv6 address is not read back: the address
    stops at the first colon. *)
Theorem rtcp_ipv6_truncated r0 :
  pjmedia_sdp_attr_get_rtcp (pjmedia_sdp_attr_create_rtcp true 5001 (cstr "fe80::1")) r0 =
    (PJ_SUCCESS, mk_rtcp 5001 (cstr "IN") (cstr "IP6") (cstr "fe80")) /\
  (pjmedia_sdp_attr_get_rtcp (pjmedia_sdp_attr_create_rtcp true 5001 (cstr "::1")) r0).1 = PJMEDIA_SDP_EINRTCP.
Proof. vm_compute. split; reflexivity. Qed.
