(* ===== verification/Hash.v ===== *)
(** * Hash tables

    Model of pjlib/src/pj/hash.c: chained hash tables with counted or
    zero-terminated keys, compared exactly or without regard to case.  A
    bucket is the list of its entries in chain order; a null [void*] value is
    [None].  The table refines a finite map from (normalised) keys to values. *)

From Stdlib Require Import ZArith Lia Bool.
From stdpp Require Import base list numbers option gmap.
From S2P Require Import Prelude PjString.
Local Open Scope Z_scope.

(** ** Data *)

Definition PJ_HASH_MULTIPLIER : Z := 33.

Record pj_hash_entry (V : Type) := mk_entry { e_key : list Z; e_hash : Z; e_value : V }.
#[global] Arguments mk_entry {V}.
#[global] Arguments e_key {V}.
#[global] Arguments e_hash {V}.
#[global] Arguments e_value {V}.

(** [table] has [rows + 1] chains. *)
Record pj_hash_table_t (V : Type) := mk_ht { table : list (list (pj_hash_entry V)); count : Z; rows : Z }.
#[global] Arguments mk_ht {V}.
#[global] Arguments table {V}.
#[global] Arguments count {V}.
#[global] Arguments rows {V}.

(** ** Hash functions *)

(** The bytes of a zero-terminated string. *)
Fixpoint c_string (k : list Z) : list Z :=
  match k with c :: k => if c =? 0 then [] else c :: c_string k | [] => [] end.

(** A key with [keylen]: [None] is [PJ_HASH_KEY_STRING]. *)
Definition key_bytes (key : list Z) (keylen : option nat) : list Z :=
  match keylen with None => c_string key | Some n => take n key end.

Definition hash_step (hash c : Z) : Z := u32 (hash * PJ_HASH_MULTIPLIER + c).

Definition pj_hash_calc (hash : Z) (key : list Z) (keylen : option nat) : Z :=
  foldl hash_step hash (key_bytes key keylen).

(** The value of a byte stored in a signed [char]. *)
Definition to_char (c : Z) : Z := if c <? 128 then c else c - 256.

(** [own] is [PJ_HASH_USE_OWN_TOLOWER].  Returns the hash and the bytes stored
    in [result]. *)
Definition own_tolower (c : Z) : Z := if negb (Z.land c 64 =? 0) then Z.lor c 32 else c.

Fixpoint pj_hash_calc_tolower (own : bool) (hval : Z) (key : list Z) : Z * list Z :=
  match key with
  | [] => (hval, [])
  | c :: key =>
      let lower := if own then own_tolower c else pj_tolower c in
      let '(h, result) := pj_hash_calc_tolower own (hash_step hval (to_char lower)) key in
      (h, lower :: result)
  end.

(** The hash [find_entry] computes itself. *)
Definition find_hash (lower : bool) (key : list Z) : Z :=
  foldl (fun hash c => hash_step hash (if lower then pj_tolower c else c)) 0 key.

(** ** Operations *)

(** The table size doubles from 8 until it reaches [size]; 28 doublings give
    2^31, the largest power of two the variable holds (a larger [size] would
    loop forever). *)
Fixpoint grow_size (fuel : nat) (table_size size : Z) : Z :=
  match fuel with
  | O => table_size
  | S fuel =>
      let table_size := u32 (Z.shiftl table_size 1) in
      if table_size <? size then grow_size fuel table_size size else table_size
  end.

Definition pj_hash_create {V} (size : Z) : pj_hash_table_t V :=
  let table_size := grow_size 28 8 size - 1 in
  mk_ht (replicate (Z.to_nat (table_size + 1)) []) 0 table_size.

Section Table.
Context {V : Type}.
Implicit Types (ht : pj_hash_table_t V) (e : pj_hash_entry V).

(** The match test of the scan. *)
Definition entry_matches (lower : bool) (hash : Z) (key : list Z) e : bool :=
  (e_hash e =? hash) && (length (e_key e) =? length key)%nat &&
  (if lower then strnicmp (e_key e) key =? 0 else memcmp (e_key e) key =? 0).

(** The hash used: the one given, unless it is zero. *)
Definition used_hash (lower : bool) (hval : Z) (key : list Z) : Z :=
  if negb (hval =? 0) then hval else find_hash lower key.

(** The scan of one chain: the entries before the match, the match, the rest. *)
Fixpoint scan (p : pj_hash_entry V -> bool) (chain : list (pj_hash_entry V))
  : list (pj_hash_entry V) * option (pj_hash_entry V * list (pj_hash_entry V)) :=
  match chain with
  | [] => ([], None)
  | e :: chain =>
      if p e then ([], Some (e, chain))
      else let '(pre, r) := scan p chain in (e :: pre, r)
  end.

Definition bucket_of ht (hash : Z) : nat := Z.to_nat (Z.land hash (rows ht)).

Definition chain_at ht (i : nat) : list (pj_hash_entry V) := default [] (table ht !! i).

(** [find_entry] without a value: the entry found. *)
Definition find_entry ht (key : list Z) (keylen : option nat) (hval : Z) (lower : bool)
  : option (pj_hash_entry V) :=
  let key := key_bytes key keylen in
  let hash := used_hash lower hval key in
  fst <$> (scan (entry_matches lower hash key) (chain_at ht (bucket_of ht hash))).2.

Definition pj_hash_get ht (key : list Z) (keylen : option nat) (hval : Z) : option V :=
  e_value <$> find_entry ht key keylen hval false.
Definition pj_hash_get_lower ht (key : list Z) (keylen : option nat) (hval : Z) : option V :=
  e_value <$> find_entry ht key keylen hval true.

(** [hash_set]: [find_entry] with a value appends a new entry at the end of
    the chain; an entry found is deleted or overwritten. *)
Definition hash_set ht (key : list Z) (keylen : option nat) (hval : Z) (value : option V)
    (lower : bool) : pj_hash_table_t V :=
  let key := key_bytes key keylen in
  let hash := used_hash lower hval key in
  let i := bucket_of ht hash in
  match scan (entry_matches lower hash key) (chain_at ht i), value with
  | (pre, Some (e, post)), None =>
      mk_ht (<[i := pre ++ post]> (table ht)) (u32 (count ht - 1)) (rows ht)
  | (pre, Some (e, post)), Some v =>
      mk_ht (<[i := pre ++ mk_entry (e_key e) (e_hash e) v :: post]> (table ht)) (count ht) (rows ht)
  | (pre, None), None => ht
  | (pre, None), Some v =>
      mk_ht (<[i := pre ++ [mk_entry key hash v]]> (table ht)) (u32 (count ht + 1)) (rows ht)
  end.

Definition pj_hash_set ht key keylen hval value := hash_set ht key keylen hval value false.
Definition pj_hash_set_lower ht key keylen hval value := hash_set ht key keylen hval value true.
Definition pj_hash_count ht : Z := count ht.

(** ** Iteration *)

(** An iterator: the index of the chain and the entries from the current one
    to the end of the chain. *)
Record pj_hash_iterator_t := mk_it { it_index : nat; it_entry : list (pj_hash_entry V) }.

(** The first non-empty chain from [i] on; [k] chains are left. *)
Fixpoint next_chain ht (k i : nat) : option pj_hash_iterator_t :=
  match k with
  | O => None
  | S k => match chain_at ht i with
           | [] => next_chain ht k (S i)
           | c => Some (mk_it i c)
           end
  end.

Definition num_rows ht : nat := Z.to_nat (rows ht + 1).
Definition pj_hash_first ht : option pj_hash_iterator_t := next_chain ht (num_rows ht) 0.
Definition pj_hash_next ht (it : pj_hash_iterator_t) : option pj_hash_iterator_t :=
  match tail (it_entry it) with
  | [] => next_chain ht (num_rows ht - S (it_index it)) (S (it_index it))
  | c => Some (mk_it (it_index it) c)
  end.
Definition pj_hash_this (it : pj_hash_iterator_t) : option V := e_value <$> head (it_entry it).

(** The values a loop from [pj_hash_first] by [pj_hash_next] visits. *)
Fixpoint hash_visit ht (fuel : nat) (it : option pj_hash_iterator_t) : list V :=
  match fuel, it with
  | S fuel, Some it =>
      match pj_hash_this it with
      | Some v => v :: hash_visit ht fuel (pj_hash_next ht it)
      | None => []
      end
  | _, _ => []
  end.

End Table.

(** ** Keys *)

(** The key a table distinguishes. *)
Definition norm (lower : bool) (k : list Z) : list Z := if lower then pj_tolower <$> k else k.

(** A zero byte, if any, is the last byte of the key. *)
Definition good_key (k : list Z) : Prop := forall i, k !! i = Some 0 -> S i = length k.

Lemma good_key_tail c k : good_key (c :: k) -> good_key k /\ (c = 0 -> k = []).
Proof.
  intros H; split.
  - intros i Hi; specialize (H (S i) Hi); cbn in H; lia.
  - intros ->; specialize (H 0%nat eq_refl); destruct k; cbn in H; [done|lia].
Qed.

Lemma pj_tolower_0 c : pj_tolower c = 0 <-> c = 0.
Proof. unfold pj_tolower; case_if; bool_hyps; lia. Qed.

Lemma strnicmp_0 k1 : forall k2,
  length k1 = length k2 -> good_key k1 -> good_key k2 ->
  (strnicmp k1 k2 = 0 <-> pj_tolower <$> k1 = pj_tolower <$> k2).
Proof.
  induction k1 as [|c1 k1 IH]; intros [|c2 k2] Hl H1 H2; try done; cbn in Hl |- *.
  apply good_key_tail in H1 as [H1 Z1], H2 as [H2 Z2].
  destruct (pj_tolower c1 =? pj_tolower c2) eqn:E; bool_hyps.
  - rewrite E; destruct (pj_tolower c2 =? 0) eqn:E0; bool_hyps.
    + rewrite E0 in E; apply (proj1 (pj_tolower_0 _)) in E, E0; subst.
      rewrite (Z1 eq_refl), (Z2 eq_refl); by split.
    + rewrite IH by (done || lia); split; [by intros ->|by intros [=]].
  - split; [case_if; lia|by intros [=]].
Qed.

Lemma foldl_norm (lower : bool) k h :
  foldl (fun hash c => hash_step hash (if (lower : bool) then pj_tolower c else c)) h k
  = foldl hash_step h (norm lower k).
Proof.
  revert h; induction k as [|c k IH]; intros h; [by destruct lower|].
  cbn; rewrite IH; by destruct lower.
Qed.

(** Equal keys have equal hashes. *)
Lemma find_hash_norm lower k : find_hash lower k = foldl hash_step 0 (norm lower k).
Proof. apply foldl_norm. Qed.

Lemma length_norm lower k : length (norm lower k) = length k.
Proof. destruct lower; [apply length_fmap|done]. Qed.

(** ** The invariant *)

Section Refinement.
Context {V : Type} (lower : bool).
Implicit Types (ht : pj_hash_table_t V) (e : pj_hash_entry V).

Definition ekey e : list Z := norm lower (e_key e).
Definition entries ht : list (pj_hash_entry V) := concat (table ht).

Definition entry_ok ht (i : nat) e : Prop :=
  bucket_of ht (e_hash e) = i /\ e_hash e = find_hash lower (e_key e) /\ good_key (e_key e).

(** Every entry is in the chain of its hash, keys are distinct, and the count
    is right. *)
Record hash_wf ht : Prop := {
  wf_rows : exists n, 0 <= n /\ rows ht = Z.ones n;
  wf_length : length (table ht) = num_rows ht;
  wf_entries : forall i c e, table ht !! i = Some c -> e ∈ c -> entry_ok ht i e;
  wf_nodup : NoDup (ekey <$> entries ht);
  wf_count : count ht = u32 (Z.of_nat (length (entries ht))) }.

(** The map the table stands for. *)
Definition amap (l : list (pj_hash_entry V)) : gmap (list Z) V :=
  list_to_map ((fun e => (ekey e, e_value e)) <$> l).
Definition hash_map ht : gmap (list Z) V := amap (entries ht).

Lemma entry_matches_iff e key :
  e_hash e = find_hash lower (e_key e) -> good_key (e_key e) -> good_key key ->
  (entry_matches lower (find_hash lower key) key e = true <-> ekey e = norm lower key).
Proof.
  intros Hh Hg Hk; unfold entry_matches, ekey; rewrite !andb_true_iff, Z.eqb_eq, Nat.eqb_eq.
  assert (M : length (e_key e) = length key ->
    ((if lower then strnicmp (e_key e) key =? 0 else memcmp (e_key e) key =? 0) = true <->
     norm lower (e_key e) = norm lower key)).
  { intros Hl; unfold norm; destruct lower; rewrite Z.eqb_eq; [by apply strnicmp_0|by apply memcmp_0]. }
  split.
  - intros [[_ Hl] Hm]; by apply M.
  - intros Hn; assert (Hl : length (e_key e) = length key)
      by (by rewrite <- (length_norm lower), Hn, length_norm).
    repeat split; [|done|by apply M]; by rewrite Hh, !find_hash_norm, Hn.
Qed.

Lemma scan_spec (p : pj_hash_entry V -> bool) c :
  match scan p c with
  | (pre, Some (e, post)) => c = pre ++ e :: post /\ p e = true
  | (pre, None) => pre = c /\ forall e, e ∈ c -> p e = false
  end.
Proof.
  induction c as [|e c IH]; cbn; [by split; [|intros ? ?%elem_of_nil]|].
  destruct (p e) eqn:E; [done|]; destruct (scan p c) as [pre [[e' post]|]].
  - destruct IH as [-> ?]; done.
  - destruct IH as [-> H]; split; [done|]; intros e' [->|?]%elem_of_cons; auto.
Qed.

Lemma bucket_lt ht h : hash_wf ht -> (bucket_of ht h < length (table ht))%nat.
Proof.
  intros [(n & Hn & Hr) Hl _ _ _]; rewrite Hl; unfold bucket_of, num_rows; rewrite Hr.
  rewrite Z.land_ones by done; pose proof (Z.mod_pos_bound h (2 ^ n)).
  rewrite Z.ones_equiv; lia.
Qed.

(** The chain of a hash, and the table around it. *)
Lemma split_at ht i :
  (i < length (table ht))%nat ->
  exists l1 l2, table ht = l1 ++ chain_at ht i :: l2 /\
    forall c, <[i := c]> (table ht) = l1 ++ c :: l2.
Proof.
  intros Hi; exists (take i (table ht)), (drop (S i) (table ht)).
  destruct (lookup_lt_is_Some_2 _ _ Hi) as [c Hc]; unfold chain_at; rewrite Hc; split.
  - by rewrite take_drop_middle.
  - intros c'; by apply insert_take_drop.
Qed.

Lemma entries_replace ht i :
  (i < length (table ht))%nat ->
  exists rest, entries ht ≡ₚ chain_at ht i ++ rest /\
    forall c n, entries (mk_ht (<[i := c]> (table ht)) n (rows ht)) ≡ₚ c ++ rest.
Proof.
  intros Hi; destruct (split_at ht i Hi) as (l1 & l2 & E & E').
  exists (concat l1 ++ concat l2); unfold entries; cbn [table]; split.
  - rewrite E at 1; rewrite concat_app; cbn; rewrite !(assoc_L (++)).
    by rewrite (Permutation_app_comm (concat l1)).
  - intros c n; rewrite E', concat_app; cbn; rewrite !(assoc_L (++)).
    by rewrite (Permutation_app_comm (concat l1)).
Qed.

(** ** The map of a table *)

Lemma amap_cons e l : amap (e :: l) = <[ekey e := e_value e]> (amap l).
Proof. done. Qed.

Lemma amap_perm l1 l2 : NoDup (ekey <$> l1) -> l1 ≡ₚ l2 -> amap l1 = amap l2.
Proof.
  intros Hn Hp; apply list_to_map_proper; [|by rewrite Hp].
  rewrite <- list_fmap_compose; exact Hn.
Qed.

Lemma amap_lookup l e :
  NoDup (ekey <$> l) -> e ∈ l -> amap l !! ekey e = Some (e_value e).
Proof.
  intros Hn He; apply elem_of_list_to_map_1.
  - rewrite <- list_fmap_compose; exact Hn.
  - apply (list_elem_of_fmap_2 (fun e => (ekey e, e_value e)) l e He).
Qed.

Lemma amap_None l k : (forall e, e ∈ l -> ekey e <> k) -> amap l !! k = None.
Proof.
  intros H; apply not_elem_of_list_to_map_1; rewrite <- list_fmap_compose.
  intros (e & -> & He)%list_elem_of_fmap; by apply (H e He).
Qed.

Lemma elem_of_entries ht e : e ∈ entries ht <-> exists i c, table ht !! i = Some c /\ e ∈ c.
Proof.
  unfold entries; rewrite list_elem_of_In, in_concat; split.
  - intros (c & Hc & He); apply list_elem_of_In, list_elem_of_lookup in Hc as [i Hi].
    exists i, c; split; [done|by apply list_elem_of_In].
  - intros (i & c & Hi & He); exists c; split; apply list_elem_of_In; [by apply list_elem_of_lookup_2 with i|done].
Qed.

Lemma used_hash_ok hval key :
  hval = 0 \/ hval = find_hash lower key -> used_hash lower hval key = find_hash lower key.
Proof. unfold used_hash; intros [->|H]; [done|]; case_if; congruence. Qed.

Section Lookup.
Context (ht : pj_hash_table_t V) (Hwf : hash_wf ht) (key : list Z) (Hkey : good_key key).
Let hash : Z := find_hash lower key.
Let i : nat := bucket_of ht hash.

Lemma chain_here : table ht !! i = Some (chain_at ht i).
Proof.
  unfold chain_at; destruct (lookup_lt_is_Some_2 _ _ (bucket_lt ht hash Hwf)) as [c Hc].
  fold i in Hc; by rewrite Hc.
Qed.

Lemma chain_matches e : e ∈ chain_at ht i ->
  (entry_matches lower hash key e = true <-> ekey e = norm lower key).
Proof.
  intros He; destruct (wf_entries _ Hwf _ _ _ chain_here He) as (_ & Hh & Hg).
  by apply entry_matches_iff.
Qed.

(** An entry with this key is in the chain of its hash. *)
Lemma entry_in_chain e : e ∈ entries ht -> ekey e = norm lower key -> e ∈ chain_at ht i.
Proof.
  intros (j & c & Hj & He)%elem_of_entries Hk.
  destruct (wf_entries _ Hwf _ _ _ Hj He) as (Hb & Hh & _).
  assert (j = i) as -> by (unfold i, hash; rewrite <- Hb, Hh, !find_hash_norm; by f_equal; f_equal).
  rewrite chain_here in Hj; by injection Hj as ->.
Qed.

Lemma absent_key :
  (forall e, e ∈ chain_at ht i -> entry_matches lower hash key e = false) ->
  forall e, e ∈ entries ht -> ekey e <> norm lower key.
Proof.
  intros H e He Hk; pose proof (entry_in_chain e He Hk) as Hc.
  apply (chain_matches e Hc) in Hk; rewrite H in Hk; done.
Qed.
End Lookup.

Lemma find_entry_map ht key keylen hval :
  let k := key_bytes key keylen in
  hash_wf ht -> good_key k -> hval = 0 \/ hval = find_hash lower k ->
  e_value <$> find_entry ht key keylen hval lower = hash_map ht !! norm lower k.
Proof.
  intros k Hwf Hk Hh; unfold find_entry; fold k; rewrite used_hash_ok by done.
  pose proof (scan_spec (entry_matches lower (find_hash lower k) k)
    (chain_at ht (bucket_of ht (find_hash lower k)))) as S.
  destruct (scan _ _) as [pre [[e post]|]]; cbn.
  - destruct S as [Ec Em].
    assert (Hin : e ∈ chain_at ht (bucket_of ht (find_hash lower k))) 
      by (rewrite Ec; apply elem_of_app; right; by constructor).
    apply (chain_matches ht Hwf k Hk e Hin) in Em; rewrite <- Em; symmetry.
    apply amap_lookup; [apply Hwf|]; apply elem_of_entries.
    eexists _, _; split; [by apply chain_here|done].
  - symmetry; apply amap_None, absent_key; try done; apply S.
Qed.

(** Replacing a chain keeps the invariant when the new entries belong there,
    keys are still distinct and the count is adjusted. *)
Lemma replace_ok ht i c n rest :
  hash_wf ht -> (i < length (table ht))%nat -> (forall e, e ∈ c -> entry_ok ht i e) ->
  entries (mk_ht (<[i := c]> (table ht)) n (rows ht)) ≡ₚ c ++ rest ->
  NoDup (ekey <$> c ++ rest) -> n = u32 (Z.of_nat (length (c ++ rest))) ->
  hash_wf (mk_ht (<[i := c]> (table ht)) n (rows ht)) /\
  hash_map (mk_ht (<[i := c]> (table ht)) n (rows ht)) = amap (c ++ rest).
Proof.
  intros Hwf Hi Hc Hp Hn Hct; split; [split|apply amap_perm; by rewrite ?Hp]; cbn; try apply Hwf.
  - rewrite length_insert; apply Hwf.
  - intros j d e; destruct (decide (i = j)) as [<-|Hij].
    + rewrite list_lookup_insert_eq by done; intros [= <-]; apply Hc.
    + rewrite list_lookup_insert_ne by done; intros Hd He; by apply (wf_entries _ Hwf j d).
  - by rewrite Hp.
  - by rewrite Hp.
Qed.

Lemma u32_add_u32 a b : u32 (u32 a + b) = u32 (a + b).
Proof. unfold u32; by rewrite Zplus_mod_idemp_l. Qed.


Section Set_.
Context (ht : pj_hash_table_t V) (Hwf : hash_wf ht) (i : nat) (rest : list (pj_hash_entry V)).
Hypothesis Hi : (i < length (table ht))%nat.
Hypothesis Hperm : entries ht ≡ₚ chain_at ht i ++ rest.
Hypothesis Hrepl : forall c n, entries (mk_ht (<[i := c]> (table ht)) n (rows ht)) ≡ₚ c ++ rest.
Hypothesis Hok : forall e, e ∈ chain_at ht i -> entry_ok ht i e.

Lemma chain_nodup : NoDup (ekey <$> chain_at ht i ++ rest).
Proof. rewrite <- Hperm; apply Hwf. Qed.
Lemma chain_count : count ht = u32 (Z.of_nat (length (chain_at ht i ++ rest))).
Proof. rewrite <- Hperm; apply Hwf. Qed.
Lemma map_chain : hash_map ht = amap (chain_at ht i ++ rest).
Proof. apply amap_perm; [apply Hwf|done]. Qed.

Lemma append_ok k v :
  good_key k -> bucket_of ht (find_hash lower k) = i ->
  (forall e, e ∈ entries ht -> ekey e <> norm lower k) ->
  let ht' := mk_ht (<[i := chain_at ht i ++ [mk_entry k (find_hash lower k) v]]> (table ht))
               (u32 (count ht + 1)) (rows ht) in
  hash_wf ht' /\ hash_map ht' = <[norm lower k := v]> (hash_map ht).
Proof.
  intros Hk Hb Habs; set (e := mk_entry k (find_hash lower k) v).
  assert (P : e :: chain_at ht i ++ rest ≡ₚ (chain_at ht i ++ [e]) ++ rest)
    by (rewrite <- (assoc_L (++)); cbn [app]; by rewrite <- Permutation_middle).
  assert (N : NoDup (ekey <$> e :: chain_at ht i ++ rest)).
  { cbn; constructor; [|apply chain_nodup].
    intros (e' & E & He')%list_elem_of_fmap; apply (Habs e'); [by rewrite Hperm|done]. }
  destruct (replace_ok ht i (chain_at ht i ++ [e]) (u32 (count ht + 1)) rest) as [W M]; try done.
  - intros e' [?| ->%list_elem_of_singleton]%elem_of_app; [by apply Hok|by split].
  - by rewrite <- P.
  - rewrite chain_count, u32_add_u32, <- P; f_equal; cbn [length]; lia.
  - split; [done|]; rewrite M, <- (amap_perm _ _ N P), amap_cons, map_chain; done.
Qed.

Lemma overwrite_ok pre e post v :
  chain_at ht i = pre ++ e :: post ->
  let ht' := mk_ht (<[i := pre ++ mk_entry (e_key e) (e_hash e) v :: post]> (table ht))
               (count ht) (rows ht) in
  hash_wf ht' /\ hash_map ht' = <[ekey e := v]> (hash_map ht).
Proof.
  intros Ec; set (e' := mk_entry (e_key e) (e_hash e) v).
  assert (P : forall x, x :: (pre ++ post) ++ rest ≡ₚ (pre ++ x :: post) ++ rest)
    by (intros x; rewrite <- !(assoc_L (++)); cbn [app]; by rewrite <- Permutation_middle).
  pose proof chain_nodup as N; rewrite Ec, <- P in N.
  destruct (replace_ok ht i (pre ++ e' :: post) (count ht) rest) as [W M]; try done.
  - intros x Hx; destruct (Hok e) as (? & ? & ?); [rewrite Ec; apply elem_of_app; right; by constructor|].
    apply elem_of_app in Hx as [Hx|[->|Hx]%elem_of_cons]; [|done|];
      apply Hok; rewrite Ec; apply elem_of_app; [by left|right; by constructor].
  - rewrite <- P; exact N.
  - rewrite chain_count, Ec, <- !P; done.
  - split; [done|]; rewrite M, map_chain, Ec.
    rewrite <- (amap_perm _ _ N (P e)), <- (amap_perm (e' :: _) _ N (P e')), !amap_cons.
    by rewrite insert_insert_eq.
Qed.

Lemma delete_ok pre e post :
  chain_at ht i = pre ++ e :: post ->
  let ht' := mk_ht (<[i := pre ++ post]> (table ht)) (u32 (count ht - 1)) (rows ht) in
  hash_wf ht' /\ hash_map ht' = delete (ekey e) (hash_map ht).
Proof.
  intros Ec.
  assert (P : e :: (pre ++ post) ++ rest ≡ₚ (pre ++ e :: post) ++ rest)
    by (rewrite <- !(assoc_L (++)); cbn [app]; by rewrite <- Permutation_middle).
  pose proof chain_nodup as N; rewrite Ec, <- P in N.
  assert (N' := N); apply NoDup_cons in N' as [Hnot N'].
  destruct (replace_ok ht i (pre ++ post) (u32 (count ht - 1)) rest) as [W M]; try done.
  - intros x Hx; apply Hok; rewrite Ec; apply elem_of_app.
    apply elem_of_app in Hx as [?|?]; [by left|right; by constructor].
  - rewrite chain_count, Ec; replace (length ((pre ++ e :: post) ++ rest)) with
      (length (e :: (pre ++ post) ++ rest)) by (by rewrite P).
    unfold Z.sub; rewrite u32_add_u32; f_equal; cbn [length]; lia.
  - split; [done|]; rewrite M, map_chain, Ec, <- (amap_perm _ _ N P), amap_cons.
    rewrite delete_insert_id; [done|]; apply amap_None; intros x Hx E.
    apply Hnot; rewrite <- E; by apply list_elem_of_fmap_2.
Qed.
End Set_.

Lemma hash_set_ok ht key keylen hval value :
  let k := key_bytes key keylen in
  hash_wf ht -> good_key k -> hval = 0 \/ hval = find_hash lower k ->
  let ht' := hash_set ht key keylen hval value lower in
  hash_wf ht' /\ hash_map ht' = partial_alter (fun _ => value) (norm lower k) (hash_map ht).
Proof.
  intros k Hwf Hk Hh; unfold hash_set; fold k; rewrite used_hash_ok by done.
  set (i := bucket_of ht (find_hash lower k)).
  assert (Hi : (i < length (table ht))%nat) by by apply bucket_lt.
  destruct (entries_replace ht i Hi) as (rest & Ep & Er).
  pose proof (chain_matches ht Hwf k Hk) as Hm; fold i in Hm.
  pose proof (absent_key ht Hwf k Hk) as Habs; fold i in Habs.
  assert (Hok : forall e, e ∈ chain_at ht i -> entry_ok ht i e)
    by (intros e He; by apply (wf_entries _ Hwf _ _ _ (chain_here ht Hwf k))).
  pose proof (scan_spec (entry_matches lower (find_hash lower k) k) (chain_at ht i)) as S.
  destruct (scan _ _) as [pre [[e post]|]]; destruct S as [Ec Em].
  - apply Hm in Em; [|rewrite Ec; apply elem_of_app; right; by constructor].
    rewrite <- Em; destruct value as [v|].
    + by apply (overwrite_ok ht Hwf i rest).
    + by apply (delete_ok ht Hwf i rest).
  - subst pre; destruct value as [v|].
    + apply (append_ok ht Hwf i rest); auto.
    + split; [done|]; symmetry; change (delete (norm lower k) (hash_map ht) = hash_map ht).
      apply delete_id, amap_None; auto.
Qed.

(** ** Creation and iteration *)

Lemma grow_size_pow fuel : forall m size,
  0 <= m -> m + Z.of_nat fuel < 32 ->
  exists n, 0 <= n /\ grow_size fuel (2 ^ m) size = 2 ^ n /\
    (size <= 2 ^ (m + Z.of_nat fuel) -> (0 < fuel)%nat -> size <= 2 ^ n).
Proof.
  induction fuel as [|fuel IH]; intros m size Hm Hb; cbn [grow_size];
    [exists m; repeat split; [done|lia]|].
  rewrite Z.shiftl_mul_pow2, Z.pow_1_r, Z.mul_comm, <- Z.pow_succ_r by lia.
  rewrite u32_small.
  - case_if; bool_hyps; [|exists (Z.succ m); repeat split; lia].
    destruct (IH (Z.succ m) size) as (n & Hn & En & Hs); [lia..|].
    exists n; repeat split; [done..|]; intros Hsz _.
    replace (Z.succ m + Z.of_nat fuel) with (m + Z.of_nat (S fuel)) in Hs by lia.
    destruct fuel; [cbn in Hsz; lia|apply Hs; [done|lia]].
  - split; [by apply Z.pow_nonneg|]; change 4294967296 with (2 ^ 32); apply Z.pow_lt_mono_r; lia.
Qed.

Lemma pj_hash_create_ok size :
  hash_wf (pj_hash_create size) /\ hash_map (pj_hash_create size) = ∅.
Proof.
  unfold pj_hash_create; destruct (grow_size_pow 28 3 size) as (n & Hn & E & _); [lia..|].
  change 8 with (2 ^ 3); rewrite E; set (k := Z.to_nat _).
  assert (Hc : concat (replicate k []) = @nil (pj_hash_entry V)) by (induction k; [done|exact IHk]).
  split; [split|unfold hash_map, entries; cbn [table]; by rewrite Hc]; unfold entries; cbn.
  - exists n; split; [done|]; by rewrite Z.ones_equiv.
  - rewrite length_replicate; unfold num_rows, k; cbn; lia.
  - intros i c e Hi He; apply lookup_replicate in Hi as [-> _]; by apply elem_of_nil in He.
  - rewrite Hc; constructor.
  - by rewrite Hc.
Qed.

(** The iterator visits the entries in table order. *)
Lemma next_chain_spec ht k : forall i,
  match next_chain ht k i with
  | None => concat (chain_at ht <$> seq i k) = []
  | Some it => exists e c, it_entry it = e :: c /\ (i <= it_index it < i + k)%nat /\
      concat (chain_at ht <$> seq i k)
      = (e :: c) ++ concat (chain_at ht <$> seq (S (it_index it)) (i + k - S (it_index it)))
  end.
Proof.
  induction k as [|k IH]; intros i; cbn [next_chain seq fmap list_fmap concat]; [done|].
  destruct (chain_at ht i) as [|e c] eqn:E.
  - specialize (IH (S i)); destruct (next_chain ht k (S i)) as [it|]; [|done].
    destruct IH as (e & c & H1 & H2 & H3); exists e, c; repeat split; [done|lia|lia|].
    cbn [app]; change (S i + k)%nat with (S (i + k)) in H3; rewrite Nat.add_succ_r; exact H3.
  - exists e, c; cbn [it_entry it_index]; repeat split; [lia|lia|].
    by replace (i + S k - S i)%nat with k by lia.
Qed.

(** What is left to visit from an iterator. *)
Definition remaining ht (it : pj_hash_iterator_t) : list (pj_hash_entry V) :=
  it_entry it ++ concat (chain_at ht <$> seq (S (it_index it)) (num_rows ht - S (it_index it))).

Lemma hash_visit_spec ht fuel : forall it,
  (it_index it < num_rows ht)%nat -> it_entry it <> [] -> (length (remaining ht it) <= fuel)%nat ->
  hash_visit ht fuel (Some it) = e_value <$> remaining ht it.
Proof.
  induction fuel as [|fuel IH]; intros [j [|e c]] Hj Hne Hl; try done;
    unfold remaining in *; cbn [it_entry it_index] in *; [cbn in Hl; lia|].
  cbn [hash_visit pj_hash_this it_entry head app].
  unfold pj_hash_next, pj_hash_this; cbn [it_entry it_index tail head].
  change (e_value <$> Some e) with (Some (e_value e)); rewrite fmap_cons; cbv iota; f_equal.
  destruct c as [|e' c].
  - pose proof (next_chain_spec ht (num_rows ht - S j) (S j)) as N; cbn [app] in *.
    destruct (next_chain _ _ _) as [it|].
    + destruct it as [j' ch]; cbn [it_entry it_index] in N; destruct N as (e' & c' & -> & Hj' & E).
      replace (S j + (num_rows ht - S j) - S j')%nat with (num_rows ht - S j')%nat in E by lia.
      rewrite E; rewrite E in Hl; cbn in Hl.
      apply (IH (mk_it j' (e' :: c'))); cbn; [lia|done|lia].
    + rewrite N; by destruct fuel.
  - cbn in Hl; apply (IH (mk_it j (e' :: c))); cbn; [done|done|lia].
Qed.

Lemma entries_seq ht : length (table ht) = num_rows ht ->
  entries ht = concat (chain_at ht <$> seq 0 (num_rows ht)).
Proof.
  intros <-; unfold entries; f_equal; apply list_eq; intros i.
  rewrite list_lookup_fmap; destruct (decide (i < length (table ht))%nat) as [Hi|Hi].
  - rewrite lookup_seq_lt by done; cbn; unfold chain_at.
    destruct (lookup_lt_is_Some_2 _ _ Hi) as [c Hc]; by rewrite Hc.
  - rewrite lookup_ge_None_2 by lia; rewrite lookup_seq_ge by lia; done.
Qed.

Lemma hash_visit_all ht fuel :
  length (table ht) = num_rows ht -> (length (entries ht) <= fuel)%nat ->
  hash_visit ht fuel (pj_hash_first ht) = e_value <$> entries ht.
Proof.
  intros Hlen Hl; rewrite entries_seq in * by done; unfold pj_hash_first.
  pose proof (next_chain_spec ht (num_rows ht) 0) as N.
  destruct (next_chain ht (num_rows ht) 0) as [it|]; [|rewrite N; by destruct fuel].
  destruct it as [j c]; cbn [it_entry it_index] in N; destruct N as (e & c' & -> & Hj & E).
  rewrite Nat.add_0_l in E; rewrite E in *.
  apply (hash_visit_spec ht fuel (mk_it j (e :: c'))); cbn; [lia|done|exact Hl].
Qed.
End Refinement.

(** ** Properties *)

Lemma hash_map_size {V} lower (ht : pj_hash_table_t V) :
  hash_wf lower ht -> size (hash_map lower ht) = length (entries ht).
Proof.
  intros Hwf; unfold hash_map, amap; rewrite <- length_map_to_list, map_to_list_to_map, length_fmap; [done|].
  rewrite <- list_fmap_compose; apply Hwf.
Qed.

(** C2.  A hash table implements a finite map: setting a key to a value, or to
    null to delete it, keeps the table well formed and updates the map at
    exactly that key; looking up a key yields the map's value; the count is
    the size of the map (modulo 2^32).  Keys are compared exactly or without
    regard to case, and a caller may supply the hash it computed before. *)
Theorem hash_refines_map {V} (lower : bool) (ht : pj_hash_table_t V) key keylen hval value :
  let k := key_bytes key keylen in
  hash_wf lower ht -> good_key k -> hval = 0 \/ hval = find_hash lower k ->
  let ht' := hash_set ht key keylen hval value lower in
  (hash_wf lower ht' /\
   hash_map lower ht' = partial_alter (fun _ => value) (norm lower k) (hash_map lower ht)) /\
  e_value <$> find_entry ht key keylen hval lower = hash_map lower ht !! norm lower k /\
  pj_hash_count ht = u32 (Z.of_nat (size (hash_map lower ht))).
Proof.
  intros k Hwf Hk Hh ht'; split; [by apply hash_set_ok|split; [by apply find_entry_map|]].
  unfold pj_hash_count; by rewrite hash_map_size, (wf_count _ _ Hwf).
Qed.

Lemma hash_refines_map_witness :
  let key := [65; 98; 67] in
  let ht := hash_set (pj_hash_create 10) [97; 66; 99] (Some 3%nat) 0 (Some 7) true in
  (pj_hash_get_lower ht key (Some 3%nat) 0 = Some 7 /\ pj_hash_count ht = 1) /\
  hash_map true (hash_set ht key (Some 3%nat) 0 None true)
  = partial_alter (fun _ => None) [97; 98; 99] (hash_map true ht).
Proof.
  assert (Hg : forall k : list Z, Forall (fun c => c <> 0) k -> good_key k).
  { intros k Hk i Hi; by apply (Forall_lookup_1 _ _ _ _ Hk) in Hi. }
  intros key ht; split; [vm_compute; done|].
  apply (hash_refines_map true ht key (Some 3%nat) 0 None).
  - apply hash_set_ok; [apply pj_hash_create_ok|apply Hg; repeat constructor; discriminate|by left].
  - apply Hg; repeat constructor; discriminate.
  - by left.
Defined.

(**  A loop over the iterator visits every value of the table exactly
    once and then ends. *)
Theorem hash_iterates {V} (lower : bool) (ht : pj_hash_table_t V) fuel :
  hash_wf lower ht -> (size (hash_map lower ht) <= fuel)%nat ->
  hash_visit ht fuel (pj_hash_first ht) ≡ₚ (map_to_list (hash_map lower ht)).*2.
Proof.
  intros Hwf Hf; rewrite hash_map_size in Hf by done.
  rewrite hash_visit_all by (done || apply Hwf).
  unfold hash_map, amap; rewrite map_to_list_to_map by (rewrite <- list_fmap_compose; apply Hwf).
  rewrite <- list_fmap_compose; done.
Qed.

Lemma hash_iterates_witness :
  let ht := hash_set (pj_hash_create 10) [97] None 0 (Some 7) true in
  hash_visit ht 3 (pj_hash_first ht) ≡ₚ (map_to_list (hash_map true ht)).*2.
Proof.
  intros ht; apply (hash_iterates true ht 3).
  - apply hash_set_ok; [apply pj_hash_create_ok| |by left].
    intros i Hi; destruct i as [|[|i]]; cbn in Hi |- *; done.
  - vm_compute; lia.
Defined.

(** The precomputed case-insensitive hash and the one of the lookup. *)
Lemma calc_tolower_ascii key : forall h,
  Forall (fun c => 0 <= c < 128) key ->
  (pj_hash_calc_tolower false h key).1
  = foldl (fun hash c => hash_step hash (pj_tolower c)) h key.
Proof.
  induction key as [|c key IH]; intros h Hk; [done|].
  apply Forall_cons in Hk as [Hc Hk]; cbn [pj_hash_calc_tolower foldl].
  rewrite <- IH by done.
  assert (E : to_char (pj_tolower c) = pj_tolower c).
  { unfold to_char, pj_tolower; repeat case_if; bool_hyps; lia. }
  rewrite E; by destruct (pj_hash_calc_tolower _ _ _).
Qed.

(**  The hash callers precompute for a case-insensitive key is the one the
    lookup computes, for every key of 7-bit characters. *)
Theorem precalc_hash_agrees key :
  Forall (fun c => 0 <= c < 128) key ->
  (pj_hash_calc_tolower false 0 key).1 = find_hash true key.
Proof. apply calc_tolower_ascii. Qed.

Lemma precalc_hash_agrees_witness :
  (pj_hash_calc_tolower false 0 [90; 36; 97]).1 = find_hash true [90; 36; 97].
Proof. apply precalc_hash_agrees; repeat constructor; lia. Defined.

Definition isSome {A} (o : option A) : bool := match o with Some _ => true | None => false end.

(**  For a character above 127 the two hashes differ ([char] is signed in
    one and unsigned in the other): an entry stored under the precomputed
    hash is not found by a lookup that computes the hash itself.  With
    [PJ_HASH_USE_OWN_TOLOWER] this already happens for '@' and '_'. *)
Theorem precalc_hash_loses_key c v :
  128 <= c < 256 ->
  let store own c := pj_hash_set_lower (pj_hash_create 31) [c] (Some 1%nat)
                       (pj_hash_calc_tolower own 0 [c]).1 (Some v) in
  pj_hash_get_lower (V := Z) (store false c) [c] (Some 1%nat) 0 = None /\
  pj_hash_get_lower (V := Z) (store true 95) [95] (Some 1%nat) 0 = None /\
  pj_hash_get_lower (V := Z) (store true 64) [64] (Some 1%nat) 0 = None.
Proof.
  intros Hc store; split; [|split; vm_compute; reflexivity].
  assert (A : forallb (fun c => negb (isSome (pj_hash_get_lower (store false c) [c] (Some 1%nat) 0)))
                (seqZ 128 128) = true) by (vm_compute; reflexivity).
  rewrite forallb_forall in A; specialize (A c).
  destruct (pj_hash_get_lower _ _ _ _); [|done].
  discriminate A; apply list_elem_of_In, elem_of_seqZ; lia.
Qed.

Lemma precalc_hash_loses_key_witness :
  pj_hash_get_lower (pj_hash_set_lower (pj_hash_create 31) [233] (Some 1%nat)
    (pj_hash_calc_tolower false 0 [233]).1 (Some 5)) [233] (Some 1%nat) 0 = None.
Proof. apply (precalc_hash_loses_key 233 5); lia. Defined.
