(* ===== verification/Timer.v ===== *)
(** * The timer heap of pjlib (pjlib/src/pj/timer.c)

    A binary heap of pointers to timer entries, ordered by expiry, with a
    parallel array [timer_ids] that maps the id of a scheduled entry to its
    slot and links the free ids in a stack of negated indices.  Entries are
    shared objects: [heap] holds addresses and [entries] is the store.  Every
    array access is checked, so a run that leaves an array gives [None]; the
    loops run on fuel that the theorems show to be enough. *)

From Stdlib Require Import ZArith Lia Bool.
From stdpp Require Import base list numbers option gmap.
From S2P Require Import Prelude TimeVal.
Local Open Scope Z_scope.

(** ** Data *)

(** [struct pj_timer_entry]; the callback and user data are not followed, only
    whether a callback is set. *)
Record pj_timer_entry := mk_te {
  te_id : Z; te_has_cb : bool; _timer_id : Z; _timer_value : time_val; _grp_lock : option Z }.

(** What an operation does outside the heap, latest first. *)
Inductive timer_action :=
| TAddRef (lock : Z) | TDecRef (lock : Z) | TCallback (p : Z) | TAssert (line : Z).

(** [struct pj_timer_heap_t], with the store of entries and the actions.
    Sizes stay below 2^31, so that a slot fits the [int] it is stored in. *)
Record pj_timer_heap_t := mk_th {
  max_size : nat;
  cur_size : nat;
  max_entries_per_poll : nat;
  heap : list Z;
  timer_ids : list Z;
  timer_ids_freelist : Z;
  entries : gmap Z pj_timer_entry;
  t_log : list timer_action }.

Definition HEAP_PARENT (x : nat) : nat := match x with O => O | S y => Nat.div2 y end.
Definition HEAP_LEFT (x : nat) : nat := (x + x + 1)%nat.
Definition DEFAULT_MAX_TIMED_OUT_PER_POLL : nat := 64.
Definition PJ_MAXINT32 : Z := 2147483647.

Definition with_arrays (h ids : list Z) (ht : pj_timer_heap_t) : pj_timer_heap_t :=
  mk_th (max_size ht) (cur_size ht) (max_entries_per_poll ht) h ids (timer_ids_freelist ht)
    (entries ht) (t_log ht).
Definition with_free (ids : list Z) (f : Z) (ht : pj_timer_heap_t) : pj_timer_heap_t :=
  mk_th (max_size ht) (cur_size ht) (max_entries_per_poll ht) (heap ht) ids f
    (entries ht) (t_log ht).
Definition with_size (n : nat) (ht : pj_timer_heap_t) : pj_timer_heap_t :=
  mk_th (max_size ht) n (max_entries_per_poll ht) (heap ht) (timer_ids ht)
    (timer_ids_freelist ht) (entries ht) (t_log ht).
Definition with_entry (p : Z) (e : pj_timer_entry) (ht : pj_timer_heap_t) : pj_timer_heap_t :=
  mk_th (max_size ht) (cur_size ht) (max_entries_per_poll ht) (heap ht) (timer_ids ht)
    (timer_ids_freelist ht) (<[p := e]> (entries ht)) (t_log ht).
Definition log (a : timer_action) (ht : pj_timer_heap_t) : pj_timer_heap_t :=
  mk_th (max_size ht) (cur_size ht) (max_entries_per_poll ht) (heap ht) (timer_ids ht)
    (timer_ids_freelist ht) (entries ht) (a :: t_log ht).

Definition set_timer_id (i : Z) (e : pj_timer_entry) : pj_timer_entry :=
  mk_te (te_id e) (te_has_cb e) i (_timer_value e) (_grp_lock e).

(** ** Checked array access *)

Definition read (l : list Z) (i : Z) : option Z := if 0 <=? i then l !! Z.to_nat i else None.
Definition write (l : list Z) (i : Z) (x : Z) : option (list Z) :=
  if (0 <=? i) && (i <? Z.of_nat (length l)) then Some (<[Z.to_nat i := x]> l) else None.

(** The expiry of the entry in a slot. *)
Definition value_at ht (slot : nat) : option time_val :=
  p ← heap ht !! slot; e ← entries ht !! p; Some (_timer_value e).

(** ** Heap operations *)

Definition copy_node ht (slot : nat) (moved_node : Z) : option pj_timer_heap_t :=
  e ← entries ht !! moved_node;
  h ← write (heap ht) (Z.of_nat slot) moved_node;
  ids ← write (timer_ids ht) (_timer_id e) (Z.of_nat slot);
  Some (with_arrays h ids ht).

Definition pop_freelist ht : option (Z * pj_timer_heap_t) :=
  next ← read (timer_ids ht) (timer_ids_freelist ht);
  Some (timer_ids_freelist ht, with_free (timer_ids ht) (- next) ht).

Definition push_freelist ht (old_id : Z) : option pj_timer_heap_t :=
  ids ← write (timer_ids ht) old_id (- timer_ids_freelist ht);
  Some (with_free ids old_id ht).

Fixpoint reheap_down (fuel : nat) ht (moved_node : Z) (slot child : nat)
  : option pj_timer_heap_t :=
  match fuel with
  | O => None
  | S fuel =>
      if (child <? cur_size ht)%nat then
        vl ← value_at ht child;
        child ← (if (child + 1 <? cur_size ht)%nat then
                   vr ← value_at ht (child + 1);
                   Some (if PJ_TIME_VAL_LT vr vl then child + 1 else child)%nat
                 else Some child);
        vc ← value_at ht child;
        e ← entries ht !! moved_node;
        if PJ_TIME_VAL_LT vc (_timer_value e) then
          q ← heap ht !! child;
          ht ← copy_node ht slot q;
          reheap_down fuel ht moved_node child (HEAP_LEFT child)
        else copy_node ht slot moved_node
      else copy_node ht slot moved_node
  end.

Fixpoint reheap_up (fuel : nat) ht (moved_node : Z) (slot parent : nat)
  : option pj_timer_heap_t :=
  match fuel with
  | O => None
  | S fuel =>
      if (0 <? slot)%nat then
        e ← entries ht !! moved_node;
        vp ← value_at ht parent;
        if PJ_TIME_VAL_LT (_timer_value e) vp then
          q ← heap ht !! parent;
          ht ← copy_node ht slot q;
          reheap_up fuel ht moved_node parent (HEAP_PARENT parent)
        else copy_node ht slot moved_node
      else copy_node ht slot moved_node
  end.

Definition remove_node ht (slot : nat) : option (Z * pj_timer_heap_t) :=
  removed_node ← heap ht !! slot;
  e ← entries ht !! removed_node;
  ht ← push_freelist ht (_timer_id e);
  let ht := with_size (cur_size ht - 1) ht in
  let ht := with_entry removed_node (set_timer_id (-1) e) ht in
  if (slot <? cur_size ht)%nat then
    moved_node ← heap ht !! cur_size ht;
    ht ← copy_node ht slot moved_node;
    let parent := HEAP_PARENT slot in
    m ← entries ht !! moved_node;
    vp ← value_at ht parent;
    ht ← (if PJ_TIME_VAL_GTE (_timer_value m) vp
          then reheap_down (S (cur_size ht)) ht moved_node slot (HEAP_LEFT slot)
          else reheap_up (S slot) ht moved_node slot parent);
    Some (removed_node, ht)
  else Some (removed_node, ht).

(** [-(i+1)] for [k] indices from [i]. *)
Definition free_ids (i k : nat) : list Z := (fun j => - Z.of_nat (j + 1)) <$> seq i k.

(** The new half of the heap array is uninitialised; nothing reads it. *)
Definition grow_heap ht : pj_timer_heap_t :=
  let new_size := (max_size ht * 2)%nat in
  mk_th new_size (cur_size ht) (max_entries_per_poll ht)
    (heap ht ++ replicate (new_size - max_size ht) 0)
    (timer_ids ht ++ free_ids (max_size ht) (new_size - max_size ht))
    (timer_ids_freelist ht) (entries ht) (t_log ht).

Definition insert_node ht (new_node : Z) : option pj_timer_heap_t :=
  let ht := if (max_size ht <=? cur_size ht + 2)%nat then grow_heap ht else ht in
  ht ← reheap_up (S (cur_size ht)) ht new_node (cur_size ht) (HEAP_PARENT (cur_size ht));
  Some (with_size (cur_size ht + 1) ht).

Definition schedule_entry ht (p : Z) (future_time : time_val) : option (pj_status_t * pj_timer_heap_t) :=
  if (cur_size ht <? max_size ht)%nat then
    e ← entries ht !! p;
    '(i, ht) ← pop_freelist ht;
    let ht := with_entry p (mk_te (te_id e) (te_has_cb e) i future_time (_grp_lock e)) ht in
    ht ← insert_node ht p;
    Some (0, ht)
  else Some (-1, ht).

(** [cancel] is only called with [F_DONT_CALL]. *)
Definition cancel ht (p : Z) (dont_assert : bool) : option (Z * pj_timer_heap_t) :=
  e ← entries ht !! p;
  let stale ht := Some (0, with_entry p (set_timer_id (-1) e) ht) in
  if (_timer_id e <? 0) || (Z.of_nat (max_size ht) <? _timer_id e) then stale ht
  else
    timer_node_slot ← read (timer_ids ht) (_timer_id e);
    if timer_node_slot <? 0 then stale ht
    else
      q ← heap ht !! Z.to_nat timer_node_slot;
      if negb (p =? q) then stale (if dont_assert then ht else log (TAssert 346) ht)
      else
        '(_, ht) ← remove_node ht (Z.to_nat timer_node_slot);
        Some (1, ht).

(** ** Interface *)

Definition pj_timer_heap_create (size : nat) : pj_timer_heap_t :=
  let size := (size + 2)%nat in
  mk_th size 0 DEFAULT_MAX_TIMED_OUT_PER_POLL (replicate size 0) (free_ids 0 size) 1 ∅ [].

Definition pj_timer_heap_set_max_timed_out_per_poll ht (count : nat) : nat * pj_timer_heap_t :=
  (max_entries_per_poll ht,
   mk_th (max_size ht) (cur_size ht) count (heap ht) (timer_ids ht) (timer_ids_freelist ht)
     (entries ht) (t_log ht)).

Definition pj_timer_entry_init (id : Z) (has_cb : bool) (old : pj_timer_entry) : pj_timer_entry :=
  mk_te id has_cb (-1) (_timer_value old) None.

Definition pj_timer_entry_running (e : pj_timer_entry) : bool := 1 <=? _timer_id e.

(** [now] is the result of [pj_gettickcount]; [id_val] is set only for the
    variant with a group lock. *)
Definition schedule_w_grp_lock ht (p : Z) (now delay : time_val) (set_id : bool) (id_val : Z)
    (grp_lock : option Z) : option (pj_status_t * pj_timer_heap_t) :=
  e ← entries ht !! p;
  if negb (te_has_cb e) then Some (PJ_EINVAL, log (TAssert 501) ht)
  else if negb (_timer_id e <? 1) then Some (PJ_EINVALIDOP, log (TAssert 504) ht)
  else
    '(status, ht) ← schedule_entry ht p (PJ_TIME_VAL_ADD now delay);
    if status =? PJ_SUCCESS then
      e ← entries ht !! p;
      let ht := with_entry p (mk_te (if set_id then id_val else te_id e) (te_has_cb e)
                                (_timer_id e) (_timer_value e) grp_lock) ht in
      Some (status, match grp_lock with Some l => log (TAddRef l) ht | None => ht end)
    else Some (status, ht).

Definition pj_timer_heap_schedule ht p now delay := schedule_w_grp_lock ht p now delay false 1 None.
Definition pj_timer_heap_schedule_w_grp_lock ht p now delay id_val grp_lock :=
  schedule_w_grp_lock ht p now delay true id_val grp_lock.

Definition cancel_timer ht (p : Z) (set_id dont_assert : bool) (id_val : Z)
  : option (Z * pj_timer_heap_t) :=
  '(count, ht) ← cancel ht p dont_assert;
  e ← entries ht !! p;
  let ht := with_entry p (mk_te (if set_id then id_val else te_id e) (te_has_cb e)
                            (_timer_id e) (_timer_value e) None) ht in
  Some (count, match _grp_lock e with Some l => log (TDecRef l) ht | None => ht end).

Definition pj_timer_heap_cancel ht p := cancel_timer ht p false false 0.
Definition pj_timer_heap_cancel_if_active ht p id_val := cancel_timer ht p true true id_val.

Definition pj_timer_heap_count ht : nat := cur_size ht.

Definition pj_timer_heap_earliest_time ht : option (pj_status_t * option time_val) :=
  if (cur_size ht =? 0)%nat then Some (PJ_ENOTFOUND, None)
  else v ← value_at ht 0; Some (PJ_SUCCESS, Some v).

(** One round of the loop of [pj_timer_heap_poll]: the earliest entry leaves
    the heap and its callback runs; [cb] is the effect of the callback, which
    may schedule and cancel timers. *)
Definition poll_one (cb : Z -> pj_timer_heap_t -> pj_timer_heap_t) ht
  : option (Z * pj_timer_heap_t) :=
  '(node, ht) ← remove_node ht 0;
  e ← entries ht !! node;
  let ht := with_entry node (mk_te (te_id e) (te_has_cb e) (_timer_id e) (_timer_value e) None) ht in
  let ht := if te_has_cb e then cb node (log (TCallback node) ht) else ht in
  Some (node, match _grp_lock e with Some l => log (TDecRef l) ht | None => ht end).

(** The loop; [count] entries have been processed.  It returns the nodes it
    processed, in order. *)
Fixpoint poll_loop (fuel : nat) (cb : Z -> pj_timer_heap_t -> pj_timer_heap_t) (now : time_val)
    (count : nat) ht : option (list Z * pj_timer_heap_t) :=
  match fuel with
  | O => None
  | S fuel =>
      if (cur_size ht =? 0)%nat then Some ([], ht)
      else
        v ← value_at ht 0;
        if PJ_TIME_VAL_LTE v now && (count <? max_entries_per_poll ht)%nat then
          '(node, ht) ← poll_one cb ht;
          '(nodes, ht) ← poll_loop fuel cb now (count + 1) ht;
          Some (node :: nodes, ht)
        else Some ([], ht)
  end.

(** The delay until the next expiry reported to the caller. *)
Definition next_delay (now : time_val) ht : option time_val :=
  if (cur_size ht =? 0)%nat then Some (mk_tv PJ_MAXINT32 PJ_MAXINT32)
  else
    v ← value_at ht 0;
    let d := PJ_TIME_VAL_SUB v now in
    Some (if (sec d <? 0) || (msec d <? 0) then mk_tv 0 0 else d).

(** [pj_timer_heap_poll] with a place for the next delay; the count it returns
    is the number of nodes. *)
Definition pj_timer_heap_poll (fuel : nat) (cb : Z -> pj_timer_heap_t -> pj_timer_heap_t)
    (now : time_val) ht : option (list Z * time_val * pj_timer_heap_t) :=
  '(nodes, ht) ← poll_loop fuel cb now 0 ht;
  d ← next_delay now ht;
  Some (nodes, d, ht).
