(* ===== verification/TimerHeap.v ===== *)
(** * The timer heap: arrays, order and free ids

    The loops that restore the heap order, [reheap_up] and [reheap_down], move
    a hole through the array.  Read with the moved node in the hole, each round
    exchanges two slots; the lemmas here show that the rounds keep the members
    of the heap, keep [timer_ids] in step with the slots, end, and leave the
    array ordered. *)

From Stdlib Require Import ZArith Lia Bool.
From stdpp Require Import base list numbers option gmap.
From S2P Require Import Prelude TimeVal Timer.
Local Open Scope Z_scope.

(** ** Positions *)

Lemma parent_spec j k :
  (0 < j)%nat -> HEAP_PARENT j = k <-> (j = 2 * k + 1 \/ j = 2 * k + 2)%nat.
Proof.
  destruct j as [|j]; [lia|]; intros _; cbn [HEAP_PARENT].
  pose proof (Nat.div2_odd j) as H; destruct (Nat.odd j); cbn in H; lia.
Qed.
Lemma parent_lt j : (0 < j)%nat -> (HEAP_PARENT j < j)%nat.
Proof. intros H; pose proof (proj1 (parent_spec j _ H) eq_refl); lia. Qed.

(** ** Arrays *)

Lemma write_some l i x :
  0 <= i < Z.of_nat (length l) -> write l i x = Some (<[Z.to_nat i := x]> l).
Proof. intros H; unfold write; by rewrite (proj2 (Z.leb_le _ _)), (proj2 (Z.ltb_lt _ _)) by lia. Qed.
Lemma write_nat l i x : (i < length l)%nat -> write l (Z.of_nat i) x = Some (<[i := x]> l).
Proof. intros H; rewrite write_some by lia; by rewrite Nat2Z.id. Qed.
Lemma read_some l i : 0 <= i -> read l i = l !! Z.to_nat i.
Proof. intros H; unfold read; by rewrite (proj2 (Z.leb_le _ _)) by lia. Qed.

(** Exchanging two slots permutes the array. *)
Lemma swap_perm {A} (l : list A) i j a b :
  l !! i = Some a -> l !! j = Some b -> <[i := b]> (<[j := a]> l) ≡ₚ l.
Proof.
  intros Hi Hj; destruct (decide (i = j)) as [->|Hij].
  { rewrite list_insert_insert_eq, list_insert_id; [done|congruence]. }
  assert (Li := lookup_lt_Some _ _ _ Hi); assert (Lj := lookup_lt_Some _ _ _ Hj).
  apply Permutation_inj; split; [by rewrite !length_insert|].
  exists (fun k => if decide (k = i) then j else if decide (k = j) then i else k); split.
  - intros x y; repeat case_decide; congruence.
  - intros k; repeat case_decide; subst.
    + rewrite list_lookup_insert_eq; [done|by rewrite length_insert].
    + rewrite list_lookup_insert_ne, list_lookup_insert_eq by done; done.
    + by rewrite !list_lookup_insert_ne by done.
Qed.

(** ** The order of expiry *)

Section Order.
Context (ent : gmap Z pj_timer_entry).

Definition tid (p : Z) : Z := default 0 (_timer_id <$> ent !! p).
Definition tval (p : Z) : time_val := default (mk_tv 0 0) (_timer_value <$> ent !! p).

(** [p] does not expire after [q]. *)
Definition tle (p q : Z) : Prop := PJ_TIME_VAL_LT (tval q) (tval p) = false.

Lemma tle_spec p q : tle p q <->
  sec (tval p) < sec (tval q) \/ (sec (tval p) = sec (tval q) /\ msec (tval p) <= msec (tval q)).
Proof.
  unfold tle; pose proof (tv_lt_spec (tval q) (tval p)) as H.
  destruct (PJ_TIME_VAL_LT _ _); split; try done.
  - apply proj1 in H; specialize (H eq_refl); lia.
  - intros _; apply proj2 in H.
    destruct (decide (sec (tval q) < sec (tval p) \/
      (sec (tval q) = sec (tval p) /\ msec (tval q) < msec (tval p)))) as [C|C];
      [by apply H in C|lia].
Qed.
Lemma tle_refl p : tle p p.
Proof. apply tle_spec; lia. Qed.
Lemma tle_trans p q r : tle p q -> tle q r -> tle p r.
Proof. rewrite !tle_spec; lia. Qed.
Lemma lt_tle p q : PJ_TIME_VAL_LT (tval p) (tval q) = true -> tle p q.
Proof. rewrite tv_lt_spec, tle_spec; lia. Qed.
Lemma gte_tle p q : PJ_TIME_VAL_GTE (tval p) (tval q) = true -> tle q p.
Proof. unfold tle, PJ_TIME_VAL_LT; by intros ->. Qed.
Lemma not_gte_tle p q : PJ_TIME_VAL_GTE (tval p) (tval q) = false -> tle p q.
Proof. intros H; apply lt_tle; unfold PJ_TIME_VAL_LT; by rewrite H. Qed.

(** The slots [i] and [j] of [v] are in order. *)
Definition slots_le (v : list Z) (i j : nat) : Prop :=
  forall a b, v !! i = Some a -> v !! j = Some b -> tle a b.

Definition ordered (n : nat) (v : list Z) : Prop :=
  forall j, (0 < j < n)%nat -> slots_le v (HEAP_PARENT j) j.

(** Ordered but for [slot] and its parent. *)
Definition up_order (n slot : nat) (v : list Z) : Prop :=
  (forall j, (0 < j < n)%nat -> j <> slot -> slots_le v (HEAP_PARENT j) j) /\
  (forall j, (0 < slot)%nat -> (0 < j < n)%nat -> HEAP_PARENT j = slot ->
     slots_le v (HEAP_PARENT slot) j).

(** Ordered but for [slot] and its children. *)
Definition down_order (n slot : nat) (v : list Z) : Prop :=
  (forall j, (0 < j < n)%nat -> HEAP_PARENT j <> slot -> slots_le v (HEAP_PARENT j) j) /\
  (forall j, (0 < slot)%nat -> (0 < j < n)%nat -> HEAP_PARENT j = slot ->
     slots_le v (HEAP_PARENT slot) j).

(** Look a slot up in an array with two slots exchanged. *)
Ltac look := repeat first
  [ rewrite list_lookup_insert_eq by (rewrite ?length_insert; lia)
  | rewrite list_lookup_insert_ne by lia ].

Lemma up_order_step n slot v p q :
  (0 < slot < n)%nat -> (n <= length v)%nat -> up_order n slot v ->
  v !! slot = Some p -> v !! HEAP_PARENT slot = Some q -> tle p q ->
  up_order n (HEAP_PARENT slot) (<[HEAP_PARENT slot := p]> (<[slot := q]> v)).
Proof.
  intros Hs Hn [H1 H2] Hp Hq Hpq; set (pa := HEAP_PARENT slot) in *.
  assert (Hpa : (pa < slot)%nat) by (apply parent_lt; lia).
  assert (Hq' : forall j, (0 < j < n)%nat -> j <> slot -> HEAP_PARENT j = pa ->
                forall b, v !! j = Some b -> tle q b).
  { intros j Hj Hne Hpj b Hb; apply (H1 j Hj Hne); [by rewrite Hpj|done]. }
  split; intros j; [intros Hj Hne|intros Hpa0 Hj Hpj]; intros a b.
  - assert (Hlt := parent_lt j ltac:(lia)).
    destruct (decide (j = slot)) as [->|Hjs]; [fold pa; look; by intros [= <-] [= <-]|].
    destruct (decide (HEAP_PARENT j = slot)) as [E|E].
    + rewrite E in *; look; intros [= <-] Hb; by apply (H2 j ltac:(lia) Hj E).
    + destruct (decide (HEAP_PARENT j = pa)) as [E'|E'].
      * rewrite E'; look; intros [= <-] Hb; apply tle_trans with q; [done|by apply (Hq' j)].
      * look; by apply H1.
  - assert (Hpp := parent_lt pa Hpa0); look; intros Ha Hb.
    assert (Haq : tle a q) by (eapply (H1 pa); [lia|lia|done|done]).
    destruct (decide (j = slot)) as [->|Hjs]; revert Hb.
    + look; by intros [= <-].
    + assert (Hlt := parent_lt j ltac:(lia)); look; intros Hb.
      apply tle_trans with q; [done|by apply (Hq' j)].
Qed.

Lemma up_order_done n slot v p q :
  up_order n slot v -> v !! slot = Some p -> v !! HEAP_PARENT slot = Some q ->
  slot = 0%nat \/ tle q p -> ordered n v.
Proof.
  intros [H1 _] Hp Hq Hor j Hj; destruct (decide (j = slot)) as [->|]; [|by apply H1].
  destruct Hor as [->|Hqp]; [lia|]; intros a b Ha Hb; congruence.
Qed.

Lemma down_order_step n slot child v p q :
  (child < n)%nat -> (n <= length v)%nat -> down_order n slot v ->
  (0 < child)%nat -> HEAP_PARENT child = slot ->
  v !! slot = Some p -> v !! child = Some q -> tle q p ->
  (forall j b, (0 < j < n)%nat -> HEAP_PARENT j = slot -> v !! j = Some b -> tle q b) ->
  down_order n child (<[child := p]> (<[slot := q]> v)).
Proof.
  intros Hc Hn [H1 H2] Hc0 Hpc Hp Hq Hqp Hmin.
  assert (Hsc : (slot < child)%nat) by (rewrite <- Hpc; by apply parent_lt).
  split; intros j; [intros Hj Hne|intros _ Hj Hpj]; intros a b; assert (Hlt := parent_lt j ltac:(lia)).
  - destruct (decide (j = slot)) as [->|Hjs].
    + look; intros Ha [= <-]; eapply (H2 child); try done; lia.
    + destruct (decide (HEAP_PARENT j = slot)) as [E|E].
      * rewrite E; look; intros [= <-].
        destruct (decide (j = child)) as [->|]; look; [by intros [= <-]|by apply Hmin].
      * destruct (decide (j = child)) as [->|]; [congruence|]; look; by apply H1.
  - rewrite Hpc; look; intros [= <-] Hb.
    eapply (H1 j); [done|lia|by rewrite Hpj|done].
Qed.

Lemma down_order_done n slot v p :
  down_order n slot v -> v !! slot = Some p ->
  (forall j b, (0 < j < n)%nat -> HEAP_PARENT j = slot -> v !! j = Some b -> tle p b) ->
  ordered n v.
Proof.
  intros [H1 _] Hp Hmin j Hj; destruct (decide (HEAP_PARENT j = slot)) as [E|]; [|by apply H1].
  intros a b; rewrite E, Hp; intros [= <-]; by apply Hmin.
Qed.

Lemma ordered_root n v : ordered n v -> forall j a b, (j < n)%nat ->
  (n <= length v)%nat -> v !! 0%nat = Some a -> v !! j = Some b -> tle a b.
Proof.
  intros Ho j; induction (lt_wf j) as [j _ IH]; intros a b Hj Hn Ha Hb.
  destruct (decide (j = 0%nat)) as [->|Hj0].
  { replace b with a by congruence; apply tle_refl. }
  assert (Hlt := parent_lt j ltac:(lia)).
  destruct (lookup_lt_is_Some_2 v (HEAP_PARENT j)) as [c Hc]; [lia|].
  apply tle_trans with c; [by apply (IH (HEAP_PARENT j)); try lia|].
  by apply (Ho j ltac:(lia)).
Qed.
End Order.

Lemma option_bind_some {A B} (a : A) (f : A -> option B) : (Some a ≫= f) = f a.
Proof. done. Qed.

(** ** Members and their ids *)

(** The members of the heap are known entries with distinct ids in range. *)
Record members_ok (ent : gmap Z pj_timer_entry) (mx : nat) (L : list Z) : Prop := {
  mo_nodup : NoDup L;
  mo_ent q : q ∈ L -> is_Some (ent !! q);
  mo_tid q : q ∈ L -> 1 <= tid ent q < Z.of_nat mx;
  mo_inj q q' : q ∈ L -> q' ∈ L -> tid ent q = tid ent q' -> q = q' }.

(** Slot [j] holds a node whose id leads back to [j]. *)
Definition located (ent : gmap Z pj_timer_entry) (h ids : list Z) (j : nat) : Prop :=
  forall q, h !! j = Some q -> ids !! Z.to_nat (tid ent q) = Some (Z.of_nat j).

(** [ids] differs from [ids0] at the ids of [L] only. *)
Definition ids_frame (ent : gmap Z pj_timer_entry) (L ids0 ids : list Z) : Prop :=
  forall i, (forall q, q ∈ L -> Z.to_nat (tid ent q) <> i) -> ids !! i = ids0 !! i.

(** The arrays hold the members [L] in [n] slots, in step and in order. *)
Record settled (ent : gmap Z pj_timer_entry) (mx n : nat) (L ids0 h ids : list Z) : Prop := {
  se_h : length h = mx;
  se_ids : length ids = mx;
  se_perm : take n h ≡ₚ L;
  se_at j : (j < n)%nat -> located ent h ids j;
  se_frame : ids_frame ent L ids0 ids;
  se_order : ordered ent n h }.

(** The same with a hole at [slot], for the node [p]. *)
Record placed (ent : gmap Z pj_timer_entry) (mx n : nat) (L ids0 : list Z) (slot : nat) (p : Z)
    (h ids : list Z) : Prop := {
  pl_h : length h = mx;
  pl_ids : length ids = mx;
  pl_slot : (slot < n <= mx)%nat;
  pl_perm : take n (<[slot := p]> h) ≡ₚ L;
  pl_at j : (j < n)%nat -> j <> slot -> located ent h ids j;
  pl_frame : ids_frame ent L ids0 ids }.

Section Reheap.
Context (ent : gmap Z pj_timer_entry) (mx n : nat) (L ids0 : list Z).
Hypothesis HL : members_ok ent mx L.
Abbreviation placed := (placed ent mx n L ids0).
Abbreviation settled := (settled ent mx n L ids0).

Lemma placed_elem slot p h ids j q :
  placed slot p h ids -> (j < n)%nat -> <[slot := p]> h !! j = Some q -> q ∈ L.
Proof.
  intros H Hj Hq; rewrite <- (pl_perm _ _ _ _ _ _ _ _ _ H).
  apply list_elem_of_lookup; exists j; by rewrite lookup_take_lt.
Qed.
Lemma placed_self slot p h ids : placed slot p h ids -> <[slot := p]> h !! slot = Some p.
Proof. intros [? ? ? ? ? ?]; apply list_lookup_insert_eq; lia. Qed.
Lemma placed_hole_elem slot p h ids : placed slot p h ids -> p ∈ L.
Proof. intros H; eapply placed_elem; [done|apply H|by eapply placed_self]. Qed.

Lemma member_tid q : q ∈ L -> (Z.to_nat (tid ent q) < mx)%nat /\ 1 <= tid ent q < Z.of_nat mx.
Proof. intros Hq; pose proof (mo_tid _ _ _ HL q Hq); lia. Qed.

Lemma tid_nat_inj q q' :
  q ∈ L -> q' ∈ L -> Z.to_nat (tid ent q) = Z.to_nat (tid ent q') -> q = q'.
Proof.
  intros Hq Hq' E; apply (mo_inj _ _ _ HL); [done..|].
  pose proof (member_tid q Hq); pose proof (member_tid q' Hq'); lia.
Qed.

(** No node is in two slots. *)
Lemma placed_distinct slot p h ids i j q q' :
  placed slot p h ids -> (i < n)%nat -> (j < n)%nat -> i <> j ->
  <[slot := p]> h !! i = Some q -> <[slot := p]> h !! j = Some q' -> q <> q'.
Proof.
  intros H Hi Hj Hij Hq Hq' <-; apply Hij.
  assert (N : NoDup (take n (<[slot := p]> h))).
  { rewrite (pl_perm _ _ _ _ _ _ _ _ _ H); apply HL. }
  eapply (proj1 (NoDup_alt _)); [exact N|rewrite lookup_take_lt by done; exact Hq|].
  by rewrite lookup_take_lt.
Qed.

(** A round of either loop: the node of slot [c] moves to the hole. *)
Lemma placed_move slot p h ids c q :
  placed slot p h ids -> (c < n)%nat -> c <> slot -> h !! c = Some q ->
  placed c p (<[slot := q]> h) (<[Z.to_nat (tid ent q) := Z.of_nat slot]> ids).
Proof.
  intros H Hc Hcs Hq; assert (Hq' : <[slot := p]> h !! c = Some q) by by rewrite list_lookup_insert_ne.
  assert (Hin : q ∈ L) by by eapply placed_elem.
  destruct (member_tid q Hin) as [Ht _]; pose proof H as [Hh Hi Hs Hp Hat Hf].
  split; rewrite ?length_insert; [done|done|lia| | |].
  - rewrite <- Hp; rewrite !take_insert_lt by lia.
    etransitivity; [|apply (swap_perm (<[slot := p]> (take n h)) c slot q p)].
    + by rewrite list_insert_insert_eq.
    + rewrite list_lookup_insert_ne by done; by rewrite lookup_take_lt.
    + apply list_lookup_insert_eq; rewrite length_take; lia.
  - intros j Hj Hjc q'; destruct (decide (j = slot)) as [->|Hjs].
    + rewrite list_lookup_insert_eq by lia; intros [= <-].
      rewrite list_lookup_insert_eq by lia; done.
    + rewrite list_lookup_insert_ne by done; intros Hq''.
      assert (q' <> q).
      { eapply (placed_distinct slot p h ids j c); try done; by rewrite list_lookup_insert_ne. }
      rewrite list_lookup_insert_ne; [by apply Hat|].
      intros E; apply tid_nat_inj in E; [done|done|].
      eapply placed_elem; [exact H|exact Hj|by rewrite list_lookup_insert_ne].
  - intros i Hi'; rewrite list_lookup_insert_ne by (by apply Hi'); by apply Hf.
Qed.

(** The end of either loop: the node goes to the hole. *)
Lemma placed_settle slot p h ids :
  placed slot p h ids -> ordered ent n (<[slot := p]> h) ->
  settled (<[slot := p]> h) (<[Z.to_nat (tid ent p) := Z.of_nat slot]> ids).
Proof.
  intros H Ho; assert (Hin := placed_hole_elem _ _ _ _ H).
  destruct (member_tid p Hin) as [Ht _]; pose proof H as [Hh Hi Hs Hp Hat Hf].
  split; rewrite ?length_insert; try done.
  - intros j Hj q; destruct (decide (j = slot)) as [->|Hjs].
    + rewrite list_lookup_insert_eq by lia; intros [= <-].
      rewrite list_lookup_insert_eq by lia; done.
    + intros Hq; assert (q <> p).
      { eapply (placed_distinct slot p h ids j slot); try done; [lia|by eapply placed_self]. }
      assert (q ∈ L) by by eapply placed_elem.
      rewrite list_lookup_insert_ne in Hq by done.
      rewrite list_lookup_insert_ne; [by apply Hat|].
      intros E; by apply tid_nat_inj in E.
  - intros i Hi'; rewrite list_lookup_insert_ne by (by apply Hi'); by apply Hf.
Qed.

(** ** The loops *)

Context (ht : pj_timer_heap_t).
Hypothesis Hent : entries ht = ent.

Lemma member_entry q : q ∈ L -> exists e, entries ht !! q = Some e /\
  _timer_id e = tid ent q /\ _timer_value e = tval ent q.
Proof.
  intros Hq; destruct (mo_ent _ _ _ HL q Hq) as [e He]; exists e; rewrite Hent.
  unfold tid, tval; by rewrite He.
Qed.

Lemma copy_member slot p h ids :
  p ∈ L -> (slot < length h)%nat -> length ids = mx ->
  copy_node (with_arrays h ids ht) slot p
  = Some (with_arrays (<[slot := p]> h) (<[Z.to_nat (tid ent p) := Z.of_nat slot]> ids) ht).
Proof.
  intros Hp Hs Hi; destruct (member_entry p Hp) as (e & He & Et & _).
  destruct (member_tid p Hp) as [_ Ht].
  unfold copy_node; cbn [entries with_arrays heap timer_ids]; rewrite He; cbn.
  rewrite write_nat by done; cbn; rewrite write_some, Et by lia; done.
Qed.

Lemma value_member h ids j q :
  h !! j = Some q -> q ∈ L -> value_at (with_arrays h ids ht) j = Some (tval ent q).
Proof.
  intros Hq Hin; unfold value_at; cbn [heap with_arrays]; rewrite Hq; cbn.
  by destruct (member_entry q Hin) as (e & -> & _ & <-).
Qed.

Lemma placed_read slot p h ids j :
  placed slot p h ids -> (j < n)%nat -> j <> slot ->
  exists q, h !! j = Some q /\ q ∈ L /\ <[slot := p]> h !! j = Some q /\
    value_at (with_arrays h ids ht) j = Some (tval ent q).
Proof.
  intros H Hj Hjs; destruct (lookup_lt_is_Some_2 h j) as [q Hq].
  { rewrite (pl_h _ _ _ _ _ _ _ _ _ H); pose proof (pl_slot _ _ _ _ _ _ _ _ _ H); lia. }
  assert (Hq' : <[slot := p]> h !! j = Some q) by by rewrite list_lookup_insert_ne.
  exists q; assert (Hin : q ∈ L) by by eapply placed_elem.
  repeat split; try done; by apply value_member.
Qed.

(** What the loops leave. *)
Definition reheaped (r : option pj_timer_heap_t) : Prop :=
  exists h ids, r = Some (with_arrays h ids ht) /\ settled h ids.

Lemma settle_ok slot p h ids :
  placed slot p h ids -> ordered ent n (<[slot := p]> h) ->
  reheaped (copy_node (with_arrays h ids ht) slot p).
Proof.
  intros H Ho; pose proof (pl_slot _ _ _ _ _ _ _ _ _ H); pose proof (pl_h _ _ _ _ _ _ _ _ _ H).
  rewrite copy_member; [|by eapply placed_hole_elem|lia|apply H].
  eexists _, _; split; [done|by apply placed_settle].
Qed.

(** A round on the array with the moved node in the hole exchanges two slots. *)
Lemma insert_swap (slot : nat) (p : Z) (h : list Z) (c : nat) (q : Z) :
  c <> slot -> <[c := p]> (<[slot := q]> (<[slot := p]> h)) = <[c := p]> (<[slot := q]> h).
Proof. intros; by rewrite list_insert_insert_eq. Qed.

Lemma reheap_up_ok fuel : forall slot p h ids,
  placed slot p h ids -> up_order ent n slot (<[slot := p]> h) -> (slot < fuel)%nat ->
  reheaped (reheap_up fuel (with_arrays h ids ht) p slot (HEAP_PARENT slot)).
Proof.
  induction fuel as [|fuel IH]; intros slot p h ids H Ho Hf; [lia|]; cbn [reheap_up].
  assert (Hp := placed_hole_elem _ _ _ _ H); assert (Hs := pl_slot _ _ _ _ _ _ _ _ _ H).
  assert (Hself := placed_self _ _ _ _ H).
  destruct (0 <? slot)%nat eqn:E; [apply Nat.ltb_lt in E|apply Nat.ltb_ge in E].
  2: { apply settle_ok; [done|]; replace slot with 0%nat in * by lia.
       eapply up_order_done; [done|exact Hself|exact Hself|by left]. }
  destruct (member_entry p Hp) as (e & He & _ & Ev); cbn [entries with_arrays] in *.
  rewrite He; cbn; rewrite Ev; assert (Hlt := parent_lt slot E).
  destruct (placed_read slot p h ids (HEAP_PARENT slot)) as (q & Hq & Hin & Hq' & ->); [done|lia|lia|].
  cbn; destruct (PJ_TIME_VAL_LT _ _) eqn:Hcmp.
  - rewrite Hq; cbn; rewrite copy_member; [cbn|done| |apply H].
    2: { pose proof (pl_h _ _ _ _ _ _ _ _ _ H); lia. }
    apply IH; [by apply placed_move; [|lia|lia|]| |lia].
    rewrite <- (insert_swap slot p) by lia.
    apply up_order_step; try done; [lia| |by apply lt_tle].
    rewrite length_insert; rewrite (pl_h _ _ _ _ _ _ _ _ _ H); lia.
  - apply settle_ok; [done|]; eapply up_order_done; [done|exact Hself|exact Hq'|by right].
Qed.

(** The smaller child. *)
Lemma smaller_child slot p h ids :
  placed slot p h ids -> cur_size ht = n -> (HEAP_LEFT slot < n)%nat ->
  exists c q v, value_at (with_arrays h ids ht) (HEAP_LEFT slot) = Some v /\
    (if (HEAP_LEFT slot + 1 <? n)%nat then
       vr ← value_at (with_arrays h ids ht) (HEAP_LEFT slot + 1);
       Some (if PJ_TIME_VAL_LT vr v then HEAP_LEFT slot + 1 else HEAP_LEFT slot)%nat
     else Some (HEAP_LEFT slot)) = Some c /\
    (0 < c < n)%nat /\ HEAP_PARENT c = slot /\ h !! c = Some q /\ q ∈ L /\
    value_at (with_arrays h ids ht) c = Some (tval ent q) /\
    (forall j b, (0 < j < n)%nat -> HEAP_PARENT j = slot -> <[slot := p]> h !! j = Some b ->
       tle ent q b).
Proof.
  intros H Hn Hl; unfold HEAP_LEFT in *.
  destruct (placed_read slot p h ids (slot + slot + 1)) as (ql & Hql & Hil & Hql' & Evl); [done|lia|lia|].
  assert (Hpl : HEAP_PARENT (slot + slot + 1) = slot) by (apply parent_spec; lia).
  assert (Hpr : HEAP_PARENT (slot + slot + 1 + 1) = slot) by (apply parent_spec; lia).
  assert (Hch : forall j, (0 < j)%nat -> HEAP_PARENT j = slot ->
            (j = slot + slot + 1 \/ j = slot + slot + 1 + 1)%nat).
  { intros j Hj Hpj; apply parent_spec in Hpj; lia. }
  destruct (slot + slot + 1 + 1 <? n)%nat eqn:E; [apply Nat.ltb_lt in E|apply Nat.ltb_ge in E].
  - destruct (placed_read slot p h ids (slot + slot + 1 + 1)) as (qr & Hqr & Hir & Hqr' & Evr); [done|lia|lia|].
    destruct (PJ_TIME_VAL_LT (tval ent qr) (tval ent ql)) eqn:Hcmp.
    + exists (slot + slot + 1 + 1)%nat, qr, (tval ent ql); rewrite Evl, Evr; cbn; rewrite Hcmp.
      repeat split; try done; try lia; intros j b Hj Hpj Hb.
      destruct (Hch j ltac:(lia) Hpj) as [-> | ->].
      * replace b with ql by congruence; by apply lt_tle.
      * replace b with qr by congruence; apply tle_refl.
    + exists (slot + slot + 1)%nat, ql, (tval ent ql); rewrite Evl, Evr; cbn; rewrite Hcmp.
      repeat split; try done; try lia; intros j b Hj Hpj Hb.
      destruct (Hch j ltac:(lia) Hpj) as [-> | ->].
      * replace b with ql by congruence; apply tle_refl.
      * replace b with qr by congruence; exact Hcmp.
  - exists (slot + slot + 1)%nat, ql, (tval ent ql); rewrite Evl.
    repeat split; try done; try lia; intros j b Hj Hpj Hb.
    destruct (Hch j ltac:(lia) Hpj) as [-> | ->]; [|lia].
    replace b with ql by congruence; apply tle_refl.
Qed.

Lemma reheap_down_ok fuel : forall slot p h ids,
  placed slot p h ids -> cur_size ht = n -> down_order ent n slot (<[slot := p]> h) ->
  (n < fuel + slot)%nat ->
  reheaped (reheap_down fuel (with_arrays h ids ht) p slot (HEAP_LEFT slot)).
Proof.
  induction fuel as [|fuel IH]; intros slot p h ids H Hn Ho Hf.
  { pose proof (pl_slot _ _ _ _ _ _ _ _ _ H); lia. }
  assert (Hp := placed_hole_elem _ _ _ _ H); assert (Hs := pl_slot _ _ _ _ _ _ _ _ _ H).
  assert (Hself := placed_self _ _ _ _ H); cbn [reheap_down].
  change (cur_size (with_arrays h ids ht)) with (cur_size ht); rewrite Hn.
  destruct (HEAP_LEFT slot <? n)%nat eqn:E; [apply Nat.ltb_lt in E|apply Nat.ltb_ge in E].
  2: { apply settle_ok; [done|]; eapply down_order_done; [done|exact Hself|].
       intros j b Hj Hpj; apply parent_spec in Hpj; [|lia]; unfold HEAP_LEFT in E; lia. }
  destruct (smaller_child slot p h ids H Hn E)
    as (c & q & v & -> & Hsel & Hc & Hpc & Hq & Hin & Hvc & Hmin).
  rewrite option_bind_some, Hsel, option_bind_some, Hvc, option_bind_some.
  destruct (member_entry p Hp) as (e & He & _ & Ev); cbn [entries with_arrays] in *.
  rewrite He; cbn; rewrite Ev.
  assert (Hsc : (slot < c)%nat) by (rewrite <- Hpc; apply parent_lt; lia).
  destruct (PJ_TIME_VAL_LT _ _) eqn:Hcmp.
  - rewrite Hq; cbn; rewrite copy_member; [cbn|done| |apply H].
    2: { pose proof (pl_h _ _ _ _ _ _ _ _ _ H); lia. }
    apply IH; [by apply placed_move; [|lia|lia|]|done| |lia].
    rewrite <- (insert_swap slot p) by lia.
    eapply down_order_step; [lia| |done|lia|done|exact Hself| |by apply lt_tle|done].
    + rewrite length_insert; rewrite (pl_h _ _ _ _ _ _ _ _ _ H); lia.
    + by rewrite list_lookup_insert_ne by lia.
  - apply settle_ok; [done|]; eapply down_order_done; [done|exact Hself|].
    intros j b Hj Hpj Hb; apply tle_trans with q; [exact Hcmp|by apply (Hmin j)].
Qed.
End Reheap.
