(* ===== verification/TimerSpec.v ===== *)
(** * The timer heap as a map from entries to expiry times

    The invariant of the heap (order, ids in step with slots, the stack of
    free ids disjoint from the ids in use and long enough) and the refinement:
    scheduling inserts an entry in the map of running timers, cancelling
    deletes it, polling removes the earliest ones that are due, and no
    operation reads or writes outside an array. *)

From Stdlib Require Import ZArith Lia Bool Sorted.
From stdpp Require Import base list numbers option gmap fin_maps.
From S2P Require Import Prelude TimeVal Timer TimerHeap.
Local Open Scope Z_scope.

(** ** Free ids *)

(** From [f], the links in [ids] run through [fl] and end at [last]. *)
Fixpoint free_chain (ids : list Z) (f : Z) (fl : list Z) (last : Z) : Prop :=
  match fl with
  | [] => f = last
  | x :: fl => f = x /\ exists y, ids !! Z.to_nat x = Some (- y) /\ free_chain ids y fl last
  end.

(** The free ids of a heap of size [mx] whose ids [U] are in use. *)
Record free_list (ids : list Z) (f : Z) (mx : nat) (U fl : list Z) : Prop := {
  fr_chain : free_chain ids f fl (Z.of_nat mx);
  fr_nodup : NoDup fl;
  fr_range x : x ∈ fl -> 1 <= x < Z.of_nat mx;
  fr_disj x : x ∈ fl -> x ∉ U;
  fr_count : (length fl + length U + 1 = mx)%nat }.
Definition free_ok ids f mx U : Prop := exists fl, free_list ids f mx U fl.

Lemma free_chain_ext ids ids' f fl last :
  (forall x, x ∈ fl -> ids' !! Z.to_nat x = ids !! Z.to_nat x) ->
  free_chain ids f fl last -> free_chain ids' f fl last.
Proof.
  revert f; induction fl as [|x fl IH]; intros f H; [done|]; intros [-> (y & Hy & Hc)].
  split; [done|exists y; split; [rewrite H; [done|left]|apply IH; [|done]]].
  intros z Hz; apply H; by right.
Qed.
Lemma free_chain_app ids f fl mid fl' last :
  free_chain ids f fl mid -> free_chain ids mid fl' last -> free_chain ids f (fl ++ fl') last.
Proof.
  revert f; induction fl as [|x fl IH]; intros f; cbn; [by intros ->|].
  intros [-> (y & Hy & Hc)] H; eauto.
Qed.
Lemma free_chain_seq ids k : forall i,
  (forall j, (i <= j < i + k)%nat -> ids !! j = Some (- Z.of_nat (j + 1))) ->
  free_chain ids (Z.of_nat i) (Z.of_nat <$> seq i k) (Z.of_nat (i + k)).
Proof.
  induction k as [|k IH]; intros i H; cbn; [f_equal; lia|].
  split; [done|exists (Z.of_nat (S i)); split].
  - rewrite Nat2Z.id, H by lia; do 2 f_equal; lia.
  - replace (i + S k)%nat with (S i + k)%nat by lia; apply IH; intros j Hj; apply H; lia.
Qed.

Lemma length_free_ids i k : length (free_ids i k) = k.
Proof. unfold free_ids; by rewrite length_fmap, length_seq. Qed.
Lemma lookup_free_ids i k j :
  (j < k)%nat -> free_ids i k !! j = Some (- Z.of_nat (i + j + 1)).
Proof.
  intros Hj; unfold free_ids; rewrite list_lookup_fmap, lookup_seq_lt by done; done.
Qed.
Lemma elem_of_zseq x i k : x ∈ (Z.of_nat <$> seq i k) <-> Z.of_nat i <= x < Z.of_nat (i + k).
Proof.
  rewrite list_elem_of_fmap; setoid_rewrite elem_of_seq; split.
  - intros (j & -> & Hj); lia.
  - intros Hx; exists (Z.to_nat x); lia.
Qed.

Lemma free_ok_pop ids f mx U :
  free_ok ids f mx U -> (length U + 2 <= mx)%nat ->
  1 <= f < Z.of_nat mx /\ (f ∉ U) /\
  exists y, read ids f = Some (- y) /\ free_ok ids y mx (f :: U).
Proof.
  intros [[|x fl] [Hc Hn Hr Hd Hl]] HU; [cbn in Hl; lia|].
  destruct Hc as [-> (y & Hy & Hc)]; assert (Hx := Hr x ltac:(left)).
  split; [done|split; [apply Hd; left|exists y; split; [rewrite read_some; [done|lia]|]]].
  apply NoDup_cons in Hn as [Hx' Hn]; exists fl; split; try done.
  - intros z Hz; apply Hr; by right.
  - intros z Hz; rewrite elem_of_cons; intros [->|Hz']; [done|].
    revert Hz'; apply Hd; by right.
  - cbn in Hl |- *; lia.
Qed.

Lemma free_ok_push ids f mx U x :
  length ids = mx -> 1 <= x < Z.of_nat mx -> x ∉ U -> free_ok ids f mx (x :: U) ->
  free_ok (<[Z.to_nat x := - f]> ids) x mx U.
Proof.
  intros Hi Hx HxU [fl [Hc Hn Hr Hd Hl]]; exists (x :: fl).
  assert (Hxfl : x ∉ fl) by (intros H; apply (Hd x H); left).
  split.
  - split; [done|exists f; split; [apply list_lookup_insert_eq; lia|]].
    eapply free_chain_ext; [|done]; intros z Hz.
    pose proof (Hr z Hz); rewrite list_lookup_insert_ne; [done|].
    intros E; apply Hxfl; by replace x with z by lia.
  - by apply NoDup_cons.
  - intros z; rewrite elem_of_cons; intros [->|Hz]; [done|by apply Hr].
  - intros z; rewrite elem_of_cons; intros [->|Hz]; [done|].
    intros HzU; apply (Hd z Hz); by right.
  - cbn in Hl |- *; lia.
Qed.

Lemma free_ok_grow ids f mx U :
  length ids = mx -> (forall x, x ∈ U -> x < Z.of_nat mx) -> (0 < mx)%nat ->
  free_ok ids f mx U -> free_ok (ids ++ free_ids mx mx) f (mx + mx) U.
Proof.
  intros Hi HU Hmx [fl [Hc Hn Hr Hd Hl]]; exists (fl ++ (Z.of_nat <$> seq mx mx)); split.
  - apply free_chain_app with (Z.of_nat mx).
    + eapply free_chain_ext; [|done]; intros x Hx; pose proof (Hr x Hx).
      rewrite lookup_app_l; [done|lia].
    + apply free_chain_seq; intros j Hj; rewrite lookup_app_r by lia.
      rewrite lookup_free_ids by lia; do 2 f_equal; lia.
  - apply NoDup_app; split; [done|split].
    + intros x Hx; rewrite elem_of_zseq; pose proof (Hr x Hx); lia.
    + apply NoDup_fmap_2; [apply _|apply NoDup_seq].
  - intros x; rewrite elem_of_app, elem_of_zseq; intros [Hx|Hx]; [pose proof (Hr x Hx)|]; lia.
  - intros x; rewrite elem_of_app, elem_of_zseq; intros [Hx|Hx]; [by apply Hd|].
    intros H; apply HU in H; lia.
  - rewrite length_app, length_fmap, length_seq; lia.
Qed.

Lemma free_ok_frame ids ids' f mx U :
  (forall x, 1 <= x < Z.of_nat mx -> x ∉ U -> ids' !! Z.to_nat x = ids !! Z.to_nat x) ->
  free_ok ids f mx U -> free_ok ids' f mx U.
Proof.
  intros H [fl [Hc Hn Hr Hd Hl]]; exists fl; split; try done.
  eapply free_chain_ext; [|done]; intros x Hx; apply H; auto.
Qed.

Lemma free_ok_perm ids f mx U U' : U ≡ₚ U' -> free_ok ids f mx U -> free_ok ids f mx U'.
Proof.
  intros HU [fl [Hc Hn Hr Hd Hl]]; exists fl; split; try done.
  - intros x Hx; rewrite <- HU; by apply Hd.
  - by rewrite <- HU.
Qed.

(** ** The invariant *)

(** The heap holds the entries [L] and the ids [U] are taken. *)
Record heap_repr (L U : list Z) (ht : pj_timer_heap_t) : Prop := {
  hr_members : members_ok (entries ht) (max_size ht) L;
  hr_settled : settled (entries ht) (max_size ht) (cur_size ht) L (timer_ids ht) (heap ht) (timer_ids ht);
  hr_size : length L = cur_size ht;
  hr_free : free_ok (timer_ids ht) (timer_ids_freelist ht) (max_size ht) U;
  hr_zero : exists z, timer_ids ht !! 0%nat = Some z /\ z < 0 }.

Definition running_in (ent : gmap Z pj_timer_entry) (p : Z) : Prop := 1 <= tid ent p.

Definition heap_wf (ht : pj_timer_heap_t) : Prop :=
  exists L, heap_repr L (tid (entries ht) <$> L) ht /\ (cur_size ht + 2 <= max_size ht)%nat /\
    (forall p, p ∈ L <-> running_in (entries ht) p).

(** The running timers and when they expire. *)
Definition active (ht : pj_timer_heap_t) : gmap Z time_val :=
  omap (fun e => if pj_timer_entry_running e then Some (_timer_value e) else None) (entries ht).

(** *** Changes of the store that the heap does not see *)

Lemma tid_insert ent p e q :
  tid (<[p := e]> ent) q = if decide (q = p) then _timer_id e else tid ent q.
Proof.
  unfold tid; case_decide; subst; [by rewrite lookup_insert_eq|by rewrite lookup_insert_ne].
Qed.
Lemma tval_insert ent p e q :
  tval (<[p := e]> ent) q = if decide (q = p) then _timer_value e else tval ent q.
Proof.
  unfold tval; case_decide; subst; [by rewrite lookup_insert_eq|by rewrite lookup_insert_ne].
Qed.

(** Two stores that agree on the members. *)
Definition same_members (L : list Z) (ent ent' : gmap Z pj_timer_entry) : Prop :=
  forall q, q ∈ L -> (is_Some (ent !! q) -> is_Some (ent' !! q)) /\
    tid ent' q = tid ent q /\ tval ent' q = tval ent q.

Lemma members_ok_ext ent ent' mx L :
  same_members L ent ent' -> members_ok ent mx L -> members_ok ent' mx L.
Proof.
  intros H [Hn He Ht Hi]; split; [done|intros q Hq..|].
  - by apply (H q Hq), He.
  - destruct (H q Hq) as (_ & -> & _); by apply Ht.
  - intros q q' Hq Hq'; destruct (H q Hq) as (_ & -> & _), (H q' Hq') as (_ & -> & _); by apply Hi.
Qed.

Lemma settled_elem ent mx n L ids0 h ids j q :
  settled ent mx n L ids0 h ids -> (j < n)%nat -> h !! j = Some q -> q ∈ L.
Proof.
  intros H Hj Hq; rewrite <- (se_perm _ _ _ _ _ _ _ H); apply list_elem_of_lookup.
  exists j; by rewrite lookup_take_lt.
Qed.

Lemma settled_ext ent ent' mx n L ids0 h ids :
  same_members L ent ent' -> settled ent mx n L ids0 h ids -> settled ent' mx n L ids0 h ids.
Proof.
  intros H S; assert (E := fun j q => settled_elem _ _ _ _ _ _ _ j q S).
  destruct S as [Hh Hi Hp Hat Hf Ho]; split; try done.
  - intros j Hj q Hq; destruct (H q (E _ _ Hj Hq)) as (_ & -> & _); by apply Hat.
  - intros i Hq; apply Hf; intros q Hin; destruct (H q Hin) as (_ & <- & _); by apply Hq.
  - intros j Hj a b Ha Hb; assert (Hlt := parent_lt j ltac:(lia)); unfold tle.
    destruct (H a (E (HEAP_PARENT j) a ltac:(lia) Ha)) as (_ & _ & ->), (H b (E j b ltac:(lia) Hb)) as (_ & _ & ->).
    by apply Ho with j.
Qed.

Lemma repr_with_entry L U ht p e :
  heap_repr L U ht ->
  (p ∈ L -> _timer_id e = tid (entries ht) p /\ _timer_value e = tval (entries ht) p) ->
  heap_repr L U (with_entry p e ht).
Proof.
  intros [Hm Hs Hl Hf Hz] Hp.
  assert (S : same_members L (entries ht) (<[p := e]> (entries ht))).
  { intros q Hq; rewrite tid_insert, tval_insert.
    case_decide as E; [subst; destruct (Hp Hq) as [-> ->]|]; (split; [|done]).
    - rewrite lookup_insert_eq; eauto.
    - by rewrite lookup_insert_ne. }
  split; try done; [by apply (members_ok_ext (entries ht))|by apply (settled_ext (entries ht))].
Qed.

Lemma repr_log L U ht a : heap_repr L U ht -> heap_repr L U (log a ht).
Proof. by intros []. Qed.

Lemma settled_rebase ent mx n L ids0 h ids :
  settled ent mx n L ids0 h ids -> settled ent mx n L ids h ids.
Proof. by intros []. Qed.

(** The earliest entry is in slot 0. *)
Lemma repr_root L U ht :
  heap_repr L U ht -> L <> [] ->
  exists p, heap ht !! 0%nat = Some p /\ p ∈ L /\ value_at ht 0 = Some (tval (entries ht) p) /\
    forall q, q ∈ L -> tle (entries ht) p q.
Proof.
  intros [Hm Hs Hl Hf Hz] HL; assert (0 < cur_size ht)%nat by (destruct L; [done|cbn in *; lia]).
  assert (Hmx : (cur_size ht <= length (heap ht))%nat).
  { rewrite <- Hl, <- (se_perm _ _ _ _ _ _ _ Hs), length_take; lia. }
  destruct (lookup_lt_is_Some_2 (heap ht) 0) as [p Hp]; [lia|]; exists p.
  assert (HpL : p ∈ L) by by eapply (settled_elem _ _ _ _ _ _ _ 0).
  repeat split; try done.
  - unfold value_at; rewrite Hp; cbn; unfold tval.
    destruct (mo_ent _ _ _ Hm p HpL) as [e He]; by rewrite He.
  - intros q Hq; rewrite <- (se_perm _ _ _ _ _ _ _ Hs) in Hq.
    apply list_elem_of_lookup in Hq as [j Hj]; apply lookup_take_Some in Hj as [Hj ?].
    by eapply (ordered_root _ _ _ (se_order _ _ _ _ _ _ _ Hs) j).
Qed.

(** ** Removal *)

(** Taking slot [slot] out of the first [n] by moving the last one there. *)
Lemma take_remove {A} (h : list A) n slot p m :
  (slot < n)%nat -> h !! slot = Some p -> h !! n = Some m ->
  take (S n) h ≡ₚ p :: take n (<[slot := m]> h).
Proof.
  intros Hs Hp Hm; rewrite (take_S_r _ _ m) by done.
  rewrite take_insert_lt by done.
  assert (Hp' : take n h !! slot = Some p) by by rewrite lookup_take_lt.
  assert (Hlt := lookup_lt_Some _ _ _ Hp').
  rewrite <- (take_drop_middle _ _ _ Hp') at 1.
  rewrite (insert_take_drop _ _ _ Hlt).
  rewrite <- app_assoc; cbn; rewrite <- Permutation_middle.
  apply Permutation_skip, Permutation_app_head; symmetry; apply Permutation_cons_append.
Qed.

Section Remove.
Context (ht : pj_timer_heap_t) (L : list Z) (slot : nat) (p : Z) (e : pj_timer_entry).
Hypothesis HR : heap_repr L (tid (entries ht) <$> L) ht.
Hypothesis Hslot : (slot < cur_size ht)%nat.
Hypothesis Hp : heap ht !! slot = Some p.
Hypothesis He : entries ht !! p = Some e.

Let ent' := <[p := set_timer_id (-1) e]> (entries ht).
Let ids1 := <[Z.to_nat (_timer_id e) := - timer_ids_freelist ht]> (timer_ids ht).
Let n := (cur_size ht - 1)%nat.
Let ht1 := with_entry p (set_timer_id (-1) e) (with_size n (with_free ids1 (_timer_id e) ht)).

Lemma rm_tval q : tval ent' q = tval (entries ht) q.
Proof. unfold ent'; rewrite tval_insert; case_decide; [subst; unfold tval; by rewrite He|done]. Qed.
Lemma rm_tle a b : tle ent' a b <-> tle (entries ht) a b.
Proof. unfold tle; by rewrite !rm_tval. Qed.
Lemma rm_tid q : q <> p -> tid ent' q = tid (entries ht) q.
Proof. intros H; unfold ent'; rewrite tid_insert; by case_decide. Qed.
Lemma rm_elem : p ∈ L.
Proof. by eapply settled_elem; [apply HR|exact Hslot|]. Qed.
Lemma rm_tid_p : _timer_id e = tid (entries ht) p.
Proof. unfold tid; by rewrite He. Qed.
Lemma rm_range : 1 <= _timer_id e < Z.of_nat (max_size ht).
Proof. rewrite rm_tid_p; apply (mo_tid _ _ _ (hr_members _ _ _ HR)), rm_elem. Qed.
Lemma rm_len : length (heap ht) = max_size ht /\ length (timer_ids ht) = max_size ht /\
  (cur_size ht <= max_size ht)%nat.
Proof.
  destruct (hr_settled _ _ _ HR) as [Hh Hi Hpm _ _ _]; split; [done|split; [done|]].
  rewrite <- (hr_size _ _ _ HR), <- Hpm, length_take; lia.
Qed.

Lemma push_removed :
  push_freelist ht (_timer_id e) = Some (with_free ids1 (_timer_id e) ht).
Proof.
  unfold push_freelist; pose proof rm_range; destruct rm_len as (_ & Hi & _).
  by rewrite write_some by lia.
Qed.

(** The members that stay. *)
Lemma rm_sub L' : L ≡ₚ p :: L' ->
  (p ∉ L') /\ NoDup L' /\
  forall q, q ∈ L' -> q ∈ L /\ q <> p /\ tid ent' q = tid (entries ht) q.
Proof.
  intros HL; assert (N := mo_nodup _ _ _ (hr_members _ _ _ HR)).
  rewrite HL in N; apply NoDup_cons in N as [? ?]; split; [done|split; [done|]].
  intros q Hq; assert (q <> p) by congruence.
  split; [rewrite HL; by right|split; [done|by apply rm_tid]].
Qed.

Lemma rm_members L' : L ≡ₚ p :: L' -> members_ok ent' (max_size ht) L'.
Proof.
  intros HL; destruct (rm_sub L' HL) as (_ & Hn & Hsub).
  destruct (hr_members _ _ _ HR) as [_ Hm Ht Hi].
  split; [done|intros q Hq; destruct (Hsub q Hq) as (? & ? & E)..|].
  - unfold ent'; rewrite lookup_insert_ne by done; by apply Hm.
  - rewrite E; by apply Ht.
  - intros q q' Hq Hq'; destruct (Hsub q Hq) as (? & _ & ->), (Hsub q' Hq') as (? & _ & ->).
    by apply Hi.
Qed.

(** What the removal leaves when the arrays are settled for the rest. *)
Lemma removed_repr L' h ids :
  L ≡ₚ p :: L' -> settled ent' (max_size ht) n L' ids1 h ids ->
  heap_repr L' (tid ent' <$> L') (with_arrays h ids ht1).
Proof.
  intros HL S; destruct (rm_sub L' HL) as (HpL' & _ & Hsub).
  pose proof (hr_members _ _ _ HR) as [_ _ Ht Hi].
  assert (Hmap : tid ent' <$> L' = tid (entries ht) <$> L').
  { apply list_fmap_ext; intros ? q Hq; apply Hsub; by apply list_elem_of_lookup_2 in Hq. }
  pose proof rm_range as Hr; destruct rm_len as (_ & Hlen & _).
  assert (HpU : _timer_id e ∉ tid (entries ht) <$> L').
  { intros (q & E & Hq)%list_elem_of_fmap; apply HpL'; rewrite rm_tid_p in E.
    apply Hi in E; [by subst|apply rm_elem|by apply Hsub]. }
  split; cbn [entries max_size cur_size heap timer_ids timer_ids_freelist with_arrays
              with_entry with_size with_free ht1].
  - by apply rm_members.
  - by eapply settled_rebase.
  - pose proof (hr_size _ _ _ HR) as Hs; rewrite HL in Hs; cbn in Hs; unfold n; lia.
  - rewrite Hmap; eapply free_ok_frame; [|apply (free_ok_push (timer_ids ht)); try done].
    + intros x Hx HxU; apply (se_frame _ _ _ _ _ _ _ S); intros q Hq E.
      destruct (Hsub q Hq) as (HqL & _ & Eq); pose proof (Ht q HqL); rewrite Eq in E.
      apply HxU, list_elem_of_fmap; exists q; split; [lia|done].
    + eapply free_ok_perm; [|apply HR]; rewrite HL; cbn; by rewrite rm_tid_p.
  - destruct (hr_zero _ _ _ HR) as (z & Hz & Hz0); exists z; split; [|done].
    rewrite (se_frame _ _ _ _ _ _ _ S).
    + unfold ids1; rewrite list_lookup_insert_ne by lia; done.
    + intros q Hq; destruct (Hsub q Hq) as (HqL & _ & ->); pose proof (Ht q HqL); lia.
Qed.

(** *** The last slot *)

Lemma remove_last :
  slot = n -> exists L', L ≡ₚ p :: L' /\ settled ent' (max_size ht) n L' ids1 (heap ht) ids1.
Proof.
  intros Es; assert (Hpn : heap ht !! n = Some p) by by rewrite <- Es.
  destruct (hr_settled _ _ _ HR) as [Hh Hi Hpm Hat _ Ho].
  assert (HL : L ≡ₚ p :: take n (heap ht)).
  { rewrite <- Hpm; replace (cur_size ht) with (S n) by (unfold n; lia).
    rewrite (take_S_r _ _ p) by done; symmetry; apply Permutation_cons_append. }
  exists (take n (heap ht)); split; [done|]; destruct (rm_sub _ HL) as (_ & _ & Hsub).
  assert (Hin : forall j q, (j < n)%nat -> heap ht !! j = Some q -> q ∈ take n (heap ht)).
  { intros j q Hj Hq; apply list_elem_of_lookup; exists j; by rewrite lookup_take_lt. }
  split; unfold ids1; rewrite ?length_insert; try done.
  - intros j Hj q Hq; destruct (Hsub q (Hin _ _ Hj Hq)) as (HqL & Hne & ->).
    rewrite list_lookup_insert_ne; [apply Hat; [lia|done]|].
    intros E; apply Hne; symmetry; apply (mo_inj _ _ _ (hr_members _ _ _ HR)); [apply rm_elem|done|].
    pose proof rm_range; pose proof (mo_tid _ _ _ (hr_members _ _ _ HR) q HqL).
    rewrite <- rm_tid_p; lia.
  - intros j Hj a b Ha Hb; apply rm_tle; by apply (Ho j ltac:(lia)).
Qed.

(** *** The last node moves to the slot *)

Section Moved.
Context (m : Z).
Hypothesis Hsn : (slot < n)%nat.
Hypothesis Hm : heap ht !! n = Some m.

Let h1 := <[slot := m]> (heap ht).
Let L' := take n h1.
Let ids2 := <[Z.to_nat (tid ent' m) := Z.of_nat slot]> ids1.

Lemma mv_perm : L ≡ₚ p :: L'.
Proof.
  rewrite <- (se_perm _ _ _ _ _ _ _ (hr_settled _ _ _ HR)).
  replace (cur_size ht) with (S n) by (unfold n; lia); by apply take_remove.
Qed.

Lemma mv_placed : placed ent' (max_size ht) n L' ids1 slot m h1 ids2.
Proof.
  destruct (hr_settled _ _ _ HR) as [Hh Hi _ Hat _ _]; destruct rm_len as (_ & _ & Hle).
  destruct (rm_sub L' mv_perm) as (_ & _ & Hsub).
  assert (Hin : forall j q, (j < n)%nat -> h1 !! j = Some q -> q ∈ L').
  { intros j q Hj Hq; apply list_elem_of_lookup; exists j; unfold L'; by rewrite lookup_take_lt. }
  assert (HmL : m ∈ L') by (apply (Hin slot); [done|apply list_lookup_insert_eq; lia]).
  assert (Hinj := mo_inj _ _ _ (hr_members _ _ _ HR)).
  assert (Hrng := mo_tid _ _ _ (hr_members _ _ _ HR)).
  split; unfold h1, ids2, ids1; rewrite ?length_insert; try done.
  - unfold n in *; lia.
  - unfold L', h1; by rewrite list_insert_insert_eq.
  - intros j Hj Hne q Hq; rewrite list_lookup_insert_ne in Hq by done.
    assert (HqL' : q ∈ L') by (apply (Hin j); [done|unfold h1; by rewrite list_lookup_insert_ne]).
    destruct (Hsub q HqL') as (HqL & Hqp & ->), (Hsub m HmL) as (HmL0 & _ & ->).
    assert (Hqm : q <> m).
    { intros ->; assert (E1 := Hat j ltac:(unfold n in *; lia) m Hq).
      assert (E2 := Hat n ltac:(unfold n in *; lia) m Hm); rewrite E1 in E2.
      injection E2; lia. }
    pose proof (Hrng q HqL); pose proof (Hrng m HmL0); pose proof rm_range.
    rewrite !list_lookup_insert_ne; [apply Hat; [unfold n in *; lia|done]| |].
    + intros E; apply Hqp; symmetry; apply Hinj; [apply rm_elem|done|]; rewrite <- rm_tid_p; lia.
    + intros E; apply Hqm, Hinj; [done|done|lia].
  - intros i Hi'; rewrite list_lookup_insert_ne; [done|by apply Hi'].
Qed.

Lemma mv_slots i j : (0 < j < n)%nat -> i = HEAP_PARENT j -> i <> slot -> j <> slot ->
  slots_le ent' h1 i j.
Proof.
  intros Hj -> Hi Hjs a b; unfold h1; rewrite !list_lookup_insert_ne by done; intros Ha Hb.
  apply rm_tle; apply (se_order _ _ _ _ _ _ _ (hr_settled _ _ _ HR) j); [unfold n in *; lia|done..].
Qed.

(** The children of the slot expire after its old node, and after its parent. *)
Lemma mv_child j b : (0 < j < n)%nat -> HEAP_PARENT j = slot -> h1 !! j = Some b -> tle ent' p b.
Proof.
  intros Hj Hpj; assert (Hlt := parent_lt j ltac:(lia)); unfold h1.
  rewrite list_lookup_insert_ne by lia; intros Hb; apply rm_tle.
  apply (se_order _ _ _ _ _ _ _ (hr_settled _ _ _ HR) j); [unfold n in *; lia|by rewrite Hpj|done].
Qed.
Lemma mv_parent a : (0 < slot)%nat -> h1 !! HEAP_PARENT slot = Some a -> tle ent' a p.
Proof.
  intros H0; assert (Hlt := parent_lt slot H0); unfold h1.
  rewrite list_lookup_insert_ne by lia; intros Ha; apply rm_tle.
  by apply (se_order _ _ _ _ _ _ _ (hr_settled _ _ _ HR) slot).
Qed.

Lemma mv_down a :
  h1 !! HEAP_PARENT slot = Some a -> tle ent' a m -> down_order ent' n slot h1.
Proof.
  intros Ha Ham; assert (Hself : h1 !! slot = Some m).
  { apply list_lookup_insert_eq; destruct rm_len; unfold n in *; lia. }
  split.
  - intros j Hj Hne; destruct (decide (j = slot)) as [->|]; [|by apply mv_slots].
    intros a' b Ha' Hb; congruence.
  - intros j H0 Hj Hpj a' b Ha' Hb; apply tle_trans with p; [by apply mv_parent|by apply (mv_child j)].
Qed.

Lemma mv_up a :
  h1 !! HEAP_PARENT slot = Some a -> tle ent' m a -> (0 < slot)%nat -> up_order ent' n slot h1.
Proof.
  intros Ha Hma H0; assert (Hself : h1 !! slot = Some m).
  { apply list_lookup_insert_eq; destruct rm_len; unfold n in *; lia. }
  split.
  - intros j Hj Hne; destruct (decide (HEAP_PARENT j = slot)) as [E|]; [|by apply mv_slots].
    intros a' b; rewrite E, Hself; intros [= <-] Hb.
    apply tle_trans with a; [done|apply tle_trans with p; [by apply mv_parent|by apply (mv_child j)]].
  - intros j _ Hj Hpj a' b Ha' Hb; apply tle_trans with p; [by apply mv_parent|by apply (mv_child j)].
Qed.
End Moved.

Lemma moved_reheaped m :
  (slot < n)%nat -> heap ht !! n = Some m ->
  exists h ids, settled ent' (max_size ht) n (take n (<[slot := m]> (heap ht))) ids1 h ids /\
    (ht2 ← copy_node ht1 slot m;
     mv ← entries ht2 !! m;
     vp ← value_at ht2 (HEAP_PARENT slot);
     ht3 ← (if PJ_TIME_VAL_GTE (_timer_value mv) vp
            then reheap_down (S (cur_size ht2)) ht2 m slot (HEAP_LEFT slot)
            else reheap_up (S slot) ht2 m slot (HEAP_PARENT slot));
     Some (p, ht3)) = Some (p, with_arrays h ids ht1).
Proof.
  intros Hsn Hm; set (h1 := <[slot := m]> (heap ht)); set (L' := take n h1).
  assert (Hme := rm_members L' (mv_perm m Hsn Hm)); assert (Hpl := mv_placed m Hsn Hm).
  destruct rm_len as (Hh & Hi & Hle).
  assert (HmL : m ∈ L') by by eapply placed_hole_elem.
  change ht1 with (with_arrays (heap ht) ids1 ht1) at 1.
  rewrite (copy_member ent' (max_size ht) L' Hme ht1 eq_refl) by
    (unfold ids1; rewrite ?length_insert; first [done|unfold n in *; lia]).
  rewrite option_bind_some; fold h1.
  set (ids2 := <[Z.to_nat (tid ent' m) := Z.of_nat slot]> ids1) in *.
  destruct (member_entry ent' (max_size ht) L' Hme ht1 eq_refl m HmL) as (em & Hem & _ & Ev).
  change (entries (with_arrays h1 ids2 ht1)) with (entries ht1); rewrite Hem, option_bind_some, Ev.
  assert (Hpar : (HEAP_PARENT slot < n)%nat) by (destruct slot; [done|pose proof (parent_lt (S n0)); lia]).
  destruct (lookup_lt_is_Some_2 h1 (HEAP_PARENT slot)) as [a Ha].
  { unfold h1; rewrite length_insert; unfold n in *; lia. }
  assert (HaL : a ∈ L').
  { apply list_elem_of_lookup; exists (HEAP_PARENT slot); unfold L'; by rewrite lookup_take_lt. }
  rewrite (value_member ent' (max_size ht) L' Hme ht1 eq_refl h1 ids2 _ a Ha HaL), option_bind_some.
  assert (Hsame : <[slot := m]> h1 = h1) by apply list_insert_insert_eq.
  destruct (PJ_TIME_VAL_GTE _ _) eqn:Hcmp.
  - change (cur_size (with_arrays h1 ids2 ht1)) with n.
    destruct (reheap_down_ok ent' (max_size ht) n L' ids1 Hme ht1 eq_refl (S n) slot m h1 ids2)
      as (h & ids & -> & Hset); [exact Hpl|done| |lia|by exists h, ids].
    rewrite Hsame; eapply mv_down; [done|exact Ha|by apply gte_tle].
  - destruct (reheap_up_ok ent' (max_size ht) n L' ids1 Hme ht1 eq_refl (S slot) slot m h1 ids2)
      as (h & ids & -> & Hset); [exact Hpl| |lia|by exists h, ids].
    rewrite Hsame; eapply mv_up; [done|exact Ha|by apply not_gte_tle|].
    destruct (decide (slot = 0%nat)) as [E|]; [|lia]; exfalso; revert Hcmp Ha; rewrite E.
    unfold h1; rewrite E; cbn [HEAP_PARENT]; rewrite list_lookup_insert_eq by lia.
    intros Hcmp [= <-]; pose proof (tv_lt_irrefl (tval ent' m)); unfold PJ_TIME_VAL_LT in *.
    by rewrite Hcmp in *.
Qed.

Lemma remove_node_ok :
  exists L' h ids, L ≡ₚ p :: L' /\
    remove_node ht slot = Some (p, with_arrays h ids ht1) /\
    heap_repr L' (tid ent' <$> L') (with_arrays h ids ht1).
Proof.
  unfold remove_node; rewrite Hp, option_bind_some, He, option_bind_some, push_removed, option_bind_some.
  cbv zeta; change (with_entry p _ (with_size _ _)) with ht1; change (cur_size ht1) with n.
  destruct (slot <? n)%nat eqn:E; [apply Nat.ltb_lt in E|apply Nat.ltb_ge in E].
  - destruct rm_len as (Hh & _ & Hle).
    destruct (lookup_lt_is_Some_2 (heap ht) n) as [m Hm]; [unfold n in *; lia|].
    change (heap ht1) with (heap ht); rewrite Hm, option_bind_some.
    destruct (moved_reheaped m E Hm) as (h & ids & Hset & Hrun).
    eexists _, h, ids; split; [apply (mv_perm m E Hm)|split; [exact Hrun|]].
    apply removed_repr; [by apply mv_perm|done].
  - destruct remove_last as (L' & HL & Hset); [unfold n in *; lia|].
    exists L', (heap ht), ids1; split; [done|split; [done|by apply removed_repr]].
Qed.
End Remove.

(** ** Insertion *)

Lemma repr_pop L U ht :
  heap_repr L U ht -> (length U + 2 <= max_size ht)%nat ->
  exists x y, pop_freelist ht = Some (x, with_free (timer_ids ht) y ht) /\
    1 <= x < Z.of_nat (max_size ht) /\ (x ∉ U) /\
    heap_repr L (x :: U) (with_free (timer_ids ht) y ht).
Proof.
  intros [Hm Hs Hl Hf Hz] HU; destruct (free_ok_pop _ _ _ _ Hf HU) as (Hr & Hn & y & Hy & Hf').
  exists (timer_ids_freelist ht), y; unfold pop_freelist; rewrite Hy, option_bind_some, Z.opp_involutive.
  split; [done|split; [done|split; [done|by split]]].
Qed.

Lemma repr_grow L U ht :
  heap_repr L U ht -> (forall x, x ∈ U -> x < Z.of_nat (max_size ht)) -> (0 < max_size ht)%nat ->
  heap_repr L U (grow_heap ht).
Proof.
  intros [Hm Hs Hl Hf Hz] HU Hmx; set (mx := max_size ht) in *.
  assert (Hd : (mx * 2 - mx = mx)%nat) by lia; assert (Hd2 : (mx * 2 = mx + mx)%nat) by lia.
  assert (Hn : (cur_size ht <= mx)%nat).
  { pose proof (se_h _ _ _ _ _ _ _ Hs); rewrite <- Hl, <- (se_perm _ _ _ _ _ _ _ Hs), length_take; lia. }
  destruct Hs as [Hh Hi Hp Hat _ Ho].
  split; cbn [grow_heap entries max_size cur_size heap timer_ids timer_ids_freelist];
    fold mx; rewrite ?Hd, ?Hd2.
  - destruct Hm as [Hn' He Ht Hinj]; split; try done; intros q Hq; pose proof (Ht q Hq); lia.
  - assert (Hlk : forall j q, (j < cur_size ht)%nat ->
              (heap ht ++ replicate mx 0) !! j = Some q -> heap ht !! j = Some q).
    { intros j q Hj; by rewrite lookup_app_l by lia. }
    split; [rewrite length_app, length_replicate; lia|rewrite length_app, length_free_ids; lia| | |done|].
    + by rewrite take_app_le by lia.
    + intros j Hj q Hq; apply Hlk in Hq; [|done]; apply Hat in Hq; [|done].
      by apply lookup_app_l_Some.
    + intros j Hj a b Ha Hb; pose proof (parent_lt j ltac:(lia)).
      apply (Ho j Hj); [apply Hlk; [lia|done]|apply Hlk; [lia|done]].
  - done.
  - by apply free_ok_grow.
  - destruct Hz as (z & Hz & ?); exists z; split; [by apply lookup_app_l_Some|done].
Qed.

Lemma insert_placed L U ht p e :
  heap_repr L U ht -> (p ∉ L) -> entries ht !! p = Some e ->
  1 <= _timer_id e < Z.of_nat (max_size ht) ->
  (forall q, q ∈ L -> tid (entries ht) q <> _timer_id e) ->
  (cur_size ht < max_size ht)%nat ->
  let n := cur_size ht in
  members_ok (entries ht) (max_size ht) (p :: L) /\
  placed (entries ht) (max_size ht) (S n) (p :: L) (timer_ids ht) n p (heap ht) (timer_ids ht) /\
  up_order (entries ht) (S n) n (<[n := p]> (heap ht)).
Proof.
  intros [Hm Hs Hl Hf Hz] HpL He Hr Hfresh Hlt n; destruct Hs as [Hh Hi Hp Hat _ Ho].
  assert (Htp : tid (entries ht) p = _timer_id e) by (unfold tid; by rewrite He).
  split; [|split].
  - destruct Hm as [Hn' He' Ht Hinj]; split.
    + by apply NoDup_cons.
    + intros q; rewrite elem_of_cons; intros [->|Hq]; [by rewrite He|by apply He'].
    + intros q; rewrite elem_of_cons; intros [->|Hq]; [by rewrite Htp|by apply Ht].
    + intros q q'; rewrite !elem_of_cons; intros [->|Hq] [->|Hq']; [done| | |by apply Hinj].
      * rewrite Htp; intros E; by destruct (Hfresh q' Hq').
      * rewrite Htp; intros E; by destruct (Hfresh q Hq).
  - split; try done; [unfold n; lia| |].
    + rewrite (take_S_r _ _ p) by (apply list_lookup_insert_eq; unfold n; lia).
      rewrite take_insert_ge by done; unfold n; rewrite Hp; symmetry; apply Permutation_cons_append.
    + intros j Hj Hne; apply Hat; unfold n in *; lia.
  - split.
    + intros j Hj Hne a b; pose proof (parent_lt j ltac:(lia)).
      rewrite !list_lookup_insert_ne by lia; apply Ho; unfold n in *; lia.
    + intros j _ Hj Hpj; apply parent_spec in Hpj; lia.
Qed.

Lemma insert_node_ok L U ht p e :
  heap_repr L U ht -> (forall x, x ∈ U -> x < Z.of_nat (max_size ht)) ->
  (p ∉ L) -> entries ht !! p = Some e -> 1 <= _timer_id e < Z.of_nat (max_size ht) ->
  (forall q, q ∈ L -> tid (entries ht) q <> _timer_id e) ->
  (forall q, q ∈ p :: L -> tid (entries ht) q ∈ U) -> (cur_size ht + 2 <= max_size ht)%nat ->
  exists ht', insert_node ht p = Some ht' /\ heap_repr (p :: L) U ht' /\
    entries ht' = entries ht /\ t_log ht' = t_log ht /\
    max_entries_per_poll ht' = max_entries_per_poll ht /\
    (cur_size ht' + 2 <= max_size ht')%nat.
Proof.
  intros HR HU HpL He Hr Hfresh Hused Hmx; unfold insert_node.
  set (ht0 := if (max_size ht <=? cur_size ht + 2)%nat then grow_heap ht else ht).
  assert (H0 : heap_repr L U ht0 /\ entries ht0 = entries ht /\ t_log ht0 = t_log ht /\
    max_entries_per_poll ht0 = max_entries_per_poll ht /\ cur_size ht0 = cur_size ht /\
    (max_size ht <= max_size ht0)%nat /\ (cur_size ht + 3 <= max_size ht0)%nat).
  { unfold ht0; destruct (_ <=? _)%nat eqn:E; [apply Nat.leb_le in E|apply Nat.leb_gt in E].
    - split; [apply repr_grow; [done|done|lia]|cbn; repeat split; lia].
    - split; [done|repeat split; lia]. }
  clearbody ht0; destruct H0 as (HR0 & E0 & El & Em & Ec & Hle & Hsz).
  destruct (insert_placed L U ht0 p e) as (Hme & Hpl & Ho);
    [done|done|by rewrite E0|lia|by rewrite E0|lia|].
  destruct (reheap_up_ok _ _ _ _ _ Hme ht0 eq_refl (S (cur_size ht0)) _ _ _ _ Hpl Ho ltac:(lia))
    as (h & ids & Hrun & Hset).
  replace (with_arrays (heap ht0) (timer_ids ht0) ht0) with ht0 in Hrun by by destruct ht0.
  cbv zeta; rewrite Hrun, option_bind_some; eexists; split; [done|].
  split; [|split; [done|split; [done|split; [done|]]]].
  2: cbn [with_size with_arrays cur_size max_size]; lia.
  split; cbn [with_size with_arrays entries heap timer_ids timer_ids_freelist cur_size max_size].
  - done.
  - replace (cur_size ht0 + 1)%nat with (S (cur_size ht0)) by lia; by eapply settled_rebase.
  - cbn; rewrite (hr_size _ _ _ HR0); lia.
  - eapply free_ok_frame; [|apply HR0]; intros x Hx HxU; apply (se_frame _ _ _ _ _ _ _ Hset).
    intros q Hq Eq; apply HxU; pose proof (mo_tid _ _ _ Hme q Hq).
    replace x with (tid (entries ht0) q) by lia; rewrite E0; by apply Hused.
  - destruct (hr_zero _ _ _ HR0) as (z & Hz & Hneg); exists z; split; [|done].
    rewrite (se_frame _ _ _ _ _ _ _ Hset); [done|]; intros q Hq.
    pose proof (mo_tid _ _ _ Hme q Hq); lia.
Qed.

(** ** The interface *)

Lemma running_spec ht p e :
  entries ht !! p = Some e -> running_in (entries ht) p <-> pj_timer_entry_running e = true.
Proof.
  intros He; unfold running_in, tid, pj_timer_entry_running; rewrite He; cbn; symmetry; apply Z.leb_le.
Qed.

Lemma active_entry ht p e :
  active (with_entry p e ht)
  = if pj_timer_entry_running e then <[p := _timer_value e]> (active ht) else delete p (active ht).
Proof.
  unfold active; cbn [with_entry entries]; rewrite omap_insert.
  by destruct (pj_timer_entry_running e).
Qed.

Lemma active_lookup ht p v :
  active ht !! p = Some v <->
  exists e, entries ht !! p = Some e /\ pj_timer_entry_running e = true /\ _timer_value e = v.
Proof.
  unfold active; rewrite lookup_omap_Some; split; intros (e & H); exists e; revert H;
    destruct (pj_timer_entry_running e); intuition congruence.
Qed.

Lemma not_running ht p : running_in (entries ht) p -> is_Some (entries ht !! p).
Proof. unfold running_in, tid; destruct (entries ht !! p); [eauto|cbn; lia]. Qed.

(** Changing what the heap does not look at. *)
Lemma wf_with_entry ht p e e' :
  heap_wf ht -> entries ht !! p = Some e ->
  (1 <= _timer_id e -> _timer_id e' = _timer_id e /\ _timer_value e' = _timer_value e) ->
  (_timer_id e < 1 -> _timer_id e' < 1) -> heap_wf (with_entry p e' ht).
Proof.
  intros (L & HR & Hmx & Hact) He H1 H2; exists L.
  assert (Et : tid (entries ht) p = _timer_id e) by (unfold tid; by rewrite He).
  assert (Ev : tval (entries ht) p = _timer_value e) by (unfold tval; by rewrite He).
  assert (Hp : p ∈ L <-> 1 <= _timer_id e) by (rewrite Hact; unfold running_in; by rewrite Et).
  split; [|split; [done|]].
  - replace (tid (entries (with_entry p e' ht)) <$> L) with (tid (entries ht) <$> L).
    + apply repr_with_entry; [done|]; rewrite Et, Ev, Hp; done.
    + apply list_fmap_ext; intros ? q Hq; apply list_elem_of_lookup_2 in Hq; cbn [with_entry entries].
      rewrite tid_insert; case_decide; [subst|done]; rewrite Et; symmetry; by apply H1, Hp.
  - intros q; rewrite Hact; unfold running_in; cbn [with_entry entries]; rewrite tid_insert.
    case_decide; [subst|done]; rewrite Et.
    destruct (decide (1 <= _timer_id e)) as [H|H]; [destruct (H1 H); lia|].
    specialize (H2 ltac:(lia)); lia.
Qed.

(** An entry that was never scheduled, zeroed or initialised. *)
Lemma wf_new_entry ht p e :
  heap_wf ht -> entries ht !! p = None -> _timer_id e < 1 -> heap_wf (with_entry p e ht).
Proof.
  intros (L & HR & Hmx & Hact) Hp He; exists L.
  assert (HpL : p ∉ L) by (rewrite Hact; unfold running_in, tid; rewrite Hp; cbn; lia).
  split; [|split; [done|]].
  - replace (tid (entries (with_entry p e ht)) <$> L) with (tid (entries ht) <$> L).
    + by apply repr_with_entry.
    + apply list_fmap_ext; intros ? q Hq; apply list_elem_of_lookup_2 in Hq; cbn [with_entry entries].
      rewrite tid_insert; case_decide; [by subst|done].
  - intros q; rewrite Hact; unfold running_in; cbn [with_entry entries]; rewrite tid_insert.
    case_decide; [subst|done]; unfold tid; rewrite Hp; cbn; lia.
Qed.

Lemma wf_log ht a : heap_wf ht -> heap_wf (log a ht).
Proof. intros (L & HR & ?); exists L; split; [by apply repr_log|done]. Qed.

(** *** Creation *)

Lemma create_wf size : heap_wf (pj_timer_heap_create size).
Proof.
  set (mx := (size + 2)%nat); exists []; split; [|split; [cbn; lia|]].
  2: { intros p; split; [by intros ?%elem_of_nil|]; unfold running_in, tid; cbn; rewrite lookup_empty; cbn; lia. }
  split; cbn [pj_timer_heap_create entries max_size cur_size heap timer_ids timer_ids_freelist]; fold mx.
  - split; [constructor|by intros q ?%elem_of_nil..|by intros q q' ?%elem_of_nil].
  - split; [apply length_replicate|apply length_free_ids|done|lia|done|intros j Hj; lia].
  - done.
  - exists (Z.of_nat <$> seq 1 (mx - 1)); split.
    + replace (Z.of_nat mx) with (Z.of_nat (1 + (mx - 1))) by (unfold mx; lia).
      apply (free_chain_seq _ _ 1); intros j Hj; rewrite lookup_free_ids by (unfold mx in *; lia).
      done.
    + apply NoDup_fmap_2; [apply _|apply NoDup_seq].
    + intros x; rewrite elem_of_zseq; lia.
    + intros x _; apply not_elem_of_nil.
    + rewrite length_fmap, length_seq; cbn; unfold mx; lia.
  - exists (-1); split; [by rewrite lookup_free_ids by (unfold mx; lia)|lia].
Qed.

(** *** Scheduling *)

Lemma schedule_entry_ok ht p e t :
  heap_wf ht -> entries ht !! p = Some e -> _timer_id e < 1 ->
  exists x ht', schedule_entry ht p t = Some (0, ht') /\ heap_wf ht' /\ 1 <= x /\
    entries ht' = <[p := mk_te (te_id e) (te_has_cb e) x t (_grp_lock e)]> (entries ht) /\
    t_log ht' = t_log ht /\ max_entries_per_poll ht' = max_entries_per_poll ht.
Proof.
  intros (L & HR & Hmx & Hact) He Hid; unfold schedule_entry.
  replace (_ <? _)%nat with true by (symmetry; apply Nat.ltb_lt; lia).
  rewrite He, option_bind_some.
  set (U := tid (entries ht) <$> L) in *; assert (HlU : length U = cur_size ht).
  { unfold U; rewrite length_fmap; apply HR. }
  destruct (repr_pop L U ht HR) as (x & y & -> & Hx & HxU & HR1); [lia|]; rewrite option_bind_some.
  set (ht1 := with_free (timer_ids ht) y ht) in *; set (e' := mk_te _ _ x t _).
  assert (HpL : p ∉ L).
  { rewrite Hact; unfold running_in, tid; rewrite He; cbn; lia. }
  assert (HR2 : heap_repr L (x :: U) (with_entry p e' ht1)) by (apply repr_with_entry; done).
  assert (Htid : forall q, q ∈ L -> tid (entries (with_entry p e' ht1)) q = tid (entries ht) q).
  { intros q Hq; cbn [with_entry entries]; rewrite tid_insert; case_decide; [by subst|done]. }
  assert (Hmem : forall q, q ∈ L -> tid (entries ht) q ∈ U).
  { intros q Hq; apply list_elem_of_fmap; eauto. }
  assert (Htp : tid (entries (with_entry p e' ht1)) p = x).
  { cbn [with_entry entries]; rewrite tid_insert; by rewrite decide_True. }
  destruct (insert_node_ok L (x :: U) (with_entry p e' ht1) p e') as (ht2 & Hrun & HR3 & E3 & El & Em & Hsz).
  - done.
  - intros z; rewrite elem_of_cons; intros [->|(q & -> & Hq)%list_elem_of_fmap]; [cbn; lia|].
    pose proof (mo_tid _ _ _ (hr_members _ _ _ HR) q Hq); cbn; lia.
  - done.
  - apply lookup_insert_eq.
  - done.
  - intros q Hq; rewrite Htid by done; cbn; intros E; apply HxU; rewrite <- E; by apply Hmem.
  - intros q; rewrite elem_of_cons; intros [->|Hq]; [rewrite Htp; left|rewrite Htid by done; right; by apply Hmem].
  - done.
  - cbv zeta; rewrite Hrun, option_bind_some; exists x, ht2; split; [done|].
    split; [|split; [lia|done]].
    exists (p :: L); split; [|split; [done|]].
    + cbn [fmap list_fmap]; rewrite E3, Htp.
      replace (tid (entries (with_entry p e' ht1)) <$> L) with U; [done|].
      apply list_fmap_ext; intros ? q Hq; symmetry; apply Htid; by apply list_elem_of_lookup_2 in Hq.
    + intros q; rewrite elem_of_cons, E3; unfold running_in; cbn [with_entry entries]; rewrite tid_insert.
      case_decide; [subst q; cbn; split; [intros; lia|by left]|].
      rewrite Hact; unfold running_in; split; [by intros [|]|by right].
Qed.

Lemma schedule_ok ht p e now delay set_id id_val lock :
  heap_wf ht -> entries ht !! p = Some e -> te_has_cb e = true ->
  if pj_timer_entry_running e
  then schedule_w_grp_lock ht p now delay set_id id_val lock = Some (PJ_EINVALIDOP, log (TAssert 504) ht)
  else exists ht', schedule_w_grp_lock ht p now delay set_id id_val lock = Some (PJ_SUCCESS, ht') /\
    heap_wf ht' /\ active ht' = <[p := PJ_TIME_VAL_ADD now delay]> (active ht) /\
    (exists x, 1 <= x /\ entries ht' !! p = Some (mk_te (if set_id then id_val else te_id e)
       true x (PJ_TIME_VAL_ADD now delay) lock)) /\
    t_log ht' = from_option (fun l => [TAddRef l]) [] lock ++ t_log ht.
Proof.
  intros Hwf He Hcb; unfold schedule_w_grp_lock, pj_timer_entry_running.
  rewrite He, option_bind_some, Hcb; cbn [negb].
  destruct (1 <=? _timer_id e) eqn:E; bool_hyps.
  { by replace (_timer_id e <? 1) with false by (symmetry; apply Z.ltb_ge; lia). }
  replace (_timer_id e <? 1) with true by (symmetry; apply Z.ltb_lt; lia); cbn [negb].
  destruct (schedule_entry_ok ht p e (PJ_TIME_VAL_ADD now delay) Hwf He E)
    as (x & ht' & -> & Hwf' & Hx & E' & El & Em).
  rewrite option_bind_some; cbv beta iota; change (0 =? PJ_SUCCESS) with true; cbv iota.
  assert (Hl : entries ht' !! p = Some (mk_te (te_id e) (te_has_cb e) x
    (PJ_TIME_VAL_ADD now delay) (_grp_lock e))) by by rewrite E', lookup_insert_eq.
  rewrite Hl, option_bind_some; cbv zeta.
  cbn [te_id te_has_cb _timer_id _timer_value].
  eexists; split; [done|].
  match goal with |- context [with_entry p ?e2 ht'] => set (e' := e2) end.
  assert (Hw : heap_wf (with_entry p e' ht')).
  { eapply wf_with_entry; [done|by rewrite E', lookup_insert_eq|done|cbn; lia]. }
  assert (Ha : active (with_entry p e' ht') = <[p := PJ_TIME_VAL_ADD now delay]> (active ht)).
  { rewrite active_entry; unfold pj_timer_entry_running; cbn.
    replace (1 <=? x) with true by (symmetry; apply Z.leb_le; lia).
    unfold active; rewrite E', omap_insert; unfold pj_timer_entry_running; cbn.
    replace (1 <=? x) with true by (symmetry; apply Z.leb_le; lia); apply insert_insert_eq. }
  assert (Hl' : exists x0, 1 <= x0 /\ entries (with_entry p e' ht') !! p = Some (mk_te
    (if set_id then id_val else te_id e) true x0 (PJ_TIME_VAL_ADD now delay) lock)).
  { exists x; split; [lia|]; unfold e'; cbn; by rewrite lookup_insert_eq, Hcb. }
  destruct lock; (split; [first [by apply wf_log|done]|split; [exact Ha|split; [exact Hl'|cbn; congruence]]]).
Qed.

(** *** Removal from a well-formed heap *)

Lemma remove_wf ht slot p :
  heap_wf ht -> (slot < cur_size ht)%nat -> heap ht !! slot = Some p ->
  exists e ht', entries ht !! p = Some e /\ pj_timer_entry_running e = true /\
    remove_node ht slot = Some (p, ht') /\ heap_wf ht' /\
    entries ht' = <[p := set_timer_id (-1) e]> (entries ht) /\
    active ht' = delete p (active ht) /\
    t_log ht' = t_log ht /\ max_entries_per_poll ht' = max_entries_per_poll ht.
Proof.
  intros (L & HR & Hmx & Hact) Hs Hp.
  assert (HpL : p ∈ L) by (eapply settled_elem; [apply HR|exact Hs|done]).
  destruct (mo_ent _ _ _ (hr_members _ _ _ HR) p HpL) as [e He]; exists e.
  destruct (remove_node_ok ht L slot p e HR Hs Hp He) as (L' & h & ids & HL & Hrun & HR').
  eexists; split; [done|split; [apply (running_spec ht p e He), Hact; done|split; [exact Hrun|]]].
  split; [|split; [done|split; [|done]]].
  - exists L'; split; [exact HR'|split; [cbn; lia|]]; cbn [with_arrays with_entry entries].
    destruct (rm_sub ht L p e HR L' HL) as (HpL' & _ & Hsub).
    intros q; unfold running_in; cbn [with_size with_free entries]; rewrite tid_insert; case_decide as Eq.
    + subst q; split; [done|cbn; lia].
    + change (1 <= tid (entries ht) q) with (running_in (entries ht) q).
      rewrite <- Hact, HL, elem_of_cons; split; [by right|by intros [|]].
  - change (active (with_arrays _ _ ?x)) with (active x); rewrite active_entry; done.
Qed.

(** *** Cancelling *)

Lemma wf_slot ht p : heap_wf ht -> running_in (entries ht) p ->
  tid (entries ht) p <= Z.of_nat (max_size ht) /\
  exists j, (j < cur_size ht)%nat /\ heap ht !! j = Some p /\
    timer_ids ht !! Z.to_nat (tid (entries ht) p) = Some (Z.of_nat j).
Proof.
  intros (L & HR & Hmx & Hact) Hrun; assert (HpL : p ∈ L) by by apply Hact.
  destruct (hr_settled _ _ _ HR) as [_ _ Hp Hat _ _].
  split; [pose proof (mo_tid _ _ _ (hr_members _ _ _ HR) p HpL); lia|].
  rewrite <- Hp in HpL; apply list_elem_of_lookup in HpL as [j Hj].
  apply lookup_take_Some in Hj as [Hj Hlt]; exists j; split; [done|split; [done|by apply Hat]].
Qed.

Lemma cancel_ok ht p e dont_assert :
  heap_wf ht -> entries ht !! p = Some e ->
  exists ht', cancel ht p dont_assert = Some (if pj_timer_entry_running e then 1 else 0, ht') /\
    heap_wf ht' /\ active ht' = delete p (active ht) /\
    entries ht' !! p = Some (set_timer_id (-1) e) /\ t_log ht' = t_log ht.
Proof.
  intros Hwf He; unfold cancel; rewrite He, option_bind_some; cbv zeta.
  assert (Et : tid (entries ht) p = _timer_id e) by (unfold tid; by rewrite He).
  destruct (pj_timer_entry_running e) eqn:Er.
  - assert (Hrun := proj2 (running_spec ht p e He) Er).
    destruct (wf_slot ht p Hwf Hrun) as (Hmx & j & Hj & Hpj & Hid).
    unfold running_in in Hrun; rewrite Et in *.
    replace (_ || _) with false by (symmetry; apply orb_false_intro; apply Z.ltb_ge; lia).
    rewrite read_some, Hid, option_bind_some by lia.
    replace (Z.of_nat j <? 0) with false by (symmetry; apply Z.ltb_ge; lia).
    rewrite Nat2Z.id, Hpj, option_bind_some, Z.eqb_refl; cbn [negb].
    destruct (remove_wf ht j p Hwf Hj Hpj) as (e' & ht' & He' & _ & -> & Hw & E' & Ha & El & _).
    replace e' with e in * by congruence; exists ht'; split; [done|].
    split; [done|split; [done|split; [by rewrite E', lookup_insert_eq|done]]].
  - unfold pj_timer_entry_running in Er; bool_hyps.
    assert (G : heap_wf (with_entry p (set_timer_id (-1) e) ht) /\
      active (with_entry p (set_timer_id (-1) e) ht) = delete p (active ht)).
    { split; [eapply wf_with_entry; [done|done|lia|cbn; lia]|by rewrite active_entry]. }
    exists (with_entry p (set_timer_id (-1) e) ht); split; [|split; [apply G|split; [apply G|]]].
    2: split; [apply lookup_insert_eq|done].
    destruct (_timer_id e <? 0) eqn:E0; [done|]; bool_hyps.
    assert (Ez : _timer_id e = 0) by lia; rewrite Ez.
    replace (Z.of_nat (max_size ht) <? 0) with false by (symmetry; apply Z.ltb_ge; lia).
    destruct Hwf as (L & HR & _); destruct (hr_zero _ _ _ HR) as (z & Hz & Hneg).
    cbn [orb]; rewrite read_some by done; change (Z.to_nat 0) with 0%nat.
    rewrite Hz, option_bind_some.
    by replace (z <? 0) with true by (symmetry; apply Z.ltb_lt; lia).
Qed.

Lemma cancel_timer_ok ht p e set_id dont_assert id_val :
  heap_wf ht -> entries ht !! p = Some e ->
  exists ht', cancel_timer ht p set_id dont_assert id_val
              = Some (if pj_timer_entry_running e then 1 else 0, ht') /\
    heap_wf ht' /\ active ht' = delete p (active ht) /\
    entries ht' !! p = Some (mk_te (if set_id then id_val else te_id e) (te_has_cb e) (-1)
      (_timer_value e) None) /\
    t_log ht' = from_option (fun l => [TDecRef l]) [] (_grp_lock e) ++ t_log ht.
Proof.
  intros Hwf He; unfold cancel_timer.
  destruct (cancel_ok ht p e dont_assert Hwf He) as (ht' & -> & Hw & Ha & Hl & Hlog).
  rewrite option_bind_some; cbv beta iota; rewrite Hl, option_bind_some; cbv zeta.
  cbn [te_id te_has_cb _timer_id _timer_value _grp_lock set_timer_id].
  match goal with |- context [with_entry p ?e2 ht'] => set (e' := e2) end.
  assert (Hw' : heap_wf (with_entry p e' ht')).
  { eapply wf_with_entry; [done|exact Hl|done|cbn; lia]. }
  assert (Ha' : active (with_entry p e' ht') = delete p (active ht)).
  { rewrite active_entry, Ha; cbn; apply delete_delete_eq. }
  assert (Hl' := lookup_insert_eq (entries ht') p e').
  destruct (_grp_lock e); eexists; (split; [done|]);
    (split; [first [by apply wf_log|done]|split; [exact Ha'|split; [exact Hl'|cbn; congruence]]]).
Qed.

(** The number of running timers. *)
Lemma count_ok ht : heap_wf ht -> pj_timer_heap_count ht = size (active ht).
Proof.
  intros (L & HR & Hmx & Hact); unfold pj_timer_heap_count; rewrite <- (hr_size _ _ _ HR).
  rewrite <- size_dom.
  replace (dom (active ht)) with (list_to_set L : gset Z).
  - symmetry; apply size_list_to_set, HR.
  - apply set_eq; intros p; rewrite elem_of_list_to_set, elem_of_dom, Hact; split.
    + intros Hrun; destruct (not_running ht p Hrun) as [e He].
      exists (_timer_value e); apply active_lookup; exists e.
      by rewrite <- (running_spec ht p e He).
    + intros [v (e & He & Hr & _)%active_lookup]; by apply (running_spec ht p e He).
Qed.

(** ** Polling *)

(** What callbacks may do: use the interface, which keeps the invariant. *)
Definition cb_ok (cb : Z -> pj_timer_heap_t -> pj_timer_heap_t) : Prop :=
  forall p ht, heap_wf ht -> heap_wf (cb p ht) /\ max_entries_per_poll (cb p ht) = max_entries_per_poll ht.
Definition cb_quiet (cb : Z -> pj_timer_heap_t -> pj_timer_heap_t) : Prop :=
  forall p ht, active (cb p ht) = active ht.

(** No running timer of [m] expires before [v]. *)
Definition earliest (m : gmap Z time_val) (v : time_val) : Prop :=
  forall q u, m !! q = Some u -> PJ_TIME_VAL_LT u v = false.

(** The specification of a poll: take the earliest timer that is due, again
    and again. *)
Inductive fires (now : time_val) : gmap Z time_val -> list Z -> gmap Z time_val -> Prop :=
| fires_nil m : fires now m [] m
| fires_cons m p v nodes m' :
    m !! p = Some v -> PJ_TIME_VAL_LTE v now = true -> earliest m v ->
    fires now (delete p m) nodes m' -> fires now m (p :: nodes) m'.

Lemma wf_root ht : heap_wf ht -> cur_size ht <> 0%nat ->
  exists p v, heap ht !! 0%nat = Some p /\ value_at ht 0 = Some v /\ active ht !! p = Some v /\
    earliest (active ht) v.
Proof.
  intros (L & HR & Hmx & Hact) Hn.
  destruct (repr_root L _ ht HR) as (p & Hp & HpL & Hv & Hmin).
  { intros ->; apply Hn; by rewrite <- (hr_size _ _ _ HR). }
  exists p, (tval (entries ht) p); split; [done|split; [done|split]].
  - destruct (not_running ht p) as [e He]; [by apply Hact|].
    apply active_lookup; exists e; split; [done|split; [by apply (running_spec ht p e He), Hact|]].
    unfold tval; by rewrite He.
  - intros q u (e & He & Hr & <-)%active_lookup.
    replace (_timer_value e) with (tval (entries ht) q) by (unfold tval; by rewrite He).
    apply Hmin, Hact, (running_spec ht q e He); done.
Qed.

Lemma poll_one_ok cb ht :
  heap_wf ht -> cb_ok cb -> cur_size ht <> 0%nat ->
  exists p v ht', value_at ht 0 = Some v /\ active ht !! p = Some v /\ earliest (active ht) v /\
    poll_one cb ht = Some (p, ht') /\ heap_wf ht' /\
    max_entries_per_poll ht' = max_entries_per_poll ht /\
    (cb_quiet cb -> active ht' = delete p (active ht)).
Proof.
  intros Hwf Hcb Hn; destruct (wf_root ht Hwf Hn) as (p & v & Hp & Hv & Hav & Hmin).
  destruct (remove_wf ht 0 p Hwf ltac:(lia) Hp) as (e & ht1 & He & _ & Hrm & Hw1 & E1 & Ha1 & _ & Em1).
  exists p, v; unfold poll_one; rewrite Hrm, option_bind_some; cbv beta iota.
  assert (Hl : entries ht1 !! p = Some (set_timer_id (-1) e)) by by rewrite E1, lookup_insert_eq.
  rewrite Hl, option_bind_some; cbv zeta.
  cbn [te_id te_has_cb _timer_id _timer_value _grp_lock set_timer_id].
  match goal with |- context [with_entry p ?e2 ht1] => set (e' := e2) end.
  assert (Hw2 : heap_wf (with_entry p e' ht1)).
  { eapply wf_with_entry; [done|exact Hl|done|cbn; lia]. }
  assert (Ha2 : active (with_entry p e' ht1) = delete p (active ht)).
  { rewrite active_entry, Ha1; apply delete_delete_eq. }
  set (ht3 := if te_has_cb e then cb p (log (TCallback p) (with_entry p e' ht1)) else with_entry p e' ht1).
  assert (H3 : heap_wf ht3 /\ max_entries_per_poll ht3 = max_entries_per_poll ht /\
               (cb_quiet cb -> active ht3 = delete p (active ht))).
  { unfold ht3; destruct (te_has_cb e).
    - destruct (Hcb p (log (TCallback p) (with_entry p e' ht1))) as [Hw Hm]; [by apply wf_log|].
      split; [done|split; [by rewrite Hm|intros Hq; by rewrite Hq]].
    - split; [done|split; done]. }
  destruct H3 as (Hw3 & Hm3 & Hq3).
  destruct (_grp_lock e); eexists; (do 3 (split; [done|])); (split; [done|]);
    (split; [first [done|by apply wf_log]|by split]).
Qed.

Lemma poll_loop_ok cb now : cb_ok cb -> forall fuel count ht,
  heap_wf ht -> (count <= max_entries_per_poll ht < fuel + count)%nat ->
  exists nodes ht', poll_loop fuel cb now count ht = Some (nodes, ht') /\ heap_wf ht' /\
    (length nodes <= max_entries_per_poll ht - count)%nat /\
    ((length nodes = max_entries_per_poll ht - count)%nat \/
     forall p v, active ht' !! p = Some v -> PJ_TIME_VAL_LTE v now = false) /\
    (cb_quiet cb -> fires now (active ht) nodes (active ht')).
Proof.
  intros Hcb fuel; induction fuel as [|fuel IH]; intros count ht Hwf Hf; [lia|]; cbn [poll_loop].
  assert (Hstop : ((0 = max_entries_per_poll ht - count)%nat \/
      forall p v, active ht !! p = Some v -> PJ_TIME_VAL_LTE v now = false) ->
    exists nodes ht', Some ([], ht) = Some (nodes, ht') /\ heap_wf ht' /\
    (length nodes <= max_entries_per_poll ht - count)%nat /\
    ((length nodes = max_entries_per_poll ht - count)%nat \/
     forall p v, active ht' !! p = Some v -> PJ_TIME_VAL_LTE v now = false) /\
    (cb_quiet cb -> fires now (active ht) nodes (active ht'))).
  { intros H; exists [], ht; split; [done|split; [done|split; [cbn; lia|split; [done|]]]].
    intros _; constructor. }
  destruct (cur_size ht =? 0)%nat eqn:E0; [apply Nat.eqb_eq in E0|apply Nat.eqb_neq in E0].
  { apply Hstop; right; intros p v Hpv; exfalso.
    pose proof (count_ok ht Hwf) as Hc; unfold pj_timer_heap_count in Hc; rewrite E0 in Hc.
    symmetry in Hc; apply map_size_empty_inv in Hc; rewrite Hc in Hpv; by rewrite lookup_empty in Hpv. }
  destruct (poll_one_ok cb ht Hwf Hcb E0) as (p & v & ht1 & Hv & Hpv & Hmin & Hone & Hw1 & Hm1 & Hq1).
  rewrite Hv, option_bind_some; destruct (PJ_TIME_VAL_LTE v now) eqn:Hdue; cbn [andb].
  - destruct (count <? max_entries_per_poll ht)%nat eqn:Ec;
      [apply Nat.ltb_lt in Ec|apply Nat.ltb_ge in Ec; apply Hstop; left; lia].
    rewrite Hone, option_bind_some; cbv beta iota.
    destruct (IH (count + 1)%nat ht1 Hw1) as (nodes & ht' & -> & Hw' & Hlen & Hend & Hfires); [lia|].
    rewrite option_bind_some; exists (p :: nodes), ht'; rewrite Hm1 in *; cbn [length].
    split; [done|split; [done|split; [lia|split; [destruct Hend; [left; lia|by right]|]]]].
    intros Hq; econstructor; [done|done|done|]; rewrite <- Hq1 by done; by apply Hfires.
  - apply Hstop; right; intros q u Hqu; assert (Hu := Hmin q u Hqu).
    apply not_true_is_false; intros Hle; apply tv_lte_spec in Hle.
    apply not_true_iff_false in Hdue; apply Hdue, tv_lte_spec.
    apply not_true_iff_false in Hu; rewrite tv_lt_spec in Hu; lia.
Qed.

Lemma next_delay_some now ht : heap_wf ht -> is_Some (next_delay now ht).
Proof.
  intros Hwf; unfold next_delay; destruct (_ =? _)%nat eqn:E; [done|apply Nat.eqb_neq in E].
  destruct (wf_root ht Hwf E) as (p & v & _ & -> & _); by rewrite option_bind_some.
Qed.

(** * Properties *)

(** C3.  The timer heap implements the map of running timers.  From a
    well-formed heap, scheduling an idle entry succeeds and adds its expiry to
    the map; a running entry is refused; cancelling succeeds exactly for a
    running entry and removes it from the map; the count is the size of the
    map and the earliest time is its minimum.  Every operation returns, reads
    and writes inside its arrays, and keeps the heap well formed. *)
Theorem timer_refines_map ht p e now delay id_val lock :
  heap_wf ht -> entries ht !! p = Some e -> te_has_cb e = true ->
  (if pj_timer_entry_running e
   then pj_timer_heap_schedule_w_grp_lock ht p now delay id_val lock
        = Some (PJ_EINVALIDOP, log (TAssert 504) ht)
   else exists ht', pj_timer_heap_schedule_w_grp_lock ht p now delay id_val lock
                    = Some (PJ_SUCCESS, ht') /\
          heap_wf ht' /\ active ht' = <[p := PJ_TIME_VAL_ADD now delay]> (active ht)) /\
  (exists ht', pj_timer_heap_cancel_if_active ht p id_val
               = Some (if pj_timer_entry_running e then 1 else 0, ht') /\
     heap_wf ht' /\ active ht' = delete p (active ht)) /\
  pj_timer_heap_count ht = size (active ht) /\
  (active ht <> ∅ -> exists q v, pj_timer_heap_earliest_time ht = Some (PJ_SUCCESS, Some v) /\
     active ht !! q = Some v /\ earliest (active ht) v).
Proof.
  intros Hwf He Hcb; split; [|split; [|split; [by apply count_ok|]]].
  2: { destruct (cancel_timer_ok ht p e true true id_val Hwf He) as (ht' & H1 & H2 & H3 & _); eauto. }
  - pose proof (schedule_ok ht p e now delay true id_val lock Hwf He Hcb) as H.
    destruct (pj_timer_entry_running e); [done|destruct H as (ht' & H1 & H2 & H3 & _)]; eauto.
  - intros Hne; unfold pj_timer_heap_earliest_time.
    destruct (_ =? _)%nat eqn:E; [apply Nat.eqb_eq in E|apply Nat.eqb_neq in E].
    + exfalso; apply Hne, map_size_empty_inv; rewrite <- (count_ok ht Hwf); exact E.
    + destruct (wf_root ht Hwf E) as (q & v & _ & -> & Hq & Hmin); exists q, v; done.
Qed.

(** C36.  A poll ends, keeps the heap well formed and runs at most the
    configured number of timers; unless it stopped at that number no timer
    that is due is left.  When the callbacks leave the timers alone, the
    timers it ran are the earliest ones that were due, in the order of their
    expiry, and they are what left the map. *)
Theorem timer_poll_refines cb now ht fuel :
  heap_wf ht -> cb_ok cb -> (max_entries_per_poll ht < fuel)%nat ->
  exists nodes d ht', pj_timer_heap_poll fuel cb now ht = Some (nodes, d, ht') /\ heap_wf ht' /\
    (length nodes <= max_entries_per_poll ht)%nat /\
    (length nodes = max_entries_per_poll ht \/
     forall p v, active ht' !! p = Some v -> PJ_TIME_VAL_LTE v now = false) /\
    (cb_quiet cb -> fires now (active ht) nodes (active ht')).
Proof.
  intros Hwf Hcb Hf; unfold pj_timer_heap_poll.
  destruct (poll_loop_ok cb now Hcb fuel 0 ht Hwf) as (nodes & ht' & -> & Hw & Hl & He & Hq); [lia|].
  rewrite option_bind_some; cbv beta iota; destruct (next_delay_some now ht' Hw) as [d Hd].
  rewrite Hd, option_bind_some; exists nodes, d, ht'; rewrite Nat.sub_0_r in *; done.
Qed.

(** ** A small heap, which has to grow *)

Definition idle_entry : pj_timer_entry := mk_te 0 true 0 (mk_tv 0 0) None.
Definition idle_heap : pj_timer_heap_t :=
  with_entry 40 idle_entry (with_entry 30 idle_entry (with_entry 20 idle_entry
    (with_entry 10 idle_entry (pj_timer_heap_create 0)))).
Definition scheduled (ht : pj_timer_heap_t) (p ms : Z) : pj_timer_heap_t :=
  from_option snd ht (pj_timer_heap_schedule_w_grp_lock ht p (mk_tv 100 0) (mk_tv 0 ms) 1 (Some 7)).
Definition sample_heap : pj_timer_heap_t :=
  scheduled (scheduled (scheduled idle_heap 10 700) 20 1500) 30 200.

Lemma scheduled_wf ht p ms e :
  heap_wf ht -> entries ht !! p = Some e -> te_has_cb e = true -> heap_wf (scheduled ht p ms).
Proof.
  intros Hw He Hc; unfold scheduled, pj_timer_heap_schedule_w_grp_lock.
  pose proof (schedule_ok ht p e (mk_tv 100 0) (mk_tv 0 ms) true 1 (Some 7) Hw He Hc) as H.
  destruct (pj_timer_entry_running e); [rewrite H; by apply wf_log|].
  by destruct H as (ht' & -> & H & _).
Qed.

Lemma idle_heap_wf : heap_wf idle_heap.
Proof. unfold idle_heap; repeat apply wf_new_entry; try apply create_wf; vm_compute; reflexivity. Qed.
Lemma sample_heap_wf : heap_wf sample_heap.
Proof.
  unfold sample_heap; repeat (eapply scheduled_wf; [|vm_compute; reflexivity|reflexivity]).
  apply idle_heap_wf.
Qed.

Lemma timer_refines_map_witness :
  let ht := sample_heap in
  (active ht !! 30 = Some (mk_tv 100 200) /\ pj_timer_heap_count ht = 3%nat) /\
  exists ht', pj_timer_heap_schedule_w_grp_lock ht 40 (mk_tv 100 0) (mk_tv 5 0) 1 None
              = Some (PJ_SUCCESS, ht') /\
    heap_wf ht' /\ active ht' = <[40 := PJ_TIME_VAL_ADD (mk_tv 100 0) (mk_tv 5 0)]> (active ht).
Proof.
  intros ht; split; [split; vm_compute; reflexivity|].
  exact (proj1 (timer_refines_map ht 40 idle_entry (mk_tv 100 0) (mk_tv 5 0) 1 None sample_heap_wf
                  eq_refl eq_refl)).
Defined.

(** At 101 seconds the first and the third timer are due. *)
Lemma timer_poll_refines_witness :
  let ht := sample_heap in
  let cb := fun (_ : Z) (h : pj_timer_heap_t) => h in
  (from_option (fun r => r.1) ([], mk_tv 0 0) (pj_timer_heap_poll 65 cb (mk_tv 101 0) ht)
   = ([30; 10], mk_tv 0 500)) /\
  exists nodes d ht', pj_timer_heap_poll 65 cb (mk_tv 101 0) ht = Some (nodes, d, ht') /\ heap_wf ht'.
Proof.
  intros ht cb; split; [vm_compute; reflexivity|].
  assert (Hcb : cb_ok cb) by (intros p h Hh; exact (conj Hh eq_refl)).
  assert (Hf : (max_entries_per_poll ht < 65)%nat) by (vm_compute; lia).
  destruct (timer_poll_refines cb (mk_tv 101 0) ht 65 sample_heap_wf Hcb Hf)
    as (nodes & d & ht' & H & Hw & _).
  exact (ex_intro _ nodes (ex_intro _ d (ex_intro _ ht' (conj H Hw)))).
Defined.
