(* ===== verification/TsxModel.v ===== *)
(** * SIP transactions: data, effects and state handlers

    Model of the transaction part of pjsip/src/pjsip/sip_transaction.c.  One
    transaction is a [pjsip_transaction] record; every handler is a function
    in a state monad whose state also holds the ordered trace of the effects
    the code has on its surroundings: messages handed to a transport or to
    the endpoint, reference-count changes, timer operations, notifications of
    the transaction user, and failed assertions.

    What surrounds the transaction is an argument: a [send_env] says how the
    transport layer answers a send and which completion callbacks it makes
    before it returns, so every theorem quantifies over all its behaviours.
    The transaction user observes notifications and does not call back into
    the transaction from inside them. *)

From Stdlib Require Import ZArith Lia Bool.
From stdpp Require Import base list numbers option gmap.
From S2P Require Import Prelude TimeVal.
Local Open Scope Z_scope.

(** ** Constants *)

Definition PJSIP_ENOTREQUESTMSG : pj_status_t := 171021.
Definition PJSIP_ENOTRESPONSEMSG : pj_status_t := 171022.
Definition PJSIP_EMISSINGHDR : pj_status_t := 171050.
Definition PJSIP_EINVALIDHDR : pj_status_t := 171051.
Definition PJSIP_EINVALIDMETHOD : pj_status_t := 171055.
Definition PJLIB_UTIL_EDNS_NXDOMAIN : pj_status_t := 320053.
Definition PJSIP_SC_TSX_TIMEOUT : Z := 408.
Definition PJSIP_SC_BAD_GATEWAY : Z := 502.
Definition PJSIP_SC_TSX_TRANSPORT_ERROR : Z := 503.
Definition PJSIP_TSX_1XX_RETRANS_DELAY : Z := 60.

Definition TSX_HAS_PENDING_TRANSPORT : Z := 1.
Definition TSX_HAS_PENDING_RESCHED : Z := 2.
Definition TSX_HAS_PENDING_SEND : Z := 4.
Definition TSX_HAS_PENDING_DESTROY : Z := 8.
Definition TSX_HAS_RESOLVED_SERVER : Z := 16.

Definition TIMER_INACTIVE : Z := 0.
Definition RETRANSMIT_TIMER : Z := 1.
Definition TIMEOUT_TIMER : Z := 2.
Definition TRANSPORT_ERR_TIMER : Z := 3.

(** [PJSIP_IS_STATUS_IN_CLASS]: C division truncates towards zero. *)
Definition in_class (code cls : Z) : bool := Z.quot code 100 =? Z.quot cls 100.

(** ** Data *)

Inductive tsx_state_e :=
| STATE_NULL | STATE_CALLING | STATE_TRYING | STATE_PROCEEDING
| STATE_COMPLETED | STATE_CONFIRMED | STATE_TERMINATED | STATE_DESTROYED.

Definition state_num (s : tsx_state_e) : Z :=
  match s with
  | STATE_NULL => 0 | STATE_CALLING => 1 | STATE_TRYING => 2 | STATE_PROCEEDING => 3
  | STATE_COMPLETED => 4 | STATE_CONFIRMED => 5 | STATE_TERMINATED => 6
  | STATE_DESTROYED => 7
  end.

Inductive role_e := ROLE_UAC | ROLE_UAS.
Inductive method_e := M_INVITE | M_CANCEL | M_ACK | M_BYE | M_REGISTER | M_OPTIONS | M_OTHER.
Inductive event_id_e :=
| EVENT_UNKNOWN | EVENT_TIMER | EVENT_TX_MSG | EVENT_RX_MSG
| EVENT_TRANSPORT_ERROR | EVENT_TSX_STATE | EVENT_USER.

(** The state handlers, as the values of the function pointer; [None] is the
    null pointer of the dispatch tables. *)
Inductive handler_e :=
| H_null | H_calling | H_trying | H_proceeding_uac | H_proceeding_uas
| H_completed_uac | H_completed_uas | H_confirmed | H_terminated | H_destroyed.

#[global] Instance tsx_state_e_eq_dec : EqDecision tsx_state_e.
Proof. solve_decision. Defined.
#[global] Instance role_e_eq_dec : EqDecision role_e.
Proof. solve_decision. Defined.
#[global] Instance method_e_eq_dec : EqDecision method_e.
Proof. solve_decision. Defined.
#[global] Instance event_id_e_eq_dec : EqDecision event_id_e.
Proof. solve_decision. Defined.
#[global] Instance handler_e_eq_dec : EqDecision handler_e.
Proof. solve_decision. Defined.

(** Outgoing message: its identity, kind, status line and CSeq method. *)
Record tx_data := mk_tx {
  tx_id : Z; tx_is_request : bool; tx_code : Z; tx_reason : list Z;
  tx_cseq_method : method_e }.

(** Incoming message: its identity, kind, request method and status line. *)
Record rx_data := mk_rx {
  rx_id : Z; rx_is_request : bool; rx_method : method_e; rx_code : Z;
  rx_reason : list Z }.

Record transport := mk_tp { tp_id : Z; tp_reliable : bool; tp_is_shutdown : bool }.

(** A [pj_timer_entry] of the transaction as the timer heap sees it: its user
    id, whether it is in the heap, and whether it holds the group lock. *)
Record timer_entry := mk_timer {
  t_id : Z; t_running : bool; t_delay : time_val; t_grp_lock : bool }.

Inductive timer_which := RetransmitTimer | TimeoutTimer.
#[global] Instance timer_which_eq_dec : EqDecision timer_which.
Proof. solve_decision. Defined.

(** Callbacks of the transaction user that are not null. *)
Record tsx_module := mk_module { has_on_tsx_state : bool; has_on_rx_response : bool }.

Inductive status_text_t :=
| TextNone | TextReason (r : list Z) | TextOfCode (c : Z) | TextOfErr (st : pj_status_t).

(** [struct pjsip_transaction], less the pool, the lock objects and the
    names used only in logs. *)
Record pjsip_transaction := mk_tsx {
  tsx_user : option tsx_module;
  terminating : bool;
  role : role_e;
  method : method_e;
  cseq : Z;
  transaction_key : list Z;
  branch : list Z;
  status_code : Z;
  status_text : status_text_t;
  state : tsx_state_e;
  handle_200resp : bool;
  state_handler : option handler_e;
  tsx_transport : option transport;
  is_reliable : bool;
  addr_len : Z;
  res_addr_transport : option transport;
  res_addr_len : Z;
  transport_flag : Z;
  transport_err : pj_status_t;
  pending_tx : option tx_data;
  last_tx : option tx_data;
  retransmit_count : Z;
  retransmit_timer : timer_entry;
  timeout_timer : timer_entry }.

(** Effects, in the order they happen. *)
Inductive action :=
| ATransportSend (tp : transport) (td : tx_data)
| AEndptSendRequest (td : tx_data)
| AEndptSendResponse (td : tx_data)
| ACreateAck (td : tx_data)
| AOnRxResponse (rx : rx_data)
| AOnTsxState (prev new : tsx_state_e) (ev : event_id_e)
| ASchedule (w : timer_which) (d : time_val) (id : Z)
| ACancel (w : timer_which)
| ATpAddRef (tp : transport)
| ATpDecRef (tp : transport)
| ATpSelAddRef
| ATpSelDecRef
| ATxAddRef (td : tx_data)
| ATxDecRef (td : tx_data)
| AGrpAddRef
| AGrpDecRef
| AUnregister
| AAssert (line : Z).

(** The transaction, the transmit buffers whose module data points to it, the
    id of the transaction-layer module, and the effects so far, latest first. *)
Record world := mk_world {
  w_tsx : pjsip_transaction;
  w_txmod : gset Z;
  w_mod_id : Z;
  w_trace : list action }.

(** What the event handlers receive.  Only these three kinds are dispatched. *)
Inductive tsx_event :=
| EvTimer (w : timer_which)
| EvTxMsg (td : tx_data)
| EvRxMsg (rx : rx_data).

(** The argument [event_src] of [tsx_set_state]. *)
Inductive event_src := SrcNone | SrcTimer | SrcTx (td : tx_data) | SrcRx (rx : rx_data).

(** How the transport layer answers one send: whether the buffer is still
    pending from an earlier send, the status of [pjsip_transport_send], the
    status of the endpoint's send function, and the completion callbacks it
    makes before returning, each with the answer to the send the callback may
    trigger itself. *)
Inductive send_env :=
| SendEnv (is_pending : bool) (tp_status ep_status : pj_status_t) (cbs : list send_cb)
with send_cb :=
| SendCb (sent : Z) (cont : bool) (cur_tp : option transport) (cur_addr_len : Z)
         (nested : send_env).

(** [pjsip_cfg()->tsx], in milliseconds. *)
Record tsx_cfg := mk_cfg { cfg_t1 : Z; cfg_t2 : Z; cfg_t4 : Z; cfg_td : Z }.

Definition default_cfg : tsx_cfg := mk_cfg 500 4000 5000 32000.

(** ** The monad *)

Definition M (A : Type) : Type := world -> A * world.
#[global] Instance M_ret : MRet M := fun A a w => (a, w).
#[global] Instance M_bind : MBind M := fun A B f m w => let '(a, w') := m w in f a w'.

Definition get_tsx : M pjsip_transaction := fun w => (w_tsx w, w).
Definition get_world : M world := fun w => (w, w).
Definition mod_tsx (f : pjsip_transaction -> pjsip_transaction) : M () :=
  fun w => ((), mk_world (f (w_tsx w)) (w_txmod w) (w_mod_id w) (w_trace w)).
Definition mod_txmod (f : gset Z -> gset Z) : M () :=
  fun w => ((), mk_world (w_tsx w) (f (w_txmod w)) (w_mod_id w) (w_trace w)).
Definition emit (a : action) : M () :=
  fun w => ((), mk_world (w_tsx w) (w_txmod w) (w_mod_id w) (a :: w_trace w)).
Definition skip : M () := mret ().
Definition when (b : bool) (m : M ()) : M () := if b then m else skip.

(** [pj_assert]: a failure is recorded with its source line and execution goes
    on.  The asserts of lines 1996, 2081, 2226 and 2292 are left out: the branch
    they stand on makes them true. *)
Definition pj_assert (line : Z) (b : bool) : M () := when (negb b) (emit (AAssert line)).

(** ** Flags *)

Definition has_flag (f b : Z) : bool := negb (Z.land f b =? 0).
Definition set_flag (b : Z) : M () := mod_tsx (fun t => t <| transport_flag ::= (fun f => Z.lor f b) |>).
Definition clr_flag (b : Z) : M () :=
  mod_tsx (fun t => t <| transport_flag ::= (fun f => Z.land f (Z.lnot b)) |>).

Definition tx_eqb (o : option tx_data) (td : tx_data) : bool :=
  match o with Some t => tx_id t =? tx_id td | None => false end.
Definition tp_eqb (o1 o2 : option transport) : bool :=
  match o1, o2 with
  | Some a, Some b => tp_id a =? tp_id b
  | None, None => true
  | _, _ => false
  end.
Definition is_invite (m : method_e) : bool := bool_decide (m = M_INVITE).

(** ** Dispatch tables *)

Definition tsx_state_handler_uac (s : tsx_state_e) : option handler_e :=
  match s with
  | STATE_NULL => Some H_null | STATE_CALLING => Some H_calling | STATE_TRYING => None
  | STATE_PROCEEDING => Some H_proceeding_uac | STATE_COMPLETED => Some H_completed_uac
  | STATE_CONFIRMED => Some H_confirmed | STATE_TERMINATED => Some H_terminated
  | STATE_DESTROYED => Some H_destroyed
  end.

Definition tsx_state_handler_uas (s : tsx_state_e) : option handler_e :=
  match s with
  | STATE_NULL => Some H_null | STATE_CALLING => None | STATE_TRYING => Some H_trying
  | STATE_PROCEEDING => Some H_proceeding_uas | STATE_COMPLETED => Some H_completed_uas
  | STATE_CONFIRMED => Some H_confirmed | STATE_TERMINATED => Some H_terminated
  | STATE_DESTROYED => Some H_destroyed
  end.

Definition handler_for (r : role_e) (s : tsx_state_e) : option handler_e :=
  match r with ROLE_UAC => tsx_state_handler_uac s | ROLE_UAS => tsx_state_handler_uas s end.

(** ** Timers *)

Definition get_timer (w : timer_which) (t : pjsip_transaction) : timer_entry :=
  match w with RetransmitTimer => retransmit_timer t | TimeoutTimer => timeout_timer t end.

Definition set_timer (w : timer_which) (e : timer_entry) (t : pjsip_transaction)
  : pjsip_transaction :=
  match w with
  | RetransmitTimer => t <| retransmit_timer := e |>
  | TimeoutTimer => t <| timeout_timer := e |>
  end.

(** [pj_timer_heap_schedule_w_grp_lock] refuses an entry that is already in
    the heap; the callers ignore the status. *)
Definition tsx_schedule_timer (w : timer_which) (delay : time_val) (active_id : Z)
  : M pj_status_t :=
  pj_assert 959 (negb (active_id =? 0));;
  t ← get_tsx;
  if t_running (get_timer w t) then mret PJ_EINVALIDOP
  else
    mod_tsx (set_timer w (mk_timer active_id true delay true));;
    emit (ASchedule w delay active_id);;
    emit AGrpAddRef;;
    mret PJ_SUCCESS.

(** [pj_timer_heap_cancel_if_active] with [TIMER_INACTIVE]. *)
Definition tsx_cancel_timer (w : timer_which) : M Z :=
  t ← get_tsx;
  let e := get_timer w t in
  mod_tsx (set_timer w (mk_timer TIMER_INACTIVE false (t_delay e) false));;
  when (t_running e) (emit (ACancel w));;
  when (t_grp_lock e) (emit AGrpDecRef);;
  mret (if t_running e then 1 else 0).

Definition zero_time : time_val := mk_tv 0 0.

Definition ms_time (ms : Z) : time_val := mk_tv (ms / 1000) (ms mod 1000).

(** ** Transport of the transaction *)

(** The effect of [tsx_tp_state_callback] for a disconnected transport: the
    error is posted through the timeout timer. *)
Definition tsx_tp_state_callback (disconnected : bool) (status : pj_status_t) : M () :=
  when disconnected (
    mod_tsx (fun t => t <| transport_err := status |>);;
    tsx_cancel_timer TimeoutTimer;;
    tsx_schedule_timer TimeoutTimer zero_time TRANSPORT_ERR_TIMER;;
    skip).

(** The two halves of [tsx_update_transport]. *)
Definition release_transport : M () :=
  t ← get_tsx;
  match tsx_transport t with
  | Some old => emit (ATpDecRef old);; mod_tsx (fun t => t <| tsx_transport := None |>)
  | None => skip
  end.

Definition attach_transport (p : transport) : M () :=
  mod_tsx (fun t => t <| tsx_transport := Some p |>);;
  emit (ATpAddRef p);;
  tsx_tp_state_callback (tp_is_shutdown p) PJSIP_SC_TSX_TRANSPORT_ERROR.

Definition tsx_update_transport (tp : option transport) : M () :=
  release_transport;;
  match tp with Some p => attach_transport p | None => skip end.

(** ** Status, shutdown and state changes *)

Definition tsx_set_status_code (code : Z) (text : status_text_t) : M () :=
  mod_tsx (fun t => t <| status_code := code |> <| status_text := text |>).

Definition mod_tsx_layer_unregister_tsx : M () :=
  w ← get_world; when (negb (w_mod_id w =? -1)) (emit AUnregister).

(** Releases the last message sent, if any. *)
Definition release_last_tx : M () :=
  t ← get_tsx;
  match last_tx t with
  | Some td => emit (ATxDecRef td);; mod_tsx (fun t => t <| last_tx := None |>)
  | None => skip
  end.

Definition tsx_shutdown : M pj_status_t :=
  tsx_update_transport None;;
  t ← get_tsx;
  when (negb (terminating t)) (emit ATpSelDecRef);;
  release_last_tx;;
  tsx_cancel_timer TimeoutTimer;;
  tsx_cancel_timer RetransmitTimer;;
  clr_flag (Z.lor TSX_HAS_PENDING_RESCHED TSX_HAS_PENDING_SEND);;
  t ← get_tsx;
  when (has_flag (transport_flag t) TSX_HAS_PENDING_TRANSPORT) (
    set_flag TSX_HAS_PENDING_DESTROY;;
    mod_tsx (fun t => t <| tsx_user := None |>));;
  when (negb (terminating t)) (
    mod_tsx (fun t => t <| terminating := true |>);;
    emit AGrpDecRef);;
  mret PJ_SUCCESS.

(** The notifications of [tsx_set_state]: the received response first, then
    the change of state. *)
Definition notify_rx (ev : event_id_e) (src : event_src) : M () :=
  t ← get_tsx;
  match ev, tsx_user t with
  | EVENT_RX_MSG, Some u =>
      match src with
      | SrcRx rx => when (negb (rx_is_request rx) && has_on_rx_response u) (emit (AOnRxResponse rx))
      | _ => pj_assert 1198 false
      end
  | _, _ => skip
  end.

Definition notify_state (prev : tsx_state_e) (ev : event_id_e) : M () :=
  t ← get_tsx;
  match tsx_user t with
  | Some u => when (has_on_tsx_state u) (emit (AOnTsxState prev (state t) ev))
  | None => skip
  end.

(** Entering Terminated: forget the outstanding buffer and arm the timer that
    destroys the transaction. *)
Definition enter_terminated : M () :=
  t ← get_tsx;
  when (has_flag (transport_flag t) TSX_HAS_PENDING_TRANSPORT) (
    match pending_tx t with
    | Some td => mod_txmod (fun s => s ∖ {[tx_id td]});;
                 mod_tsx (fun t => t <| pending_tx := None |>)
    | None => skip
    end;;
    clr_flag TSX_HAS_PENDING_TRANSPORT);;
  tsx_cancel_timer TimeoutTimer;;
  tsx_schedule_timer TimeoutTimer zero_time TIMEOUT_TIMER;;
  skip.

Definition tsx_set_state (s : tsx_state_e) (ev : event_id_e) (src : event_src) : M () :=
  t ← get_tsx;
  let prev_state := state t in
  pj_assert 1175 (state_num prev_state <=? state_num s);;
  mod_tsx (fun t => t <| state := s |> <| state_handler := handler_for (role t) s |>);;
  notify_rx ev src;;
  notify_state prev_state ev;;
  match s with
  | STATE_TERMINATED => enter_terminated
  | STATE_DESTROYED => mod_tsx_layer_unregister_tsx;; tsx_shutdown;; skip
  | _ => skip
  end.

Definition tsx_set_state_no_notify (s : tsx_state_e) (ev : event_id_e) (src : event_src)
  : M () :=
  t ← get_tsx;
  let user := tsx_user t in
  mod_tsx (fun t => t <| tsx_user := None |>);;
  tsx_set_state s ev src;;
  mod_tsx (fun t => t <| tsx_user := user |>).

Section WithConfig.
Context (cfg : tsx_cfg).

(** The timer values [pjsip_tsx_layer_init_module] computes; the transaction
    timeout is timer D. *)
Definition t1_timer_val : time_val := ms_time (cfg_t1 cfg).
Definition t2_timer_val : time_val := ms_time (cfg_t2 cfg).
Definition t4_timer_val : time_val := ms_time (cfg_t4 cfg).
Definition td_timer_val : time_val := ms_time (cfg_td cfg).
Definition timeout_timer_val : time_val := td_timer_val.

(** Cancel and rearm the timeout timer. *)
Definition restart_timeout (d : time_val) : M () :=
  tsx_cancel_timer TimeoutTimer;;
  tsx_schedule_timer TimeoutTimer d TIMEOUT_TIMER;;
  skip.

(** ** Retransmission interval *)

(** The delay in milliseconds, a 32-bit unsigned integer. *)
Definition resched_msec (t : pjsip_transaction) : Z :=
  let msec_time :=
    if bool_decide (role t = ROLE_UAC) && (100 <=? status_code t) then cfg_t2 cfg
    else u32 (Z.shiftl 1 (retransmit_count t) * cfg_t1 cfg) in
  match role t with
  | ROLE_UAC =>
      if (cfg_t2 cfg <? msec_time) && negb (is_invite (method t))
      then cfg_t2 cfg else msec_time
  | ROLE_UAS =>
      if status_code t <? 200 then PJSIP_TSX_1XX_RETRANS_DELAY * 1000
      else if cfg_t2 cfg <? msec_time then cfg_t2 cfg else msec_time
  end.

Definition tsx_resched_retransmission : M () :=
  t ← get_tsx;
  pj_assert 2202 (negb (has_flag (transport_flag t) TSX_HAS_PENDING_TRANSPORT));;
  match role t with
  | ROLE_UAC => pj_assert 2210 (status_code t <? 200)
  | ROLE_UAS => skip
  end;;
  let msec_time := resched_msec t in
  when (negb (msec_time =? 0)) (
    tsx_schedule_timer RetransmitTimer (ms_time msec_time) RETRANSMIT_TIMER;; skip).

(** ** Sending *)

(** The work put off while the transport was pending: destruction, a send
    ([send] is the nested call of [tsx_send_msg]), the retransmission timer. *)
Definition send_cb_deferred (send : option tx_data -> M pj_status_t) : M () :=
  clr_flag TSX_HAS_PENDING_TRANSPORT;;
  set_flag TSX_HAS_RESOLVED_SERVER;;
  t ← get_tsx;
  if has_flag (transport_flag t) TSX_HAS_PENDING_DESTROY then
    tsx_set_state STATE_DESTROYED EVENT_UNKNOWN SrcNone
  else
    when (has_flag (transport_flag t) TSX_HAS_PENDING_SEND) (
      clr_flag TSX_HAS_PENDING_SEND;; send (last_tx t);; skip);;
    t ← get_tsx;
    when (has_flag (transport_flag t) TSX_HAS_PENDING_RESCHED) (
      clr_flag TSX_HAS_PENDING_RESCHED;;
      when (negb (is_reliable t)) tsx_resched_retransmission).

(** The branch of [send_msg_callback] for a message that was sent. *)
Definition send_cb_sent (send : option tx_data -> M pj_status_t)
    (cur_tp : option transport) (cur_addr_len : Z) : M () :=
  pj_assert 1809 (bool_decide (is_Some cur_tp));;
  t ← get_tsx;
  when (negb (tp_eqb (tsx_transport t) cur_tp)) (
    tsx_update_transport cur_tp;;
    mod_tsx (fun t => t <| addr_len := cur_addr_len |>
                        <| is_reliable := match tsx_transport t with
                                          | Some p => tp_reliable p
                                          | None => is_reliable t end |>));;
  send_cb_deferred send.

(** The branch for a message that could not be sent to any server. *)
Definition send_cb_permanent (tdata : tx_data) (sent : Z) : M () :=
  mod_tsx (fun t => t <| transport_err := - sent |>);;
  clr_flag TSX_HAS_PENDING_TRANSPORT;;
  set_flag TSX_HAS_RESOLVED_SERVER;;
  tsx_set_status_code
    (if (- sent =? PJ_ERESOLVE) || (- sent =? PJLIB_UTIL_EDNS_NXDOMAIN)
     then PJSIP_SC_BAD_GATEWAY else PJSIP_SC_TSX_TRANSPORT_ERROR)
    (TextOfErr (- sent));;
  t ← get_tsx;
  if negb (bool_decide (state t = STATE_TERMINATED)) && negb (bool_decide (state t = STATE_DESTROYED))
  then tsx_set_state STATE_TERMINATED EVENT_TRANSPORT_ERROR (SrcTx tdata)
  else when (has_flag (transport_flag t) TSX_HAS_PENDING_DESTROY)
         (tsx_set_state STATE_DESTROYED EVENT_TRANSPORT_ERROR (SrcTx tdata)).

(** The branch for a failure after which the next server is tried. *)
Definition send_cb_temporary (tdata : tx_data) : M () :=
  mod_tsx (fun t => t <| retransmit_count := 0 |>);;
  t ← get_tsx;
  when (negb (t_id (timeout_timer t) =? 0)) (restart_timeout timeout_timer_val);;
  mod_txmod (fun s => s ∪ {[tx_id tdata]});;
  mod_tsx (fun t => t <| pending_tx := Some tdata |>).

(** [send_msg_callback]; returns [*cont]. *)
Definition send_msg_callback (send : option tx_data -> M pj_status_t)
    (tdata : tx_data) (sent : Z) (cont : bool) (cur_tp : option transport)
    (cur_addr_len : Z) : M bool :=
  w ← get_world;
  if (w_mod_id w <? 0) || negb (bool_decide (tx_id tdata ∈ w_txmod w)) then mret false
  else
    mod_txmod (fun s => s ∖ {[tx_id tdata]});;
    mod_tsx (fun t => t <| pending_tx := None |>);;
    (if 0 <? sent then send_cb_sent send cur_tp cur_addr_len
     else
       pj_assert 1857 (negb (sent =? 0));;
       t ← get_tsx;
       when (tp_eqb cur_tp (tsx_transport t)) (tsx_update_transport None);;
       t ← get_tsx;
       if negb cont || has_flag (transport_flag t) TSX_HAS_PENDING_DESTROY
       then send_cb_permanent tdata sent else send_cb_temporary tdata);;
    mret cont.

(** First part of [tsx_send_msg]: try the transport at hand.  [None] means the
    message was sent or is being sent; [Some status] goes on to the full
    procedure, with the status of the failed attempt or success when there
    is no transport. *)
Definition send_on_transport (tp_status : pj_status_t) (tdata : tx_data)
  : M (option pj_status_t) :=
  t ← get_tsx;
  match tsx_transport t with
  | None => mret (Some PJ_SUCCESS)
  | Some tp =>
      emit AGrpAddRef;;
      set_flag TSX_HAS_PENDING_TRANSPORT;;
      emit (ATransportSend tp tdata);;
      if tp_status =? PJ_EPENDING then mret None
      else
        clr_flag TSX_HAS_PENDING_TRANSPORT;;
        emit AGrpDecRef;;
        if tp_status =? PJ_SUCCESS then mret None
        else
          tsx_update_transport None;;
          mod_tsx (fun t => t <| addr_len := 0 |> <| res_addr_transport := None |>
                              <| res_addr_len := 0 |>);;
          mret (Some tp_status)
  end.

(** Second part: the destination has been resolved before, so the error is
    permanent. *)
Definition send_failed (status : pj_status_t) : M pj_status_t :=
  pj_assert 2092 (negb (status =? PJ_SUCCESS));;
  let status := if status =? PJ_SUCCESS then PJ_EUNKNOWN else status in
  tsx_set_status_code PJSIP_SC_TSX_TRANSPORT_ERROR (TextOfErr status);;
  tsx_set_state STATE_TERMINATED EVENT_TRANSPORT_ERROR SrcNone;;
  mret status.

(** The completion callbacks the endpoint's send functions make before they
    return, until one has sent the message or says stop. *)
Definition run_callbacks (send : send_env -> option tx_data -> M pj_status_t) (tdata : tx_data)
  : list send_cb -> M () :=
  fix run (cbs : list send_cb) : M () :=
    match cbs with
    | [] => skip
    | SendCb sent cont cur_tp cur_addr_len nested :: cbs =>
        c ← send_msg_callback (send nested) tdata sent cont cur_tp cur_addr_len;
        if (0 <? sent) || negb c then skip else run cbs
    end.

Fixpoint tsx_send_msg (env : send_env) (otdata : option tx_data) : M pj_status_t :=
  let '(SendEnv is_pending tp_status ep_status cbs) := env in
  match otdata with
  | None => pj_assert 2021 false;; mret PJ_EINVAL
  | Some tdata =>
    t ← get_tsx;
    if has_flag (transport_flag t) TSX_HAS_PENDING_TRANSPORT then
      set_flag TSX_HAS_PENDING_SEND;; mret PJ_SUCCESS
    else if is_pending then mret PJ_SUCCESS
    else
      o ← send_on_transport tp_status tdata;
      match o with
      | None => mret PJ_SUCCESS
      | Some status =>
        t ← get_tsx;
        if has_flag (transport_flag t) TSX_HAS_RESOLVED_SERVER then send_failed status
        else
          emit (ATxAddRef tdata);;
          mod_txmod (fun s => s ∪ {[tx_id tdata]});;
          mod_tsx (fun t => t <| pending_tx := Some tdata |>);;
          set_flag TSX_HAS_PENDING_TRANSPORT;;
          emit (if tx_is_request tdata then AEndptSendRequest tdata else AEndptSendResponse tdata);;
          run_callbacks tsx_send_msg tdata cbs;;
          let status := if ep_status =? PJ_EPENDING then PJ_SUCCESS else ep_status in
          when (negb (status =? PJ_SUCCESS)) (
            emit (ATxDecRef tdata);;
            mod_txmod (fun s => s ∖ {[tx_id tdata]});;
            mod_tsx (fun t => t <| pending_tx := None |>));;
          t ← get_tsx;
          mret (if (status =? PJ_SUCCESS) && bool_decide (state t = STATE_TERMINATED)
                then transport_err t else status)
      end
  end.

Definition pjsip_tsx_retransmit_no_state (env : send_env) (otdata : option tx_data)
  : M pj_status_t :=
  t ← get_tsx;
  let tdata := match otdata with Some td => Some td | None => last_tx t end in
  match otdata, last_tx t with
  | None, Some td => emit (ATxAddRef td)
  | _, _ => skip
  end;;
  status ← tsx_send_msg env tdata;
  match tdata with
  | Some td => when (status =? PJ_SUCCESS) (emit (ATxDecRef td))
  | None => skip
  end;;
  mret status.

Definition tsx_retransmit (env : send_env) (resched : bool) : M pj_status_t :=
  t ← get_tsx;
  if resched && t_running (retransmit_timer t) then mret PJ_SUCCESS
  else match last_tx t with
  | None => pj_assert 2261 false;; mret PJ_EBUG
  | Some td =>
      mod_tsx (fun t => t <| retransmit_count := s32 (retransmit_count t + 1) |>);;
      when resched (
        pj_assert 2273 (negb (bool_decide (state t = STATE_CONFIRMED)));;
        if has_flag (transport_flag t) TSX_HAS_PENDING_TRANSPORT
        then set_flag TSX_HAS_PENDING_RESCHED
        else tsx_resched_retransmission);;
      tsx_send_msg env (Some td)
  end.

(** ** State handlers *)

(** Remember [tdata] as the last message, taking a reference, unless it is
    already remembered. *)
Definition save_last_tx (tdata : tx_data) : M () :=
  t ← get_tsx;
  when (negb (tx_eqb (last_tx t) tdata)) (
    mod_tsx (fun t => t <| last_tx := Some tdata |>);; emit (ATxAddRef tdata)).

(** Forget the last message, dropping its reference, unless it is [tdata]. *)
Definition discard_last_tx (tdata : tx_data) : M () :=
  t ← get_tsx;
  when (negb (tx_eqb (last_tx t) tdata)) release_last_tx.

(** Start the retransmission timer now, or when the pending transport is
    ready. *)
Definition start_retransmit (d : time_val) : M () :=
  t ← get_tsx;
  if has_flag (transport_flag t) TSX_HAS_PENDING_TRANSPORT
  then set_flag TSX_HAS_PENDING_RESCHED
  else tsx_schedule_timer RetransmitTimer d RETRANSMIT_TIMER;; skip.

Definition ev_rx_src (ev : tsx_event) : event_src :=
  match ev with EvRxMsg rx => SrcRx rx | _ => SrcNone end.

Definition tsx_on_state_null (env : send_env) (ev : tsx_event) : M pj_status_t :=
  t ← get_tsx;
  pj_assert 2325 (bool_decide (state t = STATE_NULL));;
  match role t with
  | ROLE_UAS =>
      pj_assert 2330 (match ev with EvRxMsg rx => rx_is_request rx | _ => false end);;
      tsx_set_state STATE_TRYING EVENT_RX_MSG (ev_rx_src ev);;
      mret PJ_SUCCESS
  | ROLE_UAC =>
      match ev with
      | EvTxMsg tdata =>
          discard_last_tx tdata;;
          save_last_tx tdata;;
          status ← tsx_send_msg env (Some tdata);
          if negb (status =? PJ_SUCCESS) then mret status
          else
            restart_timeout timeout_timer_val;;
            t ← get_tsx;
            when (negb (is_reliable t)) (
              mod_tsx (fun t => t <| retransmit_count := 0 |>);;
              start_retransmit t1_timer_val);;
            tsx_set_state STATE_CALLING EVENT_TX_MSG (SrcTx tdata);;
            mret PJ_SUCCESS
      | _ => pj_assert 2344 false;; mret PJ_EBUG
      end
  end.

(** The part of the UAC Proceeding handler for a 2xx response. *)
Definition uac_2xx (ev : tsx_event) : M pj_status_t :=
  tsx_cancel_timer TimeoutTimer;;
  t ← get_tsx;
  if is_invite (method t) then
    tsx_set_state STATE_TERMINATED EVENT_RX_MSG (ev_rx_src ev);; mret PJ_SUCCESS
  else
    tsx_schedule_timer TimeoutTimer
      (if negb (is_reliable t)
       then (if is_invite (method t) then td_timer_val else t4_timer_val)
       else zero_time) TIMEOUT_TIMER;;
    tsx_cancel_timer RetransmitTimer;;
    tsx_set_state STATE_COMPLETED EVENT_RX_MSG (ev_rx_src ev);;
    mret PJ_SUCCESS.

(** Generate and send the ACK of an INVITE. *)
Definition send_ack (env : send_env) (ack : pj_status_t * tx_data) : M pj_status_t :=
  t ← get_tsx;
  if is_invite (method t) then
    if negb (ack.1 =? PJ_SUCCESS) then mret ack.1
    else emit (ACreateAck ack.2);; tsx_send_msg env (Some ack.2)
  else mret PJ_SUCCESS.

(** Completed: the ACK is kept for retransmission, and timer D or K runs.
    [last_tx] is the request of the client transaction; the code releases it
    without testing for null. *)
Definition uac_completed (ack : tx_data) (ev : tsx_event) : M pj_status_t :=
  tsx_set_state STATE_COMPLETED EVENT_RX_MSG (ev_rx_src ev);;
  t ← get_tsx;
  when (is_invite (method t) && negb (tx_eqb (last_tx t) ack)) (
    release_last_tx;;
    mod_tsx (fun t => t <| last_tx := Some ack |>));;
  restart_timeout
    (if negb (is_reliable t)
     then (if is_invite (method t) then td_timer_val else t4_timer_val)
     else zero_time);;
  mret PJ_SUCCESS.

(** The part for a 3xx-6xx response; [ack] is the result of
    [pjsip_endpt_create_ack]. *)
Definition uac_final (env : send_env) (ack : pj_status_t * tx_data) (ev : tsx_event)
  : M pj_status_t :=
  tsx_cancel_timer RetransmitTimer;;
  tsx_cancel_timer TimeoutTimer;;
  status ← send_ack env ack;
  if negb (status =? PJ_SUCCESS) then mret status else uac_completed ack.2 ev.

Definition tsx_on_state_proceeding_uac (env : send_env) (ack : pj_status_t * tx_data)
    (ev : tsx_event) : M pj_status_t :=
  t ← get_tsx;
  pj_assert 2837 (bool_decide (state t = STATE_PROCEEDING) || bool_decide (state t = STATE_CALLING));;
  let go : M pj_status_t :=
    t ← get_tsx;
    if in_class (status_code t) 100 then
      tsx_set_state STATE_PROCEEDING EVENT_RX_MSG (ev_rx_src ev);; mret PJ_SUCCESS
    else if in_class (status_code t) 200 then uac_2xx ev
    else match ev with
    | EvTimer TimeoutTimer =>
        tsx_set_state STATE_TERMINATED EVENT_TIMER SrcTimer;; mret PJ_SUCCESS
    | _ =>
        if (300 <=? status_code t) && (status_code t <=? 699) then uac_final env ack ev
        else pj_assert 3060 false;; mret PJ_EBUG
    end in
  match ev with
  | EvTxMsg _ => pj_assert 2846 false;; mret PJ_EINVALIDOP
  | EvRxMsg rx =>
      if rx_is_request rx then pj_assert 2855 false;; mret PJSIP_ENOTRESPONSEMSG
      else tsx_set_status_code (rx_code rx) (TextReason (rx_reason rx));; go
  | EvTimer RetransmitTimer => tsx_retransmit env true
  | EvTimer TimeoutTimer =>
      tsx_set_status_code PJSIP_SC_TSX_TIMEOUT (TextOfCode PJSIP_SC_TSX_TIMEOUT);; go
  end.

(** The timer changes of the Calling handler on a response. *)
Definition calling_rx_timers (code : Z) : M () :=
  t ← get_tsx;
  (if 200 <=? code then
     tsx_cancel_timer RetransmitTimer;;
     t ← get_tsx;
     when (negb (t_id (timeout_timer t) =? 0)) (tsx_cancel_timer TimeoutTimer;; skip)
   else
     tsx_cancel_timer RetransmitTimer;;
     if is_invite (method t) then tsx_cancel_timer TimeoutTimer;; skip
     else when (negb (is_reliable t))
            (tsx_schedule_timer RetransmitTimer t2_timer_val RETRANSMIT_TIMER;; skip));;
  clr_flag TSX_HAS_PENDING_RESCHED.

Definition tsx_on_state_calling (env : send_env) (ack : pj_status_t * tx_data)
    (ev : tsx_event) : M pj_status_t :=
  t ← get_tsx;
  pj_assert 2403 (bool_decide (state t = STATE_CALLING));;
  pj_assert 2404 (bool_decide (role t = ROLE_UAC));;
  match ev with
  | EvTimer RetransmitTimer => tsx_retransmit env true
  | EvTimer TimeoutTimer =>
      tsx_cancel_timer RetransmitTimer;;
      clr_flag TSX_HAS_PENDING_RESCHED;;
      tsx_set_status_code PJSIP_SC_TSX_TIMEOUT (TextOfCode PJSIP_SC_TSX_TIMEOUT);;
      tsx_set_state STATE_TERMINATED EVENT_TIMER SrcTimer;;
      mret PJ_SUCCESS
  | EvRxMsg rx =>
      if rx_is_request rx then mret PJSIP_ENOTRESPONSEMSG
      else
        calling_rx_timers (rx_code rx);;
        tsx_on_state_proceeding_uac env ack ev;;
        mret PJ_SUCCESS
  | EvTxMsg _ => pj_assert 2506 false;; mret PJ_EBUG
  end.

(** The parts of the UAS Proceeding handler for a response of the TU that has
    been sent: provisional, 2xx, and 3xx-6xx. *)
Definition uas_1xx (tdata : tx_data) : M () :=
  save_last_tx tdata;;
  tsx_set_state STATE_PROCEEDING EVENT_TX_MSG (SrcTx tdata);;
  t ← get_tsx;
  when ((0 <? PJSIP_TSX_1XX_RETRANS_DELAY) && is_invite (method t) && (100 <? status_code t)) (
    tsx_cancel_timer RetransmitTimer;;
    mod_tsx (fun t => t <| retransmit_count := 0 |>);;
    start_retransmit (mk_tv PJSIP_TSX_1XX_RETRANS_DELAY 0)).

Definition uas_2xx (tdata : tx_data) : M () :=
  tsx_cancel_timer RetransmitTimer;;
  t ← get_tsx;
  if is_invite (method t) && negb (handle_200resp t) then
    tsx_set_state STATE_TERMINATED EVENT_TX_MSG (SrcTx tdata)
  else
    when (is_invite (method t)) (
      mod_tsx (fun t => t <| retransmit_count := 0 |>);;
      start_retransmit t1_timer_val);;
    save_last_tx tdata;;
    restart_timeout
      (if is_invite (method t) then timeout_timer_val
       else if negb (is_reliable t) then timeout_timer_val else zero_time);;
    tsx_set_state STATE_COMPLETED EVENT_TX_MSG (SrcTx tdata).

Definition uas_final (tdata : tx_data) : M () :=
  tsx_cancel_timer RetransmitTimer;;
  save_last_tx tdata;;
  t ← get_tsx;
  restart_timeout
    (if is_invite (method t) then timeout_timer_val
     else if negb (is_reliable t) then timeout_timer_val else zero_time);;
  when (negb (is_reliable t) && is_invite (tx_cseq_method tdata)) (
    mod_tsx (fun t => t <| retransmit_count := 0 |>);;
    start_retransmit t1_timer_val);;
  tsx_set_state STATE_COMPLETED EVENT_TX_MSG (SrcTx tdata).

(** The TU sends a response. *)
Definition uas_tx (env : send_env) (tdata : tx_data) : M pj_status_t :=
  if tx_is_request tdata then pj_assert 2598 false;; mret PJSIP_ENOTRESPONSEMSG
  else
    tsx_set_status_code (tx_code tdata) (TextReason (tx_reason tdata));;
    discard_last_tx tdata;;
    status ← tsx_send_msg env (Some tdata);
    if negb (status =? PJ_SUCCESS) then mret status
    else
      t ← get_tsx;
      (if in_class (status_code t) 100 then uas_1xx tdata
       else if in_class (status_code t) 200 then uas_2xx tdata
       else if 300 <=? status_code t then uas_final tdata
       else pj_assert 2784 false);;
      mret PJ_SUCCESS.

Definition tsx_on_state_proceeding_uas (env : send_env) (ev : tsx_event) : M pj_status_t :=
  t ← get_tsx;
  pj_assert 2564 (bool_decide (state t = STATE_PROCEEDING) || bool_decide (state t = STATE_TRYING));;
  pj_assert 2568 (bool_decide (role t = ROLE_UAS));;
  match ev with
  | EvRxMsg _ =>
      match last_tx t with
      | None => pj_assert 2576 false;; mret PJ_EBUG
      | Some td =>
          if has_flag (transport_flag t) TSX_HAS_PENDING_TRANSPORT
          then set_flag TSX_HAS_PENDING_SEND;; mret PJ_SUCCESS
          else tsx_send_msg env (Some td)
      end
  | EvTxMsg tdata => uas_tx env tdata
  | EvTimer RetransmitTimer =>
      pj_assert 2795 (negb (has_flag (transport_flag t) TSX_HAS_PENDING_TRANSPORT));;
      pj_assert 2798 (bool_decide (is_Some (last_tx t)));;
      tsx_retransmit env true
  | EvTimer TimeoutTimer =>
      pj_assert 2810 false;;
      tsx_set_status_code PJSIP_SC_TSX_TIMEOUT (TextOfCode PJSIP_SC_TSX_TIMEOUT);;
      tsx_set_state STATE_TERMINATED EVENT_TIMER SrcTimer;;
      mret PJ_EBUG
  end.

Definition tsx_on_state_trying (env : send_env) (ev : tsx_event) : M pj_status_t :=
  t ← get_tsx;
  pj_assert 2525 (bool_decide (state t = STATE_TRYING));;
  pj_assert 2528 (bool_decide (role t = ROLE_UAS));;
  match ev with
  | EvTxMsg tdata =>
      status ← tsx_on_state_proceeding_uas env ev;
      t ← get_tsx;
      when ((status =? PJ_SUCCESS) && bool_decide (state t = STATE_TRYING))
        (tsx_set_state STATE_PROCEEDING EVENT_TX_MSG (SrcTx tdata));;
      mret status
  | _ => mret PJ_SUCCESS
  end.

Definition tsx_on_state_completed_uas (env : send_env) (ev : tsx_event) : M pj_status_t :=
  t ← get_tsx;
  pj_assert 3074 (bool_decide (state t = STATE_COMPLETED));;
  match ev with
  | EvRxMsg rx =>
      if negb (rx_is_request rx) then mret PJSIP_ENOTREQUESTMSG
      else if negb (bool_decide (rx_method rx = M_ACK)) then tsx_retransmit env false
      else if negb (is_invite (method t)) then mret PJSIP_EINVALIDMETHOD
      else
        tsx_cancel_timer RetransmitTimer;;
        clr_flag TSX_HAS_PENDING_RESCHED;;
        restart_timeout (if is_reliable t then zero_time else t4_timer_val);;
        tsx_set_state STATE_CONFIRMED EVENT_RX_MSG (SrcRx rx);;
        mret PJ_SUCCESS
  | EvTimer RetransmitTimer => tsx_retransmit env true
  | EvTimer TimeoutTimer =>
      when (is_invite (method t))
        (tsx_set_status_code PJSIP_SC_TSX_TIMEOUT (TextOfCode PJSIP_SC_TSX_TIMEOUT));;
      tsx_set_state STATE_TERMINATED EVENT_TIMER SrcTimer;;
      mret PJ_SUCCESS
  | EvTxMsg td =>
      if tx_eqb (last_tx t) td then mret PJ_SUCCESS
      else pj_assert 3169 false;; mret PJ_EINVALIDOP
  end.

Definition tsx_on_state_completed_uac (env : send_env) (ev : tsx_event) : M pj_status_t :=
  t ← get_tsx;
  pj_assert 3184 (bool_decide (state t = STATE_COMPLETED));;
  match ev with
  | EvTimer RetransmitTimer => mret PJ_SUCCESS
  | EvTimer TimeoutTimer =>
      tsx_set_state STATE_TERMINATED EVENT_TIMER SrcTimer;; mret PJ_SUCCESS
  | EvRxMsg rx =>
      if is_invite (method t) then
        pj_assert 3206 (negb (rx_is_request rx));;
        if negb (rx_is_request rx) && (200 <=? rx_code rx) then tsx_retransmit env false
        else mret PJ_SUCCESS
      else mret PJ_SUCCESS
  | EvTxMsg _ => pj_assert 3225 false;; mret PJ_EINVALIDOP
  end.

Definition tsx_on_state_confirmed (ev : tsx_event) : M pj_status_t :=
  t ← get_tsx;
  pj_assert 3239 (bool_decide (state t = STATE_CONFIRMED));;
  pj_assert 3242 (bool_decide (role t = ROLE_UAS));;
  pj_assert 3243 (is_invite (method t));;
  match ev with
  | EvRxMsg rx =>
      if negb (rx_is_request rx) then mret PJSIP_ENOTREQUESTMSG
      else
        pj_assert 3255 (bool_decide (rx_method rx = M_ACK) || is_invite (rx_method rx));;
        mret PJ_SUCCESS
  | EvTimer RetransmitTimer => mret PJ_SUCCESS
  | EvTimer TimeoutTimer =>
      tsx_set_state STATE_TERMINATED EVENT_TIMER SrcTimer;; mret PJ_SUCCESS
  | EvTxMsg _ => pj_assert 3276 false;; mret PJ_EBUG
  end.

Definition tsx_on_state_terminated (ev : tsx_event) : M pj_status_t :=
  t ← get_tsx;
  pj_assert 3290 (bool_decide (state t = STATE_TERMINATED));;
  match ev with
  | EvTimer _ => tsx_set_state STATE_DESTROYED EVENT_TIMER SrcTimer;; mret PJ_SUCCESS
  | _ => mret PJ_EIGNORED
  end.

Definition tsx_on_state_destroyed (ev : tsx_event) : M pj_status_t := mret PJ_EIGNORED.

(** Call through the function pointer.  A null pointer would crash; the trace
    records it. *)
Definition call_state_handler (env : send_env) (ack : pj_status_t * tx_data) (ev : tsx_event)
  : M pj_status_t :=
  t ← get_tsx;
  match state_handler t with
  | None => emit (AAssert 0);; mret PJ_EBUG
  | Some H_null => tsx_on_state_null env ev
  | Some H_calling => tsx_on_state_calling env ack ev
  | Some H_trying => tsx_on_state_trying env ev
  | Some H_proceeding_uac => tsx_on_state_proceeding_uac env ack ev
  | Some H_proceeding_uas => tsx_on_state_proceeding_uas env ev
  | Some H_completed_uac => tsx_on_state_completed_uac env ev
  | Some H_completed_uas => tsx_on_state_completed_uas env ev
  | Some H_confirmed => tsx_on_state_confirmed ev
  | Some H_terminated => tsx_on_state_terminated ev
  | Some H_destroyed => tsx_on_state_destroyed ev
  end.

(** ** Entry points *)

(** The timer heap has removed [w] from the heap and taken over its reference
    to the group lock when it calls this. *)
Definition tsx_timer_callback (env : send_env) (ack : pj_status_t * tx_data) (w : timer_which)
  : M () :=
  t ← get_tsx;
  let entry := get_timer w t in
  mod_tsx (set_timer w (mk_timer 0 (t_running entry) (t_delay entry) (t_grp_lock entry)));;
  if t_id entry =? TRANSPORT_ERR_TIMER then
    when (state_num (state t) <? state_num STATE_TERMINATED) (
      let prev_state := state t in
      tsx_update_transport None;;
      t ← get_tsx;
      when (status_code t <? 200)
        (tsx_set_status_code PJSIP_SC_TSX_TRANSPORT_ERROR (TextOfErr (transport_err t)));;
      tsx_set_state_no_notify STATE_TERMINATED EVENT_TRANSPORT_ERROR SrcNone;;
      notify_state prev_state EVENT_TRANSPORT_ERROR)
  else call_state_handler env ack (EvTimer w);; skip.

(** One expiry as [pj_timer_heap_poll] performs it. *)
Definition timer_expires (env : send_env) (ack : pj_status_t * tx_data) (w : timer_which) : M () :=
  t ← get_tsx;
  let e := get_timer w t in
  mod_tsx (set_timer w (mk_timer (t_id e) false (t_delay e) false));;
  tsx_timer_callback env ack w;;
  when (t_grp_lock e) (emit AGrpDecRef).

Definition pjsip_tsx_send_msg (env : send_env) (ack : pj_status_t * tx_data)
    (otdata : option tx_data) : M pj_status_t :=
  t ← get_tsx;
  match (match otdata with Some td => Some td | None => last_tx t end) with
  | None => pj_assert 1721 false;; mret PJ_EINVALIDOP
  | Some td =>
      status ← call_state_handler env ack (EvTxMsg td);
      when (status =? PJ_SUCCESS) (emit (ATxDecRef td));;
      mret status
  end.

Definition pjsip_tsx_recv_msg (env : send_env) (ack : pj_status_t * tx_data) (rx : rx_data)
  : M () :=
  call_state_handler env ack (EvRxMsg rx);; skip.

Definition transport_callback (sent : Z) : M () :=
  clr_flag TSX_HAS_PENDING_TRANSPORT;;
  when (sent <? 0) (
    mod_tsx (fun t => t <| transport_err := - sent |>);;
    tsx_cancel_timer TimeoutTimer;;
    tsx_schedule_timer TimeoutTimer zero_time TRANSPORT_ERR_TIMER;; skip);;
  emit AGrpDecRef.

Definition pjsip_tsx_terminate (code : Z) : M pj_status_t :=
  if code <? 200 then pj_assert 1621 false;; mret PJ_EINVAL
  else
    t ← get_tsx;
    when (state_num (state t) <? state_num STATE_TERMINATED) (
      tsx_set_status_code code (TextOfCode code);;
      tsx_set_state STATE_TERMINATED EVENT_USER SrcNone);;
    mret PJ_SUCCESS.

Definition pjsip_tsx_stop_retransmit : M pj_status_t :=
  t ← get_tsx;
  if negb (bool_decide (role t = ROLE_UAC) && is_invite (method t))
  then pj_assert 1647 false;; mret PJ_EINVALIDOP
  else tsx_cancel_timer RetransmitTimer;; mret PJ_SUCCESS.

Definition pjsip_tsx_set_timeout (millisec : Z) : M pj_status_t :=
  t ← get_tsx;
  if negb (bool_decide (role t = ROLE_UAC) && is_invite (method t))
  then pj_assert 1676 false;; mret PJ_EINVALIDOP
  else if (200 <=? status_code t) && negb (t_id (timeout_timer t) =? 0) then mret PJ_EEXISTS
  else
    tsx_cancel_timer TimeoutTimer;;
    tsx_schedule_timer TimeoutTimer (pj_time_val_normalize (mk_tv 0 millisec)) TIMEOUT_TIMER;;
    mret PJ_SUCCESS.

(** Replace the transport selector, moving the reference. *)
Definition pjsip_tsx_set_transport : M pj_status_t :=
  emit ATpSelDecRef;; emit ATpSelAddRef;; mret PJ_SUCCESS.

End WithConfig.

(** ** Creation *)

Definition inactive_timer : timer_entry := mk_timer TIMER_INACTIVE false zero_time false.

(** [tsx_create] after its allocations: everything zeroed but these fields. *)
Definition tsx_create (user : option tsx_module) : pjsip_transaction :=
  {| tsx_user := user; terminating := false; role := ROLE_UAC; method := M_INVITE; cseq := 0;
     transaction_key := []; branch := []; status_code := 0; status_text := TextNone;
     state := STATE_NULL; handle_200resp := true; state_handler := None;
     tsx_transport := None; is_reliable := false; addr_len := 0; res_addr_transport := None;
     res_addr_len := 0; transport_flag := 0; transport_err := 0; pending_tx := None;
     last_tx := None; retransmit_count := 0; retransmit_timer := inactive_timer;
     timeout_timer := inactive_timer |}.
