(* ===== verification/TsxTimer.v ===== *)
(** * Transaction timers on the timer heap

    [TsxModel] keeps of each timer of a transaction its user id, whether it is
    running and whether it holds the group lock.  Here the calls it makes are
    matched with the timer heap: scheduling and cancelling give the same
    status, the same next view of the timer and the same traffic on the group
    lock as the model of a transaction says. *)

From Stdlib Require Import ZArith Lia Bool.
From stdpp Require Import base list numbers option gmap.
From S2P Require Import Prelude TimeVal Timer TimerHeap TimerSpec TsxModel.
Local Open Scope Z_scope.

(** What a transaction sees of a heap entry. *)
Definition sees (e : pj_timer_entry) (t : timer_entry) : Prop :=
  t_id t = te_id e /\ t_running t = pj_timer_entry_running e /\
  t_grp_lock t = bool_decide (is_Some (_grp_lock e)).

(** The references to the group lock taken minus those dropped, on either
    side. *)
Definition heap_lock_refs (l : list timer_action) : Z :=
  foldr (fun a n => match a with TAddRef _ => n + 1 | TDecRef _ => n - 1 | _ => n end) 0 l.
Definition tsx_lock_refs (l : list action) : Z :=
  foldr (fun a n => match a with AGrpAddRef => n + 1 | AGrpDecRef => n - 1 | _ => n end) 0 l.

(** Count references on both sides. *)
Ltac refs := unfold heap_lock_refs, tsx_lock_refs; cbn; lia.

Lemma get_set_timer wh e t : get_timer wh (set_timer wh e t) = e.
Proof. by destruct wh. Qed.

(**  The timer heap answers a transaction as the model of the transaction
    assumes: from a well-formed heap that agrees with the transaction on one of
    its timers, scheduling and cancelling it return the same status, end in
    agreement again, and take or drop the same references to the group lock. *)
Theorem timer_calls_agree wh ht p e w now delay active_id l :
  heap_wf ht -> entries ht !! p = Some e -> te_has_cb e = true ->
  sees e (get_timer wh (w_tsx w)) -> active_id <> 0 ->
  (let r := tsx_schedule_timer wh delay active_id w in
   exists ht' e', pj_timer_heap_schedule_w_grp_lock ht p now delay active_id (Some l)
                  = Some (r.1, ht') /\ heap_wf ht' /\
     entries ht' !! p = Some e' /\ sees e' (get_timer wh (w_tsx r.2)) /\
     heap_lock_refs (t_log ht') - heap_lock_refs (t_log ht)
     = tsx_lock_refs (w_trace r.2) - tsx_lock_refs (w_trace w)) /\
  (let r := tsx_cancel_timer wh w in
   exists ht' e', pj_timer_heap_cancel_if_active ht p TIMER_INACTIVE = Some (r.1, ht') /\
     heap_wf ht' /\ entries ht' !! p = Some e' /\ sees e' (get_timer wh (w_tsx r.2)) /\
     heap_lock_refs (t_log ht') - heap_lock_refs (t_log ht)
     = tsx_lock_refs (w_trace r.2) - tsx_lock_refs (w_trace w)).
Proof.
  intros Hwf He Hcb (Hid & Hrun & Hlock) Hact; split; cbv zeta.
  - pose proof (schedule_ok ht p e now delay true active_id (Some l) Hwf He Hcb) as H.
    unfold tsx_schedule_timer, pj_assert, when; apply Z.eqb_neq in Hact; rewrite Hact; cbn [negb].
    unfold mbind, M_bind, skip, get_tsx; cbn -[Z.sub]; rewrite Hrun.
    destruct (pj_timer_entry_running e) eqn:E.
    + exists (log (TAssert 504) ht), e; split; [exact H|split; [by apply wf_log|]].
      split; [done|split; [|refs]]; cbn; unfold sees; by rewrite E.
    + destruct H as (ht' & H1 & Hw & _ & (x & Hx & Hl) & Hlog); exists ht'.
      eexists; split; [exact H1|split; [done|split; [exact Hl|split]]].
      * cbn; rewrite get_set_timer; unfold sees, pj_timer_entry_running; cbn.
        split; [done|split; [symmetry; by apply Z.leb_le|done]].
      * rewrite Hlog; refs.
  - destruct (cancel_timer_ok ht p e true true TIMER_INACTIVE Hwf He) as (ht' & H1 & Hw & _ & Hl & Hlog).
    exists ht'; eexists; unfold tsx_cancel_timer, when, mbind, M_bind, get_tsx; cbn -[Z.sub].
    rewrite Hrun, Hlock; split; [|split; [done|split; [exact Hl|]]].
    + etransitivity; [exact H1|]; destruct (pj_timer_entry_running e), (_grp_lock e); done.
    + rewrite Hlog; destruct (pj_timer_entry_running e), (_grp_lock e); cbn;
        rewrite get_set_timer; (split; [done|refs]).
Qed.

(** The timers of a transaction as it is created, zeroed, on a heap that has to
    grow. *)
Lemma timer_calls_agree_witness :
  let w := mk_world (tsx_create None) ∅ 0 [] in
  let r := tsx_schedule_timer RetransmitTimer (mk_tv 0 500) RETRANSMIT_TIMER w in
  r.1 = PJ_SUCCESS /\
  exists ht' e', pj_timer_heap_schedule_w_grp_lock idle_heap 10 (mk_tv 100 0) (mk_tv 0 500)
                   RETRANSMIT_TIMER (Some 7) = Some (r.1, ht') /\
    entries ht' !! 10 = Some e' /\ sees e' (get_timer RetransmitTimer (w_tsx r.2)).
Proof.
  intros w r; split; [reflexivity|].
  destruct (timer_calls_agree RetransmitTimer idle_heap 10 idle_entry w (mk_tv 100 0) (mk_tv 0 500)
              RETRANSMIT_TIMER 7 idle_heap_wf eq_refl eq_refl) as [(ht' & e' & H1 & _ & H2 & H3 & _) _].
  - repeat split.
  - discriminate.
  - exact (ex_intro _ ht' (ex_intro _ e' (conj H1 (conj H2 H3)))).
Defined.
