(* ===== verification/TsxCore.v ===== *)
(** * SIP transactions: the control state and the operations that leave it alone

    The control state of a transaction is what decides its next step: role,
    method, state, handler, the pending flags, and whether one of the two
    critical assertions (call through a null handler, state moving backwards)
    has failed.  Timers, notifications, transports, reference counts and
    status texts do not touch it; [tsx_set_state] has an exact effect on it. *)

From Stdlib Require Import ZArith Lia Bool.
From stdpp Require Import base list numbers option gmap.
From S2P Require Import Prelude TimeVal TsxModel.
Local Open Scope Z_scope.

(** ** Flags *)

Lemma has_flag_lor f b b' : has_flag (Z.lor f b) b' = has_flag f b' || has_flag b b'.
Proof.
  unfold has_flag; rewrite Z.land_lor_distr_l.
  destruct (Z.land f b' =? 0) eqn:E1; bool_hyps.
  - rewrite E1, Z.lor_0_l; done.
  - destruct (Z.lor _ _ =? 0) eqn:E2; bool_hyps; [|done].
    apply Z.lor_eq_0_iff in E2 as [? ?]; done.
Qed.
Lemma has_flag_land f c b : has_flag (Z.land f c) b = has_flag f (Z.land c b).
Proof. unfold has_flag; by rewrite Z.land_assoc. Qed.
Lemma has_flag_0 f : has_flag f 0 = false.
Proof. unfold has_flag; by rewrite Z.land_0_r. Qed.

(** Evaluate flag tests on updated flag words. *)
Ltac flag_simpl :=
  unfold TSX_HAS_PENDING_TRANSPORT, TSX_HAS_PENDING_RESCHED, TSX_HAS_PENDING_SEND,
    TSX_HAS_PENDING_DESTROY, TSX_HAS_RESOLVED_SERVER in *;
  repeat first
    [ rewrite has_flag_lor | rewrite has_flag_land
    | match goal with
      | |- context [Z.land (Z.lnot ?a) ?b] =>
          let r := eval vm_compute in (Z.land (Z.lnot a) b) in change (Z.land (Z.lnot a) b) with r
      | |- context [has_flag (Zpos ?a) (Zpos ?b)] =>
          let r := eval vm_compute in (has_flag (Zpos a) (Zpos b)) in
          change (has_flag (Zpos a) (Zpos b)) with r
      end
    | rewrite has_flag_0 | rewrite orb_false_r | rewrite orb_true_r ].

(** ** The control state *)

Definition critical (a : action) : bool :=
  match a with AAssert l => (l =? 0) || (l =? 1175) | _ => false end.

Record core_state := mk_core {
  c_role : role_e; c_method : method_e; c_state : tsx_state_e;
  c_handler : option handler_e; c_flag : Z; c_err : pj_status_t; c_crit : bool }.

Definition core (w : world) : core_state :=
  let t := w_tsx w in
  mk_core (role t) (method t) (state t) (state_handler t) (transport_flag t)
    (transport_err t) (existsb critical (w_trace w)).

(** [m] leaves the observation [obs] of the world as it is. *)
Definition keeps {X A} (obs : world -> X) (m : M A) : Prop := forall w, obs (m w).2 = obs w.

Create HintDb tsx discriminated.

Section Keeps.
Context {X : Type} (obs : world -> X).

Lemma keeps_ret {A} (a : A) : keeps obs (mret a : M A).
Proof. done. Qed.
Lemma keeps_bind {A B} (m : M A) (f : A -> M B) :
  keeps obs m -> (forall a, keeps obs (f a)) -> keeps obs (m ≫= f).
Proof.
  intros Hm Hf w; unfold mbind, M_bind; specialize (Hm w).
  destruct (m w) as [a w1]; rewrite (Hf a w1); done.
Qed.
Lemma keeps_get : keeps obs get_tsx.
Proof. done. Qed.
Lemma keeps_get_world : keeps obs get_world.
Proof. done. Qed.
Lemma keeps_skip : keeps obs skip.
Proof. done. Qed.
Lemma keeps_when b m : keeps obs m -> keeps obs (when b m).
Proof. by destruct b. Qed.
Lemma keeps_if {A} (b : bool) (m1 m2 : M A) :
  keeps obs m1 -> keeps obs m2 -> keeps obs (if b then m1 else m2).
Proof. by destruct b. Qed.
End Keeps.
#[export] Hint Resolve keeps_ret keeps_get keeps_get_world keeps_skip : tsx.

(** Structural decomposition of a program that keeps an observation. *)
Ltac keeps_step :=
  match goal with
  | |- keeps _ (mbind _ _) => apply keeps_bind; [|intros]
  | |- keeps _ (if _ then _ else _) => apply keeps_if
  | |- keeps _ (when _ _) => apply keeps_when
  | |- keeps _ (match ?x with _ => _ end) => destruct x
  | |- keeps _ (let '(_, _) := ?x in _) => destruct x
  | |- keeps _ (let _ := _ in _) => cbv zeta
  | |- keeps _ _ => solve [auto 2 with tsx nocore]
  end.
Ltac solve_keeps := repeat keeps_step.

(** [m] leaves the control state alone. *)
Abbreviation neutral := (keeps core).

Lemma neutral_emit a : critical a = false -> neutral (emit a).
Proof. intros H w; unfold core, emit; cbn; by rewrite H. Qed.
Lemma neutral_mod f :
  (forall t, role (f t) = role t /\ method (f t) = method t /\ state (f t) = state t /\
     state_handler (f t) = state_handler t /\ transport_flag (f t) = transport_flag t /\
     transport_err (f t) = transport_err t) ->
  neutral (mod_tsx f).
Proof.
  intros H w; unfold core, mod_tsx; cbn.
  destruct (H (w_tsx w)) as (-> & -> & -> & -> & -> & ->); done.
Qed.
Lemma neutral_txmod f : neutral (mod_txmod f).
Proof. done. Qed.
Lemma neutral_assert l b : (l =? 0) || (l =? 1175) = false -> neutral (pj_assert l b).
Proof. intros H; apply keeps_when, neutral_emit; exact H. Qed.
#[export] Hint Resolve neutral_txmod : tsx.
#[export] Hint Extern 1 (neutral (emit _)) => apply neutral_emit; reflexivity : tsx.
#[export] Hint Extern 1 (neutral (pj_assert _ _)) => apply neutral_assert; reflexivity : tsx.
#[export] Hint Extern 1 (neutral (mod_tsx _)) =>
  apply neutral_mod; intros; repeat split; reflexivity : tsx.

Lemma set_timer_frame w e t :
  role (set_timer w e t) = role t /\ method (set_timer w e t) = method t /\
  state (set_timer w e t) = state t /\ state_handler (set_timer w e t) = state_handler t /\
  transport_flag (set_timer w e t) = transport_flag t /\
  transport_err (set_timer w e t) = transport_err t.
Proof. by destruct w. Qed.

Lemma neutral_set_timer w e : neutral (mod_tsx (set_timer w e)).
Proof. apply neutral_mod; intros; apply set_timer_frame. Qed.
#[export] Hint Resolve neutral_set_timer : tsx.

Lemma neutral_schedule w d id : neutral (tsx_schedule_timer w d id).
Proof. unfold tsx_schedule_timer; solve_keeps. Qed.
Lemma neutral_cancel w : neutral (tsx_cancel_timer w).
Proof. unfold tsx_cancel_timer; solve_keeps. Qed.
#[export] Hint Resolve neutral_schedule neutral_cancel : tsx.

Lemma neutral_tp_state st : neutral (tsx_tp_state_callback false st).
Proof. done. Qed.
#[export] Hint Resolve neutral_tp_state : tsx.
Lemma neutral_release_transport : neutral release_transport.
Proof. unfold release_transport; solve_keeps. Qed.
#[export] Hint Resolve neutral_release_transport : tsx.
Lemma neutral_update_transport : neutral (tsx_update_transport None).
Proof. unfold tsx_update_transport; solve_keeps. Qed.
Lemma neutral_set_status c x : neutral (tsx_set_status_code c x).
Proof. unfold tsx_set_status_code; solve_keeps. Qed.
Lemma neutral_unregister : neutral mod_tsx_layer_unregister_tsx.
Proof. unfold mod_tsx_layer_unregister_tsx; solve_keeps. Qed.
Lemma neutral_release : neutral release_last_tx.
Proof. unfold release_last_tx; solve_keeps. Qed.
Lemma neutral_notify_rx ev src : neutral (notify_rx ev src).
Proof. unfold notify_rx; solve_keeps. Qed.
Lemma neutral_notify_state s ev : neutral (notify_state s ev).
Proof. unfold notify_state; solve_keeps. Qed.
Lemma neutral_restart d : neutral (restart_timeout d).
Proof. unfold restart_timeout; solve_keeps. Qed.
#[export] Hint Resolve neutral_update_transport neutral_set_status neutral_unregister
  neutral_release neutral_notify_rx neutral_notify_state neutral_restart : tsx.
Lemma neutral_save td : neutral (save_last_tx td).
Proof. unfold save_last_tx; solve_keeps. Qed.
Lemma neutral_discard td : neutral (discard_last_tx td).
Proof. unfold discard_last_tx; solve_keeps. Qed.
Lemma neutral_resched cfg : neutral (tsx_resched_retransmission cfg).
Proof. unfold tsx_resched_retransmission; solve_keeps. Qed.
#[export] Hint Resolve neutral_save neutral_discard neutral_resched : tsx.

(** ** Reasoning about the control state

    [ok c m Q]: from every world with control state [c], [m] ends in a control
    state and with a result that satisfy [Q]. *)
Definition ok {A} (c : core_state) (m : M A) (Q : A -> core_state -> Prop) : Prop :=
  forall w, core w = c -> Q (m w).1 (core (m w).2).

(** The transaction record agrees with the control state. *)
Definition agrees (t : pjsip_transaction) (c : core_state) : Prop :=
  role t = c_role c /\ method t = c_method c /\ state t = c_state c /\
  state_handler t = c_handler c /\ transport_flag t = c_flag c /\ transport_err t = c_err c.

Lemma ok_ret {A} c (a : A) (Q : A -> core_state -> Prop) : Q a c -> ok c (mret a) Q.
Proof. by intros H w <-. Qed.
Lemma ok_bind {A B} c (m : M A) (f : A -> M B) (Q : B -> core_state -> Prop) :
  ok c m (fun a c1 => ok c1 (f a) Q) -> ok c (m ≫= f) Q.
Proof.
  intros H w Hw; unfold mbind, M_bind; specialize (H w Hw).
  destruct (m w) as [a w1]; by apply H.
Qed.
Lemma ok_neutral {A} c (m : M A) (Q : A -> core_state -> Prop) :
  neutral m -> (forall a, Q a c) -> ok c m Q.
Proof. intros Hm HQ w <-; rewrite Hm; apply HQ. Qed.
Lemma ok_get {A} c (f : pjsip_transaction -> M A) (Q : A -> core_state -> Prop) :
  (forall t, agrees t c -> ok c (f t) Q) -> ok c (get_tsx ≫= f) Q.
Proof. intros H w Hw; apply (H (w_tsx w)); [by rewrite <- Hw|done]. Qed.
Lemma ok_mono {A} c (m : M A) (Q Q' : A -> core_state -> Prop) :
  ok c m Q -> (forall a c', Q a c' -> Q' a c') -> ok c m Q'.
Proof. intros H HQ w Hw; by apply HQ, H. Qed.

Definition with_flag (f : Z) (c : core_state) : core_state :=
  mk_core (c_role c) (c_method c) (c_state c) (c_handler c) f (c_err c) (c_crit c).
Definition with_err (e : pj_status_t) (c : core_state) : core_state :=
  mk_core (c_role c) (c_method c) (c_state c) (c_handler c) (c_flag c) e (c_crit c).

Lemma ok_set_flag c b (Q : () -> core_state -> Prop) :
  Q () (with_flag (Z.lor (c_flag c) b) c) -> ok c (set_flag b) Q.
Proof. by intros H w <-. Qed.
Lemma ok_clr_flag c b (Q : () -> core_state -> Prop) :
  Q () (with_flag (Z.land (c_flag c) (Z.lnot b)) c) -> ok c (clr_flag b) Q.
Proof. by intros H w <-. Qed.

(** Forget the names of unit results. *)
Ltac units := repeat match goal with u : () |- _ => destruct u end.

(** One rule per program construct. *)
Ltac ok_step :=
  match goal with
  | |- ok _ (mbind _ get_tsx) _ => apply ok_get; intros ? ?
  | |- ok _ (mbind _ _) _ => apply ok_bind
  | |- ok _ (mret _) _ => apply ok_ret
  | |- ok _ (set_flag _) _ => apply ok_set_flag
  | |- ok _ (clr_flag _) _ => apply ok_clr_flag
  | |- ok _ (let _ := _ in _) _ => cbv zeta
  | |- ok _ _ _ => apply ok_neutral; [solve [auto 2 with tsx nocore]|intros]
  end.

Lemma ok_mod_err c st (Q : () -> core_state -> Prop) :
  Q () (with_err st c) -> ok c (mod_tsx (fun t => t <| transport_err := st |>)) Q.
Proof. by intros H w <-. Qed.

Lemma ok_tp_state c b st (Q : () -> core_state -> Prop) :
  (forall e, Q () (with_err e c)) -> ok c (tsx_tp_state_callback b st) Q.
Proof.
  intros H; destruct b.
  - apply ok_bind, ok_mod_err; repeat ok_step; units; apply H.
  - intros w <-; exact (H (c_err (core w))).
Qed.

Lemma ok_update_transport c tp (Q : () -> core_state -> Prop) :
  (forall e, Q () (with_err e c)) -> ok c (tsx_update_transport tp) Q.
Proof.
  intros H; unfold tsx_update_transport.
  apply ok_bind, ok_neutral; [auto with tsx|intros _]; destruct tp.
  - unfold attach_transport; repeat ok_step; by apply ok_tp_state.
  - intros w <-; exact (H (c_err (core w))).
Qed.

(** The flags after [tsx_shutdown] and after [tsx_set_state]. *)
Definition shutdown_flag (f : Z) : Z :=
  let f := Z.land f (Z.lnot (Z.lor TSX_HAS_PENDING_RESCHED TSX_HAS_PENDING_SEND)) in
  if has_flag f TSX_HAS_PENDING_TRANSPORT then Z.lor f TSX_HAS_PENDING_DESTROY else f.

Definition goto_flag (s : tsx_state_e) (f : Z) : Z :=
  match s with
  | STATE_TERMINATED =>
      if has_flag f TSX_HAS_PENDING_TRANSPORT
      then Z.land f (Z.lnot TSX_HAS_PENDING_TRANSPORT) else f
  | STATE_DESTROYED => shutdown_flag f
  | _ => f
  end.

(** The exact effect of [tsx_set_state] on the control state. *)
Definition set_state_core (s : tsx_state_e) (c : core_state) : core_state :=
  mk_core (c_role c) (c_method c) s (handler_for (c_role c) s) (goto_flag s (c_flag c)) (c_err c)
    (negb (state_num (c_state c) <=? state_num s) || c_crit c).

Lemma ok_when c b m (Q : () -> core_state -> Prop) :
  (b = true -> ok c m Q) -> (b = false -> Q () c) -> ok c (when b m) Q.
Proof. destruct b; intros H1 H2; [by apply H1|intros w <-; by apply H2]. Qed.

Lemma ok_enter_terminated c (Q : () -> core_state -> Prop) :
  Q () (with_flag (if has_flag (c_flag c) TSX_HAS_PENDING_TRANSPORT
                   then Z.land (c_flag c) (Z.lnot TSX_HAS_PENDING_TRANSPORT) else c_flag c) c) ->
  ok c enter_terminated Q.
Proof.
  intros H; unfold enter_terminated; apply ok_get; intros t (_ & _ & _ & _ & Hf & _).
  apply ok_bind, ok_when; rewrite Hf; intros E; rewrite E in H.
  - apply ok_bind, ok_neutral; [solve_keeps|intros].
    apply ok_clr_flag; repeat ok_step; units; exact H.
  - destruct c; repeat ok_step; units; exact H.
Qed.

Lemma ok_shutdown c (Q : pj_status_t -> core_state -> Prop) :
  (forall st, Q st (with_flag (shutdown_flag (c_flag c)) c)) -> ok c tsx_shutdown Q.
Proof.
  intros H; unfold tsx_shutdown, shutdown_flag in *.
  apply ok_bind, ok_neutral; [auto with tsx|intros _].
  apply ok_get; intros t _.
  do 4 (apply ok_bind, ok_neutral; [solve_keeps|intros _]).
  apply ok_bind, ok_clr_flag, ok_get; intros t' (_ & _ & _ & _ & Hf & _); cbn in Hf.
  apply ok_bind, ok_when; rewrite Hf; intros E; rewrite E in H.
  - apply ok_bind, ok_set_flag.
    apply ok_neutral; [solve_keeps|intros _].
    apply ok_bind, ok_neutral; [solve_keeps|intros _]; apply ok_ret, H.
  - apply ok_bind, ok_neutral; [solve_keeps|intros _]; apply ok_ret, H.
Qed.

Lemma ok_assert_mono c b (Q : () -> core_state -> Prop) :
  Q () (mk_core (c_role c) (c_method c) (c_state c) (c_handler c) (c_flag c)
          (c_err c) (negb b || c_crit c)) ->
  ok c (pj_assert 1175 b) Q.
Proof. intros H w <-; by destruct b. Qed.

Lemma ok_mod_state c s (Q : () -> core_state -> Prop) :
  Q () (mk_core (c_role c) (c_method c) s (handler_for (c_role c) s) (c_flag c) (c_err c)
          (c_crit c)) ->
  ok c (mod_tsx (fun t => t <| state := s |> <| state_handler := handler_for (role t) s |>)) Q.
Proof. by intros H w <-. Qed.

Lemma ok_set_state c s ev src (Q : () -> core_state -> Prop) :
  Q () (set_state_core s c) -> ok c (tsx_set_state s ev src) Q.
Proof.
  intros H; unfold tsx_set_state; apply ok_get; intros t (Hr & Hm & Hs & Hh & Hf & _).
  rewrite Hs; apply ok_bind, ok_assert_mono, ok_bind, ok_mod_state; cbn.
  do 2 (apply ok_bind, ok_neutral; [auto 2 with tsx nocore|intros]).
  destruct s; try (apply ok_neutral; [auto with tsx|intros []; exact H]).
  - apply ok_enter_terminated, H.
  - apply ok_bind, ok_neutral; [auto with tsx|intros].
    apply ok_bind, ok_shutdown; intros; by apply ok_ret.
Qed.
