(* ===== verification/TsxAutomaton.v ===== *)
(** * SIP transactions: the RFC 3261 automaton

    The transaction states and the moves RFC 3261 section 17 allows between
    them are a step relation of their own.  Every entry point of the
    transaction, under every behaviour of the transport layer, either leaves
    the state alone or makes one of these moves. *)

From Stdlib Require Import ZArith Lia Bool.
From stdpp Require Import base list numbers option gmap relations.
From S2P Require Import Prelude TimeVal TsxModel TsxCore.
Local Open Scope Z_scope.

(** ** The specification *)

(** One change of state of a client or server transaction.  Termination by
    timeout, transport error or the user is possible until Terminated. *)
Inductive rfc3261_step (r : role_e) (m : method_e) : tsx_state_e -> tsx_state_e -> Prop :=
| rfc_terminate s :
    state_num s < state_num STATE_TERMINATED -> rfc3261_step r m s STATE_TERMINATED
| rfc_destroy : rfc3261_step r m STATE_TERMINATED STATE_DESTROYED
| rfc_uac_send : r = ROLE_UAC -> rfc3261_step r m STATE_NULL STATE_CALLING
| rfc_uac_1xx s :
    r = ROLE_UAC -> s = STATE_CALLING \/ s = STATE_PROCEEDING -> rfc3261_step r m s STATE_PROCEEDING
| rfc_uac_final s :
    r = ROLE_UAC -> s = STATE_CALLING \/ s = STATE_PROCEEDING -> rfc3261_step r m s STATE_COMPLETED
| rfc_uas_recv : r = ROLE_UAS -> rfc3261_step r m STATE_NULL STATE_TRYING
| rfc_uas_1xx s :
    r = ROLE_UAS -> s = STATE_TRYING \/ s = STATE_PROCEEDING -> rfc3261_step r m s STATE_PROCEEDING
| rfc_uas_final s :
    r = ROLE_UAS -> s = STATE_TRYING \/ s = STATE_PROCEEDING -> rfc3261_step r m s STATE_COMPLETED
| rfc_uas_ack :
    r = ROLE_UAS -> m = M_INVITE -> rfc3261_step r m STATE_COMPLETED STATE_CONFIRMED.

(** The states a transaction of the given role and method can be in. *)
Definition possible_state (r : role_e) (m : method_e) (s : tsx_state_e) : bool :=
  match r, s with
  | ROLE_UAC, (STATE_TRYING | STATE_CONFIRMED) => false
  | ROLE_UAS, STATE_CALLING => false
  | ROLE_UAS, STATE_CONFIRMED => is_invite m
  | _, _ => true
  end.

#[export] Hint Constructors rfc3261_step : tsx.

Lemma rfc_possible r m s s' :
  rfc3261_step r m s s' -> possible_state r m s = true -> possible_state r m s' = true.
Proof. intros H; destruct r; destruct H; subst; done. Qed.

Lemma possible_handler r m s : possible_state r m s = true -> is_Some (handler_for r s).
Proof. destruct r, s; cbn; try done; eauto. Qed.

(** ** The invariant of the control state *)

(** A deferred send waits for the transport, and a deferred destruction
    belongs to a destroyed transaction. *)
Definition wf_flags (s : tsx_state_e) (f : Z) : Prop :=
  (has_flag f TSX_HAS_PENDING_DESTROY = true -> s = STATE_DESTROYED) /\
  (has_flag f TSX_HAS_PENDING_SEND = true ->
     s = STATE_TERMINATED \/
     (s <> STATE_DESTROYED /\ has_flag f TSX_HAS_PENDING_TRANSPORT = true)).

(** The transaction of role [r] and method [m] is in state [s], consistently. *)
Record at_state (r : role_e) (m : method_e) (s : tsx_state_e) (c : core_state) : Prop := {
  at_role : c_role c = r;
  at_method : c_method c = m;
  at_st : c_state c = s;
  at_handler : c_handler c = handler_for r s;
  at_flags : wf_flags s (c_flag c);
  at_crit : c_crit c = false }.

Lemma state_num_inj s s' : state_num s = state_num s' -> s = s'.
Proof. by destruct s, s'. Qed.

(** The same while the transport flag is being updated: a deferred send may
    be left over. *)
Record near_state (r : role_e) (m : method_e) (s : tsx_state_e) (c : core_state) : Prop := {
  near_role : c_role c = r;
  near_method : c_method c = m;
  near_st : c_state c = s;
  near_handler : c_handler c = handler_for r s;
  near_flags : has_flag (c_flag c) TSX_HAS_PENDING_DESTROY = true -> s = STATE_DESTROYED;
  near_crit : c_crit c = false }.

Lemma at_near r m s c : at_state r m s c -> near_state r m s c.
Proof. intros [? ? ? ? [? ?] ?]; by split. Qed.
Lemma near_at r m s c :
  near_state r m s c ->
  (has_flag (c_flag c) TSX_HAS_PENDING_SEND = true ->
     s = STATE_TERMINATED \/
     (s <> STATE_DESTROYED /\ has_flag (c_flag c) TSX_HAS_PENDING_TRANSPORT = true)) ->
  at_state r m s c.
Proof. intros [] H; by split. Qed.
Lemma near_with_flag r m s c f :
  near_state r m s c ->
  has_flag f TSX_HAS_PENDING_DESTROY = has_flag (c_flag c) TSX_HAS_PENDING_DESTROY ->
  near_state r m s (with_flag f c).
Proof. intros [] Hf; split; try done; cbn; by rewrite Hf. Qed.
Lemma near_with_err r m s c e : near_state r m s c -> near_state r m s (with_err e c).
Proof. intros []; by split. Qed.

Lemma at_with_flag r m s c f : at_state r m s c -> wf_flags s f -> at_state r m s (with_flag f c).
Proof. intros [] Hf; by split. Qed.
Lemma at_with_err r m s c e : at_state r m s c -> at_state r m s (with_err e c).
Proof. intros []; by split. Qed.
#[export] Hint Resolve at_with_err near_with_err at_near : tsx.

Lemma wf_flags_goto s s' f :
  wf_flags s f -> state_num s <= state_num s' -> wf_flags s' (goto_flag s' f).
Proof.
  intros [Hd Hs] Hle; unfold goto_flag, shutdown_flag.
  destruct s'; try case_if; split; flag_simpl; intros Hf; try done; auto.
  all: try (specialize (Hd Hf); subst; cbn in Hle; lia).
  all: try (destruct (Hs Hf) as [->|[? ?]]; cbn in Hle; [lia|auto; right; split; done]).
  all: revert E; flag_simpl; congruence.
Qed.

Lemma ok_goto_err r m s s' c ev src :
  at_state r m s c -> state_num s <= state_num s' ->
  ok c (tsx_set_state s' ev src) (fun _ c' => c_err c' = c_err c /\ at_state r m s' c').
Proof.
  intros [Hr Hm Hs Hh Hf Hc] Hle; apply ok_set_state; split; [done|].
  split; cbn; try congruence; [by apply wf_flags_goto with s|].
  rewrite Hs, Hc; apply Z.leb_le in Hle; by rewrite Hle.
Qed.

Lemma ok_goto r m s s' c ev src :
  at_state r m s c -> state_num s <= state_num s' ->
  ok c (tsx_set_state s' ev src) (fun _ => at_state r m s').
Proof. intros H Hle; eapply ok_mono; [by apply (ok_goto_err r m s s')|by intros _ c' []]. Qed.

(** Terminated and Destroyed do not mind a deferred send. *)
Lemma ok_goto_end r m s s' c ev src :
  near_state r m s c -> state_num s <= state_num s' ->
  s' = STATE_TERMINATED \/ s' = STATE_DESTROYED ->
  ok c (tsx_set_state s' ev src) (fun _ c' => c_err c' = c_err c /\ at_state r m s' c').
Proof.
  intros [Hr Hm Hs Hh Hf Hc] Hle Hend; apply ok_set_state; split; [done|].
  split; cbn; try congruence; [|rewrite Hs, Hc; apply Z.leb_le in Hle; by rewrite Hle].
  destruct Hend as [->| ->]; cbn; unfold shutdown_flag; case_if; split; flag_simpl; auto; try done.
  all: intros H; rewrite (Hf H) in Hle; cbn in Hle; lia.
Qed.

(** ** Sending *)

(** Flags other than the pending transport are as before. *)
Definition same_flags (f f' : Z) : Prop :=
  has_flag f' TSX_HAS_PENDING_SEND = has_flag f TSX_HAS_PENDING_SEND /\
  has_flag f' TSX_HAS_PENDING_DESTROY = has_flag f TSX_HAS_PENDING_DESTROY /\
  has_flag f' TSX_HAS_RESOLVED_SERVER = has_flag f TSX_HAS_RESOLVED_SERVER.

Lemma same_flags_wf s f f' :
  same_flags f f' -> wf_flags s f ->
  has_flag f TSX_HAS_PENDING_TRANSPORT = false -> wf_flags s f'.
Proof.
  intros (E1 & E2 & E3) [Hd Hs] Hp; split; rewrite ?E1, ?E2; [done|].
  intros Hf; destruct (Hs Hf) as [?|[? ?]]; [by left|congruence].
Qed.

Lemma send_on_transport_ok r m s c st td :
  at_state r m s c -> has_flag (c_flag c) TSX_HAS_PENDING_TRANSPORT = false ->
  ok c (send_on_transport st td) (fun o c' =>
    at_state r m s c' /\ same_flags (c_flag c) (c_flag c') /\
    (is_Some o -> has_flag (c_flag c') TSX_HAS_PENDING_TRANSPORT = false)).
Proof.
  intros Hat Hp; unfold send_on_transport.
  assert (K : forall f, same_flags (c_flag c) f -> at_state r m s (with_flag f c)).
  { intros f Hf; apply at_with_flag; [done|]; destruct Hat.
    by apply same_flags_wf with (c_flag c). }
  apply ok_get; intros t _; destruct (tsx_transport t) as [tp|];
    [|apply ok_ret; split; [done|by repeat split]].
  repeat ok_step; destruct (st =? PJ_EPENDING).
  - apply ok_ret; cbn; split; [refine (K _ _)|]; repeat split; flag_simpl; try done; by intros [? ?].
  - repeat ok_step; destruct (st =? PJ_SUCCESS); repeat ok_step; cbn;
      (split; [refine (K _ _)|]); repeat split; flag_simpl; try done.
Qed.

Lemma send_failed_ok r m s c st :
  near_state r m s c -> s <> STATE_DESTROYED ->
  ok c (send_failed st) (fun a c' => a <> PJ_SUCCESS /\ at_state r m STATE_TERMINATED c').
Proof.
  intros Hat Hs; unfold send_failed; repeat ok_step.
  eapply ok_mono; [eapply ok_goto_end; [done|by destruct s|auto]|].
  intros ? c' [_ Hc']; apply ok_ret; split; [|done].
  destruct (st =? PJ_SUCCESS) eqn:E; bool_hyps; done.
Qed.

Lemma wf_flags_lt s f :
  state_num s < state_num STATE_TERMINATED -> wf_flags s f ->
  has_flag f TSX_HAS_PENDING_DESTROY = false /\
  (has_flag f TSX_HAS_PENDING_TRANSPORT = false -> has_flag f TSX_HAS_PENDING_SEND = false).
Proof.
  intros Hlt [Hd Hs]; split.
  - destruct (has_flag f TSX_HAS_PENDING_DESTROY); [|done].
    rewrite (Hd eq_refl) in Hlt; cbn in Hlt; lia.
  - intros Hp; destruct (has_flag f TSX_HAS_PENDING_SEND); [|done].
    destruct (Hs eq_refl) as [->|[_ ?]]; [cbn in Hlt; lia|congruence].
Qed.

Lemma send_cb_permanent_ok r m s c td sent :
  at_state r m s c ->
  ok c (send_cb_permanent td sent) (fun _ c' =>
    c_err c' = - sent /\
    if state_num s <? state_num STATE_TERMINATED
    then at_state r m STATE_TERMINATED c' else at_state r m s c').
Proof.
  intros Hat; unfold send_cb_permanent.
  apply ok_bind, ok_mod_err; repeat ok_step; units.
  assert (Hds : s = STATE_DESTROYED -> has_flag (c_flag c) TSX_HAS_PENDING_SEND = false).
  { intros ->; destruct Hat as [_ _ _ _ [_ Hs] _]; destruct (has_flag _ _); [|done].
    by destruct (Hs eq_refl) as [|[? ?]]. }
  destruct H as (_ & _ & Hst & _ & Hf & _); rewrite Hst, Hf; clear Hst Hf t.
  match goal with |- ok ?c1 _ _ =>
    assert (N : near_state r m s c1) by
      (repeat apply near_with_flag; flag_simpl; auto with tsx);
    assert (S : has_flag (c_flag c1) TSX_HAS_PENDING_SEND
              = has_flag (c_flag c) TSX_HAS_PENDING_SEND) by (cbn; by flag_simpl);
    assert (E : c_err c1 = - sent) by done; generalize dependent c1
  end.
  intros c1 N S E; rewrite (near_st _ _ _ _ N), <- E; destruct s; cbn;
    try (eapply ok_goto_end; [done|cbn; lia|auto]).
  - apply ok_when; intros D; [by destruct N; specialize (near_flags0 D)|].
    split; [done|]; apply near_at; auto.
  - apply ok_when; intros D; [eapply ok_goto_end; [done|done|auto]|].
    split; [done|]; apply near_at; [done|]; rewrite S, Hds; done.
Qed.

Lemma send_cb_temporary_ok c cfg td (Q : () -> core_state -> Prop) :
  Q () c -> ok c (send_cb_temporary cfg td) Q.
Proof. intros H; apply ok_neutral; [unfold send_cb_temporary; solve_keeps|by intros []]. Qed.

Lemma ok_update_neutral c tp f (Q : () -> core_state -> Prop) :
  neutral (mod_tsx f) -> (forall e, Q () (with_err e c)) ->
  ok c (tsx_update_transport tp;; mod_tsx f) Q.
Proof.
  intros Hf H; apply ok_bind, ok_update_transport; intros e.
  apply ok_neutral; [done|intros []; apply H].
Qed.

(** What a nested send leaves behind. *)
Definition sent_nested (r : role_e) (m : method_e) (s : tsx_state_e) (c : core_state) : Prop :=
  at_state r m s c \/
  (state_num s < state_num STATE_TERMINATED /\ at_state r m STATE_TERMINATED c).

(** The end of [send_cb_sent]: the deferred reschedule. *)
Lemma resched_tail_ok cfg r m s c :
  at_state r m s c ->
  ok c (t ← get_tsx;
        when (has_flag (transport_flag t) TSX_HAS_PENDING_RESCHED) (
          clr_flag TSX_HAS_PENDING_RESCHED;;
          when (negb (is_reliable t)) (tsx_resched_retransmission cfg)))
    (fun _ c' => at_state r m s c' /\ same_flags (c_flag c) (c_flag c')).
Proof.
  intros Hat; apply ok_get; intros t _; apply ok_when; intros _; [|by repeat split; apply Hat].
  apply ok_bind, ok_clr_flag, ok_neutral; [solve_keeps|intros _]; split.
  - apply at_with_flag; [done|]; destruct Hat as [_ _ _ _ [Hd Hs] _]; split; flag_simpl; auto.
  - repeat split; cbn; by flag_simpl.
Qed.

Lemma wf_flags_destroyed f : wf_flags STATE_DESTROYED f -> has_flag f TSX_HAS_PENDING_SEND = false.
Proof. intros [_ Hs]; destruct (has_flag _ _); [|done]; by destruct (Hs eq_refl) as [|[? ?]]. Qed.

(** What the callback for a sent message leaves behind, from flags [f]: no
    change of state unless a send had been deferred. *)
Definition after_sent (r : role_e) (m : method_e) (s : tsx_state_e) (f : Z) (c : core_state)
  : Prop :=
  sent_nested r m s c /\
  (has_flag f TSX_HAS_PENDING_SEND = false ->
     at_state r m s c /\ has_flag (c_flag c) TSX_HAS_PENDING_SEND = false).

Section SentCallback.
Context (cfg : tsx_cfg) (r : role_e) (m : method_e) (s : tsx_state_e) (f : Z)
  (send : option tx_data -> M pj_status_t).
Hypothesis Hsend : forall o c, has_flag f TSX_HAS_PENDING_SEND = true ->
  s <> STATE_DESTROYED ->
  at_state r m s c -> has_flag (c_flag c) TSX_HAS_PENDING_TRANSPORT = false ->
  has_flag (c_flag c) TSX_HAS_RESOLVED_SERVER = true ->
  ok c (send o) (fun _ => sent_nested r m s).

Lemma send_cb_deferred_ok c :
  at_state r m s c -> c_flag c = f ->
  ok c (send_cb_deferred cfg send) (fun _ => after_sent r m s f).
Proof.
  intros Hat <-; unfold send_cb_deferred; repeat ok_step; units.
  destruct H as (_ & _ & _ & _ & Hf & _); rewrite Hf; clear Hf.
  match goal with |- ok ?c1 _ _ =>
    assert (N : near_state r m s c1) by
      (repeat apply near_with_flag; flag_simpl; auto with tsx);
    assert (S : has_flag (c_flag c1) TSX_HAS_PENDING_SEND
              = has_flag (c_flag c) TSX_HAS_PENDING_SEND) by (cbn; by flag_simpl);
    assert (P : has_flag (c_flag c1) TSX_HAS_PENDING_TRANSPORT = false) by (cbn; by flag_simpl);
    assert (R : has_flag (c_flag c1) TSX_HAS_RESOLVED_SERVER = true) by (cbn; by flag_simpl);
    generalize dependent c1
  end; intros c1 N S P R.
  destruct (has_flag (c_flag c1) TSX_HAS_PENDING_DESTROY) eqn:D.
  - pose proof (near_flags _ _ _ _ N D) as ->.
    eapply ok_mono; [eapply ok_goto_end; [done|done|auto]|].
    intros ? c' [_ Hc']; split; [by left|]; split; [done|].
    by apply wf_flags_destroyed, Hc'.
  - apply ok_bind, ok_when; rewrite S; intros E.
    + apply ok_bind, ok_clr_flag, ok_bind.
      eapply ok_mono; [apply Hsend|]; [done| | | | |].
      * intros ->; destruct Hat as [_ _ _ _ Hw _]; apply wf_flags_destroyed in Hw; congruence.
      * apply near_at; [apply near_with_flag; [done|]|]; cbn; flag_simpl; done.
      * cbn; by flag_simpl.
      * cbn; by flag_simpl.
      * intros ? c2 Hc2; apply ok_neutral; [solve_keeps|intros _].
        destruct Hc2 as [?|[? ?]]; (eapply ok_mono; [by apply resched_tail_ok|]);
          intros ? c3 [? _]; (split; [|congruence]); unfold sent_nested; auto.
    + eapply ok_mono; [apply resched_tail_ok, near_at; [done|congruence]|].
      intros ? c3 [H3 (E3 & _)]; split; [by left|split; [done|congruence]].
Qed.

Lemma send_cb_sent_ok c tp len :
  at_state r m s c -> c_flag c = f ->
  ok c (send_cb_sent cfg send tp len) (fun _ => after_sent r m s f).
Proof.
  intros Hat Hf; unfold send_cb_sent; do 2 ok_step; apply ok_get; intros t _.
  apply ok_bind, ok_when; intros _; [|by apply send_cb_deferred_ok].
  apply ok_update_neutral; [auto with tsx|intros e].
  apply send_cb_deferred_ok; auto with tsx.
Qed.

(** The callback: a state change is to Terminated only, and when no send was
    deferred it comes with an error code and stops the attempts. *)
Lemma send_msg_callback_ok c td sent cont tp len :
  at_state r m s c -> c_flag c = f -> sent <> 0 ->
  ok c (send_msg_callback cfg send td sent cont tp len) (fun k c' =>
    sent_nested r m s c' /\
    (has_flag f TSX_HAS_PENDING_SEND = false -> state_num s < state_num STATE_TERMINATED ->
       (at_state r m s c' /\ has_flag (c_flag c') TSX_HAS_PENDING_SEND = false) \/
       (at_state r m STATE_TERMINATED c' /\ c_err c' <> 0 /\ k = false))).
Proof.
  intros Hat Hf Hsent; unfold send_msg_callback.
  apply ok_bind, ok_neutral; [auto with tsx|intros w].
  case_if; [apply ok_ret; split; [by left|intros; left; subst; done]|].
  repeat ok_step; destruct (0 <? sent).
  - eapply ok_mono; [by apply send_cb_sent_ok|].
    intros ? c' [H1 H2]; apply ok_ret; split; [done|intros H3 _; left; auto].
  - ok_step; ok_step; apply ok_get; intros t _.
    apply ok_bind, ok_neutral; [solve_keeps|intros _].
    apply ok_get; intros t' (_ & _ & _ & _ & Hf' & _); rewrite Hf', Hf.
    case_if.
    + eapply ok_mono; [by apply send_cb_permanent_ok|].
      intros ? c' [He Hc']; apply ok_ret; destruct (state_num s <? _) eqn:Es; bool_hyps.
      * split; [by right|intros _ Hs; right; rewrite He].
        destruct (wf_flags_lt _ _ Hs (at_flags _ _ _ _ Hat)) as [Hd _].
        rewrite <- Hf, Hd, orb_false_r in E0; bool_hyps; subst cont; split; [done|split; [lia|done]].
      * split; [by left|intros; lia].
    + apply send_cb_temporary_ok, ok_ret; split; [by left|intros; left; subst; done].
Qed.
End SentCallback.

(** Completion callbacks report a byte count or an error, never zero. *)
Definition cbs_ok (env : send_env) : Prop :=
  let '(SendEnv _ _ _ cbs) := env in
  Forall (fun cb => let '(SendCb sent _ _ _ _) := cb in sent <> 0) cbs.

(** The outcome of a send: the state is kept, or Terminated with an error. *)
Definition send_outcome (r : role_e) (m : method_e) (s : tsx_state_e)
    (a : pj_status_t) (c : core_state) : Prop :=
  at_state r m s c \/ (at_state r m STATE_TERMINATED c /\ a <> PJ_SUCCESS).

Lemma run_callbacks_ok cfg r m s c send td cbs :
  at_state r m s c -> state_num s < state_num STATE_TERMINATED ->
  has_flag (c_flag c) TSX_HAS_PENDING_SEND = false ->
  Forall (fun cb => let '(SendCb sent _ _ _ _) := cb in sent <> 0) cbs ->
  ok c (run_callbacks cfg send td cbs) (fun _ c' =>
    at_state r m s c' \/ (at_state r m STATE_TERMINATED c' /\ c_err c' <> 0)).
Proof.
  intros Hat Hlt Hs Hcbs; revert c Hat Hs.
  induction Hcbs as [|[sent cont tp len nested] cbs Hsent Hcbs IH]; intros c Hat Hs.
  - apply ok_ret; by left.
  - cbn [run_callbacks]; apply ok_bind.
    eapply ok_mono; [apply (send_msg_callback_ok cfg r m s (c_flag c)); try done; congruence|].
    intros k c' [_ H]; destruct (H Hs Hlt) as [[? ?]|(? & ? & ->)].
    + case_if; [apply ok_ret; by left|by apply IH].
    + rewrite orb_true_r; apply ok_ret; by right.
Qed.

Lemma wf_flags_set_pt s f :
  s <> STATE_DESTROYED -> wf_flags s f ->
  wf_flags s (Z.lor f TSX_HAS_PENDING_TRANSPORT).
Proof. intros Hs [Hd Hn]; split; flag_simpl; auto. Qed.

Lemma wf_flags_set_send s f :
  state_num s < state_num STATE_TERMINATED ->
  has_flag f TSX_HAS_PENDING_TRANSPORT = true -> wf_flags s f ->
  wf_flags s (Z.lor f TSX_HAS_PENDING_SEND).
Proof.
  intros Hs Hp [Hd Hn]; split; revert Hp; flag_simpl; intros Hp; [auto|].
  intros _; right; split; [intros ->; cbn in Hs; lia|done].
Qed.

Lemma tsx_send_msg_ok cfg r m s c env o :
  at_state r m s c -> state_num s < state_num STATE_TERMINATED -> cbs_ok env ->
  ok c (tsx_send_msg cfg env o) (send_outcome r m s).
Proof.
  destruct env as [pend tps eps cbs]; intros Hat Hlt Hcbs.
  destruct o as [td|]; cbn [tsx_send_msg]; [|repeat ok_step; by left].
  apply ok_get; intros t (_ & _ & _ & _ & Hf & _); rewrite Hf; clear Hf t.
  case_if; [|destruct pend].
  - repeat ok_step; left; apply at_with_flag; [done|].
    by apply wf_flags_set_send; [| |apply Hat].
  - apply ok_ret; by left.
  - apply ok_bind; eapply ok_mono; [by apply (send_on_transport_ok r m s)|].
    intros [st|] c1 (H1 & (S1 & _) & P1); [|apply ok_ret; by left].
    assert (Hs : s <> STATE_DESTROYED) by (intros ->; cbn in Hlt; lia).
    apply ok_get; intros t _; case_if.
    + eapply ok_mono; [apply (send_failed_ok r m s); auto with tsx|].
      intros a c' [? ?]; by right.
    + apply ok_bind, ok_neutral; [auto with tsx|intros _].
      do 2 (apply ok_bind, ok_neutral; [auto with tsx|intros _]).
      apply ok_bind, ok_set_flag.
      apply ok_bind, ok_neutral; [destruct (tx_is_request td); auto with tsx|intros _].
      apply ok_bind; eapply ok_mono; [apply (run_callbacks_ok cfg r m s); try done|].
      * apply at_with_flag; [done|]; apply wf_flags_set_pt; [done|apply H1].
      * cbn; flag_simpl; apply (wf_flags_lt s); [done|apply H1|by apply P1].
      * intros _u c2 H2; apply ok_bind, ok_neutral; [solve_keeps|intros _].
        apply ok_get; intros t' (_ & _ & Hst & _ & _ & Herr); apply ok_ret.
        destruct H2 as [H2|[H2 He]]; [by left|right; split; [done|]].
        rewrite Hst, (at_st _ _ _ _ H2), bool_decide_true, Herr by done.
        rewrite andb_true_r; match goal with |- (if ?b then _ else _) <> _ =>
          destruct b eqn:E1; [exact He|by apply Z.eqb_neq] end.
Qed.

(** A send nested in a callback has a resolved destination: it goes to the
    transport at hand or fails for good. *)
Lemma nested_send_ok cfg r m s c env o :
  at_state r m s c -> s <> STATE_DESTROYED ->
  has_flag (c_flag c) TSX_HAS_PENDING_TRANSPORT = false ->
  has_flag (c_flag c) TSX_HAS_RESOLVED_SERVER = true ->
  ok c (tsx_send_msg cfg env o) (fun _ => sent_nested r m s).
Proof.
  destruct env as [pend tps eps cbs]; intros Hat Hs Hp Hr.
  destruct o as [td|]; cbn [tsx_send_msg]; [|repeat ok_step; by left].
  apply ok_get; intros t (_ & _ & _ & _ & Hf & _); rewrite Hf, Hp; clear Hf t.
  destruct pend; [apply ok_ret; by left|].
  apply ok_bind; eapply ok_mono; [by apply (send_on_transport_ok r m s)|].
  intros [st|] c1 (H1 & (_ & _ & R1) & _); [|apply ok_ret; by left].
  apply ok_get; intros t (_ & _ & _ & _ & Hf & _); rewrite Hf, R1, Hr.
  eapply ok_mono; [apply (send_failed_ok r m s); auto with tsx|].
  intros a c' [_ H]; destruct (decide (s = STATE_TERMINATED)) as [->|]; [by left|].
  right; split; [by destruct s|done].
Qed.

(** ** Triples

    [triple r m s p Q]: from every control state consistent with state [s],
    [p] ends in a control state and a result that satisfy [Q]. *)
Definition triple {A} (r : role_e) (m : method_e) (s : tsx_state_e) (p : M A)
    (Q : A -> core_state -> Prop) : Prop :=
  forall c, at_state r m s c -> ok c p Q.

(** [p] stays in state [s]. *)
Abbreviation stays r m s p := (triple r m s p (fun _ => at_state r m s)).

(** At most one step of the automaton. *)
Definition stepped (r : role_e) (m : method_e) (s : tsx_state_e) (c : core_state) : Prop :=
  exists s', at_state r m s' c /\ (s' = s \/ rfc3261_step r m s s').

Section Triples.
Context {r : role_e} {m : method_e}.

Lemma tr_ret {A} s (a : A) (Q : A -> core_state -> Prop) :
  (forall c, at_state r m s c -> Q a c) -> triple r m s (mret a) Q.
Proof. intros H c Hc; by apply ok_ret, H. Qed.
Lemma tr_bind {A B} s s' (p : M A) (f : A -> M B) Q :
  triple r m s p (fun _ => at_state r m s') -> (forall a, triple r m s' (f a) Q) ->
  triple r m s (p ≫= f) Q.
Proof.
  intros Hp Hf c Hc; apply ok_bind; eapply ok_mono; [by apply Hp|].
  intros a c' Hc'; by apply Hf.
Qed.
Lemma tr_get {B} s (f : pjsip_transaction -> M B) Q :
  (forall t, role t = r -> method t = m -> state t = s -> triple r m s (f t) Q) ->
  triple r m s (get_tsx ≫= f) Q.
Proof.
  intros H c Hc; apply ok_get; intros t (Hr & Hm & Hs & _).
  destruct Hc; apply H; [congruence..|by split].
Qed.
Lemma tr_neutral {A} s (p : M A) : neutral p -> stays r m s p.
Proof. intros H c Hc; by apply ok_neutral. Qed.
Lemma tr_goto s s' ev src :
  state_num s <= state_num s' -> triple r m s (tsx_set_state s' ev src) (fun _ => at_state r m s').
Proof. intros H c Hc; by apply (ok_goto r m s). Qed.
Lemma tr_when {s} b (p : M ()) Q :
  triple r m s p Q -> (forall c, at_state r m s c -> Q () c) -> triple r m s (when b p) Q.
Proof. intros H1 H2 c Hc; apply ok_when; intros _; [by apply H1|by apply H2]. Qed.
Lemma tr_mono {A s} (p : M A) (Q Q' : A -> core_state -> Prop) :
  triple r m s p Q -> (forall a c, Q a c -> Q' a c) -> triple r m s p Q'.
Proof. intros H HQ c Hc; eapply ok_mono; [by apply H|done]. Qed.

Lemma wf_flags_resched s f f' :
  has_flag f' TSX_HAS_PENDING_SEND = has_flag f TSX_HAS_PENDING_SEND ->
  has_flag f' TSX_HAS_PENDING_DESTROY = has_flag f TSX_HAS_PENDING_DESTROY ->
  has_flag f' TSX_HAS_PENDING_TRANSPORT = has_flag f TSX_HAS_PENDING_TRANSPORT ->
  wf_flags s f -> wf_flags s f'.
Proof. unfold wf_flags; by intros -> -> ->. Qed.

Lemma tr_clr_resched s : stays r m s (clr_flag TSX_HAS_PENDING_RESCHED).
Proof.
  intros c Hc; apply ok_clr_flag, at_with_flag; [done|].
  apply wf_flags_resched with (c_flag c); flag_simpl; try done; apply Hc.
Qed.
Lemma tr_set_resched s : stays r m s (set_flag TSX_HAS_PENDING_RESCHED).
Proof.
  intros c Hc; apply ok_set_flag, at_with_flag; [done|].
  apply wf_flags_resched with (c_flag c); flag_simpl; try done; apply Hc.
Qed.
Lemma tr_start_retransmit s d : stays r m s (start_retransmit d).
Proof.
  apply tr_get; intros t _ _ _; destruct (has_flag _ _); [apply tr_set_resched|].
  apply tr_neutral; solve_keeps.
Qed.

Lemma stay_stepped s c : at_state r m s c -> stepped r m s c.
Proof. exists s; auto. Qed.
Lemma move_stepped s s' c : at_state r m s' c -> rfc3261_step r m s s' -> stepped r m s c.
Proof. exists s'; auto. Qed.

Lemma tr_last {A B s} (p : M A) (f : A -> M B) (P : core_state -> Prop) :
  triple r m s p (fun _ => P) -> (forall a c, P c -> ok c (f a) (fun _ => P)) ->
  triple r m s (p ≫= f) (fun _ => P).
Proof. intros Hp Hf c Hc; apply ok_bind; eapply ok_mono; [by apply Hp|auto]. Qed.

Lemma tr_outcome {A} s (p : M pj_status_t) (f : pj_status_t -> M A) Q :
  triple r m s p (send_outcome r m s) ->
  (forall a, triple r m s (f a) Q) ->
  (forall a, a <> PJ_SUCCESS -> triple r m STATE_TERMINATED (f a) Q) ->
  triple r m s (p ≫= f) Q.
Proof.
  intros Hp H1 H2 c Hc; apply ok_bind; eapply ok_mono; [by apply Hp|].
  intros a c' [?|[? ?]]; [by apply H1|by apply H2].
Qed.

Lemma tr_send {A} cfg env s o (f : pj_status_t -> M A) Q :
  state_num s < state_num STATE_TERMINATED -> cbs_ok env ->
  (forall a, triple r m s (f a) Q) ->
  (forall a, a <> PJ_SUCCESS -> triple r m STATE_TERMINATED (f a) Q) ->
  triple r m s (tsx_send_msg cfg env o ≫= f) Q.
Proof.
  intros Hlt Hcbs H1 H2; apply tr_outcome; [intros c Hc; by apply tsx_send_msg_ok|done..].
Qed.
End Triples.
#[export] Hint Resolve tr_clr_resched tr_set_resched tr_start_retransmit : tsx.
#[export] Hint Resolve stay_stepped : tsx.

(** Programs that stay in the state. *)
Ltac solve_stays :=
  intros;
  first
    [ solve [auto 2 with tsx nocore]
    | solve [apply tr_neutral; solve_keeps]
    | lazymatch goal with
      | |- triple _ _ _ (mbind _ get_tsx) _ => apply tr_get; solve_stays
      | |- triple _ _ ?s (mbind _ _) _ => apply (tr_bind s s); solve_stays
      | |- triple _ _ _ (when _ _) _ => apply tr_when; [solve_stays|done]
      | |- triple _ _ _ (mret _) _ => by apply tr_ret
      | |- triple _ _ _ (if ?b then _ else _) _ => destruct b; solve_stays
      | |- triple _ _ _ (match ?x with _ => _ end) _ => destruct x; solve_stays
      end ].

(** One rule per construct; what stays in the state is stepped over. *)
Ltac tr_step :=
  match goal with
  | |- triple _ _ _ (mret _) _ => apply tr_ret; intros
  | |- triple _ _ _ (mbind _ get_tsx) _ => apply tr_get; intros
  | |- triple _ _ _ (mbind _ (tsx_set_state _ _ _)) _ =>
      eapply tr_bind; [apply tr_goto; cbn; lia|intros]
  | |- triple _ _ _ (mbind _ (tsx_send_msg _ _ _)) _ =>
      apply tr_send; [cbn; lia|assumption|intros|intros]
  | |- triple _ _ ?s (mbind _ _) _ => apply (tr_bind s s); [solve [solve_stays]|intros]
  | |- triple _ _ _ (let _ := _ in _) _ => cbv zeta
  | |- triple _ _ _ (if _ then _ else _) _ => case_if
  | |- triple _ _ _ (match ?x with _ => _ end) _ => destruct x
  end.

(** The end of a handler: the state reached is a move of the automaton. *)
Ltac tr_done :=
  cbv beta in *;
  match goal with
  | H : at_state _ _ ?s ?c |- stepped _ _ ?s ?c => apply (stay_stepped _ _ H)
  | H : at_state _ _ ?s' ?c |- stepped _ _ ?s ?c =>
      apply (move_stepped s s' c H); clear H;
      solve [apply rfc_terminate; first [assumption|cbn; lia] | constructor; subst; auto]
  | H : ?a <> PJ_SUCCESS, E : negb (?a =? PJ_SUCCESS) = false |- _ =>
      exfalso; bool_hyps; contradiction
  end.

(** ** The handlers *)

Section Handlers.
Context (cfg : tsx_cfg) (r : role_e) (m : method_e) (env : send_env) (ack : pj_status_t * tx_data).
Hypothesis Henv : cbs_ok env.

Lemma send_stepped s o :
  state_num s < state_num STATE_TERMINATED ->
  triple r m s (tsx_send_msg cfg env o) (fun _ => stepped r m s).
Proof.
  intros Hlt c Hc; eapply ok_mono; [by apply (tsx_send_msg_ok cfg r m s)|].
  intros a c' [?|[? _]]; [by apply stay_stepped|].
  eapply move_stepped; [done|by constructor].
Qed.

Lemma retransmit_stepped s b :
  state_num s < state_num STATE_TERMINATED ->
  triple r m s (tsx_retransmit cfg env b) (fun _ => stepped r m s).
Proof.
  intros Hlt; unfold tsx_retransmit; repeat tr_step; try tr_done; by apply send_stepped.
Qed.

Lemma null_stepped ev :
  triple r m STATE_NULL (tsx_on_state_null cfg env ev) (fun _ => stepped r m STATE_NULL).
Proof.
  unfold tsx_on_state_null; repeat (tr_done || tr_step).
Qed.

Lemma uac_2xx_stepped s ev :
  r = ROLE_UAC -> s = STATE_CALLING \/ s = STATE_PROCEEDING ->
  triple r m s (uac_2xx cfg ev) (fun _ => stepped r m s).
Proof.
  intros Hr Hs; assert (state_num s < 4) by (destruct Hs; subst; cbn; lia).
  unfold uac_2xx; repeat (tr_done || tr_step).
Qed.

Lemma send_ack_outcome s :
  state_num s < state_num STATE_TERMINATED ->
  triple r m s (send_ack cfg env ack) (send_outcome r m s).
Proof.
  intros Hs; unfold send_ack; repeat tr_step; try (by left).
  intros c Hc; by apply tsx_send_msg_ok.
Qed.

Lemma uac_final_stepped s ev :
  r = ROLE_UAC -> s = STATE_CALLING \/ s = STATE_PROCEEDING ->
  triple r m s (uac_final cfg env ack ev) (fun _ => stepped r m s).
Proof.
  intros Hr Hs; assert (state_num s < 4) by (destruct Hs; subst; cbn; lia).
  unfold uac_final, uac_completed; do 2 tr_step.
  apply tr_outcome; [apply send_ack_outcome; cbn; lia|..]; intros; repeat (tr_done || tr_step).
Qed.

Lemma proceeding_uac_stepped s ev :
  r = ROLE_UAC -> s = STATE_CALLING \/ s = STATE_PROCEEDING ->
  triple r m s (tsx_on_state_proceeding_uac cfg env ack ev) (fun _ => stepped r m s).
Proof.
  intros Hr Hs; assert (state_num s < 4) by (destruct Hs; subst; cbn; lia).
  unfold tsx_on_state_proceeding_uac.
  repeat (tr_done || tr_step || (by apply uac_2xx_stepped) || (by apply uac_final_stepped)
          || (apply retransmit_stepped; cbn; lia)).
Qed.

Lemma calling_stepped ev :
  r = ROLE_UAC ->
  triple r m STATE_CALLING (tsx_on_state_calling cfg env ack ev) (fun _ => stepped r m STATE_CALLING).
Proof.
  intros Hr; unfold tsx_on_state_calling, calling_rx_timers.
  repeat (tr_done || tr_step || (apply retransmit_stepped; cbn; lia)).
  apply tr_last; [apply proceeding_uac_stepped; auto|intros; by apply ok_ret].
Qed.

Lemma uas_1xx_moves s td :
  state_num s <= 3 ->
  triple r m s (uas_1xx td) (fun _ => at_state r m STATE_PROCEEDING).
Proof. intros Hs; unfold uas_1xx; repeat tr_step; solve_stays. Qed.

Lemma uas_2xx_moves s td :
  state_num s <= 3 ->
  triple r m s (uas_2xx cfg td) (fun _ c =>
    at_state r m STATE_COMPLETED c \/ at_state r m STATE_TERMINATED c).
Proof.
  intros Hs; unfold uas_2xx; repeat tr_step;
    (eapply tr_mono; [apply tr_goto; cbn in *; lia|auto]).
Qed.

Lemma uas_final_moves s td :
  state_num s <= 3 ->
  triple r m s (uas_final cfg td) (fun _ => at_state r m STATE_COMPLETED).
Proof. intros Hs; unfold uas_final; repeat tr_step; apply tr_goto; cbn in *; lia. Qed.

(** A response of the TU: the outcome also says when the state is unchanged. *)
Lemma uas_tx_stepped s td :
  r = ROLE_UAS -> s = STATE_TRYING \/ s = STATE_PROCEEDING ->
  triple r m s (uas_tx cfg env td) (fun _ => stepped r m s).
Proof.
  intros Hr Hs; assert (state_num s < 4) by (destruct Hs; subst; cbn; lia).
  unfold uas_tx; repeat (tr_done || tr_step).
  apply tr_last; [|intros; by apply ok_ret]; repeat case_if.
  - eapply tr_mono; [by apply uas_1xx_moves; lia|intros; tr_done].
  - eapply tr_mono; [by apply uas_2xx_moves; lia|intros ? ? [?|?]; tr_done].
  - eapply tr_mono; [by apply uas_final_moves; lia|intros; tr_done].
  - apply tr_mono with (fun _ => at_state r m s); [solve_stays|intros; tr_done].
Qed.

Lemma tr_set_send s t :
  state_num s < state_num STATE_TERMINATED ->
  has_flag (transport_flag t) TSX_HAS_PENDING_TRANSPORT = true ->
  forall c, at_state r m s c -> agrees t c ->
  ok c (set_flag TSX_HAS_PENDING_SEND;; mret PJ_SUCCESS) (fun _ => at_state r m s).
Proof.
  intros Hlt Hf c Hc (_ & _ & _ & _ & Ef & _); repeat ok_step; apply at_with_flag; [done|].
  apply wf_flags_set_send; [done|congruence|apply Hc].
Qed.

Lemma proceeding_uas_stepped s ev :
  r = ROLE_UAS -> s = STATE_TRYING \/ s = STATE_PROCEEDING ->
  triple r m s (tsx_on_state_proceeding_uas cfg env ev) (fun _ => stepped r m s).
Proof.
  intros Hr Hs; assert (state_num s < 4) by (destruct Hs; subst; cbn; lia).
  intros c Hc; unfold tsx_on_state_proceeding_uas; apply ok_get; intros t Ht.
  do 2 (apply ok_bind, ok_neutral; [auto with tsx|intros _]).
  destruct ev as [[]|td|rx].
  - assert (T : triple r m s (pj_assert 2795 (negb (has_flag (transport_flag t) TSX_HAS_PENDING_TRANSPORT));;
      pj_assert 2798 (bool_decide (is_Some (last_tx t)));; tsx_retransmit cfg env true)
      (fun _ => stepped r m s)); [|by apply T].
    repeat tr_step; apply retransmit_stepped; cbn; lia.
  - repeat ok_step; eapply ok_mono; [apply (ok_goto r m s); [done|cbn; lia]|].
    intros; apply ok_ret; tr_done.
  - by apply uas_tx_stepped.
  - destruct (last_tx t) as [td|]; [|repeat ok_step; tr_done].
    case_if; [|apply (send_stepped s); [cbn; lia|done]].
    eapply ok_mono; [apply tr_set_send with (s := s) (t := t); try done; cbn; lia|intros; tr_done].
Qed.

Lemma trying_stepped ev :
  r = ROLE_UAS ->
  triple r m STATE_TRYING (tsx_on_state_trying cfg env ev) (fun _ => stepped r m STATE_TRYING).
Proof.
  intros Hr; unfold tsx_on_state_trying; tr_step; do 2 tr_step; destruct ev; [tr_step; tr_done| |tr_step; tr_done].
  intros c Hc; apply ok_bind; eapply ok_mono; [apply (proceeding_uas_stepped STATE_TRYING); auto|].
  intros st c1 (s' & Hat & Hs'); apply ok_get; intros t' (_ & _ & Hst & _).
  rewrite Hst, (at_st _ _ _ _ Hat); apply ok_bind, ok_when; intros E; [|apply ok_ret; by exists s'].
  apply andb_prop in E as [_ E]; apply bool_decide_eq_true in E; subst s'.
  eapply ok_mono; [apply (ok_goto r m STATE_TRYING); [done|cbn; lia]|].
  intros; apply ok_ret; clear Hat; tr_done.
Qed.

Lemma completed_uas_stepped ev :
  r = ROLE_UAS ->
  triple r m STATE_COMPLETED (tsx_on_state_completed_uas cfg env ev)
    (fun _ => stepped r m STATE_COMPLETED).
Proof.
  intros Hr; unfold tsx_on_state_completed_uas.
  repeat (tr_done || tr_step || (apply retransmit_stepped; cbn; lia)).
  bool_hyps; apply bool_decide_eq_true in E1; assert (m = M_INVITE) by congruence; tr_done.
Qed.

Lemma completed_uac_stepped ev :
  triple r m STATE_COMPLETED (tsx_on_state_completed_uac cfg env ev)
    (fun _ => stepped r m STATE_COMPLETED).
Proof.
  unfold tsx_on_state_completed_uac.
  repeat (tr_done || tr_step || (apply retransmit_stepped; cbn; lia)).
Qed.

Lemma confirmed_stepped ev :
  triple r m STATE_CONFIRMED (tsx_on_state_confirmed ev) (fun _ => stepped r m STATE_CONFIRMED).
Proof. unfold tsx_on_state_confirmed; repeat (tr_done || tr_step). Qed.

Lemma terminated_stepped ev :
  triple r m STATE_TERMINATED (tsx_on_state_terminated ev) (fun _ => stepped r m STATE_TERMINATED).
Proof. unfold tsx_on_state_terminated; repeat (tr_done || tr_step). Qed.

(** The dispatch never meets a null handler. *)
Lemma dispatch_stepped s ev :
  possible_state r m s = true ->
  triple r m s (call_state_handler cfg env ack ev) (fun _ => stepped r m s).
Proof.
  intros Hp c Hc; unfold call_state_handler; apply ok_get; intros t (_ & _ & _ & Hh & _).
  rewrite Hh, (at_handler _ _ _ _ Hc); destruct r eqn:Hr, s; try discriminate Hp; cbn;
    rewrite <- Hr in *; revert c Hc Hh; intros c Hc _; revert c Hc.
  all: try (by apply null_stepped). all: try (by apply calling_stepped).
  all: try (by apply trying_stepped). all: try (apply proceeding_uac_stepped; by auto).
  all: try (apply proceeding_uas_stepped; by auto). all: try (by apply completed_uac_stepped).
  all: try (by apply completed_uas_stepped). all: try (by apply confirmed_stepped).
  all: try (by apply terminated_stepped).
  all: intros c Hc; apply ok_ret; tr_done.
Qed.

End Handlers.
