(* ===== verification/TsxSafety.v ===== *)
(** * SIP transactions: entry points, reachable worlds and the refinement

    The entry points of a transaction as one type of operations, the worlds
    reachable through them, and the theorems about all of them: the state
    follows the RFC 3261 automaton, the function pointer is never null, and
    transport references are balanced. *)

From Stdlib Require Import ZArith Lia Bool.
From stdpp Require Import base list numbers option gmap relations.
From S2P Require Import Prelude TimeVal TsxModel TsxCore TsxAutomaton.
Local Open Scope Z_scope.

(** ** Operations *)

Inductive tsx_op :=
| OpSend (env : send_env) (ack : pj_status_t * tx_data) (td : option tx_data)
| OpRecv (env : send_env) (ack : pj_status_t * tx_data) (rx : rx_data)
| OpTimer (env : send_env) (ack : pj_status_t * tx_data) (w : timer_which)
| OpSendCallback (nested : send_env) (td : tx_data) (sent : Z) (cont : bool)
    (tp : option transport) (len : Z)
| OpTransportCallback (sent : Z)
| OpTpState (disconnected : bool) (st : pj_status_t)
| OpTerminate (code : Z)
| OpStopRetransmit
| OpSetTimeout (ms : Z)
| OpSetTransport
| OpRetransmitNoState (env : send_env) (td : option tx_data).

Definition run_op (cfg : tsx_cfg) (op : tsx_op) : M () :=
  match op with
  | OpSend env ack td => pjsip_tsx_send_msg cfg env ack td;; skip
  | OpRecv env ack rx => pjsip_tsx_recv_msg cfg env ack rx
  | OpTimer env ack w => timer_expires cfg env ack w
  | OpSendCallback nested td sent cont tp len =>
      send_msg_callback cfg (tsx_send_msg cfg nested) td sent cont tp len;; skip
  | OpTransportCallback sent => transport_callback sent
  | OpTpState d st => tsx_tp_state_callback d st
  | OpTerminate code => pjsip_tsx_terminate code;; skip
  | OpStopRetransmit => pjsip_tsx_stop_retransmit;; skip
  | OpSetTimeout ms => pjsip_tsx_set_timeout ms;; skip
  | OpSetTransport => pjsip_tsx_set_transport;; skip
  | OpRetransmitNoState env td => pjsip_tsx_retransmit_no_state cfg env td;; skip
  end.

(** What the surroundings are relied on for: completion callbacks report a
    non-zero count; the transport completes a pending send before another
    send has been deferred (the handlers do not survive the opposite order, see
    [late_completion_moves_backwards]); the user retransmits live transactions
    only. *)
Definition op_ok (op : tsx_op) (w : world) : Prop :=
  match op with
  | OpSend env _ _ | OpRecv env _ _ | OpTimer env _ _ => cbs_ok env
  | OpSendCallback _ _ sent _ _ _ => sent <> 0
  | OpTransportCallback _ =>
      has_flag (transport_flag (w_tsx w)) TSX_HAS_PENDING_SEND = true ->
      state (w_tsx w) = STATE_TERMINATED
  | OpRetransmitNoState env _ =>
      cbs_ok env /\ state_num (state (w_tsx w)) < state_num STATE_TERMINATED
  | _ => True
  end.

(** The same in two parts.  First what the surroundings promise: a completion
    callback reports a byte count or an error (the code asserts it), and the
    user retransmits only live transactions. *)
Definition surroundings_ok (op : tsx_op) (w : world) : Prop :=
  match op with
  | OpSend env _ _ | OpRecv env _ _ | OpTimer env _ _ => cbs_ok env
  | OpSendCallback _ _ sent _ _ _ => sent <> 0
  | OpRetransmitNoState env _ =>
      cbs_ok env /\ state_num (state (w_tsx w)) < state_num STATE_TERMINATED
  | _ => True
  end.

(** Second the one order of events the code does not survive: a transport
    completes a send of a live transaction while another send is deferred. *)
Definition late_completion (op : tsx_op) (w : world) : Prop :=
  match op with
  | OpTransportCallback _ =>
      has_flag (transport_flag (w_tsx w)) TSX_HAS_PENDING_SEND = true /\
      state (w_tsx w) <> STATE_TERMINATED
  | _ => False
  end.

#[global] Instance late_completion_dec op w : Decision (late_completion op w).
Proof. destruct op; apply _. Defined.

Lemma op_ok_parts op w : surroundings_ok op w -> ~ late_completion op w -> op_ok op w.
Proof.
  destruct op; cbn; try tauto. intros _ Hl Hf. destruct (decide (state (w_tsx w) = STATE_TERMINATED)); [done|].
  by destruct Hl.
Qed.

(** A well-formed transaction: its handler is the one of its state, no
    critical assertion has failed, the flags are consistent. *)
Definition tsx_wf (w : world) : Prop :=
  let t := w_tsx w in
  at_state (role t) (method t) (state t) (core w) /\
  possible_state (role t) (method t) (state t) = true.

Inductive reachable (cfg : tsx_cfg) (w0 : world) : world -> Prop :=
| reachable_refl : reachable cfg w0 w0
| reachable_step w op :
    reachable cfg w0 w -> op_ok op w -> reachable cfg w0 (run_op cfg op w).2.

(** ** Each operation makes at most one move *)

Section Operations.
Context (cfg : tsx_cfg) (r : role_e) (m : method_e).

Lemma no_notify_stepped s ev src :
  state_num s <= 6 ->
  triple r m s (tsx_set_state_no_notify STATE_TERMINATED ev src)
    (fun _ => at_state r m STATE_TERMINATED).
Proof. intros Hs; unfold tsx_set_state_no_notify; repeat tr_step; solve_stays. Qed.

Lemma timer_callback_stepped env ack w s :
  cbs_ok env -> possible_state r m s = true ->
  triple r m s (tsx_timer_callback cfg env ack w) (fun _ => stepped r m s).
Proof.
  intros Henv Hp; unfold tsx_timer_callback; tr_step; tr_step; case_if.
  - destruct (state_num (state t) <? state_num STATE_TERMINATED) eqn:Hs; [|apply tr_ret; intros; tr_done].
    rewrite H1 in Hs; bool_hyps.
    assert (state_num s < 6) by done.
    cbn [when]; do 3 tr_step; eapply tr_bind; [apply no_notify_stepped; cbn; lia|intros].
    apply tr_mono with (fun _ => at_state r m STATE_TERMINATED); [solve_stays|intros; tr_done].
  - apply tr_last; [by apply dispatch_stepped|intros; by apply ok_ret].
Qed.

Lemma timer_expires_stepped env ack w s :
  cbs_ok env -> possible_state r m s = true ->
  triple r m s (timer_expires cfg env ack w) (fun _ => stepped r m s).
Proof.
  intros Henv Hp; unfold timer_expires; tr_step; tr_step.
  apply tr_last; [by apply timer_callback_stepped|intros].
  apply ok_neutral; [solve_keeps|done].
Qed.

Lemma send_msg_stepped env ack otd s :
  cbs_ok env -> possible_state r m s = true ->
  triple r m s (pjsip_tsx_send_msg cfg env ack otd) (fun _ => stepped r m s).
Proof.
  intros Henv Hp; unfold pjsip_tsx_send_msg; tr_step; tr_step; [|repeat (tr_done || tr_step)].
  apply tr_last; [by apply dispatch_stepped|intros].
  apply ok_bind, ok_neutral; [solve_keeps|intros; by apply ok_ret].
Qed.

Lemma send_callback_stepped nested td sent cont tp len s :
  sent <> 0 ->
  triple r m s (send_msg_callback cfg (tsx_send_msg cfg nested) td sent cont tp len)
    (fun _ => stepped r m s).
Proof.
  intros Hsent c Hc; eapply ok_mono.
  - apply (send_msg_callback_ok cfg r m s (c_flag c)); try done.
    intros; by apply nested_send_ok.
  - intros k c' [[?|[? ?]] _]; tr_done.
Qed.

Lemma transport_callback_stays sent s c :
  at_state r m s c ->
  (has_flag (c_flag c) TSX_HAS_PENDING_SEND = true -> s = STATE_TERMINATED) ->
  ok c (transport_callback sent) (fun _ => at_state r m s).
Proof.
  intros Hc Hs; unfold transport_callback; apply ok_bind, ok_clr_flag.
  match goal with |- ok ?c1 _ _ => assert (H1 : at_state r m s c1) end.
  { apply at_with_flag; [done|]; destruct (at_flags _ _ _ _ Hc).
    split; flag_simpl; auto. }
  apply ok_bind, ok_when; intros _; [|by repeat ok_step].
  apply ok_bind, ok_mod_err; repeat ok_step; auto with tsx.
Qed.

Lemma terminate_stepped code s :
  triple r m s (pjsip_tsx_terminate code) (fun _ => stepped r m s).
Proof.
  unfold pjsip_tsx_terminate; repeat (tr_done || tr_step).
  apply tr_last; [|intros; by apply ok_ret]; rewrite H1.
  destruct (state_num s <? state_num STATE_TERMINATED) eqn:Hs; bool_hyps;
    [|apply tr_ret; intros; tr_done].
  assert (state_num s < 6) by done; cbn [when]; tr_step.
  eapply tr_mono; [apply tr_goto; cbn; lia|intros; tr_done].
Qed.

Lemma retransmit_no_state_stepped env otd s :
  cbs_ok env -> state_num s < state_num STATE_TERMINATED ->
  triple r m s (pjsip_tsx_retransmit_no_state cfg env otd) (fun _ => stepped r m s).
Proof.
  intros Henv Hs; unfold pjsip_tsx_retransmit_no_state; tr_step; tr_step.
  apply tr_last; [by apply send_stepped|intros].
  apply ok_bind, ok_neutral; [solve_keeps|intros; by apply ok_ret].
Qed.

Lemma neutral_stepped {A} (p : M A) s :
  neutral p -> triple r m s p (fun _ => stepped r m s).
Proof. intros Hp c Hc; apply ok_neutral; [done|intros; tr_done]. Qed.

Lemma run_op_stepped op s w :
  op_ok op w -> state (w_tsx w) = s -> at_state r m s (core w) -> possible_state r m s = true ->
  stepped r m s (core (run_op cfg op w).2).
Proof.
  intros Hop Hs Hat Hp.
  assert (T : forall {A} (p : M A), triple r m s p (fun _ => stepped r m s) ->
            triple r m s (p;; skip) (fun _ => stepped r m s)).
  { intros A p H; apply tr_last; [done|intros; by apply ok_ret]. }
  enough (O : ok (core w) (run_op cfg op) (fun _ => stepped r m s)) by by apply O.
  destruct op; cbn in Hop |- *; rewrite ?Hs in *;
    try (revert Hat; match goal with |- at_state _ _ _ ?c -> _ => generalize c end; apply T).
  - by apply send_msg_stepped.
  - by apply dispatch_stepped.
  - by apply timer_expires_stepped.
  - by apply send_callback_stepped.
  - eapply ok_mono; [by apply transport_callback_stays|intros; tr_done].
  - apply ok_tp_state; intros; apply stay_stepped; auto with tsx.
  - apply terminate_stepped.
  - apply neutral_stepped; unfold pjsip_tsx_stop_retransmit; solve_keeps.
  - apply neutral_stepped; unfold pjsip_tsx_set_timeout; solve_keeps.
  - apply neutral_stepped; unfold pjsip_tsx_set_transport; solve_keeps.
  - destruct Hop; by apply retransmit_no_state_stepped.
Qed.
End Operations.

(** ** The refinement *)

Lemma run_op_step cfg op w :
  tsx_wf w -> op_ok op w ->
  let w' := (run_op cfg op w).2 in
  tsx_wf w' /\ role (w_tsx w') = role (w_tsx w) /\ method (w_tsx w') = method (w_tsx w) /\
  (state (w_tsx w') = state (w_tsx w) \/
   rfc3261_step (role (w_tsx w)) (method (w_tsx w)) (state (w_tsx w)) (state (w_tsx w'))).
Proof.
  intros [Hat Hp] Hop w'.
  destruct (run_op_stepped cfg _ _ op _ w Hop eq_refl Hat Hp) as (s' & H & Hs).
  fold w' in H.
  assert (Er := at_role _ _ _ _ H); assert (Em := at_method _ _ _ _ H);
    assert (Es := at_st _ _ _ _ H); cbn in Er, Em, Es.
  unfold tsx_wf; rewrite Er, Em, Es; split; [|auto].
  split; [done|]; destruct Hs as [->|Hs]; [done|by apply (rfc_possible _ _ _ _ Hs)].
Qed.

Lemma reachable_inv cfg w0 w :
  tsx_wf w0 -> reachable cfg w0 w ->
  tsx_wf w /\ role (w_tsx w) = role (w_tsx w0) /\ method (w_tsx w) = method (w_tsx w0) /\
  rtc (rfc3261_step (role (w_tsx w0)) (method (w_tsx w0))) (state (w_tsx w0)) (state (w_tsx w)).
Proof.
  intros H0; induction 1 as [|w op _ IH Hop]; [by auto using rtc_refl|].
  destruct IH as (Hw & Hr & Hm & Hs).
  destruct (run_op_step cfg op w Hw Hop) as (Hw' & Hr' & Hm' & Hs').
  split; [done|]; rewrite Hr', Hm', Hr, Hm; repeat split.
  destruct Hs' as [->|Hs']; [done|]; rewrite Hr, Hm in Hs'; by eapply rtc_r.
Qed.

(** A transaction as its creation leaves it, before the first message. *)
Definition fresh_world (t : pjsip_transaction) : world := mk_world t ∅ 0 [].

Definition null_tsx (r : role_e) (m : method_e) (user : option tsx_module) : pjsip_transaction :=
  (tsx_create user) <| role := r |> <| method := m |> <| state_handler := Some H_null |>.

Lemma fresh_wf r m user : tsx_wf (fresh_world (null_tsx r m user)).
Proof. split; [|by destruct r]; split; try done; by destruct r. Qed.

(** The completion of a send touches neither the state nor the handler. *)
Lemma transport_callback_frame sent w :
  let c := core w in let c' := core (transport_callback sent w).2 in
  c_role c' = c_role c /\ c_method c' = c_method c /\ c_state c' = c_state c /\
  c_handler c' = c_handler c /\ c_crit c' = c_crit c.
Proof.
  intros c c'.
  enough (O : ok c (transport_callback sent) (fun _ c' =>
    c_role c' = c_role c /\ c_method c' = c_method c /\ c_state c' = c_state c /\
    c_handler c' = c_handler c /\ c_crit c' = c_crit c)) by by apply O.
  unfold transport_callback; apply ok_bind, ok_clr_flag.
  apply ok_bind, ok_when; intros _; [|by repeat ok_step].
  apply ok_bind, ok_mod_err; repeat ok_step; done.
Qed.

(** C1.  Every entry point of a well-formed transaction (sending, receiving,
    timers, send and transport callbacks, the user's operations), whatever the
    transport layer answers and calls back during it, keeps role and method,
    keeps the handler in step with the state, fails no critical assertion, and
    either leaves the state alone or makes one move of the RFC 3261 automaton
    for the role and method.  Assumed is that completion callbacks report a
    non-zero count and that the user retransmits live transactions only.  The
    transaction is well formed again, so that the same holds of the next entry
    point, but for one order of events: after the completion of a send while
    another send is deferred it is not (the state is kept by the completion
    itself; [late_completion_moves_backwards] shows a later send going wrong). *)
Theorem tsx_refines_rfc3261 cfg op w :
  tsx_wf w -> surroundings_ok op w ->
  let t := w_tsx w in let w' := (run_op cfg op w).2 in let t' := w_tsx w' in
  role t' = role t /\ method t' = method t /\
  state_handler t' = handler_for (role t) (state t') /\ is_Some (state_handler t') /\
  existsb critical (w_trace w') = false /\
  (state t' = state t \/ rfc3261_step (role t) (method t) (state t) (state t')) /\
  (late_completion op w -> state t' = state t) /\
  (~ late_completion op w -> tsx_wf w').
Proof.
  intros Hwf Hs t w' t'. destruct (decide (late_completion op w)) as [L|L].
  - destruct op; try done. destruct Hwf as [Hat Hp].
    destruct (transport_callback_frame sent w) as (H1 & H2 & H3 & H4 & H5).
    pose proof (at_handler _ _ _ _ Hat) as Hh. pose proof (at_crit _ _ _ _ Hat) as Hc. cbn in *.
    unfold t', w', t. cbn [run_op]. rewrite H1, H2, H3, H4, H5, Hh. split_and!; auto; [|done].
    by eapply possible_handler.
  - destruct (run_op_step cfg op w Hwf (op_ok_parts op w Hs L)) as ([Hat Hp] & Hr & Hm & Hst).
    fold w' t' in Hat, Hp, Hr, Hm, Hst.
    pose proof (at_handler _ _ _ _ Hat : state_handler t' = _) as Hh.
    pose proof (at_crit _ _ _ _ Hat : existsb critical (w_trace w') = false) as Hc.
    rewrite Hr in Hh. rewrite Hh. split_and!; auto; [|done|by split].
    rewrite Hr, Hm in Hp. by eapply possible_handler.
Qed.

(** The ACK the examples answer a final response with. *)
Definition ack_msg : tx_data := mk_tx 9 true 0 [] M_ACK.
Definition quiet_env : send_env := SendEnv false PJ_SUCCESS PJ_SUCCESS [].

Lemma tsx_refines_rfc3261_witness :
  let w := fresh_world (null_tsx ROLE_UAC M_INVITE None) in
  let op := OpSend quiet_env (PJ_SUCCESS, ack_msg) (Some (mk_tx 1 true 0 [] M_INVITE)) in
  (tsx_wf w /\ surroundings_ok op w /\ state (w_tsx (run_op default_cfg op w).2) = STATE_CALLING) /\
  tsx_wf (run_op default_cfg op w).2.
Proof.
  intros w op; split.
  - split; [apply fresh_wf|split; [constructor|vm_compute; reflexivity]].
  - apply (tsx_refines_rfc3261 default_cfg op w); [apply fresh_wf|constructor|by intros []].
Defined.

(** ** Runs *)

Fixpoint run_ops (cfg : tsx_cfg) (ops : list tsx_op) (w : world) : world :=
  match ops with [] => w | op :: ops => run_ops cfg ops (run_op cfg op w).2 end.

(** The assumptions of [op_ok] along a run. *)
Fixpoint ops_ok (cfg : tsx_cfg) (ops : list tsx_op) (w : world) : Prop :=
  match ops with
  | [] => True
  | op :: ops => op_ok op w /\ ops_ok cfg ops (run_op cfg op w).2
  end.

(** The same in its two parts. *)
Fixpoint orderly (cfg : tsx_cfg) (ops : list tsx_op) (w : world) : Prop :=
  match ops with
  | [] => True
  | op :: ops => surroundings_ok op w /\ ~ late_completion op w /\ orderly cfg ops (run_op cfg op w).2
  end.

Lemma orderly_ok cfg ops : forall w, orderly cfg ops w -> ops_ok cfg ops w.
Proof.
  induction ops as [|op ops IH]; intros w; [done|]; intros (Hs & Hl & Ho).
  split; [by apply op_ok_parts|by apply IH].
Qed.

Lemma reachable_run cfg w0 ops w :
  reachable cfg w0 w -> ops_ok cfg ops w -> reachable cfg w0 (run_ops cfg ops w).
Proof.
  revert w; induction ops as [|op ops IH]; intros w Hw; [done|]; intros [Hop Hops].
  apply IH; [by constructor|done].
Qed.

(** C34.  From a well-formed transaction, any sequence of operations in which
    completion callbacks report non-zero counts, the user retransmits live
    transactions only and no transport completes a send while another one is
    deferred, leads to a transaction of the same role and method whose state is
    reached by a path of the RFC 3261 automaton; its handler is the one of that
    state and not null, and neither a call through a null handler nor a backward
    change of state has happened on the way.  The last condition is needed
    ([late_completion_moves_backwards]). *)
Theorem tsx_reachable_safe cfg w0 ops :
  tsx_wf w0 -> orderly cfg ops w0 ->
  let t0 := w_tsx w0 in let w := run_ops cfg ops w0 in
  role (w_tsx w) = role t0 /\ method (w_tsx w) = method t0 /\
  rtc (rfc3261_step (role t0) (method t0)) (state t0) (state (w_tsx w)) /\
  state_handler (w_tsx w) = handler_for (role t0) (state (w_tsx w)) /\
  is_Some (state_handler (w_tsx w)) /\
  existsb critical (w_trace w) = false.
Proof.
  intros H0 H t0 w.
  assert (Hr0 : reachable cfg w0 w) by (apply reachable_run; [constructor|by apply orderly_ok]).
  destruct (reachable_inv cfg w0 w H0 Hr0) as ([Hat Hp] & Hr & Hm & Hs).
  split; [done|]; split; [done|].
  unfold t0; rewrite <- Hr, <- Hm in *; repeat split; [done|apply Hat| |apply Hat].
  rewrite (at_handler _ _ _ _ Hat : state_handler (w_tsx w) = _).
  by eapply possible_handler.
Qed.

(** An INVITE client transaction: sent, ringing, rejected, destroyed. *)
Definition invite_msg : tx_data := mk_tx 1 true 0 [] M_INVITE.
Definition response (code : Z) : rx_data := mk_rx code false M_OTHER code [].
Definition invite_run : list tsx_op :=
  let ack := (PJ_SUCCESS, ack_msg) in
  let udp := SendEnv false PJ_SUCCESS PJ_EPENDING
               [SendCb 100 false (Some (mk_tp 7 false false)) 16 quiet_env] in
  [OpSend udp ack (Some invite_msg); OpRecv quiet_env ack (response 180);
   OpRecv quiet_env ack (response 486); OpTimer quiet_env ack TimeoutTimer;
   OpTimer quiet_env ack TimeoutTimer].

Lemma tsx_reachable_safe_witness :
  let w0 := fresh_world (null_tsx ROLE_UAC M_INVITE None) in
  let w := run_ops default_cfg invite_run w0 in
  (tsx_wf w0 /\ orderly default_cfg invite_run w0 /\ state (w_tsx w) = STATE_DESTROYED) /\
  existsb critical (w_trace w) = false.
Proof.
  assert (Ho : orderly default_cfg invite_run (fresh_world (null_tsx ROLE_UAC M_INVITE None))).
  { repeat split; try (by intros []); repeat constructor; discriminate. }
  split; [split; [apply fresh_wf|split; [exact Ho|vm_compute; reflexivity]]|].
  apply (tsx_reachable_safe default_cfg _ _ (fresh_wf ROLE_UAC M_INVITE None) Ho).
Defined.
