(* ===== verification/TsxFrame.v ===== *)
(** * SIP transactions: what no operation changes

    An observation of the world that survives the primitive effects (actions
    other than transport references, updates that leave the identity of the
    transaction and its transport alone, a change of transport) survives every
    entry point.  [Observer] states the primitive part; the section derives
    the rest once for all observations. *)

From Stdlib Require Import ZArith Lia Bool.
From stdpp Require Import base list numbers option gmap.
From S2P Require Import Prelude TimeVal TsxModel TsxCore TsxAutomaton TsxSafety.
Local Open Scope Z_scope.

(** What identifies a transaction: set at creation, never again. *)
Definition identity (t : pjsip_transaction) : role_e * method_e * Z * list Z * list Z * bool :=
  (role t, method t, cseq t, transaction_key t, branch t, handle_200resp t).

(** An update that leaves identity and transport alone. *)
Definition stable (f : pjsip_transaction -> pjsip_transaction) : Prop :=
  forall t, identity (f t) = identity t /\ tsx_transport (f t) = tsx_transport t.

Definition is_tp_ref (a : action) : bool :=
  match a with ATpAddRef _ | ATpDecRef _ => true | _ => false end.

Class Observer {X : Type} (obs : world -> X) : Prop := {
  ob_emit a : is_tp_ref a = false -> keeps obs (emit a);
  ob_mod f : stable f -> keeps obs (mod_tsx f);
  ob_txmod f : keeps obs (mod_txmod f);
  ob_update_transport tp : keeps obs (tsx_update_transport tp) }.

Section Frame.
Context {X : Type} (obs : world -> X) `{!Observer obs}.
Abbreviation balanced := (keeps obs).

Lemma bal_assert l b : balanced (pj_assert l b).
Proof. by apply keeps_when, ob_emit. Qed.
Hint Resolve ob_txmod ob_update_transport bal_assert : tsx.
Hint Extern 1 (keeps obs (emit _)) => apply ob_emit; reflexivity : tsx.
Hint Extern 1 (keeps obs (mod_tsx _)) => apply ob_mod; intros ?; split; reflexivity : tsx.
Hint Extern 1 (keeps obs (set_flag _)) => apply ob_mod; intros ?; split; reflexivity : tsx.
Hint Extern 1 (keeps obs (clr_flag _)) => apply ob_mod; intros ?; split; reflexivity : tsx.
Lemma bal_set_timer w e : balanced (mod_tsx (set_timer w e)).
Proof. apply ob_mod; by destruct w. Qed.
Hint Resolve bal_set_timer : tsx.
Lemma bal_schedule w d id : balanced (tsx_schedule_timer w d id).
Proof. unfold tsx_schedule_timer; solve_keeps. Qed.
Lemma bal_cancel w : balanced (tsx_cancel_timer w).
Proof. unfold tsx_cancel_timer; solve_keeps. Qed.
Hint Resolve bal_schedule bal_cancel : tsx.
Lemma bal_tp_state b st : balanced (tsx_tp_state_callback b st).
Proof. unfold tsx_tp_state_callback; solve_keeps. Qed.
Hint Resolve bal_tp_state : tsx.

Ltac bal x := unfold x; solve_keeps.
Lemma bal_set_status c x : balanced (tsx_set_status_code c x). Proof. bal tsx_set_status_code. Qed.
Lemma bal_unregister : balanced mod_tsx_layer_unregister_tsx.
Proof. bal mod_tsx_layer_unregister_tsx. Qed.
Lemma bal_release_tx : balanced release_last_tx. Proof. bal release_last_tx. Qed.
Lemma bal_notify_rx ev src : balanced (notify_rx ev src). Proof. bal notify_rx. Qed.
Lemma bal_notify_state s ev : balanced (notify_state s ev). Proof. bal notify_state. Qed.
Lemma bal_restart d : balanced (restart_timeout d). Proof. bal restart_timeout. Qed.
Hint Resolve bal_set_status bal_unregister bal_release_tx bal_notify_rx bal_notify_state
  bal_restart : tsx.
Lemma bal_shutdown : balanced tsx_shutdown. Proof. bal tsx_shutdown. Qed.
Lemma bal_enter_terminated : balanced enter_terminated. Proof. bal enter_terminated. Qed.
Hint Resolve bal_shutdown bal_enter_terminated : tsx.
Lemma bal_set_state s ev src : balanced (tsx_set_state s ev src). Proof. bal tsx_set_state. Qed.
Hint Resolve bal_set_state : tsx.
Lemma bal_no_notify s ev src : balanced (tsx_set_state_no_notify s ev src).
Proof. bal tsx_set_state_no_notify. Qed.
Lemma bal_save td : balanced (save_last_tx td). Proof. bal save_last_tx. Qed.
Lemma bal_discard td : balanced (discard_last_tx td). Proof. bal discard_last_tx. Qed.
Lemma bal_resched cfg : balanced (tsx_resched_retransmission cfg).
Proof. bal tsx_resched_retransmission. Qed.
Lemma bal_start d : balanced (start_retransmit d). Proof. bal start_retransmit. Qed.
Lemma bal_send_on_transport st td : balanced (send_on_transport st td).
Proof. bal send_on_transport. Qed.
Lemma bal_send_failed st : balanced (send_failed st). Proof. bal send_failed. Qed.
Lemma bal_permanent td n : balanced (send_cb_permanent td n). Proof. bal send_cb_permanent. Qed.
Lemma bal_temporary cfg td : balanced (send_cb_temporary cfg td). Proof. bal send_cb_temporary. Qed.
Hint Resolve bal_no_notify bal_save bal_discard bal_resched bal_start bal_send_on_transport
  bal_send_failed bal_permanent bal_temporary : tsx.

Section Sending.
Context (cfg : tsx_cfg).

Lemma bal_callback send td sent cont tp len :
  (forall o, balanced (send o)) -> balanced (send_msg_callback cfg send td sent cont tp len).
Proof.
  intros Hsend; unfold send_msg_callback, send_cb_sent, send_cb_deferred; solve_keeps.
Qed.

Lemma bal_send_msg : forall env o, balanced (tsx_send_msg cfg env o).
Proof.
  fix IH 1; intros [pend tps eps cbs] o; cbn [tsx_send_msg].
  assert (R : forall td, balanced (run_callbacks cfg (tsx_send_msg cfg) td cbs)).
  { intros td; revert cbs; fix IHc 1; intros [|[sent cont tp len nested] cbs]; [exact (keeps_skip _)|].
    cbn [run_callbacks]; apply keeps_bind; [apply bal_callback, IH|intros].
    apply keeps_if; [solve_keeps|apply IHc]. }
  clear IH; solve_keeps; try apply R; by destruct (tx_is_request _); auto with tsx.
Qed.
Hint Resolve bal_send_msg : tsx.

Lemma bal_retransmit env b : balanced (tsx_retransmit cfg env b).
Proof. bal tsx_retransmit. Qed.
Lemma bal_no_state env o : balanced (pjsip_tsx_retransmit_no_state cfg env o).
Proof. bal pjsip_tsx_retransmit_no_state. Qed.
Lemma bal_send_ack env ack : balanced (send_ack cfg env ack). Proof. bal send_ack. Qed.
Hint Resolve bal_retransmit bal_no_state bal_send_ack : tsx.
Lemma bal_null env ev : balanced (tsx_on_state_null cfg env ev). Proof. bal tsx_on_state_null. Qed.
Lemma bal_uac_2xx ev : balanced (uac_2xx cfg ev). Proof. bal uac_2xx. Qed.
Lemma bal_uac_final env ack ev : balanced (uac_final cfg env ack ev). 
Proof. unfold uac_final, uac_completed; solve_keeps. Qed.
Hint Resolve bal_null bal_uac_2xx bal_uac_final : tsx.
Lemma bal_proceeding_uac env ack ev : balanced (tsx_on_state_proceeding_uac cfg env ack ev).
Proof. bal tsx_on_state_proceeding_uac. Qed.
Lemma bal_calling_timers code : balanced (calling_rx_timers cfg code).
Proof. bal calling_rx_timers. Qed.
Hint Resolve bal_proceeding_uac bal_calling_timers : tsx.
Lemma bal_calling env ack ev : balanced (tsx_on_state_calling cfg env ack ev).
Proof. bal tsx_on_state_calling. Qed.
Lemma bal_uas_1xx td : balanced (uas_1xx td). Proof. bal uas_1xx. Qed.
Lemma bal_uas_2xx td : balanced (uas_2xx cfg td). Proof. bal uas_2xx. Qed.
Lemma bal_uas_final td : balanced (uas_final cfg td). Proof. bal uas_final. Qed.
Hint Resolve bal_calling bal_uas_1xx bal_uas_2xx bal_uas_final : tsx.
Lemma bal_proceeding_uas env ev : balanced (tsx_on_state_proceeding_uas cfg env ev).
Proof. unfold tsx_on_state_proceeding_uas, uas_tx; solve_keeps. Qed.
Hint Resolve bal_proceeding_uas : tsx.
Lemma bal_trying env ev : balanced (tsx_on_state_trying cfg env ev).
Proof. bal tsx_on_state_trying. Qed.
Lemma bal_completed_uas env ev : balanced (tsx_on_state_completed_uas cfg env ev).
Proof. bal tsx_on_state_completed_uas. Qed.
Lemma bal_completed_uac env ev : balanced (tsx_on_state_completed_uac cfg env ev).
Proof. bal tsx_on_state_completed_uac. Qed.
Hint Resolve bal_trying bal_completed_uas bal_completed_uac : tsx.
Lemma bal_dispatch env ack ev : balanced (call_state_handler cfg env ack ev).
Proof.
  unfold call_state_handler, tsx_on_state_confirmed, tsx_on_state_terminated,
    tsx_on_state_destroyed; solve_keeps.
Qed.
Hint Resolve bal_dispatch : tsx.

Lemma bal_recv env ack rx : balanced (pjsip_tsx_recv_msg cfg env ack rx).
Proof. unfold pjsip_tsx_recv_msg; solve_keeps. Qed.
Lemma bal_terminate code : balanced (pjsip_tsx_terminate code).
Proof. unfold pjsip_tsx_terminate; solve_keeps. Qed.

Lemma bal_run_op op : balanced (run_op cfg op).
Proof.
  destruct op; cbn [run_op];
    unfold pjsip_tsx_send_msg, pjsip_tsx_recv_msg, timer_expires, tsx_timer_callback,
      transport_callback, pjsip_tsx_terminate, pjsip_tsx_stop_retransmit,
      pjsip_tsx_set_timeout, pjsip_tsx_set_transport; solve_keeps.
  apply bal_callback; auto with tsx.
Qed.
End Sending.
End Frame.

Lemma observer_reachable {X} (obs : world -> X) `{!Observer obs} cfg w0 w :
  reachable cfg w0 w -> obs w = obs w0.
Proof. induction 1 as [|w op _ IH _]; [done|]; by rewrite bal_run_op. Qed.

Lemma observer_run {X} (obs : world -> X) `{!Observer obs} cfg ops : forall w, obs (run_ops cfg ops w) = obs w.
Proof. induction ops as [|op ops IH]; intros w; [done|]; cbn [run_ops]; by rewrite IH, bal_run_op. Qed.

#[global] Instance identity_observer : Observer (fun w => identity (w_tsx w)).
Proof.
  split; [done|intros f Hf w; apply Hf|done|].
  intros tp; unfold tsx_update_transport, release_transport, attach_transport,
    tsx_tp_state_callback, tsx_cancel_timer, tsx_schedule_timer, pj_assert; solve_keeps; done.
Qed.

#[global] Instance mod_id_observer : Observer w_mod_id.
Proof.
  split; [done..|].
  intros tp; unfold tsx_update_transport, release_transport, attach_transport,
    tsx_tp_state_callback, tsx_cancel_timer, tsx_schedule_timer, pj_assert; solve_keeps; done.
Qed.

(**  The role, method, CSeq number, key, branch and 200-response mode of a
    transaction are the same after any run as before it. *)
Theorem tsx_identity_fixed cfg w0 w :
  reachable cfg w0 w -> identity (w_tsx w) = identity (w_tsx w0).
Proof. apply (observer_reachable (fun w => identity (w_tsx w))). Qed.

Lemma tsx_identity_fixed_witness :
  let w0 := fresh_world (null_tsx ROLE_UAC M_INVITE None) in
  identity (w_tsx (run_ops default_cfg invite_run w0)) = identity (w_tsx w0).
Proof.
  intros w0; apply (tsx_identity_fixed default_cfg w0).
  apply reachable_run; [constructor|]; repeat split; repeat constructor; discriminate.
Defined.
