(* ===== verification/TsxBehaviour.v ===== *)
(** * SIP transactions: behaviour of single operations

    What particular operations do to the fields of the transaction: the
    retransmission schedule, the destruction of a terminated transaction, the
    acknowledgement of a failed INVITE, and messages that arrive too late. *)

From Stdlib Require Import ZArith Lia Bool.
From stdpp Require Import base list numbers option gmap.
From S2P Require Import Prelude TimeVal TsxModel TsxCore TsxAutomaton TsxSafety.
Local Open Scope Z_scope.

(** ** Facts about one field

    [after m P]: every run of [m] ends in a world that satisfies [P].  A field
    a program does not write keeps its value. *)
Definition after {A} (m : M A) (P : world -> Prop) : Prop := forall w, P (m w).2.
Definition field {X} (g : pjsip_transaction -> X) (w : world) : X := g (w_tsx w).

Lemma after_bind_r {A B} (m : M A) (f : A -> M B) P :
  (forall a, after (f a) P) -> after (m ≫= f) P.
Proof. intros H w; unfold mbind, M_bind; destruct (m w) as [a w1]; apply H. Qed.
Lemma after_bind_l {A B X} (m : M A) (f : A -> M B) (obs : world -> X) x :
  after m (fun w => obs w = x) -> (forall a, keeps obs (f a)) ->
  after (m ≫= f) (fun w => obs w = x).
Proof.
  intros Hm Hf w; unfold mbind, M_bind; specialize (Hm w).
  destruct (m w) as [a w1]; by rewrite Hf.
Qed.
Lemma after_and {A} (m : M A) (P Q : world -> Prop) :
  after m P -> after m Q -> after m (fun w => P w /\ Q w).
Proof. by intros HP HQ w; split. Qed.

Lemma field_emit {X} (g : pjsip_transaction -> X) a : keeps (field g) (emit a).
Proof. done. Qed.
Lemma field_txmod {X} (g : pjsip_transaction -> X) f : keeps (field g) (mod_txmod f).
Proof. done. Qed.
Lemma field_mod {X} (g : pjsip_transaction -> X) f :
  (forall t, g (f t) = g t) -> keeps (field g) (mod_tsx f).
Proof. intros H w; apply H. Qed.
Lemma field_assert {X} (g : pjsip_transaction -> X) l b : keeps (field g) (pj_assert l b).
Proof. apply keeps_when, field_emit. Qed.
#[export] Hint Resolve field_emit field_txmod field_assert : tsx.
#[export] Hint Extern 1 (keeps (field _) (mod_tsx _)) =>
  apply field_mod; intros; reflexivity : tsx.
#[export] Hint Extern 1 (keeps (field _) (set_flag _)) =>
  apply field_mod; intros; reflexivity : tsx.
#[export] Hint Extern 1 (keeps (field _) (clr_flag _)) =>
  apply field_mod; intros; reflexivity : tsx.

Ltac unfold_ops :=
  progress unfold tsx_schedule_timer, tsx_cancel_timer, tsx_tp_state_callback,
    tsx_set_status_code, mod_tsx_layer_unregister_tsx, release_last_tx, release_transport,
    notify_rx, notify_state, restart_timeout, enter_terminated, tsx_shutdown,
    tsx_update_transport.
Ltac solve_field := repeat (keeps_step || (unfold_ops; cbn [set_timer get_timer])).

(** ** Destruction *)

Lemma cancel_stops w : after (tsx_cancel_timer w) (fun x => t_running (get_timer w (w_tsx x)) = false).
Proof.
  intros x; unfold tsx_cancel_timer, mbind, M_bind, get_tsx, mod_tsx, emit, when, skip; cbn.
  destruct w; cbn; repeat case_if; done.
Qed.

Lemma shutdown_transport : after tsx_shutdown (fun w => field tsx_transport w = None).
Proof.
  unfold tsx_shutdown; apply after_bind_l; [|intros; solve_field].
  intros w; unfold tsx_update_transport.
  unfold mbind, M_bind, release_transport, get_tsx.
  unfold mbind, M_bind; destruct (tsx_transport (w_tsx w)) eqn:E; [done|exact E].
Qed.

Lemma release_last_tx_none : after release_last_tx (fun w => field last_tx w = None).
Proof.
  intros w; unfold release_last_tx, mbind, M_bind, get_tsx.
  destruct (last_tx (w_tsx w)) eqn:E; [done|exact E].
Qed.

Lemma shutdown_last_tx : after tsx_shutdown (fun w => field last_tx w = None).
Proof.
  unfold tsx_shutdown; do 3 (apply after_bind_r; intros).
  apply after_bind_l; [apply release_last_tx_none|intros; solve_field].
Qed.

Definition running (w : timer_which) (t : pjsip_transaction) : bool := t_running (get_timer w t).

Lemma shutdown_timers w : after tsx_shutdown (fun x => field (running w) x = false).
Proof.
  unfold tsx_shutdown; do 4 (apply after_bind_r; intros); destruct w.
  - apply after_bind_r; intros; apply after_bind_l; [apply (cancel_stops RetransmitTimer)|intros; solve_field].
  - apply after_bind_l; [apply (cancel_stops TimeoutTimer)|intros; solve_field].
Qed.

Lemma shutdown_terminating : after tsx_shutdown (fun w => field terminating w = true).
Proof.
  unfold tsx_shutdown; do 7 (apply after_bind_r; intros).
  intros w; cbv beta delta [mbind M_bind get_tsx]; cbv beta iota.
  destruct (terminating (w_tsx w)) eqn:E; destruct (has_flag _ _); [exact E|exact E|done|done].
Qed.

(** What is left of a destroyed transaction. *)
Definition released (w : world) : Prop :=
  let t := w_tsx w in
  tsx_transport t = None /\ last_tx t = None /\ terminating t = true /\
  t_running (retransmit_timer t) = false /\ t_running (timeout_timer t) = false.

Lemma shutdown_released : after tsx_shutdown released.
Proof.
  intros w; repeat split.
  - apply shutdown_transport. - apply shutdown_last_tx. - apply shutdown_terminating.
  - apply (shutdown_timers RetransmitTimer). - apply (shutdown_timers TimeoutTimer).
Qed.

Lemma set_destroyed_released ev src : after (tsx_set_state STATE_DESTROYED ev src) released.
Proof.
  unfold tsx_set_state; do 6 (apply after_bind_r; intros).
  intros w; unfold mbind, M_bind; pose proof (shutdown_released w) as H.
  by destruct (tsx_shutdown w).
Qed.

(** The world in which the handler of an expired timer runs. *)
Definition expired (wh : timer_which) (w : world) : world :=
  let e := get_timer wh (w_tsx w) in
  mk_world (set_timer wh (mk_timer 0 false (t_delay e) false) (w_tsx w))
    (w_txmod w) (w_mod_id w) (w_trace w).

Lemma timer_expires_eq cfg env ack wh w :
  t_id (get_timer wh (w_tsx w)) <> TRANSPORT_ERR_TIMER ->
  (timer_expires cfg env ack wh w).2
  = (when (t_grp_lock (get_timer wh (w_tsx w))) (emit AGrpDecRef)
       (call_state_handler cfg env ack (EvTimer wh) (expired wh w)).2).2.
Proof.
  intros Hid; apply Z.eqb_neq in Hid.
  unfold timer_expires, tsx_timer_callback, get_tsx, mod_tsx, mbind, M_bind.
  destruct wh; cbn [w_tsx get_timer set_timer w_txmod w_mod_id w_trace] in *; upd; cbn [t_id];
    rewrite Hid; match goal with |- context [call_state_handler _ _ _ _ ?x] =>
      change x with (expired RetransmitTimer w) || change x with (expired TimeoutTimer w) end;
    by destruct (call_state_handler _ _ _ _ _).
Qed.

(** The layer is gone or has been told to forget the transaction. *)
Definition is_unregister (a : action) : bool := match a with AUnregister => true | _ => false end.
Definition unregistered (w : world) : bool :=
  (w_mod_id w =? -1) || existsb is_unregister (w_trace w).

Lemma unreg_emit a : is_unregister a = false -> keeps unregistered (emit a).
Proof. intros H w; unfold unregistered, emit; cbn; by rewrite H. Qed.
Lemma unreg_mod f : keeps unregistered (mod_tsx f).
Proof. done. Qed.
Lemma unreg_txmod f : keeps unregistered (mod_txmod f).
Proof. done. Qed.
#[export] Hint Resolve unreg_mod unreg_txmod : tsx.
#[export] Hint Extern 1 (keeps unregistered (emit _)) => apply unreg_emit; reflexivity : tsx.
#[export] Hint Extern 1 (keeps unregistered (pj_assert _ _)) =>
  apply keeps_when, unreg_emit; reflexivity : tsx.
#[export] Hint Extern 1 (keeps unregistered (set_flag _)) => apply unreg_mod : tsx.
#[export] Hint Extern 1 (keeps unregistered (clr_flag _)) => apply unreg_mod : tsx.

Lemma unregister_unregisters :
  after mod_tsx_layer_unregister_tsx (fun w => unregistered w = true).
Proof.
  intros w; unfold mod_tsx_layer_unregister_tsx, mbind, M_bind, get_world, unregistered.
  destruct (w_mod_id w =? -1) eqn:E; cbn; rewrite E; cbn; done.
Qed.

Lemma set_destroyed_unregisters ev src :
  after (tsx_set_state STATE_DESTROYED ev src) (fun w => unregistered w = true).
Proof.
  unfold tsx_set_state; do 5 (apply after_bind_r; intros).
  apply after_bind_l; [apply unregister_unregisters|intros; solve_field].
Qed.

Lemma set_state_state s ev src :
  after (tsx_set_state s ev src) (fun w => field state w = s).
Proof.
  unfold tsx_set_state; do 2 (apply after_bind_r; intros).
  apply after_bind_l; [done|intros; destruct s; solve_field].
Qed.

Lemma get_tsx_eq {A} (f : pjsip_transaction -> M A) w : (get_tsx ≫= f) w = f (w_tsx w) w.
Proof. done. Qed.

(** A timer in Terminated runs the destruction. *)
Lemma terminated_handler cfg env ack wh w :
  state_handler (w_tsx w) = Some H_terminated ->
  let w' := (call_state_handler cfg env ack (EvTimer wh) w).2 in
  (state (w_tsx w') = STATE_DESTROYED /\ unregistered w' = true) /\ released w'.
Proof.
  intros Hh; cbv zeta; unfold call_state_handler; rewrite get_tsx_eq, Hh.
  unfold tsx_on_state_terminated; rewrite get_tsx_eq.
  match goal with |- (_ (w_tsx (?m w).2) = _ /\ _) /\ _ =>
    enough (K : after m (fun w' => (field state w' = STATE_DESTROYED /\ unregistered w' = true)
      /\ released w')) by apply K end.
  apply after_bind_r; intros _ x; unfold mbind, M_bind.
  pose proof (set_state_state STATE_DESTROYED EVENT_TIMER SrcTimer x) as H1.
  pose proof (set_destroyed_unregisters EVENT_TIMER SrcTimer x) as H2.
  pose proof (set_destroyed_released EVENT_TIMER SrcTimer x) as H3.
  by destruct (tsx_set_state _ _ _ x).
Qed.

Lemma terminated_expires cfg env ack wh w :
  state_handler (w_tsx w) = Some H_terminated ->
  t_id (get_timer wh (w_tsx w)) <> TRANSPORT_ERR_TIMER ->
  let w' := (timer_expires cfg env ack wh w).2 in
  (state (w_tsx w') = STATE_DESTROYED /\ unregistered w' = true) /\ released w'.
Proof.
  intros Hh Hid; cbv zeta; rewrite timer_expires_eq by done.
  assert (Hx : state_handler (w_tsx (expired wh w)) = Some H_terminated) by by destruct wh.
  pose proof (terminated_handler cfg env ack wh _ Hx) as H.
  by destruct (t_grp_lock _).
Qed.

(**  When the timer armed on entry to Terminated expires, the transaction
    is destroyed: its state is Destroyed, it has been unregistered from the
    layer, its transport and last message are released, its own reference to
    the group lock is dropped and no timer of it is left running. *)
Theorem terminated_timer_destroys cfg env ack wh w :
  state_handler (w_tsx w) = Some H_terminated ->
  t_id (get_timer wh (w_tsx w)) <> TRANSPORT_ERR_TIMER ->
  let w' := (run_op cfg (OpTimer env ack wh) w).2 in
  let t' := w_tsx w' in
  (state t' = STATE_DESTROYED /\ unregistered w' = true) /\
  tsx_transport t' = None /\ last_tx t' = None /\ terminating t' = true /\
  t_running (retransmit_timer t') = false /\ t_running (timeout_timer t') = false.
Proof.
  intros Hh Hid; exact (terminated_expires cfg env ack wh w Hh Hid).
Qed.

Lemma terminated_timer_destroys_witness :
  let w := run_ops default_cfg (take 4 invite_run)
             (fresh_world (null_tsx ROLE_UAC M_INVITE None)) in
  (state (w_tsx w) = STATE_TERMINATED /\ t_running (timeout_timer (w_tsx w)) = true) /\
  state (w_tsx (run_op default_cfg (OpTimer quiet_env (PJ_SUCCESS, ack_msg) TimeoutTimer) w).2)
  = STATE_DESTROYED.
Proof.
  intros w; split; [vm_compute; done|].
  apply (terminated_timer_destroys default_cfg quiet_env (PJ_SUCCESS, ack_msg) TimeoutTimer w);
    vm_compute; [reflexivity|discriminate].
Defined.

Lemma schedule_after_cancel wh d id (x : world) :
  get_timer wh (w_tsx ((tsx_cancel_timer wh;; tsx_schedule_timer wh d id;; skip) x).2)
  = mk_timer id true d true.
Proof.
  unfold tsx_cancel_timer, tsx_schedule_timer, pj_assert, get_tsx, mod_tsx, emit, when, skip.
  unfold mbind, M_bind, mret, M_ret.
  destruct wh; cbn [get_timer set_timer w_tsx w_txmod w_mod_id w_trace];
    repeat (case_if; cbn [get_timer set_timer w_tsx w_txmod w_mod_id w_trace]; upd); done.
Qed.

(** The timer a terminated transaction is destroyed by. *)
Definition destroy_timer : timer_entry := mk_timer TIMEOUT_TIMER true zero_time true.

Lemma set_terminated_arms ev src :
  after (tsx_set_state STATE_TERMINATED ev src)
    (fun w => field timeout_timer w = destroy_timer).
Proof.
  unfold tsx_set_state; do 5 (apply after_bind_r; intros); unfold enter_terminated.
  do 2 (apply after_bind_r; intros); intros x; apply (schedule_after_cancel TimeoutTimer).
Qed.

Lemma set_terminated_handler ev src w :
  state_handler (w_tsx (tsx_set_state STATE_TERMINATED ev src w).2) = Some H_terminated.
Proof.
  enough (H : ok (core w) (tsx_set_state STATE_TERMINATED ev src)
                (fun _ c => c_handler c = Some H_terminated)) by by apply H.
  apply ok_set_state; cbn; by destruct (role (w_tsx w)).
Qed.

(**  Entering Terminated, for whatever reason, arms the destroy timer with
    no delay, replacing any timeout that was running; when it expires the
    transaction is destroyed. *)
Theorem terminated_is_destroyed cfg env ack ev src w :
  let w1 := (tsx_set_state STATE_TERMINATED ev src w).2 in
  timeout_timer (w_tsx w1) = mk_timer TIMEOUT_TIMER true (mk_tv 0 0) true /\
  state (w_tsx (timer_expires cfg env ack TimeoutTimer w1).2) = STATE_DESTROYED.
Proof.
  intros w1; pose proof (set_terminated_arms ev src w : timeout_timer (w_tsx w1) = _) as Ht.
  split; [done|]; rewrite timer_expires_eq by (cbn [get_timer]; rewrite Ht; done).
  pose proof (terminated_handler cfg env ack TimeoutTimer (expired TimeoutTimer w1)
    (set_terminated_handler ev src w)) as [[H _] _].
  by destruct (t_grp_lock _).
Qed.

(** ** A transport error in Terminated *)

Lemma timer_expires_error_eq cfg env ack wh w :
  t_id (get_timer wh (w_tsx w)) = TRANSPORT_ERR_TIMER -> state (w_tsx w) = STATE_TERMINATED ->
  (timer_expires cfg env ack wh w).2
  = (when (t_grp_lock (get_timer wh (w_tsx w))) (emit AGrpDecRef) (expired wh w)).2.
Proof.
  intros Hid Hs.
  unfold timer_expires, tsx_timer_callback, get_tsx, mod_tsx, mbind, M_bind.
  destruct wh; cbn [w_tsx get_timer set_timer w_txmod w_mod_id w_trace] in *; upd; cbn [t_id];
    rewrite Hid, Hs; done.
Qed.

(**  A transport that disconnects while the transaction waits in
    Terminated replaces the destroy timer by a transport-error timer whose
    expiry does nothing: the transaction stays in Terminated with no timer
    left to destroy it. *)
Theorem terminated_transport_error_leaks cfg env ack st w :
  state (w_tsx w) = STATE_TERMINATED -> t_running (retransmit_timer (w_tsx w)) = false ->
  let w' := run_ops cfg [OpTpState true st; OpTimer env ack TimeoutTimer] w in
  state (w_tsx w') = STATE_TERMINATED /\
  t_running (retransmit_timer (w_tsx w')) = false /\
  t_running (timeout_timer (w_tsx w')) = false.
Proof.
  intros Hs Hr; cbn [run_ops run_op]; cbv zeta.
  set (w1 := (tsx_tp_state_callback true st w).2).
  assert (E1 : field state w1 = field state w) by (unfold w1; generalize w; change (keeps (field state) (tsx_tp_state_callback true st)); solve_field).
  assert (E2 : field retransmit_timer w1 = field retransmit_timer w) by (unfold w1; generalize w; change (keeps (field retransmit_timer) (tsx_tp_state_callback true st)); solve_field).
  assert (E3 : timeout_timer (w_tsx w1) = mk_timer TRANSPORT_ERR_TIMER true zero_time true)
    by apply (schedule_after_cancel TimeoutTimer).
  unfold field in E1, E2; rewrite timer_expires_error_eq by (cbn [get_timer]; congruence || rewrite E3; done).
  cbn [get_timer]; rewrite E3.
  change (state (w_tsx w1) = STATE_TERMINATED /\ t_running (retransmit_timer (w_tsx w1)) = false /\ false = false).
  rewrite E1, E2; done.
Qed.

Lemma terminated_transport_error_leaks_witness :
  let w := run_ops default_cfg (take 4 invite_run)
             (fresh_world (null_tsx ROLE_UAC M_INVITE None)) in
  state (w_tsx w) = STATE_TERMINATED /\
  state (w_tsx (run_ops default_cfg
    [OpTpState true 503; OpTimer quiet_env (PJ_SUCCESS, ack_msg) TimeoutTimer] w))
  = STATE_TERMINATED.
Proof.
  intros w; split; [vm_compute; done|].
  apply (terminated_transport_error_leaks default_cfg quiet_env (PJ_SUCCESS, ack_msg) 503 w);
    vm_compute; reflexivity.
Defined.

(** ** Retransmission *)

(** Exact runs: what a program returns and the world it leaves. *)
Lemma bind_run {A B} (m : M A) (f : A -> M B) w a w1 : m w = (a, w1) -> (m ≫= f) w = f a w1.
Proof. intros E; unfold mbind, M_bind; by rewrite E. Qed.
Lemma assert_run l b w : b = true -> pj_assert l b w = ((), w).
Proof. by intros ->. Qed.
Lemma mod_run f w :
  mod_tsx f w = ((), mk_world (f (w_tsx w)) (w_txmod w) (w_mod_id w) (w_trace w)).
Proof. done. Qed.

(** [w] with transaction [t] and the effects [acts], latest first. *)
Definition advance (t : pjsip_transaction) (acts : list action) (w : world) : world :=
  mk_world t (w_txmod w) (w_mod_id w) (acts ++ w_trace w).



(** A message goes straight to the transport at hand. *)
Lemma send_run cfg env td tp w :
  let t := w_tsx w in
  has_flag (transport_flag t) TSX_HAS_PENDING_TRANSPORT = false -> tsx_transport t = Some tp ->
  env = quiet_env ->
  exists f, has_flag f TSX_HAS_PENDING_TRANSPORT = false /\
  tsx_send_msg cfg env (Some td) w
  = (PJ_SUCCESS, advance (t <| transport_flag := f |>)
                   [AGrpDecRef; ATransportSend tp td; AGrpAddRef] w).
Proof.
  intros t Hf Ht ->; unfold quiet_env; cbn [tsx_send_msg].
  exists (Z.land (Z.lor (transport_flag t) TSX_HAS_PENDING_TRANSPORT)
            (Z.lnot TSX_HAS_PENDING_TRANSPORT)); split; [by flag_simpl|].
  rewrite get_tsx_eq; fold t; rewrite Hf.
  erewrite bind_run; [|unfold send_on_transport; rewrite get_tsx_eq; fold t; rewrite Ht; reflexivity].
  reflexivity.
Qed.




(** How often a message was handed to a transport. *)
Definition is_send (td : tx_data) (a : action) : bool :=
  match a with ATransportSend _ td' => tx_id td' =? tx_id td | _ => false end.
Definition sends (td : tx_data) (w : world) : Z :=
  Z.of_nat (length (List.filter (is_send td) (w_trace w))).

Section Retransmission.
Context (cfg : tsx_cfg) (ack : pj_status_t * tx_data) (m : method_e) (td : tx_data)
  (tp : transport).
Hypothesis Ht1 : 0 < cfg_t1 cfg.
Hypothesis Ht2 : 0 < cfg_t2 cfg.



End Retransmission.



(** ** Rejection of an INVITE *)

(** Fields as a program that keeps them leaves them. *)
Lemma keeps_field {A X} (g : pjsip_transaction -> X) (p : M A) w :
  keeps (field g) p -> g (w_tsx (p w).2) = g (w_tsx w).
Proof. intros H; apply (H w). Qed.

Lemma bind_snd {A B} (m : M A) (f : A -> M B) w :
  ((m ≫= f) w).2 = (f (m w).1 (m w).2).2.
Proof. unfold mbind, M_bind; by destruct (m w). Qed.

Lemma sends_emit td a : is_send td a = false -> keeps (sends td) (emit a).
Proof. intros H w; unfold sends, emit; cbn; by rewrite H. Qed.
Lemma sends_mod td f : keeps (sends td) (mod_tsx f).
Proof. done. Qed.
Lemma sends_txmod td f : keeps (sends td) (mod_txmod f).
Proof. done. Qed.
#[export] Hint Resolve sends_mod sends_txmod : tsx.
#[export] Hint Extern 1 (keeps (sends _) (emit _)) => apply sends_emit; reflexivity : tsx.
#[export] Hint Extern 1 (keeps (sends _) (pj_assert _ _)) =>
  apply keeps_when, sends_emit; reflexivity : tsx.
#[export] Hint Extern 1 (keeps (sends _) (set_flag _)) => apply sends_mod : tsx.
#[export] Hint Extern 1 (keeps (sends _) (clr_flag _)) => apply sends_mod : tsx.

Lemma keeps_set_state {X} (g : pjsip_transaction -> X) s ev src :
  (forall t, g (t <| state := s |> <| state_handler := handler_for (role t) s |>) = g t) ->
  state_num s < state_num STATE_TERMINATED ->
  keeps (field g) (tsx_set_state s ev src).
Proof.
  intros H Hs; unfold tsx_set_state; repeat keeps_step;
    first [by apply field_mod | solve [solve_field] | cbn in Hs; lia].
Qed.

Lemma restart_timeout_eq d w :
  timeout_timer (w_tsx (restart_timeout d w).2) = mk_timer TIMEOUT_TIMER true d true.
Proof. apply (schedule_after_cancel TimeoutTimer). Qed.

Section Completed.
Context (cfg : tsx_cfg) (ack : tx_data) (ev : tsx_event) (w : world).
Hypothesis Hinvite : method (w_tsx w) = M_INVITE.
Let w' : world := (uac_completed cfg ack ev w).2.

Lemma uac_completed_state : state (w_tsx w') = STATE_COMPLETED.
Proof.
  apply (after_bind_l (tsx_set_state STATE_COMPLETED EVENT_RX_MSG (ev_rx_src ev)) _ (field state));
    [apply set_state_state|intros; solve_field].
Qed.

Lemma uac_completed_retransmit : retransmit_timer (w_tsx w') = retransmit_timer (w_tsx w).
Proof.
  apply (keeps_field retransmit_timer); unfold uac_completed.
  apply keeps_bind; [by apply keeps_set_state|intros; solve_field].
Qed.

Lemma uac_completed_sends td : sends td w' = sends td w.
Proof.
  revert w'; assert (K : keeps (sends td) (uac_completed cfg ack ev)); [|apply K].
  unfold uac_completed, tsx_set_state; solve_field.
Qed.

Lemma uac_completed_timeout :
  timeout_timer (w_tsx w') = mk_timer TIMEOUT_TIMER true
    (if is_reliable (w_tsx w) then zero_time else td_timer_val cfg) true.
Proof.
  unfold w', uac_completed; rewrite bind_snd, get_tsx_eq; cbv beta; rewrite bind_snd, bind_snd.
  cbn [snd mret M_ret]; rewrite restart_timeout_eq.
  rewrite (keeps_field is_reliable), (keeps_field method), Hinvite by (by apply keeps_set_state).
  by destruct (is_reliable (w_tsx w)).
Qed.

Lemma uac_completed_last_tx : tx_eqb (last_tx (w_tsx w')) ack = true.
Proof.
  unfold w', uac_completed; rewrite bind_snd, get_tsx_eq; cbv beta; rewrite bind_snd, bind_snd.
  cbn [snd mret M_ret]; rewrite (keeps_field last_tx) by solve_field.
  rewrite (keeps_field method), Hinvite by (by apply keeps_set_state).
  set (x := (tsx_set_state _ _ _ w).2); change (is_invite M_INVITE) with true.
  destruct (tx_eqb (last_tx (w_tsx x)) ack) eqn:E; cbn [negb andb when];
    [exact E|rewrite bind_snd; apply Z.eqb_refl].
Qed.
End Completed.

Lemma in_class_false code cls n :
  cls = 100 * n -> 0 <= n <= 2 -> 300 <= code -> in_class code cls = false.
Proof.
  intros -> Hn Hc; unfold in_class; apply Z.eqb_neq.
  rewrite (Z.mul_comm 100), Z.quot_mul by lia.
  rewrite Z.quot_div_nonneg by lia; apply not_eq_sym, Z.lt_neq, Z.lt_le_trans with 3; [lia|].
  apply Z.div_le_lower_bound; lia.
Qed.

(** Both timers are stopped, and nothing else the rest relies on changes. *)
Lemma cancel_both w :
  let w2 := (tsx_cancel_timer TimeoutTimer (tsx_cancel_timer RetransmitTimer w).2).2 in
  method (w_tsx w2) = method (w_tsx w) /\ tsx_transport (w_tsx w2) = tsx_transport (w_tsx w) /\
  transport_flag (w_tsx w2) = transport_flag (w_tsx w) /\
  is_reliable (w_tsx w2) = is_reliable (w_tsx w) /\
  t_running (retransmit_timer (w_tsx w2)) = false /\ (forall td, sends td w2 = sends td w).
Proof.
  assert (K : forall X (g : pjsip_transaction -> X),
    keeps (field g) (tsx_cancel_timer TimeoutTimer) ->
    keeps (field g) (tsx_cancel_timer RetransmitTimer) ->
    g (w_tsx (tsx_cancel_timer TimeoutTimer (tsx_cancel_timer RetransmitTimer w).2).2)
    = g (w_tsx w)) by (intros X g K1 K2; rewrite (keeps_field g _ _ K1); by apply keeps_field).
  cbv zeta; do 4 (split; [apply K; solve_field|]); split.
  - rewrite (keeps_field retransmit_timer) by solve_field; apply (cancel_stops RetransmitTimer).
  - intros td; assert (S : forall wh, keeps (sends td) (tsx_cancel_timer wh)) by (intros []; solve_field).
    by rewrite S, S.
Qed.

Lemma send_ack_run cfg ack tp w :
  method (w_tsx w) = M_INVITE -> tsx_transport (w_tsx w) = Some tp ->
  has_flag (transport_flag (w_tsx w)) TSX_HAS_PENDING_TRANSPORT = false ->
  exists f, send_ack cfg quiet_env (PJ_SUCCESS, ack) w
  = (PJ_SUCCESS, advance ((w_tsx w) <| transport_flag := f |>)
                   [AGrpDecRef; ATransportSend tp ack; AGrpAddRef; ACreateAck ack] w).
Proof.
  intros Hm Ht Hf; unfold send_ack; rewrite get_tsx_eq, Hm.
  set (w3 := mk_world (w_tsx w) (w_txmod w) (w_mod_id w) (ACreateAck ack :: w_trace w)).
  destruct (send_run cfg quiet_env ack tp w3 Hf Ht eq_refl) as (f & _ & E).
  exists f; exact E.
Qed.

Lemma uac_final_acks cfg ack ev tp w :
  method (w_tsx w) = M_INVITE -> tsx_transport (w_tsx w) = Some tp ->
  has_flag (transport_flag (w_tsx w)) TSX_HAS_PENDING_TRANSPORT = false ->
  let w' := (uac_final cfg quiet_env (PJ_SUCCESS, ack) ev w).2 in
  state (w_tsx w') = STATE_COMPLETED /\ sends ack w' = sends ack w + 1 /\
  tx_eqb (last_tx (w_tsx w')) ack = true /\
  t_running (retransmit_timer (w_tsx w')) = false /\
  timeout_timer (w_tsx w') = mk_timer TIMEOUT_TIMER true
    (if is_reliable (w_tsx w) then zero_time else td_timer_val cfg) true.
Proof.
  intros Hm Ht Hf; cbv zeta; unfold uac_final; rewrite !bind_snd; cbv beta.
  destruct (cancel_both w) as (M2 & T2 & F2 & R2 & S2 & N2).
  set (w2 := (tsx_cancel_timer TimeoutTimer _).2) in *.
  destruct (send_ack_run cfg ack tp w2) as (f & E); try congruence.
  rewrite E; cbn [fst snd]; rewrite Z.eqb_refl; cbn [negb]; set (w4 := advance _ _ w2).
  assert (M4 : method (w_tsx w4) = M_INVITE) by (rewrite <- Hm; exact M2).
  repeat split.
  - apply uac_completed_state.
  - rewrite uac_completed_sends, <- N2.
    change (Z.of_nat (length (if tx_id ack =? tx_id ack
      then ATransportSend tp ack :: List.filter (is_send ack) (w_trace w2)
      else List.filter (is_send ack) (w_trace w2))) = sends ack w2 + 1).
    rewrite Z.eqb_refl; unfold sends; cbn [length]; lia.
  - by apply uac_completed_last_tx.
  - rewrite uac_completed_retransmit; exact S2.
  - rewrite uac_completed_timeout by done; rewrite <- R2; done.
Qed.

Lemma proceeding_rejected cfg env ack rx w :
  state_handler (w_tsx w) = Some H_proceeding_uac -> state (w_tsx w) = STATE_PROCEEDING ->
  rx_is_request rx = false -> 300 <= rx_code rx <= 699 ->
  call_state_handler cfg env ack (EvRxMsg rx) w
  = uac_final cfg env ack (EvRxMsg rx)
      (advance ((w_tsx w) <| status_code := rx_code rx |> <| status_text := TextReason (rx_reason rx) |>)
         [] w).
Proof.
  intros Hh Hs Hr Hc; unfold call_state_handler; rewrite get_tsx_eq, Hh.
  unfold tsx_on_state_proceeding_uac; rewrite get_tsx_eq.
  erewrite bind_run; [|apply assert_run; by rewrite Hs]; rewrite Hr.
  erewrite bind_run; [|apply mod_run]; rewrite get_tsx_eq; cbn [w_tsx].
  match goal with |- context [status_code ?t] => change (status_code t) with (rx_code rx) end.
  rewrite (in_class_false _ 100 1), (in_class_false _ 200 2) by lia.
  by replace ((300 <=? rx_code rx) && (rx_code rx <=? 699)) with true
    by (symmetry; apply andb_true_intro; split; apply Z.leb_le; lia).
Qed.

(**  A client INVITE transaction in Proceeding that receives a 3xx-6xx
    response over its transport sends the ACK once, moves to Completed, keeps
    the ACK to answer retransmitted responses, stops retransmitting the
    INVITE and arms timer D (zero on a reliable transport). *)
Theorem invite_failure_acked cfg ack rx tp w :
  state_handler (w_tsx w) = Some H_proceeding_uac -> state (w_tsx w) = STATE_PROCEEDING ->
  method (w_tsx w) = M_INVITE -> tsx_transport (w_tsx w) = Some tp ->
  has_flag (transport_flag (w_tsx w)) TSX_HAS_PENDING_TRANSPORT = false ->
  rx_is_request rx = false -> 300 <= rx_code rx <= 699 ->
  let w' := (run_op cfg (OpRecv quiet_env (PJ_SUCCESS, ack) rx) w).2 in
  state (w_tsx w') = STATE_COMPLETED /\ sends ack w' = sends ack w + 1 /\
  tx_eqb (last_tx (w_tsx w')) ack = true /\
  t_running (retransmit_timer (w_tsx w')) = false /\
  timeout_timer (w_tsx w') = mk_timer TIMEOUT_TIMER true
    (if is_reliable (w_tsx w) then mk_tv 0 0 else ms_time (cfg_td cfg)) true.
Proof.
  intros Hh Hs Hm Ht Hf Hr Hc; cbn [run_op]; unfold pjsip_tsx_recv_msg; cbv zeta.
  rewrite bind_snd, proceeding_rejected by done; set (x := advance _ _ w).
  exact (uac_final_acks cfg ack (EvRxMsg rx) tp x Hm Ht Hf).
Qed.

Lemma invite_failure_acked_witness :
  let w := run_ops default_cfg (take 2 invite_run)
             (fresh_world (null_tsx ROLE_UAC M_INVITE None)) in
  let w' := (run_op default_cfg (OpRecv quiet_env (PJ_SUCCESS, ack_msg) (response 486)) w).2 in
  state (w_tsx w) = STATE_PROCEEDING /\ state (w_tsx w') = STATE_COMPLETED.
Proof.
  intros w w'; split; [vm_compute; reflexivity|].
  apply (invite_failure_acked default_cfg ack_msg (response 486) (mk_tp 7 false false) w);
    vm_compute; try reflexivity; split; discriminate.
Defined.

(** ** Late messages *)

Lemma ended_dispatch cfg env ack ev w :
  state_handler (w_tsx w) = handler_for (role (w_tsx w)) (state (w_tsx w)) ->
  state (w_tsx w) = STATE_TERMINATED \/ state (w_tsx w) = STATE_DESTROYED ->
  match ev with EvTimer _ => False | _ => True end ->
  call_state_handler cfg env ack ev w = (PJ_EIGNORED, w).
Proof.
  intros Hh [Hs|Hs] Hev; unfold call_state_handler; rewrite get_tsx_eq, Hh, Hs.
  - assert (E : tsx_on_state_terminated ev w = (PJ_EIGNORED, w)).
    { unfold tsx_on_state_terminated; rewrite get_tsx_eq, Hs.
      erewrite bind_run; [|by apply assert_run]; by destruct ev. }
    by destruct (role (w_tsx w)).
  - by destruct (role (w_tsx w)).
Qed.

(**  A transaction in Terminated or Destroyed ignores every message: a
    received one changes nothing at all, and an attempt to send returns
    [PJ_EIGNORED] and sends nothing. *)
Theorem ended_ignores_messages cfg env ack rx td w :
  state_handler (w_tsx w) = handler_for (role (w_tsx w)) (state (w_tsx w)) ->
  state (w_tsx w) = STATE_TERMINATED \/ state (w_tsx w) = STATE_DESTROYED ->
  (run_op cfg (OpRecv env ack rx) w).2 = w /\
  pjsip_tsx_send_msg cfg env ack (Some td) w = (PJ_EIGNORED, w).
Proof.
  intros Hh Hs; cbn [run_op]; unfold pjsip_tsx_recv_msg, pjsip_tsx_send_msg; rewrite get_tsx_eq.
  by split; erewrite bind_run by (by apply ended_dispatch).
Qed.

Lemma ended_ignores_messages_witness :
  let w := run_ops default_cfg (take 4 invite_run)
             (fresh_world (null_tsx ROLE_UAC M_INVITE None)) in
  state (w_tsx w) = STATE_TERMINATED /\
  pjsip_tsx_send_msg default_cfg quiet_env (PJ_SUCCESS, ack_msg) (Some invite_msg) w
  = (PJ_EIGNORED, w).
Proof.
  intros w; split; [vm_compute; reflexivity|].
  apply (ended_ignores_messages default_cfg quiet_env (PJ_SUCCESS, ack_msg) (response 200) invite_msg w);
    vm_compute; [reflexivity|left; reflexivity].
Defined.

(** ** The server side *)

(**  A server INVITE transaction in Completed that receives the ACK moves
    to Confirmed, stops retransmitting its final response, and arms timer I:
    T4, or zero on a reliable transport. *)
Theorem ack_confirms cfg env ack rx w :
  state_handler (w_tsx w) = Some H_completed_uas -> state (w_tsx w) = STATE_COMPLETED ->
  method (w_tsx w) = M_INVITE -> rx_is_request rx = true -> rx_method rx = M_ACK ->
  let w' := (run_op cfg (OpRecv env ack rx) w).2 in
  state (w_tsx w') = STATE_CONFIRMED /\
  t_running (retransmit_timer (w_tsx w')) = false /\
  timeout_timer (w_tsx w') = mk_timer TIMEOUT_TIMER true
    (if is_reliable (w_tsx w) then mk_tv 0 0 else ms_time (cfg_t4 cfg)) true.
Proof.
  intros Hh Hs Hm Hr Ha; cbn [run_op]; unfold pjsip_tsx_recv_msg, call_state_handler; cbv zeta.
  rewrite bind_snd, get_tsx_eq, Hh; unfold tsx_on_state_completed_uas; rewrite get_tsx_eq, Hm.
  erewrite bind_run; [|apply assert_run; by rewrite Hs]; rewrite Hr, Ha; cbn [negb].
  rewrite (bool_decide_true (M_ACK = M_ACK)) by done; change (is_invite M_INVITE) with true.
  cbn [negb]; rewrite !bind_snd; cbn [snd skip mret M_ret]; repeat split.
  - apply set_state_state.
  - rewrite !(keeps_field retransmit_timer) by
      (solve [solve_field | by apply keeps_set_state]); apply (cancel_stops RetransmitTimer).
  - rewrite (keeps_field timeout_timer) by (by apply keeps_set_state).
    rewrite restart_timeout_eq; done.
Qed.

Lemma ack_confirms_witness :
  let t := (null_tsx ROLE_UAS M_INVITE None) <| state := STATE_COMPLETED |>
             <| state_handler := Some H_completed_uas |> in
  let ack := mk_rx 3 true M_ACK 0 [] in
  state (w_tsx (run_op default_cfg (OpRecv quiet_env (PJ_SUCCESS, ack_msg) ack) (fresh_world t)).2)
  = STATE_CONFIRMED.
Proof.
  intros t ack.
  apply (ack_confirms default_cfg quiet_env (PJ_SUCCESS, ack_msg) ack (fresh_world t)); reflexivity.
Defined.

(**  When a transport finishes a pending send while another send is
    deferred, the pending flag is cleared but the deferred message is not
    sent: nothing reaches a transport and the deferred-send flag stays set. *)
Theorem transport_callback_drops_deferred sent w :
  0 <= sent ->
  has_flag (transport_flag (w_tsx w)) TSX_HAS_PENDING_SEND = true ->
  let w' := (run_op default_cfg (OpTransportCallback sent) w).2 in
  has_flag (transport_flag (w_tsx w')) TSX_HAS_PENDING_TRANSPORT = false /\
  has_flag (transport_flag (w_tsx w')) TSX_HAS_PENDING_SEND = true /\
  w_trace w' = AGrpDecRef :: w_trace w.
Proof.
  intros Hs Hf; cbn [run_op]; unfold transport_callback; cbv zeta.
  replace (sent <? 0) with false by (symmetry; apply Z.ltb_ge; lia).
  rewrite !bind_snd; change (has_flag (Z.land (transport_flag (w_tsx w)) (Z.lnot TSX_HAS_PENDING_TRANSPORT)) TSX_HAS_PENDING_TRANSPORT = false /\
    has_flag (Z.land (transport_flag (w_tsx w)) (Z.lnot TSX_HAS_PENDING_TRANSPORT)) TSX_HAS_PENDING_SEND = true /\
    AGrpDecRef :: w_trace w = AGrpDecRef :: w_trace w).
  by flag_simpl.
Qed.

(** A request over TCP whose second transmission is deferred. *)
Lemma transport_callback_drops_deferred_witness :
  let tcp := mk_tp 7 false false in
  let t := (null_tsx ROLE_UAC M_OPTIONS None) <| tsx_transport := Some tcp |> in
  let busy := SendEnv false PJ_EPENDING PJ_SUCCESS [] in
  let ack := (PJ_SUCCESS, ack_msg) in
  let w := run_ops default_cfg
             [OpSend busy ack (Some (mk_tx 1 true 0 [] M_OPTIONS)); OpRetransmitNoState quiet_env None]
             (fresh_world t) in
  has_flag (transport_flag (w_tsx (run_op default_cfg (OpTransportCallback 100) w).2))
    TSX_HAS_PENDING_SEND = true.
Proof.
  intros tcp t busy ack w.
  apply (transport_callback_drops_deferred 100 w); vm_compute; [discriminate|reflexivity].
Defined.

(** ** A completion that comes after a deferred send *)

(** A server INVITE transaction over a connection: ringing, then a second
    provisional response put off because the connection is busy, then the
    completion of the first one. *)
Definition busy_server : world :=
  fresh_world ((null_tsx ROLE_UAS M_INVITE (Some (mk_module true true)))
                 <| tsx_transport := Some (mk_tp 7 true false) |> <| is_reliable := true |>).
Definition deferred_run : list tsx_op :=
  let busy := SendEnv false PJ_EPENDING PJ_SUCCESS [] in
  let ack := (PJ_SUCCESS, ack_msg) in
  [OpRecv quiet_env ack (mk_rx 1 true M_INVITE 0 []);
   OpSend busy ack (Some (mk_tx 2 false 180 [] M_INVITE));
   OpSend busy ack (Some (mk_tx 3 false 183 [] M_INVITE))].

(** The connection then breaks under a repetition of the last response: the
    endpoint reports it sent on a new connection, on which the left-over
    deferred send fails at once. *)
Definition resend_on_broken : tsx_op :=
  OpSend (SendEnv false PJ_EUNKNOWN PJ_SUCCESS
            [SendCb 100 true (Some (mk_tp 8 true false)) 16
               (SendEnv false PJ_EUNKNOWN PJ_EUNKNOWN [])])
    (PJ_SUCCESS, ack_msg) None.

(**  The run that [op_ok] excludes: a connection that completes a send
    after another one was deferred leaves the deferred mark behind, and the
    next send services it from inside its own callback.  When that inner send
    fails the transaction is terminated, yet the outer send reports success,
    and the handler moves the transaction from Terminated back to Completed,
    against the assertion on the order of states. *)
Theorem late_completion_moves_backwards :
  let w0 := run_ops default_cfg deferred_run busy_server in
  let w := run_ops default_cfg [OpTransportCallback 100; resend_on_broken] w0 in
  ops_ok default_cfg deferred_run busy_server /\ state (w_tsx w0) = STATE_PROCEEDING /\
  existsb critical (w_trace w0) = false /\
  AOnTsxState STATE_PROCEEDING STATE_TERMINATED EVENT_TRANSPORT_ERROR ∈ w_trace w /\
  AOnTsxState STATE_TERMINATED STATE_COMPLETED EVENT_TX_MSG ∈ w_trace w /\
  state (w_tsx w) = STATE_COMPLETED /\ existsb critical (w_trace w) = true.
Proof.
  intros w0 w; split; [repeat split; repeat constructor|].
  repeat split; try (vm_compute; reflexivity).
  all: apply list_elem_of_In; unfold w, w0; vm_compute; tauto.
Qed.
