(* ===== verification/TsxKey.v ===== *)
(** * Transaction keys

    Model of the key functions of pjsip/src/pjsip/sip_transaction.c and of the
    methods of pjsip/src/pjsip/sip_msg.c.  A key is built by writing into a
    buffer of computed size; a definition returns the size allocated with the
    bytes written, so that overruns are visible. *)

From Stdlib Require Import ZArith Lia Bool.
From stdpp Require Import base list numbers option.
From S2P Require Import Prelude TimeVal PjString TsxModel Hash.
Local Open Scope Z_scope.

(** ** Methods *)

Record pjsip_method := mk_method { m_id : method_e; m_name : pj_str }.

Definition method_num (m : method_e) : Z :=
  match m with
  | M_INVITE => 0 | M_CANCEL => 1 | M_ACK => 2 | M_BYE => 3 | M_REGISTER => 4 | M_OPTIONS => 5
  | M_OTHER => 6
  end.

(** [method_names], in the order of the enumeration. *)
Definition INVITE_NAME : pj_str := [73; 78; 86; 73; 84; 69].
Definition CANCEL_NAME : pj_str := [67; 65; 78; 67; 69; 76].
Definition ACK_NAME : pj_str := [65; 67; 75].
Definition BYE_NAME : pj_str := [66; 89; 69].
Definition REGISTER_NAME : pj_str := [82; 69; 71; 73; 83; 84; 69; 82].
Definition OPTIONS_NAME : pj_str := [79; 80; 84; 73; 79; 78; 83].
Definition method_names : list (method_e * pj_str) :=
  [(M_INVITE, INVITE_NAME); (M_CANCEL, CANCEL_NAME); (M_ACK, ACK_NAME); (M_BYE, BYE_NAME);
   (M_REGISTER, REGISTER_NAME); (M_OPTIONS, OPTIONS_NAME)].

(** The loop of [pjsip_method_init_np].  The [memcmp] is over the length of
    [str] only, against the zero-terminated name. *)
Fixpoint method_search (names : list (method_e * pj_str)) (str : pj_str) : pjsip_method :=
  match names with
  | [] => mk_method M_OTHER str
  | (id, name) :: names =>
      if (memcmp str (take (length str) (name ++ [0])) =? 0) || (pj_stricmp str name =? 0)
      then mk_method id name
      else method_search names str
  end.
Definition pjsip_method_init_np (str : pj_str) : pjsip_method := method_search method_names str.

Definition pjsip_method_cmp (m1 m2 : pjsip_method) : Z :=
  if method_num (m_id m1) =? method_num (m_id m2) then
    if negb (method_num (m_id m1) =? method_num M_OTHER) then 0
    else pj_strcmp (m_name m1) (m_name m2)
  else if method_num (m_id m1) <? method_num (m_id m2) then -1 else 1.

(** ** Keys *)

(** The headers of a received message the keys are made of. *)
Record rx_headers := mk_rxh {
  via_branch : pj_str; via_host : pj_str; via_port : Z;
  cseq_num : Z; cseq_method : pjsip_method; from_tag : pj_str; call_id : pj_str }.

Definition SEPARATOR : Z := 36.
Definition role_char (r : role_e) : Z := match r with ROLE_UAC => 99 | ROLE_UAS => 115 end.

Definition is_invite_or_ack (m : pjsip_method) : bool :=
  match m_id m with M_INVITE | M_ACK => true | _ => false end.

(** Role and method, common to both kinds of key. *)
Definition key_prefix (r : role_e) (m : pjsip_method) : pj_str :=
  [role_char r; SEPARATOR] ++ (if is_invite_or_ack m then [] else m_name m ++ [SEPARATOR]).

(** The buffer size and the bytes written.  The CSeq number and the port are
    signed integers passed as [unsigned long]. *)
Definition create_tsx_key_2543 (r : role_e) (m : pjsip_method) (h : rx_headers) : Z * pj_str :=
  let len_required :=
    9 + Z.of_nat (length (from_tag h)) + Z.of_nat (length (call_id h))
    + Z.of_nat (length (via_host h)) + 9 + 16 in
  (len_required,
   key_prefix r m ++ pj_utoa (u64 (cseq_num h)) ++ [SEPARATOR] ++ from_tag h ++ [SEPARATOR]
   ++ call_id h ++ [SEPARATOR] ++ via_host h ++ [58] ++ pj_utoa (u64 (via_port h))
   ++ [SEPARATOR; 0]).

Definition create_tsx_key_3261 (r : role_e) (m : pjsip_method) (branch : pj_str) : Z * pj_str :=
  (Z.of_nat (length branch) + Z.of_nat (length (m_name m)) + 4, key_prefix r m ++ branch).

Definition RFC3261_BRANCH_ID : pj_str := [122; 57; 104; 71; 52; 98; 75].

Definition is_rfc3261_branch (branch : pj_str) : bool :=
  pj_strnicmp branch RFC3261_BRANCH_ID 7 =? 0.

Definition pjsip_tsx_create_key (r : role_e) (m : pjsip_method) (h : rx_headers) : Z * pj_str :=
  if is_rfc3261_branch (via_branch h) then create_tsx_key_3261 r m (via_branch h)
  else create_tsx_key_2543 r m h.

(** ** Buffer bounds *)

Definition fits (k : Z * pj_str) : Prop := Z.of_nat (length k.2) <= k.1.

(** The length of what the RFC 2543 key writes beyond the copied strings. *)
Definition method_part (m : pjsip_method) : Z :=
  if is_invite_or_ack m then 0 else Z.of_nat (length (m_name m)) + 1.

(**  The key of an RFC 3261 message always fits its buffer.  The key of an
    RFC 2543 message fits if and only if the method name with its separator
    and the decimal digits of the CSeq number and of the Via port take at most
    26 bytes: the size computation leaves the method out. *)
Theorem key_buffer_bound r m branch h :
  fits (create_tsx_key_3261 r m branch) /\
  (fits (create_tsx_key_2543 r m h) <->
   method_part m + Z.of_nat (length (pj_utoa (u64 (cseq_num h))))
   + Z.of_nat (length (pj_utoa (u64 (via_port h)))) <= 26).
Proof.
  unfold fits, create_tsx_key_3261, create_tsx_key_2543, key_prefix, method_part.
  cbn [fst snd]; rewrite !length_app; destruct (is_invite_or_ack m); rewrite ?length_app;
    cbn [length app]; lia.
Qed.

(**  The RFC 2543 key of a request with a non-negative CSeq number, a valid
    port and a method name of up to ten characters fits its buffer. *)
Theorem key_2543_safe r m h :
  0 <= cseq_num h < 2 ^ 31 -> 0 <= via_port h < 65536 -> (length (m_name m) <= 10)%nat ->
  fits (create_tsx_key_2543 r m h).
Proof.
  intros Hc Hp Hm; unfold fits, create_tsx_key_2543; cbn [fst snd].
  assert (L1 : (length (pj_utoa (u64 (cseq_num h))) <= 10)%nat).
  { apply length_pj_utoa; [|lia]; unfold u64; rewrite Z.mod_small by lia; cbn; lia. }
  assert (L2 : (length (pj_utoa (u64 (via_port h))) <= 5)%nat).
  { apply length_pj_utoa; [|lia]; unfold u64; rewrite Z.mod_small by lia; cbn; lia. }
  unfold key_prefix; destruct (is_invite_or_ack m); rewrite !length_app; cbn [length app];
    rewrite ?length_app; cbn [length]; lia.
Qed.

Definition sample_headers : rx_headers :=
  mk_rxh [49] [104] 5060 1 (mk_method M_OPTIONS OPTIONS_NAME) [97] [98].

Lemma key_2543_safe_witness :
  fits (create_tsx_key_2543 ROLE_UAS (mk_method M_OPTIONS OPTIONS_NAME) sample_headers).
Proof. apply key_2543_safe; cbn; lia. Defined.

(**  The overrun is reachable: a request of a 40-character method, and an
    OPTIONS request with CSeq 4294967295 (read as -1), each write past the
    end of the key buffer. *)
Theorem key_2543_overflows :
  ~ fits (create_tsx_key_2543 ROLE_UAS (mk_method M_OTHER (replicate 40 65)) sample_headers) /\
  ~ fits (create_tsx_key_2543 ROLE_UAS (mk_method M_OPTIONS OPTIONS_NAME)
      (mk_rxh [49] [104] 5060 (s32 4294967295) (mk_method M_OPTIONS OPTIONS_NAME) [97] [98])).
Proof. split; vm_compute; intros H; by apply H. Qed.

(** ** Matching *)

Abbreviation lower_key := (fmap (M := list) pj_tolower).

Lemma tolower_sep c : pj_tolower c = SEPARATOR <-> c = SEPARATOR.
Proof. unfold pj_tolower, SEPARATOR; case_if; bool_hyps; lia. Qed.

Lemma lower_no_sep k : SEPARATOR ∉ k -> SEPARATOR ∉ lower_key k.
Proof.
  intros H (c & E & Hc)%list_elem_of_fmap; symmetry in E; apply (proj1 (tolower_sep c)) in E.
  by subst c.
Qed.

Lemma no_sep_dec k : existsb (Z.eqb SEPARATOR) k = false -> SEPARATOR ∉ k.
Proof.
  intros H Hk; apply list_elem_of_In in Hk.
  enough (existsb (Z.eqb SEPARATOR) k = true) by congruence.
  apply existsb_exists; exists SEPARATOR; by rewrite Z.eqb_refl.
Qed.

(** Splitting at the first separator is unique. *)
Lemma split_sep (x1 x2 y1 y2 : list Z) :
  SEPARATOR ∉ x1 -> SEPARATOR ∉ x2 -> x1 ++ SEPARATOR :: y1 = x2 ++ SEPARATOR :: y2 ->
  x1 = x2 /\ y1 = y2.
Proof.
  revert x2; induction x1 as [|c x1 IH]; intros [|d x2] H1 H2 E; cbn in E.
  - by injection E.
  - injection E as <- _; destruct H2; by constructor.
  - injection E as -> _; destruct H1; by constructor.
  - injection E as <- E; apply not_elem_of_cons in H1 as [_ H1], H2 as [_ H2].
    destruct (IH x2 H1 H2 E) as [-> ->]; done.
Qed.

(** INVITE and ACK belong to the same transaction; any other two methods do
    when their names agree up to case. *)
Definition same_transaction_method (m1 m2 : pjsip_method) : Prop :=
  if is_invite_or_ack m1 then is_invite_or_ack m2 = true
  else is_invite_or_ack m2 = false /\ lower_key (m_name m1) = lower_key (m_name m2).

(** The part of a key after the role. *)
Definition key_rest (m : pjsip_method) (branch : pj_str) : pj_str :=
  if is_invite_or_ack m then branch else m_name m ++ SEPARATOR :: branch.

Lemma key_3261_eq r m b : (create_tsx_key_3261 r m b).2 = role_char r :: SEPARATOR :: key_rest m b.
Proof.
  unfold create_tsx_key_3261, key_prefix, key_rest; cbn [snd].
  destruct (is_invite_or_ack m); cbn; [done|]; by rewrite <- (assoc_L (++)).
Qed.

Lemma key_rest_match m1 m2 b1 b2 :
  SEPARATOR ∉ b1 -> SEPARATOR ∉ b2 -> SEPARATOR ∉ m_name m1 -> SEPARATOR ∉ m_name m2 ->
  (lower_key (key_rest m1 b1) = lower_key (key_rest m2 b2) <->
   same_transaction_method m1 m2 /\ lower_key b1 = lower_key b2).
Proof.
  intros B1%lower_no_sep B2%lower_no_sep N1%lower_no_sep N2%lower_no_sep.
  unfold key_rest, same_transaction_method.
  assert (S : pj_tolower SEPARATOR = SEPARATOR) by done.
  destruct (is_invite_or_ack m1), (is_invite_or_ack m2); rewrite ?fmap_app, ?fmap_cons, ?S.
  - split; [by split|by intros [_ ->]].
  - split; [|by intros [[=] _]].
    intros E; exfalso; apply B1; rewrite E, elem_of_app; right; by constructor.
  - split; [|by intros [[[=] _] _]].
    intros E; exfalso; apply B2; rewrite <- E, elem_of_app; right; by constructor.
  - split; [|by intros [[_ ->] ->]].
    intros E; by apply split_sep in E as [-> ->].
Qed.

(**  Two RFC 3261 keys are equal for the transaction table, which ignores
    case, exactly when role, branch and transaction method are: an ACK finds
    its INVITE transaction, a CANCEL or any other request does not. *)
Theorem key_3261_matches r1 r2 m1 m2 b1 b2 :
  SEPARATOR ∉ b1 -> SEPARATOR ∉ b2 -> SEPARATOR ∉ m_name m1 -> SEPARATOR ∉ m_name m2 ->
  (lower_key (create_tsx_key_3261 r1 m1 b1).2 = lower_key (create_tsx_key_3261 r2 m2 b2).2 <->
   r1 = r2 /\ same_transaction_method m1 m2 /\ lower_key b1 = lower_key b2).
Proof.
  intros; rewrite !key_3261_eq, !fmap_cons, <- key_rest_match by done; split.
  - intros [= Hr E]; split; [by destruct r1, r2|done].
  - by intros [-> ->].
Qed.

Lemma key_3261_matches_witness :
  let invite := mk_method M_INVITE INVITE_NAME in
  let cancel := mk_method M_CANCEL CANCEL_NAME in
  let ack := mk_method M_ACK ACK_NAME in
  lower_key (create_tsx_key_3261 ROLE_UAS invite [122; 57]).2
  = lower_key (create_tsx_key_3261 ROLE_UAS ack [90; 57]).2 /\
  lower_key (create_tsx_key_3261 ROLE_UAS invite [122; 57]).2
  <> lower_key (create_tsx_key_3261 ROLE_UAS cancel [122; 57]).2.
Proof.
  intros invite cancel ack; split.
  - apply (key_3261_matches ROLE_UAS ROLE_UAS invite ack [122; 57] [90; 57]);
      [by apply no_sep_dec..|]; split; [reflexivity|split; reflexivity].
  - intros E; apply (key_3261_matches ROLE_UAS ROLE_UAS invite cancel [122; 57] [122; 57]) in E
      as (_ & H & _); [discriminate H|by apply no_sep_dec..].
Defined.

(**  The method parser compares only as many characters as it was given:
    a proper prefix of a known method name is taken for that method, although
    method names are whole tokens. *)
Theorem method_prefix_accepted :
  m_id (pjsip_method_init_np [73; 78; 86]) = M_INVITE /\
  m_id (pjsip_method_init_np [66]) = M_BYE /\
  m_id (pjsip_method_init_np [82; 69; 70]) = M_OTHER /\
  m_id (pjsip_method_init_np [105; 110; 118; 105; 116; 101]) = M_INVITE.
Proof. vm_compute; done. Qed.
