(* ===== verification/TsxLayer.v ===== *)
(** * The transaction layer

    Model of the layer functions of pjsip/src/pjsip/sip_transaction.c: the
    table of transactions, their creation for outgoing and incoming requests,
    the dispatch of received messages, and the shutdown of the layer.  The
    table is an interface, [KeyTable]; the hash table implements it. *)

From Stdlib Require Import ZArith Lia Bool.
From stdpp Require Import base list numbers option gmap.
From S2P Require Import Prelude TimeVal PjString Hash TsxModel TsxCore TsxAutomaton TsxSafety.
From S2P Require Import TsxFrame TsxBehaviour TsxKey.
Local Open Scope Z_scope.

Definition PJ_EBUSY : pj_status_t := 70011.
Definition PJSIP_SC_SERVICE_UNAVAILABLE : Z := 503.

(** ** The table *)

(** A table of values under keys compared without regard to case; [kt_set]
    takes the hash the caller has precomputed, and null to delete. *)
Class KeyTable (T V : Type) := {
  kt_get : T -> pj_str -> option V;
  kt_set : T -> pj_str -> Z -> option V -> T;
  kt_count : T -> Z;
  kt_values : T -> list V;
  kt_ok : T -> Prop;
  kt_map : T -> gmap pj_str V;
  kt_get_spec t k : kt_ok t -> good_key k -> kt_get t k = kt_map t !! lower_key k;
  kt_set_spec t k v : kt_ok t -> good_key k -> Forall (fun c => 0 <= c < 128) k ->
    let t' := kt_set t k (pj_hash_calc_tolower false 0 k).1 v in
    kt_ok t' /\ kt_map t' = partial_alter (fun _ => v) (lower_key k) (kt_map t);
  kt_count_spec t : kt_ok t -> kt_count t = u32 (Z.of_nat (size (kt_map t)));
  kt_values_spec t : kt_ok t -> kt_values t ≡ₚ (map_to_list (kt_map t)).*2 }.

#[global, program] Instance hash_key_table V : KeyTable (pj_hash_table_t V) V := {|
  kt_get ht k := pj_hash_get_lower ht k (Some (length k)) 0;
  kt_set ht k hval v := pj_hash_set_lower ht k (Some (length k)) hval v;
  kt_count := pj_hash_count;
  kt_values ht := hash_visit ht (length (entries ht)) (pj_hash_first ht);
  kt_ok := hash_wf true;
  kt_map := hash_map true |}.
Next Obligation.
  intros V ht k Hwf Hk; assert (E : key_bytes k (Some (length k)) = k) by apply firstn_all.
  unfold pj_hash_get_lower; rewrite (find_entry_map true ht k (Some (length k)) 0);
    rewrite ?E; auto.
Qed.
Next Obligation.
  intros V ht k v Hwf Hk Ha; assert (E : key_bytes k (Some (length k)) = k) by apply firstn_all.
  pose proof (hash_set_ok true ht k (Some (length k)) (pj_hash_calc_tolower false 0 k).1 v) as H.
  cbv zeta in H; rewrite E in H; apply H; [done..|right; by apply calc_tolower_ascii].
Qed.
Next Obligation. intros V ht Hwf; unfold pj_hash_count; by rewrite hash_map_size, (wf_count _ _ Hwf). Qed.
Next Obligation.
  intros V ht Hwf; cbv beta; rewrite hash_visit_all by (done || apply Hwf); unfold hash_map, amap.
  rewrite map_to_list_to_map by (rewrite <- list_fmap_compose; apply Hwf).
  by rewrite <- list_fmap_compose.
Qed.

(** ** The layer *)

(** A transaction is known to the table by an identifier, its address. *)
Record tsx_layer (T : Type) := mk_layer {
  htable : T; tsxs : gmap Z world; layer_mod_id : Z }.
#[global] Arguments mk_layer {T}.
#[global] Arguments htable {T}.
#[global] Arguments tsxs {T}.
#[global] Arguments layer_mod_id {T}.

Definition hashed_key (t : pjsip_transaction) : Z :=
  (pj_hash_calc_tolower false 0 (transaction_key t)).1.

Section Layer.
Context {T : Type} `{KT : !KeyTable T Z}.
Implicit Types ly : tsx_layer T.

Definition mod_tsx_layer_register_tsx (id : Z) (t : pjsip_transaction) ly
  : pj_status_t * tsx_layer T :=
  match kt_get (htable ly) (transaction_key t) with
  | Some _ => (PJ_EEXISTS, ly)
  | None => (PJ_SUCCESS, mk_layer (kt_set (htable ly) (transaction_key t) (hashed_key t) (Some id))
                           (tsxs ly) (layer_mod_id ly))
  end.

(** The effect of [mod_tsx_layer_unregister_tsx] on the table. *)
Definition layer_unregister_tsx (t : pjsip_transaction) ly : tsx_layer T :=
  if layer_mod_id ly =? -1 then ly
  else mk_layer (kt_set (htable ly) (transaction_key t) (hashed_key t) None) (tsxs ly)
         (layer_mod_id ly).

Definition pjsip_tsx_layer_get_tsx_count ly : Z := kt_count (htable ly).

(** Without the lock the result is the table's; with it, a reference to the
    group lock is taken and given back around the locking. *)
Definition pjsip_tsx_layer_find_tsx (key : pj_str) ly : option Z := kt_get (htable ly) key.

(** Run an operation of transaction [id]: its effects are appended to the
    trace, and an unregistration among them reaches the table. *)
Definition in_tsx {A} (id : Z) (p : M A) ly : option (A * tsx_layer T) :=
  w ← tsxs ly !! id;
  let '(a, w1) := p (mk_world (w_tsx w) (w_txmod w) (layer_mod_id ly) []) in
  let w2 := mk_world (w_tsx w1) (w_txmod w1) (w_mod_id w1) (w_trace w1 ++ w_trace w) in
  let ly := mk_layer (htable ly) (<[id := w2]> (tsxs ly)) (layer_mod_id ly) in
  mret (a, if existsb is_unregister (w_trace w1) then layer_unregister_tsx (w_tsx w1) ly else ly).

(** The common part of [mod_tsx_layer_on_rx_request] and
    [mod_tsx_layer_on_rx_response]: [None] would be an identifier of the table
    without a transaction. *)
Definition layer_on_rx (cfg : tsx_cfg) (r : role_e) (env : send_env) (ack : pj_status_t * tx_data)
    (h : rx_headers) (rx : rx_data) ly : option (bool * tsx_layer T) :=
  let key := (pjsip_tsx_create_key r (cseq_method h) h).2 in
  match kt_get (htable ly) key with
  | None => Some (false, ly)
  | Some id =>
      w ← tsxs ly !! id;
      if bool_decide (state (w_tsx w) = STATE_TERMINATED) then Some (false, ly)
      else
        '(_, ly) ← in_tsx id (emit AGrpAddRef;; pjsip_tsx_recv_msg cfg env ack rx;; emit AGrpDecRef) ly;
        Some (true, ly)
  end.

Definition mod_tsx_layer_on_rx_request cfg env ack h rx ly := layer_on_rx cfg ROLE_UAS env ack h rx ly.
Definition mod_tsx_layer_on_rx_response cfg env ack h rx ly := layer_on_rx cfg ROLE_UAC env ack h rx ly.

(** One round of the loop of [mod_tsx_layer_stop]. *)
Definition stop_one (id : Z) ly : tsx_layer T :=
  match tsxs ly !! id with
  | None => ly
  | Some w =>
      match in_tsx id (pjsip_tsx_terminate PJSIP_SC_SERVICE_UNAVAILABLE) ly with
      | Some (_, ly) =>
          let ly := layer_unregister_tsx (w_tsx w) ly in
          match in_tsx id tsx_shutdown ly with Some (_, ly) => ly | None => ly end
      | None => ly
      end
  end.

(** The iterator has moved on before the entry under it is removed, so the loop
    visits the values the table had at its start. *)
Definition mod_tsx_layer_stop ly : tsx_layer T := foldl (fun ly id => stop_one id ly) ly (kt_values (htable ly)).

(** [mod_tsx_layer_unload]: whether the layer destroys itself now or when the
    endpoint exits. *)
Definition mod_tsx_layer_unload ly : pj_status_t :=
  if negb (kt_count (htable ly) =? 0) then PJ_EBUSY else PJ_SUCCESS.

(** ** Creation *)

(** An outgoing request as [pjsip_tsx_create_uac2] sees it: message, method,
    CSeq number if the header is present, branch of the top Via if any. *)
Record uac_request := mk_uac_req {
  uq_tdata : tx_data; uq_method : pjsip_method; uq_cseq : option Z; uq_branch : pj_str }.

(** A new branch: the magic cookie, "Pj" and a unique string. *)
Definition new_branch (unique : pj_str) : pj_str := RFC3261_BRANCH_ID ++ [80; 106] ++ unique.

(** The status, the transaction if one was allocated, and the layer. *)
Abbreviation create_result := (pj_status_t * option world * tsx_layer T)%type.

(** What the creation functions leave of a transaction they give up: shut
    down. *)
Definition abandon_tsx (status : pj_status_t) (t : pjsip_transaction) (tr : list action) ly
  : create_result :=
  (status, Some (tsx_shutdown (mk_world t ∅ (layer_mod_id ly) tr)).2, ly).

(** The transaction as [pjsip_tsx_create_uac2] initialises it. *)
Definition uac_tsx (user : option tsx_module) (req : uac_request) (cs : Z) (br : pj_str)
  : pjsip_transaction :=
  (tsx_create user)
    <| role := ROLE_UAC |> <| method := m_id (uq_method req) |> <| cseq := cs |>
    <| branch := br |>
    <| transaction_key := (create_tsx_key_3261 ROLE_UAC (uq_method req) br).2 |>
    <| state := STATE_NULL |> <| state_handler := Some H_null |>
    <| last_tx := Some (uq_tdata req) |>.

Definition uac_branch (req : uac_request) (unique : pj_str) : pj_str :=
  if (length (uq_branch req) =? 0)%nat then new_branch unique else uq_branch req.

(** [alloc] is the status of the allocations of [tsx_create], [dest] the
    result of [pjsip_get_request_dest]: a status and whether the transport is
    reliable; [id] is the address of the new transaction. *)
Definition pjsip_tsx_create_uac2 (user : option tsx_module) (req : uac_request) (unique : pj_str)
    (alloc : pj_status_t) (dest : pj_status_t * bool) (id : Z) ly : create_result :=
  if negb (tx_is_request (uq_tdata req)) then (PJSIP_ENOTREQUESTMSG, None, ly)
  else if bool_decide (m_id (uq_method req) = M_ACK) then (PJ_EINVALIDOP, None, ly)
  else
    match uq_cseq req with
    | None => (PJSIP_EMISSINGHDR, None, ly)
    | Some cs =>
        if negb (alloc =? PJ_SUCCESS) then (alloc, None, ly)
        else
          let t := uac_tsx user req cs (uac_branch req unique) in
          let tr := [ATxAddRef (uq_tdata req); AGrpAddRef] in
          if negb (dest.1 =? PJ_SUCCESS) then abandon_tsx dest.1 t tr ly
          else
            let t := t <| is_reliable := dest.2 |> in
            let '(status, ly1) := mod_tsx_layer_register_tsx id t ly in
            if negb (status =? PJ_SUCCESS) then abandon_tsx status t tr ly1
            else
              let w := mk_world t ∅ (layer_mod_id ly) tr in
              (PJ_SUCCESS, Some w, mk_layer (htable ly1) (<[id := w]> (tsxs ly1)) (layer_mod_id ly1))
    end.

(** An incoming request as [pjsip_tsx_create_uas2] sees it; a header may be
    missing. *)
Record uas_request := mk_uas_req {
  sq_rx : rx_data; sq_method : pjsip_method; sq_headers : rx_headers;
  sq_has_cseq : bool; sq_has_via : bool }.

(** The response address: status, transport to use if any, its address length
    and whether the destination is reliable. *)
Record res_addr := mk_res_addr {
  ra_status : pj_status_t; ra_transport : option transport; ra_addr_len : Z; ra_reliable : bool }.

Definition uas_tsx (user : option tsx_module) (req : uas_request) : pjsip_transaction :=
  (tsx_create user)
    <| role := ROLE_UAS |> <| method := m_id (sq_method req) |>
    <| cseq := cseq_num (sq_headers req) |>
    <| transaction_key := (pjsip_tsx_create_key ROLE_UAS (sq_method req) (sq_headers req)).2 |>
    <| branch := via_branch (sq_headers req) |>
    <| state := STATE_NULL |> <| state_handler := Some H_null |>.

(** Keep the transport the response is to be sent on. *)
Definition uas_use_address (ra : res_addr) : M () :=
  mod_tsx (fun t => t <| res_addr_transport := ra_transport ra |> <| res_addr_len := ra_addr_len ra |>);;
  match ra_transport ra with
  | Some tp =>
      tsx_update_transport (Some tp);;
      mod_tsx (fun t => t <| addr_len := ra_addr_len ra |> <| is_reliable := tp_reliable tp |>)
  | None => mod_tsx (fun t => t <| is_reliable := ra_reliable ra |>)
  end.

Definition pjsip_tsx_create_uas2 (user : option tsx_module) (req : uas_request)
    (alloc : pj_status_t) (ra : res_addr) (id : Z) ly : create_result :=
  if negb (rx_is_request (sq_rx req)) then (PJSIP_ENOTREQUESTMSG, None, ly)
  else if bool_decide (m_id (sq_method req) = M_ACK) then (PJ_EINVALIDOP, None, ly)
  else if negb (sq_has_cseq req) then (PJSIP_EMISSINGHDR, None, ly)
  else if negb (sq_has_via req) then (PJSIP_EMISSINGHDR, None, ly)
  else if negb (pjsip_method_cmp (sq_method req) (cseq_method (sq_headers req)) =? 0)
  then (PJSIP_EINVALIDHDR, None, ly)
  else if negb (alloc =? PJ_SUCCESS) then (alloc, None, ly)
  else
    let t := uas_tsx user req in
    let tr := [AGrpAddRef] in
    if negb (ra_status ra =? PJ_SUCCESS) then abandon_tsx (ra_status ra) t tr ly
    else
      let w := (uas_use_address ra (mk_world t ∅ (layer_mod_id ly) tr)).2 in
      let '(status, ly1) := mod_tsx_layer_register_tsx id (w_tsx w) ly in
      if negb (status =? PJ_SUCCESS) then abandon_tsx status (w_tsx w) (w_trace w) ly1
      else (PJ_SUCCESS, Some w, mk_layer (htable ly1) (<[id := w]> (tsxs ly1)) (layer_mod_id ly1)).

(** ** The invariant *)

(** Keys the precomputed hash is right for. *)
Definition key_ok (k : pj_str) : Prop := good_key k /\ Forall (fun c => 0 <= c < 128) k.

(** Every entry of the table is a transaction of the layer under its own key. *)
Record layer_wf ly : Prop := {
  lw_ok : kt_ok (htable ly);
  lw_reg k id : kt_map (htable ly) !! k = Some id ->
    exists w, tsxs ly !! id = Some w /\ lower_key (transaction_key (w_tsx w)) = k /\
      key_ok (transaction_key (w_tsx w)) }.

Abbreviation registered ly := (kt_map (htable ly)).

Lemma register_ok id t ly :
  layer_wf ly -> key_ok (transaction_key t) ->
  match mod_tsx_layer_register_tsx id t ly with
  | (status, ly') =>
      tsxs ly' = tsxs ly /\ layer_mod_id ly' = layer_mod_id ly /\
      if bool_decide (is_Some (registered ly !! lower_key (transaction_key t)))
      then status = PJ_EEXISTS /\ ly' = ly
      else status = PJ_SUCCESS /\ kt_ok (htable ly') /\
           registered ly' = <[lower_key (transaction_key t) := id]> (registered ly)
  end.
Proof.
  intros Hwf [Hg Ha]; unfold mod_tsx_layer_register_tsx.
  rewrite kt_get_spec by (done || apply Hwf).
  destruct (registered ly !! _) as [id'|] eqn:E.
  - rewrite bool_decide_true by eauto; done.
  - rewrite bool_decide_false by (by intros [? [=]]); cbn; repeat split;
      by apply kt_set_spec; [apply Hwf|..].
Qed.

Lemma unregister_ok t ly :
  layer_wf ly -> key_ok (transaction_key t) ->
  let ly' := layer_unregister_tsx t ly in
  tsxs ly' = tsxs ly /\ layer_wf ly' /\
  registered ly' = if layer_mod_id ly =? -1 then registered ly
                   else delete (lower_key (transaction_key t)) (registered ly).
Proof.
  intros Hwf [Hg Ha]; unfold layer_unregister_tsx; case_if; [done|]; cbn.
  destruct (kt_set_spec (htable ly) (transaction_key t) None (lw_ok _ Hwf) Hg Ha) as [K M].
  split; [done|split; [split; [done|]|exact M]]; cbn [htable]; unfold hashed_key.
  intros k id; rewrite M; intros H; apply (lw_reg _ Hwf).
  by apply (lookup_delete_Some (registered ly)) in H as [_ H].
Qed.

(** A program that keeps the identity of a transaction keeps the layer well
    formed; the table changes only when it unregisters. *)
Lemma in_tsx_ok {A} id (p : M A) w ly :
  keeps (fun w => identity (w_tsx w)) p -> layer_wf ly -> tsxs ly !! id = Some w ->
  key_ok (transaction_key (w_tsx w)) ->
  exists a w' ly', in_tsx id p ly = Some (a, ly') /\ layer_wf ly' /\
    tsxs ly' = <[id := w']> (tsxs ly) /\ identity (w_tsx w') = identity (w_tsx w) /\
    let r := p (mk_world (w_tsx w) (w_txmod w) (layer_mod_id ly) []) in
    w_tsx w' = w_tsx r.2 /\ layer_mod_id ly' = layer_mod_id ly /\
    registered ly' =
      if existsb is_unregister (w_trace r.2) && negb (layer_mod_id ly =? -1)
      then delete (lower_key (transaction_key (w_tsx w))) (registered ly) else registered ly.
Proof.
  intros Hp Hwf Hw Hk; unfold in_tsx; rewrite Hw; cbn [mbind option_bind].
  specialize (Hp (mk_world (w_tsx w) (w_txmod w) (layer_mod_id ly) [])).
  destruct (p _) as [a w1]; cbn [snd w_tsx] in *.
  set (w2 := mk_world (w_tsx w1) (w_txmod w1) (w_mod_id w1) (w_trace w1 ++ w_trace w)).
  set (ly1 := mk_layer (htable ly) (<[id := w2]> (tsxs ly)) (layer_mod_id ly)).
  assert (Hkey : transaction_key (w_tsx w1) = transaction_key (w_tsx w)) by (injection Hp; congruence).
  assert (W1 : layer_wf ly1).
  { split; [apply Hwf|]; intros k i Hi; cbn; destruct (decide (i = id)) as [->|Hne].
    - exists w2; rewrite lookup_insert_eq; change (w_tsx w2) with (w_tsx w1); rewrite Hkey.
      split; [done|].
      destruct (lw_reg _ Hwf _ _ Hi) as (w' & Hw' & ? & ?); rewrite Hw in Hw'; by injection Hw' as ->.
    - rewrite lookup_insert_ne by done; by apply (lw_reg _ Hwf). }
  destruct (existsb is_unregister (w_trace w1)) eqn:Eu; cbn [andb].
  - destruct (unregister_ok (w_tsx w1) ly1 W1) as (E1 & E2 & E3); [by rewrite Hkey|].
    exists a, w2, (layer_unregister_tsx (w_tsx w1) ly1); repeat split; try done; try apply E2.
    + unfold layer_unregister_tsx; by case_if.
    + rewrite E3, Hkey; cbn; by destruct (layer_mod_id ly =? -1).
  - exists a, w2, ly1; done.
Qed.

(** ** Creation keeps the invariant *)

(** The outcome of a creation for [key]: registered under a free key, or
    nothing changed and what was allocated is shut down. *)
Definition creation_outcome (id : Z) (key : pj_str) ly (res : create_result) : Prop :=
  match res with
  | (status, ow, ly') =>
      layer_wf ly' /\
      if status =? PJ_SUCCESS
      then registered ly !! lower_key key = None /\
           registered ly' = <[lower_key key := id]> (registered ly) /\
           exists w, ow = Some w /\ tsxs ly' = <[id := w]> (tsxs ly) /\ tsx_wf w /\
             state (w_tsx w) = STATE_NULL /\ transaction_key (w_tsx w) = key
      else ly' = ly /\ forall w, ow = Some w -> released w
  end.

Lemma failed_outcome id key ly status :
  layer_wf ly -> status <> PJ_SUCCESS -> creation_outcome id key ly (status, None, ly).
Proof. intros Hwf Hs%Z.eqb_neq; split; [done|]; rewrite Hs; by split. Qed.

Lemma abandon_outcome id key ly status t tr :
  layer_wf ly -> status <> PJ_SUCCESS -> creation_outcome id key ly (abandon_tsx status t tr ly).
Proof.
  intros Hwf Hs%Z.eqb_neq; split; [done|]; rewrite Hs; split; [done|].
  intros w [= <-]; apply shutdown_released.
Qed.

Lemma register_outcome id w ly :
  layer_wf ly -> tsxs ly !! id = None -> key_ok (transaction_key (w_tsx w)) -> tsx_wf w ->
  state (w_tsx w) = STATE_NULL ->
  creation_outcome id (transaction_key (w_tsx w)) ly
    (let '(status, ly1) := mod_tsx_layer_register_tsx id (w_tsx w) ly in
     if negb (status =? PJ_SUCCESS) then abandon_tsx status (w_tsx w) (w_trace w) ly1
     else (PJ_SUCCESS, Some w, mk_layer (htable ly1) (<[id := w]> (tsxs ly1)) (layer_mod_id ly1))).
Proof.
  intros Hwf Hid Hk Ht Hs; pose proof (register_ok id (w_tsx w) ly Hwf Hk) as R.
  destruct (mod_tsx_layer_register_tsx id (w_tsx w) ly) as [status ly1].
  destruct R as (E1 & E2 & R); case_bool_decide as Hex.
  - destruct R as [-> ->]; by apply abandon_outcome.
  - destruct R as (-> & K & M); rewrite Z.eqb_refl; cbn [negb]; split; [split; [done|]|]; cbn [htable tsxs].
    + intros k i; rewrite M, E1; destruct (decide (i = id)) as [->|Hne].
      * intros [[<- _]|[_ Hi]]%lookup_insert_Some; [exists w; by rewrite lookup_insert_eq|].
        destruct (lw_reg _ Hwf _ _ Hi) as (w' & Hw' & _); congruence.
      * rewrite (lookup_insert_ne (tsxs ly)) by done; intros [[_ ->]|[_ Hi]]%lookup_insert_Some; [done|].
        by apply (lw_reg _ Hwf).
    + rewrite Z.eqb_refl; split; [by apply eq_None_not_Some|]; split; [done|].
      exists w; by rewrite E1.
Qed.

Lemma uas_world_ok user req ra w0 :
  w0 = mk_world (uas_tsx user req) ∅ (w_mod_id w0) [AGrpAddRef] ->
  let w := (uas_use_address ra w0).2 in
  tsx_wf w /\ state (w_tsx w) = STATE_NULL /\
  transaction_key (w_tsx w) = (pjsip_tsx_create_key ROLE_UAS (sq_method req) (sq_headers req)).2.
Proof.
  intros E w.
  assert (I : identity (w_tsx w) = identity (w_tsx w0)).
  { assert (K : keeps (fun w => identity (w_tsx w)) (uas_use_address ra)); [|apply K].
    unfold uas_use_address; solve_keeps; first [done | apply ob_update_transport]. }
  assert (Hat : at_state ROLE_UAS (m_id (sq_method req)) STATE_NULL (core w0)) by (rewrite E; by split).
  assert (Hat' : at_state ROLE_UAS (m_id (sq_method req)) STATE_NULL (core w)).
  { enough (O : ok (core w0) (uas_use_address ra)
       (fun _ => at_state ROLE_UAS (m_id (sq_method req)) STATE_NULL)) by by apply O.
    unfold uas_use_address; apply ok_bind, ok_neutral; [auto with tsx|intros _].
    destruct (ra_transport ra); [|apply ok_neutral; [auto with tsx|done]].
    apply ok_update_neutral; auto with tsx. }
  destruct Hat' as [Hr Hm Hs Hh Hf Hc]; cbn in Hr, Hm, Hs; split; [|split; [done|]].
  - unfold tsx_wf; rewrite Hr, Hm, Hs; done.
  - rewrite E in I; by injection I.
Qed.

Lemma create_uas_outcome_lemma user req alloc ra id ly :
  let key := (pjsip_tsx_create_key ROLE_UAS (sq_method req) (sq_headers req)).2 in
  layer_wf ly -> tsxs ly !! id = None -> key_ok key ->
  creation_outcome id key ly (pjsip_tsx_create_uas2 user req alloc ra id ly).
Proof.
  intros key Hwf Hid Hk; unfold pjsip_tsx_create_uas2; repeat case_if; bool_hyps;
    try (by apply failed_outcome); try (by apply abandon_outcome).
  destruct (uas_world_ok user req ra (mk_world (uas_tsx user req) ∅ (layer_mod_id ly) [AGrpAddRef]) eq_refl)
    as (Ht & Hs & Hkey).
  set (w := (uas_use_address ra _).2) in *; pose proof (register_outcome id w ly Hwf Hid) as R.
  rewrite Hkey in R; exact (R Hk Ht Hs).
Qed.

(**  Creating a server transaction: with valid headers and a free key it
    is well formed, in state Null and registered under its key, and no other
    registration changes; when anything fails the layer is unchanged and
    what had been allocated is shut down. *)
Theorem create_uas_outcome user req alloc ra id ly :
  let key := (pjsip_tsx_create_key ROLE_UAS (sq_method req) (sq_headers req)).2 in
  layer_wf ly -> tsxs ly !! id = None -> key_ok key ->
  creation_outcome id key ly (pjsip_tsx_create_uas2 user req alloc ra id ly).
Proof. apply create_uas_outcome_lemma. Qed.

(**  The same for a client transaction, under the key of its branch, which
    is generated when the request has none. *)
Theorem create_uac_outcome user req unique alloc dest id ly :
  let key := (create_tsx_key_3261 ROLE_UAC (uq_method req) (uac_branch req unique)).2 in
  layer_wf ly -> tsxs ly !! id = None -> key_ok key ->
  creation_outcome id key ly (pjsip_tsx_create_uac2 user req unique alloc dest id ly).
Proof.
  intros key Hwf Hid Hk; unfold pjsip_tsx_create_uac2.
  destruct (uq_cseq req) as [cs|]; [|repeat case_if; by apply failed_outcome].
  repeat case_if; bool_hyps; try (by apply failed_outcome); try (by apply abandon_outcome).
  set (w := mk_world ((uac_tsx user req cs (uac_branch req unique)) <| is_reliable := dest.2 |>) ∅
              (layer_mod_id ly) [ATxAddRef (uq_tdata req); AGrpAddRef]).
  apply (register_outcome id w ly Hwf Hid Hk); [|done].
  split; [|done]; by split.
Qed.

(** ** Dispatch of received messages *)

Lemma rx_dispatch cfg r env ack h rx ly :
  let key := (pjsip_tsx_create_key r (cseq_method h) h).2 in
  layer_wf ly -> good_key key ->
  match registered ly !! lower_key key with
  | None => layer_on_rx cfg r env ack h rx ly = Some (false, ly)
  | Some id =>
      exists w, tsxs ly !! id = Some w /\
        if bool_decide (state (w_tsx w) = STATE_TERMINATED)
        then layer_on_rx cfg r env ack h rx ly = Some (false, ly)
        else exists w' ly', layer_on_rx cfg r env ack h rx ly = Some (true, ly') /\
          layer_wf ly' /\ tsxs ly' = <[id := w']> (tsxs ly) /\
          w_tsx w' = w_tsx (pjsip_tsx_recv_msg cfg env ack rx
                       (mk_world (w_tsx w) (w_txmod w) (layer_mod_id ly) [AGrpAddRef])).2
  end.
Proof.
  intros key Hwf Hk; unfold layer_on_rx; fold key; rewrite kt_get_spec by (done || apply Hwf).
  destruct (registered ly !! lower_key key) as [id|] eqn:E; [|done].
  destruct (lw_reg _ Hwf _ _ E) as (w & Hw & _ & Hok); exists w; split; [done|].
  rewrite Hw; cbn [mbind option_bind]; case_bool_decide; [done|].
  set (p := (emit AGrpAddRef;; pjsip_tsx_recv_msg cfg env ack rx;; emit AGrpDecRef : M ())).
  destruct (in_tsx_ok id p w ly) as (a & w' & ly' & Ei & W & Et & _ & Ew & _); try done.
  { apply keeps_bind; [done|intros; apply keeps_bind; [apply bal_recv; apply _|done]]. }
  exists w', ly'; fold p; rewrite Ei; cbn; repeat split; try done; try apply W.
  rewrite Ew; unfold p; rewrite !bind_snd; done.
Qed.

(** The key of an RFC 3261 request depends on its branch and method only. *)
Lemma create_key_3261_eq r m h :
  is_rfc3261_branch (via_branch h) = true ->
  pjsip_tsx_create_key r m h = create_tsx_key_3261 r m (via_branch h).
Proof. intros E; unfold pjsip_tsx_create_key; by rewrite E. Qed.

(** Characters a branch parameter consists of. *)
Definition branch_ok (b : pj_str) : Prop := (SEPARATOR ∉ b) /\ Forall (fun c => 0 < c < 128) b.

Lemma nonzero_key_ok k : Forall (fun c => 0 < c < 128) k -> key_ok k.
Proof.
  intros H; split.
  - intros i Hi; apply (Forall_lookup_1 _ _ _ _ H) in Hi; lia.
  - eapply Forall_impl; [done|]; cbn; lia.
Qed.

Lemma invite_key_ok r m b :
  is_invite_or_ack m = true -> branch_ok b -> key_ok (create_tsx_key_3261 r m b).2.
Proof.
  intros Hm [_ Hb]; rewrite key_3261_eq; unfold key_rest; rewrite Hm; apply nonzero_key_ok.
  repeat constructor; [by destruct r|by destruct r|done..].
Qed.

(** C35.  Right after an INVITE with an RFC 3261 branch has created a server
    transaction, a retransmission of it and its ACK, which carry the same branch,
    are delivered to that very transaction; any other request with that branch
    (a CANCEL) finds what it would have found before. *)
Theorem invite_ack_cancel_dispatch cfg user req alloc ra id ly w ly' h env ack rx :
  let b := via_branch (sq_headers req) in
  layer_wf ly -> tsxs ly !! id = None -> is_rfc3261_branch b = true -> branch_ok b ->
  m_id (sq_method req) = M_INVITE -> SEPARATOR ∉ m_name (sq_method req) ->
  pjsip_tsx_create_uas2 user req alloc ra id ly = (PJ_SUCCESS, Some w, ly') ->
  via_branch h = b -> SEPARATOR ∉ m_name (cseq_method h) ->
  let key := (pjsip_tsx_create_key ROLE_UAS (cseq_method h) h).2 in
  if is_invite_or_ack (cseq_method h)
  then exists w' ly'', mod_tsx_layer_on_rx_request cfg env ack h rx ly' = Some (true, ly'') /\
         tsxs ly'' = <[id := w']> (tsxs ly') /\
         w_tsx w' = w_tsx (pjsip_tsx_recv_msg cfg env ack rx
                      (mk_world (w_tsx w) (w_txmod w) (layer_mod_id ly') [AGrpAddRef])).2
  else registered ly' !! lower_key key = registered ly !! lower_key key.
Proof.
  intros b Hwf Hid Hb Hbo Hm Hn Hc Hh Hnh key.
  assert (Im : is_invite_or_ack (sq_method req) = true) by (unfold is_invite_or_ack; by rewrite Hm).
  pose proof (create_uas_outcome_lemma user req alloc ra id ly Hwf Hid) as O.
  rewrite Hc, create_key_3261_eq in O by done.
  destruct (O (invite_key_ok _ _ _ Im Hbo)) as (Hwf' & _ & Er & w0 & [= <-] & Et & _ & Es & Ek).
  assert (Kh : key = (create_tsx_key_3261 ROLE_UAS (cseq_method h) b).2)
    by (unfold key; rewrite create_key_3261_eq; congruence).
  assert (Ks : is_invite_or_ack (cseq_method h) = true <->
    lower_key (create_tsx_key_3261 ROLE_UAS (sq_method req) b).2 = lower_key key).
  { rewrite Kh, key_3261_matches by (done || apply Hbo).
    unfold same_transaction_method; rewrite Im; split; [done|by intros (_ & ? & _)]. }
  destruct (is_invite_or_ack (cseq_method h)) eqn:Ih.
  - pose proof (rx_dispatch cfg ROLE_UAS env ack h rx ly' Hwf') as D.
    fold key in D; rewrite Er, <- (proj1 Ks eq_refl), lookup_insert_eq in D.
    destruct D as (w1 & Hw1 & D); [by rewrite Kh; apply invite_key_ok|].
    rewrite Et, lookup_insert_eq in Hw1; injection Hw1 as <-.
    rewrite Es, bool_decide_false in D by done.
    destruct D as (w' & ly'' & D1 & _ & D2 & D3); by exists w', ly''.
  - rewrite Er, lookup_insert_ne; [done|]; intros E; by apply Ks in E.
Qed.

(** ** Removal *)

(**  When the timer of a terminated transaction expires, the transaction
    is destroyed and its registration, and no other, leaves the table:
    messages that match its key are no longer delivered to it. *)
Theorem destroyed_leaves_table cfg env ack wh id w ly :
  layer_wf ly -> layer_mod_id ly <> -1 -> tsxs ly !! id = Some w ->
  key_ok (transaction_key (w_tsx w)) ->
  state_handler (w_tsx w) = Some H_terminated ->
  t_id (get_timer wh (w_tsx w)) <> TRANSPORT_ERR_TIMER ->
  exists w' ly', in_tsx id (run_op cfg (OpTimer env ack wh)) ly = Some ((), ly') /\
    layer_wf ly' /\ tsxs ly' = <[id := w']> (tsxs ly) /\ state (w_tsx w') = STATE_DESTROYED /\
    registered ly' = delete (lower_key (transaction_key (w_tsx w))) (registered ly).
Proof.
  intros Hwf Hmod Hw Hk Hh Ht.
  destruct (in_tsx_ok id (run_op cfg (OpTimer env ack wh)) w ly) as
    ([] & w' & ly' & E & W & Et & _ & Ew & _ & Er); try done; [by apply bal_run_op; apply _|].
  exists w', ly'; split; [done|split; [done|split; [done|]]].
  set (w0 := mk_world (w_tsx w) (w_txmod w) (layer_mod_id ly) []) in *.
  destruct (terminated_expires cfg env ack wh w0 Hh Ht) as [[Hs Hu] _].
  rewrite Ew; split; [exact Hs|]; rewrite Er; unfold unregistered in Hu.
  assert (Em : w_mod_id (run_op cfg (OpTimer env ack wh) w0).2 = layer_mod_id ly)
    by (by rewrite (bal_run_op w_mod_id)).
  cbn [run_op] in Em, Er |- *; rewrite Em in Hu.
  apply Z.eqb_neq in Hmod; rewrite Hmod in Hu |- *; cbn [orb negb] in Hu |- *.
  by rewrite Hu.
Qed.

(** One round of the shutdown loop. *)
Lemma stop_one_ok id w ly :
  layer_wf ly -> layer_mod_id ly <> -1 -> tsxs ly !! id = Some w ->
  key_ok (transaction_key (w_tsx w)) ->
  let ly' := stop_one id ly in
  layer_wf ly' /\ layer_mod_id ly' = layer_mod_id ly /\
  (exists w', tsxs ly' = <[id := w']> (tsxs ly) /\ identity (w_tsx w') = identity (w_tsx w)) /\
  (forall k i, registered ly' !! k = Some i -> registered ly !! k = Some i /\ i <> id).
Proof.
  intros Hwf Hmod Hw Hk; cbv zeta; unfold stop_one; rewrite Hw.
  destruct (in_tsx_ok id (pjsip_tsx_terminate PJSIP_SC_SERVICE_UNAVAILABLE) w ly) as
    (a & w1 & ly1 & -> & W1 & T1 & I1 & _ & M1 & R1); try done; [by apply bal_terminate; apply _|].
  destruct (unregister_ok (w_tsx w) ly1 W1 Hk) as (T2 & W2 & R2).
  set (ly2 := layer_unregister_tsx (w_tsx w) ly1) in *.
  assert (M2 : layer_mod_id ly2 = layer_mod_id ly1) by (unfold ly2, layer_unregister_tsx; by case_if).
  assert (Hk1 : transaction_key (w_tsx w1) = transaction_key (w_tsx w)) by (injection I1; congruence).
  destruct (in_tsx_ok id tsx_shutdown w1 ly2) as
    (b & w3 & ly3 & -> & W3 & T3 & I3 & _ & M3 & R3); try done;
    [by apply bal_shutdown; apply _|by rewrite T2, T1, lookup_insert_eq|by rewrite Hk1|].
  split; [done|split; [congruence|split]].
  - exists w3; rewrite T3, T2, T1, insert_insert_eq; split; [done|congruence].
  - intros k i Hi.
    assert (Hi2 : registered ly2 !! k = Some i).
    { revert Hi; rewrite R3; case_if; [intros [_ ?]%lookup_delete_Some|]; done. }
    rewrite R2, M1 in Hi2; apply Z.eqb_neq in Hmod; rewrite Hmod in Hi2.
    apply lookup_delete_Some in Hi2 as [Hne Hi1].
    assert (Hi0 : registered ly !! k = Some i).
    { revert Hi1; rewrite R1; case_if; [intros [_ ?]%lookup_delete_Some|]; done. }
    split; [done|]; intros ->; apply Hne.
    destruct (lw_reg _ Hwf _ _ Hi0) as (w' & Hw' & Ek & _); congruence.
Qed.

Lemma stop_loop_ok ids : forall ly,
  layer_wf ly -> layer_mod_id ly <> -1 ->
  Forall (fun id => exists w, tsxs ly !! id = Some w /\ key_ok (transaction_key (w_tsx w))) ids ->
  let ly' := foldl (fun ly id => stop_one id ly) ly ids in
  layer_wf ly' /\ forall k i, registered ly' !! k = Some i -> registered ly !! k = Some i /\ i ∉ ids.
Proof.
  induction ids as [|id ids IH]; intros ly Hwf Hmod Hids; cbn [foldl].
  - split; [done|]; intros k i Hi; split; [done|apply not_elem_of_nil].
  - apply Forall_cons in Hids as [(w & Hw & Hk) Hids].
    destruct (stop_one_ok id w ly Hwf Hmod Hw Hk) as (W & M & (w' & Ew & Ei) & R).
    destruct (IH (stop_one id ly)) as [W' R']; [done|congruence| |].
    + eapply Forall_impl; [done|]; intros i (wi & Hwi & Hki); cbn.
      rewrite Ew; destruct (decide (i = id)) as [->|Hne].
      * exists w'; rewrite lookup_insert_eq; split; [done|].
        rewrite Hw in Hwi; injection Hwi as <-.
        assert (E : transaction_key (w_tsx w') = transaction_key (w_tsx w)) by (injection Ei; congruence).
        by rewrite E.
      * exists wi; by rewrite lookup_insert_ne.
    + split; [done|]; intros k i Hi; destruct (R' k i Hi) as [Hi1 Hi2].
      destruct (R k i Hi1) as [Hi3 Hi4]; split; [done|]; by apply not_elem_of_cons.
Qed.

(**  Stopping the layer terminates and unregisters every transaction: the
    table is empty afterwards, and the unload that follows succeeds. *)
Theorem stop_empties_table ly :
  layer_wf ly -> layer_mod_id ly <> -1 ->
  let ly' := mod_tsx_layer_stop ly in
  layer_wf ly' /\ registered ly' = ∅ /\ mod_tsx_layer_unload ly' = PJ_SUCCESS /\
  pjsip_tsx_layer_get_tsx_count ly' = 0.
Proof.
  intros Hwf Hmod ly'; unfold ly', mod_tsx_layer_stop.
  assert (Hids : forall id, id ∈ kt_values (htable ly) <-> exists k, registered ly !! k = Some id).
  { intros id; rewrite kt_values_spec by apply Hwf; rewrite list_elem_of_fmap; split.
    - intros ((k & i) & -> & Hi); exists k; by apply elem_of_map_to_list.
    - intros (k & Hi); exists (k, id); split; [done|by apply elem_of_map_to_list]. }
  destruct (stop_loop_ok (kt_values (htable ly)) ly Hwf Hmod) as [W R].
  { apply Forall_forall; intros id (k & Hi)%Hids.
    destruct (lw_reg _ Hwf _ _ Hi) as (w & ? & _ & ?); eauto. }
  set (ly2 := foldl _ ly _) in *.
  assert (E : registered ly2 = ∅).
  { apply map_eq; intros k; rewrite lookup_empty; destruct (registered ly2 !! k) as [i|] eqn:Ei; [|done].
    destruct (R k i Ei) as [Hi Hn]; destruct Hn; apply Hids; eauto. }
  assert (Ec : kt_count (htable ly2) = 0) by (rewrite kt_count_spec, E by apply W; done).
  split; [done|split; [done|]]; unfold mod_tsx_layer_unload, pjsip_tsx_layer_get_tsx_count.
  by rewrite Ec.
Qed.
End Layer.

(** ** A concrete layer *)

Definition empty_layer : tsx_layer (pj_hash_table_t Z) := mk_layer (pj_hash_create 31) ∅ 0.

Lemma empty_layer_wf : layer_wf empty_layer.
Proof.
  destruct (pj_hash_create_ok (V := Z) true 31) as [W E]; split; [exact W|].
  intros k id H; change (hash_map true (pj_hash_create (V := Z) 31) !! k = Some id) in H.
  rewrite E, lookup_empty in H; discriminate H.
Qed.

Definition sample_branch : pj_str := RFC3261_BRANCH_ID ++ [80; 106; 49].
Definition sample_rx_headers (m : pjsip_method) : rx_headers :=
  mk_rxh sample_branch [104] 5060 1 m [97] [98].
Definition invite_method : pjsip_method := mk_method M_INVITE INVITE_NAME.
Definition ack_method : pjsip_method := mk_method M_ACK ACK_NAME.
Definition sample_uas_request : uas_request :=
  mk_uas_req (mk_rx 1 true M_INVITE 0 []) invite_method (sample_rx_headers invite_method) true true.
Definition sample_addr : res_addr := mk_res_addr PJ_SUCCESS (Some (mk_tp 7 false false)) 16 false.
Definition sample_creation := pjsip_tsx_create_uas2 None sample_uas_request PJ_SUCCESS sample_addr 5 empty_layer.
Definition sample_layer : tsx_layer (pj_hash_table_t Z) := sample_creation.2.

Lemma sample_branch_ok : branch_ok sample_branch.
Proof. split; [by apply no_sep_dec|]; repeat constructor. Qed.

Lemma sample_key_ok :
  key_ok (pjsip_tsx_create_key ROLE_UAS invite_method (sample_rx_headers invite_method)).2.
Proof. apply (invite_key_ok ROLE_UAS invite_method sample_branch eq_refl sample_branch_ok). Qed.

Lemma create_uas_outcome_witness :
  creation_outcome 5 (pjsip_tsx_create_key ROLE_UAS invite_method (sample_rx_headers invite_method)).2
    empty_layer sample_creation /\ sample_creation.1.1 = PJ_SUCCESS.
Proof.
  split; [|vm_compute; reflexivity].
  apply (create_uas_outcome None sample_uas_request PJ_SUCCESS sample_addr 5 empty_layer
    empty_layer_wf eq_refl sample_key_ok).
Defined.

Definition sample_uac_request : uac_request :=
  mk_uac_req invite_msg invite_method (Some 1) sample_branch.

Lemma create_uac_outcome_witness :
  creation_outcome 5 (create_tsx_key_3261 ROLE_UAC invite_method sample_branch).2 empty_layer
    (pjsip_tsx_create_uac2 None sample_uac_request [] PJ_SUCCESS (PJ_SUCCESS, false) 5 empty_layer).
Proof.
  apply (create_uac_outcome None sample_uac_request [] PJ_SUCCESS (PJ_SUCCESS, false) 5 empty_layer
    empty_layer_wf eq_refl (invite_key_ok ROLE_UAC invite_method sample_branch eq_refl sample_branch_ok)).
Defined.

Lemma invite_ack_cancel_dispatch_witness :
  let w := default (fresh_world (null_tsx ROLE_UAS M_INVITE None)) sample_creation.1.2 in
  let ack := (PJ_SUCCESS, ack_msg) in
  exists w' ly'',
    mod_tsx_layer_on_rx_request default_cfg quiet_env ack (sample_rx_headers ack_method)
      (mk_rx 2 true M_ACK 0 []) sample_layer = Some (true, ly'') /\
    tsxs ly'' = <[5 := w']> (tsxs sample_layer) /\
    w_tsx w' = w_tsx (pjsip_tsx_recv_msg default_cfg quiet_env ack (mk_rx 2 true M_ACK 0 [])
                 (mk_world (w_tsx w) (w_txmod w) 0 [AGrpAddRef])).2.
Proof.
  intros w ack.
  exact (invite_ack_cancel_dispatch default_cfg None sample_uas_request PJ_SUCCESS sample_addr 5
    empty_layer w sample_layer (sample_rx_headers ack_method) quiet_env ack (mk_rx 2 true M_ACK 0 [])
    empty_layer_wf eq_refl eq_refl sample_branch_ok eq_refl
    (no_sep_dec INVITE_NAME eq_refl) eq_refl eq_refl (no_sep_dec ACK_NAME eq_refl)).
Defined.

Lemma sample_layer_wf : layer_wf sample_layer.
Proof.
  exact (proj1 (create_uas_outcome_lemma None sample_uas_request PJ_SUCCESS sample_addr 5 empty_layer
    empty_layer_wf eq_refl sample_key_ok)).
Qed.

Lemma stop_empties_table_witness :
  pjsip_tsx_layer_get_tsx_count sample_layer = 1 /\
  pjsip_tsx_layer_get_tsx_count (mod_tsx_layer_stop sample_layer) = 0.
Proof.
  split; [vm_compute; reflexivity|].
  apply (stop_empties_table sample_layer sample_layer_wf); vm_compute; discriminate.
Defined.

(** The layer after the user has terminated the transaction. *)
Definition terminated_layer : tsx_layer (pj_hash_table_t Z) :=
  match in_tsx 5 (run_op default_cfg (OpTerminate 500)) sample_layer with
  | Some (_, ly) => ly
  | None => sample_layer
  end.
Definition terminated_world : world :=
  default (fresh_world (null_tsx ROLE_UAS M_INVITE None)) (tsxs terminated_layer !! 5).

Lemma terminated_layer_wf : layer_wf terminated_layer.
Proof.
  destruct (in_tsx_ok 5 (run_op default_cfg (OpTerminate 500))
    (default (fresh_world (null_tsx ROLE_UAS M_INVITE None)) (tsxs sample_layer !! 5)) sample_layer)
    as (a & w & ly & E & W & _).
  - apply bal_run_op; apply _.
  - apply sample_layer_wf.
  - vm_compute; reflexivity.
  - apply sample_key_ok.
  - unfold terminated_layer; by rewrite E.
Qed.

Lemma destroyed_leaves_table_witness :
  (state (w_tsx terminated_world) = STATE_TERMINATED /\
   pjsip_tsx_layer_get_tsx_count terminated_layer = 1) /\
  exists w' ly',
    in_tsx 5 (run_op default_cfg (OpTimer quiet_env (PJ_SUCCESS, ack_msg) TimeoutTimer))
      terminated_layer = Some ((), ly') /\
    layer_wf ly' /\ tsxs ly' = <[5 := w']> (tsxs terminated_layer) /\
    state (w_tsx w') = STATE_DESTROYED /\
    kt_map (htable ly') = delete (lower_key (transaction_key (w_tsx terminated_world)))
                            (kt_map (htable terminated_layer)).
Proof.
  split; [vm_compute; split; reflexivity|].
  apply (destroyed_leaves_table default_cfg quiet_env (PJ_SUCCESS, ack_msg) TimeoutTimer 5
           terminated_world terminated_layer).
  - apply terminated_layer_wf.
  - vm_compute; discriminate.
  - vm_compute; reflexivity.
  - apply sample_key_ok.
  - vm_compute; reflexivity.
  - vm_compute; discriminate.
Defined.
