(* ===== verification/TsxRefs.v ===== *)
(** * SIP transactions: transport references

    Every transport a transaction refers to is reference counted.  From its
    creation and over any run, and for each transport, the references taken
    minus the references released are one while the transaction uses the
    transport and zero otherwise: none is leaked and none is released twice. *)

From Stdlib Require Import ZArith Lia Bool.
From stdpp Require Import base list numbers option gmap.
From S2P Require Import Prelude TimeVal TsxModel TsxCore TsxAutomaton TsxSafety TsxFrame TsxKey TsxLayer.
Local Open Scope Z_scope.

(** References to transport [i] taken minus released, in a trace. *)
Definition tp_delta (i : Z) (a : action) : Z :=
  match a with
  | ATpAddRef p => if tp_id p =? i then 1 else 0
  | ATpDecRef p => if tp_id p =? i then -1 else 0
  | _ => 0
  end.
Definition tp_refs (i : Z) (tr : list action) : Z := foldr (fun a n => tp_delta i a + n) 0 tr.

Definition uses (i : Z) (t : pjsip_transaction) : Z :=
  match tsx_transport t with Some p => if tp_id p =? i then 1 else 0 | None => 0 end.

(** The imbalance, which every operation leaves alone. *)
Definition tp_excess (i : Z) (w : world) : Z := tp_refs i (w_trace w) - uses i (w_tsx w).

Section Balance.
Context (i : Z).
Abbreviation balanced := (keeps (tp_excess i)).

Lemma excess_emit a : tp_delta i a = 0 -> balanced (emit a).
Proof.
  intros H w; change (tp_delta i a + tp_refs i (w_trace w) - uses i (w_tsx w) = tp_excess i w).
  rewrite H; unfold tp_excess; lia.
Qed.
Lemma excess_mod f : (forall t, tsx_transport (f t) = tsx_transport t) -> balanced (mod_tsx f).
Proof. intros H w; unfold tp_excess, mod_tsx, uses; cbn; by rewrite H. Qed.

Lemma excess_tp_state b st : balanced (tsx_tp_state_callback b st).
Proof.
  unfold tsx_tp_state_callback, tsx_cancel_timer, tsx_schedule_timer, pj_assert; solve_keeps;
    first [by apply excess_mod | by apply excess_emit].
Qed.

(** Replacing the transport moves the reference. *)
Lemma release_transport_none w : tsx_transport (w_tsx (release_transport w).2) = None.
Proof.
  unfold release_transport, mbind, M_bind, get_tsx.
  destruct (tsx_transport (w_tsx w)) eqn:E; [done|exact E].
Qed.

Lemma excess_release : balanced release_transport.
Proof.
  intros w; unfold release_transport, mbind, M_bind, get_tsx.
  destruct (tsx_transport (w_tsx w)) as [p|] eqn:E; [|done].
  change (tp_delta i (ATpDecRef p) + tp_refs i (w_trace w) - 0 = tp_excess i w).
  unfold tp_excess, uses, tp_delta; rewrite E; destruct (tp_id p =? i); lia.
Qed.

Lemma excess_attach p w :
  tsx_transport (w_tsx w) = None -> tp_excess i (attach_transport p w).2 = tp_excess i w.
Proof.
  intros E; unfold attach_transport, mbind at 1 2, M_bind.
  match goal with |- context [mod_tsx ?f w] => destruct (mod_tsx f w) as [? w1] eqn:E1 end.
  match goal with |- context [emit ?a w1] => destruct (emit a w1) as [? w2] eqn:E2 end.
  rewrite excess_tp_state; injection E1 as _ <-; injection E2 as _ <-.
  change (tp_delta i (ATpAddRef p) + tp_refs i (w_trace w) - tp_delta i (ATpAddRef p) = tp_excess i w).
  unfold tp_excess, uses; rewrite E; lia.
Qed.

Lemma excess_update_transport tp : balanced (tsx_update_transport tp).
Proof.
  intros w; unfold tsx_update_transport, mbind, M_bind.
  pose proof (release_transport_none w) as N; pose proof (excess_release w) as B.
  destruct (release_transport w) as [? w1]; cbn in N, B; destruct tp as [p|]; [|done].
  by rewrite excess_attach.
Qed.

#[global] Instance tp_excess_observer : Observer (tp_excess i).
Proof.
  split.
  - intros a Ha; apply excess_emit; by destruct a.
  - intros f Hf; apply excess_mod; apply Hf.
  - done.
  - apply excess_update_transport.
Qed.
End Balance.

(** ** Creation *)

Section Creation.
Context {T : Type} `{KT : !KeyTable T Z}.
Implicit Types ly : tsx_layer T.

(** A transaction that one of the two creation functions has made, for a client
    or a server, also one it gave up. *)
Definition created_tsx (w : world) : Prop :=
  (exists user req unique alloc dest id ly st ly',
     pjsip_tsx_create_uac2 user req unique alloc dest id ly = (st, Some w, ly'))
  \/ (exists user req alloc ra id ly st ly',
        pjsip_tsx_create_uas2 user req alloc ra id ly = (st, Some w, ly')).

Lemma abandon_balanced i st t tr ly st' w ly' :
  tp_refs i tr = uses i t -> abandon_tsx st t tr ly = (st', Some w, ly') -> tp_excess i w = 0.
Proof.
  intros H [= _ <- _]. rewrite (bal_shutdown (tp_excess i)). unfold tp_excess. cbn [w_tsx w_trace]. lia.
Qed.

Lemma excess_use_address i ra : keeps (tp_excess i) (uas_use_address ra).
Proof. unfold uas_use_address; solve_keeps; first [by apply excess_mod | apply excess_update_transport]. Qed.

Lemma created_balanced i w : created_tsx w -> tp_excess i w = 0.
Proof.
  intros [(user & req & unique & alloc & dest & id & ly & st & ly' & E)|(user & req & alloc & ra & id & ly & st & ly' & E)].
  - unfold pjsip_tsx_create_uac2 in E. repeat case_match; try discriminate; simplify_eq;
      try done; (eapply abandon_balanced; [|exact E]; reflexivity).
  - unfold pjsip_tsx_create_uas2 in E.
    pose proof (excess_use_address i ra (mk_world (uas_tsx user req) ∅ (layer_mod_id ly) [AGrpAddRef])) as B.
    change (tp_excess i (mk_world (uas_tsx user req) ∅ (layer_mod_id ly) [AGrpAddRef])) with 0 in B.
    cbv zeta in E. set (w1 := (uas_use_address ra _).2) in *.
    repeat case_match; try discriminate; simplify_eq; try done;
      (eapply abandon_balanced; [|exact E]); [reflexivity|unfold tp_excess in B; lia].
Qed.
End Creation.

(** C39.  From its creation, as a client or as a server transaction (to which the
    transport of the request may be attached at once), and over any sequence of
    operations whatever, the references to a transport taken minus those
    released are exactly one when the transaction uses that transport and zero
    when it does not. *)
Theorem tsx_transport_refs {T} `{!KeyTable T Z} cfg w0 ops i :
  created_tsx (T := T) w0 ->
  let w := run_ops cfg ops w0 in
  tp_refs i (w_trace w)
  = match tsx_transport (w_tsx w) with
    | Some p => if tp_id p =? i then 1 else 0
    | None => 0
    end.
Proof.
  intros Hc w; pose proof (created_balanced i w0 Hc) as E0.
  pose proof (observer_run (tp_excess i) cfg ops w0) as E; fold w in E.
  rewrite E0 in E; unfold tp_excess, uses in E; lia.
Qed.

(** A server transaction over transport 7: created, answered, destroyed. *)
Definition server_run : list tsx_op :=
  let ack := (PJ_SUCCESS, ack_msg) in
  [OpRecv quiet_env ack (mk_rx 1 true M_INVITE 0 []); OpSend quiet_env ack (Some (mk_tx 2 false 200 [] M_INVITE));
   OpTimer quiet_env ack TimeoutTimer; OpTimer quiet_env ack TimeoutTimer].
Definition server_creation := pjsip_tsx_create_uas2 None sample_uas_request PJ_SUCCESS
  (mk_res_addr PJ_SUCCESS (Some (mk_tp 7 true false)) 16 true) 5 empty_layer.
Definition server_world : world := match server_creation.1.2 with Some w => w | None => fresh_world (null_tsx ROLE_UAS M_INVITE None) end.

Lemma tsx_transport_refs_witness :
  (tsx_transport (w_tsx server_world) = Some (mk_tp 7 true false) /\ tp_refs 7 (w_trace server_world) = 1) /\
  tp_refs 7 (w_trace (run_ops default_cfg server_run server_world)) = 0.
Proof.
  split; [vm_compute; done|].
  rewrite (tsx_transport_refs default_cfg server_world server_run 7).
  - vm_compute; reflexivity.
  - right. exists None, sample_uas_request, PJ_SUCCESS, (mk_res_addr PJ_SUCCESS (Some (mk_tp 7 true false)) 16 true), 5, empty_layer, server_creation.1.1, server_creation.2.
    vm_compute; reflexivity.
Defined.
