(* ===== verification/SipAuth.v ===== *)
(** * SIP digest authentication

    Model of [pjsip/src/pjsip/sip_auth_client.c] and [sip_auth_server.c], in the
    default configuration (qop supported, no caching of headers, no header sent
    ahead of a challenge, no AKA).  The headers of a message are a list; of the
    union of credentials the digest member is kept, of a URI what
    [pjsip_uri_print] writes into a buffer of a given size, or -1.  An operation
    that would dereference a null pointer or read memory nobody wrote has no
    result ([None]); the failing [pj_assert]s are followed by the code behind
    them, and the checks of arguments for null are left out.  Copies of strings,
    credentials and headers are values.  The random values,
    the unique strings and the callback of AKA credentials are parameters of the
    sections. *)

From Stdlib Require Import ZArith Lia Bool String.
From stdpp Require Import base list numbers option.
From S2P Require Import Prelude.
From S2P Require Import PjString.
From S2P Require Import Words.
From S2P Require Import Md5.
Local Open Scope Z_scope.

(** ** Data *)

Definition PJSIP_ENOTREQUESTMSG : pj_status_t := 171021.
Definition PJSIP_ENOTRESPONSEMSG : pj_status_t := 171022.
Definition PJSIP_EINVALIDSTATUS : pj_status_t := 171030.
Definition PJSIP_EURITOOLONG : pj_status_t := 171043.
Definition PJSIP_EFAILEDCREDENTIAL : pj_status_t := 171100.
Definition PJSIP_ENOCREDENTIAL : pj_status_t := 171101.
Definition PJSIP_EINVALIDALGORITHM : pj_status_t := 171102.
Definition PJSIP_EINVALIDQOP : pj_status_t := 171103.
Definition PJSIP_EINVALIDAUTHSCHEME : pj_status_t := 171104.
Definition PJSIP_EAUTHNOAUTH : pj_status_t := 171106.
Definition PJSIP_EAUTHINVALIDDIGEST : pj_status_t := 171110.
Definition PJSIP_EAUTHSTALECOUNT : pj_status_t := 171111.
Definition PJSIP_EAUTHINAKACRED : pj_status_t := 171113.
Definition PJSIP_EAUTHNOCHAL : pj_status_t := 171114.
Definition PJSIP_SC_FORBIDDEN : Z := 403.

Definition PJSIP_CRED_DATA_PLAIN_PASSWD : Z := 0.
Definition PJSIP_CRED_DATA_DIGEST : Z := 1.
Definition PJSIP_CRED_DATA_EXT_AKA : Z := 16.
Definition PASSWD_MASK : Z := 0x000F.
Definition EXT_MASK : Z := 0x00F0.
Definition PJSIP_MD5STRLEN : nat := 32.
Definition PJSIP_MAX_STALE_COUNT : Z := 3.
Definition PJSIP_MAX_URL_SIZE : nat := 256.
Definition PJSIP_AUTH_SRV_IS_PROXY : Z := 1.

Definition pjsip_DIGEST_STR : pj_str := cstr "Digest".
Definition pjsip_MD5_STR : pj_str := cstr "md5".
Definition pjsip_AKAv1_MD5_STR : pj_str := cstr "AKAv1-MD5".
Definition pjsip_AUTH_STR : pj_str := cstr "auth".

Record pjsip_cred_info := mk_cred_info {
  ci_realm : pj_str; ci_scheme : pj_str; ci_username : pj_str; ci_data_type : Z; ci_data : pj_str;
  ci_aka_k : pj_str; ci_aka_op : pj_str; ci_aka_amf : pj_str
}.

Record pjsip_digest_challenge := mk_challenge {
  dc_realm : pj_str; dc_domain : pj_str; dc_nonce : pj_str; dc_opaque : pj_str; dc_stale : Z;
  dc_algorithm : pj_str; dc_qop : pj_str
}.

Record pjsip_digest_credential := mk_credential {
  cr_realm : pj_str; cr_username : pj_str; cr_nonce : pj_str; cr_uri : pj_str; cr_response : pj_str;
  cr_algorithm : pj_str; cr_cnonce : pj_str; cr_opaque : pj_str; cr_qop : pj_str; cr_nc : pj_str
}.

(** The type of the header is a flag: it tells Proxy-Authenticate from
    WWW-Authenticate and Proxy-Authorization from Authorization. *)
Record pjsip_www_authenticate_hdr := mk_www { ww_proxy : bool; ww_scheme : pj_str; ww_digest : pjsip_digest_challenge }.
Record pjsip_authorization_hdr := mk_authz { az_proxy : bool; az_scheme : pj_str; az_digest : pjsip_digest_credential }.

(** [pjsip_uri_print] of the URI, by the size of the buffer. *)
Definition sip_uri : Type := nat -> option pj_str.

Inductive sip_hdr :=
  | HdrAuthorization (a : pjsip_authorization_hdr)
  | HdrAuthenticate (w : pjsip_www_authenticate_hdr)
  | HdrRoute (u : sip_uri)
  | HdrVia (branch_param : pj_str)
  | HdrOther (id : Z).

Inductive pjsip_auth_qop_type := QOP_NONE | QOP_AUTH | QOP_AUTH_INT | QOP_UNKNOWN.

Record pjsip_cached_auth := mk_cached {
  ca_realm : pj_str; ca_is_proxy : bool; ca_qop_value : pjsip_auth_qop_type; ca_stale_cnt : Z; ca_nc : Z;
  ca_cnonce : pj_str; ca_last_chal : option pjsip_www_authenticate_hdr
}.

Record pjsip_auth_clt_pref := mk_pref { pf_initial_auth : bool; pf_algorithm : pj_str }.

(** An element of [cred_info] that was not written is [None]; [cs_guid] counts
    the unique strings made so far. *)
Record pjsip_auth_clt_sess := mk_sess {
  cs_pref : pjsip_auth_clt_pref; cs_cred_cnt : nat; cs_cred_info : list (option pjsip_cred_info);
  cs_cached_auth : list pjsip_cached_auth; cs_guid : nat
}.

(** An outgoing message; [td_encoded] is whether it has been printed. *)
Record pjsip_tx_data := mk_tdata {
  td_is_request : bool; td_method : pj_str; td_uri : sip_uri; td_hdrs : list sip_hdr;
  td_saved_strict_route : option sip_uri; td_auth_retry : bool; td_encoded : bool; td_refs : Z
}.

(** An incoming message: a request with its method, or a response with its code. *)
Record pjsip_rx_data := mk_rdata { rd_is_request : bool; rd_method : pj_str; rd_code : Z; rd_hdrs : list sip_hdr }.

(** ** Credentials and preferences *)

Definition has_ext (c : pjsip_cred_info) : bool := Z.land (ci_data_type c) EXT_MASK =? PJSIP_CRED_DATA_EXT_AKA.

(** The first of some comparisons that is not zero. *)
Fixpoint first_difference (rs : list Z) : Z :=
  match rs with [] => 0 | r :: rs => if r =? 0 then first_difference rs else r end.

Definition pjsip_cred_info_cmp (c1 c2 : pjsip_cred_info) : Z :=
  first_difference (
    [pj_strcmp (ci_realm c1) (ci_realm c2); pj_strcmp (ci_scheme c1) (ci_scheme c2);
     pj_strcmp (ci_username c1) (ci_username c2); pj_strcmp (ci_data c1) (ci_data c2);
     (if ci_data_type c1 =? ci_data_type c2 then 0 else 1)]
    ++ (if has_ext c1 then
          [pj_strcmp (ci_aka_k c1) (ci_aka_k c2); pj_strcmp (ci_aka_op c1) (ci_aka_op c2);
           pj_strcmp (ci_aka_amf c1) (ci_aka_amf c2)]
        else [])).

(** ** Digests *)

Definition pj_hex_digits : pj_str := cstr "0123456789abcdef".
Definition pj_val_to_hex_digit (value : Z) : pj_str :=
  [nth (Z.to_nat (Z.shiftr (Z.land value 0xF0) 4)) pj_hex_digits 0;
   nth (Z.to_nat (Z.land value 0x0F)) pj_hex_digits 0].

Definition digest2str (digest : list Z) : pj_str := concat (map pj_val_to_hex_digit (take 16 digest)).

(** [pj_create_random_string(str, len)], from the values of [pj_rand] from the
    [i]-th on: four bytes of a value for each eight characters, and a value for
    each character left. *)
Section Random.
Context (rand : nat -> Z).

Definition rand_chars (i : nat) : pj_str :=
  let val := u32 (rand i) in
  concat (map (fun k => pj_val_to_hex_digit (Z.shiftr (Z.land val (Z.shiftl 255 k)) k)) [24; 16; 8; 0]).
Definition pj_create_random_string (i len : nat) : pj_str :=
  concat (map rand_chars (seq i (len / 8)))
  ++ map (fun j => nth (Z.to_nat (Z.land (u32 (rand j)) 0x0F)) pj_hex_digits 0) (seq (i + len / 8) (len mod 8)).
End Random.

Section Digest.
(** The byte order of the machine and what the memory of the context holds. *)
Context (e : endianness) (pms : pj_md5_context).

(** [pj_md5_init], the calls of [MD5_APPEND], [pj_md5_final] and [digest2str]. *)
Definition md5_hex (pms : pj_md5_context) (pieces : list pj_str) : pj_md5_context * pj_str :=
  let '(pms, digest) := pj_md5_final e (fold_left (pj_md5_update e) pieces (pj_md5_init pms)) in
  (pms, digest2str digest).

Definition colon : pj_str := [58].

Definition create_ha1 (realm : pj_str) (cred_info : pjsip_cred_info) : option (pj_md5_context * pj_str) :=
  if Z.land (ci_data_type cred_info) PASSWD_MASK =? PJSIP_CRED_DATA_PLAIN_PASSWD then
    Some (md5_hex pms [ci_username cred_info; colon; realm; colon; ci_data cred_info])
  else if Z.land (ci_data_type cred_info) PASSWD_MASK =? PJSIP_CRED_DATA_DIGEST then
    if (length (ci_data cred_info) =? PJSIP_MD5STRLEN)%nat then Some (pms, ci_data cred_info) else None
  else None.

(** The pieces between the nonce and [ha2]; [None] for a null [nc] or [cnonce]. *)
Definition qop_pieces (nc cnonce qop : option pj_str) : option (list pj_str) :=
  match qop with
  | None | Some [] => Some []
  | Some q =>
      match nc, cnonce with
      | Some nc, Some cnonce => Some [colon; nc; colon; cnonce; colon; q]
      | _, _ => None
      end
  end.

Definition pjsip_auth_create_digest (nonce : pj_str) (nc cnonce qop : option pj_str) (uri realm : pj_str)
    (cred_info : pjsip_cred_info) (method : pj_str) : option pj_str :=
  match create_ha1 realm cred_info with
  | None => None
  | Some (pms, ha1) =>
      let '(pms, ha2) := md5_hex pms [method; colon; uri] in
      match qop_pieces nc cnonce qop with
      | None => None
      | Some q => Some (snd (md5_hex pms ([ha1; colon; nonce] ++ q ++ [colon; ha2])))
      end
  end.

(** ** The answer to a challenge *)

(** The characters of a string up to its null. *)
Fixpoint until_null (s : pj_str) : pj_str :=
  match s with [] => [] | c :: s => if c =? 0 then [] else c :: until_null s end.

Fixpoint auth_scan (p : pj_str) : bool :=
  match p with
  | [] => false
  | c :: q =>
      match q with
      | u :: t :: h :: rest =>
          if (c =? 97) && (u =? 117) && (t =? 116) && (h =? 104) then
            match rest with
            | [] => true
            | x :: _ => if (x =? 34) || (x =? 44) then true else auth_scan rest
            end
          else auth_scan q
      | _ => auth_scan q
      end
  end.

Definition has_auth_qop (qop_offer : pj_str) : bool := auth_scan (map pj_tolower (until_null qop_offer)).

(** [%08u]. *)
Definition print_nc (nc : Z) : pj_str :=
  let digits := pj_utoa nc in replicate (8 - length digits) 48 ++ digits.

(** The callback of an AKA credential: its status and what it makes of the credential. *)
Context (aka_cb : pjsip_digest_challenge -> pjsip_cred_info -> pj_str -> pjsip_digest_credential
                  -> pj_status_t * pjsip_digest_credential).

Definition respond_digest (cred : pjsip_digest_credential) (chal : pjsip_digest_challenge) (uri : pj_str)
    (cred_info : pjsip_cred_info) (cnonce : option pj_str) (nc : Z) (method : pj_str)
    : option (pj_status_t * pjsip_digest_credential) :=
  if negb ((length (dc_algorithm chal) =? 0)%nat || (pj_stricmp (dc_algorithm chal) pjsip_MD5_STR =? 0)
           || (pj_stricmp (dc_algorithm chal) pjsip_AKAv1_MD5_STR =? 0))
  then Some (PJSIP_EINVALIDALGORITHM, cred)
  else
    let cred := cred <| cr_username := ci_username cred_info |> <| cr_realm := dc_realm chal |>
                     <| cr_nonce := dc_nonce chal |> <| cr_uri := uri |>
                     <| cr_algorithm := dc_algorithm chal |> <| cr_opaque := dc_opaque chal |> in
    let respond (cred : pjsip_digest_credential) nc cnonce qop :=
      if has_ext cred_info then Some (aka_cb chal cred_info method cred)
      else
        match pjsip_auth_create_digest (cr_nonce cred) nc cnonce qop uri (dc_realm chal) cred_info method with
        | Some response => Some (PJ_SUCCESS, cred <| cr_response := response |>)
        | None => None
        end in
    if (length (dc_qop chal) =? 0)%nat then respond cred None None None
    else if has_auth_qop (dc_qop chal) then
      let cred := cred <| cr_qop := pjsip_AUTH_STR |> <| cr_nc := print_nc nc |>
                       <| cr_cnonce := match cnonce with Some (c :: s) => c :: s | _ => cstr "b39971" end |> in
      respond cred (Some (cr_nc cred)) cnonce (Some pjsip_AUTH_STR)
    else Some (PJSIP_EINVALIDQOP, cred).

(** ** The client session *)

(** The [n]-th string of [pj_create_unique_string]. *)
Context (guid : nat -> pj_str).

(** The session entry and the number of unique strings after a challenge. *)
Definition update_digest_session (cached : pjsip_cached_auth) (hdr : pjsip_www_authenticate_hdr) (n : nat)
    : option (pjsip_cached_auth * nat) :=
  let d := ww_digest hdr in
  if (length (dc_qop d) =? 0)%nat then Some (cached, n)
  else if (length (ca_cnonce cached) =? 0)%nat then
    let cached := cached <| ca_last_chal := Some hdr |> <| ca_cnonce := guid n |> <| ca_nc := 1 |> in
    Some ((if (length (ca_realm cached) =? 0)%nat then cached <| ca_realm := dc_realm d |> else cached), S n)
  else
    match ca_last_chal cached with
    | None => None
    | Some last =>
        let ld := ww_digest last in
        if pj_strcmp (dc_nonce d) (dc_nonce ld) =? 0 then Some (cached <| ca_nc := u32 (ca_nc cached + 1) |>, n)
        else
          let ld := ld <| dc_nonce := dc_nonce d |> in
          let ld := if pj_strcmp (dc_opaque ld) (dc_opaque d) =? 0 then ld else ld <| dc_opaque := dc_opaque d |> in
          Some (cached <| ca_last_chal := Some (last <| ww_digest := ld |>) |> <| ca_nc := 1 |>, n)
    end.

(** [find_cached_auth], as the position in the list. *)
Fixpoint find_cached_auth (l : list pjsip_cached_auth) (realm : pj_str) : option nat :=
  match l with
  | [] => None
  | a :: l => if pj_stricmp (ca_realm a) realm =? 0 then Some O else S <$> find_cached_auth l realm
  end.

(** The loop of [auth_find_cred] over [n] elements, with the wildcard so far. *)
Fixpoint find_cred_loop (n : nat) (l : list (option pjsip_cred_info)) (realm : pj_str)
    (wildcard : option pjsip_cred_info) : option (option pjsip_cred_info) :=
  match n with
  | O => Some wildcard
  | S n =>
      match l with
      | Some c :: l =>
          if pj_stricmp (ci_realm c) realm =? 0 then Some (Some c)
          else find_cred_loop n l realm (if decide (ci_realm c = [42]) then Some c else wildcard)
      | _ => None
      end
  end.
Definition auth_find_cred (sess : pjsip_auth_clt_sess) (realm : pj_str) : option (option pjsip_cred_info) :=
  find_cred_loop (cs_cred_cnt sess) (cs_cred_info sess) realm None.

Definition pjsip_auth_clt_init (options : Z) (sess : pjsip_auth_clt_sess) : pj_status_t * pjsip_auth_clt_sess :=
  if options =? 0 then
    (PJ_SUCCESS, sess <| cs_cred_cnt := O |> <| cs_cred_info := [] |> <| cs_cached_auth := [] |>)
  else (PJ_EINVAL, sess).

(** The [n] elements of an array, [None] when one was never written. *)
Fixpoint read_creds (n : nat) (l : list (option pjsip_cred_info)) : option (list pjsip_cred_info) :=
  match n, l with
  | O, _ => Some []
  | S n, Some c :: l => cons c <$> read_creds n l
  | S n, _ => None
  end.

Definition pjsip_auth_clt_clone (sess rhs : pjsip_auth_clt_sess) : option (pj_status_t * pjsip_auth_clt_sess) :=
  let '(_, sess) := pjsip_auth_clt_init 0 sess in
  match read_creds (cs_cred_cnt rhs) (cs_cred_info rhs) with
  | None => None
  | Some creds =>
      Some (PJ_SUCCESS, sess <| cs_cred_cnt := cs_cred_cnt rhs |> <| cs_cred_info := map Some creds |>)
  end.

(** The credentials written before the first with AKA information, and whether
    there was one. *)
Fixpoint copy_creds (c : list pjsip_cred_info) : list (option pjsip_cred_info) * bool :=
  match c with
  | [] => ([], true)
  | x :: c =>
      if has_ext x then (replicate (length (x :: c)) None, false)
      else let '(l, ok) := copy_creds c in (Some x :: l, ok)
  end.
Definition pjsip_auth_clt_set_credentials (sess : pjsip_auth_clt_sess) (c : list pjsip_cred_info)
    : pj_status_t * pjsip_auth_clt_sess :=
  match c with
  | [] => (PJ_SUCCESS, sess <| cs_cred_cnt := O |>)
  | _ =>
      let '(l, ok) := copy_creds c in
      let sess := sess <| cs_cred_info := l |> in
      if ok then (PJ_SUCCESS, sess <| cs_cred_cnt := length c |>) else (PJSIP_EAUTHINAKACRED, sess)
  end.

Definition pjsip_auth_clt_set_prefs (sess : pjsip_auth_clt_sess) (p : pjsip_auth_clt_pref) : pjsip_auth_clt_sess :=
  sess <| cs_pref := p |>.
Definition pjsip_auth_clt_get_prefs (sess : pjsip_auth_clt_sess) : pjsip_auth_clt_pref := cs_pref sess.

Definition empty_credential : pjsip_digest_credential := mk_credential [] [] [] [] [] [] [] [] [] [].

(** [auth_respond]: the status, the entry, the unique strings and the header. *)
Definition auth_respond (hdr : pjsip_www_authenticate_hdr) (uri : sip_uri) (cred_info : pjsip_cred_info)
    (method : pj_str) (cached : pjsip_cached_auth) (n : nat)
    : option (pj_status_t * pjsip_cached_auth * nat * option pjsip_authorization_hdr) :=
  match uri PJSIP_MAX_URL_SIZE with
  | None | Some [] => Some (PJSIP_EURITOOLONG, cached, n, None)
  | Some uri_str =>
      let hauth := mk_authz (ww_proxy hdr) [] empty_credential in
      if negb (pj_stricmp (ww_scheme hdr) pjsip_DIGEST_STR =? 0)
      then Some (PJSIP_EINVALIDAUTHSCHEME, cached, n, None)
      else
        match update_digest_session cached hdr n with
        | None => None
        | Some (cached, n) =>
            match respond_digest (az_digest hauth) (ww_digest hdr) uri_str cred_info
                    (Some (ca_cnonce cached)) (ca_nc cached) method with
            | None => None
            | Some (status, cred) =>
                if negb (status =? PJ_SUCCESS) then Some (status, cached, n, None)
                else
                  let cached :=
                    if negb (length (dc_qop (ww_digest hdr)) =? 0)%nat then
                      match ca_qop_value cached with
                      | QOP_NONE =>
                          cached <| ca_qop_value :=
                            (if pj_strcmp (cr_qop cred) pjsip_AUTH_STR =? 0 then QOP_AUTH else QOP_UNKNOWN) |>
                      | _ => cached
                      end
                    else cached in
                  Some (PJ_SUCCESS, cached, n, Some (mk_authz (ww_proxy hdr) pjsip_DIGEST_STR cred))
            end
        end
  end.

(** The loop of [process_auth] over the headers of the request: the headers
    before the previous attempt, the attempt, and those behind it; empty
    attempts for the realm are dropped. *)
Fixpoint sent_auth_scan (hchal : pjsip_www_authenticate_hdr) (hdrs : list sip_hdr)
    : list sip_hdr * option pjsip_authorization_hdr * list sip_hdr :=
  match hdrs with
  | [] => ([], None, [])
  | h :: rest =>
      let keep := let '(l, a, r) := sent_auth_scan hchal rest in (h :: l, a, r) in
      match h with
      | HdrAuthorization a =>
          if Bool.eqb (az_proxy a) (ww_proxy hchal)
             && (pj_stricmp (dc_realm (ww_digest hchal)) (cr_realm (az_digest a)) =? 0) then
            if (pj_stricmp (az_scheme a) pjsip_DIGEST_STR =? 0) && (length (cr_response (az_digest a)) =? 0)%nat
            then sent_auth_scan hchal rest
            else ([], Some a, rest)
          else keep
      | _ => keep
      end
  end.

(** [process_auth]: the status, the headers of the request, the entry, the
    unique strings and the new header. *)
Definition process_auth (sess : pjsip_auth_clt_sess) (method : pj_str) (uri : sip_uri)
    (hchal : pjsip_www_authenticate_hdr) (hdrs : list sip_hdr) (cached : pjsip_cached_auth) (n : nat)
    : option (pj_status_t * list sip_hdr * pjsip_cached_auth * nat * option pjsip_authorization_hdr) :=
  let '(before, sent_auth, after) := sent_auth_scan hchal hdrs in
  let respond hdrs cached :=
    match auth_find_cred sess (dc_realm (ww_digest hchal)) with
    | None => None
    | Some None => Some (PJSIP_ENOCREDENTIAL, hdrs, cached, n, None)
    | Some (Some cred) =>
        match auth_respond hchal uri cred method cached n with
        | None => None
        | Some (status, cached, n, hauth) => Some (status, hdrs, cached, n, hauth)
        end
    end in
  match sent_auth with
  | None => respond before cached
  | Some a =>
      let hdrs := before ++ HdrAuthorization a :: after in
      let stale := negb (dc_stale (ww_digest hchal) =? 0)
                   || negb (pj_strcmp (dc_nonce (ww_digest hchal)) (cr_nonce (az_digest a)) =? 0) in
      if negb stale then Some (PJSIP_EFAILEDCREDENTIAL, hdrs, cached, n, None)
      else
        let cached := cached <| ca_stale_cnt := u32 (ca_stale_cnt cached + 1) |> in
        if PJSIP_MAX_STALE_COUNT <=? ca_stale_cnt cached
        then Some (PJSIP_EAUTHSTALECOUNT, hdrs, cached, n, None)
        else respond (before ++ after) cached
  end.

(** The session entry of the realm of a challenge, made when there is none. *)
Definition cached_auth_for (sess : pjsip_auth_clt_sess) (hchal : pjsip_www_authenticate_hdr)
    : nat * pjsip_auth_clt_sess :=
  let realm := dc_realm (ww_digest hchal) in
  match find_cached_auth (cs_cached_auth sess) realm with
  | Some i => (i, sess)
  | None =>
      (length (cs_cached_auth sess),
       sess <| cs_cached_auth := cs_cached_auth sess ++ [mk_cached realm (ww_proxy hchal) QOP_NONE 0 0 [] None] |>)
  end.

(** One challenge of the response. *)
Definition reinit_challenge (sess : pjsip_auth_clt_sess) (tdata : pjsip_tx_data) (hchal : pjsip_www_authenticate_hdr)
    : option (pj_status_t * pjsip_auth_clt_sess * pjsip_tx_data) :=
  let '(i, sess) := cached_auth_for sess hchal in
  match cs_cached_auth sess !! i with
  | None => None
  | Some cached =>
      match process_auth sess (td_method tdata) (td_uri tdata) hchal (td_hdrs tdata) cached (cs_guid sess) with
      | None => None
      | Some (status, hdrs, cached, n, hauth) =>
          let sess := sess <| cs_cached_auth := <[i := cached]> (cs_cached_auth sess) |> <| cs_guid := n |> in
          let added := match hauth with Some a => [HdrAuthorization a] | None => [] end in
          Some (status, sess, tdata <| td_hdrs := hdrs ++ added |>)
      end
  end.

(** The loop over the headers of the response; the last component counts the
    challenges. *)
Fixpoint reinit_loop (hdrs : list sip_hdr) (sess : pjsip_auth_clt_sess) (tdata : pjsip_tx_data) (chal_cnt : nat)
    : option (pj_status_t * pjsip_auth_clt_sess * pjsip_tx_data * nat) :=
  match hdrs with
  | [] => Some (PJ_SUCCESS, sess, tdata, chal_cnt)
  | HdrAuthenticate hchal :: hdrs =>
      match reinit_challenge sess tdata hchal with
      | None => None
      | Some (status, sess, tdata) =>
          if status =? PJ_SUCCESS then reinit_loop hdrs sess tdata (S chal_cnt)
          else Some (status, sess, tdata, S chal_cnt)
      end
  | _ :: hdrs => reinit_loop hdrs sess tdata chal_cnt
  end.

(** [via->branch_param.slen = 0] on the first Via header. *)
Fixpoint reset_branch (hdrs : list sip_hdr) : option (list sip_hdr) :=
  match hdrs with
  | [] => None
  | HdrVia _ :: hdrs => Some (HdrVia [] :: hdrs)
  | h :: hdrs => cons h <$> reset_branch hdrs
  end.

(** The positions of the first and the last Route header, and the URI of the last. *)
Fixpoint first_route (hdrs : list sip_hdr) : option nat :=
  match hdrs with [] => None | HdrRoute _ :: _ => Some O | _ :: hdrs => S <$> first_route hdrs end.
Fixpoint last_route (hdrs : list sip_hdr) : option (nat * sip_uri) :=
  match hdrs with
  | [] => None
  | h :: hdrs =>
      match last_route hdrs, h with
      | Some (i, u), _ => Some (S i, u)
      | None, HdrRoute u => Some (O, u)
      | None, _ => None
      end
  end.

Definition pjsip_restore_strict_route_set (tdata : pjsip_tx_data) : pjsip_tx_data :=
  match td_saved_strict_route tdata with
  | None => tdata
  | Some saved =>
      let tdata := tdata <| td_saved_strict_route := None |> in
      match first_route (td_hdrs tdata), last_route (td_hdrs tdata) with
      | Some i, Some (j, u) =>
          let hdrs := td_hdrs tdata in
          tdata <| td_uri := u |> <| td_hdrs := take i hdrs ++ HdrRoute saved :: delete (j - i)%nat (drop i hdrs) |>
      | _, _ => tdata
      end
  end.

(** The status, the session, the request, and whether it is handed back. *)
Definition pjsip_auth_clt_reinit_req (sess : pjsip_auth_clt_sess) (rdata : pjsip_rx_data) (old_request : pjsip_tx_data)
    : option (pj_status_t * pjsip_auth_clt_sess * pjsip_tx_data) :=
  if rd_is_request rdata then Some (PJSIP_ENOTRESPONSEMSG, sess, old_request)
  else if negb (td_is_request old_request) then Some (PJSIP_ENOTREQUESTMSG, sess, old_request)
  else if negb ((rd_code rdata =? 401) || (rd_code rdata =? 407)) then Some (PJSIP_EINVALIDSTATUS, sess, old_request)
  else
    let tdata := old_request <| td_auth_retry := false |> in
    match reinit_loop (rd_hdrs rdata) sess tdata 0 with
    | None => None
    | Some (status, sess, tdata, chal_cnt) =>
        if negb (status =? PJ_SUCCESS) then Some (status, sess, tdata)
        else if (chal_cnt =? 0)%nat then Some (PJSIP_EAUTHNOCHAL, sess, tdata)
        else
          match reset_branch (td_hdrs tdata) with
          | None => None
          | Some hdrs =>
              let tdata := pjsip_restore_strict_route_set (tdata <| td_hdrs := hdrs |>) in
              Some (PJ_SUCCESS, sess,
                    tdata <| td_encoded := false |> <| td_auth_retry := true |> <| td_refs := td_refs tdata + 1 |>)
          end
    end.

(** [pjsip_auth_clt_init_req]: without caching the list of headers to add stays
    empty, so each credential gets an empty header when the preference asks. *)
Definition initial_hdr (pref : pjsip_auth_clt_pref) (uri : pj_str) (c : pjsip_cred_info) : sip_hdr :=
  HdrAuthorization (mk_authz false (ci_scheme c)
    (empty_credential <| cr_username := ci_username c |> <| cr_realm := ci_realm c |> <| cr_uri := uri |>
       <| cr_algorithm := pf_algorithm pref |>)).

Definition pjsip_auth_clt_init_req (sess : pjsip_auth_clt_sess) (tdata : pjsip_tx_data)
    : option (pj_status_t * pjsip_auth_clt_sess * pjsip_tx_data) :=
  if negb (td_is_request tdata) then Some (PJSIP_ENOTREQUESTMSG, sess, tdata)
  else
    let sess := sess <| cs_cached_auth := map (fun a => a <| ca_stale_cnt := 0 |>) (cs_cached_auth sess) |> in
    if negb (pf_initial_auth (cs_pref sess)) then Some (PJ_SUCCESS, sess, tdata)
    else
      match td_uri tdata PJSIP_MAX_URL_SIZE with
      | None | Some [] => Some (PJSIP_EURITOOLONG, sess, tdata)
      | Some uri =>
          if (PJSIP_MAX_URL_SIZE <=? length uri)%nat then Some (PJSIP_EURITOOLONG, sess, tdata)
          else
            match read_creds (cs_cred_cnt sess) (cs_cred_info sess) with
            | None => None
            | Some creds =>
                Some (PJ_SUCCESS, sess, tdata <| td_hdrs := td_hdrs tdata ++ map (initial_hdr (cs_pref sess) uri) creds |>)
            end
      end.

(** ** The server *)

Record pjsip_auth_srv := mk_srv {
  srv_realm : pj_str; srv_is_proxy : bool;
  srv_lookup : option (pj_str -> pj_str -> pj_status_t * pjsip_cred_info);
  srv_lookup2 : option (pj_str -> pj_str -> pjsip_rx_data -> pj_status_t * pjsip_cred_info)
}.

Definition is_proxy_option (options : Z) : bool := negb (Z.land options PJSIP_AUTH_SRV_IS_PROXY =? 0).
Definition pjsip_auth_srv_init (realm : pj_str) (lookup : pj_str -> pj_str -> pj_status_t * pjsip_cred_info)
    (options : Z) : pjsip_auth_srv := mk_srv realm (is_proxy_option options) (Some lookup) None.
Definition pjsip_auth_srv_init2 (realm : pj_str)
    (lookup2 : pj_str -> pj_str -> pjsip_rx_data -> pj_status_t * pjsip_cred_info)
    (options : Z) : pjsip_auth_srv := mk_srv realm (is_proxy_option options) None (Some lookup2).

Definition pjsip_auth_verify (hdr : pjsip_authorization_hdr) (method : pj_str) (cred_info : pjsip_cred_info)
    : option pj_status_t :=
  if pj_stricmp (az_scheme hdr) pjsip_DIGEST_STR =? 0 then
    let dig := az_digest hdr in
    if negb (pj_strcmp (cr_username dig) (ci_username cred_info) =? 0) then Some PJ_EINVALIDOP
    else if negb (pj_strcmp (cr_realm dig) (ci_realm cred_info) =? 0) then Some PJ_EINVALIDOP
    else
      match pjsip_auth_create_digest (cr_nonce dig) (Some (cr_nc dig)) (Some (cr_cnonce dig)) (Some (cr_qop dig))
              (cr_uri dig) (ci_realm cred_info) cred_info method with
      | None => None
      | Some digest =>
          Some (if pj_stricmp digest (cr_response dig) =? 0 then PJ_SUCCESS else PJSIP_EAUTHINVALIDDIGEST)
      end
  else Some PJSIP_EINVALIDAUTHSCHEME.

(** The header for the realm, by the calls of [pjsip_msg_find_hdr]. *)
Fixpoint find_auth_hdr (proxy : bool) (realm : pj_str) (hdrs : list sip_hdr) : option pjsip_authorization_hdr :=
  match hdrs with
  | [] => None
  | HdrAuthorization a :: hdrs =>
      if Bool.eqb (az_proxy a) proxy && (pj_stricmp (cr_realm (az_digest a)) realm =? 0) then Some a
      else find_auth_hdr proxy realm hdrs
  | _ :: hdrs => find_auth_hdr proxy realm hdrs
  end.

Definition lookup_cred (srv : pjsip_auth_srv) (acc_name : pj_str) (rdata : pjsip_rx_data)
    : option (pj_status_t * pjsip_cred_info) :=
  match srv_lookup2 srv with
  | Some f => Some (f (srv_realm srv) acc_name rdata)
  | None => (fun f => f (srv_realm srv) acc_name) <$> srv_lookup srv
  end.

(** The status, and [*status_code] when it is written. *)
Definition pjsip_auth_srv_verify (srv : pjsip_auth_srv) (rdata : pjsip_rx_data) : option (pj_status_t * option Z) :=
  if negb (rd_is_request rdata) then Some (PJSIP_ENOTREQUESTMSG, None)
  else
    let challenge_code := if srv_is_proxy srv then 407 else 401 in
    match find_auth_hdr (srv_is_proxy srv) (srv_realm srv) (rd_hdrs rdata) with
    | None => Some (PJSIP_EAUTHNOAUTH, Some challenge_code)
    | Some h_auth =>
        if negb (pj_stricmp (az_scheme h_auth) pjsip_DIGEST_STR =? 0)
        then Some (PJSIP_EINVALIDAUTHSCHEME, Some challenge_code)
        else
          match lookup_cred srv (cr_username (az_digest h_auth)) rdata with
          | None => None
          | Some (status, cred_info) =>
              if negb (status =? PJ_SUCCESS) then Some (status, Some PJSIP_SC_FORBIDDEN)
              else
                match pjsip_auth_verify h_auth (rd_method rdata) cred_info with
                | None => None
                | Some status => Some (status, Some (if status =? PJ_SUCCESS then 200 else PJSIP_SC_FORBIDDEN))
                end
          end
    end.

(** The header [pjsip_auth_srv_challenge] adds to the response. *)
Definition pjsip_auth_srv_challenge (rand : nat -> Z) (srv : pjsip_auth_srv) (qop nonce opaque : option pj_str)
    (stale : Z) (hdrs : list sip_hdr) : list sip_hdr :=
  let '(nonce, i) := match nonce with Some s => (s, O) | None => (pj_create_random_string rand 0 16, 2%nat) end in
  let opaque := match opaque with Some s => s | None => pj_create_random_string rand i 16 end in
  hdrs ++ [HdrAuthenticate (mk_www (srv_is_proxy srv) pjsip_DIGEST_STR
             (mk_challenge (srv_realm srv) [] nonce opaque stale pjsip_MD5_STR (default [] qop)))].
End Digest.
