(* ===== verification/SipAuthProps.v ===== *)
(** * Properties of SIP digest authentication

    The digests of [SipAuth] against RFC 2617, what the server accepts, that the
    answer of the client to a challenge of the server is accepted, and that a
    request is sent again a bounded number of times. *)

From Stdlib Require Import ZArith Lia Bool String.
From stdpp Require Import base list numbers option.
From S2P Require Import Prelude.
From S2P Require Import PjString.
From S2P Require Import Words.
From S2P Require Import Blocks.
From S2P Require Import Md5.
From S2P Require Import SipAuth.
Local Open Scope Z_scope.

(** ** RFC 2617 *)

Definition hex_char (n : Z) : Z := if n <? 10 then 48 + n else 87 + n.
Definition lhex (l : list Z) : pj_str := concat (map (fun b => [hex_char (b / 16); hex_char (b mod 16)]) l).

(** The parts, with a colon between two of them. *)
Fixpoint join (parts : list pj_str) : pj_str :=
  match parts with
  | [] => []
  | x :: rest => match rest with [] => x | _ => x ++ [58] ++ join rest end
  end.
Definition kd_hash (parts : list pj_str) : pj_str := lhex (md5_rfc (join parts)).

(** H(A1) of a credential: of a password, or the value kept in its place. *)
Definition rfc_ha1 (realm : pj_str) (c : pjsip_cred_info) : pj_str :=
  if Z.land (ci_data_type c) PASSWD_MASK =? PJSIP_CRED_DATA_PLAIN_PASSWD
  then kd_hash [ci_username c; realm; ci_data c] else ci_data c.

(** The request-digest, with the nonce count, cnonce and qop when there is a qop. *)
Definition rfc_digest (ha1 nonce : pj_str) (auth : option (pj_str * pj_str * pj_str)) (method uri : pj_str) : pj_str :=
  kd_hash ([ha1; nonce] ++ match auth with Some (nc, cnonce, qop) => [nc; cnonce; qop] | None => [] end
           ++ [kd_hash [method; uri]]).

(** Strings whose length the digest takes as it is. *)
Abbreviation str_ok := (piece_ok (2 ^ 32)).

(** A credential with a password, or with the 32 digits of the hash. *)
Definition cred_shape (c : pjsip_cred_info) : Prop :=
  Z.land (ci_data_type c) PASSWD_MASK = PJSIP_CRED_DATA_PLAIN_PASSWD
  \/ Z.land (ci_data_type c) PASSWD_MASK = PJSIP_CRED_DATA_DIGEST /\ length (ci_data c) = PJSIP_MD5STRLEN.
Definition cred_ok (c : pjsip_cred_info) : Prop := str_ok (ci_username c) /\ str_ok (ci_data c) /\ cred_shape c.

(** ** The digest *)

Lemma hex_digits_lhex b : is_u8 b -> pj_val_to_hex_digit b = [hex_char (b / 16); hex_char (b mod 16)].
Proof.
  intros Hb. pose (P := fun b => bool_decide (pj_val_to_hex_digit b = [hex_char (b / 16); hex_char (b mod 16)])).
  enough (P b = true) as E by (by apply bool_decide_eq_true in E).
  apply (range_check 256); [vm_compute; reflexivity|exact Hb].
Qed.

Lemma digest2str_lhex d : bytes_ok d -> length d = 16%nat -> digest2str d = lhex d.
Proof.
  intros Hb Hl. unfold digest2str, lhex. rewrite take_ge by lia. f_equal.
  apply map_ext_in. intros b Hin. apply hex_digits_lhex. unfold bytes_ok in Hb. rewrite List.Forall_forall in Hb. by apply Hb.
Qed.

Lemma md5_rfc_shape m : length (md5_rfc m) = 16%nat /\ bytes_ok (md5_rfc m).
Proof.
  unfold md5_rfc, mregs_bytes. destruct (md5_run_ok md5_H0 (pad le64 m) md5_H0_ok) as (Ha & Hb & Hc & Hd).
  split; [reflexivity|]. cbn [map concat].
  repeat (apply Forall_app; split); first [by apply store32_bytes|by constructor].
Qed.

Lemma lhex_ok l : bytes_ok l -> bytes_ok (lhex l) /\ length (lhex l) = (2 * length l)%nat.
Proof.
  intros H. induction H as [|b l Hb _ [IHb IHl]]; [by repeat constructor|]. unfold lhex in *. cbn [map concat].
  rewrite length_app, IHl. split; [|cbn; lia]. apply Forall_app; split; [|exact IHb].
  unfold is_u8, hex_char in *. repeat constructor; case_match; Z.to_euclidean_division_equations; lia.
Qed.

Lemma kd_hash_ok parts : str_ok (kd_hash parts) /\ length (kd_hash parts) = 32%nat.
Proof.
  destruct (md5_rfc_shape (join parts)) as [Hl Hb]. destruct (lhex_ok _ Hb) as [Hb' Hl'].
  unfold kd_hash, piece_ok. rewrite Hl', Hl. split_and!; [exact Hb'|lia|lia].
Qed.

Lemma colon_ok : str_ok colon.
Proof. split; [repeat constructor; lia|cbn; lia]. Qed.

(** The pieces of a hash, each of them acceptable. *)
Ltac pieces :=
  repeat match goal with
         | |- Forall _ (_ :: _) => apply Forall_cons_2
         | |- Forall _ [] => apply Forall_nil_2
         end; first [assumption | apply colon_ok | apply kd_hash_ok].

Section Hashing.
Context (e : endianness).

Lemma md5_final_ctx ctx : length (md_in (fst (pj_md5_final e ctx))) = 64%nat.
Proof.
  unfold pj_md5_final. destruct (_ <? 8)%nat; [|reflexivity].
  by destruct (md5_block e (md_buf ctx) _).
Qed.

(** A hash of pieces, and the context it leaves. *)
Lemma md5_hex_spec pms pieces : length (md_in pms) = 64%nat -> Forall str_ok pieces ->
  snd (md5_hex e pms pieces) = lhex (md5_rfc (concat pieces))
  /\ length (md_in (fst (md5_hex e pms pieces))) = 64%nat.
Proof.
  intros Hl Hp. unfold md5_hex.
  pose proof (md5_final_spec e (fold_left (pj_md5_update e) pieces (pj_md5_init pms)) (concat pieces)) as E.
  rewrite <- (digest2str_lhex (md5_rfc _)) by apply md5_rfc_shape.
  rewrite <- E by (apply (md5_fold_holds e pieces _ []); [by apply md5_init_holds|exact Hp]).
  pose proof (md5_final_ctx (fold_left (pj_md5_update e) pieces (pj_md5_init pms))) as Ec.
  by destruct (pj_md5_final _ _).
Qed.

Section Create.
Context (pms : pj_md5_context) (nonce uri realm method : pj_str) (c : pjsip_cred_info).
Hypothesis Hpms : length (md_in pms) = 64%nat.
Hypothesis Hnonce : str_ok nonce.
Hypothesis Huri : str_ok uri.
Hypothesis Hrealm : str_ok realm.
Hypothesis Hmethod : str_ok method.
Hypothesis Hcred : cred_ok c.

Lemma create_ha1_spec : exists pms', create_ha1 e pms realm c = Some (pms', rfc_ha1 realm c)
  /\ length (md_in pms') = 64%nat /\ str_ok (rfc_ha1 realm c).
Proof.
  destruct Hcred as (Hu & Hd & H). unfold create_ha1, rfc_ha1. destruct (Z.eqb_spec (Z.land (ci_data_type c) PASSWD_MASK) PJSIP_CRED_DATA_PLAIN_PASSWD) as [E|E].
  - destruct (md5_hex_spec pms [ci_username c; colon; realm; colon; ci_data c] Hpms) as [E1 E2];
      [pieces|].
    destruct (md5_hex _ _ _) as [pms' h]. cbn [fst snd] in E1, E2. subst h. exists pms'.
    split; [|split; [exact E2|apply kd_hash_ok]]. unfold kd_hash, join, colon. cbn [concat]. by rewrite app_nil_r.
  - destruct H as [H|[-> Hl]]; [done|]. rewrite Hl. by exists pms.
Qed.

(** Without a qop. *)
Lemma create_digest_plain nc cnonce qop : default [] qop = [] ->
  pjsip_auth_create_digest e pms nonce nc cnonce qop uri realm c method
  = Some (rfc_digest (rfc_ha1 realm c) nonce None method uri).
Proof.
  intros Hq. unfold pjsip_auth_create_digest. destruct create_ha1_spec as (pms1 & -> & Hl1 & Hh).
  destruct (md5_hex_spec pms1 [method; colon; uri] Hl1) as [E1 E2]; [pieces|].
  destruct (md5_hex e pms1 _) as [pms2 h]. cbn [fst snd] in E1, E2.
  assert (h = kd_hash [method; uri]) as -> by (rewrite E1; unfold kd_hash, colon; cbn [concat join]; by rewrite app_nil_r).
  replace (qop_pieces nc cnonce qop) with (Some (@nil pj_str)) by (by destruct qop as [[]|]).
  f_equal. cbn [app]. destruct (md5_hex_spec pms2 [rfc_ha1 realm c; colon; nonce; colon; kd_hash [method; uri]] E2) as [-> _].
  { pieces. }
  unfold rfc_digest, colon. cbn [concat app]. rewrite app_nil_r. unfold kd_hash at 2. by cbn [join app].
Qed.

(** With a qop. *)
Lemma create_digest_qop nc cnonce qop : qop <> [] -> str_ok nc -> str_ok cnonce -> str_ok qop ->
  pjsip_auth_create_digest e pms nonce (Some nc) (Some cnonce) (Some qop) uri realm c method
  = Some (rfc_digest (rfc_ha1 realm c) nonce (Some (nc, cnonce, qop)) method uri).
Proof.
  intros Hne Hnc Hcn Hq. unfold pjsip_auth_create_digest. destruct create_ha1_spec as (pms1 & -> & Hl1 & Hh).
  destruct (md5_hex_spec pms1 [method; colon; uri] Hl1) as [E1 E2]; [pieces|].
  destruct (md5_hex e pms1 _) as [pms2 h]. cbn [fst snd] in E1, E2.
  assert (h = kd_hash [method; uri]) as -> by (rewrite E1; unfold kd_hash, colon; cbn [concat join]; by rewrite app_nil_r).
  replace (qop_pieces (Some nc) (Some cnonce) (Some qop)) with (Some [colon; nc; colon; cnonce; colon; qop])
    by (by destruct qop).
  f_equal. cbn [app]. edestruct (md5_hex_spec pms2) as [-> _]; [exact E2| |].
  { pieces. }
  unfold rfc_digest, colon. cbn [concat app]. rewrite app_nil_r. unfold kd_hash at 2. by cbn [join app].
Qed.
End Create.
End Hashing.

(** The example of section 3.5 of the RFC. *)
Lemma rfc2617_example :
  pjsip_auth_create_digest LittleEndian wild_md5 (cstr "dcd98b7102dd2f0e8b11d0f600bfb0c093")
    (Some (cstr "00000001")) (Some (cstr "0a4f113b")) (Some (cstr "auth")) (cstr "/dir/index.html")
    (cstr "testrealm@host.com")
    (mk_cred_info (cstr "*") (cstr "digest") (cstr "Mufasa") 0 (cstr "Circle Of Life") [] [] []) (cstr "GET")
  = Some (cstr "6629fae49393a05397450978507c4ef1").
Proof. vm_compute. reflexivity. Qed.

(** ** Comparison without regard to case *)

Definition same_text (s1 s2 : pj_str) : Prop := length s1 = length s2 /\ icase s1 = icase s2.

#[global] Instance same_text_equiv : Equivalence same_text.
Proof. split; unfold same_text; [by intros s|intros s t; intuition congruence|intros s t u; intuition congruence]. Qed.

Lemma same_text_spec s1 s2 : BoolSpec (same_text s1 s2) (~ same_text s1 s2) (pj_stricmp s1 s2 =? 0).
Proof.
  unfold same_text. destruct (Z.eqb_spec (pj_stricmp s1 s2) 0) as [E|E]; constructor; by rewrite <- pj_stricmp_0.
Qed.

#[global] Instance same_text_proper :
  Proper (same_text ==> same_text ==> eq) (fun s1 s2 => pj_stricmp s1 s2 =? 0).
Proof.
  intros s s' Hs t t' Ht. destruct (same_text_spec s t) as [H|H], (same_text_spec s' t') as [H'|H']; try done;
    exfalso; [apply H'; by rewrite <- Hs, <- Ht|apply H; by rewrite Hs, Ht].
Qed.

(** Text in which nothing changes when it is put in lower case. *)
Definition lower_text (s : pj_str) : Prop := Forall (fun c => c <> 0 /\ pj_tolower c = c) s.

Lemma lower_icase s : lower_text s -> icase s = s.
Proof.
  intros H. induction H as [|c s [Hc Hl] _ IH]; [done|]. cbn [icase]. rewrite Hl, IH.
  by destruct (Z.eqb_spec c 0).
Qed.

Lemma icase_full s : length (icase s) = length s -> icase s = map pj_tolower s.
Proof.
  induction s as [|c s IH]; [done|]. cbn [icase map]. case_match; [done|]. cbn [length]. intros Hl. f_equal. apply IH. lia.
Qed.

Lemma same_text_lower d s : lower_text d -> same_text d s <-> map pj_tolower s = d.
Proof.
  intros Hd. unfold same_text. rewrite (lower_icase d Hd). split.
  - intros [Hl E]. rewrite <- icase_full; [done|]. by rewrite <- E.
  - intros E. assert (Hl : length d = length s) by (by rewrite <- E, length_map). split; [done|].
    rewrite <- E in Hd. rewrite <- E. clear E Hl d.
    induction s as [|c s IH]; [done|]. cbn [map icase] in *. apply list.Forall_cons in Hd as [[Hc _] Hd].
    destruct (Z.eqb_spec (pj_tolower c) 0); [done|]. f_equal. by apply IH.
Qed.

Lemma lhex_lower l : bytes_ok l -> lower_text (lhex l).
Proof.
  intros H. induction H as [|b l Hb _ IH]; [constructor|]. unfold lhex in *. cbn [map concat].
  apply Forall_app; split; [|exact IH].
  assert (Hh : forall n, 0 <= n < 16 -> hex_char n <> 0 /\ pj_tolower (hex_char n) = hex_char n).
  { intros n Hn. unfold hex_char, pj_tolower. destruct (Z.ltb_spec n 10); case_match; lia. }
  unfold is_u8 in Hb. repeat constructor; apply Hh; Z.to_euclidean_division_equations; lia.
Qed.

Lemma rfc_digest_lower ha1 nonce auth method uri : lower_text (rfc_digest ha1 nonce auth method uri).
Proof. apply lhex_lower, md5_rfc_shape. Qed.

(** ** What the server accepts *)

(** The digest a credential must give for a header. *)
Definition expected_response (c : pjsip_cred_info) (method : pj_str) (d : pjsip_digest_credential) : pj_str :=
  rfc_digest (rfc_ha1 (ci_realm c) c) (cr_nonce d)
    (match cr_qop d with [] => None | q => Some (cr_nc d, cr_cnonce d, q) end) method (cr_uri d).

Definition credential_ok (d : pjsip_digest_credential) : Prop :=
  Forall str_ok [cr_nonce d; cr_nc d; cr_cnonce d; cr_qop d; cr_uri d].

Lemma verify_digest e pms d c method : length (md_in pms) = 64%nat -> credential_ok d -> str_ok method ->
  cred_ok c -> str_ok (ci_realm c) ->
  pjsip_auth_create_digest e pms (cr_nonce d) (Some (cr_nc d)) (Some (cr_cnonce d)) (Some (cr_qop d))
    (cr_uri d) (ci_realm c) c method = Some (expected_response c method d).
Proof.
  intros Hp Hd Hm Hc Hr. unfold credential_ok in Hd. rewrite !list.Forall_cons in Hd. destruct Hd as (Hn & Hnc & Hcn & Hq & Hu & _).
  unfold expected_response. destruct (cr_qop d) as [|x q] eqn:E.
  - by apply create_digest_plain.
  - by apply create_digest_qop.
Qed.

Lemma auth_verify_spec e pms a method c : length (md_in pms) = 64%nat -> credential_ok (az_digest a) -> str_ok method ->
  cred_ok c -> str_ok (ci_realm c) -> same_text (az_scheme a) pjsip_DIGEST_STR ->
  exists st, pjsip_auth_verify e pms a method c = Some st
  /\ (st = PJ_SUCCESS <->
      cr_username (az_digest a) = ci_username c /\ cr_realm (az_digest a) = ci_realm c
      /\ map pj_tolower (cr_response (az_digest a)) = expected_response c method (az_digest a)).
Proof.
  intros Hp Ha Hm Hc Hr Hs. unfold pjsip_auth_verify. destruct (same_text_spec (az_scheme a) pjsip_DIGEST_STR); [|done].
  destruct (Z.eqb_spec (pj_strcmp (cr_username (az_digest a)) (ci_username c)) 0) as [E1|E1];
    rewrite pj_strcmp_0 in E1; cbn [negb]; [|eexists; split; [done|]; intuition discriminate].
  destruct (Z.eqb_spec (pj_strcmp (cr_realm (az_digest a)) (ci_realm c)) 0) as [E2|E2];
    rewrite pj_strcmp_0 in E2; cbn [negb]; [|eexists; split; [done|]; intuition discriminate].
  pose proof (verify_digest e pms (az_digest a) c method Hp Ha Hm Hc Hr) as E. revert E.
  generalize (rfc_digest_lower (rfc_ha1 (ci_realm c) c) (cr_nonce (az_digest a))
    (match cr_qop (az_digest a) with [] => None | q => Some (cr_nc (az_digest a), cr_cnonce (az_digest a), q) end)
    method (cr_uri (az_digest a))).
  fold (expected_response c method (az_digest a)). generalize (expected_response c method (az_digest a)).
  intros d Hd ->. eexists; split; [done|].
  rewrite <- same_text_lower by exact Hd. destruct (same_text_spec d (cr_response (az_digest a))); intuition discriminate.
Qed.

(** The header the server looks at, and the credential it finds for it, agree. *)
Definition authentic (srv : pjsip_auth_srv) (rx : pjsip_rx_data) : Prop :=
  exists a c, find_auth_hdr (srv_is_proxy srv) (srv_realm srv) (rd_hdrs rx) = Some a
  /\ same_text (az_scheme a) pjsip_DIGEST_STR
  /\ lookup_cred srv (cr_username (az_digest a)) rx = Some (PJ_SUCCESS, c)
  /\ cr_username (az_digest a) = ci_username c /\ cr_realm (az_digest a) = ci_realm c
  /\ map pj_tolower (cr_response (az_digest a)) = expected_response c (rd_method rx) (az_digest a).

(** A lookup function is set, and finds credentials that can be used. *)
Definition lookup_ok (srv : pjsip_auth_srv) (rx : pjsip_rx_data) : Prop :=
  forall name, exists st c, lookup_cred srv name rx = Some (st, c)
    /\ (st = PJ_SUCCESS -> cred_ok c /\ str_ok (ci_realm c)).

(** The strings of the message are short enough to be hashed as they are. *)
Definition request_ok (rx : pjsip_rx_data) : Prop :=
  rd_is_request rx = true /\ str_ok (rd_method rx)
  /\ Forall (fun h => match h with HdrAuthorization a => credential_ok (az_digest a) | _ => True end) (rd_hdrs rx).

Lemma find_auth_hdr_ok proxy realm hdrs a :
  Forall (fun h => match h with HdrAuthorization a => credential_ok (az_digest a) | _ => True end) hdrs ->
  find_auth_hdr proxy realm hdrs = Some a -> credential_ok (az_digest a).
Proof.
  intros H. induction H as [|h hdrs Hh _ IH]; [done|]. cbn [find_auth_hdr]. destruct h; try exact IH.
  case_match; [|exact IH]. by intros [= <-].
Qed.

(** C16. On a request the server always comes to a decision.  It accepts, with
    code 200, exactly when the first Authorization header for its realm uses the
    digest scheme, the account is found, user name and realm are those of the
    credential, and the response is, without regard to case, the request-digest
    of RFC 2617 of the credential, the method of the request and the fields of
    the header.  Otherwise the code is 401 or 407 when there is no digest header
    for the realm, and 403 when there is one. *)
Theorem sip_verify_exact e pms srv rx :
  length (md_in pms) = 64%nat -> request_ok rx -> lookup_ok srv rx ->
  exists st code, pjsip_auth_srv_verify e pms srv rx = Some (st, Some code)
  /\ (st = PJ_SUCCESS <-> authentic srv rx) /\ (st = PJ_SUCCESS <-> code = 200)
  /\ (st <> PJ_SUCCESS ->
      code = match find_auth_hdr (srv_is_proxy srv) (srv_realm srv) (rd_hdrs rx) with
             | Some a => if pj_stricmp (az_scheme a) pjsip_DIGEST_STR =? 0 then 403
                         else if srv_is_proxy srv then 407 else 401
             | None => if srv_is_proxy srv then 407 else 401
             end).
Proof.
  intros Hp (Hq & Hm & Hh) Hlk. unfold pjsip_auth_srv_verify, authentic. rewrite Hq. cbn [negb].
  assert (Hcode : (if srv_is_proxy srv then 407 else 401) <> 200) by (by destruct (srv_is_proxy srv)).
  destruct (find_auth_hdr _ _ _) as [a|] eqn:Ef.
  2: { eexists _, _; split; [done|]. split; [split; [done|by intros (a & c & E & _)]|by repeat split]. }
  destruct (same_text_spec (az_scheme a) pjsip_DIGEST_STR) as [Hs|Hs]; cbn [negb].
  2: { eexists _, _; split; [done|]. split; [split; [done|by intros (? & c & [= <-] & ? & _)]|by repeat split]. }
  destruct (Hlk (cr_username (az_digest a))) as (st & c & El & Hc). rewrite El.
  destruct (Z.eqb_spec st PJ_SUCCESS) as [->|Hst]; cbn [negb].
  2: { eexists _, _; split; [done|]. split; [split; [done|]|by repeat split].
       intros (? & c' & [= <-] & _ & E & _). rewrite El in E. by injection E. }
  destruct (Hc eq_refl) as [Hc1 Hc2].
  destruct (auth_verify_spec e pms a (rd_method rx) c) as (st & -> & Hv); [done|by eapply find_auth_hdr_ok|done..|].
  eexists _, _; split; [done|]. split.
  - rewrite Hv. split; [intros (E1 & E2 & E3); by exists a, c|].
    intros (? & c' & [= <-] & _ & E & H). rewrite El in E. by injection E as ->.
  - by destruct (Z.eqb_spec st PJ_SUCCESS) as [E|E].
Qed.

(** ** The answer of the client *)

(** A digest is computed whatever the strings are, and has characters. *)
Lemma md5_hex_nonempty e pms pieces : snd (md5_hex e pms pieces) <> [].
Proof.
  unfold md5_hex, pj_md5_final. destruct (_ <? 8)%nat; [destruct (md5_block e _ _)|]; cbn [snd];
    destruct (MD5Transform _ _) as [a b c d]; by destruct e.
Qed.

Lemma create_digest_total e pms nonce nc cnonce qop uri realm c method : cred_shape c ->
  (default [] qop = [] \/ is_Some nc /\ is_Some cnonce) ->
  exists r, pjsip_auth_create_digest e pms nonce nc cnonce qop uri realm c method = Some r /\ r <> [].
Proof.
  intros Hc Hq. unfold pjsip_auth_create_digest, create_ha1.
  assert (exists q, qop_pieces nc cnonce qop = Some q) as [q ->].
  { destruct Hq as [Hq|[[x ->] [y ->]]]; [destruct qop as [[]|]; by eauto|]. destruct qop as [[]|]; cbn; eauto. }
  assert (exists r, (if Z.land (ci_data_type c) PASSWD_MASK =? PJSIP_CRED_DATA_PLAIN_PASSWD
          then Some (md5_hex e pms [ci_username c; colon; realm; colon; ci_data c])
          else if Z.land (ci_data_type c) PASSWD_MASK =? PJSIP_CRED_DATA_DIGEST
               then if (length (ci_data c) =? PJSIP_MD5STRLEN)%nat then Some (pms, ci_data c) else None
               else None) = Some r) as [[pms1 h1] ->].
  { destruct Hc as [->|[-> ->]]; eauto. }
  destruct (md5_hex e pms1 _) as [pms2 h2]. eexists; split; [done|]. apply md5_hex_nonempty.
Qed.

(** Replaces a call of [pjsip_auth_create_digest] by its result. *)
Ltac digest_total :=
  match goal with
  | H : cred_shape ?c |- context [pjsip_auth_create_digest ?e ?pms ?n ?nc ?cn ?q ?u ?r ?c ?m] =>
      let E := fresh "E" in let Hne := fresh "Hne" in
      destruct (create_digest_total e pms n nc cn q u r c m H) as (? & E & Hne);
      [first [by left|right; split; by eexists]|rewrite E]
  end.

Section Client.
Context (e : endianness) (pms : pj_md5_context).
Context (aka_cb : pjsip_digest_challenge -> pjsip_cred_info -> pj_str -> pjsip_digest_credential
                  -> pj_status_t * pjsip_digest_credential).
Context (guid : nat -> pj_str).

Lemma respond_digest_total chal uri c cnonce nc method : cred_shape c -> has_ext c = false ->
  exists st cred, respond_digest e pms aka_cb empty_credential chal uri c (Some cnonce) nc method = Some (st, cred)
  /\ (st = PJ_SUCCESS -> cr_realm cred = dc_realm chal /\ cr_response cred <> []).
Proof.
  intros Hc Hx. unfold respond_digest. case_match; [by eexists _, _|]. rewrite Hx. cbv zeta. case_match; [|case_match].
  - digest_total. by eexists _, _.
  - digest_total. by eexists _, _.
  - by eexists _, _.
Qed.

(** Once an entry has a cnonce it has a challenge. *)
Definition cached_ok (a : pjsip_cached_auth) : Prop := ca_cnonce a <> [] -> is_Some (ca_last_chal a).

Lemma update_session_total cached hdr n : cached_ok cached -> same_text (ca_realm cached) (dc_realm (ww_digest hdr)) ->
  exists cached' n', update_digest_session guid cached hdr n = Some (cached', n')
  /\ cached_ok cached' /\ ca_realm cached' = ca_realm cached /\ ca_stale_cnt cached' = ca_stale_cnt cached.
Proof.
  intros Hok Hr. unfold update_digest_session. destruct (_ =? 0)%nat; [by eexists _, _|].
  destruct (Nat.eqb_spec (length (ca_cnonce cached)) 0) as [E|E].
  - eexists _, _; split; [done|]. change (ca_realm (cached <| ca_last_chal := _ |> <| ca_cnonce := _ |> <| ca_nc := _ |>)) with (ca_realm cached).
    destruct (Nat.eqb_spec (length (ca_realm cached)) 0) as [El|El]; [|by split_and!; [by eexists|..]].
    split; [by eexists|]. split; [|done]. destruct Hr as [Hl _]. cbn. apply nil_length_inv in El as Er. rewrite Er in *.
    by apply eq_sym, nil_length_inv in Hl.
  - destruct (ca_last_chal cached) as [last|] eqn:El.
    + case_match; (eexists _, _; split; [done|]); [by split|by split; [by eexists|]].
    + exfalso. destruct Hok as [x Hx]; [by intros H; rewrite H in E|congruence].
Qed.

Lemma auth_respond_total hdr uri c method cached n : cred_shape c -> has_ext c = false -> cached_ok cached ->
  same_text (ca_realm cached) (dc_realm (ww_digest hdr)) ->
  exists st cached' n' hauth, auth_respond e pms aka_cb guid hdr uri c method cached n = Some (st, cached', n', hauth)
  /\ cached_ok cached' /\ ca_realm cached' = ca_realm cached /\ ca_stale_cnt cached' = ca_stale_cnt cached
  /\ (st = PJ_SUCCESS -> exists a, hauth = Some a /\ az_proxy a = ww_proxy hdr
        /\ cr_realm (az_digest a) = dc_realm (ww_digest hdr) /\ cr_response (az_digest a) <> []).
Proof.
  intros Hc Hx Hok Hr. unfold auth_respond. destruct (uri PJSIP_MAX_URL_SIZE) as [[|u uri_str]|]; [by eexists _, _, _, _| |by eexists _, _, _, _].
  destruct (negb _); [by eexists _, _, _, _|].
  destruct (update_session_total cached hdr n Hok Hr) as (cached1 & n1 & -> & H1 & H2 & H3).
  destruct (respond_digest_total (ww_digest hdr) (u :: uri_str) c (ca_cnonce cached1) (ca_nc cached1) method Hc Hx) as (st & cred & E & Hs).
  unfold az_digest at 1. rewrite E. destruct (Z.eqb_spec st PJ_SUCCESS) as [->|Hst]; cbn [negb].
  - destruct (Hs eq_refl) as [Hs1 Hs2]. eexists _, _, _, _; split; [done|].
    destruct (length (dc_qop (ww_digest hdr)) =? 0)%nat; [|destruct (ca_qop_value cached1)]; (split_and!; [exact H1|exact H2|exact H3|by intros _; eexists]).
  - by eexists _, _, _, _.
Qed.

(** ** Sending a request again *)

(** An attempt to authenticate for a realm: a header that is not empty. *)
Definition attempt (proxy : bool) (realm : pj_str) (h : sip_hdr) : Prop :=
  match h with
  | HdrAuthorization a =>
      az_proxy a = proxy /\ same_text realm (cr_realm (az_digest a))
      /\ ~ (same_text (az_scheme a) pjsip_DIGEST_STR /\ cr_response (az_digest a) = [])
  | _ => False
  end.

Definition empty_attempt (h : sip_hdr) : Prop :=
  match h with
  | HdrAuthorization a => same_text (az_scheme a) pjsip_DIGEST_STR /\ cr_response (az_digest a) = []
  | _ => False
  end.

Definition sent_hdr (sent : option pjsip_authorization_hdr) : list sip_hdr :=
  match sent with Some a => [HdrAuthorization a] | None => [] end.

(** The search ends at an attempt, or has seen that there is none; only empty
    attempts are dropped. *)
Lemma sent_auth_scan_spec hchal hdrs : let '(before, sent, after) := sent_auth_scan hchal hdrs in
  let att := attempt (ww_proxy hchal) (dc_realm (ww_digest hchal)) in
  match sent with None => after = [] /\ ~ Exists att hdrs | Some a => att (HdrAuthorization a) end
  /\ forall P : sip_hdr -> Prop, (forall h, empty_attempt h -> ~ P h) ->
       Exists P hdrs -> Exists P (before ++ sent_hdr sent ++ after).
Proof.
  induction hdrs as [|h hdrs IH]; [by split; [split; [done|by inversion 1]|inversion 2]|].
  cbn [sent_auth_scan]. destruct (sent_auth_scan hchal hdrs) as [[l sent] r]. cbv zeta in *. destruct IH as [IH1 IH2].
  assert (Hkeep : ~ attempt (ww_proxy hchal) (dc_realm (ww_digest hchal)) h ->
    match sent with None => r = [] /\ ~ Exists (attempt (ww_proxy hchal) (dc_realm (ww_digest hchal))) (h :: hdrs)
               | Some a => attempt (ww_proxy hchal) (dc_realm (ww_digest hchal)) (HdrAuthorization a) end
    /\ forall P : sip_hdr -> Prop, (forall h, empty_attempt h -> ~ P h) ->
         Exists P (h :: hdrs) -> Exists P ((h :: l) ++ sent_hdr sent ++ r)).
  { intros Hh. split.
    - destruct sent; [done|]. split; [apply IH1|]. inversion 1; subst; [done|by apply IH1].
    - intros P HP. cbn [app]. inversion 1; subst; [by left|right; by apply IH2]. }
  destruct h as [a| | | |]; [|apply Hkeep; intros []..].
  destruct (Bool.eqb_spec (az_proxy a) (ww_proxy hchal)) as [Ep|Ep]; cbn [andb]; [|apply Hkeep; by intros []].
  destruct (same_text_spec (dc_realm (ww_digest hchal)) (cr_realm (az_digest a))) as [Er|Er];
    [|apply Hkeep; by intros (_ & ? & _)].
  destruct (same_text_spec (az_scheme a) pjsip_DIGEST_STR) as [Es|Es]; cbn [andb].
  2: { split; [split_and!; [done|done|by intros []]|]. by intros P _. }
  destruct (Nat.eqb_spec (length (cr_response (az_digest a))) 0) as [El|El].
  - apply nil_length_inv in El. split.
    + destruct sent; [done|]. split; [apply IH1|]. inversion 1 as [? ? H1|]; subst; [by apply H1|by apply IH1].
    + intros P HP. inversion 1 as [? ? H1|]; subst; [exfalso; by apply (HP (HdrAuthorization a) (conj Es El))|by apply IH2].
  - split; [split_and!; [done|done|intros [_ H]; by rewrite H in El]|]. by intros P _.
Qed.

Lemma attempt_not_empty proxy realm h : empty_attempt h -> ~ attempt proxy realm h.
Proof. destruct h; [|done..]. by intros H (_ & _ & H'). Qed.

(** The session: credentials that were written and have no AKA data, and entries
    in order. *)
Definition creds_ok (sess : pjsip_auth_clt_sess) : Prop :=
  exists creds, read_creds (cs_cred_cnt sess) (cs_cred_info sess) = Some creds
  /\ Forall (fun c => cred_shape c /\ has_ext c = false) creds.
Definition sess_ok (sess : pjsip_auth_clt_sess) : Prop := creds_ok sess /\ Forall cached_ok (cs_cached_auth sess).

Lemma find_cred_total (Q : pjsip_cred_info -> Prop) n realm : forall l creds w, read_creds n l = Some creds -> Forall Q creds ->
  (forall c, w = Some c -> Q c) ->
  exists r, find_cred_loop n l realm w = Some r /\ forall c, r = Some c -> Q c.
Proof.
  induction n as [|n IH]; intros l creds w Hr HQ Hw; [by exists w|].
  cbn in Hr. destruct l as [|[c|] l]; [done| |done]. cbn [find_cred_loop].
  destruct (read_creds n l) as [creds'|] eqn:E; [|done]. injection Hr as <-. apply list.Forall_cons in HQ as [Hc HQ].
  destruct (_ =? 0); [exists (Some c); split; [done|by intros ? [= <-]]|].
  apply (IH l creds'); [done|done|]. case_decide; [by intros ? [= <-]|done].
Qed.

Section Process.
Context (sess : pjsip_auth_clt_sess) (method : pj_str) (uri : sip_uri) (hchal : pjsip_www_authenticate_hdr).
Let p := ww_proxy hchal.
Let r := dc_realm (ww_digest hchal).

(** Behind the search: the headers are those given, or the answer is not a success. *)
Lemma process_respond (hdrs : list sip_hdr) cached n : creds_ok sess -> cached_ok cached -> same_text (ca_realm cached) r ->
  exists st cached' n' hauth,
    match auth_find_cred sess r with
    | None => None
    | Some None => Some (PJSIP_ENOCREDENTIAL, hdrs, cached, n, None)
    | Some (Some cred) =>
        match auth_respond e pms aka_cb guid hchal uri cred method cached n with
        | None => None
        | Some (status, cached, n, hauth) => Some (status, hdrs, cached, n, hauth)
        end
    end = Some (st, hdrs, cached', n', hauth)
  /\ cached_ok cached' /\ ca_realm cached' = ca_realm cached /\ ca_stale_cnt cached' = ca_stale_cnt cached
  /\ (st = PJ_SUCCESS -> exists a, hauth = Some a /\ forall p' r', p = p' -> same_text r r' -> attempt p' r' (HdrAuthorization a)).
Proof.
  intros (creds & Hrd & Hcr) Hok Hr. unfold auth_find_cred.
  destruct (find_cred_total _ _ r _ _ None Hrd Hcr ltac:(done)) as ([c|] & -> & Hc); [|by eexists _, _, _, _].
  destruct (Hc c eq_refl) as [Hs Hx].
  destruct (auth_respond_total hchal uri c method cached n Hs Hx Hok Hr) as (st & cached' & n' & hauth & -> & H1 & H2 & H3 & H4).
  eexists _, _, _, _; split; [done|]. split_and!; [done..|]. intros Hst. destruct (H4 Hst) as (a & -> & Ha1 & Ha2 & Ha3).
  exists a. split; [done|]. intros p' r' <- Hr'. split_and!; [done|by rewrite Ha2, <- Hr'|by intros []].
Qed.

Lemma process_auth_total hdrs cached n : creds_ok sess -> cached_ok cached -> same_text (ca_realm cached) r ->
  0 <= ca_stale_cnt cached <= 2 ->
  exists st hdrs' cached' n' hauth,
    process_auth e pms aka_cb guid sess method uri hchal hdrs cached n = Some (st, hdrs', cached', n', hauth)
  /\ cached_ok cached' /\ ca_realm cached' = ca_realm cached
  /\ (forall P : sip_hdr -> Prop, (forall a, ~ P (HdrAuthorization a)) -> Exists P hdrs -> Exists P hdrs')
  /\ (st = PJ_SUCCESS ->
      ca_stale_cnt cached <= ca_stale_cnt cached' <= 2
      /\ (Exists (attempt p r) hdrs -> ca_stale_cnt cached + 1 <= ca_stale_cnt cached')
      /\ exists a, hauth = Some a /\ attempt p r (HdrAuthorization a)
         /\ forall p' r', Exists (attempt p' r') hdrs -> Exists (attempt p' r') (hdrs' ++ [HdrAuthorization a])).
Proof.
  intros Hcr Hok Hr Hst. unfold process_auth. pose proof (sent_auth_scan_spec hchal hdrs) as Hscan.
  destruct (sent_auth_scan hchal hdrs) as [[before sent] after]. cbv zeta in Hscan. fold p r in Hscan. destruct Hscan as [Hs1 Hs2].
  assert (HP : forall P : sip_hdr -> Prop, (forall a, ~ P (HdrAuthorization a)) -> Exists P hdrs -> Exists P (before ++ after)).
  { intros P HP Hex. apply Hs2 in Hex; [|intros [a| | | |]; [by intros _|done..]].
    apply Exists_app in Hex as [H|[H|H]%Exists_app]; apply Exists_app; [by left| |by right].
    destruct sent; cbn in H; inversion H as [? ? Ha|? ? Ha]; subst; [by apply HP in Ha|inversion Ha]. }
  destruct sent as [a|].
  - destruct (negb _ || negb _); cbn [negb].
    2: { eexists _, _, _, _, _; split; [done|]. split_and!; [done|done| |done].
         intros P HP' Hex. apply Hs2 in Hex; [exact Hex|intros [? | | | |]; [by intros _|done..]]. }
    cbv zeta. change (ca_stale_cnt (cached <| ca_stale_cnt := ?v |>)) with v. unfold PJSIP_MAX_STALE_COUNT.
    rewrite (u32_small (_ + 1)) by (unfold is_u32; lia).
    destruct (Z.leb_spec 3 (ca_stale_cnt cached + 1)).
    { eexists _, _, _, _, _; split; [done|]. split_and!; [done|done| |done].
      intros P HP' Hex. apply Hs2 in Hex; [exact Hex|intros [? | | | |]; [by intros _|done..]]. }
    match goal with |- context [(PJSIP_ENOCREDENTIAL, _, ?c1, n, None)] =>
      destruct (process_respond (before ++ after) c1 n Hcr Hok Hr) as (st & cached' & n' & hauth & E & H1 & H2 & H3 & H4) end.
    cbn in H2, H3. eexists _, _, _, _, _; split; [exact E|]. split_and!; [done|done|done|].
    intros Hs. destruct (H4 Hs) as (a' & -> & Ha'). split_and!; [lia|lia|lia|]. exists a'. split_and!; [done|by apply Ha'|].
    intros p' r' Hex. apply Hs2 in Hex; [|intros; by apply attempt_not_empty].
    rewrite <- app_assoc. apply Exists_app in Hex as [Hex|[Hex|Hex]%Exists_app]; apply Exists_app; [by left|right..]; apply Exists_app; [right|by left].
    left. inversion Hex as [? ? Ha|? ? Ha]; subst; [|inversion Ha]. destruct Ha as (Hp & Hr' & _).
    destruct Hs1 as (Hp1 & Hr1 & _). apply Ha'; [congruence|]. by rewrite Hr1, <- Hr'.
  - destruct Hs1 as [-> Hno]. rewrite app_nil_r in HP. cbn [sent_hdr app] in Hs2. rewrite app_nil_r in Hs2.
    destruct (process_respond before cached n Hcr Hok Hr) as (st & cached' & n' & hauth & E & H1 & H2 & H3 & H4).
    eexists _, _, _, _, _; split; [exact E|]. split_and!; [done|done|done|].
    intros Hs. destruct (H4 Hs) as (a' & -> & Ha'). split_and!; [lia|lia|done|]. exists a'. split_and!; [done|by apply Ha'|].
    intros p' r' Hex. apply Exists_app. left. apply Hs2; [|done]. intros; by apply attempt_not_empty.
Qed.
End Process.

(** *** The entries of the session *)

Lemma find_cached_some l realm i : find_cached_auth l realm = Some i ->
  exists a, l !! i = Some a /\ same_text (ca_realm a) realm.
Proof.
  revert i. induction l as [|a l IH]; intros i; [done|]. cbn [find_cached_auth].
  destruct (same_text_spec (ca_realm a) realm) as [H|H]; [intros [= <-]; by exists a|].
  destruct (find_cached_auth l realm) as [k|]; [|done]. intros [= <-]. by apply IH.
Qed.

(** The search looks at the realms only. *)
Lemma find_cached_realms l l' realm : map ca_realm l = map ca_realm l' ->
  find_cached_auth l realm = find_cached_auth l' realm.
Proof.
  revert l'. induction l as [|a l IH]; intros [|a' l'] E; try done. injection E as E1 E2. cbn [find_cached_auth].
  by rewrite E1, (IH l' E2).
Qed.

Lemma find_cached_same l r1 r2 : same_text r1 r2 -> find_cached_auth l r1 = find_cached_auth l r2.
Proof.
  intros H. induction l as [|a l IH]; [done|]. cbn [find_cached_auth]. rewrite IH.
  destruct (same_text_spec (ca_realm a) r1) as [H1|H1], (same_text_spec (ca_realm a) r2) as [H2|H2]; try done;
    exfalso; [apply H2; by rewrite <- H|apply H1; by rewrite H].
Qed.

Lemma find_cached_app l x realm : find_cached_auth (l ++ [x]) realm
  = match find_cached_auth l realm with
    | Some i => Some i
    | None => if pj_stricmp (ca_realm x) realm =? 0 then Some (length l) else None
    end.
Proof.
  induction l as [|a l IH]; cbn [app find_cached_auth length]; [by case_match|].
  destruct (pj_stricmp (ca_realm a) realm =? 0); [done|]. rewrite IH.
  by destruct (find_cached_auth l realm), (pj_stricmp (ca_realm x) realm =? 0).
Qed.

(** The stale retries counted for a realm. *)
Definition level (l : list pjsip_cached_auth) (realm : pj_str) : Z :=
  match find_cached_auth l realm with
  | Some i => match l !! i with Some a => ca_stale_cnt a | None => 0 end
  | None => 0
  end.
Definition levels_ok (l : list pjsip_cached_auth) : Prop := Forall (fun a => 0 <= ca_stale_cnt a <= 2) l.

Lemma level_bounds l realm : levels_ok l -> 0 <= level l realm <= 2.
Proof.
  intros H. unfold level. destruct (find_cached_auth l realm) as [i|]; [|lia].
  destruct (l !! i) as [a|] eqn:E; [|lia]. by eapply Forall_lookup_1 in H.
Qed.

Lemma level_app l x realm : ca_stale_cnt x = 0 -> level (l ++ [x]) realm = level l realm.
Proof.
  intros Hx. unfold level. rewrite find_cached_app. destruct (find_cached_auth l realm) as [i|] eqn:E.
  - destruct (find_cached_some _ _ _ E) as (a & Ea & _). by rewrite (lookup_app_l_Some _ _ _ _ Ea), Ea.
  - destruct (_ =? 0); [|done]. by rewrite list_lookup_middle by done.
Qed.

Lemma level_insert l i a x realm : l !! i = Some a -> ca_realm x = ca_realm a ->
  level (<[i := x]> l) realm
  = if decide (find_cached_auth l realm = Some i) then ca_stale_cnt x else level l realm.
Proof.
  intros Ha Hx. unfold level. rewrite (find_cached_realms (<[i := x]> l) l).
  - case_decide as D; [rewrite D, list_lookup_insert_eq; [done|by eapply lookup_lt_Some]|].
    destruct (find_cached_auth l realm) as [k|]; [|done]. by rewrite list_lookup_insert_ne by congruence.
  - change (ca_realm <$> <[i := x]> l = ca_realm <$> l). rewrite list_fmap_insert, Hx.
    apply list_insert_id. by rewrite list_lookup_fmap, Ha.
Qed.

(** The entry for a challenge: there is one, and nothing else changes. *)
Lemma cached_auth_for_spec sess hchal : sess_ok sess -> levels_ok (cs_cached_auth sess) ->
  let '(i, sess') := cached_auth_for sess hchal in
  sess_ok sess' /\ levels_ok (cs_cached_auth sess')
  /\ (forall realm, level (cs_cached_auth sess') realm = level (cs_cached_auth sess) realm)
  /\ find_cached_auth (cs_cached_auth sess') (dc_realm (ww_digest hchal)) = Some i.
Proof.
  intros [Hc Hok] Hlv. unfold cached_auth_for. destruct (find_cached_auth (cs_cached_auth sess) _) as [i|] eqn:E; [done|].
  split_and!.
  - split; [exact Hc|]. apply Forall_app; split; [exact Hok|]. apply Forall_cons_2; [intros Hn; by destruct Hn|apply Forall_nil_2].
  - apply Forall_app; split; [exact Hlv|]. apply Forall_cons_2; [cbn; lia|apply Forall_nil_2].
  - intros realm. by apply level_app.
  - cbn. rewrite find_cached_app, E. cbn. by destruct (same_text_spec (dc_realm (ww_digest hchal)) (dc_realm (ww_digest hchal))) as [|[]].
Qed.

(** *** One challenge, and the loop *)

(** What answering challenges does to the session and the request, for the
    attempts of one realm. *)
Definition progress (proxy : bool) (realm : pj_str) (answered : bool) (sess sess' : pjsip_auth_clt_sess)
    (tdata tdata' : pjsip_tx_data) : Prop :=
  levels_ok (cs_cached_auth sess')
  /\ level (cs_cached_auth sess) realm <= level (cs_cached_auth sess') realm
  /\ (Exists (attempt proxy realm) (td_hdrs tdata) -> Exists (attempt proxy realm) (td_hdrs tdata'))
  /\ (answered = true -> Exists (attempt proxy realm) (td_hdrs tdata')
      /\ (Exists (attempt proxy realm) (td_hdrs tdata) ->
          level (cs_cached_auth sess) realm + 1 <= level (cs_cached_auth sess') realm)).

(** What stays: the session is in order, other kinds of headers are not lost. *)
Definition keeps (sess' : pjsip_auth_clt_sess) (tdata tdata' : pjsip_tx_data) : Prop :=
  sess_ok sess' /\ td_is_request tdata' = td_is_request tdata
  /\ forall P : sip_hdr -> Prop, (forall a, ~ P (HdrAuthorization a)) -> Exists P (td_hdrs tdata) -> Exists P (td_hdrs tdata').

Definition is_challenge (proxy : bool) (realm : pj_str) (w : pjsip_www_authenticate_hdr) : Prop :=
  ww_proxy w = proxy /\ same_text (dc_realm (ww_digest w)) realm.

Lemma reinit_challenge_total sess tdata hchal : sess_ok sess -> levels_ok (cs_cached_auth sess) ->
  exists st sess' tdata', reinit_challenge e pms aka_cb guid sess tdata hchal = Some (st, sess', tdata')
  /\ keeps sess' tdata tdata'
  /\ (st = PJ_SUCCESS -> forall proxy realm answered, (answered = true -> is_challenge proxy realm hchal) ->
        progress proxy realm answered sess sess' tdata tdata').
Proof.
  intros Hok Hlv. unfold reinit_challenge. pose proof (cached_auth_for_spec sess hchal Hok Hlv) as H.
  destruct (cached_auth_for sess hchal) as [i sess1]. destruct H as ([Hc1 Hok1] & Hlv1 & Hsame & Hfind).
  destruct (find_cached_some _ _ _ Hfind) as (cached & Ei & Hrealm). rewrite Ei.
  assert (Hco : cached_ok cached) by (by eapply Forall_lookup_1 in Hok1).
  assert (Hcl : 0 <= ca_stale_cnt cached <= 2) by (by eapply (Forall_lookup_1 (fun a => 0 <= ca_stale_cnt a <= 2)) in Hlv1).
  destruct (process_auth_total sess1 (td_method tdata) (td_uri tdata) hchal (td_hdrs tdata) cached (cs_guid sess1) Hc1 Hco Hrealm Hcl)
    as (st & hdrs' & cached' & n' & hauth & -> & H1 & H2 & H3 & H4).
  eexists _, _, _; split; [done|]. split.
  - split_and!; [split; [exact Hc1|by apply Forall_insert]|done|]. intros P HP Hex. apply Exists_app. left. by apply H3.
  - intros Hst proxy realm answered Hans. destruct (H4 Hst) as (Hlo & Hinc & a & -> & Hatt & Hkeep).
    assert (Hlev : forall r', find_cached_auth (cs_cached_auth sess1) r' = Some i -> level (cs_cached_auth sess) r' = ca_stale_cnt cached)
      by (intros r' Hf; rewrite <- Hsame; unfold level; by rewrite Hf, Ei).
    unfold progress. cbn [cs_cached_auth td_hdrs].
    change (cs_cached_auth (sess1 <| cs_cached_auth := ?l |> <| cs_guid := n' |>)) with l.
    change (td_hdrs (tdata <| td_hdrs := ?l |>)) with l.
    rewrite (level_insert _ _ _ _ _ Ei H2). split_and!.
    + apply Forall_insert; [exact Hlv1|lia].
    + case_decide as D; [rewrite (Hlev _ D); lia|by rewrite Hsame].
    + apply Hkeep.
    + intros Ha. destruct (Hans Ha) as [<- Hr]. split.
      * apply Exists_app. right. left. destruct Hatt as (? & ? & ?). split_and!; [done|by rewrite <- Hr|done].
      * intros Hex. rewrite <- (find_cached_same _ _ _ Hr), decide_True by exact Hfind.
        rewrite (Hlev realm) by (by rewrite <- (find_cached_same _ _ _ Hr)). apply Hinc.
        eapply Exists_impl; [|exact Hex]. intros [b| | | |]; [|done..]. intros (? & ? & ?). split_and!; [done|by rewrite Hr|done].
Qed.

Definition hdr_challenges (proxy : bool) (realm : pj_str) (h : sip_hdr) : Prop :=
  match h with HdrAuthenticate w => is_challenge proxy realm w | _ => False end.

Lemma is_challenge_dec proxy realm w : Decision (is_challenge proxy realm w).
Proof.
  unfold is_challenge. destruct (decide (ww_proxy w = proxy)) as [Hp|Hp]; [|right; by intros []].
  destruct (pj_stricmp (dc_realm (ww_digest w)) realm =? 0) eqn:E; [left|right];
    destruct (same_text_spec (dc_realm (ww_digest w)) realm); try discriminate; [done|by intros []].
Defined.

Lemma progress_refl proxy realm sess tdata : levels_ok (cs_cached_auth sess) -> progress proxy realm false sess sess tdata tdata.
Proof. by intros H; split_and!. Qed.

Lemma progress_trans proxy realm b1 b2 s1 s2 s3 t1 t2 t3 : progress proxy realm b1 s1 s2 t1 t2 -> progress proxy realm b2 s2 s3 t2 t3 ->
  progress proxy realm (b1 || b2) s1 s3 t1 t3.
Proof.
  intros (_ & L1 & E1 & A1) (L & L2 & E2 & A2). split_and!; [done|lia|by auto|]. intros [->| ->]%orb_true_iff.
  - destruct A1 as [A1 B1]; [done|]. split; [by auto|]. intros H. specialize (B1 H). lia.
  - destruct A2 as [A2 B2]; [done|]. split; [done|]. intros H. specialize (B2 (E1 H)). lia.
Qed.

Lemma keeps_trans s1 s2 t1 t2 t3 : keeps s1 t1 t2 -> keeps s2 t2 t3 -> keeps s2 t1 t3.
Proof. intros (_ & E1 & P1) (? & E2 & P2). split_and!; [done|congruence|]. intros P HP Hex. by apply P2, P1. Qed.

Lemma reinit_loop_total hdrs : forall sess tdata cnt, sess_ok sess -> levels_ok (cs_cached_auth sess) ->
  exists st sess' tdata' cnt', reinit_loop e pms aka_cb guid hdrs sess tdata cnt = Some (st, sess', tdata', cnt')
  /\ keeps sess' tdata tdata'
  /\ (st = PJ_SUCCESS -> forall proxy realm, exists answered,
        (Exists (hdr_challenges proxy realm) hdrs -> answered = true) /\ progress proxy realm answered sess sess' tdata tdata').
Proof.
  induction hdrs as [|h hdrs IH]; intros sess tdata cnt Hok Hlv.
  - eexists _, _, _, _; split; [done|]. split; [by split_and!|]. intros _ proxy realm. exists false.
    split; [by inversion 1|by apply progress_refl].
  - cbn [reinit_loop].
    assert (Hskip : (forall proxy realm, ~ hdr_challenges proxy realm h) ->
      exists st sess' tdata' cnt', reinit_loop e pms aka_cb guid hdrs sess tdata cnt = Some (st, sess', tdata', cnt')
      /\ keeps sess' tdata tdata'
      /\ (st = PJ_SUCCESS -> forall proxy realm, exists answered,
            (Exists (hdr_challenges proxy realm) (h :: hdrs) -> answered = true)
            /\ progress proxy realm answered sess sess' tdata tdata')).
    { intros Hno. destruct (IH sess tdata cnt Hok Hlv) as (st & s' & t' & c' & E & K & HP).
      eexists _, _, _, _; split; [exact E|]. split; [done|]. intros Hst proxy realm.
      destruct (HP Hst proxy realm) as (b & Hb & Hpr). exists b. split; [|done].
      inversion 1 as [? ? Hh|]; subst; [by apply Hno in Hh|by apply Hb]. }
    destruct h as [|w| | |]; try (apply Hskip; intros ? ? []). clear Hskip.
    destruct (reinit_challenge_total sess tdata w Hok Hlv) as (st & s1 & t1 & -> & K1 & P1).
    destruct (Z.eqb_spec st PJ_SUCCESS) as [Hst|Hst].
    2: { eexists _, _, _, _; split; [done|]. by split. }
    destruct (IH s1 t1 (S cnt)) as (st2 & s2 & t2 & c2 & E & K2 & P2); [apply K1|by apply (P1 Hst true [] false)|].
    eexists _, _, _, _; split; [exact E|]. split; [by eapply keeps_trans|]. intros Hst2 proxy realm.
    destruct (P2 Hst2 proxy realm) as (b & Hb & Hpr).
    destruct (is_challenge_dec proxy realm w) as [D|D].
    + exists true. split; [done|]. eapply (progress_trans _ _ true b); [|exact Hpr]. by apply (P1 Hst).
    + exists b. split; [|eapply (progress_trans _ _ false b); [by apply (P1 Hst)|exact Hpr]].
      inversion 1 as [? ? Hc|]; subst; [by apply D in Hc|by apply Hb].
Qed.
End Client.

(** *** Behind the loop *)

Definition as_authorization (h : sip_hdr) : option pjsip_authorization_hdr :=
  match h with HdrAuthorization a => Some a | _ => None end.
Definition as_via (h : sip_hdr) : option unit := match h with HdrVia _ => Some tt | _ => None end.
Definition is_via (h : sip_hdr) : Prop := is_Some (as_via h).
Abbreviation auths := (omap as_authorization).

Lemma exists_omap {A} (f : sip_hdr -> option A) (P : A -> Prop) hdrs :
  Exists (fun h => exists a, f h = Some a /\ P a) hdrs <-> Exists P (omap f hdrs).
Proof.
  rewrite !list.Exists_exists. setoid_rewrite list_elem_of_omap. split.
  - intros (h & Hin & a & E & HP). exists a. split; [by exists h|done].
  - intros (a & (h & Hin & E) & HP). exists h. split; [done|]. by exists a.
Qed.

Lemma via_omap hdrs : Exists is_via hdrs <-> omap as_via hdrs <> [].
Proof.
  induction hdrs as [|h hdrs IH]; [split; [by inversion 1|done]|].
  rewrite List.Exists_cons, IH. destruct h; cbn; split; try (by intros [[x [=]]|H]); try (by right). all: by left; eexists.
Qed.

Lemma attempt_auths proxy realm hdrs :
  Exists (attempt proxy realm) hdrs <-> Exists (fun a => attempt proxy realm (HdrAuthorization a)) (auths hdrs).
Proof.
  rewrite <- exists_omap. split; (intros H; eapply Exists_impl; [|exact H]).
  - intros [a| | | |]; [by exists a|done..].
  - intros [a| | | |]; intros (? & [= <-] & ?); done.
Qed.

Lemma find_auth_auths proxy realm hdrs : find_auth_hdr proxy realm hdrs = find_auth_hdr proxy realm (map HdrAuthorization (auths hdrs)).
Proof. induction hdrs as [|[a| | | |] hdrs IH]; [done| |exact IH..]. cbn. case_match; [done|exact IH]. Qed.

Lemma reset_branch_spec hdrs : Exists is_via hdrs ->
  exists hdrs', reset_branch hdrs = Some hdrs' /\ auths hdrs' = auths hdrs /\ Exists is_via hdrs'.
Proof.
  induction hdrs as [|h hdrs IH]; [by inversion 1|]. intros Hex.
  assert (Hrest : ~ is_via h -> exists hdrs', reset_branch hdrs = Some hdrs' /\ auths hdrs' = auths hdrs /\ Exists is_via hdrs')
    by (intros Hv; apply IH; by inversion Hex).
  destruct h as [a|w|u|b|id]; cbn [reset_branch].
  4: { eexists; split; [done|]. split; [done|]. left. by eexists. }
  all: destruct Hrest as (l & -> & Ha & Hv); [by intros []|]; eexists; (split; [done|]); split; [cbn; by rewrite <- Ha|by right].
Qed.

Lemma last_route_spec hdrs j u : last_route hdrs = Some (j, u) -> hdrs !! j = Some (HdrRoute u).
Proof.
  revert j. induction hdrs as [|h hdrs IH]; intros j; [done|]. cbn [last_route].
  destruct (last_route hdrs) as [[k v]|]; [intros [= <- <-]; by apply IH|]. destruct h; try done. by intros [= <- <-].
Qed.
Lemma first_route_le hdrs i j u : first_route hdrs = Some i -> last_route hdrs = Some (j, u) -> (i <= j)%nat.
Proof.
  revert i j u. induction hdrs as [|h hdrs IH]; intros i j u; [done|]. cbn [first_route last_route].
  destruct (last_route hdrs) as [[k v]|]; destruct h, (first_route hdrs) as [m|] eqn:E; cbn; intros Hi Hj; simplify_eq; try lia.
  all: specialize (IH m k u eq_refl eq_refl); lia.
Qed.

(** Restoring the strict route moves Route headers only. *)
Lemma restore_route_omap {A} (f : sip_hdr -> option A) tdata : (forall u, f (HdrRoute u) = None) ->
  omap f (td_hdrs (pjsip_restore_strict_route_set tdata)) = omap f (td_hdrs tdata).
Proof.
  intros Hf. unfold pjsip_restore_strict_route_set. destruct (td_saved_strict_route tdata) as [saved|]; [|done].
  change (td_hdrs (tdata <| td_saved_strict_route := None |>)) with (td_hdrs tdata).
  destruct (first_route (td_hdrs tdata)) as [i|] eqn:Ei; [|done].
  destruct (last_route (td_hdrs tdata)) as [[j u]|] eqn:Ej; [|done].
  change (td_hdrs (_ <| td_uri := u |> <| td_hdrs := ?l |>)) with l.
  pose proof (first_route_le _ _ _ _ Ei Ej). apply last_route_spec in Ej.
  assert (El : drop i (td_hdrs tdata) !! (j - i)%nat = Some (HdrRoute u)) by (rewrite lookup_drop; by replace (i + (j - i))%nat with j by lia).
  rewrite omap_app. cbn. rewrite Hf, delete_take_drop, <- omap_app.
  rewrite <- (take_drop i (td_hdrs tdata)) at 4. rewrite <- (take_drop_middle _ _ _ El) at 3.
  rewrite !omap_app. cbn. by rewrite Hf.
Qed.

Section Retry.
Context (e : endianness) (pms : pj_md5_context).
Context (aka_cb : pjsip_digest_challenge -> pjsip_cred_info -> pj_str -> pjsip_digest_credential
                  -> pj_status_t * pjsip_digest_credential).
Context (guid : nat -> pj_str).

(** A response is answered, or it is not; nothing else can happen. *)
Lemma reinit_req_total sess rx tdata : sess_ok sess -> levels_ok (cs_cached_auth sess) -> Exists is_via (td_hdrs tdata) ->
  exists st sess' tdata', pjsip_auth_clt_reinit_req e pms aka_cb guid sess rx tdata = Some (st, sess', tdata')
  /\ (st = PJ_SUCCESS -> sess_ok sess' /\ Exists is_via (td_hdrs tdata')
      /\ forall proxy realm, exists answered,
           (Exists (hdr_challenges proxy realm) (rd_hdrs rx) -> answered = true)
           /\ progress proxy realm answered sess sess' tdata tdata').
Proof.
  intros Hok Hlv Hvia. unfold pjsip_auth_clt_reinit_req.
  destruct (rd_is_request rx); [by eexists _, _, _|]. destruct (negb (td_is_request tdata)); [by eexists _, _, _|].
  destruct (negb (_ || _)); [by eexists _, _, _|]. set (t0 := tdata <| td_auth_retry := false |>).
  destruct (reinit_loop_total e pms aka_cb guid (rd_hdrs rx) sess t0 0 Hok Hlv) as (st & s1 & t1 & cnt & -> & K & P).
  destruct (Z.eqb_spec st PJ_SUCCESS) as [Hst|Hst]; cbn [negb]; [|by eexists _, _, _].
  destruct (cnt =? 0)%nat; [by eexists _, _, _|].
  assert (Hv1 : Exists is_via (td_hdrs t1)) by (apply K; [by intros a []|exact Hvia]).
  destruct (reset_branch_spec (td_hdrs t1) Hv1) as (hdrs & -> & Ha & Hv). eexists _, _, _; split; [done|]. intros _.
  set (t2 := t1 <| td_hdrs := hdrs |>).
  match goal with |- context [Exists is_via (td_hdrs ?t)] =>
    assert (Et : td_hdrs t = td_hdrs (pjsip_restore_strict_route_set t2)) by reflexivity end.
  split_and!; [apply K| |].
  - rewrite Et. apply via_omap. rewrite restore_route_omap by done. by apply via_omap.
  - intros proxy realm. destruct (P Hst proxy realm) as (b & Hb & H1 & H2 & H3 & H4). exists b. split; [done|].
    unfold progress. rewrite Et.
    assert (Hatt : Exists (attempt proxy realm) (td_hdrs t1) ->
                   Exists (attempt proxy realm) (td_hdrs (pjsip_restore_strict_route_set t2))).
    { rewrite !attempt_auths, restore_route_omap by done. by rewrite <- Ha. }
    split_and!; [done|done|by auto|]. intros Hbt. destruct (H4 Hbt) as [H5 H6]. by split; [apply Hatt|].
Qed.

(** The responses to a request, one after another: how often it is sent again. *)
Fixpoint sent_again (responses : list pjsip_rx_data) (sess : pjsip_auth_clt_sess) (tdata : pjsip_tx_data) : option nat :=
  match responses with
  | [] => Some O
  | rx :: responses =>
      match pjsip_auth_clt_reinit_req e pms aka_cb guid sess rx tdata with
      | None => None
      | Some (st, sess, tdata) => if st =? PJ_SUCCESS then S <$> sent_again responses sess tdata else Some O
      end
  end.

Lemma sent_again_bound proxy realm responses : forall sess tdata, sess_ok sess -> levels_ok (cs_cached_auth sess) ->
  Exists is_via (td_hdrs tdata) -> Forall (fun rx => Exists (hdr_challenges proxy realm) (rd_hdrs rx)) responses ->
  exists n, sent_again responses sess tdata = Some n /\ (n <= 3)%nat
  /\ (Exists (attempt proxy realm) (td_hdrs tdata) -> Z.of_nat n <= 2 - level (cs_cached_auth sess) realm).
Proof.
  induction responses as [|rx responses IH]; intros sess tdata Hok Hlv Hvia Hch; pose proof (level_bounds _ realm Hlv) as Hl.
  - exists O. split_and!; [done|lia|lia].
  - apply list.Forall_cons in Hch as [Hrx Hch]. cbn [sent_again].
    destruct (reinit_req_total sess rx tdata Hok Hlv Hvia) as (st & s1 & t1 & -> & H).
    destruct (Z.eqb_spec st PJ_SUCCESS) as [Hst|Hst]; [|exists O; split_and!; [done|lia|lia]].
    destruct (H Hst) as (Hok1 & Hv1 & Hp). destruct (Hp proxy realm) as (b & Hb & Hlv1 & _ & _ & Ha).
    destruct (Ha (Hb Hrx)) as [Hatt Hinc]. destruct (IH s1 t1 Hok1 Hlv1 Hv1 Hch) as (n & -> & Hn & Hn').
    specialize (Hn' Hatt). pose proof (level_bounds _ realm Hlv1). exists (S n). split_and!; [done|lia|].
    intros Hex. specialize (Hinc Hex). lia.
Qed.

Lemma init_req_ready sess tdata sess0 tdata0 : sess_ok sess -> Exists is_via (td_hdrs tdata) ->
  pjsip_auth_clt_init_req sess tdata = Some (PJ_SUCCESS, sess0, tdata0) ->
  sess_ok sess0 /\ levels_ok (cs_cached_auth sess0) /\ Exists is_via (td_hdrs tdata0).
Proof.
  intros [Hc Hok] Hv. unfold pjsip_auth_clt_init_req. destruct (negb (td_is_request tdata)); [done|].
  set (s1 := sess <| cs_cached_auth := _ |>).
  assert (H1 : sess_ok s1 /\ levels_ok (cs_cached_auth s1)).
  { split; [split; [exact Hc|]|]; cbn.
    - apply Forall_fmap. eapply Forall_impl; [|exact Hok]. by intros a Ha.
    - apply Forall_fmap, List.Forall_forall. intros a _. cbn. lia. }
  clearbody s1. destruct H1 as [H1 H2].
  destruct (negb (pf_initial_auth (cs_pref s1))); [intros [= <- <-]; by split_and!|].
  destruct (td_uri tdata PJSIP_MAX_URL_SIZE) as [[|u uri]|]; [done| |done].
  destruct (_ <=? _)%nat; [done|]. destruct (read_creds _ _); [|done]. intros [= <- <-].
  split_and!; [exact H1|exact H2|]. apply Exists_app. by left.
Qed.

(** C17. A request prepared by [pjsip_auth_clt_init_req] is sent again at most
    three times, whatever responses come, when each of them challenges one realm
    (with other challenges or without): the third answer with a new nonce is the
    last.  And no response is left undecided: each is answered or refused. *)
Theorem sip_retries_bounded sess tdata sess0 tdata0 proxy realm responses :
  sess_ok sess -> Exists is_via (td_hdrs tdata) ->
  pjsip_auth_clt_init_req sess tdata = Some (PJ_SUCCESS, sess0, tdata0) ->
  Forall (fun rx => Exists (hdr_challenges proxy realm) (rd_hdrs rx)) responses ->
  exists n, sent_again responses sess0 tdata0 = Some n /\ (n <= 3)%nat.
Proof.
  intros Hok Hv Hi Hch. destruct (init_req_ready sess tdata sess0 tdata0 Hok Hv Hi) as (H1 & H2 & H3).
  destruct (sent_again_bound proxy realm responses sess0 tdata0 H1 H2 H3 Hch) as (n & E & Hn & _). by exists n.
Qed.
End Retry.

(** ** A challenge, its answer, and the verdict *)

Lemma str_small s : bytes_ok s -> (length s <= 64)%nat -> str_ok s.
Proof. intros Hb Hl. split; [exact Hb|lia]. Qed.

Lemma print_nc_ok nc : is_u32 nc -> str_ok (print_nc nc).
Proof.
  unfold is_u32. intros Hn. assert (Hd : Forall (fun d => 48 <= d <= 57) (pj_utoa nc)) by (apply pj_utoa_digits; lia).
  pose proof (length_pj_utoa nc 10 ltac:(lia) ltac:(lia)). unfold print_nc. apply str_small.
  - apply Forall_app; split; [apply Forall_replicate; unfold is_u8; lia|].
    eapply Forall_impl; [|exact Hd]. unfold is_u8. cbn. lia.
  - rewrite length_app, length_replicate. lia.
Qed.

Lemma hex_nth_ok n : is_u8 (nth n pj_hex_digits 0).
Proof. unfold is_u8. do 16 (destruct n as [|n]; [by vm_compute|]). by destruct n. Qed.

Lemma random_string_ok rand i : str_ok (pj_create_random_string rand i 16).
Proof.
  unfold pj_create_random_string. change (16 mod 8)%nat with O. cbn [seq map]. rewrite app_nil_r.
  change (16 / 8)%nat with 2%nat. unfold rand_chars, pj_val_to_hex_digit. cbn [seq map concat app].
  apply str_small; [|cbn [length]; lia]. repeat (apply Forall_cons_2; [apply hex_nth_ok|]). apply Forall_nil_2.
Qed.

Section Answer.
Context (e : endianness) (pms : pj_md5_context).
Context (aka_cb : pjsip_digest_challenge -> pjsip_cred_info -> pj_str -> pjsip_digest_credential
                  -> pj_status_t * pjsip_digest_credential).
Context (guid : nat -> pj_str).
Hypothesis Hpms : length (md_in pms) = 64%nat.
Hypothesis Hguid : forall n, guid n <> [] /\ str_ok (guid n).

(** A header with the right digest. *)
Definition right_answer (c : pjsip_cred_info) (method : pj_str) (chal : pjsip_digest_challenge) (cred : pjsip_digest_credential) : Prop :=
  credential_ok cred /\ cr_username cred = ci_username c /\ cr_realm cred = dc_realm chal
  /\ cr_response cred
     = rfc_digest (rfc_ha1 (dc_realm chal) c) (cr_nonce cred)
         (match cr_qop cred with [] => None | q => Some (cr_nc cred, cr_cnonce cred, q) end) method (cr_uri cred).

(** Offers the client can take. *)
Definition qop_offer_ok (qop : pj_str) : Prop := qop = [] \/ has_auth_qop qop = true.

Lemma respond_digest_right chal uri c cnonce nc method : cred_ok c -> has_ext c = false ->
  Forall str_ok [dc_realm chal; dc_nonce chal; uri; method] -> dc_algorithm chal = pjsip_MD5_STR ->
  qop_offer_ok (dc_qop chal) -> (dc_qop chal <> [] -> cnonce <> [] /\ str_ok cnonce /\ is_u32 nc) ->
  exists cred, respond_digest e pms aka_cb empty_credential chal uri c (Some cnonce) nc method = Some (PJ_SUCCESS, cred)
  /\ right_answer c method chal cred.
Proof.
  intros Hc Hx Hs Ha Hq Hn. rewrite !list.Forall_cons in Hs. destruct Hs as (Hr & Hno & Hu & Hm & _).
  unfold respond_digest. rewrite Ha, Hx. cbn [length pjsip_MD5_STR].
  destruct (negb _) eqn:En; [by vm_compute in En|]. clear En. cbv zeta.
  assert (Hnil : str_ok []) by (apply str_small; [constructor|cbn; lia]).
  destruct (Nat.eqb_spec (length (dc_qop chal)) 0) as [El|El].
  - erewrite create_digest_plain by (done || exact Hc). eexists; split; [done|]. unfold right_answer, credential_ok. cbn. split_and!; [|done..].
    repeat (apply Forall_cons_2; [done|]). apply Forall_nil_2.
  - destruct Hq as [Hq|Hq]; [by rewrite Hq in El|]. rewrite Hq.
    destruct Hn as (Hcn & Hcs & Hnc); [by intros H; rewrite H in El|]. destruct cnonce as [|x cnonce]; [done|].
    assert (Hau : str_ok pjsip_AUTH_STR) by (split; [by repeat constructor|cbn; lia]).
    pose proof (print_nc_ok nc Hnc).
    erewrite create_digest_qop by (done || exact Hc). eexists; split; [done|]. unfold right_answer, credential_ok. cbn -[print_nc]. split_and!; [|done..].
    repeat (apply Forall_cons_2; [done|]). apply Forall_nil_2.
Qed.

Definition cnonce_ok (a : pjsip_cached_auth) : Prop := cached_ok a /\ str_ok (ca_cnonce a).

(** After a challenge with a qop the entry has a cnonce and a nonce count. *)
Lemma update_session_ready cached hdr n : cnonce_ok cached -> same_text (ca_realm cached) (dc_realm (ww_digest hdr)) ->
  exists cached' n', update_digest_session guid cached hdr n = Some (cached', n')
  /\ (dc_qop (ww_digest hdr) <> [] -> ca_cnonce cached' <> [] /\ str_ok (ca_cnonce cached') /\ is_u32 (ca_nc cached')).
Proof.
  intros [Hok Hs] Hr. unfold update_digest_session.
  destruct (Nat.eqb_spec (length (dc_qop (ww_digest hdr))) 0) as [E|E].
  { eexists _, _; split; [done|]. by apply nil_length_inv in E. }
  destruct (Nat.eqb_spec (length (ca_cnonce cached)) 0) as [E1|E1].
  - eexists _, _; split; [done|]. intros _. destruct (Hguid n). by destruct (_ =? 0)%nat.
  - assert (Hne : ca_cnonce cached <> []) by (intros H; by rewrite H in E1). destruct (Hok Hne) as [last El]. rewrite El.
    destruct (_ =? 0); (eexists _, _; split; [done|]); intros _; (split_and!; [exact Hne|exact Hs|]); [apply u32_range|by split].
Qed.

Lemma auth_respond_right hdr uri u c method cached n : cred_ok c -> has_ext c = false -> cnonce_ok cached ->
  same_text (ca_realm cached) (dc_realm (ww_digest hdr)) -> same_text (ww_scheme hdr) pjsip_DIGEST_STR ->
  uri PJSIP_MAX_URL_SIZE = Some u -> u <> [] ->
  Forall str_ok [dc_realm (ww_digest hdr); dc_nonce (ww_digest hdr); u; method] ->
  dc_algorithm (ww_digest hdr) = pjsip_MD5_STR -> qop_offer_ok (dc_qop (ww_digest hdr)) ->
  exists cached' n' cred, auth_respond e pms aka_cb guid hdr uri c method cached n
    = Some (PJ_SUCCESS, cached', n', Some (mk_authz (ww_proxy hdr) pjsip_DIGEST_STR cred))
  /\ right_answer c method (ww_digest hdr) cred.
Proof.
  intros Hc Hx Hok Hr Hsch Hu Hne Hstr Halg Hq. unfold auth_respond. rewrite Hu. destruct u as [|x u]; [done|].
  destruct (same_text_spec (ww_scheme hdr) pjsip_DIGEST_STR); [|done]. cbn [negb].
  destruct (update_session_ready cached hdr n Hok Hr) as (c1 & n1 & -> & Hc1).
  destruct (respond_digest_right (ww_digest hdr) (x :: u) c (ca_cnonce c1) (ca_nc c1) method Hc Hx Hstr Halg Hq Hc1) as (cred & E & Hra).
  cbn [az_digest]. rewrite E. by eexists _, _, _.
Qed.

(** The request has only empty attempts for the realm, if any. *)
Definition fresh_hdr (proxy : bool) (realm : pj_str) (h : sip_hdr) : Prop :=
  match h with
  | HdrAuthorization a => az_proxy a = proxy -> same_text realm (cr_realm (az_digest a)) -> empty_attempt h
  | _ => True
  end.

Lemma scan_fresh hchal hdrs : Forall (fresh_hdr (ww_proxy hchal) (dc_realm (ww_digest hchal))) hdrs ->
  exists before, sent_auth_scan hchal hdrs = (before, None, [])
  /\ find_auth_hdr (ww_proxy hchal) (dc_realm (ww_digest hchal)) before = None.
Proof.
  intros H. induction H as [|h hdrs Hh _ (before & IH1 & IH2)]; [by exists []|]. cbn [sent_auth_scan]. rewrite IH1.
  destruct h as [a| | | |]; try (by eexists; split; [done|exact IH2]).
  destruct (Bool.eqb_spec (az_proxy a) (ww_proxy hchal)) as [Ep|Ep]; cbn [andb].
  2: { eexists; split; [done|]. cbn [find_auth_hdr]. by destruct (Bool.eqb_spec (az_proxy a) (ww_proxy hchal)). }
  destruct (same_text_spec (dc_realm (ww_digest hchal)) (cr_realm (az_digest a))) as [Er|Er].
  - destruct (Hh Ep Er) as [Es El]. destruct (same_text_spec (az_scheme a) pjsip_DIGEST_STR); [|done]. rewrite El. by exists before.
  - eexists; split; [done|]. cbn [find_auth_hdr].
    destruct (same_text_spec (cr_realm (az_digest a)) (dc_realm (ww_digest hchal))) as [E|E]; [by symmetry in E|].
    by rewrite andb_false_r.
Qed.

Lemma find_auth_app proxy realm before a : find_auth_hdr proxy realm before = None -> az_proxy a = proxy ->
  same_text (cr_realm (az_digest a)) realm -> find_auth_hdr proxy realm (before ++ [HdrAuthorization a]) = Some a.
Proof.
  intros Hb Hp Hr. induction before as [|h before IH]; cbn [app find_auth_hdr] in *.
  - rewrite Hp, eqb_reflx. by destruct (same_text_spec (cr_realm (az_digest a)) realm).
  - destruct h; try (by apply IH). destruct (_ && _); [done|by apply IH].
Qed.

Definition no_challenge (h : sip_hdr) : Prop := match h with HdrAuthenticate _ => False | _ => True end.

Lemma reinit_loop_skip others w sess tdata cnt : Forall no_challenge others ->
  reinit_loop e pms aka_cb guid (others ++ [HdrAuthenticate w]) sess tdata cnt
  = reinit_loop e pms aka_cb guid [HdrAuthenticate w] sess tdata cnt.
Proof. intros H. induction H as [|h others Hh _ IH]; [done|]. by destruct h. Qed.

(** What a session needs to answer: entries in order. *)
Definition session_ready (sess : pjsip_auth_clt_sess) : Prop := Forall cnonce_ok (cs_cached_auth sess).

Lemma cached_auth_ready sess hchal : session_ready sess ->
  let '(i, sess') := cached_auth_for sess hchal in
  cs_cred_cnt sess' = cs_cred_cnt sess /\ cs_cred_info sess' = cs_cred_info sess
  /\ exists cached, cs_cached_auth sess' !! i = Some cached /\ cnonce_ok cached
     /\ same_text (ca_realm cached) (dc_realm (ww_digest hchal)).
Proof.
  intros Hok. unfold cached_auth_for. destruct (find_cached_auth (cs_cached_auth sess) _) as [i|] eqn:E.
  - split; [done|]. split; [done|]. destruct (find_cached_some _ _ _ E) as (a & Ea & Hr). exists a. split; [done|].
    split; [by eapply Forall_lookup_1 in Hok|done].
  - split; [done|]. split; [done|]. eexists; split; [by apply list_lookup_middle|].
    split; [|done]. split; [intros Hn; by destruct Hn|]. apply str_small; [constructor|cbn; lia].
Qed.

(** The whole answer to one challenge. *)
Lemma reinit_challenge_right sess tdata hchal c u : session_ready sess ->
  auth_find_cred sess (dc_realm (ww_digest hchal)) = Some (Some c) -> cred_ok c -> has_ext c = false ->
  same_text (ww_scheme hchal) pjsip_DIGEST_STR -> td_uri tdata PJSIP_MAX_URL_SIZE = Some u -> u <> [] ->
  Forall str_ok [dc_realm (ww_digest hchal); dc_nonce (ww_digest hchal); u; td_method tdata] ->
  dc_algorithm (ww_digest hchal) = pjsip_MD5_STR -> qop_offer_ok (dc_qop (ww_digest hchal)) ->
  Forall (fresh_hdr (ww_proxy hchal) (dc_realm (ww_digest hchal))) (td_hdrs tdata) -> Exists is_via (td_hdrs tdata) ->
  exists sess' tdata' cred, reinit_challenge e pms aka_cb guid sess tdata hchal = Some (PJ_SUCCESS, sess', tdata')
  /\ Exists is_via (td_hdrs tdata') /\ right_answer c (td_method tdata) (ww_digest hchal) cred
  /\ find_auth_hdr (ww_proxy hchal) (dc_realm (ww_digest hchal)) (td_hdrs tdata')
     = Some (mk_authz (ww_proxy hchal) pjsip_DIGEST_STR cred).
Proof.
  intros Hok Hf Hc Hx Hsch Hu Hne Hstr Halg Hq Hfr Hvia. unfold reinit_challenge.
  pose proof (cached_auth_ready sess hchal Hok) as H. destruct (cached_auth_for sess hchal) as [i s1].
  destruct H as (E1 & E2 & cached & -> & Hco & Hr). unfold process_auth.
  pose proof (sent_auth_scan_spec hchal (td_hdrs tdata)) as Hscan.
  destruct (scan_fresh hchal (td_hdrs tdata) Hfr) as (before & Es & Hb). rewrite Es in Hscan |- *. destruct Hscan as [_ Hscan].
  replace (auth_find_cred s1 (dc_realm (ww_digest hchal))) with (Some (Some c)) by (rewrite <- Hf; unfold auth_find_cred; by rewrite E1, E2).
  destruct (auth_respond_right hchal (td_uri tdata) u c (td_method tdata) cached (cs_guid s1) Hc Hx Hco Hr Hsch Hu Hne Hstr Halg Hq)
    as (c1 & n1 & cred & -> & Hra).
  eexists _, _, cred; split; [done|]. change (td_hdrs (tdata <| td_hdrs := ?l |>)) with l. split_and!.
  - apply Exists_app. left. specialize (Hscan is_via). rewrite app_nil_r in Hscan. apply Hscan; [|done].
    intros [a| | | |]; [|done..]. by intros _ [].
  - exact Hra.
  - apply find_auth_app; [done|done|]. cbn [az_digest]. by destruct Hra as (_ & _ & -> & _).
Qed.
End Answer.

(** The credential of the server is that of the client: the same user name, and
    the same password or hash for the realm. *)
Definition same_credential (realm : pj_str) (c sc : pjsip_cred_info) : Prop :=
  ci_username sc = ci_username c /\ ci_realm sc = realm /\ rfc_ha1 realm sc = rfc_ha1 realm c.

Lemma right_answer_accepted e pms srv rx c sc a w : length (md_in pms) = 64%nat ->
  rd_is_request rx = true -> str_ok (rd_method rx) -> cred_ok sc -> str_ok (srv_realm srv) ->
  find_auth_hdr (srv_is_proxy srv) (srv_realm srv) (rd_hdrs rx) = Some a ->
  same_text (az_scheme a) pjsip_DIGEST_STR -> dc_realm w = srv_realm srv ->
  right_answer c (rd_method rx) w (az_digest a) -> same_credential (srv_realm srv) c sc ->
  lookup_cred srv (ci_username c) rx = Some (PJ_SUCCESS, sc) ->
  pjsip_auth_srv_verify e pms srv rx = Some (PJ_SUCCESS, Some 200).
Proof.
  intros Hp Hq Hm Hc Hr Hf Hs Hw (Ha & Hu & Hre & Hresp) (Su & Sr & Sh) Hl. unfold pjsip_auth_srv_verify. rewrite Hq, Hf. cbn [negb].
  destruct (same_text_spec (az_scheme a) pjsip_DIGEST_STR); [|done]. cbn [negb]. rewrite Hu, Hl. cbn [negb].
  destruct (auth_verify_spec e pms a (rd_method rx) sc Hp Ha Hm Hc ltac:(by rewrite Sr) Hs) as (st & Ev & Hst).
  assert (st = PJ_SUCCESS) as ->; [|change (PJ_SUCCESS =? PJ_SUCCESS) with true; cbn [negb]; by rewrite Ev].
  apply Hst. split_and!; [congruence|congruence|]. unfold expected_response. rewrite Sr, Sh.
  rewrite Hw in Hresp. rewrite <- Hresp. apply same_text_lower; [|done]. rewrite Hresp. apply rfc_digest_lower.
Qed.

(** C15. The answer of the client to a challenge of the server is accepted: a
    session that has the credential answers the response with a request whose
    Authorization header the server finds, verifies, and accepts with code 200.
    It holds with and without a qop, for 401 and 407, on machines of different
    byte order, with passwords or hashes on either side, whatever other headers
    the messages have and whatever earlier challenges the session has seen. *)
Theorem sip_challenge_accepted e pms e' pms' aka_cb guid rand srv qop nonce opaque stale others sess tdata c sc u code :
  length (md_in pms) = 64%nat -> length (md_in pms') = 64%nat -> (forall n, guid n <> [] /\ str_ok (guid n)) ->
  Forall str_ok [srv_realm srv; default [] nonce; u; td_method tdata] -> qop_offer_ok (default [] qop) ->
  code = 401 \/ code = 407 -> Forall no_challenge others ->
  session_ready sess -> auth_find_cred sess (srv_realm srv) = Some (Some c) -> cred_ok c -> has_ext c = false ->
  td_is_request tdata = true -> td_uri tdata PJSIP_MAX_URL_SIZE = Some u -> u <> [] ->
  Forall (fresh_hdr (srv_is_proxy srv) (srv_realm srv)) (td_hdrs tdata) -> Exists is_via (td_hdrs tdata) ->
  cred_ok sc -> same_credential (srv_realm srv) c sc ->
  (forall rx, lookup_cred srv (ci_username c) rx = Some (PJ_SUCCESS, sc)) ->
  exists sess' tdata',
    pjsip_auth_clt_reinit_req e pms aka_cb guid sess
      (mk_rdata false [] code (pjsip_auth_srv_challenge rand srv qop nonce opaque stale others)) tdata
    = Some (PJ_SUCCESS, sess', tdata')
  /\ forall rx, rd_is_request rx = true -> rd_method rx = td_method tdata -> rd_hdrs rx = td_hdrs tdata' ->
       pjsip_auth_srv_verify e' pms' srv rx = Some (PJ_SUCCESS, Some 200).
Proof.
  intros Hp Hp' Hg Hstr Hq Hcode Hoth Hok Hf Hc Hx Hreq Hu Hne Hfr Hvia Hsc Hsame Hlk.
  rewrite !list.Forall_cons in Hstr. destruct Hstr as (Hr & Hno & Hu' & Hm & _).
  set (w := mk_www (srv_is_proxy srv) pjsip_DIGEST_STR
              (mk_challenge (srv_realm srv) [] (match nonce with Some s => s | None => pj_create_random_string rand 0 16 end)
                 (match opaque with Some s => s | None => pj_create_random_string rand (match nonce with Some _ => O | None => 2%nat end) 16 end)
                 stale pjsip_MD5_STR (default [] qop))).
  assert (Ew : pjsip_auth_srv_challenge rand srv qop nonce opaque stale others = others ++ [HdrAuthenticate w])
    by (unfold pjsip_auth_srv_challenge; by destruct nonce).
  unfold pjsip_auth_clt_reinit_req. cbn [rd_is_request rd_code rd_hdrs]. rewrite Hreq, Ew, reinit_loop_skip by exact Hoth. cbn [negb].
  replace (negb _) with false by (by destruct Hcode as [->| ->]). cbn [reinit_loop]. set (t0 := tdata <| td_auth_retry := false |>).
  destruct (reinit_challenge_right e pms aka_cb guid Hp Hg sess t0 w c u Hok Hf Hc Hx) as (s1 & t1 & cred & -> & Hv & Hra & Hfind);
    [done|exact Hu|exact Hne| |done|exact Hq|exact Hfr|exact Hvia|].
  { repeat (apply Forall_cons_2; [first [assumption|destruct nonce; [exact Hno|apply random_string_ok]]|]). apply Forall_nil_2. }
  change (PJ_SUCCESS =? PJ_SUCCESS) with true. cbn [negb Nat.eqb].
  destruct (reset_branch_spec (td_hdrs t1) Hv) as (hdrs & -> & Ha & _). eexists _, _; split; [done|]. intros rx Hrq Hrm Hrh.
  eapply (right_answer_accepted e' pms' srv rx c sc (mk_authz (srv_is_proxy srv) pjsip_DIGEST_STR cred) (ww_digest w)); try done.
  - by rewrite Hrm.
  - etransitivity; [|exact Hfind]. rewrite Hrh, find_auth_auths, (find_auth_auths _ _ (td_hdrs t1)), <- Ha. do 2 f_equal.
    exact (restore_route_omap as_authorization (t1 <| td_hdrs := hdrs |>) ltac:(done)).
  - by rewrite Hrm.
Qed.

(** ** An exchange *)

Definition demo_cred : pjsip_cred_info :=
  mk_cred_info (cstr "example.org") (cstr "digest") (cstr "alice") PJSIP_CRED_DATA_PLAIN_PASSWD (cstr "secret") [] [] [].
Definition demo_srv : pjsip_auth_srv := pjsip_auth_srv_init (cstr "example.org") (fun _ _ => (PJ_SUCCESS, demo_cred)) 0.
Definition demo_sess : pjsip_auth_clt_sess :=
  snd (pjsip_auth_clt_set_credentials (mk_sess (mk_pref false []) 0 [] [] 0) [demo_cred]).
Definition demo_request : pjsip_tx_data :=
  mk_tdata true (cstr "REGISTER") (fun _ => Some (cstr "sip:example.org")) [HdrVia (cstr "z9hG4bK1"); HdrOther 7] None false true 1.
Definition demo_guid (_ : nat) : pj_str := cstr "0a4f113b".
Definition no_aka (_ : pjsip_digest_challenge) (_ : pjsip_cred_info) (_ : pj_str) (d : pjsip_digest_credential)
    : pj_status_t * pjsip_digest_credential := (PJ_SUCCESS, d).
(** A 401 with a challenge of the server. *)
Definition demo_challenge (qop nonce : pj_str) : pjsip_rx_data :=
  mk_rdata false [] 401 (pjsip_auth_srv_challenge (fun _ => 0) demo_srv (Some qop) (Some nonce) None 0 [HdrOther 1]).

(** A string of the program is acceptable when a computation says so. *)
Definition str_okb (s : pj_str) : bool := forallb (fun c => (0 <=? c) && (c <? 256)) s && (Z.of_nat (length s) <? 2 ^ 32).
Lemma str_okb_ok s : str_okb s = true -> str_ok s.
Proof.
  unfold str_okb. intros [H1 H2]%andb_true_iff. split; [|lia]. apply List.Forall_forall. intros c Hc.
  rewrite forallb_forall in H1. specialize (H1 c Hc). unfold is_u8. lia.
Qed.
Lemma str_okb_all l : forallb str_okb l = true -> Forall str_ok l.
Proof. intros H. apply List.Forall_forall. intros s Hs. rewrite forallb_forall in H. by apply str_okb_ok, H. Qed.

Lemma demo_cred_ok : cred_ok demo_cred.
Proof. split_and!; [by apply str_okb_ok..|by left]. Qed.

Lemma sip_challenge_accepted_witness :
  exists sess' tdata',
    pjsip_auth_clt_reinit_req LittleEndian wild_md5 no_aka demo_guid demo_sess (demo_challenge (cstr "auth") (cstr "n1")) demo_request
    = Some (PJ_SUCCESS, sess', tdata')
  /\ forall rx, rd_is_request rx = true -> rd_method rx = cstr "REGISTER" -> rd_hdrs rx = td_hdrs tdata' ->
       pjsip_auth_srv_verify BigEndian wild_md5 demo_srv rx = Some (PJ_SUCCESS, Some 200).
Proof.
  apply (sip_challenge_accepted LittleEndian wild_md5 BigEndian wild_md5 no_aka demo_guid (fun _ => 0) demo_srv (Some (cstr "auth"))
           (Some (cstr "n1")) None 0 [HdrOther 1] demo_sess demo_request demo_cred demo_cred (cstr "sip:example.org") 401);
    try reflexivity; try exact demo_cred_ok; try discriminate.
  - intros n. split; [discriminate|by apply str_okb_ok].
  - by apply str_okb_all.
  - by right.
  - by left.
  - by apply Forall_cons_2; [|apply Forall_nil_2].
  - apply Forall_nil_2.
  - by repeat (apply Forall_cons_2; [done|]); apply Forall_nil_2.
  - left. by eexists.
  - done.
Defined.

(** The three answers to four challenges. *)
Definition demo_challenges : list pjsip_rx_data :=
  map (fun s => demo_challenge (cstr "auth") s) [cstr "n1"; cstr "n2"; cstr "n3"; cstr "n4"].

Lemma sip_retries_bounded_witness :
  sent_again LittleEndian wild_md5 no_aka demo_guid demo_challenges demo_sess demo_request = Some 3%nat
  /\ exists n, sent_again LittleEndian wild_md5 no_aka demo_guid demo_challenges demo_sess demo_request = Some n /\ (n <= 3)%nat.
Proof.
  split; [vm_compute; reflexivity|].
  apply (sip_retries_bounded LittleEndian wild_md5 no_aka demo_guid demo_sess demo_request demo_sess demo_request false (cstr "example.org")).
  - split; [|apply Forall_nil_2]. exists [demo_cred]. split; [reflexivity|].
    apply Forall_cons_2; [split; [by left|reflexivity]|apply Forall_nil_2].
  - left. by eexists.
  - reflexivity.
  - repeat (apply Forall_cons_2; [right; left; split; reflexivity|]). apply Forall_nil_2.
Defined.

(** A request of the example, and what the server says to it. *)
Definition demo_incoming (response : pj_str) : pjsip_rx_data :=
  mk_rdata true (cstr "REGISTER") 0
    [HdrOther 1; HdrAuthorization (mk_authz false (cstr "digest")
       (mk_credential (cstr "example.org") (cstr "alice") (cstr "n1") (cstr "sip:example.org") response [] [] [] [] []))].

Lemma sip_verify_exact_witness :
  exists st code, pjsip_auth_srv_verify LittleEndian wild_md5 demo_srv (demo_incoming (cstr "0123")) = Some (st, Some code)
  /\ (st = PJ_SUCCESS <-> authentic demo_srv (demo_incoming (cstr "0123"))) /\ (st = PJ_SUCCESS <-> code = 200)
  /\ (st <> PJ_SUCCESS -> code = 403).
Proof.
  apply (sip_verify_exact LittleEndian wild_md5 demo_srv (demo_incoming (cstr "0123"))).
  - reflexivity.
  - split_and!; [reflexivity|by apply str_okb_ok|]. apply Forall_cons_2; [exact I|]. apply Forall_cons_2; [by apply str_okb_all|apply Forall_nil_2].
  - intros name. eexists _, _. split; [reflexivity|]. intros _. split; [exact demo_cred_ok|by apply str_okb_ok].
Defined.

(** ** Defects *)

(** Credentials that are refused leave the count of the old ones in front of an
    array nobody has written. *)
Lemma refused_credentials_are_read :
  let aka := demo_cred <| ci_data_type := PJSIP_CRED_DATA_EXT_AKA |> in
  let '(st, sess) := pjsip_auth_clt_set_credentials demo_sess [aka] in
  st = PJSIP_EAUTHINAKACRED /\ cs_cred_cnt sess = 1%nat /\ auth_find_cred sess (cstr "example.org") = None.
Proof. by vm_compute. Qed.

Definition demo_chal (qop : pj_str) : pjsip_digest_challenge :=
  mk_challenge (cstr "example.org") [] (cstr "n1") [] 0 (cstr "MD5") qop.

(** Without a session ([PJSIP_AUTH_QOP_SUPPORT] 0) the cnonce is null, and a
    challenge with a qop dereferences it; an empty one is replaced in the header
    but not in the digest. *)
Lemma null_cnonce_is_read nc : respond_digest LittleEndian wild_md5 no_aka empty_credential (demo_chal (cstr "auth")) (cstr "sip:example.org")
  demo_cred None nc (cstr "REGISTER") = None.
Proof. reflexivity. Qed.

Lemma empty_cnonce_digest_differs :
  match respond_digest LittleEndian wild_md5 no_aka empty_credential (demo_chal (cstr "auth")) (cstr "sip:example.org")
          demo_cred (Some []) 1 (cstr "REGISTER") with
  | Some (st, cred) =>
      st = PJ_SUCCESS
      /\ pjsip_auth_verify LittleEndian wild_md5 (mk_authz false pjsip_DIGEST_STR cred) (cstr "REGISTER") demo_cred
         = Some PJSIP_EAUTHINVALIDDIGEST
  | None => False
  end.
Proof. vm_compute. by split. Qed.

(** White space behind the token hides it; a longer token that ends in it does not. *)
Lemma qop_tokens : has_auth_qop (cstr "auth ,auth-int") = false /\ has_auth_qop (cstr "xauth") = true.
Proof. by split. Qed.

(** The tenth request has the decimal count, not [0000000a]. *)
Lemma nonce_count_decimal : print_nc 10 = cstr "00000010".
Proof. reflexivity. Qed.
